(* ===== verification/_CoqProject ===== *)
-Q . S2P
Prelude.v
Ring.v
UartTx.v
Serial.v
AtCmd.v
Screens.v
Camera.v
Gps.v
Voice.v
Peripherals.v
Gnss.v
FinshShell.v
FinshSym.v
FinshVm.v
FinshNode.v
FinshCompiler.v
FinshExpr.v
FinshCorrect.v
FinshHeap.v
FinshBlocks.v
FinshToken.v
FinshLex.v
FinshParser.v
FinshParse.v
FinshLine.v
DfsPath.v
Dfs.v
DfsPosix.v
RomFs.v
DfsFiles.v
RomFiles.v
Zmodem.v
ZCrc.v
ZFrames.v
ZTransfer.v
ZSession.v
ZReceive.v
ZExchange.v
Threads.v
Pthread.v
PthreadLock.v
CTime.v
CRand.v
CSort.v
DevFs.v
CString.v
CText.v
