(* ===== verification/Prelude.v ===== *)
(** * SmartTerminal: a verification library

    The repository is the firmware of a vehicle terminal: an STM32F103 running
    RT-Thread, with a modem, a GPS receiver, a camera, a voice channel, two
    screens, a card reader and a command shell.  Each part is a thread or a
    driver with state of its own; they meet through device calls, mailboxes,
    events, semaphores and the interrupt handlers.  This library models the parts
    that carry logic, as functions on explicit states, and proves what makes
    them correct, or exactly how they fail.

    ** Conventions

    A C function is a function into [res] (a value or a [fault]) or [ST S] (the
    same with the file's globals [S] threaded through).  A fault stands for what
    the program must never do: an access outside an array, a null or freed
    pointer, a failed [RT_ASSERT].  "Never faults" is therefore part of every
    theorem that concludes [= Ret ...].  Integers are [Z] with the wrap-around
    of their width written out ([u8], [u16], [u32], [s8] ...); arrays are lists
    accessed through [idx], [upd] and [upd_range], which fault out of range; heap
    objects that are shared live in [gmap]s from addresses.  Uninitialised memory
    is a parameter (named [junk...]), as is whatever comes from outside: bytes
    received, clock ticks, results of kernel calls.  The kernel's sources are not
    in the repository (only src/RTT/include); its semaphores, mailboxes and
    events are modelled by their documented effect in the component that uses
    them, or are a class of operations with laws ([Pthread.Kernel]).  Where threads
    and interrupts interleave, the theorem quantifies over every sequence of the
    steps.

    ** Parts

    - [Prelude]: outcomes, machine integers, arrays, C strings, tactics.
    - [Ring]: the circular list of [Ready]-flagged nodes, as a bounded queue;
      used by [Voice].
    - [UartTx]: src/MySouce/UART1_new .c.  Pointer lists of transmit buffers, with
      [rt_device_write] in four steps between which the DMA interrupt may come
      ([write_interrupted]), open and close.  [uart_fifo] (nothing is lost or sent
      twice, in order as long as no interrupt hits the window of a write),
      [uart_refines_queue] (refinement of a bounded FIFO of blocks), [uart_live]
      (while interrupts come, every accepted block is started), and the lemmas
      [uart_close_frees], and [uart_write_race] and [uart_list_race], what happens in the
      window and in the middle of a list operation.
    - [Serial]: src/MySouce/serial.c.  Receive ring of 64 bytes, DMA transmit list,
      polling modes.  [serial_rx_queue] (the ring keeps the newest 63 bytes),
      [serial_dma_fifo], [serial_init_ready], [serial_poll_overrun].
    - [AtCmd]: src/MySouce/ATcmd/AT_APP.c.  The line mailbox between receiver and
      thread, command recognition, the dialling state machine and the wait for the
      event of a connection when the other side closes.
      [at_lines_in_order] (refinement under every interleaving, that wait included),
      [at_decode_spec], [at_dial]; [at_line_overflow], [at_state4_trap].
    - [Screens]: src/MySouce/PCP/AdscreenAPP.c (module [Ads]) and LCDAPP.c (module
      [Lcd], whose thread and callers take single steps) over a common scanner
      (module [Scan]).  [frames_delivered] (any stream of bytes against its split at
      the flags, and the mailbox), [ads_session], [lcd_safe]; [ads_spurious_frame],
      [lcd_event_lost], [lcd_text_race], [lcd_overflow].
    - [Camera]: src/MySouce/PCP/CameraAPP.c; what is written, and whether files can be
      opened and renamed, is a parameter of each turn.  [camera_bounds],
      [camera_picture]; [camera_short_end], [camera_cut], [camera_open_failed].
    - [Gps]: src/MySouce/PCP/GPSAPP.c with the [sscanf] calls it makes and its
      binary64 speed computation (on [SpecFloat]).  [gps_tenth_reported] (whose time and
      speed are not what GNSS.h documents: [speed_undocumented]); [gps_leak].
    - [Voice]: src/MySouce/Vocoder/RecordAPP.c (module [Recorder]) and SoundAPP.c
      (module [Player]); the Speex codec is a parameter.  [record_frames],
      [player_queue].
    - [Peripherals]: src/MySouce/LED, src/MySouce/Keyboard (module [Panel]),
      src/MySouce/RFID/RFID_APP.c (module [Rfid], over the class [Reader] for the
      driver and [Card] for what a card promises) and
      src/MySouce/cpuUsage/cpuusage.c (module [Cpu]).  [panel_beeps],
      [panel_recorder], [rfid_card], [rfid_announces], [cpu_load].
    - [Gnss]: src/MySouce/GNSS/GNSS_Splitter.c and GNSS_APP.c.  The splitter hands
      voice packets to [Voice.Player] and starts upload threads.
      [picture_uploaded] (from the platform's command to the last packet),
      [gnss_dispatch], [register_bypass], [register_dialogue_spec];
      [upload_leaks_descriptors], [upload_read_error].
    - [FinshShell]: src/RTT/components/finsh/shell.c and the completion of cmd.c
      ([list_prefix]).  The line editor, its completion and its history refine the
      plain editor [Editor] ([shell_refines_editor]);
      [shell_long_line] is the bound.
    - [FinshSym]: finsh_var.c and the name lookups of finsh_vm.c and
      finsh_node.c.  [finsh_variables]; [finsh_delete_clobbers].
    - The shell's interpreter, a compiler and a machine of a few hundred bytes
      (all under src/RTT/components/finsh):
      [FinshVm] (finsh_vm.c, finsh_ops.c; the stack machine, over the class
      [Machine] for memory and native functions; [finsh_vm_halts]);
      [FinshNode] (finsh_node.c; the pool of nodes and the trees);
      [FinshCompiler] (finsh_compiler.c; type check and code generation);
      [FinshExpr] (the reference: expressions, their meaning [eval], the trees
      [raw] and code they should get) and [FinshCorrect] (the code of a well-typed
      program computes its meaning: [finsh_code_correct], [finsh_types]; what
      fails: [finsh_text_overflow], [finsh_call_operand]);
      [FinshHeap] (finsh_heap.c; the heap for strings) and [FinshBlocks] (its
      refinement to a list of blocks that tile it: [finsh_heap_refines],
      [finsh_heap_safe]);
      [FinshToken] (finsh_token.c) and [FinshLex] (printed tokens are read back:
      [finsh_tokens_roundtrip]);
      [FinshParser] (finsh_parser.c) and [FinshParse] (printed statements are
      parsed into their trees: [finsh_parse_roundtrip]);
      [FinshLine] ([finsh_run_line] of shell.c, finsh_init.c, finsh_error.c), where
      these meet: a printed, well-typed line is tokenised, parsed, checked,
      compiled and run, and does what its statements mean
      ([finsh_line_correct]).

    - The device file system (src/RTT/components/dfs):
      [DfsPath] (dfs.c: the path functions, in place as written, against the names of
      an absolute path: [dfs_path_resolves], [dfs_path_canonical]; above the root:
      [above_root]);
      [Dfs] (dfs.c, dfs_fs.c and dfs_file.c: the tables of file systems, mounts
      and descriptors, and the calls that go through them);
      [DfsPosix] (dfs_posix.c and the shell commands over it: [open], [read],
      [mkdir], [ls], [cat], [copy] and the rest);
      [DfsFiles] (their theorems: [dfs_lookup_deepest], [mkdir_exhausts],
      [cat_never_ends]);
      [RomFs] (dfs_romfs.c over a read-only tree of entries) and [RomFiles] (the
      same calls on that file system: [romfs_lookup_exact], [rom_cat], and
      [rom_descriptors_refine], which refines interleaved opens, reads, seeks and
      closes to a map from descriptor numbers to a file's bytes and a position);
      [DevFs] (devfs.c: the kernel's devices as files of one directory, over the
      class [DevFs.Devices]; [devfs_lists_devices], and what goes wrong:
      [open_without_memory], [open_device_as_directory], [devfs_namlen]).
    - The file transfer over the console (src/RTT/components/utilities/zmodem):
      [Zmodem] (crc.h, zdevice.c, zcore.c: the line, characters with escapes, data
      frames and headers of the three formats, in both directions);
      [ZCrc] (the tables against division of polynomials, residues, what damage a
      check finds) and [ZFrames] (what is sent, as lists of bytes, and that it is
      read back);
      [ZTransfer] (rz.c, sz.c, zstart.c: the sessions and the commands);
      [ZSession] (the sender against a description of what goes over the line,
      [transfer] and [answers]) and [ZReceive] (the receiver against the same);
      [ZExchange] (the theorems: [zmodem_transfer], a file goes from one end to the
      other; [zmodem_frame_roundtrip], [zmodem_damage], [zmodem_crc]; and
      [zmodem_refuses_crc32] with [terminals_refuse]: a receiver refuses every frame
      of the kind it announces, so two terminals cannot exchange a file; the loop that
      reads such a frame compares with a pointer nobody has set, and the session is
      followed for the values of it that leave room, which the theorem says).
    - The POSIX thread objects (src/RTT/components/pthreads):
      [Threads] (programs of several threads, their execution under a schedule, and
      a program logic with an invariant of the shared state and a ghost value per
      thread; [run_invariant] is its soundness);
      [Pthread] (pthread_mutex.c, pthread_cond.c, pthread_rwlock.c, pthread_barrier.c
      and pthread_spin.c as such programs, every access to a member a step of its
      own; module [Rtt] is a kernel to run them on);
      [PthreadLock] (their theorems: [rwlock_exclusion], a writer is alone under every
      schedule; [barrier_hangs], a lost wake-up; and the runs that show
      [static_initialiser_race], [destroy_idle_busy], [destroy_keeps_mutex] and
      [spin_lock_taken]).
    - The C library (src/RTT/components/libc/minilibc):
      [CTime] (time.c against a calendar that counts days: [gmtime_calendar],
      [time_roundtrip]; dates out of range: [timegm_day_32], [timegm_month_13],
      [timegm_month_12]; [ctime_text]);
      [CRand] (rand.c: [rand_bounds], and the full period, [rand_period]);
      [CSort] (qsort.c: [qsort_sorts]; [exch_elements] connects elements with bytes);
      [CString] (string.c and the [atoi] of stdlib.c, on one memory of bytes in which
      strings may overlap) and [CText] (what its functions compute: [strcpy_spec],
      [strlcpy_spec], [strcat_spec], [strcmp_spec], [strchr_spec], [strtok_tokens],
      [atoi_spec] and their relatives; [scan_char_two], [scan_negative],
      [scan_width_kept], [strncmp_sign], where they are not those of the standard).

    ** Interfaces

    The machine and the code generator see memory and native functions through
    [FinshVm.Machine]; the node constructors see the heap through
    [FinshNode.StringHeap], which [FinshHeap.finsh_strings] implements; the card
    reader is seen through [Peripherals.Rfid.Reader].  A file system is a
    [Dfs.dfs_filesystem_operation], C's struct of function pointers as a record of
    optional operations over the driver's state and private data, of which
    [RomFs.romfs] and [DevFs.devfs] are two; the theorems of [DfsFiles] hold for every such record.
    The locks see the kernel through [Pthread.Kernel]; what their exclusion needs of
    it is [Pthread.MutexLaws], which says nothing of semaphores, and [Pthread.Rtt]
    satisfies it.  Sorting takes any comparison of the class [CSort.Ordering], and the
    string functions the kernel's [CString.KernelString], with the laws
    [CText.KernelStringLaws], which [CText.Kstr] satisfies.
    The transfer sees files through [ZTransfer.FileApi], of which the calls of
    [DfsPosix] are an instance; what its two ends need of them are the classes
    [ZSession.Source] (a file that can be read) and [ZReceive.Sink] (a directory
    that can take one), and [ZExchange.Disk] is an instance of both.
    Variables of the shell live in memory at [FinshCompiler.var_value]; the record [FinshSym.finsh_var] holds
    their names and types (its value field is what the table functions copy).

    ** Bounds and fuel

    Loops over data recurse on the data.  Fuel appears where the code waits for
    something outside or recurses through other functions: the upload loop
    ([Gnss.upload_loop], enough for a file of 512 * (fuel - 1) bytes, which
    [picture] asks for), the card that must leave ([Rfid.wait_leave], two searches
    a turn), the machine (128 turns, enough for every program by
    [finsh_vm_halts]), the loops of the tokeniser (the length of the line), the
    parser (twice the size of the line's expressions, by
    [finsh_parse_roundtrip]) and the scans of the heap (sixteen, the number of
    headers that fit into it, by [finsh_heap_refines]), and the loops of [cat]
    (80 bytes a turn; [rom_cat] says how many a file takes) and of [copy].
    The path functions take the length of the path, and the loops of the transfer
    that wait for a frame the length of the line, of which every turn takes a byte;
    the blocks of a file that is sent are counted by [blocks], and
    [zmodem_transfer] says how many a file takes.  A line that ends is a wait for
    ever, which is running out of fuel too.  [gmtime_r] takes 137 years, which
    is all that 32 bits of seconds reach, the string functions the size of the memory,
    which a growing pointer leaves sooner, and [qsort] one level of recursion more
    than there are elements; a schedule of threads is a list of any length.  Running
    out is a result of its own, and the theorems that conclude success show that it does not happen;
    [upload_read_error] holds for every amount of fuel.

    ** Not modelled

    Register programming of pins, timers, DMA channels and buses; the drivers
    whose sources are missing (modem, GPS, camera and reader devices, the
    protocol libraries PCP and GNSS); printing, apart from the result of a line of
    the shell and the output of the file commands; third-party code (network
    stacks, the file systems under dfs/filesystems other than romfs and devfs, graphics
    and image libraries).  Of the shell: the commands of cmd.c (but for its completion), and writes
    through pointers into the machine's own text, stack or heap headers, which
    are not memory of [Machine] here.  Of the C library: the allocation
    calls of stdlib.c, math.c and the glue to newlib; theorems about [CString.vsscanf]
    are examples only.  Of the threads: their creation, cancellation and
    thread-local data, message queues and named semaphores; priorities, which no
    theorem depends on since the schedule is arbitrary.  Of the transfer: delays, the thread
    that a command starts (its body is run), and that the text it prints goes over
    the line that carries it: printed text is kept apart in [Zmodem.says], and
    [zmodem_transfer] allows such text in front of the transfer.

    ** Plan

    Next: [CString.vsscanf] against a reading of its format; a sender to a receiver
    that asks for the 32 bit check; the romfs as a [Source]; the declarations of the
    shell ([FinshParser.proc_variable_decl]) in the round trip; the mailbox of
    [AtCmd] stated over [Ring]. *)

From Stdlib Require Export ZArith Lia.
From Stdlib Require Export Ascii String.
From stdpp Require Export base numbers option gmap functions.
From stdpp Require Export list.

Open Scope Z_scope.

(** ** Outcomes of C code

    A C statement either completes or reaches behaviour the program must
    never exhibit; the latter is a value of [fault], so that "the code never
    faults" is an ordinary theorem. *)

Inductive fault :=
  | OutOfBounds      (**r an array is accessed outside its bounds *)
  | NullDeref        (**r a null (or unmapped) pointer is dereferenced *)
  | UseAfterFree     (**r freed memory is used or freed again *)
  | BadOpcode        (**r a call through an entry that is not a function *)
  | DivByZero        (**r integer division by zero *)
  | BadShift         (**r a shift by a negative amount or by the width or more *)
  | AssertFail       (**r [RT_ASSERT] of a false condition *)
  | OutOfFuel.       (**r the model's loop bound is exhausted *)

#[global] Instance fault_eq_dec : EqDecision fault.
Proof. solve_decision. Defined.

Inductive res (A : Type) :=
  | Ret (a : A)
  | Err (f : fault).
Arguments Ret {A} a.
Arguments Err {A} f.

#[global] Instance res_ret : MRet res := fun A a => Ret a.
#[global] Instance res_bind : MBind res :=
  fun A B k m => match m with Ret a => k a | Err f => Err f end.
#[global] Instance res_fmap : FMap res :=
  fun A B g m => match m with Ret a => Ret (g a) | Err f => Err f end.

Definition RT_ASSERT (b : bool) : res unit := if b then Ret tt else Err AssertFail.

(** The state monad over [res]: a C function that updates the globals of its
    file. *)
Definition ST (S A : Type) : Type := S -> res (A * S).

#[global] Instance st_ret S : MRet (ST S) := fun A a s => Ret (a, s).
#[global] Instance st_bind S : MBind (ST S) :=
  fun A B k m s => match m s with Ret (a, s') => k a s' | Err f => Err f end.

Definition get {S} : ST S S := fun s => Ret (s, s).
Definition put {S} (s : S) : ST S unit := fun _ => Ret (tt, s).
Definition modify {S} (g : S -> S) : ST S unit := fun s => Ret (tt, g s).
Definition lift {S A} (r : res A) : ST S A :=
  fun s => match r with Ret a => Ret (a, s) | Err f => Err f end.

(** ** Machine integers

    Unsigned [w]-bit values are [Z]s in [0, 2^w); [s8], [s16] and [s32] read
    the two's complement value of the low bits. *)

Definition wrap (w x : Z) : Z := x mod 2 ^ w.
Definition swrap (w x : Z) : Z := (x + 2 ^ (w - 1)) mod 2 ^ w - 2 ^ (w - 1).
Abbreviation u8 := (wrap 8).
Abbreviation u16 := (wrap 16).
Abbreviation u32 := (wrap 32).
Abbreviation s8 := (swrap 8).
Abbreviation s16 := (swrap 16).
Abbreviation s32 := (swrap 32).

Definition byte (x : Z) : Prop := 0 <= x < 256.

(** ** Arrays indexed by C integers *)

Section arrays.
Context {A : Type}.

(** [a[i]] and [a[i] = x] on an array of known bounds. *)
Definition idx (l : list A) (i : Z) : res A :=
  if decide (0 <= i) then
    match l !! Z.to_nat i with Some x => Ret x | None => Err OutOfBounds end
  else Err OutOfBounds.

Definition upd (l : list A) (i : Z) (x : A) : res (list A) :=
  if decide (0 <= i < Z.of_nat (length l)) then Ret (<[Z.to_nat i := x]> l)
  else Err OutOfBounds.

(** [memcpy (a + i, src, |src|)] *)
Definition upd_range (l : list A) (i : Z) (src : list A) : res (list A) :=
  if decide (0 <= i /\ i + Z.of_nat (length src) <= Z.of_nat (length l)) then
    Ret (take (Z.to_nat i) l ++ src ++ drop (Z.to_nat i + length src) l)
  else Err OutOfBounds.
End arrays.

(** ** Bytes and C strings *)

(** The bytes of a string literal, without its terminator. *)
Definition str (s : string) : list Z :=
  (fun a => Z.of_N (N_of_ascii a)) <$> list_ascii_of_string s.
Arguments str s%_string.

(** The C string stored at the start of [l]; reading past the end of [l] for a
    missing terminator is out of bounds. *)
Fixpoint cstr (l : list Z) : res (list Z) :=
  match l with
  | [] => Err OutOfBounds
  | c :: l => if c =? 0 then mret [] else s ← cstr l; mret (c :: s)
  end.

(** ** Automation *)

Create HintDb term.

(** Exposes the states a monadic body threads. *)
Ltac unfold_st :=
  unfold mbind, mret, st_bind, st_ret, res_bind, res_ret, get, put, modify, lift in *;
  cbn beta iota in *.

(** Closes side goals of integer arithmetic with [wrap] and [swrap] in them. *)
Ltac wrap_lia :=
  unfold wrap, swrap, byte in *;
  repeat match goal with
  | |- context [2 ^ ?w] => let v := eval vm_compute in (2 ^ w) in change (2 ^ w) with v
  | H : context [2 ^ ?w] |- _ => let v := eval vm_compute in (2 ^ w) in change (2 ^ w) with v in H
  end; Z.div_mod_to_equations; lia.

(** ** Lemmas on outcomes *)

Lemma bind_Ret {A B} (m : res A) (k : A -> res B) b :
  (m ≫= k) = Ret b <-> exists a, m = Ret a /\ k a = Ret b.
Proof. destruct m; cbn; split; naive_solver. Qed.

Lemma st_bind_Ret {S A B} (m : ST S A) (k : A -> ST S B) s b s' :
  (m ≫= k) s = Ret (b, s') <-> exists a s1, m s = Ret (a, s1) /\ k a s1 = Ret (b, s').
Proof.
  unfold mbind, st_bind. destruct (m s) as [[a s1]|f]; split; naive_solver.
Qed.

Lemma st_bind_run {S A B} (m : ST S A) (k : A -> ST S B) s a s' :
  m s = Ret (a, s') -> (m ≫= k) s = k a s'.
Proof. intros Hm. unfold mbind, st_bind. by rewrite Hm. Qed.

Lemma st_bind_run2 {S A B C} (m : ST S A) (f : A -> ST S B) (k : B -> ST S C) s b s' :
  (m ≫= f) s = Ret (b, s') -> (m ≫= fun x => f x ≫= k) s = k b s'.
Proof. unfold mbind, st_bind. destruct (m s) as [[a s1]|]; [|done]. by intros ->. Qed.

Lemma st_ret_bind {S A B} (a : A) (k : A -> ST S B) s : (mret a ≫= k) s = k a s.
Proof. done. Qed.

Lemma st_get_bind {S A} (k : S -> ST S A) s : (get ≫= k) s = k s s.
Proof. done. Qed.

Lemma st_modify_bind {S A} (g : S -> S) (k : unit -> ST S A) s : (modify g ≫= k) s = k tt (g s).
Proof. done. Qed.

(** ** Lemmas on machine integers *)

Lemma wrap_bounds w x : 0 <= w -> 0 <= wrap w x < 2 ^ w.
Proof. intros. apply Z.mod_pos_bound. lia. Qed.

Lemma wrap_id w x : 0 <= x < 2 ^ w -> wrap w x = x.
Proof. intros. apply Z.mod_small. done. Qed.

Lemma wrap_wrap w x : wrap w (wrap w x) = wrap w x.
Proof. apply Zmod_mod. Qed.

Lemma wrap_add_l w x y : wrap w (wrap w x + y) = wrap w (x + y).
Proof. apply Zplus_mod_idemp_l. Qed.

Lemma wrap_add_r w x y : wrap w (x + wrap w y) = wrap w (x + y).
Proof. apply Zplus_mod_idemp_r. Qed.

Lemma wrap_mul_l w x y : wrap w (wrap w x * y) = wrap w (x * y).
Proof. apply Zmult_mod_idemp_l. Qed.

Lemma wrap_sub_l w x y : wrap w (wrap w x - y) = wrap w (x - y).
Proof. apply Zminus_mod_idemp_l. Qed.

Lemma wrap_swrap w x : wrap w (swrap w x) = wrap w x.
Proof.
  unfold wrap, swrap. rewrite Zminus_mod_idemp_l. f_equal. lia.
Qed.

Lemma swrap_wrap w x : swrap w (wrap w x) = swrap w x.
Proof. unfold wrap, swrap. by rewrite Zplus_mod_idemp_l. Qed.

Lemma swrap_id w x : 0 < w -> - 2 ^ (w - 1) <= x < 2 ^ (w - 1) -> swrap w x = x.
Proof.
  intros Hw Hx. unfold swrap.
  assert (2 ^ w = 2 * 2 ^ (w - 1)) by (rewrite <- Z.pow_succ_r by lia; f_equal; lia).
  rewrite Z.mod_small; lia.
Qed.

(** ** Lemmas on arrays *)

Section array_lemmas.
Context {A : Type}.
Implicit Types (l : list A) (x : A).

Lemma idx_Ret l i x : idx l i = Ret x <-> 0 <= i /\ l !! Z.to_nat i = Some x.
Proof. unfold idx. case_decide; repeat case_match; naive_solver. Qed.

Lemma idx_ok l i : 0 <= i < Z.of_nat (length l) -> exists x, idx l i = Ret x.
Proof.
  intros H. destruct (lookup_lt_is_Some_2 l (Z.to_nat i)) as [x Hx]; [lia|].
  exists x. apply idx_Ret. split; [lia | done].
Qed.

Lemma upd_ok l i x :
  0 <= i < Z.of_nat (length l) -> upd l i x = Ret (<[Z.to_nat i := x]> l).
Proof. intros. unfold upd. by rewrite decide_True. Qed.

Lemma upd_Ret l i x l' :
  upd l i x = Ret l' <-> 0 <= i < Z.of_nat (length l) /\ l' = <[Z.to_nat i := x]> l.
Proof. unfold upd. case_decide; naive_solver. Qed.

Lemma upd_length l i x l' : upd l i x = Ret l' -> length l' = length l.
Proof. intros [_ ->]%upd_Ret. apply length_insert. Qed.

Lemma upd_range_length l i src l' :
  upd_range l i src = Ret l' -> length l' = length l.
Proof.
  unfold upd_range. case_decide; [|done]. intros [= <-].
  rewrite !length_app, length_take, length_drop. lia.
Qed.

Lemma idx_middle l1 x l2 i : i = Z.of_nat (length l1) -> idx (l1 ++ x :: l2) i = Ret x.
Proof. intros ->. apply idx_Ret. split; [lia|]. rewrite Nat2Z.id. by apply list_lookup_middle. Qed.

Lemma upd_middle l1 x l2 i y : i = Z.of_nat (length l1) -> upd (l1 ++ x :: l2) i y = Ret (l1 ++ y :: l2).
Proof.
  intros ->. rewrite upd_ok by (rewrite length_app; cbn; lia). rewrite Nat2Z.id.
  by rewrite insert_app_r_alt, Nat.sub_diag by lia.
Qed.

Lemma elem_of_removelast l x : x ∈ removelast l -> x ∈ l.
Proof.
  induction l as [|y l IH]; cbn; [done|]. intros Hx.
  destruct l; [by apply elem_of_nil in Hx|].
  apply elem_of_cons in Hx as [->|Hx]; [apply list_elem_of_here | apply list_elem_of_further; auto].
Qed.

Lemma elem_of_tail l x : x ∈ tail l -> x ∈ l.
Proof. destruct l; [done|]. apply list_elem_of_further. Qed.
End array_lemmas.

(** A string without its terminator. *)
Lemma full_cstr l : Forall (fun c => c <> 0) l -> cstr l = Err OutOfBounds.
Proof. induction 1 as [|c l Hc _ IH]; [done|]. cbn. by rewrite (proj2 (Z.eqb_neq _ _) Hc), IH. Qed.

Lemma cstr_app l r : Forall (fun c => c <> 0) l -> cstr (l ++ 0 :: r) = Ret l.
Proof.
  induction 1 as [|c l Hc _ IH]; [done|]. cbn. rewrite (proj2 (Z.eqb_neq _ _) Hc), IH. done.
Qed.

(** A list rotated by one place. *)
Lemma rotate1_lookup {A} (a : A) l k :
  (k < S (length l))%nat -> (l ++ [a]) !! k = (a :: l) !! (S k mod S (length l))%nat.
Proof.
  intros Hk. destruct (decide (k = length l)) as [->|Hne].
  - rewrite Nat.Div0.mod_same. by rewrite list_lookup_middle.
  - rewrite Nat.mod_small by lia. cbn. by rewrite lookup_app_l by lia.
Qed.

Lemma upd_range_0 {A} (l src : list A) :
  (length src <= length l)%nat -> upd_range l 0 src = Ret (src ++ drop (length src) l).
Proof. intros. unfold upd_range. by rewrite decide_True by lia. Qed.

#[export] Hint Resolve wrap_bounds : term.
#[export] Hint Rewrite wrap_wrap wrap_add_l wrap_add_r wrap_mul_l wrap_sub_l : term.
