(* ===== verification/Ring.v ===== *)
(** * Circular lists of slots

    Several components pass data through a ring of [rt_malloc]ed nodes: the
    writer fills the node at its pointer, sets its ready flag and moves on; the
    reader takes the node at its own pointer and clears the flag.  This file
    states what such a ring promises, independently of what a slot holds: it is
    a bounded queue. *)

From S2P Require Import Prelude.

Section ring.
Context {P : Type}.

(** A node: its payload, its ready flag (0 or 1) and the next node. *)
Record slot := mkSlot { payload : P; Ready : Z; next : Z }.

Implicit Types (m : gmap Z slot) (ns : list Z) (q : list P) (rd wr : Z) (v : P).

(** [ns] are the nodes in ring order from the read pointer [rd]; the first
    ones hold the queue [q], the others are free. *)
Record ring (m : gmap Z slot) (rd wr : Z) (ns : list Z) (q : list P) : Prop := {
  rg_read : ns !! 0%nat = Some rd;
  rg_write : ns !! (length q mod length ns)%nat = Some wr;
  rg_nodup : NoDup ns;
  rg_fits : (length q <= length ns)%nat;
  rg_node : forall k a, ns !! k = Some a -> exists s, m !! a = Some s /\
    ns !! (S k mod length ns)%nat = Some (next s) /\
    match q !! k with
    | Some v => Ready s = 1%Z /\ payload s = v
    | None => Ready s = 0%Z
    end
}.

(** The node at the write pointer of a ring with room. *)
Lemma ring_room m rd wr ns q :
  ring m rd wr ns q -> (length q < length ns)%nat ->
  exists s, m !! wr = Some s /\ Ready s = 0%Z.
Proof.
  intros [Hr Hw Hnd Hfit Hnode] Hq. rewrite Nat.mod_small in Hw by done.
  destruct (Hnode _ _ Hw) as (s & Hs & _ & Hrd). exists s. split; [done|].
  rewrite lookup_ge_None_2 in Hrd by done. done.
Qed.

(** The node at the write pointer of a full ring. *)
Lemma ring_full m rd wr ns q :
  ring m rd wr ns q -> length q = length ns ->
  exists s, m !! wr = Some s /\ Ready s = 1%Z.
Proof.
  intros [Hr Hw Hnd Hfit Hnode] Hq. rewrite Hq, Nat.Div0.mod_same in Hw.
  destruct (Hnode _ _ Hw) as (s & Hs & _ & Hrd). exists s. split; [done|].
  destruct q as [|v q]; [|by destruct Hrd]. destruct ns; cbn in *; congruence.
Qed.

(** The node at the read pointer. *)
Lemma ring_first m rd wr ns q :
  ring m rd wr ns q -> exists s, m !! rd = Some s /\
    match q with [] => Ready s = 0%Z | v :: _ => Ready s = 1%Z /\ payload s = v end.
Proof.
  intros [Hr Hw Hnd Hfit Hnode]. destruct (Hnode _ _ Hr) as (s & Hs & _ & Hrd).
  exists s. by destruct q.
Qed.

Lemma ring_put m rd wr ns q s v :
  ring m rd wr ns q -> (length q < length ns)%nat -> m !! wr = Some s ->
  ring (<[wr := mkSlot v 1 (next s)]> m) rd (next s) ns (q ++ [v]).
Proof.
  intros [Hr Hw Hnd Hfit Hnode] Hq Hs. rewrite Nat.mod_small in Hw by done.
  destruct (Hnode _ _ Hw) as (s' & Hs' & Hnx & Hrd). rewrite Hs in Hs'. injection Hs' as <-.
  split; [done| |done|rewrite length_app; cbn; lia|].
  - rewrite length_app. cbn [length]. by rewrite Nat.add_1_r.
  - intros k a Hk. destruct (decide (k = length q)) as [->|Hne].
    + rewrite Hw in Hk. injection Hk as <-. exists (mkSlot v 1 (next s)).
      rewrite lookup_insert_eq, list_lookup_middle by done. done.
    + assert (a <> wr) by (intros ->; apply Hne; eapply NoDup_lookup; eauto).
      destruct (Hnode _ _ Hk) as (b & Hb & ? & Hq'). exists b. rewrite lookup_insert_ne by done.
      split_and!; [done..|]. destruct (decide (k < length q)%nat).
      * by rewrite lookup_app_l.
      * rewrite lookup_ge_None_2 in Hq' by lia. rewrite lookup_ge_None_2; [done|].
        rewrite length_app. cbn. lia.
Qed.

Lemma ring_take m rd wr ns v q s :
  ring m rd wr ns (v :: q) -> m !! rd = Some s ->
  exists ns', length ns' = length ns /\ (forall a, a ∈ ns' <-> a ∈ ns) /\
    ring (<[rd := mkSlot (payload s) 0 (next s)]> m) (next s) wr ns' q.
Proof.
  intros [Hr Hw Hnd Hfit Hnode] Hs.
  destruct ns as [|a ns]; [done|]. injection Hr as ->. cbn [length] in *.
  destruct (Hnode 0%nat rd eq_refl) as (b' & Hb' & Hnx & Hrd).
  rewrite Hs in Hb'. injection Hb' as <-.
  exists (ns ++ [rd]). assert (Hl' : length (ns ++ [rd]) = S (length ns)) by (rewrite length_app; cbn; lia).
  split; [done|]. split; [intros a; rewrite elem_of_app, !elem_of_cons, elem_of_nil; tauto|].
  apply NoDup_cons in Hnd as [Ha Hnd]. assert (Hrot := rotate1_lookup rd ns).
  split.
  - by rewrite Hrot by lia.
  - rewrite Hl', Hrot by (apply Nat.mod_upper_bound; lia).
    rewrite <- Hw. f_equal. rewrite <- Nat.add_1_r, Nat.Div0.add_mod_idemp_l. f_equal. lia.
  - apply NoDup_app. split_and!; [done| |apply NoDup_singleton].
    by intros x Hx ->%list_elem_of_singleton.
  - rewrite Hl'. lia.
  - intros k x Hk. assert (Hkl := lookup_lt_Some _ _ _ Hk). rewrite Hl' in *.
    rewrite Hrot in Hk |- * by first [lia | apply Nat.mod_upper_bound; lia].
    assert (Hmod : (S (S k mod S (length ns)) mod S (length ns) = S (S k) mod S (length ns))%nat).
    { rewrite <- (Nat.add_1_r (_ mod _)), Nat.Div0.add_mod_idemp_l. f_equal. lia. }
    destruct (decide (k = length ns)) as [->|Hne].
    + rewrite Nat.Div0.mod_same in Hk. injection Hk as <-.
      exists (mkSlot (payload s) 0 (next s)). rewrite lookup_insert_eq. cbn [payload Ready next].
      rewrite Nat.Div0.mod_same. split_and!; [done|done|].
      rewrite lookup_ge_None_2; [done|lia].
    + rewrite Nat.mod_small in Hk by lia. cbn in Hk.
      destruct (Hnode (S k) x Hk) as (c & Hc & Hnc & Hrc). exists c.
      rewrite lookup_insert_ne by (intros <-; apply Ha; by eapply list_elem_of_lookup_2).
      rewrite Hmod. done.
Qed.

(** A chain of free nodes from [hd] to [tl], not yet closed. *)
Record open_chain (m : gmap Z slot) (hd tl : Z) (ns : list Z) : Prop := {
  oc_hd : ns !! 0%nat = Some hd;
  oc_tl : last ns = Some tl;
  oc_nodup : NoDup ns;
  oc_node : forall k a, ns !! k = Some a -> exists s, m !! a = Some s /\ Ready s = 0%Z /\
    (forall c, ns !! S k = Some c -> next s = c)
}.

Lemma open_chain_one m a v n : m !! a = Some (mkSlot v 0 n) -> open_chain m a a [a].
Proof.
  intros H. split; [done|done|apply NoDup_singleton|].
  intros [|k] x Hk; [|done]. injection Hk as <-. by exists (mkSlot v 0 n).
Qed.

(** Hanging a fresh node behind the last one. *)
Lemma open_chain_snoc m hd tl ns a s v n :
  open_chain m hd tl ns -> a ∉ ns -> m !! tl = Some s ->
  open_chain (<[a := mkSlot v 0 n]> (<[tl := mkSlot (payload s) (Ready s) a]> m)) hd a (ns ++ [a]).
Proof.
  intros [Hh Ht Hnd Hnode] Ha Hs. assert (Hl := Ht). rewrite last_lookup in Hl.
  assert (tl <> a) by (intros <-; apply Ha; by eapply list_elem_of_lookup_2).
  split.
  - rewrite lookup_app_l by (by eapply lookup_lt_Some). done.
  - by rewrite last_snoc.
  - apply NoDup_app. split_and!; [done| |apply NoDup_singleton].
    by intros x Hx ->%list_elem_of_singleton.
  - intros k x Hk. destruct (decide (x = a)) as [->|Hxa].
    { exists (mkSlot v 0 n). rewrite lookup_insert_eq. split_and!; [done..|].
      intros c Hc. apply lookup_app_Some in Hk as [Hk|[Hle Hk]]; [by apply list_elem_of_lookup_2 in Hk|].
      apply lookup_lt_Some in Hc. rewrite length_app in Hc. cbn in Hc. lia. }
    apply lookup_app_Some in Hk as [Hk|[_ Hk]].
    2: { destruct (k - length ns)%nat as [|j]; [injection Hk as Hk; by rewrite Hk in Hxa | done]. }
    rewrite lookup_insert_ne by done. destruct (decide (x = tl)) as [->|Hxt].
    { assert (k = pred (length ns)) as -> by (eapply NoDup_lookup; [exact Hnd|exact Hk|exact Hl]).
      destruct (Hnode _ _ Hk) as (s' & Hs' & Hrd & _). rewrite Hs in Hs'. injection Hs' as <-.
      rewrite lookup_insert_eq. eexists. split_and!; [done|exact Hrd|].
      apply lookup_lt_Some in Hl. intros c Hc. rewrite lookup_app_r in Hc by lia.
      replace (S (pred (length ns)) - length ns)%nat with 0%nat in Hc by lia. by injection Hc. }
    rewrite lookup_insert_ne by congruence.
    destruct (Hnode _ _ Hk) as (d & Hd & ? & Hnx). exists d. split_and!; [done..|].
    intros c Hc. apply Hnx. rewrite lookup_app_l in Hc; [done|].
    assert (Hkl := lookup_lt_Some _ _ _ Hk). destruct (decide (S k = length ns)) as [He|]; [|lia].
    exfalso. apply Hxt. rewrite <- He in Hl. cbn in Hl. rewrite Hl in Hk. by injection Hk.
Qed.

(** Closing the chain makes an empty ring. *)
Lemma ring_close m hd tl ns s :
  open_chain m hd tl ns -> m !! tl = Some s ->
  ring (<[tl := mkSlot (payload s) (Ready s) hd]> m) hd hd ns [].
Proof.
  intros [Hh Ht Hnd Hnode] Hs. assert (Hl := Ht). rewrite last_lookup in Hl.
  assert (0 < length ns)%nat by (destruct ns; [done|cbn; lia]).
  split; [done|by rewrite Nat.mod_small|done|cbn; lia|].
  intros k x Hk. assert (Hkl := lookup_lt_Some _ _ _ Hk).
  destruct (Hnode _ _ Hk) as (d & Hd & Hrd & Hnx). cbn [lookup list_lookup].
  destruct (decide (x = tl)) as [->|Hne].
  - assert (k = pred (length ns)) as -> by (eapply NoDup_lookup; [exact Hnd|exact Hk|exact Hl]).
    rewrite Hs in Hd. injection Hd as <-. rewrite lookup_insert_eq. eexists. split_and!; [done| |done].
    replace (S (pred (length ns))) with (length ns) by lia. by rewrite Nat.Div0.mod_same.
  - rewrite lookup_insert_ne by congruence. exists d. split_and!; [done| |done].
    destruct (decide (k = pred (length ns))) as [->|]; [rewrite Hl in Hk; congruence|].
    rewrite Nat.mod_small by lia.
    destruct (ns !! S k) as [c|] eqn:Hc; [by rewrite (Hnx c eq_refl)|].
    apply lookup_ge_None_1 in Hc. lia.
Qed.
End ring.
Arguments slot : clear implicits.
