(* ===== verification/UartTx.v ===== *)
(** * The modem UART's transmit queue

    [src/MySouce/UART1_new .c]: five buffers of 1024 bytes travel between a
    doubly linked list of empty nodes, the node the DMA channel is sending and
    a doubly linked list of full nodes.  The lists are modelled at pointer
    level and refined to a bounded FIFO of byte strings. *)

From S2P Require Import Prelude.

Open Scope Z_scope.

Definition DATA_NODE_BUFF_MAX_LEN : Z := 1024.
Definition NODE_NUM : nat := 5.

(** ** State *)

(** The objects of type [struct Data_Node_list]: the four sentinels and
    [Node_list[i]]. *)
Inductive lptr :=
  | Null | EmptyHead | EmptyTail | FullHead | FullTail
  | NodeL (i : nat).

#[global] Instance lptr_eq_dec : EqDecision lptr.
Proof. solve_decision. Defined.

(** [struct Data_Node_list]; the [Node] field is the address of the data node,
    0 when there is none. *)
Record Data_Node_list := mkL { Node : Z; Pre : lptr; Next : lptr }.

(** [struct Data_Node] without the unused [Next]. *)
Record Data_Node := mkD { buff : list Z; len : Z }.

Record uart := mkU {
  links : lptr -> Data_Node_list;   (**r sentinels and [Node_list] *)
  dnodes : gmap Z Data_Node;        (**r the data nodes from [rt_malloc] *)
  pCurrentMDASendNode : lptr;
  openCnt : Z;
  oflag_open : bool;                (**r [dev->open_flag & RT_DEVICE_OFLAG_OPEN] *)
  sent : list (list Z)              (**r blocks handed to DMA1 channel 4, in order *)
}.

Definition with_links (u : uart) L :=
  mkU L (dnodes u) (pCurrentMDASendNode u) (openCnt u) (oflag_open u) (sent u).
Definition with_dnodes (u : uart) d :=
  mkU (links u) d (pCurrentMDASendNode u) (openCnt u) (oflag_open u) (sent u).
Definition with_current (u : uart) p :=
  mkU (links u) (dnodes u) p (openCnt u) (oflag_open u) (sent u).
Definition with_open (u : uart) c o :=
  mkU (links u) (dnodes u) (pCurrentMDASendNode u) c o (sent u).
Definition with_sent (u : uart) s :=
  mkU (links u) (dnodes u) (pCurrentMDASendNode u) (openCnt u) (oflag_open u) s.

(** ** Pointer accesses *)

Definition link (p : lptr) : ST uart Data_Node_list := fun u =>
  if decide (p = Null) then Err NullDeref else Ret (links u p, u).

Definition setNext (L : lptr -> Data_Node_list) p q : lptr -> Data_Node_list :=
  <[p := mkL (Node (L p)) (Pre (L p)) q]> L.
Definition setPre (L : lptr -> Data_Node_list) p q : lptr -> Data_Node_list :=
  <[p := mkL (Node (L p)) q (Next (L p))]> L.
Definition setNode (L : lptr -> Data_Node_list) p a : lptr -> Data_Node_list :=
  <[p := mkL a (Pre (L p)) (Next (L p))]> L.

Definition write_Next (p q : lptr) : ST uart unit :=
  _ ← link p; modify (fun u => with_links u (setNext (links u) p q)).
Definition write_Pre (p q : lptr) : ST uart unit :=
  _ ← link p; modify (fun u => with_links u (setPre (links u) p q)).

Definition data_node (a : Z) : ST uart Data_Node := fun u =>
  match dnodes u !! a with Some d => Ret (d, u) | None => Err NullDeref end.

(** ** List operations *)

(** The body [Insert_Node_Full_list] and [Insert_Node_Empty_list] share, on the
    list that ends in the sentinel [tail]. *)
Definition insert_before (tail p : lptr) : ST uart unit :=
  t ← link tail;
  _ ← write_Next (Pre t) p;
  t ← link tail;
  _ ← write_Pre p (Pre t);
  _ ← write_Next p tail;
  write_Pre tail p.

Definition Insert_Node_Full_list (p : lptr) : ST uart unit := insert_before FullTail p.
Definition Insert_Node_Empty_list (p : lptr) : ST uart unit := insert_before EmptyTail p.

(** The body of [Get_Full_Node] and [Get_Empty_Node], on the list that starts
    at the sentinel [head]; [Null] is the null result. *)
Definition take_first (head : lptr) : ST uart lptr :=
  h ← link head;
  first ← link (Next h);
  if decide (Node first <> 0) then
    let pTemp := Next h in
    _ ← write_Next head (Next first);
    first ← link pTemp;
    _ ← write_Pre (Next first) head;
    mret pTemp
  else mret Null.

Definition Get_Full_Node : ST uart lptr := take_first FullHead.
Definition Get_Empty_Node : ST uart lptr := take_first EmptyHead.

(** The loop of [Data_Node_list_init] that hangs the nodes on the empty list;
    [ms] holds what each [rt_malloc] returned: an address (0 for a failed
    allocation) and the uninitialised node found there. *)
Fixpoint hang_nodes (i : nat) (ms : list (Z * Data_Node)) : ST uart unit :=
  match ms with
  | [] => mret tt
  | (a, d) :: ms =>
      _ ← modify (fun u =>
        let u := with_links u (setNode (links u) (NodeL i) a) in
        if decide (a = 0) then u else with_dnodes u (<[a := d]> (dnodes u)));
      _ ← Insert_Node_Empty_list (NodeL i);
      hang_nodes (S i) ms
  end.

Definition Data_Node_list_init (ms : list (Z * Data_Node)) : ST uart unit :=
  _ ← modify (fun u => with_links u
        (<[FullTail := mkL 0 FullHead Null]>
        (<[FullHead := mkL 0 Null FullTail]>
        (<[EmptyTail := mkL 0 EmptyHead Null]>
        (<[EmptyHead := mkL 0 Null EmptyTail]> (links u))))));
  hang_nodes 0 ms.

(** [rt_free] of a data node; freeing what is not allocated is a fault. *)
Definition rt_free (a : Z) : ST uart unit :=
  _ ← data_node a; modify (fun u => with_dnodes u (delete a (dnodes u))).

(** One of the two draining loops of [free_node]. *)
Fixpoint drain (fuel : nat) (get_node : ST uart lptr) : ST uart unit :=
  match fuel with
  | O => fun _ => Err OutOfFuel
  | S fuel =>
      pTemp ← get_node;
      if decide (pTemp = Null) then mret tt
      else l ← link pTemp; _ ← rt_free (Node l); drain fuel get_node
  end.

Definition free_node : ST uart unit :=
  _ ← drain (S NODE_NUM) Get_Full_Node; drain (S NODE_NUM) Get_Empty_Node.

(** ** Device operations *)

Definition USART1_DMA_Wirte (a : Z) (n : Z) : ST uart unit :=
  d ← data_node a;
  modify (fun u => with_sent u (sent u ++ [take (Z.to_nat n) (buff d)])).

(** [pCurrentMDASendNode->Node->buff] and [->len] handed to the DMA. *)
Definition send_current : ST uart unit :=
  u ← get;
  l ← link (pCurrentMDASendNode u);
  d ← data_node (Node l);
  USART1_DMA_Wirte (Node l) (len d).

Definition USART1_new_hw_open (ms : list (Z * Data_Node)) : ST uart unit :=
  u ← get;
  if oflag_open u then modify (fun u => with_open u (s8 (openCnt u + 1)) (oflag_open u))
  else
    _ ← modify (fun u => with_open u (s8 (openCnt u + 1)) (oflag_open u));
    _ ← Data_Node_list_init ms;
    modify (fun u => with_open u (openCnt u) true).

(** [false] is [RT_EOK], [true] is [RT_EBUSY]. *)
Definition USART1_new_hw_close : ST uart bool :=
  u ← get;
  if negb (oflag_open u) then mret false
  else if decide (1 < openCnt u) then
    _ ← modify (fun u => with_open u (s8 (openCnt u - 1)) (oflag_open u)); mret false
  else
    _ ← modify (fun u => with_open u 0 (oflag_open u));
    if decide (pCurrentMDASendNode u <> Null) then mret true
    else
      _ ← free_node;
      _ ← modify (fun u => with_open u (openCnt u) false);
      mret false.

(** [USART1_new_hw_write] in four pieces, between which the interrupt may come: a
    buffer is taken, ... *)
Definition write_take (data : list Z) : ST uart lptr :=
  _ ← lift (RT_ASSERT (Z.of_nat (length data) <=? DATA_NODE_BUFF_MAX_LEN)); Get_Empty_Node.

(** ... filled, ... *)
Definition write_copy (p : lptr) (data : list Z) : ST uart unit :=
  if decide (p = Null) then mret tt
  else
    l ← link p;
    d ← data_node (Node l);
    b ← lift (upd_range (buff d) 0 data);
    modify (fun u => with_dnodes u (<[Node l := mkD b (Z.of_nat (length data))]> (dnodes u))).

(** ... the channel is looked at, ... *)
Definition write_test : ST uart bool := u ← get; mret (bool_decide (pCurrentMDASendNode u = Null)).

(** ... and the buffer is sent or queued. *)
Definition write_post (data : list Z) (p : lptr) (idle : bool) : ST uart Z :=
  if decide (p = Null) then mret 0
  else
    _ ← (if idle then _ ← modify (fun u => with_current u p); send_current
         else Insert_Node_Full_list p);
    mret (Z.of_nat (length data)).

Definition USART1_new_hw_write (data : list Z) : ST uart Z :=
  p ← write_take data; _ ← write_copy p data; idle ← write_test; write_post data p idle.

Definition DMA1_Channel4_IRQHandler : ST uart unit :=
  u ← get;
  _ ← (if decide (pCurrentMDASendNode u <> Null)
       then Insert_Node_Empty_list (pCurrentMDASendNode u) else mret tt);
  p ← Get_Full_Node;
  _ ← modify (fun u => with_current u p);
  if decide (p <> Null) then send_current else mret tt.

(** The transfer in progress, if there is one, completes: the channel interrupts
    only then. *)
Definition transfer_complete : ST uart unit :=
  u ← get; if decide (pCurrentMDASendNode u = Null) then mret tt else DMA1_Channel4_IRQHandler.

Fixpoint completions (k : nat) : ST uart unit :=
  match k with O => mret tt | S k => _ ← transfer_complete; completions k end.

(** A write during which transfers complete: [k1] of them after the buffer was
    taken, [k2] after it was filled and [k3] after the channel was looked at. *)
Definition write_interrupted (data : list Z) (k1 k2 k3 : nat) : ST uart Z :=
  p ← write_take data;
  _ ← completions k1;
  _ ← write_copy p data;
  _ ← completions k2;
  idle ← write_test;
  _ ← completions k3;
  write_post data p idle.

(** ** Specification: a bounded FIFO of blocks *)

Record txq := mkQ {
  q_cur : option (list Z);   (**r block in transfer *)
  q_wait : list (list Z);    (**r accepted blocks not yet started *)
  q_free : nat;              (**r buffers left *)
  q_out : list (list Z)      (**r blocks started so far *)
}.

Definition q_write (data : list Z) (q : txq) : Z * txq :=
  match q_free q with
  | O => (0, q)
  | S n =>
      (Z.of_nat (length data),
       match q_cur q with
       | None => mkQ (Some data) (q_wait q) n (q_out q ++ [data])
       | Some _ => mkQ (q_cur q) (q_wait q ++ [data]) n (q_out q)
       end)
  end.

Definition q_irq (q : txq) : txq :=
  let free := match q_cur q with None => q_free q | Some _ => S (q_free q) end in
  match q_wait q with
  | [] => mkQ None [] free (q_out q)
  | d :: w => mkQ (Some d) w free (q_out q ++ [d])
  end.

(** The same in the pieces of a write: a buffer is taken, a block is started or
    queued; and a completion, which an idle channel does not have. *)
Definition q_take (q : txq) : txq := mkQ (q_cur q) (q_wait q) (pred (q_free q)) (q_out q).
Definition q_start (data : list Z) (q : txq) : txq :=
  mkQ (Some data) (q_wait q) (q_free q) (q_out q ++ [data]).
Definition q_queue (data : list Z) (q : txq) : txq :=
  mkQ (q_cur q) (q_wait q ++ [data]) (q_free q) (q_out q).
Definition q_complete (q : txq) : txq := match q_cur q with None => q | Some _ => q_irq q end.

(** A write with completions inside: those of the last piece come after the
    decision to start or to queue. *)
Definition q_write_interrupted (data : list Z) (k1 k2 k3 : nat) (q : txq) : Z * txq :=
  match q_free q with
  | O => (0, Nat.iter k3 q_complete (Nat.iter k2 q_complete (Nat.iter k1 q_complete q)))
  | S _ =>
      let q := Nat.iter k2 q_complete (Nat.iter k1 q_complete (q_take q)) in
      (Z.of_nat (length data),
       match q_cur q with
       | None => q_start data q
       | Some _ => q_queue data (Nat.iter k3 q_complete q)
       end)
  end.

Lemma q_complete_idle k q : q_cur q = None -> Nat.iter k q_complete q = q.
Proof. intros Hq. induction k as [|k IH]; [done|]. rewrite Nat.iter_succ, IH. unfold q_complete. by rewrite Hq. Qed.

(** ** The lists as chains of pointers *)

(** Consecutive elements of [l] point at each other. *)
Fixpoint chain (L : lptr -> Data_Node_list) (l : list lptr) : Prop :=
  match l with
  | a :: (b :: _) as l' => Next (L a) = b /\ Pre (L b) = a /\ chain L l'
  | _ => True
  end.

Section chains.
Implicit Types (L : lptr -> Data_Node_list) (l : list lptr) (p q : lptr).

Lemma setNext_get L p q x :
  setNext L p q x = if decide (p = x) then mkL (Node (L x)) (Pre (L x)) q else L x.
Proof. unfold setNext. case_decide; subst; [apply fn_lookup_insert | by apply fn_lookup_insert_ne]. Qed.

Lemma setPre_get L p q x :
  setPre L p q x = if decide (p = x) then mkL (Node (L x)) q (Next (L x)) else L x.
Proof. unfold setPre. case_decide; subst; [apply fn_lookup_insert | by apply fn_lookup_insert_ne]. Qed.

Lemma setNode_get L p a x :
  setNode L p a x = if decide (p = x) then mkL a (Pre (L x)) (Next (L x)) else L x.
Proof. unfold setNode. case_decide; subst; [apply fn_lookup_insert | by apply fn_lookup_insert_ne]. Qed.

(** Only the links inside the chain matter: not the [Pre] of its first
    element, nor the [Next] of its last. *)
Lemma chain_frame L L' l :
  (forall p, p ∈ removelast l -> Next (L' p) = Next (L p)) ->
  (forall p, p ∈ tail l -> Pre (L' p) = Pre (L p)) ->
  chain L l -> chain L' l.
Proof.
  induction l as [|a l IH]; [done|]. intros Hn Hp Hc. destruct l as [|b l]; [done|].
  destruct Hc as (Ha & Hb & Hc). split_and!.
  - rewrite <- Ha. apply Hn. set_solver.
  - rewrite <- Hb. apply Hp. set_solver.
  - apply IH; [| |done].
    + intros p Hin. apply Hn. cbn [removelast] in *. set_solver.
    + intros p Hin. apply Hp. cbn in *. set_solver.
Qed.

Lemma chain_app L l1 a l2 :
  chain L (l1 ++ a :: l2) <-> chain L (l1 ++ [a]) /\ chain L (a :: l2).
Proof.
  induction l1 as [|x l1 IH]; [cbn; naive_solver|].
  destruct l1 as [|y l1]; cbn [app chain] in *; [naive_solver|].
  rewrite IH. naive_solver.
Qed.

(** The links after [insert_before]. *)
Definition insert_links L t p : lptr -> Data_Node_list :=
  let L1 := setNext L (Pre (L t)) p in
  let L2 := setPre L1 p (Pre (L1 t)) in
  setPre (setNext L2 p t) t p.

(** The links after [take_first] took [Next (L h)]. *)
Definition take_links L h : lptr -> Data_Node_list :=
  let p := Next (L h) in
  let L1 := setNext L h (Next (L p)) in
  setPre L1 (Next (L1 p)) h.

Ltac links_simpl :=
  repeat (rewrite ?setNext_get, ?setPre_get; cbn [Pre Next Node];
          repeat case_decide; subst; try congruence).

Lemma insert_links_get L t p x :
  Pre (L t) <> t -> p <> t -> p <> Pre (L t) ->
  insert_links L t p x =
    mkL (Node (L x))
        (if decide (x = p) then Pre (L t) else if decide (x = t) then p else Pre (L x))
        (if decide (x = Pre (L t)) then p else if decide (x = p) then t else Next (L x)).
Proof.
  intros Ha Hp Hpa. unfold insert_links. links_simpl; try by destruct (L x).
  all: by destruct (L t).
Qed.

Lemma take_links_get L h x :
  Next (L h) <> h -> Next (L (Next (L h))) <> h ->
  take_links L h x =
    mkL (Node (L x))
        (if decide (x = Next (L (Next (L h)))) then h else Pre (L x))
        (if decide (x = h) then Next (L (Next (L h))) else Next (L x)).
Proof.
  intros Ha Hp. unfold take_links. links_simpl; by destruct (L x).
Qed.

Lemma insert_chain L h xs t p :
  NoDup (h :: xs ++ [t]) -> p ∉ h :: xs ++ [t] -> chain L (h :: xs ++ [t]) ->
  Pre (L t) ∈ h :: xs /\ chain (insert_links L t p) (h :: (xs ++ [p]) ++ [t]).
Proof.
  intros Hnd Hp Hc.
  destruct (exists_last (l := h :: xs)) as (ys & a & Hys); [done|].
  replace (h :: (xs ++ [p]) ++ [t]) with (ys ++ a :: [p; t])
    by (rewrite <- !app_assoc; cbn; rewrite app_comm_cons, Hys; by rewrite <- app_assoc).
  rewrite app_comm_cons, Hys, <- app_assoc in Hnd, Hp, Hc. cbn in Hnd, Hp, Hc.
  apply chain_app in Hc as [Hc1 (Hn & Hpre & _)].
  apply NoDup_app in Hnd as (_ & Hd & Hnd). cbn in Hnd. apply NoDup_cons in Hnd as [Hat _].
  assert (a <> t /\ t ∉ ys /\ p <> t /\ p <> a /\ p ∉ ys) as (? & ? & ? & ? & ?)
    by set_solver.
  split; [rewrite Hys, Hpre; set_solver|].
  assert (Hg := fun x => insert_links_get L t p x). rewrite Hpre in Hg.
  apply chain_app. split.
  - eapply chain_frame; [| |exact Hc1]; intros q Hq; rewrite Hg by done; cbn.
    + rewrite removelast_last in Hq. rewrite !decide_False; [done|set_solver..].
    + assert (q ∈ ys ++ [a]) by (destruct ys; set_solver).
      rewrite !decide_False; [done|set_solver..].
  - cbn. rewrite !Hg by done. cbn. split_and!; repeat case_decide; done || congruence.
Qed.

Lemma take_chain L h p xs t :
  NoDup (h :: p :: xs ++ [t]) -> chain L (h :: p :: xs ++ [t]) ->
  Next (L h) = p /\ Next (L p) ∈ xs ++ [t] /\
  chain (take_links L h) (h :: xs ++ [t]).
Proof.
  intros Hnd (Hh & _ & Hc).
  destruct (xs ++ [t]) as [|q l] eqn:Hl; [by destruct xs|].
  destruct Hc as (Hp & _ & Hc).
  repeat (apply NoDup_cons in Hnd as [? Hnd]).
  assert (Hg := fun x => take_links_get L h x). rewrite Hh, Hp in Hg.
  split_and!; [done|set_solver|].
  split_and!; [rewrite Hg by set_solver; cbn; by rewrite decide_True..|].
  eapply chain_frame; [| |exact Hc]; intros x Hx; rewrite Hg by set_solver; cbn.
  - rewrite decide_False; [done|]. intros ->.
    apply elem_of_removelast in Hx. set_solver.
  - rewrite decide_False; [done|]. set_solver.
Qed.
End chains.

(** ** Two disjoint lists in one memory *)

Section two_lists.
Implicit Types (L : lptr -> Data_Node_list) (X Y : list lptr) (p : lptr).

Record two L h1 t1 X h2 t2 Y : Prop := {
  two_fst : chain L (h1 :: X ++ [t1]);
  two_snd : chain L (h2 :: Y ++ [t2]);
  two_nodup : NoDup ((h1 :: X ++ [t1]) ++ (h2 :: Y ++ [t2]));
  two_null : Null ∉ (h1 :: X ++ [t1]) ++ (h2 :: Y ++ [t2])
}.

Lemma two_swap L h1 t1 X h2 t2 Y : two L h1 t1 X h2 t2 Y -> two L h2 t2 Y h1 t1 X.
Proof.
  intros []. split; [done|done| |set_solver].
  rewrite NoDup_app in *. naive_solver.
Qed.

Lemma Node_insert L t p x : Node (insert_links L t p x) = Node (L x).
Proof.
  unfold insert_links.
  rewrite !setPre_get; repeat case_decide; subst; cbn;
  rewrite !setNext_get; repeat case_decide; subst; cbn;
  rewrite ?setPre_get; repeat case_decide; subst; cbn;
  rewrite ?setNext_get; repeat case_decide; subst; done.
Qed.

Lemma Node_take L h x : Node (take_links L h x) = Node (L x).
Proof.
  unfold take_links. rewrite setPre_get; case_decide; subst; cbn;
  rewrite !setNext_get; repeat case_decide; subst; done.
Qed.

Lemma two_take L h1 t1 p X h2 t2 Y :
  two L h1 t1 (p :: X) h2 t2 Y ->
  Next (L h1) = p /\ Next (L p) <> Null /\
  two (take_links L h1) h1 t1 X h2 t2 Y.
Proof.
  intros [Hc1 Hc2 Hnd Hnull]. apply NoDup_app in Hnd as (Hnd1 & Hdis & Hnd2).
  destruct (take_chain L h1 p X t1) as (Hn & Hin & Hc); [done..|].
  split_and!; [done| intros Heq; rewrite Heq in Hin; set_solver |].
  assert (Next (L h1) <> h1 /\ Next (L p) <> h1) as [Hne1 Hne2].
  { apply NoDup_cons in Hnd1 as [Hh _]. rewrite Hn. split; [set_solver|].
    intros Heq. rewrite Heq in Hin. set_solver. }
  split; [done| |
    rewrite NoDup_app; split_and!; [|intros x Hx; apply Hdis; set_solver|done] | set_solver].
  - eapply chain_frame; [| |exact Hc2]; intros x Hx;
      rewrite take_links_get by congruence; cbn.
    + apply elem_of_removelast in Hx. rewrite decide_False; [done|].
      intros ->. apply (Hdis h1); [left|done].
    + apply elem_of_tail in Hx. rewrite decide_False; [done|]. rewrite Hn. intros ->.
      apply (Hdis (Next (L p))); [|done]. by do 2 right.
  - apply NoDup_cons in Hnd1 as [? Hnd1]. apply NoDup_cons in Hnd1 as [? Hnd1].
    apply NoDup_cons. split; [set_solver|done].
Qed.

Lemma two_put L h1 t1 X h2 t2 Y p :
  two L h1 t1 X h2 t2 Y ->
  p ∉ (h1 :: X ++ [t1]) ++ (h2 :: Y ++ [t2]) -> p <> Null ->
  Pre (L t1) <> Null /\ two (insert_links L t1 p) h1 t1 (X ++ [p]) h2 t2 Y.
Proof.
  intros [Hc1 Hc2 Hnd Hnull] Hp Hp0. apply NoDup_app in Hnd as (Hnd1 & Hdis & Hnd2).
  destruct (insert_chain L h1 X t1 p) as (Hin & Hc); [done|set_solver|done|].
  split; [intros Heq; rewrite Heq in Hin; set_solver|].
  assert (Pre (L t1) <> t1) as Hne.
  { rewrite app_comm_cons in Hnd1. apply NoDup_app in Hnd1 as (_ & Hd & _). set_solver. }
  apply not_elem_of_app in Hp as [Hp1 Hp2].
  assert (Pre (L t1) ∉ h2 :: Y ++ [t2] /\ t1 ∉ h2 :: Y ++ [t2]) as [Ha2 Ht2]
    by (split; apply Hdis; set_solver).
  assert (p <> t1 /\ p <> Pre (L t1)) as [Hpt Hpa]
    by (split; intros ->; apply Hp1; set_solver).
  split; [done| | | set_solver].
  - eapply chain_frame; [| |exact Hc2]; intros x Hx;
      first [apply elem_of_removelast in Hx | apply elem_of_tail in Hx];
      rewrite insert_links_get by done; cbn; by rewrite !decide_False by (intros ->; done).
  - apply NoDup_app. split_and!; [| |done].
    + rewrite <- app_assoc, (app_comm_cons X). rewrite app_comm_cons in Hnd1, Hp1.
      apply NoDup_app in Hnd1 as (? & ? & ?). apply not_elem_of_app in Hp1 as [? ?].
      apply NoDup_app. split_and!; [done| |].
      * intros x Hx. cbn. apply not_elem_of_cons. split; [by intros -> | auto].
      * by apply NoDup_cons.
    + intros x Hx. destruct (decide (x = p)) as [->|]; [done|]. apply Hdis. set_solver.
Qed.
End two_lists.

Lemma link_run p u : p <> Null -> link p u = Ret (links u p, u).
Proof. intros. unfold link. by rewrite decide_False. Qed.

Lemma take_first_nil h1 t1 h2 t2 Y u :
  two (links u) h1 t1 [] h2 t2 Y -> Node (links u t1) = 0 -> take_first h1 u = Ret (Null, u).
Proof.
  intros [(Hn & _) _ _ Hnull] Ht. unfold take_first. unfold_st.
  rewrite link_run, Hn by set_solver. rewrite link_run by set_solver.
  by rewrite Ht.
Qed.

Lemma take_first_cons h1 t1 p X h2 t2 Y u :
  two (links u) h1 t1 (p :: X) h2 t2 Y -> Node (links u p) <> 0 ->
  take_first h1 u = Ret (p, with_links u (take_links (links u) h1)).
Proof.
  intros H Hp. destruct (two_take _ _ _ _ _ _ _ _ H) as (Hn & Hq & _).
  destruct H as [Hc _ Hnd Hnull].
  assert (h1 <> Null /\ p <> Null /\ h1 <> p) as (Hh0 & Hp0 & Hhp).
  { apply NoDup_app in Hnd as [Hnd _]. apply NoDup_cons in Hnd as [Hnd _]. set_solver. }
  unfold take_first, write_Next, write_Pre. unfold_st.
  rewrite link_run, Hn by done. rewrite link_run by done. rewrite decide_True by done.
  rewrite link_run by done. cbn. rewrite link_run by done. cbn.
  assert (Hx : setNext (links u) h1 (Next (links u p)) p = links u p)
    by (by rewrite setNext_get, decide_False).
  rewrite link_run by (by rewrite Hx). unfold take_links. by rewrite Hn.
Qed.

Lemma insert_before_run h1 t1 X h2 t2 Y p u :
  two (links u) h1 t1 X h2 t2 Y -> p <> Null -> p <> t1 ->
  Pre (links u t1) <> Null ->
  insert_before t1 p u = Ret (tt, with_links u (insert_links (links u) t1 p)).
Proof.
  intros [_ _ _ Hnull] Hp Hpt Ha. assert (t1 <> Null) by set_solver.
  unfold insert_before, write_Next, write_Pre. unfold_st.
  repeat (rewrite link_run by done; cbn). done.
Qed.

(** ** Refinement *)

(** The bytes of the block node [i] holds. *)
Definition block (u : uart) (i : nat) : option (list Z) :=
  d ← dnodes u !! Node (links u (NodeL i)); Some (take (Z.to_nat (len d)) (buff d)).

Definition addr (u : uart) (i : nat) : Z := Node (links u (NodeL i)).

(** [N] are the nodes of the open device, each with a buffer of its own; [E]
    hang on the empty list, [F] on the full one and [C] on neither. *)
Record owns (u : uart) (N E F C : list nat) : Prop := {
  o_two : two (links u) EmptyHead EmptyTail (NodeL <$> E) FullHead FullTail (NodeL <$> F);
  o_etail : Node (links u EmptyTail) = 0;
  o_ftail : Node (links u FullTail) = 0;
  o_nodes : E ++ F ++ C ≡ₚ N;
  o_addr : NoDup (addr u <$> N);
  o_buf : forall i, i ∈ N -> addr u i <> 0 /\ exists d, dnodes u !! addr u i = Some d /\
    Z.of_nat (length (buff d)) = DATA_NODE_BUFF_MAX_LEN;
  o_dom : forall a, is_Some (dnodes u !! a) -> a ∈ addr u <$> N
}.

Section owns_lemmas.
Implicit Types (u : uart) (N E F C : list nat).

Lemma owns_links u L N E F C E' F' C' :
  owns u N E F C -> (forall x, Node (L x) = Node (links u x)) ->
  two L EmptyHead EmptyTail (NodeL <$> E') FullHead FullTail (NodeL <$> F') ->
  E' ++ F' ++ C' ≡ₚ E ++ F ++ C -> owns (with_links u L) N E' F' C'.
Proof.
  intros [] HL Htwo Hp.
  assert (Ha : addr (with_links u L) <$> N = addr u <$> N)
    by (apply list_fmap_ext; intros; apply HL).
  split; cbn; [done|by rewrite HL..|by rewrite Hp|by rewrite Ha| |by rewrite Ha].
  intros i Hi. unfold addr in *. cbn. rewrite HL. auto.
Qed.

Lemma owns_fresh u N E F i C :
  owns u N E F (i :: C) ->
  NodeL i ∉ (EmptyHead :: (NodeL <$> E) ++ [EmptyTail]) ++
            (FullHead :: (NodeL <$> F) ++ [FullTail]).
Proof.
  intros H. assert (Hnd : NoDup (E ++ F ++ i :: C)).
  { rewrite (o_nodes _ _ _ _ _ H). eapply NoDup_fmap_1, H. }
  rewrite <- Permutation_middle, <- Permutation_middle in Hnd.
  apply NoDup_cons in Hnd as [Hnd _].
  rewrite !elem_of_app, !elem_of_cons, !elem_of_app, !list_elem_of_fmap in *. set_solver.
Qed.

Lemma owns_others u N E F i C x :
  owns u N E F (i :: C) -> x ∈ F ++ C -> x ∈ N /\ x <> i.
Proof.
  intros H Hx. assert (Hnd : NoDup (E ++ F ++ i :: C)).
  { rewrite (o_nodes _ _ _ _ _ H). eapply NoDup_fmap_1, H. }
  rewrite <- (o_nodes _ _ _ _ _ H).
  rewrite <- !Permutation_middle in Hnd. apply NoDup_cons in Hnd as [Hnd _].
  apply elem_of_app in Hx. rewrite !elem_of_app, !elem_of_cons in *.
  split; [naive_solver|]. intros ->. naive_solver.
Qed.

Lemma get_empty u N e E F C :
  owns u N (e :: E) F C ->
  exists L, Get_Empty_Node u = Ret (NodeL e, with_links u L) /\
    (forall x, Node (L x) = Node (links u x)) /\ owns (with_links u L) N E F (e :: C).
Proof.
  intros H. eexists. split_and!.
  - apply (take_first_cons _ _ _ _ _ _ _ _ (o_two _ _ _ _ _ H)).
    apply (o_buf _ _ _ _ _ H). rewrite <- (o_nodes _ _ _ _ _ H). left.
  - apply Node_take.
  - eapply owns_links; [done|apply Node_take|eapply two_take, H|solve_Permutation].
Qed.

Lemma get_empty_none u N F C : owns u N [] F C -> Get_Empty_Node u = Ret (Null, u).
Proof. intros H. eapply take_first_nil; [apply H|]. apply H. Qed.

Lemma get_full u N E f F C :
  owns u N E (f :: F) C ->
  exists L, Get_Full_Node u = Ret (NodeL f, with_links u L) /\
    (forall x, Node (L x) = Node (links u x)) /\ owns (with_links u L) N E F (f :: C).
Proof.
  intros H. assert (H2 := two_swap _ _ _ _ _ _ _ (o_two _ _ _ _ _ H)).
  eexists. split_and!.
  - apply (take_first_cons _ _ _ _ _ _ _ _ H2).
    apply (o_buf _ _ _ _ _ H). rewrite <- (o_nodes _ _ _ _ _ H). set_solver.
  - apply Node_take.
  - eapply owns_links; [done|apply Node_take|eapply two_swap, two_take, H2|solve_Permutation].
Qed.

Lemma get_full_none u N E C : owns u N E [] C -> Get_Full_Node u = Ret (Null, u).
Proof. intros H. eapply take_first_nil; [apply two_swap, H|]. apply H. Qed.

Lemma put_empty u N E F i C :
  owns u N E F (i :: C) ->
  exists L, Insert_Node_Empty_list (NodeL i) u = Ret (tt, with_links u L) /\
    (forall x, Node (L x) = Node (links u x)) /\ owns (with_links u L) N (E ++ [i]) F C.
Proof.
  intros H. assert (H2 := o_two _ _ _ _ _ H).
  destruct (two_put _ _ _ _ _ _ _ (NodeL i) H2) as [Hpre Htwo];
    [by eapply owns_fresh|done|].
  eexists. split_and!.
  - by eapply insert_before_run.
  - apply Node_insert.
  - eapply owns_links; [done|apply Node_insert|by rewrite fmap_app|solve_Permutation].
Qed.

Lemma put_full u N E F i C :
  owns u N E F (i :: C) ->
  exists L, Insert_Node_Full_list (NodeL i) u = Ret (tt, with_links u L) /\
    (forall x, Node (L x) = Node (links u x)) /\ owns (with_links u L) N E (F ++ [i]) C.
Proof.
  intros H. assert (H2 := two_swap _ _ _ _ _ _ _ (o_two _ _ _ _ _ H)).
  destruct (two_put _ _ _ _ _ _ _ (NodeL i) H2) as [Hpre Htwo].
  { apply owns_fresh in H. set_solver. } { done. }
  eexists. split_and!.
  - by eapply insert_before_run.
  - apply Node_insert.
  - eapply owns_links; [done|apply Node_insert| |solve_Permutation].
    apply two_swap. by rewrite fmap_app.
Qed.
End owns_lemmas.

(** ** Refinement *)

Record repr (u : uart) (q : txq) (N E F C : list nat) : Prop := {
  r_owns : owns u N E F C;
  r_cur : pCurrentMDASendNode u = from_option NodeL Null (head C);
  r_free : length E = q_free q;
  r_wait : block u <$> F = Some <$> q_wait q;
  r_blk : block u <$> C = Some <$> option_list (q_cur q);
  r_sent : sent u = q_out q;
  r_idle : q_cur q = None -> q_wait q = []
}.

(** The open device [u] holds the queue [q]. *)
Definition uart_repr (u : uart) (q : txq) : Prop := exists N E F C, repr u q N E F C.

Section refinement.
Implicit Types (u : uart) (q : txq) (N E F C : list nat).

Lemma block_links u L i :
  (forall x, Node (L x) = Node (links u x)) -> block (with_links u L) i = block u i.
Proof. intros HL. unfold block, addr. cbn. by rewrite HL. Qed.

Lemma blocks_links u L (l : list nat) :
  (forall x, Node (L x) = Node (links u x)) -> block (with_links u L) <$> l = block u <$> l.
Proof. intros HL. apply list_fmap_ext. intros. by apply block_links. Qed.

Lemma send_current_run u N E F i C b :
  owns u N E F (i :: C) -> pCurrentMDASendNode u = NodeL i -> block u i = Some b ->
  send_current u = Ret (tt, with_sent u (sent u ++ [b])).
Proof.
  intros H Hc Hb. unfold block, addr in Hb.
  destruct (dnodes u !! Node (links u (NodeL i))) as [d|] eqn:Hd; [|done]. injection Hb as <-.
  unfold send_current, USART1_DMA_Wirte, data_node. unfold_st.
  rewrite Hc, link_run by done. cbn. by rewrite Hd, Hd.
Qed.

(** Filling the buffer of a loose node leaves the lists and the other blocks
    alone. *)
Lemma fill_node u N E F i C d :
  owns u N E F (i :: C) -> Z.of_nat (length (buff d)) = DATA_NODE_BUFF_MAX_LEN ->
  let u' := with_dnodes u (<[addr u i := d]> (dnodes u)) in
  owns u' N E F (i :: C) /\
  block u' i = Some (take (Z.to_nat (len d)) (buff d)) /\
  (forall j, j ∈ N -> j <> i -> block u' j = block u j).
Proof.
  intros H Hlen u'. assert (Hi : i ∈ N) by (rewrite <- (o_nodes _ _ _ _ _ H); set_solver).
  assert (Hinj : forall j, j ∈ N -> addr u j = addr u i -> j = i).
  { intros j Hj Heq. assert (Hnd := o_addr _ _ _ _ _ H).
    apply list_elem_of_lookup in Hi as [x Hx]. apply list_elem_of_lookup in Hj as [y Hy].
    assert (x = y); [|congruence].
    eapply NoDup_lookup; [exact Hnd| |]; rewrite list_lookup_fmap; [by rewrite Hx|].
    by rewrite Hy, <- Heq. }
  split_and!.
  - destruct H. split; try done.
    + intros j Hj. cbn. change (addr u' j) with (addr u j).
      destruct (decide (j = i)) as [->|Hne].
      * rewrite lookup_insert_eq. split; [by apply o_buf0|eauto].
      * rewrite lookup_insert_ne; [auto|]. intros Heq. apply Hne, Hinj; done.
    + intros a. cbn. rewrite lookup_insert. case_decide as Ha; [|by auto].
      intros _. subst a. apply list_elem_of_fmap. by exists i.
  - unfold block. change (addr u' i) with (addr u i). cbn. by rewrite lookup_insert_eq.
  - intros j Hj Hne. unfold block. change (addr u' j) with (addr u j). cbn.
    rewrite lookup_insert_ne; [done|]. intros Heq. apply Hne, Hinj; done.
Qed.

(** The queue with the nodes [H] in the hands of a write. *)
Record holding (u : uart) (q : txq) (N E F C H : list nat) : Prop := {
  h_owns : owns u N E F (H ++ C);
  h_cur : pCurrentMDASendNode u = from_option NodeL Null (head C);
  h_free : length E = q_free q;
  h_wait : block u <$> F = Some <$> q_wait q;
  h_blk : block u <$> C = Some <$> option_list (q_cur q);
  h_sent : sent u = q_out q
}.

Lemma repr_holding u q N E F C :
  repr u q N E F C <-> holding u q N E F C [] /\ (q_cur q = None -> q_wait q = []).
Proof. split; [intros []; split; [by split|done]|intros [[] ?]; by split]. Qed.

(** A node is in transfer exactly when a block is. *)
Lemma holding_cur u q N E F C H : holding u q N E F C H ->
  match q_cur q with
  | None => C = [] /\ pCurrentMDASendNode u = Null
  | Some b => exists c, C = [c] /\ pCurrentMDASendNode u = NodeL c /\ block u c = Some b
  end.
Proof.
  intros [_ Hcur _ _ Hblk _]. destruct (q_cur q), C as [|c [|c' C]]; cbn in *; try done.
  exists c. split_and!; [done..|congruence].
Qed.

Lemma owns_perm u N E F C C' : C ≡ₚ C' -> owns u N E F C -> owns u N E F C'.
Proof. intros HC []. split; try done. by rewrite <- HC. Qed.

Lemma take_holding u q N e E F C : holding u q N (e :: E) F C [] ->
  exists u', Get_Empty_Node u = Ret (NodeL e, u') /\ holding u' (q_take q) N E F C [e].
Proof.
  intros [Ho Hcur Hfree Hwait Hblk Hsent].
  destruct (get_empty _ _ _ _ _ _ Ho) as (L & E1 & HL & Ho'). exists (with_links u L). split; [done|].
  split; cbn; [done|done|by rewrite <- Hfree|by rewrite blocks_links|by rewrite blocks_links|done].
Qed.

Lemma copy_holding u q N E F C e data : holding u q N E F C [e] ->
  Z.of_nat (length data) <= DATA_NODE_BUFF_MAX_LEN ->
  exists u', write_copy (NodeL e) data u = Ret (tt, u') /\ holding u' q N E F C [e] /\ block u' e = Some data.
Proof.
  intros [Ho Hcur Hfree Hwait Hblk Hsent] Hlen. cbn in Ho.
  assert (He : e ∈ N) by (rewrite <- (o_nodes _ _ _ _ _ Ho); set_solver).
  destruct (o_buf _ _ _ _ _ Ho e He) as (_ & d & Hd & Hbuf).
  unfold write_copy. rewrite decide_False by done. unfold_st. rewrite link_run by done.
  unfold data_node. change (Node (links u (NodeL e))) with (addr u e). rewrite Hd.
  unfold upd_range. rewrite decide_True by lia. cbn [app take].
  set (d' := mkD _ _).
  destruct (fill_node u N E F e C d' Ho) as (Ho' & He' & Hoth).
  { cbn. rewrite !length_app, length_take, length_drop. lia. }
  assert (Hsame : forall l : list nat, (forall x, x ∈ l -> x ∈ F ++ C) ->
    block (with_dnodes u (<[addr u e := d']> (dnodes u))) <$> l = block u <$> l).
  { intros l Hl. apply list_fmap_ext. intros k x Hx%list_elem_of_lookup_2.
    destruct (owns_others _ _ _ _ _ _ x Ho); auto. }
  eexists. split; [done|]. split.
  - split; [done|done|done|rewrite Hsame; [done|set_solver]|rewrite Hsame; [done|set_solver]|done].
  - rewrite He'. cbn. rewrite Nat2Z.id. change (Z.to_nat 0) with 0%nat.
    rewrite take_0. cbn. by rewrite take_app_length.
Qed.

(** The interrupt starts the oldest waiting block; what is in the hands of a write
    stays as it is. *)
Lemma irq_holding u q N E F C H : holding u q N E F C H ->
  exists u' E' F' C', DMA1_Channel4_IRQHandler u = Ret (tt, u') /\ holding u' (q_irq q) N E' F' C' H /\
    forall i, block u' i = block u i.
Proof.
  intros Hh. assert (Hc := holding_cur _ _ _ _ _ _ _ Hh). destruct Hh as [Ho Hcur Hfree Hwait Hblk Hsent].
  assert (exists u1 E1, owns u1 N E1 F H /\
      (if decide (pCurrentMDASendNode u <> Null)
       then Insert_Node_Empty_list (pCurrentMDASendNode u) else mret tt) u = Ret (tt, u1) /\
      length E1 = (match q_cur q with None => q_free q | Some _ => S (q_free q) end) /\
      (forall i, block u1 i = block u i) /\ sent u1 = q_out q) as
    (u1 & E1 & Ho1 & Hins & Hlen1 & Hb1 & Hs1).
  { destruct (q_cur q) as [b|].
    - destruct Hc as (c & -> & -> & _). rewrite decide_True by done.
      apply (owns_perm _ _ _ _ _ (c :: H)) in Ho; [|solve_Permutation].
      destruct (put_empty _ _ _ _ _ _ Ho) as (L & -> & HL & Ho1).
      exists (with_links u L), (E ++ [c]). split_and!; try done; [rewrite length_app; cbn; lia|].
      intros i. by apply block_links.
    - destruct Hc as (-> & ->). rewrite app_nil_r in Ho. exists u, E. by rewrite decide_False by auto. }
  assert (Hw1 : block u1 <$> F = Some <$> q_wait q)
    by (rewrite <- Hwait; apply list_fmap_ext; intros k x _; apply Hb1).
  unfold DMA1_Channel4_IRQHandler, q_irq. unfold_st. rewrite Hins.
  destruct F as [|f F].
  - rewrite (get_full_none _ _ _ _ Ho1). rewrite decide_False by auto.
    destruct (q_wait q); [|done].
    eexists _, E1, [], []. split; [done|]. split; [|exact Hb1].
    split; cbn; try done. rewrite app_nil_r. by destruct Ho1.
  - destruct (get_full _ _ _ _ _ _ Ho1) as (L & -> & HL & Ho2).
    destruct (q_wait q) as [|b w]; [done|]. injection Hw1 as Hbf HbF.
    rewrite decide_True by done. set (u2 := with_current (with_links u1 L) (NodeL f)).
    assert (Ho3 : owns u2 N E1 F (f :: H)) by (destruct Ho2; by split).
    assert (Hbl : forall i, block u2 i = block u1 i) by (intros; by apply block_links).
    rewrite (send_current_run u2 N E1 F f H b Ho3); [|done|by rewrite Hbl].
    eexists _, E1, F, [f]. split; [done|]. split; [|intros i; etrans; [apply Hbl|apply Hb1]].
    split; cbn; try done.
    + apply (owns_perm _ _ _ _ (f :: H)); [solve_Permutation|]. by destruct Ho3.
    + etrans; [apply list_fmap_ext; intros k x _; apply Hbl | exact HbF].
    + f_equal. etrans; [apply Hbl | exact Hbf].
    + by rewrite Hs1.
Qed.

Lemma irq_refines u q N E F C :
  repr u q N E F C ->
  exists u' E' F' C', DMA1_Channel4_IRQHandler u = Ret (tt, u') /\ repr u' (q_irq q) N E' F' C'.
Proof.
  intros [Hh _]%repr_holding. destruct (irq_holding _ _ _ _ _ _ _ Hh) as (u' & E' & F' & C' & -> & Hh' & _).
  exists u', E', F', C'. split; [done|]. apply repr_holding. split; [done|]. unfold q_irq. by destruct (q_wait q).
Qed.

Lemma completions_holding k : forall u q N E F C H, holding u q N E F C H ->
  exists u' E' F' C', completions k u = Ret (tt, u') /\ holding u' (Nat.iter k q_complete q) N E' F' C' H /\
    forall i, block u' i = block u i.
Proof.
  induction k as [|k IH]; intros u q N E F C H Hh; cbn [completions]; [by exists u, E, F, C|].
  rewrite Nat.iter_succ_r. assert (exists u1 E1 F1 C1, transfer_complete u = Ret (tt, u1) /\
    holding u1 (q_complete q) N E1 F1 C1 H /\ forall i, block u1 i = block u i)
    as (u1 & E1 & F1 & C1 & Hr & Hh1 & Hb1).
  { unfold transfer_complete, q_complete. unfold_st. assert (Hc := holding_cur _ _ _ _ _ _ _ Hh).
    destruct (q_cur q) as [b|].
    - destruct Hc as (c & _ & -> & _). rewrite decide_False by done. by eapply irq_holding.
    - destruct Hc as (_ & ->). rewrite decide_True by done. by exists u, E, F, C. }
  destruct (IH _ _ _ _ _ _ _ Hh1) as (u' & E' & F' & C' & Hr' & Hh' & Hb').
  exists u', E', F', C'. rewrite (st_bind_run _ _ _ _ _ Hr). split_and!; [done..|].
  intros i. by rewrite Hb'.
Qed.

(** The end of a write, as decided before. *)
Lemma start_holding u q N E F C e data : holding u q N E F C [e] -> q_cur q = None -> block u e = Some data ->
  exists u' C', write_post data (NodeL e) true u = Ret (Z.of_nat (length data), u') /\
    holding u' (q_start data q) N E F C' [].
Proof.
  intros Hh Hn He. assert (Hc := holding_cur _ _ _ _ _ _ _ Hh). rewrite Hn in Hc. destruct Hc as [-> _].
  destruct Hh as [Ho _ Hfree Hwait _ Hsent]. unfold write_post. rewrite decide_False by done. unfold_st.
  set (u2 := with_current u (NodeL e)). assert (Ho2 : owns u2 N E F [e]) by (destruct Ho; by split).
  rewrite (send_current_run u2 N E F e [] data Ho2) by done.
  eexists _, [e]. split; [done|]. split; cbn; try done; [by destruct Ho2|exact (f_equal (fun b => [b]) He)|by rewrite Hsent].
Qed.

Lemma queue_holding u q N E F C e data : holding u q N E F C [e] -> block u e = Some data ->
  exists u' F', write_post data (NodeL e) false u = Ret (Z.of_nat (length data), u') /\
    holding u' (q_queue data q) N E F' C [].
Proof.
  intros [Ho Hcur Hfree Hwait Hblk Hsent] He. unfold write_post. rewrite decide_False by done. unfold_st.
  destruct (put_full _ _ _ _ _ _ Ho) as (L & -> & HL & Ho3).
  eexists _, (F ++ [e]). split; [done|]. split; cbn; try done.
  - rewrite !fmap_app, blocks_links by done. cbn. rewrite block_links by done. congruence.
  - by rewrite blocks_links.
Qed.

Lemma write_interrupted_holding u q N E F C data k1 k2 k3 :
  holding u q N E F C [] -> Z.of_nat (length data) <= DATA_NODE_BUFF_MAX_LEN ->
  exists u' E' F' C', write_interrupted data k1 k2 k3 u = Ret ((q_write_interrupted data k1 k2 k3 q).1, u') /\
    holding u' (q_write_interrupted data k1 k2 k3 q).2 N E' F' C' [].
Proof.
  intros Hh Hlen. unfold write_interrupted, write_take, RT_ASSERT, q_write_interrupted.
  rewrite (proj2 (Z.leb_le _ _) Hlen). destruct E as [|e E]; assert (Hf := h_free _ _ _ _ _ _ _ Hh); cbn in Hf; rewrite <- Hf.
  - rewrite (st_bind_run _ _ u Null u) by exact (get_empty_none _ _ _ _ (h_owns _ _ _ _ _ _ _ Hh)).
    destruct (completions_holding k1 _ _ _ _ _ _ _ Hh) as (u1 & E1 & F1 & C1 & Hr1 & Hh1 & _).
    destruct (completions_holding k2 _ _ _ _ _ _ _ Hh1) as (u2 & E2 & F2 & C2 & Hr2 & Hh2 & _).
    destruct (completions_holding k3 _ _ _ _ _ _ _ Hh2) as (u3 & E3 & F3 & C3 & Hr3 & Hh3 & _).
    exists u3, E3, F3, C3. rewrite (st_bind_run _ _ _ _ _ Hr1), (st_bind_run _ _ u1 tt u1) by done.
    rewrite (st_bind_run _ _ _ _ _ Hr2). unfold write_test. rewrite (st_bind_run _ _ u2 (bool_decide (pCurrentMDASendNode u2 = Null)) u2) by done.
    by rewrite (st_bind_run _ _ _ _ _ Hr3).
  - destruct (take_holding _ _ _ _ _ _ _ Hh) as (u0 & Hr0 & Hh0). rewrite (st_bind_run _ _ u (NodeL e) u0) by exact Hr0.
    destruct (completions_holding k1 _ _ _ _ _ _ _ Hh0) as (u1 & E1 & F1 & C1 & Hr1 & Hh1 & _).
    rewrite (st_bind_run _ _ _ _ _ Hr1). destruct (copy_holding _ _ _ _ _ _ _ data Hh1 Hlen) as (u2 & Hr2 & Hh2 & Hb2).
    rewrite (st_bind_run _ _ _ _ _ Hr2). destruct (completions_holding k2 _ _ _ _ _ _ _ Hh2) as (u3 & E3 & F3 & C3 & Hr3 & Hh3 & Hb3).
    rewrite (st_bind_run _ _ _ _ _ Hr3). unfold write_test. rewrite (st_bind_run _ _ u3 (bool_decide (pCurrentMDASendNode u3 = Null)) u3) by done.
    rewrite <- Hb3 in Hb2. destruct (completions_holding k3 _ _ _ _ _ _ _ Hh3) as (u4 & E4 & F4 & C4 & Hr4 & Hh4 & Hb4).
    rewrite (st_bind_run _ _ _ _ _ Hr4). rewrite <- Hb4 in Hb2. assert (Hc := holding_cur _ _ _ _ _ _ _ Hh3).
    cbn [fst snd]. destruct (q_cur (Nat.iter k2 q_complete _)) as [b|] eqn:Hcur.
    + destruct Hc as (c & _ & -> & _). rewrite bool_decide_false by done.
      destruct (queue_holding _ _ _ _ _ _ _ _ Hh4 Hb2) as (u5 & F5 & Hr5 & Hh5). by exists u5, E4, F5, C4.
    + destruct Hc as (_ & ->). rewrite bool_decide_true by done.
      rewrite q_complete_idle in Hh4 by done.
      destruct (start_holding _ _ _ _ _ _ _ _ Hh4 Hcur Hb2) as (u5 & C5 & Hr5 & Hh5). by exists u5, E4, F4, C5.
Qed.

(** A write that is not interrupted. *)
Lemma write_uninterrupted data u : USART1_new_hw_write data u = write_interrupted data 0 0 0 u.
Proof. done. Qed.

Lemma q_write_uninterrupted data q : q_write_interrupted data 0 0 0 q = q_write data q.
Proof. unfold q_write_interrupted, q_write, q_take. cbn. destruct (q_free q); [done|]. by destruct (q_cur q). Qed.

Lemma write_refines u q N E F C data :
  repr u q N E F C -> Z.of_nat (length data) <= DATA_NODE_BUFF_MAX_LEN ->
  exists u' E' F' C', USART1_new_hw_write data u = Ret (fst (q_write data q), u') /\
    repr u' (snd (q_write data q)) N E' F' C'.
Proof.
  intros [Hh Hi]%repr_holding Hlen. rewrite write_uninterrupted, <- q_write_uninterrupted.
  destruct (write_interrupted_holding _ _ _ _ _ _ data 0 0 0 Hh Hlen) as (u' & E' & F' & C' & -> & Hh').
  exists u', E', F', C'. split; [done|]. apply repr_holding. split; [done|].
  rewrite q_write_uninterrupted. unfold q_write. destruct (q_free q); [done|]. by destruct (q_cur q).
Qed.
End refinement.

(** ** Opening and closing *)

(** A closed device holds no buffer and sends nothing. *)
Record closed (u : uart) : Prop := {
  cl_flag : oflag_open u = false;
  cl_nodes : dnodes u = ∅;
  cl_cur : pCurrentMDASendNode u = Null
}.

(** [rt_malloc] returned five buffers, all different. *)
Record fresh_nodes (ms : list (Z * Data_Node)) : Prop := {
  fr_num : length ms = NODE_NUM;
  fr_addr : NoDup (0 :: ms.*1);
  fr_len : forall a d, (a, d) ∈ ms -> Z.of_nat (length (buff d)) = DATA_NODE_BUFF_MAX_LEN
}.

Section opening.
Implicit Types (u : uart) (N E F C : list nat).

(** A node whose buffer has just been allocated. *)
Lemma owns_add u N E F i a d :
  owns u N E F [] -> i ∉ N -> a <> 0 -> dnodes u !! a = None ->
  Z.of_nat (length (buff d)) = DATA_NODE_BUFF_MAX_LEN ->
  owns (with_dnodes (with_links u (setNode (links u) (NodeL i) a)) (<[a := d]> (dnodes u)))
    (N ++ [i]) E F [i].
Proof.
  intros H Hi Ha Hfresh Hlen. set (u' := with_dnodes _ _).
  assert (Hold : forall j, j ∈ N -> addr u' j = addr u j).
  { intros j Hj. unfold addr, u'. cbn. rewrite setNode_get, decide_False; [done|].
    intros [= ->]. done. }
  assert (Hnew : addr u' i = a) by (unfold addr, u'; cbn; by rewrite setNode_get, decide_True).
  assert (Hlist : addr u' <$> N = addr u <$> N).
  { apply list_fmap_ext. intros k x Hx%list_elem_of_lookup_2. auto. }
  assert (Hna : a ∉ addr u <$> N).
  { intros (j & -> & Hj)%list_elem_of_fmap.
    destruct (o_buf _ _ _ _ _ H j Hj) as (_ & d' & Hd & _). congruence. }
  destruct H as [[Hc1 Hc2 Hnd Hnull] Het Hft Hnodes Haddr Hbuf Hdom]. split.
  - split; [| |done|done]; eapply chain_frame; try eassumption; intros x _; cbn;
      rewrite setNode_get; case_decide as Hx; rewrite <- ?Hx; done.
  - cbn. by rewrite setNode_get, decide_False.
  - cbn. by rewrite setNode_get, decide_False.
  - rewrite app_nil_r in Hnodes. rewrite <- Hnodes. solve_Permutation.
  - rewrite fmap_app, Hlist. cbn. rewrite Hnew.
    apply NoDup_app. split_and!; [done| |apply NoDup_singleton].
    intros x Hx ->%list_elem_of_singleton. done.
  - intros j [Hj | ->%list_elem_of_singleton]%elem_of_app.
    + rewrite Hold by done. destruct (Hbuf j Hj) as (Hj0 & d' & Hd' & Hl).
      split; [done|]. exists d'. cbn. rewrite lookup_insert_ne; [done|].
      intros ->. apply Hna, list_elem_of_fmap. eauto.
    + rewrite Hnew. split; [done|]. exists d. cbn. by rewrite lookup_insert_eq.
  - intros x. cbn. rewrite fmap_app, Hlist, elem_of_app. cbn. rewrite Hnew.
    rewrite lookup_insert. case_decide as Hx; [rewrite Hx; right; left | left; auto].
Qed.

Lemma hang_nodes_run ms u N E :
  owns u N E [] [] -> NoDup (0 :: ms.*1) ->
  (forall i, i ∈ N -> (i < length N)%nat) ->
  (forall a, a ∈ ms.*1 -> dnodes u !! a = None) ->
  (forall a d, (a, d) ∈ ms -> Z.of_nat (length (buff d)) = DATA_NODE_BUFF_MAX_LEN) ->
  exists u' N' E', hang_nodes (length N) ms u = Ret (tt, u') /\ owns u' N' E' [] [] /\
    length E' = (length E + length ms)%nat /\
    pCurrentMDASendNode u' = pCurrentMDASendNode u /\ sent u' = sent u /\
    openCnt u' = openCnt u.
Proof.
  revert u N E. induction ms as [|[a d] ms IH]; intros u N E H Hnd HN Hfresh Hlen; cbn.
  - exists u, N, E. split_and!; done || lia.
  - unfold_st. cbn in Hnd. apply NoDup_cons in Hnd as [H0 Hnd].
    apply not_elem_of_cons in H0 as [Ha0 H0]. apply NoDup_cons in Hnd as [Ha Hnd].
    rewrite decide_False by done.
    assert (Ho := owns_add u N E [] (length N) a d H).
    destruct (put_empty _ _ _ _ _ _ (Ho ltac:(intros Hc; apply HN in Hc; lia)
      ltac:(done) ltac:(apply Hfresh; left) ltac:(eapply Hlen; left))) as (L & -> & HL & Ho').
    destruct (IH _ _ _ Ho') as (u' & N' & E' & Hrun & Ho'' & HE & Hp & Hs & Hcn).
    + apply NoDup_cons. done.
    + intros i Hi. rewrite length_app. cbn. apply elem_of_app in Hi as [Hi|Hi].
      * apply HN in Hi. lia.
      * apply list_elem_of_singleton in Hi as ->. lia.
    + intros b Hb. cbn. rewrite lookup_insert_ne; [apply Hfresh; by right|].
      intros ->. done.
    + intros b d' Hb. eapply Hlen. right. done.
    + rewrite length_app in Hrun, HE. cbn in Hrun, HE.
      replace (length N + 1)%nat with (S (length N)) in Hrun by lia.
      exists u', N', E'. split_and!; [done|done|lia|done..].
Qed.

Definition q_init (u : uart) : txq := mkQ None [] NODE_NUM (sent u).

Lemma open_refines u ms :
  closed u -> fresh_nodes ms ->
  exists u', USART1_new_hw_open ms u = Ret (tt, u') /\ uart_repr u' (q_init u) /\
    oflag_open u' = true /\ openCnt u' = s8 (openCnt u + 1).
Proof.
  intros [Hfl Hd Hc] [Hn Ha Hl]. unfold USART1_new_hw_open, Data_Node_list_init. unfold_st.
  rewrite Hfl. match goal with |- context [hang_nodes 0 ms ?x] => set (u1 := x) end.
  assert (Ho : owns u1 [] [] [] []).
  { split; cbn; try done.
    - split; cbn; try done; [repeat (apply NoDup_cons; split; [set_solver|])|set_solver].
      constructor.
    - constructor.
    - intros i Hi. by apply elem_of_nil in Hi.
    - intros a [d Hsome]. rewrite Hd in Hsome. done. }
  destruct (hang_nodes_run ms u1 [] [] Ho) as (u' & N & E & Hrun & Ho' & HE & Hp & Hs & Hcn);
    try done.
  - intros i Hi. by apply elem_of_nil in Hi.
  - intros a _. cbn. by rewrite Hd.
  - cbn [length] in Hrun. rewrite Hrun.
    eexists. split_and!; [done| |done|cbn; by rewrite Hcn].
    exists N, E, [], []. cbn in HE. split; cbn; try done.
    + by destruct Ho'.
    + by rewrite Hp.
    + by rewrite HE.
Qed.
End opening.

Section closing.
Implicit Types (u : uart) (N E F C : list nat).

Definition freed (u : uart) (i : nat) : uart := with_dnodes u (delete (addr u i) (dnodes u)).

Lemma owns_drop u N E F i C :
  owns u N E F (i :: C) -> owns (freed u i) (E ++ F ++ C) E F C.
Proof.
  intros H. assert (Hp : i :: E ++ F ++ C ≡ₚ N)
    by (rewrite <- (o_nodes _ _ _ _ _ H); solve_Permutation).
  assert (Hnd : NoDup (addr u i :: (addr u <$> E ++ F ++ C)))
    by (rewrite <- fmap_cons, Hp; apply H).
  apply NoDup_cons in Hnd as [Hni Hnd].
  destruct H as [Htwo Het Hft Hnodes Haddr Hbuf Hdom].
  split; try done.
  - intros j Hj. change (addr (freed u i) j) with (addr u j).
    assert (j ∈ N) as HjN by (rewrite <- Hp; by right).
    destruct (Hbuf j HjN) as (? & d & Hd & Hl). split; [done|]. exists d. cbn.
    rewrite lookup_delete_ne; [done|]. intros Heq. apply Hni. rewrite Heq.
    by apply list_elem_of_fmap_2.
  - intros a Ha. change (addr (freed u i) <$> E ++ F ++ C) with (addr u <$> E ++ F ++ C).
    cbn in Ha. rewrite lookup_delete in Ha. case_decide as Hai; [by destruct Ha|].
    apply Hdom in Ha. rewrite <- Hp in Ha. cbn in Ha. apply elem_of_cons in Ha as [->|Ha]; done.
Qed.

Lemma rt_free_run u N E F i C :
  owns u N E F (i :: C) -> rt_free (Node (links u (NodeL i))) u = Ret (tt, freed u i).
Proof.
  intros H. destruct (o_buf _ _ _ _ _ H i) as (_ & d & Hd & _).
  { rewrite <- (o_nodes _ _ _ _ _ H). set_solver. }
  unfold rt_free, data_node. unfold_st. unfold addr in Hd. by rewrite Hd.
Qed.

Lemma drain_full F : forall fuel u N E,
  owns u N E F [] -> (length F < fuel)%nat ->
  exists u', drain fuel Get_Full_Node u = Ret (tt, u') /\ owns u' E E [] [] /\
    pCurrentMDASendNode u' = pCurrentMDASendNode u /\ sent u' = sent u.
Proof.
  induction F as [|f F IH]; intros [|fuel] u N E H Hf; cbn in *; try lia; unfold_st.
  - rewrite (get_full_none _ _ _ _ H). cbn. exists u. split_and!; try done.
    destruct H as [? ? ? Hn]. rewrite app_nil_r in Hn. split; rewrite ?app_nil_r; try done.
    + by rewrite Hn.
    + intros i. rewrite Hn. auto.
    + intros a Ha. rewrite Hn. auto.
  - destruct (get_full _ _ _ _ _ _ H) as (L & -> & HL & Ho). cbn.
    rewrite decide_False, link_run by done. rewrite (rt_free_run _ _ _ _ _ _ Ho).
    destruct (IH fuel _ _ _ (owns_drop _ _ _ _ _ _ Ho)) as (u' & -> & Ho' & ? & ?); [lia|].
    by exists u'.
Qed.

Lemma drain_empty E : forall fuel u N,
  owns u N E [] [] -> (length E < fuel)%nat ->
  exists u', drain fuel Get_Empty_Node u = Ret (tt, u') /\ dnodes u' = ∅ /\
    pCurrentMDASendNode u' = pCurrentMDASendNode u /\ sent u' = sent u.
Proof.
  induction E as [|e E IH]; intros [|fuel] u N H Hf; cbn in *; try lia; unfold_st.
  - rewrite (get_empty_none _ _ _ _ H). cbn. exists u. split_and!; try done.
    destruct H as [? ? ? Hn ? ? Hdom]. apply map_eq. intros a. rewrite lookup_empty.
    apply eq_None_not_Some. intros Ha%Hdom. cbn in Hn.
    rewrite <- Hn in Ha. by apply elem_of_nil in Ha.
  - destruct (get_empty _ _ _ _ _ _ H) as (L & -> & HL & Ho). cbn.
    rewrite decide_False, link_run by done. rewrite (rt_free_run _ _ _ _ _ _ Ho).
    destruct (IH fuel _ _ (owns_drop _ _ _ _ _ _ Ho)) as (u' & -> & ? & ? & ?); [lia|].
    by exists u'.
Qed.

Lemma free_node_run u N E F :
  owns u N E F [] -> (length E + length F <= NODE_NUM)%nat ->
  exists u', free_node u = Ret (tt, u') /\ dnodes u' = ∅ /\
    pCurrentMDASendNode u' = pCurrentMDASendNode u /\ sent u' = sent u.
Proof.
  intros H Hn.
  destruct (drain_full F (S NODE_NUM) u N E H) as (u1 & Hr1 & H1 & Hp1 & Hs1); [lia|].
  destruct (drain_empty E (S NODE_NUM) u1 E H1) as (u2 & Hr2 & Hd & Hp2 & Hs2); [lia|].
  exists u2. split_and!; [|done|congruence..].
  unfold free_node. by rewrite (st_bind_run _ _ _ _ _ Hr1).
Qed.
End closing.

(** ** Sequences of writes and completed transfers *)

(** A write with the transfers that complete inside it, as in [write_interrupted],
    or a transfer that completes between writes. *)
Inductive op := OWrite (data : list Z) (k1 k2 k3 : nat) | OIrq.

Definition op_ok (o : op) : Prop :=
  match o with
  | OWrite data _ _ _ => 0 < Z.of_nat (length data) <= DATA_NODE_BUFF_MAX_LEN
  | OIrq => True
  end.

(** No transfer completes between the test of [pCurrentMDASendNode] and the end of
    the write. *)
Definition shielded (o : op) : Prop := match o with OWrite _ _ _ k3 => k3 = 0%nat | OIrq => True end.

(** The results of the writes, in order (0 for a completion). *)
Fixpoint run (ops : list op) : ST uart (list Z) :=
  match ops with
  | [] => mret []
  | OWrite data k1 k2 k3 :: ops => r ← write_interrupted data k1 k2 k3; rs ← run ops; mret (r :: rs)
  | OIrq :: ops => _ ← transfer_complete; rs ← run ops; mret (0 :: rs)
  end.

(** The blocks whose write did not return 0. *)
Fixpoint accepted (ops : list op) (rs : list Z) : list (list Z) :=
  match ops, rs with
  | OWrite data _ _ _ :: ops, r :: rs =>
      if decide (r = 0) then accepted ops rs else data :: accepted ops rs
  | _ :: ops, _ :: rs => accepted ops rs
  | _, _ => []
  end.

(** [n] buffers are free, waiting or in transfer; an idle channel has nothing
    waiting. *)
Definition q_num (n : nat) (q : txq) : Prop :=
  (q_free q + length (q_wait q) + length (option_list (q_cur q)) = n)%nat.
Definition q_idle (q : txq) : Prop := q_cur q = None -> q_wait q = [].
Definition q_ok (q : txq) : Prop := q_num NODE_NUM q /\ q_idle q.

(** What was taken in. *)
Definition q_all (q : txq) : list (list Z) := q_out q ++ q_wait q.

(** [k] blocks that waited in [q] have been started in [q'], but for [k'] that still
    wait there. *)
Definition starts (q : txq) (k : nat) (q' : txq) (k' : nat) : Prop :=
  (k' <= k)%nat /\ (k' <= length (q_wait q'))%nat /\
  q_out q ++ take k (q_wait q) `prefix_of` q_out q' ++ take k' (q_wait q').

Lemma starts_trans q k q1 k1 q2 k2 : starts q k q1 k1 -> starts q1 k1 q2 k2 -> starts q k q2 k2.
Proof. intros (? & ? & ?) (? & ? & ?). split_and!; [lia|done|by etransitivity]. Qed.

Section queues.
Implicit Types (q : txq) (data : list Z).

Lemma q_complete_num n q : q_num n q -> q_num n (q_complete q).
Proof.
  unfold q_num, q_complete, q_irq. destruct (q_cur q) eqn:Hc; [|by rewrite Hc].
  destruct (q_wait q); cbn; lia.
Qed.

Lemma q_complete_keeps_idle q : q_idle q -> q_idle (q_complete q).
Proof.
  intros Hi. unfold q_complete. destruct (q_cur q) eqn:Hc; [|done]. unfold q_idle, q_irq. by destruct (q_wait q).
Qed.

Lemma q_complete_all q : q_all (q_complete q) = q_all q.
Proof.
  unfold q_all, q_complete, q_irq. destruct (q_cur q); [|done].
  destruct (q_wait q); cbn; [done|]. by rewrite <- app_assoc.
Qed.

Lemma q_complete_starts q k : q_idle q -> (k <= length (q_wait q))%nat ->
  starts q k (q_complete q) (pred k).
Proof.
  unfold q_idle, starts, q_complete, q_irq. intros Hi Hk. destruct (q_cur q) eqn:Hc.
  - destruct (q_wait q) as [|d w]; cbn in *; [by replace k with 0%nat by lia|].
    destruct k; cbn; (split_and!; [lia|lia|]); rewrite <- app_assoc; cbn; [|done].
    apply prefix_app. apply prefix_nil.
  - rewrite Hi in * by done. cbn in Hk. replace k with 0%nat by lia. rewrite !take_nil. by split_and!; [lia|cbn; lia|].
Qed.

(** Some property of queues that completions keep. *)
Lemma completions_keep (P : txq -> Prop) k q : (forall q, P q -> P (q_complete q)) -> P q -> P (Nat.iter k q_complete q).
Proof. intros HP Hq. induction k as [|k IH]; [done|]. rewrite Nat.iter_succ. auto. Qed.

Lemma completions_num n k q : q_num n q -> q_num n (Nat.iter k q_complete q).
Proof. apply completions_keep, q_complete_num. Qed.

Lemma completions_idle k q : q_idle q -> q_idle (Nat.iter k q_complete q).
Proof. apply completions_keep, q_complete_keeps_idle. Qed.

Lemma completions_all k q : q_all (Nat.iter k q_complete q) = q_all q.
Proof.
  apply (completions_keep (fun q' => q_all q' = q_all q)); [|done]. intros q' <-. apply q_complete_all.
Qed.

Lemma completions_starts j q k : q_idle q -> (k <= length (q_wait q))%nat ->
  starts q k (Nat.iter j q_complete q) (Nat.iter j pred k).
Proof.
  intros Hi Hk. assert (H : q_idle (Nat.iter j q_complete q) /\
    starts q k (Nat.iter j q_complete q) (Nat.iter j pred k)); [|apply H].
  induction j as [|j [Hi' (H1 & H2 & H3)]]; [split_and!; done|]. rewrite !Nat.iter_succ.
  split; [by apply q_complete_keeps_idle|].
  eapply starts_trans; [split_and!; [exact H1|exact H2|exact H3]|by apply q_complete_starts].
Qed.

Lemma q_take_num n q : q_num (S n) q -> q_free q <> 0%nat -> q_num n (q_take q).
Proof. unfold q_num, q_take. cbn. lia. Qed.

(** A write takes in one block or none, whatever completes inside it. *)
Lemma q_write_interrupted_num data k1 k2 k3 n q : q_num n q -> q_num n (q_write_interrupted data k1 k2 k3 q).2.
Proof.
  intros Hq. unfold q_write_interrupted. destruct (q_free q) as [|f] eqn:Hf; [by do 3 apply completions_num|].
  destruct n as [|n]; [unfold q_num in Hq; lia|].
  assert (Hn : q_num n (Nat.iter k2 q_complete (Nat.iter k1 q_complete (q_take q)))).
  { do 2 apply completions_num. apply q_take_num; [done|lia]. }
  cbn [snd]. destruct (q_cur _) eqn:Hc.
  - apply (completions_num n k3) in Hn. unfold q_num, q_queue in *. cbn. rewrite length_app. cbn. lia.
  - unfold q_num, q_start in *. rewrite Hc in Hn. cbn in *. lia.
Qed.

Lemma q_write_interrupted_perm data k1 k2 k3 q : 0 < Z.of_nat (length data) ->
  q_all (q_write_interrupted data k1 k2 k3 q).2 ≡ₚ
    q_all q ++ (if decide ((q_write_interrupted data k1 k2 k3 q).1 = 0) then [] else [data]).
Proof.
  intros Hd. unfold q_write_interrupted. destruct (q_free q); cbn [fst snd].
  - rewrite !completions_all, decide_True by done. by rewrite app_nil_r.
  - rewrite decide_False by lia. change (q_all q) with (q_all (q_take q)).
    rewrite <- (completions_all k1 (q_take q)), <- (completions_all k2 (Nat.iter k1 q_complete (q_take q))).
    generalize (Nat.iter k2 q_complete (Nat.iter k1 q_complete (q_take q))). intros q'.
    destruct (q_cur q').
    + rewrite <- (completions_all k3 q'). unfold q_all, q_queue. cbn. by rewrite app_assoc.
    + unfold q_all, q_start. cbn. solve_Permutation.
Qed.

(** A shielded write puts its block behind all others. *)
Lemma q_write_shielded data k1 k2 q : 0 < Z.of_nat (length data) -> q_idle q ->
  let r := q_write_interrupted data k1 k2 0 q in
  q_idle r.2 /\ q_all r.2 = q_all q ++ (if decide (r.1 = 0) then [] else [data]) /\
  forall k, (k <= length (q_wait q))%nat -> exists k', starts q k r.2 k'.
Proof.
  intros Hd Hi. unfold q_write_interrupted. destruct (q_free q); cbn [fst snd];
    repeat match goal with |- context [Nat.iter 0 q_complete ?x] => change (Nat.iter 0 q_complete x) with x end.
  - split_and!.
    + by do 2 apply completions_idle.
    + by rewrite !completions_all, decide_True, app_nil_r.
    + intros k Hk. eexists. eapply starts_trans; [apply (completions_starts k1 q k Hi Hk)|].
      apply completions_starts; [by apply completions_idle|]. apply (completions_starts k1 q k Hi Hk).
  - rewrite decide_False by lia. change (q_all q) with (q_all (q_take q)).
    assert (Hi1 : q_idle (Nat.iter k2 q_complete (Nat.iter k1 q_complete (q_take q)))) by by do 2 apply completions_idle.
    assert (Hs : forall k, (k <= length (q_wait q))%nat -> exists k',
      starts q k (Nat.iter k2 q_complete (Nat.iter k1 q_complete (q_take q))) k').
    { intros k Hk. eexists. apply starts_trans with (Nat.iter k1 q_complete (q_take q)) (Nat.iter k1 pred k).
      - exact (completions_starts k1 (q_take q) k Hi Hk).
      - apply completions_starts; [by apply completions_idle|]. apply (completions_starts k1 (q_take q) k Hi Hk). }
    rewrite <- (completions_all k1 (q_take q)), <- (completions_all k2 (Nat.iter k1 q_complete (q_take q))).
    revert Hi1 Hs. generalize (Nat.iter k2 q_complete (Nat.iter k1 q_complete (q_take q))). intros q' Hi' Hs.
    destruct (q_cur q') eqn:Hc; (split_and!; [..|intros k Hk; destruct (Hs k Hk) as (k' & H1 & H2 & H3); exists k'; split_and!]).
    + unfold q_idle, q_queue. cbn. by rewrite Hc.
    + unfold q_all, q_queue. cbn. by rewrite app_assoc.
    + done.
    + unfold q_queue. cbn. rewrite length_app. lia.
    + unfold q_queue. cbn. by rewrite take_app_le.
    + done.
    + unfold q_all, q_start. cbn. by rewrite (Hi' Hc), !app_nil_r.
    + done.
    + done.
    + unfold q_start. cbn. rewrite (Hi' Hc), take_nil, !app_nil_r in *. by apply prefix_app_r.
Qed.
End queues.

(** The completions between writes. *)
Fixpoint irqs (ops : list op) : nat :=
  match ops with [] => 0 | OIrq :: ops => S (irqs ops) | _ :: ops => irqs ops end.

Lemma irqs_app ops1 ops2 : irqs (ops1 ++ ops2) = (irqs ops1 + irqs ops2)%nat.
Proof. induction ops1 as [|[d|] ops1 IH]; cbn; lia. Qed.

(** One operation. *)
Definition q_step (o : op) (q : txq) : Z * txq :=
  match o with
  | OWrite data k1 k2 k3 => q_write_interrupted data k1 k2 k3 q
  | OIrq => (0, q_complete q)
  end.

Lemma run_step o ops u q N E F C : holding u q N E F C [] -> op_ok o ->
  exists u' E' F' C', holding u' (q_step o q).2 N E' F' C' [] /\
    run (o :: ops) u = match run ops u' with Ret (rs, u2) => Ret ((q_step o q).1 :: rs, u2) | Err f => Err f end.
Proof.
  intros Hh Ho. destruct o as [data k1 k2 k3|]; cbn [q_step run op_ok] in *.
  - destruct (write_interrupted_holding _ _ _ _ _ _ data k1 k2 k3 Hh ltac:(lia)) as (u' & E' & F' & C' & Hr & Hh').
    exists u', E', F', C'. split; [done|]. by rewrite (st_bind_run _ _ _ _ _ Hr).
  - destruct (completions_holding 1 _ _ _ _ _ _ _ Hh) as (u' & E' & F' & C' & Hr & Hh' & _).
    exists u', E', F', C'. split; [done|]. rewrite (st_bind_run _ _ u tt u'); [done|].
    revert Hr. cbn [completions]. unfold_st. by destruct (transfer_complete u) as [[[] ?]|].
Qed.

Lemma accepted_step o ops q rs : accepted (o :: ops) ((q_step o q).1 :: rs) =
  (match o with OWrite data _ _ _ => if decide ((q_step o q).1 = 0) then [] else [data] | OIrq => [] end) ++ accepted ops rs.
Proof. destruct o; [|done]. cbn [accepted]. by case_decide. Qed.

(** Every operation succeeds, and what is accepted is in the queue once. *)
Lemma run_holding ops : forall u q N E F C,
  holding u q N E F C [] -> q_num NODE_NUM q -> Forall op_ok ops ->
  exists rs u' q' E' F' C', run ops u = Ret (rs, u') /\ holding u' q' N E' F' C' [] /\ q_num NODE_NUM q' /\
    q_all q' ≡ₚ q_all q ++ accepted ops rs.
Proof.
  induction ops as [|o ops IH]; intros u q N E F C Hh Hq Hops.
  - exists [], u, q, E, F, C. by rewrite app_nil_r.
  - apply Forall_cons in Hops as [Ho Hops]. destruct (run_step o ops _ _ _ _ _ _ Hh Ho) as (u1 & E1 & F1 & C1 & Hh1 & Hr).
    assert (Hq1 : q_num NODE_NUM (q_step o q).2).
    { destruct o; [by apply q_write_interrupted_num|by apply q_complete_num]. }
    destruct (IH _ _ _ _ _ _ Hh1 Hq1 Hops) as (rs & u' & q' & E' & F' & C' & Hr' & Hh' & Hq' & Hall).
    rewrite Hr, Hr'. exists ((q_step o q).1 :: rs), u', q', E', F', C'. split_and!; [done..|].
    rewrite Hall, accepted_step. destruct o as [data k1 k2 k3|]; cbn [q_step fst snd app].
    + rewrite q_write_interrupted_perm by apply Ho. by rewrite app_assoc.
    + by rewrite q_complete_all.
Qed.

(** When the writes are shielded, what is accepted is behind what was, and as many
    waiting blocks have been started as transfers completed. *)
Lemma run_starts ops : forall u q N E F C k,
  holding u q N E F C [] -> q_ok q -> Forall op_ok ops -> Forall shielded ops ->
  (k <= length (q_wait q))%nat -> (k <= irqs ops)%nat ->
  exists rs u' q' E' F' C', run ops u = Ret (rs, u') /\ holding u' q' N E' F' C' [] /\ q_ok q' /\
    q_all q' = q_all q ++ accepted ops rs /\ q_out q ++ take k (q_wait q) `prefix_of` q_out q'.
Proof.
  induction ops as [|o ops IH]; intros u q N E F C k Hh [Hn Hi] Hops Hsh Hk Hirq.
  - exists [], u, q, E, F, C. cbn in Hirq. replace k with 0%nat by lia. rewrite take_0, !app_nil_r. by split_and!.
  - apply Forall_cons in Hops as [Ho Hops]. apply Forall_cons in Hsh as [Hso Hsh].
    destruct (run_step o ops _ _ _ _ _ _ Hh Ho) as (u1 & E1 & F1 & C1 & Hh1 & Hr).
    assert (Hstep : q_ok (q_step o q).2 /\
      q_all (q_step o q).2 = q_all q ++ (match o with OWrite data _ _ _ => if decide ((q_step o q).1 = 0) then [] else [data] | OIrq => [] end) /\
      exists k', starts q k (q_step o q).2 k' /\ (k' <= irqs ops)%nat).
    { destruct o as [data k1 k2 k3|]; cbn [q_step fst snd shielded] in *.
      - subst k3. destruct (q_write_shielded data k1 k2 q (proj1 Ho) Hi) as (H1 & H2 & H3).
        split_and!; [split; [by apply q_write_interrupted_num|done]|done|].
        destruct (H3 k Hk) as (k' & Hs). exists k'. split; [done|]. destruct Hs. cbn in Hirq. lia.
      - split_and!; [split; [by apply q_complete_num|by apply q_complete_keeps_idle]|by rewrite q_complete_all, app_nil_r|].
        exists (pred k). split; [by apply q_complete_starts|]. cbn in Hirq. lia. }
    destruct Hstep as (Hq1 & Ha1 & k' & (_ & Hk' & Hs) & Hirq').
    destruct (IH _ _ _ _ _ _ k' Hh1 Hq1 Hops Hsh Hk' Hirq') as (rs & u' & q' & E' & F' & C' & Hr' & Hh' & Hq' & Hall & Hs').
    rewrite Hr, Hr'. exists ((q_step o q).1 :: rs), u', q', E', F', C'.
    split_and!; [done..|by rewrite Hall, Ha1, accepted_step, app_assoc|by etransitivity].
Qed.

Lemma irqs_replicate n : irqs (replicate n OIrq) = n.
Proof. induction n as [|n IH]; [done|]. cbn. by rewrite IH. Qed.

Lemma accepted_irqs n rs : accepted (replicate n OIrq) rs = [].
Proof. revert rs. induction n as [|n IH]; intros [|r rs]; try done. cbn. apply IH. Qed.

(** Completions alone start every waiting block. *)
Lemma run_irqs n u q N E F C : holding u q N E F C [] -> q_ok q -> (length (q_wait q) <= n)%nat ->
  exists rs u', run (replicate n OIrq) u = Ret (rs, u') /\ sent u' = q_all q.
Proof.
  intros Hh Hq Hn.
  destruct (run_starts (replicate n OIrq) u q N E F C (length (q_wait q)) Hh Hq)
    as (rs & u' & q' & E' & F' & C' & Hr & Hh' & _ & Hall & Hs); [by apply Forall_replicate..|lia|by rewrite irqs_replicate|].
  exists rs, u'. split; [done|]. rewrite (h_sent _ _ _ _ _ _ _ Hh').
  rewrite accepted_irqs, app_nil_r in Hall. rewrite firstn_all in Hs. fold (q_all q) in Hs. rewrite <- Hall in Hs |- *.
  unfold q_all in *. destruct Hs as [t Ht]. rewrite <- app_assoc in Ht.
  rewrite <- (app_nil_r (q_out q')) in Ht at 1. apply app_inv_head in Ht. symmetry in Ht. apply app_nil in Ht as [-> _].
  by rewrite app_nil_r.
Qed.

(** ** Properties *)

(** C1: a closed device is opened, all five allocations succeeding, and then blocks
    of 1 to 1024 bytes are written while transfers complete between the writes and,
    inside a write, between taking a buffer, filling it, looking at the channel
    and sending or queuing it; taking a buffer from a list and hanging it on one are
    taken for single steps, which the code does not protect either
    ([uart_list_race]).  Then nothing ever faults, and the blocks started so far,
    together with at most five that still wait, are the blocks whose write did not
    return 0, each once.  If moreover no transfer completes between a write's look
    at the channel and its end, then after five more completions the blocks
    accepted have been started exactly in the order of the writes, and before that
    a prefix of them. *)
Theorem uart_fifo u ms ops :
  closed u -> fresh_nodes ms -> Forall op_ok ops ->
  exists rs u1,
    (_ ← USART1_new_hw_open ms; run ops) u = Ret (rs, u1) /\
    (exists w, (length w <= NODE_NUM)%nat /\ sent u1 ++ w ≡ₚ sent u ++ accepted ops rs) /\
    (Forall shielded ops -> exists rs' u2,
      run (replicate NODE_NUM OIrq) u1 = Ret (rs', u2) /\
      sent u1 `prefix_of` sent u2 /\ sent u2 = sent u ++ accepted ops rs).
Proof.
  intros Hcl Hms Hops.
  destruct (open_refines u ms Hcl Hms) as (u0 & Hopen & (N & E & F & C & [H _]%repr_holding) & _).
  destruct (run_holding ops u0 _ _ _ _ _ H) as (rs & u1 & q & E1 & F1 & C1 & Hrun & H1 & Hq & Hall); [done|done|].
  exists rs, u1. rewrite (st_bind_run _ _ _ _ _ Hopen). split; [done|]. rewrite (h_sent _ _ _ _ _ _ _ H1). split.
  - exists (q_wait q). split; [unfold q_num in Hq; lia|]. rewrite <- (app_nil_r (sent u)). exact Hall.
  - intros Hsh. destruct (run_starts ops u0 _ _ _ _ _ 0 H) as (rs2 & u2 & q2 & E2 & F2 & C2 & Hrun2 & H2 & Hq2 & Hall2 & _);
      [done|done|done|lia|lia|]. rewrite Hrun in Hrun2. injection Hrun2 as <- <-.
    destruct (run_irqs NODE_NUM u1 q2 _ _ _ _ H2 Hq2) as (rs' & u3 & Hrun3 & Hs3); [destruct Hq2 as [Hn _]; unfold q_num in Hn; lia|].
    exists rs', u3. split; [done|]. rewrite <- (h_sent _ _ _ _ _ _ _ H1), (h_sent _ _ _ _ _ _ _ H2), Hs3.
    split; [by apply prefix_app_r|]. rewrite Hall2. unfold q_all. cbn. by rewrite app_nil_r.
Qed.

(** The first [n] operations of an endless sequence. *)
Definition first_of (tr : nat -> op) (n : nat) : list op := tr <$> seq 0 n.

(** Completions that do not cease come as often as one likes. *)
Lemma irqs_unbounded tr n j : (forall i, exists m, (i <= m)%nat /\ tr m = OIrq) ->
  exists k, (j <= irqs (tr <$> seq n k))%nat.
Proof.
  intros Hf. revert n. induction j as [|j IH]; intros n; [by exists 0%nat; cbn; lia|].
  destruct (Hf n) as (m & Hm & Hirq). destruct (IH (S m)) as (k & Hk). exists ((m - n) + S k)%nat.
  rewrite seq_app, fmap_app, irqs_app. replace (n + (m - n))%nat with m by lia. cbn. rewrite Hirq. cbn. lia.
Qed.

(** C6: on a device opened with all five allocations succeeding, along any endless
    sequence of writes of 1 to 1024 bytes and completed transfers in which the
    completions do not cease, and in which none falls between a write's look at the
    channel and its end (they may fall elsewhere in a write, but for the middle of an
    operation on a list, [uart_list_race]), no step faults and
    every block that a write accepts is started at last, each once and in the order
    of the writes. *)
Theorem uart_live u ms tr :
  closed u -> fresh_nodes ms -> (forall n, op_ok (tr n)) -> (forall n, shielded (tr n)) ->
  (forall i, exists m, (i <= m)%nat /\ tr m = OIrq) ->
  exists u0, USART1_new_hw_open ms u = Ret (tt, u0) /\
    forall n, exists rs u1, run (first_of tr n) u0 = Ret (rs, u1) /\
      exists k rs' u2, run (tr <$> seq n k) u1 = Ret (rs', u2) /\
        sent u ++ accepted (first_of tr n) rs `prefix_of` sent u2 /\
        sent u2 `prefix_of` sent u ++ accepted (first_of tr n) rs ++ accepted (tr <$> seq n k) rs'.
Proof.
  intros Hcl Hms Hops Hsh Hf. destruct (open_refines u ms Hcl Hms) as (u0 & Hopen & (N & E & F & C & [H _]%repr_holding) & _).
  assert (Hok : forall (P : op -> Prop) i k, (forall n, P (tr n)) -> Forall P (tr <$> seq i k)).
  { intros P i k HP. apply Forall_fmap, Forall_forall. intros x _. apply HP. }
  exists u0. split; [done|]. intros n.
  destruct (run_starts (first_of tr n) u0 _ _ _ _ _ 0 H) as (rs & u1 & q & E1 & F1 & C1 & Hrun & H1 & Hq & Hall & _);
    [done|by apply Hok|by apply Hok|lia|lia|].
  exists rs, u1. split; [done|].
  destruct (irqs_unbounded tr n (length (q_wait q)) Hf) as (k & Hk).
  destruct (run_starts (tr <$> seq n k) u1 q _ _ _ _ _ H1 Hq (Hok _ n k Hops) (Hok _ n k Hsh) (le_n _) Hk)
    as (rs' & u2 & q2 & E2 & F2 & C2 & Hrun2 & H2 & Hq2 & Hall2 & Hs).
  exists k, rs', u2. split; [done|]. rewrite firstn_all in Hs.
  change (q_out q ++ q_wait q) with (q_all q) in Hs. rewrite Hall in Hs, Hall2.
  change (q_all (q_init u)) with (sent u ++ []) in Hs, Hall2. rewrite app_nil_r in Hs, Hall2.
  rewrite (h_sent _ _ _ _ _ _ _ H2). split; [exact Hs|].
  rewrite app_assoc, <- Hall2. by apply prefix_app_r.
Qed.

(** C35: on an open device the write returns the block's length and queues it,
    or returns 0 and changes nothing when no buffer is free, and asserts on
    more than 1024 bytes; the interrupt starts the oldest waiting block and
    gives the finished buffer back, as the bounded queue [q_write], [q_irq]
    specifies. *)
Theorem uart_refines_queue u q :
  uart_repr u q ->
  (forall data, Z.of_nat (length data) <= DATA_NODE_BUFF_MAX_LEN ->
    exists u', USART1_new_hw_write data u = Ret (fst (q_write data q), u') /\
      uart_repr u' (snd (q_write data q))) /\
  (forall data, DATA_NODE_BUFF_MAX_LEN < Z.of_nat (length data) ->
    USART1_new_hw_write data u = Err AssertFail) /\
  exists u', DMA1_Channel4_IRQHandler u = Ret (tt, u') /\ uart_repr u' (q_irq q).
Proof.
  intros (N & E & F & C & H). split_and!.
  - intros data Hlen. destruct (write_refines _ _ _ _ _ _ data H Hlen) as (u' & E' & F' & C' & -> & H').
    exists u'. split; [done|]. by exists N, E', F', C'.
  - intros data Hlen. unfold USART1_new_hw_write, write_take, RT_ASSERT.
    rewrite (proj2 (Z.leb_gt _ _) Hlen). done.
  - destruct (irq_refines _ _ _ _ _ _ H) as (u' & E' & F' & C' & -> & H').
    exists u'. split; [done|]. by exists N, E', F', C'.
Qed.

(** closing the last opening of the device: while a block is in transfer
    it returns [RT_EBUSY] and keeps every buffer; otherwise it frees each of
    the buffers exactly once and leaves the device closed, with no memory
    leaked. *)
Theorem uart_close_frees u q :
  uart_repr u q -> q_ok q -> oflag_open u = true -> openCnt u <= 1 ->
  match q_cur q with
  | Some _ => USART1_new_hw_close u = Ret (true, with_open u 0 true)
  | None => exists u', USART1_new_hw_close u = Ret (false, u') /\ closed u' /\ sent u' = sent u
  end.
Proof.
  intros (N & E & F & C & H) Hq Hopen Hcnt. unfold USART1_new_hw_close. unfold_st.
  rewrite Hopen. cbn [negb]. rewrite decide_False by lia.
  destruct H as [Ho Hcur Hfree Hwait Hblk Hsent Hidle].
  destruct (q_cur q) as [b|] eqn:Hb.
  - destruct C; [done|]. rewrite Hcur. rewrite decide_True by done. by rewrite Hopen.
  - destruct C; [|done]. rewrite Hcur. cbn [from_option head]. rewrite decide_False by auto.
    destruct Hq as [Hnum _]. unfold q_num in Hnum. rewrite Hb in Hnum. cbn in Hnum.
    assert (Ho1 : owns (with_open u 0 true) N E F []) by (destruct Ho; by split).
    apply (f_equal length) in Hwait. rewrite !length_fmap in Hwait.
    rewrite Hopen. destruct (free_node_run _ _ _ _ Ho1) as (u' & -> & Hd & Hp & Hs); [lia|].
    eexists. split_and!; [done| |done]. by split; cbn; [..|rewrite Hp].
Qed.

(** A closed device and five buffers as [rt_malloc] may return them. *)
Definition dev0 : uart := mkU (fun _ => mkL 0 Null Null) ∅ Null 0 false [].
Definition ms0 : list (Z * Data_Node) :=
  (fun a => (a, mkD (replicate 1024 0) 0)) <$> [100; 1200; 2300; 3400; 4500].

(** The transfer of block A completes in the write of B, between the test of
    [pCurrentMDASendNode] and the insertion that follows it; the channel is then
    idle, so that no further interrupt comes before the write of block C. *)
Definition race : ST uart (list (list Z) * list (list Z)) :=
  _ ← USART1_new_hw_open ms0;
  _ ← run [OWrite [65] 0 0 0; OWrite [66] 0 0 1; OIrq];
  u1 ← get;
  _ ← run [OWrite [67] 0 0 0; OIrq];
  u2 ← get;
  mret (sent u1, sent u2).

(** the write is not protected against the interrupt: when the transfer of
    block A completes between the test of [pCurrentMDASendNode] in the write
    of B and B's insertion into the full list, B stays in the list with the
    channel idle, and block C, written later, is sent before it. *)
Theorem uart_write_race :
  (race dev0 ≫= fun '(r, _) => Ret r) = Ret ([[65]], [[65]; [67]; [66]]).
Proof. vm_compute. reflexivity. Qed.

(** The operations on the lists are not protected either.  [take_first] in two
    halves, between which the interrupt may come: *)
Definition unhook (head : lptr) : ST uart lptr :=
  h ← link head;
  first ← link (Next h);
  if decide (Node first <> 0) then _ ← write_Next head (Next first); mret (Next h) else mret Null.
Definition relink (head p : lptr) : ST uart unit :=
  if decide (p = Null) then mret tt else first ← link p; write_Pre (Next first) head.

Lemma take_first_halves head u : take_first head u = (p ← unhook head; _ ← relink head p; mret p) u.
Proof.
  unfold take_first, unhook, relink, link. unfold_st. destruct (decide (head = Null)); [done|].
  destruct (decide (Next (links u head) = Null)) as [|Hne]; [done|]. cbn [fst snd].
  destruct (decide (Node (links u (Next (links u head))) <> 0)); [|done].
  destruct (write_Next _ _ u) as [[[] u1]|]; [|done]. by destruct (decide (Next (links u head) = Null)).
Qed.

(** Four blocks are on their way and the empty list holds one buffer.  The write of
    a fifth takes it, and between the halves the first transfer completes and hangs
    its buffer behind the one that has just been taken, where no later write finds it
    or those that follow: once the five blocks have been sent every write is
    refused, although nothing is waiting. *)
Definition list_race : ST uart (list Z * list (list Z)) :=
  _ ← USART1_new_hw_open ms0;
  _ ← run [OWrite [65] 0 0 0; OWrite [66] 0 0 0; OWrite [67] 0 0 0; OWrite [68] 0 0 0];
  p ← unhook EmptyHead;
  _ ← transfer_complete;
  _ ← relink EmptyHead p;
  _ ← write_copy p [69]; idle ← write_test; _ ← write_post [69] p idle;
  _ ← completions 5;
  rs ← run (replicate 3 (OWrite [70] 0 0 0));
  u ← get; mret (rs, sent u).

Example uart_list_race :
  (list_race dev0 ≫= fun '(r, _) => Ret r) = Ret ([0; 0; 0], [[65]; [66]; [67]; [68]; [69]]).
Proof. by vm_compute. Qed.

(** ** Witnesses *)

Lemma dev0_closed : closed dev0.
Proof. done. Qed.

Lemma ms0_fresh : fresh_nodes ms0.
Proof.
  split; [done| |].
  - by apply (bool_decide_unpack _); vm_compute.
  - intros a d (x & Hx & _)%list_elem_of_fmap. apply (f_equal (fun p => length (buff p.2))) in Hx.
    cbn [buff snd] in Hx. by rewrite Hx, length_replicate.
Qed.

(** The second write is interrupted in both places where that does no harm, the
    third where it does. *)
Definition ops0 : list op := [OWrite [1; 2] 0 0 0; OWrite [3] 1 1 0; OIrq; OWrite [4] 0 0 0; OWrite [5] 0 0 1].

Lemma uart_fifo_witness : exists rs u1,
  (_ ← USART1_new_hw_open ms0; run ops0) dev0 = Ret (rs, u1) /\
  exists w, (length w <= NODE_NUM)%nat /\ sent u1 ++ w ≡ₚ sent dev0 ++ accepted ops0 rs.
Proof.
  destruct (uart_fifo dev0 ms0 ops0 dev0_closed ms0_fresh) as (rs & u1 & H1 & H2 & _).
  - repeat (apply Forall_cons; split; [cbn; try done; lia|]). by apply Forall_nil.
  - exists rs, u1. split; [exact H1|exact H2].
Defined.

(** Two writes, the second with completions inside, then a completion, for ever. *)
Definition busy (n : nat) : op :=
  if decide (n mod 3 = 2)%nat then OIrq else OWrite [Z.of_nat n mod 256] (n mod 3) (n mod 3) 0.

Lemma uart_live_witness : exists u0, USART1_new_hw_open ms0 dev0 = Ret (tt, u0) /\
  exists rs u1, run (first_of busy 9) u0 = Ret (rs, u1) /\
    exists k rs' u2, run (busy <$> seq 9 k) u1 = Ret (rs', u2) /\ accepted (first_of busy 9) rs `prefix_of` sent u2.
Proof.
  destruct (uart_live dev0 ms0 busy dev0_closed ms0_fresh) as (u0 & E0 & H).
  - intros n. unfold busy. case_decide; cbn; [done | unfold DATA_NODE_BUFF_MAX_LEN; lia].
  - intros n. unfold busy. by case_decide.
  - intros i. exists (i * 3 + 2)%nat. split; [lia|]. unfold busy. rewrite decide_True; [done|].
    by rewrite Nat.add_comm, Nat.Div0.mod_add.
  - exists u0. split; [exact E0|]. destruct (H 9%nat) as (rs & u1 & E1 & k & rs' & u2 & E2 & H2 & _).
    exists rs, u1. split; [exact E1|]. exists k, rs', u2. split; [exact E2 | exact H2].
Defined.

Lemma uart_refines_queue_witness : exists u q, uart_repr u q /\
  exists u', DMA1_Channel4_IRQHandler u = Ret (tt, u') /\ uart_repr u' (q_irq q).
Proof.
  destruct (open_refines dev0 ms0 dev0_closed ms0_fresh) as (u & _ & H & _).
  exists u, (q_init dev0). split; [exact H|].
  exact (proj2 (proj2 (uart_refines_queue u _ H))).
Defined.

Lemma uart_close_frees_witness : exists u, uart_repr u (q_init dev0) /\
  exists u', USART1_new_hw_close u = Ret (false, u') /\ closed u' /\ sent u' = sent u.
Proof.
  destruct (open_refines dev0 ms0 dev0_closed ms0_fresh) as (u & _ & H & Ho & Hc).
  exists u. split; [exact H|].
  refine (uart_close_frees u (q_init dev0) H _ Ho _); [done|]. by rewrite Hc.
Defined.
