(* ===== verification/Serial.v ===== *)
(** * The serial driver

    [src/MySouce/serial.c], [serial.h], [RTT/include/rtdef.h]: the interrupt
    driven receive ring of 64 bytes, the DMA transmit list and the polling
    modes.  The ring is refined to a queue that keeps the newest 63 bytes, the
    transmit list to a FIFO of transfers. *)

From S2P Require Import Prelude.

Open Scope Z_scope.

(** ** Constants of [rtdef.h] and [serial.h] *)

Definition RT_EOK : Z := 0.
Definition RT_EEMPTY : Z := 4.
Definition RT_ENOMEM : Z := 5.
Definition RT_DEVICE_FLAG_RDWR : Z := 0x003.
Definition RT_DEVICE_FLAG_ACTIVATED : Z := 0x010.
Definition RT_DEVICE_FLAG_SUSPENDED : Z := 0x020.
Definition RT_DEVICE_FLAG_STREAM : Z := 0x040.
Definition RT_DEVICE_FLAG_INT_RX : Z := 0x100.
Definition RT_DEVICE_FLAG_DMA_RX : Z := 0x200.
Definition RT_DEVICE_FLAG_INT_TX : Z := 0x400.
Definition RT_DEVICE_FLAG_DMA_TX : Z := 0x800.
Definition RT_DEVICE_CTRL_RESUME : Z := 0x01.
Definition RT_DEVICE_CTRL_SUSPEND : Z := 0x02.
Definition UART_RX_BUFFER_SIZE : Z := 64.

(** [x & f] as a condition. *)
Definition has (x f : Z) : bool := negb (Z.land x f =? 0).

(** ** State *)

Record int_rx := mkRx { rx_buffer : list Z; read_index : Z; save_index : Z }.

Record data_node := mkDn { data_ptr : Z; data_size : Z; next : Z; prev : Z }.

(** [struct stm32_serial_dma_tx]; addresses are [Z], 0 is the null pointer.
    [started] are the transfers given to the channel so far, [enabled] whether
    the channel is on. *)
Record dma_tx := mkTx {
  dma_channel : bool;              (**r [dma_channel != RT_NULL] *)
  list_head : Z;
  list_tail : Z;
  nodes : gmap Z data_node;        (**r nodes taken from [data_node_mp] *)
  started : list (Z * Z);
  enabled : bool
}.

Record serial := mkSerial {
  flag : Z;
  rx : int_rx;
  tx : dma_tx;
  cmd_enabled : bool;              (**r last [USART_Cmd] *)
  dr_out : list Z;                 (**r bytes written to [DR] *)
  completed : list Z;              (**r [tx_complete] calls *)
  indicated : list Z               (**r [rx_indicate] calls *)
}.

Definition with_flag (s : serial) f :=
  mkSerial f (rx s) (tx s) (cmd_enabled s) (dr_out s) (completed s) (indicated s).
Definition with_rx (s : serial) r :=
  mkSerial (flag s) r (tx s) (cmd_enabled s) (dr_out s) (completed s) (indicated s).
Definition with_tx (s : serial) t :=
  mkSerial (flag s) (rx s) t (cmd_enabled s) (dr_out s) (completed s) (indicated s).
Definition with_cmd (s : serial) c :=
  mkSerial (flag s) (rx s) (tx s) c (dr_out s) (completed s) (indicated s).
Definition with_out (s : serial) o :=
  mkSerial (flag s) (rx s) (tx s) (cmd_enabled s) o (completed s) (indicated s).
Definition with_completed (s : serial) c :=
  mkSerial (flag s) (rx s) (tx s) (cmd_enabled s) (dr_out s) c (indicated s).
Definition with_indicated (s : serial) i :=
  mkSerial (flag s) (rx s) (tx s) (cmd_enabled s) (dr_out s) (completed s) i.

(** ** Receiving *)

(** [++i; if (i >= UART_RX_BUFFER_SIZE) i = 0] *)
Definition bump (i : Z) : Z :=
  let i := u32 (i + 1) in if UART_RX_BUFFER_SIZE <=? i then 0 else i.

(** The interrupt-disabled part of the loop in [rt_hw_serial_isr]. *)
Definition save_char (d : Z) (r : int_rx) : res int_rx :=
  buf ← upd (rx_buffer r) (save_index r) (Z.land d 0xff);
  let save := bump (save_index r) in
  mret (mkRx buf (if save =? read_index r then bump (read_index r) else read_index r) save).

(** The interrupt-disabled part of the loop in [rt_serial_read]: [None] when
    the ring is empty. *)
Definition read_char (r : int_rx) : res (option Z * int_rx) :=
  if negb (read_index r =? save_index r) then
    c ← idx (rx_buffer r) (read_index r);
    mret (Some c, mkRx (rx_buffer r) (bump (read_index r)) (save_index r))
  else mret (None, r).

(** The whole interrupt-mode loop: the bytes read, and the error code. *)
Fixpoint read_int (size : nat) (r : int_rx) : res (list Z * Z * int_rx) :=
  match size with
  | O => mret ([], RT_EOK, r)
  | S size =>
      x ← read_char r;
      match x with
      | (Some c, r) => y ← read_int size r; let '(cs, e, r) := y in mret (c :: cs, e, r)
      | (None, r) => mret ([], - RT_EEMPTY, r)
      end
  end.

(** The polling-mode loops.  [sr] holds what each test of [RXNE] finds: [Some]
    received word or [None]; running out of them means the loop still waits. *)
Fixpoint read_poll (sr : list (option Z)) (buffer : list Z) (ptr size : Z) : res (list Z * Z) :=
  match sr with
  | [] => Err OutOfFuel
  | Some d :: sr => b ← upd buffer ptr (Z.land d 0xff); read_poll sr b (ptr + 1) size
  | None :: sr => if ptr <? size then read_poll sr buffer ptr size else mret (buffer, ptr)
  end.

(** The bytes read (in polling mode, the buffer up to [ptr]) and the error
    code. *)
Definition rt_serial_read (sr : list (option Z)) (buffer : list Z) (size : Z) :
    ST serial (list Z * Z) := fun s =>
  if has (flag s) RT_DEVICE_FLAG_INT_RX then
    y ← read_int (Z.to_nat size) (rx s);
    let '(cs, e, r) := y in mret ((cs, e), with_rx s r)
  else if 0 <? size then
    y ← read_poll sr buffer 0 size;
    mret ((take (Z.to_nat y.2) y.1, RT_EOK), s)
  else mret (([], RT_EOK), s).

Definition rx_length (r : int_rx) : Z :=
  if save_index r <? read_index r
  then u32 (UART_RX_BUFFER_SIZE - read_index r + save_index r)
  else u32 (save_index r - read_index r).

Fixpoint save_chars (ds : list Z) (r : int_rx) : res int_rx :=
  match ds with [] => mret r | d :: ds => r ← save_char d r; save_chars ds r end.

(** [rxne] is the state of the RXNE interrupt, [ds] the words [DR] delivers
    while the flag is set, [cb] whether [rx_indicate] is set. *)
Definition rt_hw_serial_isr (rxne : bool) (ds : list Z) (cb : bool) : ST serial unit := fun s =>
  if rxne then
    _ ← RT_ASSERT (has (flag s) RT_DEVICE_FLAG_INT_RX);
    r ← save_chars ds (rx s);
    let s := with_rx s r in
    mret (tt, if cb then with_indicated s (indicated s ++ [rx_length r]) else s)
  else mret (tt, s).

(** ** Transmitting *)

Definition rt_serial_enable_dma (address size : Z) (t : dma_tx) : res dma_tx :=
  _ ← RT_ASSERT (dma_channel t);
  mret (mkTx (dma_channel t) (list_head t) (list_tail t) (nodes t)
             (started t ++ [(address, size)]) true).

Definition node_at (t : dma_tx) (a : Z) : res data_node :=
  match nodes t !! a with Some d => Ret d | None => Err NullDeref end.

(** The DMA branch of [rt_serial_write]; [a] is what [rt_mp_alloc] returned. *)
Definition write_dma (a ptr size : Z) (t : dma_tx) : res (Z * dma_tx) :=
  if a =? 0 then mret (- RT_ENOMEM, t)
  else
    let ns := <[a := mkDn ptr size 0 (list_tail t)]> (nodes t) in
    ns ← (if negb (list_tail t =? 0) then
            match ns !! list_tail t with
            | Some d => Ret (<[list_tail t := mkDn (data_ptr d) (data_size d) a (prev d)]> ns)
            | None => Err NullDeref
            end
          else mret ns);
    let t := mkTx (dma_channel t) (list_head t) a ns (started t) (enabled t) in
    if list_head t =? 0 then
      let t := mkTx (dma_channel t) a (list_tail t) (nodes t) (started t) (enabled t) in
      d ← node_at t (list_head t);
      t ← rt_serial_enable_dma (data_ptr d) (data_size d) t;
      mret (RT_EOK, t)
    else mret (RT_EOK, t).

(** The words a polling-mode write puts into [DR]. *)
Fixpoint poll_out (stream : bool) (data : list Z) : list Z :=
  match data with
  | [] => []
  | c :: data =>
      (if stream && (c =? 10) then [13] else []) ++ Z.land c 0x1FF :: poll_out stream data
  end.

(** The result is the returned count ([ptr - buffer]) and the error code.
    [data] are the bytes at [buffer], [addr] its address, [a] the result of
    [rt_mp_alloc]. *)
Definition rt_serial_write (a addr : Z) (data : list Z) : ST serial (Z * Z) := fun s =>
  if has (flag s) RT_DEVICE_FLAG_INT_TX then Err AssertFail
  else if has (flag s) RT_DEVICE_FLAG_DMA_TX then
    x ← write_dma a addr (Z.of_nat (length data)) (tx s);
    mret ((0, x.1), with_tx s x.2)
  else
    let out := poll_out (has (flag s) RT_DEVICE_FLAG_STREAM) data in
    mret ((Z.of_nat (length data), RT_EOK), with_out s (dr_out s ++ out)).

(** [rt_hw_serial_dma_tx_isr] on the transmit list: the [data_ptr] passed to
    [tx_complete], and the list after the node has been freed. *)
Definition dma_tx_isr (t : dma_tx) : res (Z * dma_tx) :=
  _ ← RT_ASSERT (negb (list_head t =? 0));
  let data_node := list_head t in
  d ← node_at t data_node;
  let head := next d in
  let tail := if head =? 0 then 0 else list_tail t in
  let t := mkTx (dma_channel t) head tail (delete data_node (nodes t)) (started t) (enabled t) in
  t ← (if negb (head =? 0) then
         h ← node_at t head;
         rt_serial_enable_dma (data_ptr h) (data_size h) t
       else mret (mkTx (dma_channel t) head tail (nodes t) (started t) false));
  mret (data_ptr d, t).

Definition rt_hw_serial_dma_tx_isr (cb : bool) : ST serial unit := fun s =>
  _ ← RT_ASSERT (has (flag s) RT_DEVICE_FLAG_DMA_TX);
  x ← dma_tx_isr (tx s);
  let s := with_tx s x.2 in
  mret (tt, if cb then with_completed s (completed s ++ [x.1]) else s).

(** ** Device management *)

Definition rt_serial_init : ST serial Z := fun s =>
  if negb (has (flag s) RT_DEVICE_FLAG_ACTIVATED) then
    let s := if has (flag s) RT_DEVICE_FLAG_INT_RX
             then with_rx s (mkRx (replicate (length (rx_buffer (rx s))) 0) 0 0) else s in
    s ← (if has (flag s) RT_DEVICE_FLAG_DMA_TX then
           _ ← RT_ASSERT (dma_channel (tx s));
           mret (with_tx s (mkTx true 0 0 ∅ (started (tx s)) (enabled (tx s))))
         else mret s);
    mret (RT_EOK, with_flag (with_cmd s true) (Z.lor (flag s) RT_DEVICE_FLAG_ACTIVATED))
  else mret (RT_EOK, s).

Definition rt_serial_open : ST serial Z := mret RT_EOK.
Definition rt_serial_close : ST serial Z := mret RT_EOK.

Definition rt_serial_control (cmd : Z) : ST serial Z :=
  _ ← (if cmd =? RT_DEVICE_CTRL_SUSPEND then
         modify (fun s => with_cmd (with_flag s (Z.lor (flag s) RT_DEVICE_FLAG_SUSPENDED)) false)
       else if cmd =? RT_DEVICE_CTRL_RESUME then
         modify (fun s => with_cmd (with_flag s
                   (Z.land (flag s) (u32 (Z.lnot RT_DEVICE_FLAG_SUSPENDED)))) true)
       else mret tt);
  mret RT_EOK.

(** The flag [rt_hw_serial_register] passes to [rt_device_register]. *)
Definition rt_hw_serial_register (flg : Z) : res Z :=
  if has flg RT_DEVICE_FLAG_DMA_RX || has flg RT_DEVICE_FLAG_INT_TX then Err AssertFail
  else mret (Z.lor RT_DEVICE_FLAG_RDWR flg).

(** ** The receive ring as a queue

    The ring holds at most 63 bytes; when it is full a new byte replaces the
    oldest one. *)

Definition RX_CAPACITY : nat := 63.

Definition q_push (q : list Z) (b : Z) : list Z :=
  drop (length q + 1 - RX_CAPACITY) (q ++ [b]).

Record ring (r : int_rx) (q : list Z) : Prop := {
  ring_len : length (rx_buffer r) = 64%nat;
  ring_read : 0 <= read_index r < 64;
  ring_save : save_index r = (read_index r + Z.of_nat (length q)) mod 64;
  ring_cap : (length q <= RX_CAPACITY)%nat;
  ring_get : forall k, (k < length q)%nat ->
    rx_buffer r !! Z.to_nat ((read_index r + Z.of_nat k) mod 64) = q !! k
}.

Lemma bump_mod i : 0 <= i < 64 -> bump i = (i + 1) mod 64.
Proof.
  intros Hi. unfold bump, UART_RX_BUFFER_SIZE. rewrite wrap_id by (cbn; lia).
  destruct (Z.leb_spec 64 (i + 1)); [replace i with 63 by lia; done|].
  by rewrite Z.mod_small by lia.
Qed.

Lemma mod64_inj r i j : 0 <= i < 64 -> 0 <= j < 64 -> (r + i) mod 64 = (r + j) mod 64 -> i = j.
Proof. intros Hi Hj H. Z.div_mod_to_equations. lia. Qed.

Lemma save_char_ring d r q :
  ring r q -> exists r', save_char d r = Ret r' /\ ring r' (q_push q (Z.land d 0xff)).
Proof.
  intros [Hlen Hr Hs Hcap Hget]. unfold RX_CAPACITY in *. unfold save_char.
  assert (Hsb : 0 <= save_index r < 64) by (rewrite Hs; apply Z.mod_pos_bound; lia).
  rewrite upd_ok by lia. unfold_st. eexists. split; [done|].
  rewrite bump_mod by done. set (b := Z.land d 255).
  assert (Hsave : (save_index r + 1) mod 64 = (read_index r + (Z.of_nat (length q) + 1)) mod 64)
    by (rewrite Hs; Z.div_mod_to_equations; lia).
  assert (Hbuf : forall k, (k < length (q ++ [b]))%nat ->
    <[Z.to_nat (save_index r) := b]> (rx_buffer r) !! Z.to_nat ((read_index r + Z.of_nat k) mod 64)
      = (q ++ [b]) !! k).
  { intros k Hk. rewrite length_app in Hk. cbn in Hk.
    assert (Hb1 := Z.mod_pos_bound (read_index r + Z.of_nat k) 64 ltac:(lia)).
    destruct (decide (k = length q)) as [->|Hne].
    - rewrite <- Hs, list_lookup_insert_eq by lia. by rewrite list_lookup_middle.
    - rewrite list_lookup_insert_ne.
      + rewrite lookup_app_l by lia. apply Hget. lia.
      + rewrite Hs. intros Heq. apply Z2Nat.inj in Heq; [|apply Z.mod_pos_bound; lia|lia].
        apply mod64_inj in Heq; lia. }
  assert (Hl : length (q ++ [b]) = S (length q)) by (rewrite length_app; cbn; lia).
  rewrite Hsave. unfold q_push, RX_CAPACITY.
  destruct (Z.eqb_spec ((read_index r + (Z.of_nat (length q) + 1)) mod 64) (read_index r)) as [Hf|Hf].
  - assert (length q = 63%nat) as Hq by (Z.div_mod_to_equations; lia).
    rewrite Hq in *. rewrite bump_mod by done. cbn [Nat.add Nat.sub].
    split; cbn [rx_buffer read_index save_index].
    + by rewrite length_insert.
    + apply Z.mod_pos_bound. lia.
    + rewrite length_drop, Hl. Z.div_mod_to_equations; lia.
    + rewrite length_drop, Hl. unfold RX_CAPACITY. lia.
    + intros k Hk. rewrite length_drop, Hl in Hk. rewrite lookup_drop, <- Hbuf by lia.
      f_equal. f_equal. Z.div_mod_to_equations; lia.
  - assert (length q <> 63%nat) as Hq by (intros Hq; apply Hf; rewrite Hq; Z.div_mod_to_equations; lia).
    replace (length q + 1 - 63)%nat with 0%nat by lia. rewrite drop_0.
    split; cbn [rx_buffer read_index save_index].
    + by rewrite length_insert.
    + done.
    + rewrite Hl. Z.div_mod_to_equations; lia.
    + rewrite Hl. unfold RX_CAPACITY. lia.
    + exact Hbuf.
Qed.

Lemma read_char_ring r q :
  ring r q ->
  match q with
  | [] => read_char r = Ret (None, r)
  | b :: q' => exists r', read_char r = Ret (Some b, r') /\ ring r' q'
  end.
Proof.
  intros [Hlen Hr Hs Hcap Hget]. unfold RX_CAPACITY in *. unfold read_char.
  destruct q as [|b q']; cbn in *.
  - rewrite Hs, Z.mod_small, Z.add_0_r, Z.eqb_refl by lia. done.
  - destruct (Z.eqb_spec (read_index r) (save_index r)) as [He|He].
    { exfalso. rewrite Hs in He. Z.div_mod_to_equations. lia. }
    assert (Hb := Hget 0%nat ltac:(lia)). rewrite Z.add_0_r, Z.mod_small in Hb by lia.
    rewrite (proj2 (idx_Ret _ _ b)) by (split; [lia|exact Hb]). unfold_st.
    eexists. split; [done|]. rewrite bump_mod by done.
    split; cbn [rx_buffer read_index save_index]; [done|apply Z.mod_pos_bound; lia| |unfold RX_CAPACITY; lia|].
    + rewrite Hs. Z.div_mod_to_equations. lia.
    + intros k Hk. etrans; [|apply (Hget (S k)); lia]. f_equal. f_equal.
      Z.div_mod_to_equations. lia.
Qed.

Lemma read_int_ring size : forall r q,
  ring r q -> exists r',
    read_int size r = Ret (take size q, if decide (length q < size)%nat then - RT_EEMPTY else RT_EOK, r') /\
    ring r' (drop size q).
Proof.
  induction size as [|size IH]; intros r q H; cbn [read_int].
  - exists r. rewrite take_0, drop_0. by rewrite decide_False by lia.
  - assert (H1 := read_char_ring r q H). destruct q as [|b q].
    + rewrite H1. unfold_st. exists r. cbn. by rewrite decide_True by lia.
    + destruct H1 as (r1 & -> & H1). destruct (IH r1 q H1) as (r' & Hrun & H').
      unfold_st. rewrite Hrun. exists r'. cbn. split; [|done].
      repeat case_decide; done || lia.
Qed.

Lemma save_chars_ring ds : forall r q,
  ring r q -> exists r', save_chars ds r = Ret r' /\
    ring r' (foldl (fun q d => q_push q (Z.land d 0xff)) q ds).
Proof.
  induction ds as [|d ds IH]; intros r q H; cbn.
  - by exists r.
  - destruct (save_char_ring d r q H) as (r1 & -> & H1). unfold_st. apply IH, H1.
Qed.

Lemma rx_length_ring r q : ring r q -> rx_length r = Z.of_nat (length q).
Proof.
  intros [Hlen Hr Hs Hcap Hget]. unfold rx_length, RX_CAPACITY, UART_RX_BUFFER_SIZE in *.
  assert (0 <= save_index r < 64) by (rewrite Hs; apply Z.mod_pos_bound; lia).
  destruct (Z.ltb_spec (save_index r) (read_index r)).
  - rewrite wrap_id by (cbn; lia). Z.div_mod_to_equations. lia.
  - rewrite wrap_id by (cbn; lia). Z.div_mod_to_equations. lia.
Qed.

(** Bytes kept by the queue are the last ones received. *)
Lemma q_push_all ds : forall q, (length q <= RX_CAPACITY)%nat ->
  foldl (fun q d => q_push q d) q ds = drop (length q + length ds - RX_CAPACITY) (q ++ ds).
Proof.
  unfold q_push, RX_CAPACITY.
  induction ds as [|d ds IH]; intros q Hq; cbn [foldl].
  - rewrite app_nil_r. cbn. replace (length q + 0 - 63)%nat with 0%nat by lia. by rewrite drop_0.
  - rewrite IH by (rewrite length_drop, length_app; cbn; lia).
    rewrite length_drop, length_app. cbn [length].
    destruct (decide (length q + 1 <= 63)%nat) as [Hs|Hs].
    + replace (length q + 1 - 63)%nat with 0%nat by lia. rewrite drop_0, <- app_assoc.
      f_equal. lia.
    + replace (length q + 1 - 63)%nat with 1%nat by lia.
      destruct q as [|x q]; [cbn in Hs; lia|]. cbn [app drop length] in *.
      rewrite drop_0, <- app_assoc. cbn [app].
      replace (S (length q) + S (length ds) - 63)%nat with (S (length q + length ds - 62))%nat by lia.
      cbn [drop]. f_equal. lia.
Qed.

(** ** The transmit list as a FIFO of transfers *)

(** [l] lists the addresses of the queued nodes and their transfers. *)
Record fifo (t : dma_tx) (l : list (Z * (Z * Z))) : Prop := {
  f_chan : dma_channel t = true;
  f_head : list_head t = default 0 (head l.*1);
  f_tail : list_tail t = default 0 (last l.*1);
  f_nodup : NoDup (0 :: l.*1);
  f_node : forall k a p sz, l !! k = Some (a, (p, sz)) ->
    exists pv, nodes t !! a = Some (mkDn p sz (default 0 (l.*1 !! S k)) pv);
  f_dom : forall a, is_Some (nodes t !! a) -> a ∈ l.*1;
  f_on : enabled t = negb (bool_decide (l = []))
}.

Lemma fifo_head0 t l : fifo t l -> list_head t = 0 <-> l = [].
Proof.
  intros [_ Hh _ Hnd _ _ _]. rewrite Hh. destruct l as [|[a x] l]; cbn; [done|].
  apply NoDup_cons in Hnd as [Hnd _]. split; [|done]. intros ->. destruct Hnd. left.
Qed.

Lemma fifo_addr_inj (l : list (Z * (Z * Z))) (k j : nat) (a : Z) x y :
  NoDup (0 :: l.*1) -> l !! k = Some (a, x) -> l !! j = Some (a, y) -> k = j.
Proof.
  intros [_ Hnd]%NoDup_cons Hk Hj. eapply (NoDup_lookup l.*1 k j a); [done|..];
    rewrite list_lookup_fmap; [by rewrite Hk|by rewrite Hj].
Qed.

Lemma write_dma_fifo t l a p sz :
  fifo t l -> a <> 0 -> nodes t !! a = None ->
  exists t', write_dma a p sz t = Ret (RT_EOK, t') /\ fifo t' (l ++ [(a, (p, sz))]) /\
    started t' = started t ++ (if bool_decide (l = []) then [(p, sz)] else []).
Proof.
  intros [Hc Hh Ht Hnd Hnode Hdom Hon] Ha Hfr. unfold write_dma.
  rewrite (proj2 (Z.eqb_neq _ _) Ha).
  assert (Hnl : a ∉ l.*1).
  { intros ((b & [p' s']) & -> & [k Hk]%list_elem_of_lookup)%list_elem_of_fmap.
    cbn in Hfr. destruct (Hnode _ _ _ _ Hk) as [pv Hpv]. congruence. }
  assert (Hnd' : NoDup (0 :: (l ++ [(a, (p, sz))]).*1)).
  { rewrite fmap_app, app_comm_cons. apply NoDup_app. split_and!; [done| |apply NoDup_singleton].
    intros x Hx Hxa%list_elem_of_singleton. cbn in Hxa. subst x. apply elem_of_cons in Hx as [Hx|Hx]; done. }
  destruct (list_eq_nil_dec l) as [->|Hne].
  - cbn in Hh, Ht. rewrite Ht, Hh. cbn [Z.eqb negb]. unfold_st. unfold node_at. cbn [nodes list_head].
    rewrite lookup_insert_eq. unfold rt_serial_enable_dma. cbn. rewrite Hc. unfold_st.
    eexists. split; [done|]. split; [|cbn; done].
    split; cbn; try done.
    + intros [|k] a' p' s' Hk; [|done]. injection Hk as <- <- <-. exists 0.
      by rewrite lookup_insert_eq.
    + intros x. rewrite lookup_insert. case_decide as Hx; [intros _; rewrite Hx; left|].
      intros Hs%Hdom. by apply elem_of_nil in Hs.
  - destruct (exists_last Hne) as (l0 & [z [pz sz0]] & ->).
    rewrite fmap_app in Ht. cbn in Ht. rewrite last_snoc in Ht. cbn in Ht. rewrite Ht.
    assert (Hlast : (l0 ++ [(z, (pz, sz0))]) !! length l0 = Some (z, (pz, sz0)))
      by by rewrite list_lookup_middle.
    destruct (Hnode _ _ _ _ Hlast) as [pv Hz].
    assert (z <> 0 /\ z <> a) as [Hz0 Hza].
    { rewrite fmap_app in Hnd, Hnl. cbn in Hnd, Hnl. split; [|set_solver].
      intros ->. apply NoDup_cons in Hnd as [Hnd _]. set_solver. }
    rewrite (proj2 (Z.eqb_neq _ _) Hz0). cbn [negb].
    rewrite lookup_insert_ne, Hz by done. unfold_st. cbn [list_head].
    assert (list_head t <> 0) as Hh0.
    { rewrite Hh. rewrite fmap_app in Hnd |- *. destruct l0 as [|[b ?] l0]; cbn in *; [done|].
      apply NoDup_cons in Hnd as [Hnd _]. intros ->. set_solver. }
    rewrite (proj2 (Z.eqb_neq _ _) Hh0). eexists. split; [done|].
    split; [|cbn; destruct l0; by rewrite app_nil_r].
    split; cbn [dma_channel list_head list_tail nodes enabled started data_ptr data_size prev].
    + done.
    + rewrite Hh, !fmap_app. by destruct l0.
    + rewrite fmap_app. cbn [fmap list_fmap fst]. by rewrite last_snoc.
    + done.
    + intros k a' p' s' Hk. apply lookup_app_Some in Hk as [Hk|[Hle Hk]].
      * rewrite fmap_app. assert (Hlt := lookup_lt_Some _ _ _ Hk). rewrite length_app in Hlt. cbn in Hlt.
        destruct (decide (k = length l0)) as [->|Hkl].
        -- rewrite Hlast in Hk. injection Hk as <- <- <-. rewrite lookup_insert_eq.
           exists pv. rewrite lookup_app_r by (rewrite length_fmap, length_app; cbn; lia).
           rewrite length_fmap, length_app. cbn.
           by replace (S (length l0) - (length l0 + 1))%nat with 0%nat by lia.
        -- destruct (Hnode _ _ _ _ Hk) as [pv' Hpv'].
           rewrite lookup_insert_ne, lookup_insert_ne.
           ++ exists pv'. rewrite lookup_app_l by (rewrite length_fmap, length_app; cbn; lia). done.
           ++ intros <-. rewrite Hpv' in Hfr. done.
           ++ intros <-. apply Hkl. eapply fifo_addr_inj; [exact Hnd|exact Hk|exact Hlast].
      * destruct (k - length (l0 ++ [(z, (pz, sz0))]))%nat as [|j] eqn:Hj; [|by destruct j].
        injection Hk as <- <- <-. rewrite lookup_insert_ne, lookup_insert_eq by done.
        exists z. rewrite lookup_ge_None_2; [done|]. rewrite length_fmap, length_app. cbn. lia.
    + intros x. rewrite !lookup_insert. rewrite fmap_app. cbn. case_decide as Hx; [|case_decide as Hx2].
      * intros _. rewrite <- Hx, fmap_app. apply elem_of_app. left. apply elem_of_app. right. left.
      * intros _. rewrite <- Hx2. apply elem_of_app. right. left.
      * intros Hs%Hdom. apply elem_of_app. by left.
    + rewrite Hon, !bool_decide_false; [done|by destruct l0..].
Qed.

Lemma dma_isr_fifo t a p sz l :
  fifo t ((a, (p, sz)) :: l) ->
  exists t', dma_tx_isr t = Ret (p, t') /\ fifo t' l /\ started t' = started t ++ take 1 l.*2.
Proof.
  intros [Hc Hh Ht Hnd Hnode Hdom Hon]. unfold dma_tx_isr.
  cbn in Hh. rewrite Hh. apply NoDup_cons in Hnd as [H0 Hnd]. cbn in H0, Hnd.
  apply not_elem_of_cons in H0 as [Ha0 H0]. apply NoDup_cons in Hnd as [Ha Hnd].
  rewrite (proj2 (Z.eqb_neq a 0)) by done. unfold RT_ASSERT. unfold_st.
  destruct (Hnode 0%nat _ _ _ eq_refl) as [pv Hn]. cbn in Hn. unfold node_at. rewrite Hn. cbn [next data_ptr].
  assert (Htail : forall k a' p' s', l !! k = Some (a', (p', s')) ->
     exists pv, delete a (nodes t) !! a' = Some (mkDn p' s' (default 0 (l.*1 !! S k)) pv)).
  { intros k a' p' s' Hk. rewrite lookup_delete_ne.
    - apply (Hnode (S k)), Hk.
    - intros <-. apply Ha, list_elem_of_fmap. exists (a, (p', s')). split; [done|].
      by eapply list_elem_of_lookup_2. }
  assert (Hd : forall x, is_Some (delete a (nodes t) !! x) -> x ∈ l.*1).
  { intros x. rewrite lookup_delete. case_decide as Hx; [by intros []|].
    intros Hs%Hdom. cbn in Hs. apply elem_of_cons in Hs as [->|Hs]; done. }
  destruct l as [|[b [pb sb]] l]; cbn in *.
  - eexists. split; [done|]. cbn. rewrite app_nil_r. split; [|done].
    split; cbn; try done. apply NoDup_singleton.
  - rewrite (proj2 (Z.eqb_neq b 0)) by (intros ->; set_solver). cbn.
    destruct (Htail 0%nat _ _ _ eq_refl) as [pv' Hb]. cbn in Hb. rewrite Hb.
    unfold rt_serial_enable_dma, RT_ASSERT. cbn. rewrite Hc. unfold_st.
    eexists. split; [done|]. split; [|done].
    split; cbn; try done. apply NoDup_cons. split; done.
Qed.

(** ** Reachable transmit states *)

(** The states of the list after the driver is initialised, under writes (with
    a node the pool gives out) and transfer-complete interrupts of a running
    channel; [w] are the transfers written so far. *)
Inductive dma_reach : list (Z * Z) -> dma_tx -> Prop :=
  | reach_init : dma_reach [] (mkTx true 0 0 ∅ [] false)
  | reach_write w t a p sz t' :
      dma_reach w t -> a <> 0 -> nodes t !! a = None ->
      write_dma a p sz t = Ret (RT_EOK, t') -> dma_reach (w ++ [(p, sz)]) t'
  | reach_isr w t p t' :
      dma_reach w t -> enabled t = true -> dma_tx_isr t = Ret (p, t') -> dma_reach w t'.

Lemma dma_reach_inv w t :
  dma_reach w t -> exists dn l, fifo t l /\ w = dn ++ l.*2 /\ started t = dn ++ take 1 l.*2.
Proof.
  induction 1 as [|w t a p sz t' H (dn & l & Hf & -> & Hs) Ha Hfr Hw
                  |w t p t' H (dn & l & Hf & -> & Hs) Hon Hi].
  - exists [], []. split; [|done]. split; cbn; try done; [apply NoDup_singleton|by intros a [d Ha]].
  - destruct (write_dma_fifo _ _ a p sz Hf Ha Hfr) as (t1 & Hw' & Hf' & Hs').
    rewrite Hw in Hw'. injection Hw' as <-. exists dn, (l ++ [(a, (p, sz))]). split; [done|].
    rewrite fmap_app, <- app_assoc. split; [done|]. rewrite Hs', Hs. cbn.
    destruct l; cbn; [by rewrite app_nil_r|by rewrite app_nil_r].
  - rewrite (f_on _ _ Hf) in Hon. destruct l as [|[a [q sz]] l]; [done|].
    destruct (dma_isr_fifo _ _ _ _ _ Hf) as (t1 & Hi' & Hf' & Hs').
    rewrite Hi in Hi'. injection Hi' as -> <-. exists (dn ++ [(q, sz)]), l. split; [done|].
    cbn in *. rewrite <- app_assoc. split; [done|]. by rewrite Hs', Hs.
Qed.

(** ** Properties *)

(** An open device in interrupt receive mode. *)
Definition rx_mode (s : serial) : Prop := has (flag s) RT_DEVICE_FLAG_INT_RX = true.

Definition s_init (flg : Z) : serial :=
  mkSerial flg (mkRx (replicate 64 7) 3 5) (mkTx true 0 0 ∅ [] false) false [] [] [].

(** C13: between two operations the receive ring is a queue: the interrupt
    appends the bytes received and, when more than 63 are waiting, drops the
    oldest ones, and reports the number waiting to [rx_indicate]; a read
    returns the oldest [size] bytes (all of them and [-RT_EEMPTY] when fewer
    wait), and removes just these.  No access is out of bounds. *)
Theorem serial_rx_queue s q :
  rx_mode s -> ring (rx s) q ->
  (forall ds, Forall byte ds -> exists s',
    rt_hw_serial_isr true ds true s = Ret (tt, s') /\
    let q' := drop (length q + length ds - RX_CAPACITY) (q ++ ds) in
    ring (rx s') q' /\ indicated s' = indicated s ++ [Z.of_nat (length q')]) /\
  (forall sr buffer n, 0 <= n -> exists s',
    rt_serial_read sr buffer n s =
      Ret ((take (Z.to_nat n) q,
            if decide (Z.of_nat (length q) < n) then - RT_EEMPTY else RT_EOK), s') /\
    ring (rx s') (drop (Z.to_nat n) q)).
Proof.
  intros Hm Hq. unfold rx_mode in Hm. split.
  - intros ds Hds. unfold rt_hw_serial_isr. rewrite Hm. unfold RT_ASSERT. unfold_st.
    destruct (save_chars_ring ds (rx s) q Hq) as (r' & -> & Hr').
    eexists. split; [done|]. cbn [rx indicated with_rx with_indicated].
    assert (foldl (fun q d => q_push q (Z.land d 255)) q ds
            = drop (length q + length ds - RX_CAPACITY) (q ++ ds)) as Hf.
    { rewrite <- q_push_all by apply Hq. clear Hr' Hq. revert q.
      induction Hds as [|d ds Hd Hds IH]; intros q; [done|]. cbn [foldl].
      change 255 with (Z.ones 8). rewrite Z.land_ones, Z.mod_small by (unfold byte in Hd; lia). apply IH. }
    rewrite Hf in Hr'. split; [done|]. by rewrite (rx_length_ring _ _ Hr').
  - intros sr buffer n Hn. unfold rt_serial_read. rewrite Hm.
    destruct (read_int_ring (Z.to_nat n) _ _ Hq) as (r' & Hrun & Hr').
    unfold_st. rewrite Hrun. exists (with_rx s r'). split; [|done].
    repeat case_decide; done || lia.
Qed.

(** initialising an inactive device in interrupt receive mode leaves an
    empty ring and marks the device active; a second call changes nothing. *)
Theorem serial_init_ready s :
  has (flag s) RT_DEVICE_FLAG_ACTIVATED = false -> rx_mode s ->
  length (rx_buffer (rx s)) = 64%nat -> dma_channel (tx s) = true ->
  exists s', rt_serial_init s = Ret (RT_EOK, s') /\ ring (rx s') [] /\
    cmd_enabled s' = true /\ rt_serial_init s' = Ret (RT_EOK, s').
Proof.
  intros Ha Hm Hl Hc. unfold rx_mode in Hm. unfold rt_serial_init at 1. rewrite Ha, Hm.
  cbn [negb flag with_rx tx rx]. unfold_st.
  assert (Hlor : has (Z.lor (flag s) RT_DEVICE_FLAG_ACTIVATED) RT_DEVICE_FLAG_ACTIVATED = true).
  { unfold has. rewrite Z.land_comm, Z.land_lor_distr_r.
    destruct (Z.eqb_spec (Z.lor (Z.land RT_DEVICE_FLAG_ACTIVATED (flag s))
      (Z.land RT_DEVICE_FLAG_ACTIVATED RT_DEVICE_FLAG_ACTIVATED)) 0) as [H|]; [|done].
    apply Z.lor_eq_0_iff in H as [_ H]. done. }
  set (r := mkRx _ 0 0). assert (Hr : ring r []).
  { split; cbn; try done; [by rewrite length_replicate| lia|]. intros k Hk. lia. }
  rewrite Hc. unfold RT_ASSERT.
  destruct (has (flag s) RT_DEVICE_FLAG_DMA_TX); eexists; (split; [done|]; cbn;
    split_and!; [done|done|unfold rt_serial_init; cbn; rewrite Hlor; done]).
Qed.

(** whatever sequence of writes and transfer-complete interrupts the DMA
    list has seen since it was initialised: the transfers started are a prefix
    of those written, all of them when the list is empty; the channel runs
    exactly when the list is not empty; and neither a further write with a
    fresh node nor the interrupt of a running channel can fault. *)
Theorem serial_dma_fifo w t :
  dma_reach w t ->
  started t `prefix_of` w /\ (list_head t = 0 -> started t = w) /\
  (enabled t = true <-> list_head t <> 0) /\
  (forall a p sz, a <> 0 -> nodes t !! a = None ->
     exists t', write_dma a p sz t = Ret (RT_EOK, t')) /\
  (enabled t = true -> exists p t', dma_tx_isr t = Ret (p, t')).
Proof.
  intros H. destruct (dma_reach_inv _ _ H) as (dn & l & Hf & -> & Hs).
  assert (H0 := fifo_head0 _ _ Hf). split_and!.
  - rewrite Hs. apply prefix_app, prefix_take.
  - intros Hh. apply H0 in Hh as ->. by rewrite Hs.
  - rewrite (f_on _ _ Hf), H0. by destruct l.
  - intros a p sz Ha Hfr. destruct (write_dma_fifo _ _ a p sz Hf Ha Hfr) as (t' & Hw & _). eauto.
  - rewrite (f_on _ _ Hf). destruct l as [|[a [q sz]] l]; [done|]. intros _.
    destruct (dma_isr_fifo _ _ _ _ _ Hf) as (t1 & Hi' & _). eauto.
Qed.

(** A DMA mode write that is accepted still returns 0, the count of a
    failed write, and error code [RT_EOK]. *)
Theorem serial_dma_write_returns_0 s w a addr data :
  has (flag s) RT_DEVICE_FLAG_INT_TX = false -> has (flag s) RT_DEVICE_FLAG_DMA_TX = true ->
  dma_reach w (tx s) -> a <> 0 -> nodes (tx s) !! a = None ->
  exists s', rt_serial_write a addr data s = Ret ((0, RT_EOK), s') /\
    dma_reach (w ++ [(addr, Z.of_nat (length data))]) (tx s').
Proof.
  intros Hi Hd Hr Ha Hfr. unfold rt_serial_write. rewrite Hi, Hd.
  destruct (dma_reach_inv _ _ Hr) as (dn & l & Hf & _ & _).
  destruct (write_dma_fifo _ _ a addr (Z.of_nat (length data)) Hf Ha Hfr) as (t' & Hw & _).
  unfold_st. rewrite Hw. eexists. split; [done|]. cbn. by eapply reach_write.
Qed.

(** In polling mode the inner loop of the read does not test the size: when
    one more word is ready than the buffer holds, it writes past the buffer. *)
Lemma serial_poll_overrun s buffer ws d sr :
  has (flag s) RT_DEVICE_FLAG_INT_RX = false -> length ws = length buffer -> buffer <> [] ->
  rt_serial_read ((Some <$> ws) ++ Some d :: sr) buffer (Z.of_nat (length buffer)) s = Err OutOfBounds.
Proof.
  intros Hm Hl Hne. unfold rt_serial_read. rewrite Hm.
  rewrite (proj2 (Z.ltb_lt _ _)) by (destruct buffer; cbn; [done|lia]).
  enough (forall ws (b : list Z) ptr n, 0 <= ptr -> ptr + Z.of_nat (length ws) = Z.of_nat (length b) ->
    read_poll ((Some <$> ws) ++ Some d :: sr) b ptr n = Err OutOfBounds) as H.
  { unfold_st. by rewrite H by lia. }
  clear. induction ws as [|x ws IH]; intros b ptr n Hp Hl; cbn in *; unfold_st.
  - unfold upd. by rewrite decide_False by lia.
  - rewrite upd_ok by lia. apply IH; [lia|]. rewrite length_insert. lia.
Qed.

(** ** Witnesses *)

Lemma serial_init_witness : exists s',
  rt_serial_init (s_init RT_DEVICE_FLAG_INT_RX) = Ret (RT_EOK, s') /\ ring (rx s') [] /\
  cmd_enabled s' = true /\ rt_serial_init s' = Ret (RT_EOK, s').
Proof. apply serial_init_ready; reflexivity. Defined.

Definition s_ready : serial := mkSerial 0x110 (mkRx (replicate 64 0) 0 0)
  (mkTx true 0 0 ∅ [] false) true [] [] [].

Lemma serial_rx_witness : exists s',
  rt_hw_serial_isr true [10; 20; 30] true s_ready = Ret (tt, s') /\
  ring (rx s') [10; 20; 30] /\ indicated s' = [3].
Proof.
  assert (Hq : ring (rx s_ready) []).
  { split; try reflexivity; cbn; [lia|lia|]. intros k Hk. lia. }
  exact (proj1 (serial_rx_queue s_ready [] eq_refl Hq) [10; 20; 30]
    ltac:(repeat (apply Forall_cons; split; [unfold byte; lia|]); apply Forall_nil; exact I)).
Defined.

Lemma serial_dma_witness : exists t,
  dma_reach [(1000, 5)] t /\ started t `prefix_of` [(1000, 5)] /\ list_head t = 64.
Proof.
  assert (exists t, dma_reach ([] ++ [(1000, 5)]) t /\ list_head t = 64) as (t & H & Hh).
  { eexists. split.
    - eapply (reach_write [] _ 64 1000 5); [apply reach_init|lia|reflexivity|vm_compute; reflexivity].
    - reflexivity. }
  exists t. split; [exact H|]. split; [exact (proj1 (serial_dma_fifo _ t H))|exact Hh].
Defined.

Lemma serial_dma_write_witness : exists s',
  rt_serial_write 64 1000 [1; 2] (with_flag s_ready RT_DEVICE_FLAG_DMA_TX) = Ret ((0, RT_EOK), s') /\
  dma_reach ([] ++ [(1000, 2)]) (tx s').
Proof.
  apply (serial_dma_write_returns_0 _ [] 64 1000 [1; 2]);
    [reflexivity|reflexivity|apply reach_init|lia|reflexivity].
Defined.

Lemma serial_poll_witness :
  rt_serial_read [Some 1; Some 2; Some 3] [0; 0] 2 (with_flag s_ready 0) = Err OutOfBounds.
Proof. apply (serial_poll_overrun _ [0; 0] [1; 2] 3 []); [reflexivity|reflexivity|done]. Defined.
