(* ===== verification/AtCmd.v ===== *)
(** * The modem command interpreter

    [src/MySouce/ATcmd/AT_APP.c]: the reception of CR LF terminated lines into
    a ring of five buffers, the recognition of modem messages and the dialling
    state machine of [AT_thread_entry]. *)

From S2P Require Import Prelude.

Open Scope Z_scope.

Definition AT_CMD_MAX_LEN : Z := 100.
Definition Command_list_num : nat := 24.

Definition cr : list Z := [13].
Definition crlf : list Z := [13; 10].
Definition quoted (s : string) : list Z := [34] ++ str s ++ [34].
Arguments quoted s%_string.

Definition AT_Command_list : list (list Z) :=
  [ str "OK" ++ cr; str "ERROR" ++ cr; cr;
    str "^RSSILVL:0" ++ cr; str "^RSSILVL:20" ++ cr; str "^RSSILVL:40" ++ cr;
    str "^RSSILVL:60" ++ cr; str "^RSSILVL:80" ++ cr; str "^RSSILVL:99" ++ cr;
    str "^MODE:0" ++ cr; str "^MODE:2" ++ cr;
    str "AT^IPINIT" ++ cr; str "AT^IPINIT?" ++ cr;
    str "^IPINIT:0"; str "^IPINIT:1"; str "AT^IPOPEN="; str "+CME ERROR:";
    str "AT^IPSEND=3,"; str "AT^IPENTRANS=1" ++ cr; str "^SYSINFO:";
    str "^DSDORMANT: 1" ++ cr; str "^IPSTATE: 1,0,remote close" ++ cr;
    str ">" ++ cr; str "^HCMGSS:" ].

(** ** Recognising a line *)

Fixpoint StrCompare (str1 str2 : list Z) : res Z :=
  match str1, str2 with
  | c1 :: str1, c2 :: str2 =>
      if (c1 =? 0) || (c2 =? 0) then mret 1
      else if negb (c1 =? c2) then mret 0
      else StrCompare str1 str2
  | _, _ => Err OutOfBounds
  end.

(** The loop of [DecodeCommand] from entry [i] on. *)
Fixpoint decode_from (i : Z) (cmds : list (list Z)) (Str : list Z) : res Z :=
  match cmds with
  | [] => mret 0xff
  | c :: cmds =>
      r ← StrCompare (c ++ [0]) Str;
      if negb (r =? 0) then mret i else decode_from (i + 1) cmds Str
  end.

Definition DecodeCommand (Str : list Z) : res Z :=
  decode_from 0 (take Command_list_num AT_Command_list) Str.

(** ** State *)

Record ReceiveATcmdBufTypdef := mkBuf { Str : list Z; Ready : Z; next : Z }.

(** What the thread does to the modem and the rest of the system. *)
Inductive act :=
  | Write (data : list Z)      (**r [MC323A->write] *)
  | Delay                      (**r [rt_thread_delay] *)
  | NetState (v : Z)           (**r [MC323A->control(MC323A_CMD_NET_STATE)] *)
  | SendConnected              (**r [rt_event_send(NET_CONNET_EVENT)] *)
  | ClearConnected.            (**r [rt_event_recv(NET_CONNET_EVENT)], clearing *)

Record at_state := mkAt {
  bufs : gmap Z ReceiveATcmdBufTypdef;   (**r the [rt_malloc]ed line buffers *)
  pWrite : Z;
  pRead : Z;
  Buf : list Z;                          (**r the [static Buf] of [MC323A_RX] *)
  index : Z;
  ATsem : nat;
  state : Z;
  IpSel : Z;
  acts : list act;
  connected : bool;    (**r [NET_CONNET_EVENT] in [GlobalEvent], which no other thread sends or clears *)
  closing : bool       (**r the thread waits for that event, at [rt_event_recv] *)
}.

Definition with_bufs (s : at_state) b :=
  mkAt b (pWrite s) (pRead s) (Buf s) (index s) (ATsem s) (state s) (IpSel s) (acts s) (connected s) (closing s).
Definition with_pWrite (s : at_state) p :=
  mkAt (bufs s) p (pRead s) (Buf s) (index s) (ATsem s) (state s) (IpSel s) (acts s) (connected s) (closing s).
Definition with_pRead (s : at_state) p :=
  mkAt (bufs s) (pWrite s) p (Buf s) (index s) (ATsem s) (state s) (IpSel s) (acts s) (connected s) (closing s).
Definition with_Buf (s : at_state) b i :=
  mkAt (bufs s) (pWrite s) (pRead s) b i (ATsem s) (state s) (IpSel s) (acts s) (connected s) (closing s).
Definition with_sem (s : at_state) n :=
  mkAt (bufs s) (pWrite s) (pRead s) (Buf s) (index s) n (state s) (IpSel s) (acts s) (connected s) (closing s).
Definition with_state (s : at_state) st :=
  mkAt (bufs s) (pWrite s) (pRead s) (Buf s) (index s) (ATsem s) st (IpSel s) (acts s) (connected s) (closing s).
Definition with_IpSel (s : at_state) i :=
  mkAt (bufs s) (pWrite s) (pRead s) (Buf s) (index s) (ATsem s) (state s) i (acts s) (connected s) (closing s).
Definition with_acts (s : at_state) a :=
  mkAt (bufs s) (pWrite s) (pRead s) (Buf s) (index s) (ATsem s) (state s) (IpSel s) a (connected s) (closing s).

Definition with_event (s : at_state) c w :=
  mkAt (bufs s) (pWrite s) (pRead s) (Buf s) (index s) (ATsem s) (state s) (IpSel s) (acts s) c w.

Definition node (p : Z) : ST at_state ReceiveATcmdBufTypdef := fun s =>
  match bufs s !! p with Some b => Ret (b, s) | None => Err NullDeref end.

Definition set_node (p : Z) (b : ReceiveATcmdBufTypdef) : ST at_state unit :=
  _ ← node p; modify (fun s => with_bufs s (<[p := b]> (bufs s))).

(** ** The ring of line buffers *)

(** The loop of [ATcmdBuf_init]; [ms] are the results of [rt_malloc], each with
    the uninitialised buffer found there ([first] is the test [i == 0]). *)
Fixpoint init_nodes (first : bool) (ms : list (Z * list Z)) : ST at_state unit :=
  match ms with
  | [] => mret tt
  | (a, junk) :: ms =>
      _ ← modify (fun s => with_bufs s
            (if a =? 0 then bufs s else <[a := mkBuf junk 0xff 0]> (bufs s)));
      s ← get;
      _ ← (if first then
             _ ← modify (fun s => with_pWrite s a);
             b ← node a;
             _ ← set_node a (mkBuf (Str b) 0 (next b));
             modify (fun s => with_pRead s (pWrite s))
           else
             b ← node (pWrite s);
             _ ← set_node (pWrite s) (mkBuf (Str b) (Ready b) a);
             _ ← modify (fun s => with_pWrite s a);
             b ← node a;
             set_node a (mkBuf (Str b) 0 (next b)));
      init_nodes false ms
  end.

Definition ATcmdBuf_init (ms : list (Z * list Z)) : ST at_state unit :=
  _ ← init_nodes true ms;
  s ← get;
  b ← node (pWrite s);
  _ ← set_node (pWrite s) (mkBuf (Str b) (Ready b) (pRead s));
  modify (fun s => with_pWrite s (pRead s)).

(** ** Reception *)

(** The copy of a complete line into the buffer at [pWrite]. *)
Definition store_line : ST at_state unit :=
  s ← get;
  b ← node (pWrite s);
  line ← lift (upd_range (Str b) 0 (take (Z.to_nat (index s + 1)) (Buf s)));
  line ← lift (upd line (index s + 1) 0);
  _ ← set_node (pWrite s) (mkBuf line 1 (next b));
  _ ← modify (fun s => with_pWrite s (next b));
  modify (fun s => with_Buf (with_sem s (S (ATsem s))) (Buf s) 0).

Definition MC323A_RX (size : Z) : ST at_state unit :=
  if size =? 0x7E then modify (fun s => with_Buf s (Buf s) 0)
  else
    s ← get;
    buf ← lift (upd (Buf s) (index s) (u8 size));
    _ ← modify (fun s => with_Buf s buf (index s));
    let bump := modify (fun s =>
      let i := u8 (index s + 1) in
      with_Buf s (Buf s) (if AT_CMD_MAX_LEN <=? i then 0 else i)) in
    c ← lift (idx buf (index s));
    if c =? 10 then
      p ← lift (idx buf (index s - 1));
      if p =? 13 then store_line else bump
    else bump.

(** ** The server address on the SD card *)

(** Position of the first [':'], or the length. *)
Fixpoint find_colon (l : list Z) : nat :=
  match l with [] => O | c :: l => if c =? 58 then O else S (find_colon l) end.

(** [file] is the content of the file ([None] when [stat] fails), the other
    arguments the caller's buffers. *)
Definition readIPAddrFromfile (file : option (list Z)) (pIpAddrBuf pIpPort : list Z) :
    res (list Z * list Z) :=
  match file with
  | None => Err AssertFail
  | Some pBuf =>
      let size := Z.of_nat (length pBuf) in
      _ ← RT_ASSERT (size <=? 22);
      let i := find_colon pBuf in
      _ ← RT_ASSERT (Z.of_nat i <? size);
      a ← upd_range pIpAddrBuf 0 (take i pBuf);
      a ← upd a (Z.of_nat i) 0;
      p ← upd_range pIpPort 0 (drop (i + 1) pBuf);
      mret (a, p)
  end.

(** The command [rt_sprintf] formats into the buffer of 100 bytes. *)
Definition ip_open_cmd (a p : list Z) : res (list Z) :=
  a ← cstr a;
  p ← cstr p;
  let cmd := str "AT^IPOPEN=1," ++ quoted "TCP" ++ str "," ++ [34] ++ a ++ [34] ++ str "," ++ p
               ++ str ",8002" ++ crlf in
  if Z.of_nat (length cmd) <? 100 then mret cmd else Err OutOfBounds.

(** ** The dialling thread *)

Definition MC323A_NET_ENABLE : Z := 1.
Definition MC323A_NET_DISABLE : Z := 0.
Definition SMSEnd : list Z := [0; 0x1A].

(** Bytes of the message announcing the start of the terminal (12 bytes of
    GB2312, [sizeof - 1]). *)
Definition SMS_LEN : nat := 12.

Definition emit (a : act) : ST at_state unit := modify (fun s => with_acts s (acts s ++ [a])).
Definition goto_state (n : Z) : ST at_state unit := modify (fun s => with_state s n).

Definition cmd_ipinit : list Z :=
  str "AT^IPINIT=," ++ quoted "card" ++ str "," ++ quoted "card" ++ crlf.

Section thread.

(** [sms] is the content of [pSendBuf] after [GB2312ToUnicode_Str] and
    [NetworkByteOrder]; [ip1] and [ip2] are the files of
    [/configure]; [junk20] and [junk8] the uninitialised buffers. *)
Context (sms : list Z) (ip1 ip2 : option (list Z)) (junk20 junk8 : list Z).

(** The code from the label [TCP_Dial] to the end of the case. *)
Definition TCP_Dial : ST at_state unit :=
  s ← get;
  x ← lift (readIPAddrFromfile (if IpSel s =? 0 then ip1 else ip2) junk20 junk8);
  cmd ← lift (ip_open_cmd x.1 x.2);
  _ ← emit (Write cmd);
  goto_state 6.

(** The code from the label [debug_in] to the end of the case. *)
Definition debug_in : ST at_state unit :=
  _ ← emit (NetState MC323A_NET_ENABLE);
  _ ← emit SendConnected;
  _ ← modify (fun s => with_event s true (closing s));
  goto_state 9.

(** [case 0]; in state 4 the statement [state==5;] has no effect. *)
Definition on_OK : ST at_state unit :=
  s ← get;
  if state s =? 1 then _ ← emit (Write (str "AT^IPINIT?" ++ crlf)); goto_state 2
  else if state s =? 2 then _ ← emit (Write (str "AT^HSMSSS=0,0,6,0" ++ crlf)); goto_state 3
  else if state s =? 3 then
    _ ← emit (Write (str "AT^HCMGS=" ++ quoted "15668061345" ++ crlf));
    _ ← emit Delay;
    _ ← emit (Write (take SMS_LEN sms));
    _ ← emit (Write SMSEnd);
    goto_state 4
  else if state s =? 4 then mret tt
  else if state s =? 5 then TCP_Dial
  else if state s =? 6 then _ ← emit (Write (str "AT^IPDATMODE=1" ++ crlf)); goto_state 7
  else if state s =? 7 then _ ← emit (Write (str "AT^IPENTRANS=1" ++ crlf)); goto_state 8
  else if state s =? 8 then debug_in
  else mret tt.

Definition on_ERROR : ST at_state unit :=
  s ← get;
  if state s =? 1 then emit (Write cmd_ipinit)
  else if state s =? 6 then
    _ ← modify (fun s => with_IpSel s 1);
    _ ← emit (Write (str "AT^RESET" ++ crlf));
    goto_state 0
  else mret tt.

(** [case 21] from the return of [rt_event_recv] on, which takes the event. *)
Definition close_connection : ST at_state unit :=
  _ ← modify (fun s => with_event s false false);
  _ ← emit ClearConnected;
  _ ← emit (NetState MC323A_NET_DISABLE);
  _ ← emit (Write (str "AT^RESET" ++ crlf));
  goto_state 0.

(** [rt_event_recv(..., RT_WAITING_FOREVER, ...)]: without the event the thread
    waits. *)
Definition on_remote_close : ST at_state unit :=
  s ← get;
  if connected s then close_connection else modify (fun s => with_event s false true).

(** The [switch (Value)]. *)
Definition at_switch (Value : Z) : ST at_state unit :=
  if Value =? 0 then on_OK
  else if Value =? 10 then _ ← emit (Write cmd_ipinit); goto_state 1
  else if Value =? 1 then on_ERROR
  else if Value =? 21 then on_remote_close
  else if Value =? 23 then _ ← emit Delay; TCP_Dial
  else mret tt.

(** One iteration of the thread's loop, up to the end of its [switch] or the wait in
    it, or the rest of one that waited; the value of the line it took, if any. *)
Definition at_iter : ST at_state (option Z) :=
  s ← get;
  if closing s then
    if connected s then _ ← close_connection; mret None else mret None
  else
  match ATsem s with
  | O => mret None
  | S n =>
      _ ← modify (fun s => with_sem s n);
      b ← node (pRead s);
      if Ready b =? 0 then mret (Some 0xff)
      else
        Value ← lift (DecodeCommand (Str b));
        _ ← set_node (pRead s) (mkBuf (Str b) 0 (next b));
        _ ← modify (fun s => with_pRead s (next b));
        _ ← at_switch Value;
        mret (Some Value)
  end.

(** The thread up to its loop; [BABdebug] tells whether the build defines that
    macro, which enters the loop's [switch] at [debug_in]. *)
Definition AT_thread_start (BABdebug : bool) (ms : list (Z * list Z)) : ST at_state unit :=
  _ ← ATcmdBuf_init ms;
  _ ← modify (fun s => with_sem s 0);
  if BABdebug then debug_in else mret tt.

End thread.

(** ** String comparison *)

Definition related (s t : list Z) : Prop := s `prefix_of` t \/ t `prefix_of` s.

Lemma related_cons a s t : related (a :: s) (a :: t) <-> related s t.
Proof.
  unfold related. split; (intros [H|H]; [left|right]);
    solve [by apply prefix_cons_inv_2 in H | by apply prefix_cons].
Qed.

(** Both strings terminated, the result is 1 exactly when one is a prefix of
    the other. *)
Lemma StrCompare_spec s : forall t a b,
  Forall (fun c => c <> 0) s -> Forall (fun c => c <> 0) t ->
  exists r, StrCompare (s ++ 0 :: a) (t ++ 0 :: b) = Ret r /\
    (r = 1 /\ related s t \/ r = 0 /\ ~ related s t).
Proof.
  induction s as [|c s IH]; intros [|d t] a b Hs Ht; cbn.
  - exists 1. split; [done|]. left. split; [done|]. by left.
  - exists 1. split; [done|]. left. split; [done|]. left. apply prefix_nil.
  - apply Forall_cons in Hs as [Hc Hs]. rewrite (proj2 (Z.eqb_neq c 0) Hc). cbn.
    exists 1. split; [done|]. left. split; [done|]. right. apply prefix_nil.
  - apply Forall_cons in Hs as [Hc Hs]. apply Forall_cons in Ht as [Hd Ht].
    rewrite (proj2 (Z.eqb_neq c 0) Hc), (proj2 (Z.eqb_neq d 0) Hd). cbn.
    destruct (Z.eqb_spec c d) as [->|Hne]; cbn.
    + destruct (IH t a b Hs Ht) as (r & -> & Hr). exists r. by rewrite related_cons.
    + exists 0. split; [done|]. right. split; [done|].
      intros [H|H]; apply prefix_cons_inv_1 in H; congruence.
Qed.

Lemma decode_from_spec cmds : forall i t b,
  Forall (Forall (fun c => c <> 0)) cmds -> Forall (fun c => c <> 0) t ->
  exists v, decode_from i cmds (t ++ 0 :: b) = Ret v /\
    ((v = 0xff /\ forall c, c ∈ cmds -> ~ related c t) \/
     (exists k c, v = i + Z.of_nat k /\ cmds !! k = Some c /\ related c t /\
        forall j c', (j < k)%nat -> cmds !! j = Some c' -> ~ related c' t)).
Proof.
  induction cmds as [|c cmds IH]; intros i t b Hc Ht; cbn.
  - exists 0xff. split; [done|]. left. split; [done|]. intros c Hin. by apply elem_of_nil in Hin.
  - apply Forall_cons in Hc as [Hc Hcs].
    destruct (StrCompare_spec c t [] b Hc Ht) as (r & -> & Hr). unfold_st.
    destruct Hr as [[-> Hr]|[-> Hr]]; cbn.
    + exists i. split; [done|]. right. exists 0%nat, c. split_and!; [lia|done|done|lia].
    + destruct (IH (i + 1) t b Hcs Ht) as (v & Hv & [[-> Hno]|(k & c' & -> & Hk & Hrel & Hmin)]).
      * exists 0xff. split; [done|]. left. split; [done|].
        intros x [->|Hx]%elem_of_cons; auto.
      * eexists. split; [exact Hv|]. right. exists (S k), c'.
        split_and!; [lia|done|done|]. intros [|j] x Hj Hx; [by injection Hx as <-|].
        apply (Hmin j); [lia|done].
Qed.

Lemma commands_no_nul : Forall (Forall (fun c => c <> 0)) (take Command_list_num AT_Command_list).
Proof. apply (bool_decide_unpack _). vm_compute. done. Qed.

(** ** Reception of a line *)

Fixpoint recv (l : list Z) : ST at_state unit :=
  match l with [] => mret tt | c :: l => _ ← MC323A_RX c; recv l end.

(** What a line of [n] bytes (terminator included) leaves in a buffer. *)
Definition filled (line old : list Z) : list Z := line ++ 0 :: drop (length line + 1) old.

(** Bytes of a line proper: neither NUL, LF nor the reset byte 0x7E. *)
Definition plain (c : Z) : Prop := 0 < c < 256 /\ c <> 10 /\ c <> 0x7E.

Lemma recv_plain l : forall s,
  Forall plain l -> length (Buf s) = 100%nat -> 0 <= index s ->
  index s + Z.of_nat (length l) < 100 ->
  recv l s = Ret (tt, with_Buf s
    (take (Z.to_nat (index s)) (Buf s) ++ l ++ drop (Z.to_nat (index s) + length l) (Buf s))
    (index s + Z.of_nat (length l))).
Proof.
  induction l as [|c l IH]; intros s Hl Hb Hi Hn; cbn [recv].
  - unfold_st. cbn [length app]. rewrite Nat.add_0_r, take_drop, Z.add_0_r. by destruct s.
  - apply Forall_cons in Hl as [(Hc & Hc1 & Hc2) Hl]. cbn [length] in *. unfold MC323A_RX. unfold_st.
    rewrite (proj2 (Z.eqb_neq _ _) Hc2). rewrite upd_ok by lia. unfold_st.
    rewrite (proj2 (idx_Ret _ _ (u8 c))) by (split; [done|apply list_lookup_insert_eq; lia]).
    rewrite wrap_id by (cbn; lia).
    rewrite (proj2 (Z.eqb_neq _ _) Hc1). unfold with_Buf. cbn [index Buf].
    rewrite wrap_id by (cbn; lia). unfold AT_CMD_MAX_LEN.
    rewrite (proj2 (Z.leb_gt _ _)) by lia.
    rewrite IH; cbn [index Buf]; [|done|by rewrite length_insert|lia|lia].
    unfold with_Buf. cbn. do 3 f_equal; [|lia].
    rewrite insert_take_drop by lia.
    replace (Z.to_nat (index s + 1)) with (S (Z.to_nat (index s))) by lia.
    rewrite drop_app_ge by (rewrite length_take; lia).
    rewrite take_app_ge by (rewrite length_take; lia).
    rewrite length_take, Nat.min_l by lia.
    replace (S (Z.to_nat (index s)) - Z.to_nat (index s))%nat with 1%nat by lia.
    replace (S (Z.to_nat (index s)) + length l - Z.to_nat (index s))%nat with (S (length l)) by lia.
    cbn [take drop]. rewrite take_0, drop_drop, <- app_assoc. cbn [app].
    do 3 f_equal. f_equal. lia.
Qed.

Lemma recv_app l1 l2 s : recv (l1 ++ l2) s = (_ ← recv l1; recv l2) s.
Proof.
  revert s. induction l1 as [|c l1 IH]; intros s; [done|]. cbn [app recv].
  unfold_st. destruct (MC323A_RX c s) as [[[] s1]|]; [apply IH|done].
Qed.

Lemma recv_line l s b :
  Forall plain l -> Z.of_nat (length l) + 2 < AT_CMD_MAX_LEN ->
  length (Buf s) = 100%nat -> index s = 0 ->
  bufs s !! pWrite s = Some b -> length (Str b) = 100%nat ->
  exists buf, length buf = 100%nat /\ recv (l ++ crlf) s =
    Ret (tt, mkAt (<[pWrite s := mkBuf (filled (l ++ crlf) (Str b)) 1 (next b)]> (bufs s))
      (next b) (pRead s) buf 0 (S (ATsem s)) (state s) (IpSel s) (acts s) (connected s) (closing s)).
Proof.
  intros Hl Hn Hb Hi Hp Hlen. unfold AT_CMD_MAX_LEN in Hn.
  replace (l ++ crlf) with ((l ++ [13]) ++ [10]) by (by rewrite <- app_assoc).
  rewrite recv_app. set (line := (l ++ [13]) ++ [10]).
  assert (Hl1 : length (l ++ [13]) = S (length l)) by (rewrite length_app; cbn; lia).
  rewrite (st_bind_run _ _ _ _ _ (recv_plain (l ++ [13]) s
    ltac:(apply Forall_app; split; [done|repeat constructor; cbn; lia]) Hb ltac:(lia) ltac:(lia))).
  rewrite Hi. change (Z.to_nat 0) with 0%nat. rewrite take_0. cbn [app Nat.add].
  set (buf1 := (l ++ [13]) ++ drop (length (l ++ [13])) (Buf s)).
  assert (Hb1 : length buf1 = 100%nat) by (unfold buf1; rewrite length_app, length_drop; lia).
  cbn [recv]. unfold MC323A_RX, store_line, set_node, node. change (10 =? 126) with false.
  unfold_st. unfold with_Buf. cbn [index Buf].
  rewrite Z.add_0_l, upd_ok by lia. cbn [Z.eqb Pos.eqb]. unfold_st.
  set (buf2 := <[_ := u8 10]> buf1).
  assert (Hb2 : buf2 = line ++ drop (length line) (Buf s)).
  { unfold buf2, buf1, line. rewrite Nat2Z.id.
    assert (drop (length (l ++ [13])) (Buf s) <> []) as Hne.
    { intros Hd%(f_equal length). rewrite length_drop in Hd. cbn in Hd. lia. }
    destruct (drop (length (l ++ [13])) (Buf s)) as [|x r] eqn:Hd; [done|].
    rewrite insert_app_r_alt, Nat.sub_diag by lia. cbn.
    rewrite (length_app (l ++ [13])). cbn. rewrite <- drop_drop, Hd. by rewrite <- (app_assoc (l ++ [13])). }
  assert (Hline : length line = S (S (length l))) by (unfold line; rewrite length_app, Hl1; cbn; lia).
  rewrite (proj2 (idx_Ret buf2 _ 10)).
  2: { split; [lia|]. rewrite Hb2. unfold line. rewrite Nat2Z.id.
       rewrite <- (app_assoc (l ++ [13])). cbn [app]. by rewrite list_lookup_middle. }
  cbn [Z.eqb Pos.eqb]. rewrite (proj2 (idx_Ret buf2 _ 13)).
  2: { split; [lia|]. rewrite Hb2. unfold line. rewrite Hl1.
       replace (Z.to_nat (Z.of_nat (S (length l)) - 1)) with (length l) by lia.
       rewrite <- !app_assoc. cbn [app]. by rewrite list_lookup_middle. }
  cbn [Z.eqb Pos.eqb]. unfold_st. cbn [bufs pWrite index Buf]. rewrite Hp. rewrite Hl1.
  assert (Hm : Z.of_nat (S (length l)) + 1 = Z.of_nat (length line)) by lia.
  rewrite Hm, Nat2Z.id, Hb2, take_app_length. rewrite upd_range_0 by lia. unfold_st.
  rewrite upd_ok by (rewrite length_app, length_drop; lia). unfold_st. cbn [bufs pWrite].
  rewrite Hp, ?Nat2Z.id. cbn. eexists. split; [|do 3 f_equal; f_equal; f_equal].
  - rewrite length_app, length_drop. lia.
  - unfold filled. rewrite ?Nat2Z.id.
    rewrite insert_app_r_alt, Nat.sub_diag by lia. f_equal.
    destruct (drop (length line) (Str b)) as [|x r] eqn:Hd.
    { apply (f_equal length) in Hd. rewrite length_drop in Hd. cbn in Hd. lia. }
    cbn. f_equal. by rewrite <- drop_drop, Hd.
Qed.

(** ** The ring of buffers as a mailbox of lines *)

(** The value [DecodeCommand] gives for the text [t]. *)
Definition decode (t : list Z) : Z :=
  match DecodeCommand (t ++ [0]) with Ret v => v | Err _ => 0xff end.

Lemma StrCompare_tail s : forall t a b,
  StrCompare (s ++ [0]) (t ++ 0 :: a) = StrCompare (s ++ [0]) (t ++ 0 :: b).
Proof.
  induction s as [|c s IH]; intros [|d t] a b; cbn; [done|done| |].
  - by rewrite orb_true_r.
  - by rewrite (IH t a b).
Qed.

Lemma decode_from_tail cmds : forall i t a b,
  decode_from i cmds (t ++ 0 :: a) = decode_from i cmds (t ++ 0 :: b).
Proof.
  induction cmds as [|c cmds IH]; intros i t a b; cbn; [done|].
  rewrite (StrCompare_tail c t a b). unfold_st. destruct (StrCompare _ _); [|done].
  case_match; auto.
Qed.

Lemma DecodeCommand_decode t b :
  Forall (fun c => c <> 0) t -> DecodeCommand (t ++ 0 :: b) = Ret (decode t).
Proof.
  intros Ht. unfold decode, DecodeCommand. rewrite (decode_from_tail _ _ _ b []).
  destruct (decode_from_spec _ 0 t [] commands_no_nul Ht) as (v & -> & _). done.
Qed.

(** [ns] are the buffers in ring order from [pRead] on, [q] the lines
    waiting. *)
Record mailbox (s : at_state) (ns : list Z) (q : list (list Z)) : Prop := {
  mb_read : ns !! 0%nat = Some (pRead s);
  mb_write : ns !! (length q mod length ns)%nat = Some (pWrite s);
  mb_nodup : NoDup ns;
  mb_sem : ATsem s = length q;
  mb_fits : (length q <= length ns)%nat;
  mb_buf : length (Buf s) = 100%nat;
  mb_index : index s = 0;
  mb_node : forall k a, ns !! k = Some a -> exists b, bufs s !! a = Some b /\
    length (Str b) = 100%nat /\ ns !! (S k mod length ns)%nat = Some (next b) /\
    match q !! k with
    | Some line => Ready b = 1 /\ exists junk, Str b = line ++ 0 :: junk
    | None => Ready b = 0
    end;
  mb_text : Forall (Forall (fun c => c <> 0)) q
}.

Lemma plain_text l : Forall plain l -> Forall (fun c => c <> 0) (l ++ crlf).
Proof.
  intros Hl. apply Forall_app. split; [|by repeat constructor].
  eapply Forall_impl; [exact Hl|]. intros c (? & _). cbn. lia.
Qed.

Lemma mailbox_line s ns q l :
  mailbox s ns q -> (length q < length ns)%nat ->
  Forall plain l -> Z.of_nat (length l) + 2 < AT_CMD_MAX_LEN ->
  exists s', recv (l ++ crlf) s = Ret (tt, s') /\ mailbox s' ns (q ++ [l ++ crlf]) /\
    state s' = state s /\ connected s' = connected s /\ closing s' = closing s.
Proof.
  intros [Hr Hw Hnd Hsem Hfit Hbuf Hidx Hnode Htext] Hq Hl Hn.
  rewrite Nat.mod_small in Hw by done.
  destruct (Hnode _ _ Hw) as (b & Hb & Hlen & Hnx & Hrd).
  destruct (recv_line l s b Hl Hn Hbuf Hidx Hb Hlen) as (buf & Hbl & ->).
  eexists. split; [done|]. split; [|done].
  assert (Hcr : length (l ++ crlf) = (length l + 2)%nat) by (rewrite length_app; done).
  unfold AT_CMD_MAX_LEN in Hn.
  split; cbn [pRead pWrite ATsem Buf index bufs].
  - done.
  - rewrite length_app. cbn [length]. by rewrite Nat.add_1_r.
  - done.
  - rewrite length_app. cbn. lia.
  - rewrite length_app. cbn. lia.
  - done.
  - done.
  - intros k a Hk. destruct (decide (k = length q)) as [->|Hne].
    + rewrite Hw in Hk. injection Hk as <-. exists (mkBuf (filled (l ++ crlf) (Str b)) 1 (next b)).
      rewrite lookup_insert_eq. split_and!; [done| |done|].
      * unfold filled. cbn [Str]. rewrite length_app. cbn. rewrite length_drop. lia.
      * rewrite list_lookup_middle by done. split; [done|]. by eexists.
    + assert (a <> pWrite s) by (intros ->; apply Hne; eapply NoDup_lookup; eauto).
      destruct (Hnode _ _ Hk) as (b' & Hb' & ? & ? & Hq'). exists b'.
      rewrite lookup_insert_ne by done. split_and!; [done..|].
      destruct (decide (k < length q)%nat).
      * by rewrite lookup_app_l.
      * rewrite lookup_ge_None_2 in Hq' by lia. rewrite lookup_ge_None_2; [done|].
        rewrite length_app. cbn. lia.
  - apply Forall_app. split; [done|]. apply Forall_singleton. by apply plain_text.
Qed.

(** Taking the oldest line frees its buffer. *)
Lemma mailbox_take s ns line q b :
  mailbox s ns (line :: q) -> bufs s !! pRead s = Some b ->
  exists ns', length ns' = length ns /\
    mailbox (with_pRead (with_bufs (with_sem s (length q))
      (<[pRead s := mkBuf (Str b) 0 (next b)]> (bufs s))) (next b)) ns' q.
Proof.
  intros [Hr Hw Hnd Hsem Hfit Hbuf Hidx Hnode Htext] Hb.
  destruct ns as [|a ns]; [done|]. injection Hr as ->. set (a := pRead s) in *.
  destruct (Hnode 0%nat a eq_refl) as (b' & Hb' & Hlen & Hnx & Hrd).
  rewrite Hb in Hb'. injection Hb' as <-. cbn [length] in Hfit, Hnx, Hw.
  exists (ns ++ [a]). assert (Hl' : length (ns ++ [a]) = S (length ns)) by (rewrite length_app; cbn; lia).
  split; [done|]. apply NoDup_cons in Hnd as [Ha Hnd].
  assert (Hrot := rotate1_lookup a ns).
  split; cbn [pRead pWrite ATsem Buf index bufs with_pRead with_bufs with_sem].
  - rewrite Hrot by lia. done.
  - rewrite Hl', Hrot by (apply Nat.mod_upper_bound; lia).
    rewrite <- Hw. f_equal. rewrite <- Nat.add_1_r, Nat.Div0.add_mod_idemp_l. f_equal. lia.
  - apply NoDup_app. split_and!; [done| |apply NoDup_singleton].
    by intros x Hx ->%list_elem_of_singleton.
  - done.
  - rewrite Hl'. lia.
  - done.
  - done.
  - intros k x Hk. assert (Hkl := lookup_lt_Some _ _ _ Hk). rewrite Hl' in *.
    rewrite Hrot in Hk |- * by (done || apply Nat.mod_upper_bound; lia).
    assert (Hmod : (S (S k mod S (length ns)) mod S (length ns) = S (S k) mod S (length ns))%nat).
    { rewrite <- (Nat.add_1_r (_ mod _)), Nat.Div0.add_mod_idemp_l. f_equal. lia. }
    destruct (decide (k = length ns)) as [->|Hne].
    + rewrite Nat.Div0.mod_same in Hk. injection Hk as <-.
      exists (mkBuf (Str b) 0 (next b)). rewrite lookup_insert_eq. cbn [Str Ready next].
      split_and!; [done|done| |].
      * rewrite Nat.Div0.mod_same. exact Hnx.
      * rewrite lookup_ge_None_2; [done|lia].
    + rewrite Nat.mod_small in Hk by lia. cbn in Hk.
      destruct (Hnode (S k) x Hk) as (c & Hc & ? & Hnc & Hrc). exists c.
      rewrite lookup_insert_ne by (intros <-; apply Ha; by eapply list_elem_of_lookup_2).
      split_and!; [done|done| |done]. rewrite Hmod. exact Hnc.
  - by apply Forall_cons in Htext as [_ ?].
Qed.

(** ** Building the ring *)

Definition same_rest (s s' : at_state) : Prop :=
  Buf s' = Buf s /\ index s' = index s /\ ATsem s' = ATsem s /\ state s' = state s /\
  IpSel s' = IpSel s /\ acts s' = acts s /\ connected s' = connected s /\ closing s' = closing s.

(** The buffers [ns] form an open chain that ends at [pWrite]. *)
Record open_chain (s : at_state) (ns : list Z) : Prop := {
  oc_read : ns !! 0%nat = Some (pRead s);
  oc_write : last ns = Some (pWrite s);
  oc_nodup : NoDup ns;
  oc_node : forall k a, ns !! k = Some a -> exists b, bufs s !! a = Some b /\
    length (Str b) = 100%nat /\ Ready b = 0 /\ (forall c, ns !! S k = Some c -> next b = c)
}.

Lemma init_nodes_run ms : forall s ns,
  open_chain s ns -> NoDup (ns ++ ms.*1) ->
  Forall (fun m => m.1 <> 0 /\ length m.2 = 100%nat) ms ->
  exists s', init_nodes false ms s = Ret (tt, s') /\ open_chain s' (ns ++ ms.*1) /\ same_rest s s'.
Proof.
  induction ms as [|[a junk] ms IH]; intros s ns H Hnd Hms; cbn [init_nodes].
  - exists s. cbn in *. rewrite app_nil_r in *. split_and!; done.
  - apply Forall_cons in Hms as [[Ha0 Hj] Hms]. cbn in Ha0, Hj, Hnd.
    destruct H as [Hr Hw Hnd0 Hnode].
    assert (Han : a ∉ ns) by (apply NoDup_app in Hnd as (_ & Hd & _); intros Hin; by apply (Hd a Hin); left).
    assert (Hl := Hw). rewrite last_lookup in Hl.
    destruct (Hnode _ _ Hl) as (b & Hb & Hbl & Hbr & _).
    assert (Hwa : pWrite s <> a) by (intros Heq; apply Han; rewrite <- Heq; by eapply list_elem_of_lookup_2).
    unfold set_node, node. unfold_st. rewrite (proj2 (Z.eqb_neq _ _) Ha0). cbn [bufs pWrite with_bufs with_pWrite].
    rewrite lookup_insert_ne, Hb by done. cbn [bufs pWrite with_bufs with_pWrite].
    rewrite lookup_insert_ne, Hb by done. cbn [bufs pWrite with_bufs with_pWrite].
    rewrite lookup_insert_ne, lookup_insert_eq by done. cbn [bufs pWrite with_bufs with_pWrite].
    rewrite lookup_insert_ne, lookup_insert_eq by done. cbn [bufs pWrite with_bufs with_pWrite Str next].
    match goal with |- context [init_nodes false ms ?x] => set (s1 := x) end.
    destruct (IH s1 (ns ++ [a])) as (s' & Hrun & Hc & Hsr).
    + split.
      * rewrite lookup_app_l by (by eapply lookup_lt_Some). done.
      * by rewrite last_snoc.
      * apply NoDup_app. split_and!; [done| |apply NoDup_singleton].
        by intros x Hx ->%list_elem_of_singleton.
      * intros k x Hk. cbn [bufs s1 with_bufs].
        destruct (decide (x = a)) as [->|Hxa].
        { exists (mkBuf junk 0 0). rewrite lookup_insert_eq. split_and!; [done..|].
          intros c Hc. apply lookup_app_Some in Hk as [Hk|[Hle Hk]]; [by apply list_elem_of_lookup_2 in Hk|].
          apply lookup_lt_Some in Hc. rewrite length_app in Hc. cbn in Hc. lia. }
        apply lookup_app_Some in Hk as [Hk|[_ Hk]].
        2: { destruct (k - length ns)%nat; [injection Hk as <-; done|done]. }
        rewrite lookup_insert_ne by done.
        destruct (decide (x = pWrite s)) as [->|Hxw].
        { rewrite lookup_insert_eq. eexists. split_and!; [done|done|done|]. cbn [next].
          assert (k = pred (length ns)) as -> by (eapply NoDup_lookup; [exact Hnd0|exact Hk|exact Hl]).
          apply lookup_lt_Some in Hl. intros c Hc. rewrite lookup_app_r in Hc by lia.
          replace (S (pred (length ns)) - length ns)%nat with 0%nat in Hc by lia. by injection Hc. }
        rewrite lookup_insert_ne, lookup_insert_ne by congruence.
        destruct (Hnode _ _ Hk) as (d & Hd & ? & ? & Hnx). exists d. split_and!; [done..|].
        intros c Hc. apply Hnx. rewrite lookup_app_l in Hc; [done|].
        assert (Hkl := lookup_lt_Some _ _ _ Hk). destruct (decide (S k = length ns)) as [He|]; [|lia].
        exfalso. apply Hxw. rewrite <- He in Hl. cbn in Hl. rewrite Hl in Hk. by injection Hk.
    + rewrite <- app_assoc. done.
    + done.
    + rewrite <- app_assoc in Hc. by exists s'.
Qed.

(** Buffers as [rt_malloc] returns them: five different ones. *)
Record good_mallocs (ms : list (Z * list Z)) : Prop := {
  gm_num : length ms = 5%nat;
  gm_nodup : NoDup ms.*1;
  gm_ok : Forall (fun m => m.1 <> 0 /\ length m.2 = 100%nat) ms
}.

Lemma ATcmdBuf_init_run ms s :
  good_mallocs ms -> length (Buf s) = 100%nat -> index s = 0 -> ATsem s = 0%nat ->
  exists s', ATcmdBuf_init ms s = Ret (tt, s') /\ mailbox s' ms.*1 [] /\ same_rest s s'.
Proof.
  intros [Hnum Hnd Hok] Hbuf Hidx Hsem. destruct ms as [|[a junk] ms]; [done|].
  apply Forall_cons in Hok as [[Ha0 Hj] Hok]. cbn in Ha0, Hj.
  assert (exists s1, init_nodes true ((a, junk) :: ms) s = init_nodes false ms s1 /\
    open_chain s1 [a] /\ same_rest s s1) as (s1 & Heq & Hoc & Hsr1).
  { eexists. split; [|split].
    - cbn [init_nodes]. unfold set_node, node. unfold_st.
      rewrite (proj2 (Z.eqb_neq _ _) Ha0). cbn [bufs pWrite with_bufs with_pWrite].
      rewrite lookup_insert_eq. cbn [bufs pWrite with_bufs with_pWrite].
      rewrite lookup_insert_eq. reflexivity.
    - split; [done|done|apply NoDup_singleton|].
      intros [|k] x Hk; [|done]. injection Hk as <-. eexists. cbn [bufs with_pRead with_bufs].
      rewrite lookup_insert_eq. split_and!; [done|done|done|done].
    - done. }
  destruct (init_nodes_run ms s1 [a] Hoc Hnd Hok) as (s2 & Hrun & [Hr Hw Hnd2 Hnode] & Hsr2).
  unfold ATcmdBuf_init. rewrite <- Heq in Hrun. rewrite (st_bind_run _ _ _ _ _ Hrun).
  set (ns := [a] ++ ms.*1) in *.
  assert (Hl := Hw). rewrite last_lookup in Hl.
  destruct (Hnode _ _ Hl) as (b & Hb & Hbl & Hbr & _).
  unfold set_node, node. unfold_st. rewrite Hb. rewrite Hb.
  destruct Hsr1 as (? & ? & ? & ? & ? & ? & ? & ?), Hsr2 as (? & ? & ? & ? & ? & ? & ? & ?).
  assert (Hlen : length ns = 5%nat) by (unfold ns; cbn in *; rewrite length_fmap; lia).
  eexists. split; [done|]. split; [|split_and!; cbn; congruence].
  change ((a, junk) :: ms).*1 with ns.
  split; cbn [pRead pWrite ATsem Buf index bufs with_pWrite with_bufs].
  - done.
  - by rewrite Hlen.
  - done.
  - cbn. congruence.
  - rewrite Hlen. cbn. lia.
  - congruence.
  - congruence.
  - intros k x Hk. rewrite Hlen. destruct (decide (x = pWrite s2)) as [->|Hne].
    + assert (k = pred (length ns)) as -> by (eapply NoDup_lookup; [exact Hnd2|exact Hk|exact Hl]).
      rewrite lookup_insert_eq, Hlen. eexists. split_and!; [done|done|exact Hr|done].
    + rewrite lookup_insert_ne by congruence.
      destruct (Hnode _ _ Hk) as (d & Hd & Hdl & Hdr & Hdn). exists d. split_and!; [done|done| |done].
      assert (Hkl := lookup_lt_Some _ _ _ Hk).
      destruct (decide (k = pred (length ns))) as [->|]; [rewrite Hl in Hk; congruence|].
      rewrite Nat.mod_small by lia.
      destruct (ns !! S k) as [c|] eqn:Hc; [by rewrite (Hdn c eq_refl)|].
      apply lookup_ge_None_1 in Hc. lia.
  - done.
Qed.

(** ** The address file and the dialling command *)

(** The file holds an address of at most 15 characters, a colon, a port of at
    most 5 digits and the terminator. *)
Definition addr_file (ip port : list Z) : list Z := ip ++ 58 :: port ++ [0].

Record good_addr (ip port : list Z) : Prop := {
  ga_ip : Forall (fun c => c <> 0 /\ c <> 58) ip;
  ga_port : Forall (fun c => c <> 0) port;
  ga_ip_len : (length ip <= 15)%nat;
  ga_port_len : (length port <= 5)%nat
}.

Definition open_cmd (ip port : list Z) : list Z :=
  str "AT^IPOPEN=1," ++ quoted "TCP" ++ str "," ++ [34] ++ ip ++ [34] ++ str "," ++ port
    ++ str ",8002" ++ crlf.

Lemma find_colon_app ip r : Forall (fun c => c <> 0 /\ c <> 58) ip -> find_colon (ip ++ 58 :: r) = length ip.
Proof.
  induction 1 as [|c ip [_ Hc] _ IH]; [done|]. cbn. by rewrite (proj2 (Z.eqb_neq _ _) Hc), IH.
Qed.

Lemma read_addr_run ip port j20 j8 :
  good_addr ip port -> length j20 = 20%nat -> length j8 = 8%nat ->
  exists a p, readIPAddrFromfile (Some (addr_file ip port)) j20 j8 = Ret (a, p) /\
    ip_open_cmd a p = Ret (open_cmd ip port).
Proof.
  intros [Hip Hport Hi Hp] H20 H8. unfold readIPAddrFromfile, RT_ASSERT, addr_file.
  rewrite !length_app. cbn [length]. rewrite length_app. cbn [length].
  rewrite (proj2 (Z.leb_le _ _)) by lia. unfold_st. rewrite find_colon_app by done.
  rewrite (proj2 (Z.ltb_lt _ _)) by lia. rewrite take_app_length.
  rewrite upd_range_0 by lia. unfold_st.
  rewrite upd_ok by (rewrite length_app, length_drop; lia). unfold_st.
  rewrite <- drop_drop, drop_app_length. cbn [drop]; rewrite drop_0.
  rewrite upd_range_0 by (rewrite length_app; cbn; lia). unfold_st.
  rewrite Nat2Z.id, insert_app_r_alt, Nat.sub_diag by lia.
  destruct (drop (length ip) j20) as [|x r] eqn:Hd.
  { apply (f_equal length) in Hd. rewrite length_drop in Hd. cbn in Hd. lia. }
  eexists _, _. split; [done|]. unfold ip_open_cmd. cbn [list_insert insert].
  rewrite cstr_app by (eapply Forall_impl; [exact Hip|]; naive_solver).
  rewrite <- app_assoc. cbn [app]. rewrite cstr_app by done. unfold_st.
  change (str "AT^IPOPEN=1," ++ _) with (open_cmd ip port).
  rewrite (proj2 (Z.ltb_lt _ _)); [done|].
  unfold open_cmd. rewrite !length_app. unfold str, quoted. cbn. lia.
Qed.

Lemma TCP_Dial_run ip1 ip2 j20 j8 s i1 p1 i2 p2 :
  good_addr i1 p1 -> good_addr i2 p2 -> length j20 = 20%nat -> length j8 = 8%nat ->
  ip1 = Some (addr_file i1 p1) -> ip2 = Some (addr_file i2 p2) ->
  TCP_Dial ip1 ip2 j20 j8 s = Ret (tt, with_state (with_acts s (acts s ++
    [Write (if IpSel s =? 0 then open_cmd i1 p1 else open_cmd i2 p2)])) 6).
Proof.
  intros Hg1 Hg2 H20 H8 -> ->. unfold TCP_Dial, emit, goto_state. unfold_st.
  destruct (IpSel s =? 0).
  - destruct (read_addr_run _ _ _ _ Hg1 H20 H8) as (a & p & -> & Hc). cbn [fst snd]. by rewrite Hc.
  - destruct (read_addr_run _ _ _ _ Hg2 H20 H8) as (a & p & -> & Hc). cbn [fst snd]. by rewrite Hc.
Qed.

(** ** The state machine *)

(** The state and whether the connection's event is set, after the message of
    value [v]; none when the thread waits for the event. *)
Definition dial (v : Z) (x : Z * bool) : option (Z * bool) :=
  let '(st, c) := x in
  if v =? 0 then
    Some (if st =? 1 then (2, c) else if st =? 2 then (3, c) else if st =? 3 then (4, c)
          else if st =? 5 then (6, c) else if st =? 6 then (7, c) else if st =? 7 then (8, c)
          else if st =? 8 then (9, true) else (st, c))
  else if v =? 10 then Some (1, c)
  else if v =? 1 then Some (if st =? 6 then (0, c) else (st, c))
  else if v =? 21 then (if c then Some (0, false) else None)
  else if v =? 23 then Some (6, c)
  else Some (st, c).

Section machine.
Context (sms : list Z) (i1 p1 i2 p2 : list Z) (j20 j8 : list Z).
Context (Hg1 : good_addr i1 p1) (Hg2 : good_addr i2 p2).
Context (H20 : length j20 = 20%nat) (H8 : length j8 = 8%nat).

Let ip1 := Some (addr_file i1 p1).
Let ip2 := Some (addr_file i2 p2).

(** The [switch] never faults, takes the step [dial] of the state and the event, and
    otherwise touches only the address in use and what it sends. *)
Lemma at_switch_run v s : closing s = false -> exists ips a,
  at_switch sms ip1 ip2 j20 j8 v s = Ret (tt,
    match dial v (state s, connected s) with
    | Some (st, c) => mkAt (bufs s) (pWrite s) (pRead s) (Buf s) (index s) (ATsem s) st ips a c false
    | None => mkAt (bufs s) (pWrite s) (pRead s) (Buf s) (index s) (ATsem s) (state s) ips a false true
    end).
Proof.
  assert (HT := fun s => TCP_Dial_run ip1 ip2 j20 j8 s i1 p1 i2 p2 Hg1 Hg2 H20 H8 eq_refl eq_refl).
  unfold at_switch, dial, on_OK, on_ERROR, on_remote_close, close_connection, debug_in, emit, goto_state. unfold_st.
  intros Hcl. destruct s as [bf pw pr Bf ix sm st ip ac cn cl]; cbn -[str] in Hcl |- *; subst cl.
  destruct (v =? 0); cbn -[str].
  { destruct (Z.eqb_spec st 4) as [->|E4]; [by eexists _, _|].
    do 3 (case_match; [by eexists _, _|]). case_match; [rewrite HT; by eexists _, _|].
    do 3 (case_match; [by eexists _, _|]). by eexists _, _. }
  destruct (v =? 10); cbn -[str]; [by eexists _, _|].
  destruct (v =? 1); cbn -[str]; 
    [destruct (Z.eqb_spec st 1) as [->|E1]; [by eexists _, _|]; destruct (st =? 6); by eexists _, _|].
  destruct (v =? 21); cbn -[str]; [destruct cn; by eexists _, _|].
  destruct (v =? 23); [rewrite HT; by eexists _, _|by eexists _, _].
Qed.

(** The values decoded from a series of messages, through the [switch]. *)
Fixpoint feed (vs : list Z) : ST at_state unit :=
  match vs with [] => mret tt | v :: vs => _ ← at_switch sms ip1 ip2 j20 j8 v; feed vs end.

(** ** Schedules of receptions and iterations of the thread *)

Inductive ev := Line (l : list Z) | Iter.

Fixpoint at_run (evs : list ev) : ST at_state (list Z) :=
  match evs with
  | [] => mret []
  | Line l :: evs => _ ← recv (l ++ crlf); at_run evs
  | Iter :: evs => o ← at_iter sms ip1 ip2 j20 j8; vs ← at_run evs; mret (option_list o ++ vs)
  end.

(** What one iteration makes of the waiting lines [q], when the thread is in state
    and event [x], or waits for the event, which never comes: the value it
    decodes, the lines left, and where it is then. *)
Definition serve (q : list (list Z)) (x : option (Z * bool)) : option Z * list (list Z) * option (Z * bool) :=
  match x, q with
  | Some y, line :: q => (Some (decode line), q, dial (decode line) y)
  | _, _ => (None, q, x)
  end.

(** Lines are plain and short, and at most five are ever waiting. *)
Fixpoint sched_ok (q : list (list Z)) (x : option (Z * bool)) (evs : list ev) : Prop :=
  match evs with
  | [] => True
  | Line l :: evs => Forall plain l /\ (length l <= 97)%nat /\ (length q < 5)%nat /\ sched_ok (q ++ [l ++ crlf]) x evs
  | Iter :: evs => let '(_, q, x) := serve q x in sched_ok q x evs
  end.

(** What the thread should make of them: the lines decoded in order, up to the
    first remote close while there is no connection. *)
Fixpoint served (q : list (list Z)) (x : option (Z * bool)) (evs : list ev) : list Z :=
  match evs with
  | [] => []
  | Line l :: evs => served (q ++ [l ++ crlf]) x evs
  | Iter :: evs => let '(v, q, x) := serve q x in option_list v ++ served q x evs
  end.

(** Where the thread is. *)
Definition tracks (x : option (Z * bool)) (s : at_state) : Prop :=
  match x with
  | Some (st, c) => state s = st /\ connected s = c /\ closing s = false
  | None => connected s = false /\ closing s = true
  end.

Lemma mailbox_iter s ns q x : mailbox s ns q -> tracks x s ->
  exists s' ns', length ns' = length ns /\ mailbox s' ns' (serve q x).1.2 /\ tracks (serve q x).2 s' /\
    at_iter sms ip1 ip2 j20 j8 s = Ret ((serve q x).1.1, s').
Proof.
  intros H Hx. unfold at_iter. unfold_st. destruct x as [[st c]|]; destruct Hx as (Hst & Hc & Hcl) || destruct Hx as (Hc & Hcl).
  2: { rewrite Hcl, Hc. exists s, ns. cbn. by split_and!. }
  rewrite Hcl, (mb_sem _ _ _ H).
  destruct q as [|line q]; cbn [length serve fst snd].
  - exists s, ns. split_and!; done.
  - destruct (mb_node _ _ _ H 0%nat _ (mb_read _ _ _ H)) as (b & Hb & Hlen & Hnx & Hrd & junk & HStr).
    unfold set_node, node. unfold_st. cbn [bufs with_sem pRead]. rewrite Hb. rewrite Hrd.
    cbn [Z.eqb]. rewrite HStr.
    rewrite DecodeCommand_decode by (by eapply (Forall_inv (mb_text _ _ _ H))). unfold_st.
    cbn [bufs with_sem pRead]. rewrite Hb. rewrite <- HStr.
    destruct (mailbox_take _ _ _ _ _ H Hb) as (ns' & Hl & H').
    match goal with |- context [at_switch _ _ _ _ _ ?v ?x] =>
      destruct (at_switch_run v x Hcl) as (ips & a & ->) end.
    cbn [state connected with_pRead with_bufs with_sem]. rewrite Hst, Hc.
    destruct (dial (decode line) (st, c)) as [[st' c']|]; eexists _, ns';
      (split; [done|split; [|split; [|reflexivity]]]); [by destruct H'; split|done|by destruct H'; split|done].
Qed.

Lemma at_run_served evs : forall s ns q x,
  mailbox s ns q -> tracks x s -> length ns = 5%nat -> sched_ok q x evs ->
  exists s', at_run evs s = Ret (served q x evs, s').
Proof.
  induction evs as [|[l|] evs IH]; intros s ns q x H Hx Hns Hok; cbn in *.
  - by exists s.
  - destruct Hok as (Hl & Hlen & Hq & Hok).
    destruct (mailbox_line s ns q l H) as (s1 & Hrun & H1 & Hs1 & Hc1 & Hcl1); [lia|done|unfold AT_CMD_MAX_LEN; lia|].
    rewrite (st_bind_run _ _ _ _ _ Hrun). eapply IH; [done| |done|done].
    unfold tracks in *. by rewrite Hs1, Hc1, Hcl1.
  - destruct (mailbox_iter s ns q x H Hx) as (s1 & ns1 & Hns1 & H1 & Hx1 & Hrun).
    rewrite (st_bind_run _ _ _ _ _ Hrun). destruct (serve q x) as [[v q'] x']. cbn [fst snd] in *.
    destruct (IH s1 ns1 q' x' H1 Hx1) as (s' & Hrun'); [congruence|done|].
    rewrite (st_bind_run _ _ _ _ _ Hrun'). by exists s'.
Qed.

(** The thread waits for ever once it has decoded a remote close without a
    connection. *)
Lemma served_closing q evs : served q None evs = [].
Proof. revert q. induction evs as [|[l|] evs IH]; intros q; cbn; auto. Qed.
End machine.

(** ** Properties *)

(** C4: started with five distinct buffers, no connection and two well-formed
    address files, the receiver and the thread form a mailbox: for every
    interleaving of received lines (at most 97 plain bytes each, never more than
    five waiting) with iterations of the thread, no access is out of bounds and the
    thread handles the lines one by one in the order of reception, each decoded as
    [DecodeCommand] decodes its text, up to the first remote close that comes while
    the connection's event is not set, as the dialling machine [dial] says; from
    then on it waits for the event and handles none. *)
Theorem at_lines_in_order sms i1 p1 i2 p2 j20 j8 ms s evs :
  good_addr i1 p1 -> good_addr i2 p2 -> length j20 = 20%nat -> length j8 = 8%nat ->
  good_mallocs ms -> length (Buf s) = 100%nat -> index s = 0 -> connected s = false -> closing s = false ->
  sched_ok [] (Some (state s, false)) evs ->
  exists s1 s2, AT_thread_start false ms (with_sem s 0) = Ret (tt, s1) /\
    at_run sms i1 p1 i2 p2 j20 j8 evs s1 = Ret (served [] (Some (state s, false)) evs, s2).
Proof.
  intros Hg1 Hg2 H20 H8 Hms Hbuf Hidx Hcn Hcl Hok.
  destruct (ATcmdBuf_init_run ms (with_sem s 0) Hms Hbuf Hidx eq_refl) as (s1 & Hinit & Hmb & Hsr).
  assert (Hlen : length ms.*1 = 5%nat) by (rewrite length_fmap; apply Hms).
  assert (Hmb' : mailbox (with_sem s1 0) ms.*1 []) by (destruct Hmb; by split).
  assert (Hx : tracks (Some (state s, false)) (with_sem s1 0)).
  { destruct Hsr as (_ & _ & _ & Hst & _ & _ & Hc & Hw). cbn in *. split_and!; congruence. }
  destruct (at_run_served sms i1 p1 i2 p2 j20 j8 Hg1 Hg2 H20 H8 evs _ _ _ _ Hmb' Hx Hlen Hok) as (s2 & Hrun).
  exists (with_sem s1 0), s2. split; [|done].
  unfold AT_thread_start. by rewrite (st_bind_run _ _ _ _ _ Hinit).
Qed.

(** [DecodeCommand] returns the index of the first of the 24 commands
    that is a prefix of the line or has the line as a prefix, 0xFF when there
    is none; and each of the 24 commands followed by anything is recognised as
    itself, so no entry shadows another. *)
Theorem at_decode_spec t rest :
  Forall (fun c => c <> 0) t ->
  (exists v, DecodeCommand (t ++ 0 :: rest) = Ret v /\
    ((v = 0xff /\ forall c, c ∈ AT_Command_list -> ~ related c t) \/
     (exists k c, v = Z.of_nat k /\ AT_Command_list !! k = Some c /\ related c t /\
        forall j c', (j < k)%nat -> AT_Command_list !! j = Some c' -> ~ related c' t))) /\
  (forall k c x, AT_Command_list !! k = Some c -> DecodeCommand (c ++ x :: rest) = Ret (Z.of_nat k)).
Proof.
  intros Ht. split; [exact (decode_from_spec _ 0 t rest commands_no_nul Ht)|].
  intros k c x Hk. do 24 (destruct k as [|k]; [injection Hk as <-; reflexivity|]). done.
Qed.

(** One message of the dialling sequence: what is sent, and the next state. *)
Definition sends (s : at_state) (a : list act) (st : Z) : at_state := with_state (with_acts s (acts s ++ a)) st.

Lemma sends_sends s a st b st' : sends (sends s a st) b st' = sends s (a ++ b) st'.
Proof. unfold sends, with_acts, with_state. cbn [acts]. by rewrite <- app_assoc. Qed.

Section dialling.
Variables (sms : list Z) (ip1 ip2 : option (list Z)) (j20 j8 : list Z).
Abbreviation switch := (at_switch sms ip1 ip2 j20 j8).

Lemma on_MODE2 s : switch 10 s = Ret (tt, sends s [Write cmd_ipinit] 1).
Proof. reflexivity. Qed.

Lemma on_OK_1 s a : switch 0 (sends s a 1) = Ret (tt, sends (sends s a 1) [Write (str "AT^IPINIT?" ++ crlf)] 2).
Proof. reflexivity. Qed.

Lemma on_OK_2 s a : switch 0 (sends s a 2) = Ret (tt, sends (sends s a 2) [Write (str "AT^HSMSSS=0,0,6,0" ++ crlf)] 3).
Proof. reflexivity. Qed.

Lemma on_OK_3 s a : switch 0 (sends s a 3) = Ret (tt, sends (sends (sends (sends (sends s a 3)
  [Write (str "AT^HCMGS=" ++ quoted "15668061345" ++ crlf)] 3) [Delay] 3) [Write (take SMS_LEN sms)] 3) [Write SMSEnd] 4).
Proof. reflexivity. Qed.

Lemma on_OK_6 s a : switch 0 (sends s a 6) = Ret (tt, sends (sends s a 6) [Write (str "AT^IPDATMODE=1" ++ crlf)] 7).
Proof. reflexivity. Qed.

Lemma on_OK_7 s a : switch 0 (sends s a 7) = Ret (tt, sends (sends s a 7) [Write (str "AT^IPENTRANS=1" ++ crlf)] 8).
Proof. reflexivity. Qed.

Lemma on_OK_8 s a : switch 0 (sends s a 8) =
  Ret (tt, with_event (sends (sends (sends s a 8) [NetState MC323A_NET_ENABLE] 8) [SendConnected] 9) true (closing s)).
Proof. reflexivity. Qed.
End dialling.

(** the dialling sequence: from any state, [^MODE:2] followed by three OK,
    [^HCMGSS:] and three OK brings the thread to the connected state 9, having
    sent the commands below in this order (the server address taken from the
    file that [IpSel] selects) and enabled the network once, at the end. *)
Theorem at_dial sms i1 p1 i2 p2 j20 j8 s :
  good_addr i1 p1 -> good_addr i2 p2 -> length j20 = 20%nat -> length j8 = 8%nat ->
  feed sms i1 p1 i2 p2 j20 j8 [10; 0; 0; 0; 23; 0; 0; 0] s = Ret (tt,
    with_event (sends s
      [ Write cmd_ipinit; Write (str "AT^IPINIT?" ++ crlf); Write (str "AT^HSMSSS=0,0,6,0" ++ crlf);
        Write (str "AT^HCMGS=" ++ quoted "15668061345" ++ crlf); Delay; Write (take SMS_LEN sms);
        Write SMSEnd; Delay; Write (if IpSel s =? 0 then open_cmd i1 p1 else open_cmd i2 p2);
        Write (str "AT^IPDATMODE=1" ++ crlf); Write (str "AT^IPENTRANS=1" ++ crlf);
        NetState MC323A_NET_ENABLE; SendConnected ] 9) true (closing s)).
Proof.
  intros Hg1 Hg2 H20 H8. cbn [feed].
  assert (HT : forall a, at_switch sms (Some (addr_file i1 p1)) (Some (addr_file i2 p2)) j20 j8 23 (sends s a 4) = Ret (tt,
    sends (sends (sends s a 4) [Delay] 4) [Write (if IpSel s =? 0 then open_cmd i1 p1 else open_cmd i2 p2)] 6)).
  { intros a. exact (TCP_Dial_run _ _ j20 j8 (sends (sends s a 4) [Delay] 4) i1 p1 i2 p2 Hg1 Hg2 H20 H8 eq_refl eq_refl). }
  rewrite (st_bind_run _ _ _ _ _ (on_MODE2 _ _ _ _ _ _)).
  rewrite (st_bind_run _ _ _ _ _ (on_OK_1 _ _ _ _ _ _ _)), sends_sends.
  rewrite (st_bind_run _ _ _ _ _ (on_OK_2 _ _ _ _ _ _ _)), sends_sends.
  rewrite (st_bind_run _ _ _ _ _ (on_OK_3 _ _ _ _ _ _ _)), !sends_sends.
  rewrite (st_bind_run _ _ _ _ _ (HT _)), !sends_sends.
  rewrite (st_bind_run _ _ _ _ _ (on_OK_6 _ _ _ _ _ _ _)), !sends_sends.
  rewrite (st_bind_run _ _ _ _ _ (on_OK_7 _ _ _ _ _ _ _)), !sends_sends.
  rewrite (st_bind_run _ _ _ _ _ (on_OK_8 _ _ _ _ _ _ _)), !sends_sends.
  rewrite <- !app_assoc. reflexivity.
Qed.

(** State 4 is a trap: the statement [state==5;] that should leave it has
    no effect, so however many OK (or any other message than [^MODE:2],
    [^IPSTATE: remote close] and [^HCMGSS:]) arrive, the thread stays in state
    4 and sends nothing. *)
Lemma at_state4_trap sms i1 p1 i2 p2 j20 j8 s vs :
  state s = 4 -> Forall (fun v => v <> 10 /\ v <> 21 /\ v <> 23) vs ->
  feed sms i1 p1 i2 p2 j20 j8 vs s = Ret (tt, s).
Proof.
  intros Hs Hvs. induction Hvs as [|v vs (H10 & H21 & H23) _ IH]; [done|]. cbn [feed].
  enough (at_switch sms (Some (addr_file i1 p1)) (Some (addr_file i2 p2)) j20 j8 v s = Ret (tt, s))
    as Hst by (rewrite (st_bind_run _ _ _ _ _ Hst); exact IH).
  unfold at_switch, on_OK, on_ERROR. unfold_st.
  rewrite (proj2 (Z.eqb_neq v 10)), (proj2 (Z.eqb_neq v 21)), (proj2 (Z.eqb_neq v 23)) by done.
  destruct (v =? 0); [by rewrite Hs|]. destruct (v =? 1); [by rewrite Hs|]. done.
Qed.

Definition ms0 : list (Z * list Z) :=
  (fun a => (a, replicate 100 7)) <$> [1000; 2000; 3000; 4000; 5000].
Definition s0 : at_state := mkAt ∅ 0 0 (replicate 100 0) 0 0 0 0 [] false false.
Definition s_run : res at_state := fmap snd (AT_thread_start false ms0 s0).

(** A line of 100 bytes (terminator included) makes the copy write its
    NUL past [Str], and a LF as the first byte of a line makes the receiver
    read [Buf[-1]]. *)
Lemma at_line_overflow :
  (s ← s_run; recv (replicate 98 65 ++ crlf) s) = Err OutOfBounds /\
  (s ← s_run; recv [10] s) = Err OutOfBounds /\
  (exists s', (s ← s_run; recv (replicate 97 65 ++ crlf) s) = Ret (tt, s')).
Proof. vm_compute. split_and!; [reflexivity|reflexivity|by eexists]. Qed.

(** ** Witnesses *)

Lemma ms0_good : good_mallocs ms0.
Proof.
  split; [reflexivity|by apply (bool_decide_unpack _); vm_compute|].
  by apply (bool_decide_unpack _); vm_compute.
Qed.

Lemma addr_good : good_addr (str "113.121.41.141") (str "6000").
Proof. split; try (by apply (bool_decide_unpack _); vm_compute); cbn; lia. Qed.

(** The last line is not served: the remote close before it finds no connection. *)
Definition evs0 : list ev :=
  [Line (str "^MODE:2"); Line (str "OK"); Iter; Iter; Iter; Line (str "hello"); Iter;
   Line (str "^IPSTATE: 1,0,remote close"); Line (str "OK"); Iter; Iter].

Lemma at_lines_witness : exists s1 s2, AT_thread_start false ms0 s0 = Ret (tt, s1) /\
  at_run [] (str "113.121.41.141") (str "6000") (str "113.121.41.141") (str "6000")
    (replicate 20 0) (replicate 8 0) evs0 s1
  = Ret ([10; 0; 0xff; 21], s2).
Proof.
  refine (at_lines_in_order [] _ _ _ _ (replicate 20 0) (replicate 8 0) ms0 s0 evs0
    addr_good addr_good eq_refl eq_refl ms0_good eq_refl eq_refl eq_refl eq_refl _).
  unfold evs0. cbn -[decode plain str]. split_and!; try (by apply (bool_decide_unpack _); vm_compute); try (cbn; lia).
  all: change (Some (state s0, false)) with (Some (0, false)).
  all: idtac.
Defined.

Lemma at_decode_witness :
  DecodeCommand (str "^HCMGSS:" ++ [48; 13; 10; 0]) = Ret 23.
Proof.
  exact (proj2 (at_decode_spec [] [13; 10; 0] ltac:(apply Forall_nil; exact I)) 23%nat _ 48 eq_refl).
Defined.

Lemma at_dial_witness : exists s',
  feed [] (str "113.121.41.141") (str "6000") (str "113.121.41.141") (str "6000")
    (replicate 20 0) (replicate 8 0) [10; 0; 0; 0; 23; 0; 0; 0] s0 = Ret (tt, s') /\ state s' = 9.
Proof.
  eexists. split; [apply at_dial; [exact addr_good|exact addr_good|reflexivity|reflexivity]|reflexivity].
Defined.

Lemma at_state4_witness :
  feed [] [] [] [] [] [] [] [0; 0; 1; 0] (with_state s0 4) = Ret (tt, with_state s0 4).
Proof.
  apply at_state4_trap; [reflexivity|]. by apply (bool_decide_unpack _); vm_compute.
Defined.
