(* ===== verification/Screens.v ===== *)
(** * The advertising screen and the LCD screen

    [src/MySouce/PCP/AdscreenAPP.c], [LCDAPP.c], [PCP.h]: the receivers that cut
    the peripheral's byte stream into frames at the flag byte 0x7E, and the two
    threads that show texts on the screens.  [Module Scan] is the receivers'
    common body, [Module Ads] and [Module Lcd] are the two components. *)

From S2P Require Import Prelude.

Open Scope Z_scope.

(** ** [PCP.h] *)

Definition dType_infoTerminal : Z := 0x01.
Definition dCmd_PowerOn : Z := 0x01.
Definition dCmd_Version : Z := 0x04.
Definition dPCPuserDataSize : Z := 0xff.

(** [PCPsrtuctTypedef]; the checksum is filled in by the package layer. *)
Record PCPsrtuctTypedef := mkPCP {
  Version : Z; Company : Z; Type_ : Z; CMD : Z; userData : list Z; psize : Z
}.

(** [userData] overwritten from its start, and [size = n]. *)
Definition set_data (p : PCPsrtuctTypedef) (data : list Z) (n : Z) : res PCPsrtuctTypedef :=
  d ← upd_range (userData p) 0 data;
  mret (mkPCP (Version p) (Company p) (Type_ p) (CMD p) d n).

Definition set_cmd (p : PCPsrtuctTypedef) (c n : Z) : PCPsrtuctTypedef :=
  mkPCP (Version p) (Company p) (Type_ p) c (userData p) n.

(** The bytes of the message a structure describes. *)
Definition pcp_text (p : PCPsrtuctTypedef) : list Z := take (Z.to_nat (psize p)) (userData p).

Module Scan.

Record scan := mkScan { SaveBuf : list Z; couter : Z }.

(** The common body of [ADS_input] and [LCD_input]: the length of a completed
    frame, or [None]. *)
Definition step (size : Z) (s : scan) : res (option Z * scan) :=
  let InData := u8 size in
  buf ← upd (SaveBuf s) (couter s) InData;
  if (couter s =? 0) && negb (InData =? 0x7e) then mret (None, mkScan buf (couter s))
  else if negb (couter s =? 0) && (InData =? 0x7e) then
    if couter s =? 1 then mret (None, mkScan buf (couter s))
    else mret (Some (u16 (couter s + 1)), mkScan buf 0)
  else mret (None, mkScan buf (u16 (couter s + 1))).

(** A run over a stream of bytes: each completed frame with its length. *)
Fixpoint steps (bs : list Z) (s : scan) : res (list (list Z) * scan) :=
  match bs with
  | [] => mret ([], s)
  | b :: bs =>
      x ← step b s;
      y ← steps bs x.2;
      mret (match x.1 with
            | Some n => take (Z.to_nat n) (SaveBuf x.2) :: y.1
            | None => y.1
            end, y.2)
  end.

(** The body of a frame: bytes without the flag. *)
Definition body (l : list Z) : Prop := l <> [] /\ Forall (fun b => 0 <= b < 256 /\ b <> 0x7e) l.

Definition frame (l : list Z) : list Z := [0x7e] ++ l ++ [0x7e].

(** *** The reference: a stream of bytes between flags *)

Definition FLAG : Z := 0x7e.

(** The stretches of the stream between the flags, empty ones included. *)
Fixpoint split (bs : list Z) : list (list Z) :=
  match bs with
  | [] => [[]]
  | b :: bs =>
      if b =? FLAG then [] :: split bs
      else match split bs with [] => [[b]] | c :: cs => (b :: c) :: cs end
  end.

(** A flag opens a frame when none is open.  The next flag closes it, unless nothing
    came between the two: then it opens the frame again.  The result is the bodies of
    the closed frames, and what has come of the open one. *)
Fixpoint deframe (opened : bool) (cs : list (list Z)) : list (list Z) * option (list Z) :=
  match cs with
  | [] => ([], None)
  | [c] => ([], if opened then Some c else None)
  | c :: cs =>
      if opened && negb (bool_decide (c = [])) then
        let x := deframe false cs in (c :: x.1, x.2)
      else deframe true cs
  end.

Definition frames (bs : list Z) : list (list Z) * option (list Z) := deframe false (split bs).

(** The frames fit a buffer of [n] bytes, with their flags. *)
Definition fits (n : nat) (x : list (list Z) * option (list Z)) : Prop :=
  Forall (fun l => length l + 2 <= n)%nat x.1 /\ from_option (fun l => length l + 1 <= n)%nat True x.2.

#[global] Instance fits_dec n x : Decision (fits n x).
Proof. destruct x as [fs []]; unfold fits; cbn; apply _. Defined.

(** One more byte. *)
Definition feed (x : list (list Z) * option (list Z)) (b : Z) : list (list Z) * option (list Z) :=
  match x.2 with
  | None => (x.1, if b =? FLAG then Some [] else None)
  | Some l =>
      if b =? FLAG then if decide (l = []) then (x.1, Some []) else (x.1 ++ [l], None)
      else (x.1, Some (l ++ [b]))
  end.

Lemma split_snoc bs b : exists cs c, split bs = cs ++ [c] /\
  split (bs ++ [b]) = if b =? FLAG then cs ++ [c; []] else cs ++ [c ++ [b]].
Proof.
  induction bs as [|x bs (cs & c & E & IH)]; cbn [app split].
  - exists [], []. split; [done|]. by destruct (b =? FLAG).
  - rewrite E, IH. destruct (x =? FLAG).
    + exists ([] :: cs), c. split; [done|]. by destruct (b =? FLAG).
    + destruct cs as [|d cs].
      * exists [], (x :: c). split; [done|]. by destruct (b =? FLAG).
      * exists ((x :: d) :: cs), c. split; [done|]. by destruct (b =? FLAG).
Qed.

Lemma deframe_last cs : forall opened, exists fs o, forall c,
  deframe opened (cs ++ [c]) = (fs, if o : bool then Some c else None) /\
  forall d, deframe opened (cs ++ [c; d]) =
    if o && negb (bool_decide (c = [])) then (fs ++ [c], None) else (fs, Some d).
Proof.
  induction cs as [|a cs IH]; intros opened.
  - exists [], opened. intros c. split; [done|]. intros d. cbn. by destruct (opened && _).
  - assert (Hd : forall cs', cs' <> [] -> deframe opened (a :: cs') =
      if opened && negb (bool_decide (a = [])) then let x := deframe false cs' in (a :: x.1, x.2)
      else deframe true cs') by by intros [].
    cbn [app]. destruct (opened && negb (bool_decide (a = []))).
    + destruct (IH false) as (fs & o & H). exists (a :: fs), o. intros c. destruct (H c) as [H1 H2].
      split; [|intros d]; rewrite Hd by (by destruct cs); [by rewrite H1|]. rewrite H2. by destruct (o && _).
    + destruct (IH true) as (fs & o & H). exists fs, o. intros c. destruct (H c) as [H1 H2].
      split; [|intros d]; rewrite Hd by (by destruct cs); [by rewrite H1|]. by rewrite H2.
Qed.

Lemma frames_snoc bs b : frames (bs ++ [b]) = feed (frames bs) b.
Proof.
  unfold frames. destruct (split_snoc bs b) as (cs & c & -> & ->).
  destruct (deframe_last cs false) as (fs & o & H). destruct (H c) as [-> H2]. unfold feed. cbn [fst snd].
  destruct (b =? FLAG).
  - rewrite H2. destruct o; [|done]. cbn [andb]. by repeat case_decide; case_bool_decide.
  - destruct (H (c ++ [b])) as [-> _]. by destruct o.
Qed.

Lemma frames_app bs bs' : frames (bs ++ bs') = foldl feed (frames bs) bs'.
Proof.
  revert bs. induction bs' as [|b bs' IH]; intros bs; [by rewrite app_nil_r|].
  cbn [foldl]. by rewrite <- frames_snoc, <- IH, <- app_assoc.
Qed.

(** A frame that does not fit stays. *)
Lemma fits_feed n x b : fits n (feed x b) -> fits n x.
Proof.
  destruct x as [fs [l|]]; unfold fits, feed; cbn [fst snd from_option]; [|by destruct (b =? FLAG); intros []].
  destruct (b =? FLAG); [case_decide; cbn [fst snd]|].
  - subst. by cbn.
  - intros [[? Hl]%Forall_app _]. apply Forall_cons in Hl as [Hl _]. split; [done|lia].
  - cbn [fst snd from_option]. rewrite length_app. cbn. intros []. split; [done|lia].
Qed.

Lemma fits_feeds n bs x : fits n (foldl feed x bs) -> fits n x.
Proof. revert x. induction bs as [|b bs IH]; intros x H; [done|]. by apply (fits_feed _ _ b), IH. Qed.

(** The scanner holds what has come of the open frame. *)
Record holds (n : nat) (o : option (list Z)) (s : scan) : Prop := {
  h_len : length (SaveBuf s) = n;
  h_open : match o with
           | None => couter s = 0
           | Some l => couter s = Z.of_nat (length l + 1) /\ take (length l + 1) (SaveBuf s) = FLAG :: l
           end
}.

Lemma feed_new fs o b : feed (fs, o) b = (fs ++ (feed ([], o) b).1, (feed ([], o) b).2).
Proof. unfold feed. cbn [fst snd]. repeat case_match; cbn [fst snd app]; by rewrite ?app_nil_r. Qed.

Lemma write_at (pre buf : list Z) b : take (length pre) buf = pre -> (length pre < length buf)%nat ->
  take (length pre + 1) (<[length pre := b]> buf) = pre ++ [b].
Proof.
  intros Ht Hl. rewrite Nat.add_1_r, (take_S_r _ _ b) by (by apply list_lookup_insert_eq).
  by rewrite take_insert_ge, Ht by lia.
Qed.

Lemma step_ok n o s b : (2 <= n)%nat -> Z.of_nat n < 65536 -> byte b -> holds n o s ->
  from_option (fun l => length l + 2 <= n)%nat True o ->
  exists r s', step b s = Ret (r, s') /\ holds n (feed ([], o) b).2 s' /\
    match (feed ([], o) b).1 with
    | [] => r = None
    | l :: _ => r = Some (Z.of_nat (length (frame l))) /\ take (length (frame l)) (SaveBuf s') = frame l
    end.
Proof.
  intros Hn Hmax Hb [Hl Ho] Hr. unfold step, feed. rewrite (wrap_id 8 b) by (unfold byte in Hb; cbn; lia).
  change 0x7e with FLAG. cbn [fst snd]. destruct o as [l|].
  - destruct Ho as [Hc Ht]. cbn [from_option] in Hr. rewrite Hc, upd_ok by lia. rewrite Nat2Z.id. unfold_st.
    rewrite (proj2 (Z.eqb_neq _ 0)) by lia. cbn [negb andb].
    assert (Hw := write_at (FLAG :: l) (SaveBuf s) b). cbn [length] in Hw. rewrite <- Nat.add_1_r in Hw.
    specialize (Hw Ht ltac:(lia)). destruct (Z.eqb_spec b FLAG) as [->|Hne].
    + destruct (decide (l = [])) as [->|Hne].
      * cbn. eexists _, _. split; [done|]. split; [|done]. split; cbn; [by rewrite length_insert|].
        split; [done|]. by rewrite take_insert_ge by (cbn; lia).
      * rewrite (proj2 (Z.eqb_neq _ 1)) by (destruct l; [done|cbn; lia]). cbn [fst snd].
        eexists _, _. split; [reflexivity|]. rewrite wrap_id by (cbn; lia). unfold frame.
        split; [split; cbn; [by rewrite length_insert|done]|]. cbn [app length SaveBuf]. rewrite length_app. cbn [length].
        split; [f_equal; lia|]. rewrite Nat.add_1_r in Hw. cbn [Nat.add] in *. rewrite Hw. done.
    + cbn [fst snd]. eexists _, _. split; [reflexivity|]. split; [|done]. rewrite wrap_id by (cbn; lia).
      split; cbn [SaveBuf couter]; [by rewrite length_insert|]. rewrite length_app. cbn [length].
      split; [lia|]. rewrite Hw. done.
  - rewrite Ho, upd_ok by lia. unfold_st. destruct (Z.eqb_spec b FLAG) as [->|Hne]; cbn [negb andb Z.eqb fst snd].
    + eexists _, _. split; [reflexivity|]. split; [|done]. split; cbn; [by rewrite length_insert|].
      split; [done|]. destruct (SaveBuf s); [cbn in Hl; lia|done].
    + eexists _, _. split; [reflexivity|]. split; [|done]. split; cbn; [by rewrite length_insert|done].
Qed.

Lemma step_full n l s b : holds n (Some l) s -> (n <= length l + 1)%nat -> step b s = Err OutOfBounds.
Proof.
  intros [Hl [Hc _]] Hn. unfold step, upd. rewrite Hc, decide_False by lia. done.
Qed.

Lemma full_feed n fs l b : (2 <= n)%nat -> (n <= length l + 1)%nat -> ~ fits n (feed (fs, Some l) b).
Proof.
  intros Hn Hl. unfold fits, feed. cbn [fst snd]. repeat case_match; cbn [fst snd from_option].
  - subst. cbn in Hl. lia.
  - intros [[_ Hq]%Forall_app _]. apply Forall_cons in Hq as [Hq _]. lia.
  - rewrite length_app. cbn. lia.
Qed.

Lemma feed_fits n fs o b : fits n (fs, o) -> from_option (fun l => length l + 2 <= n)%nat True o -> (1 <= n)%nat ->
  fits n (feed (fs, o) b).
Proof.
  intros [Hf Ho] Hr Hn. unfold fits, feed in *. cbn [fst snd] in *.
  destruct o as [l|]; cbn [from_option] in *; repeat case_match; cbn [fst snd from_option]; split; try done; cbn; try lia.
  - apply Forall_app. split; [done|]. by constructor.
  - rewrite length_app. cbn. lia.
Qed.

(** The scanner does what the reference says, or writes behind its buffer at the
    first frame that does not fit. *)
Lemma steps_frames n bs : (2 <= n)%nat -> Z.of_nat n < 65536 -> Forall byte bs -> forall fs o s,
  holds n o s -> fits n (fs, o) ->
  let x := foldl feed (fs, o) bs in
  if decide (fits n x) then
    exists new s', x.1 = fs ++ new /\ steps bs s = Ret (frame <$> new, s') /\ holds n x.2 s'
  else steps bs s = Err OutOfBounds.
Proof.
  intros Hn Hmax. induction 1 as [|b bs Hb _ IH]; intros fs o s Hs Hf; cbn [foldl steps] in *.
  - rewrite decide_True by done. exists [], s. by rewrite app_nil_r.
  - assert (from_option (fun l => length l + 2 <= n)%nat True o \/ exists l, o = Some l /\ (n <= length l + 1)%nat)
      as [Hr|(l & -> & Hr)] by (destruct o as [l|]; [destruct (decide (length l + 2 <= n)%nat)|]; naive_solver lia).
    + destruct (step_ok n o s b Hn Hmax Hb Hs Hr) as (r & s1 & -> & Hs1 & Hnew). unfold_st. cbn [fst snd].
      rewrite feed_new. set (ls := (feed ([], o) b).1) in *. set (o1 := (feed ([], o) b).2) in *.
      assert (Hf1 : fits n (fs ++ ls, o1)) by (unfold ls, o1; rewrite <- feed_new; apply feed_fits; [done|done|lia]).
      specialize (IH (fs ++ ls) o1 s1 Hs1 Hf1). cbn zeta in IH. case_decide; [|by rewrite IH].
      destruct IH as (new & s' & Hx & -> & Hs'). exists (ls ++ new), s'. cbn [fst snd].
      split; [by rewrite Hx, app_assoc|]. split; [|done]. subst ls.
      destruct (feed ([], o) b).1 as [|l ls] eqn:E; [by subst r|]. destruct Hnew as [-> Ht].
      assert (ls = []) as -> by (revert E; unfold feed; repeat case_match; cbn; by intros [=]).
      rewrite Nat2Z.id, Ht. done.
    + rewrite (step_full n l s b Hs) by lia.
      rewrite decide_False; [done|]. intros H. apply (full_feed n fs l b); [lia|lia|]. by apply (fits_feeds _ bs).
Qed.

(** The length told is the length of the frame in the buffer. *)
Lemma step_told b s n s1 : step b s = Ret (n, s1) -> Z.of_nat (length (SaveBuf s)) < 65536 ->
  length (SaveBuf s1) = length (SaveBuf s) /\
  forall k, n = Some k -> Z.of_nat (length (take (Z.to_nat k) (SaveBuf s1))) = k.
Proof.
  unfold step. intros Hs Hl. destruct (upd _ _ _) as [buf|] eqn:E; [|done].
  assert (Hb := upd_length _ _ _ _ E). unfold upd in E. case_decide as Hr; [|done]. revert Hs. unfold_st.
  repeat case_match; intros [= <- <-]; cbn [SaveBuf]; (split; [done|]); try done.
  intros k [= <-]. rewrite wrap_id, length_take by (cbn; lia). lia.
Qed.

Lemma step_noise b s :
  couter s = 0 -> 0 <= b < 256 -> b <> 0x7e -> SaveBuf s <> [] ->
  step b s = Ret (None, mkScan (<[0%nat := b]> (SaveBuf s)) 0).
Proof.
  intros Hc Hb Hne Hbuf. unfold step. rewrite Hc, wrap_id by (cbn; lia).
  rewrite upd_ok by (destruct (SaveBuf s); [done|cbn; lia]). unfold_st.
  by rewrite (proj2 (Z.eqb_neq _ _) Hne).
Qed.

Lemma steps_noise l : forall s,
  couter s = 0 -> Forall (fun b => 0 <= b < 256 /\ b <> 0x7e) l -> SaveBuf s <> [] ->
  exists buf, length buf = length (SaveBuf s) /\ steps l s = Ret ([], mkScan buf 0).
Proof.
  induction l as [|b l IH]; intros s Hc Hl Hbuf; cbn [steps].
  - exists (SaveBuf s). destruct s. cbn in *. by subst.
  - apply Forall_cons in Hl as [[Hb Hne] Hl]. rewrite step_noise by done. unfold_st. cbn [fst snd].
    destruct (IH (mkScan (<[0%nat := b]> (SaveBuf s)) 0)) as (buf & Hlen & ->); [done|done| |].
    { cbn. by destruct (SaveBuf s). }
    exists buf. cbn in Hlen. rewrite length_insert in Hlen. done.
Qed.

(** Inside a frame of which [pre] has been received. *)
Lemma steps_body l : forall pre rest,
  pre <> [] -> (length pre + length l < length pre + length rest)%nat ->
  Z.of_nat (length pre + length l) < 65536 ->
  Forall (fun b => 0 <= b < 256 /\ b <> 0x7e) l ->
  steps l (mkScan (pre ++ rest) (Z.of_nat (length pre))) =
    Ret ([], mkScan ((pre ++ l) ++ drop (length l) rest) (Z.of_nat (length (pre ++ l)))).
Proof.
  induction l as [|b l IH]; intros pre rest Hpre Hlt Hmax Hl; cbn [steps].
  - rewrite app_nil_r. done.
  - apply Forall_cons in Hl as [[Hb Hne] Hl]. cbn [length] in *.
    destruct rest as [|x rest]; [cbn in Hlt; lia|].
    unfold step. cbn [SaveBuf couter].
    rewrite wrap_id by (cbn; lia). rewrite upd_ok by (rewrite length_app; cbn; lia). unfold_st.
    assert (Z.of_nat (length pre) <> 0) as Hn0 by (destruct pre; [done|cbn; lia]).
    rewrite (proj2 (Z.eqb_neq _ 0) Hn0), (proj2 (Z.eqb_neq _ _) Hne). cbn [negb andb fst snd].
    rewrite wrap_id by (cbn; lia). rewrite Nat2Z.id, insert_app_r_alt, Nat.sub_diag by lia.
    cbn [insert list_insert].
    replace (pre ++ b :: rest) with ((pre ++ [b]) ++ rest) by (by rewrite <- app_assoc).
    replace (Z.of_nat (length pre) + 1) with (Z.of_nat (length (pre ++ [b])))
      by (rewrite length_app; cbn; lia).
    rewrite IH.
    + cbn [fst snd drop]. rewrite <- (app_assoc pre). done.
    + by destruct pre.
    + rewrite length_app. cbn in *. lia.
    + rewrite length_app. cbn. lia.
    + done.
Qed.

(** From the idle state, noise and then one whole frame. *)
Lemma steps_frame l s :
  couter s = 0 -> body l -> (length l + 2 <= length (SaveBuf s))%nat ->
  Z.of_nat (length l) + 2 < 65536 ->
  exists buf, length buf = length (SaveBuf s) /\
    steps (frame l) s = Ret ([frame l], mkScan buf 0).
Proof.
  intros Hc [Hne Hl] Hlen Hmax. unfold frame.
  destruct (SaveBuf s) as [|x rest] eqn:Hbuf; [cbn in Hlen; lia|].
  cbn [app steps]. unfold step at 1. rewrite Hc, Hbuf. change (u8 126) with 126.
  rewrite upd_ok by (cbn; lia). unfold_st. cbn [Z.eqb negb andb insert list_insert fst snd Pos.eqb].
  change (u16 (0 + 1)) with (Z.of_nat (length [126])).
  change (Z.to_nat 0) with 0%nat. cbn [insert list_insert].
  change (126 :: rest) with ([126] ++ rest).
  assert (forall l2 s1 s2, steps l s1 = Ret ([], s2) ->
    steps (l ++ l2) s1 = steps l2 s2) as Happ.
  { clear. intros l2. induction l as [|b l IH]; intros s1 s2; cbn [app steps].
    - unfold mret, res_ret. by intros [= ->].
    - unfold_st. destruct (step b s1) as [[o s3]|]; [|done]. cbn [fst snd].
      destruct (steps l s3) as [[fs s4]|] eqn:Hs; [|done]. cbn [fst snd].
      destruct o; [done|]. intros [= -> ->]. rewrite (IH s3 s2 Hs).
      by destruct (steps l2 s2) as [[? ?]|]. }
  cbn [length] in *. erewrite Happ; [|apply steps_body; [done|cbn; lia|cbn; lia|done]].
  set (pre := [126] ++ l). cbn [steps]. unfold step. cbn [SaveBuf couter].
  assert (length pre = S (length l)) as Hpl by done.
  assert (1 < Z.of_nat (length pre)) by (destruct l; [done|cbn in *; lia]).
  change (u8 126) with 126.
  rewrite upd_ok by (rewrite length_app, length_drop; lia). unfold_st.
  rewrite (proj2 (Z.eqb_neq _ 0)), (proj2 (Z.eqb_neq _ 1)) by lia.
  cbn [negb andb Z.eqb Pos.eqb fst snd SaveBuf].
  rewrite wrap_id by (cbn; lia). rewrite Nat2Z.id, insert_app_r_alt, Nat.sub_diag by lia.
  destruct (drop (length l) rest) as [|y r] eqn:Hd.
  { apply (f_equal length) in Hd. rewrite length_drop in Hd. cbn in Hd. lia. }
  cbn [insert list_insert].
  replace (pre ++ 126 :: r) with ((126 :: l ++ [126]) ++ r)
    by (unfold pre; cbn; by rewrite <- app_assoc).
  replace (Z.to_nat (Z.of_nat (length pre) + 1)) with (length (126 :: l ++ [126]))
    by (cbn; rewrite length_app; cbn; lia).
  rewrite take_app_length. eexists. split; [|done].
  apply (f_equal length) in Hd. rewrite length_drop in Hd. cbn in Hd.
  rewrite length_app. cbn. rewrite length_app. cbn. lia.
Qed.

Lemma steps_app l1 l2 s :
  steps (l1 ++ l2) s = (x ← steps l1 s; y ← steps l2 x.2; mret (x.1 ++ y.1, y.2)).
Proof.
  revert s. induction l1 as [|b l1 IH]; intros s; cbn [app steps]; unfold_st.
  - cbn. by destruct (steps l2 s) as [[]|].
  - destruct (step b s) as [[o s1]|]; [|done]. cbn [fst snd]. rewrite IH. unfold_st.
    destruct (steps l1 s1) as [[fs s2]|]; [|done]. cbn [fst snd].
    destruct (steps l2 s2) as [[gs s3]|]; [|done]. by destruct o.
Qed.
End Scan.

(** ** The advertising screen *)

Module Ads.
Import Scan.

(** Where the thread is blocked: the [rt_mb_recv] calls of states 1 and 2, and
    the two of state 4. *)
Inductive wait := WaitVersion | WaitPower | WaitText | WaitAck.

#[global] Instance wait_eq_dec : EqDecision wait.
Proof. solve_decision. Defined.

Record ads := mkAds {
  scn : scan;
  ADS_MB : option Z;               (**r mailbox of one message *)
  pc : wait;
  state : Z;
  pcp : PCPsrtuctTypedef;
  pADText : Z;
  ADTextLen : Z;
  heap : gmap Z (list Z);          (**r texts allocated by [AD_Get_text] *)
  sent : list PCPsrtuctTypedef     (**r messages given to [control(ADS, 1)] *)
}.

Definition dCMD_MESSAGE : Z := 0x40.

Definition with_scn a s := mkAds s (ADS_MB a) (pc a) (state a) (pcp a) (pADText a) (ADTextLen a) (heap a) (sent a).
Definition with_mb a m := mkAds (scn a) m (pc a) (state a) (pcp a) (pADText a) (ADTextLen a) (heap a) (sent a).
Definition with_pc a p := mkAds (scn a) (ADS_MB a) p (state a) (pcp a) (pADText a) (ADTextLen a) (heap a) (sent a).
Definition with_state a s := mkAds (scn a) (ADS_MB a) (pc a) s (pcp a) (pADText a) (ADTextLen a) (heap a) (sent a).
Definition with_pcp a p := mkAds (scn a) (ADS_MB a) (pc a) (state a) p (pADText a) (ADTextLen a) (heap a) (sent a).
Definition with_text a p n h := mkAds (scn a) (ADS_MB a) (pc a) (state a) (pcp a) p n h (sent a).
Definition with_sent a s := mkAds (scn a) (ADS_MB a) (pc a) (state a) (pcp a) (pADText a) (ADTextLen a) (heap a) s.

(** [rt_mb_send] to a full mailbox fails and keeps the old message. *)
Definition rt_mb_send (v : Z) : ST ads unit :=
  modify (fun a => match ADS_MB a with None => with_mb a (Some v) | Some _ => a end).

(** [rt_mb_recv] takes the message, if there is one. *)
Definition rt_mb_recv : ST ads (option Z) :=
  a ← get;
  match ADS_MB a with
  | None => mret None
  | Some v => _ ← modify (fun a => with_mb a None); mret (Some v)
  end.

Definition ADS_input (size : Z) : ST ads Z :=
  a ← get;
  x ← lift (Scan.step size (scn a));
  _ ← modify (fun a => with_scn a x.2);
  match x.1 with
  | Some temp => _ ← rt_mb_send temp; mret temp
  | None => mret 0
  end.

Fixpoint ADS_inputs (bs : list Z) : ST ads unit :=
  match bs with [] => mret tt | b :: bs => _ ← ADS_input b; ADS_inputs bs end.

(** [ADS->control(ADS, 1, pPCPsrtuct)] *)
Definition control_send : ST ads unit := modify (fun a => with_sent a (sent a ++ [pcp a])).

Definition wait_at (w : wait) : ST ads unit := modify (fun a => with_pc a w).

(** From the top of the loop to the [rt_mb_recv] the state blocks in. *)
Definition ads_top : ST ads unit :=
  a ← get;
  if state a =? 1 then
    _ ← modify (fun a => with_pcp a
          (mkPCP 0 0 dType_infoTerminal dCmd_Version (userData (pcp a)) 0));
    _ ← control_send; wait_at WaitVersion
  else if state a =? 2 then
    _ ← modify (fun a => with_pcp a (set_cmd (pcp a) dCmd_PowerOn 0));
    _ ← control_send; wait_at WaitPower
  else _ ← modify (fun a => with_state a 4); wait_at WaitText.

(** State 4 from the arrival of a message in the mailbox to its second
    [rt_mb_recv]. *)
Definition show_text : ST ads unit :=
  _ ← modify (fun a => with_pcp a (set_cmd (pcp a) dCMD_MESSAGE (psize (pcp a))));
  a ← get;
  if pADText a =? 0 then ads_top
  else
    match heap a !! pADText a with
    | None => lift (Err UseAfterFree)
    | Some text =>
        p ← lift (set_data (pcp a) (take (Z.to_nat (ADTextLen a)) text) (u8 (ADTextLen a)));
        _ ← modify (fun a => with_pcp a p);
        _ ← modify (fun a => with_text a (pADText a) 0 (delete (pADText a) (heap a)));
        _ ← control_send;
        wait_at WaitAck
    end.

(** The thread goes on from where it is blocked: with the message in the
    mailbox, or (in the waits of five seconds) on a timeout.  [u] is what
    [control(ADS, 2)] returns ([true] for [RT_EOK]) and stores. *)
Definition ads_resume (timeout : bool) (u : bool * PCPsrtuctTypedef) : ST ads unit :=
  a ← get;
  m ← rt_mb_recv;
  match m with
  | None =>
      if timeout && negb (bool_decide (pc a = WaitText)) then ads_top else mret tt
  | Some _ =>
      match pc a with
      | WaitVersion =>
          _ ← modify (fun a => with_pcp a u.2);
          _ ← (if u.1 then modify (fun a => with_state a 2) else mret tt);
          ads_top
      | WaitPower =>
          _ ← modify (fun a => with_pcp a u.2);
          _ ← (if u.1 && (CMD u.2 =? dCmd_PowerOn) then modify (fun a => with_state a 3) else mret tt);
          ads_top
      | WaitText => show_text
      | WaitAck => _ ← modify (fun a => with_pcp a u.2); ads_top
      end
  end.

(** [AD_Get_text], called by other threads; [p] is the result of
    [rt_malloc]. *)
Definition AD_Get_text (p : Z) (data : list Z) : ST ads unit :=
  _ ← lift (RT_ASSERT (Z.of_nat (length data) <? dPCPuserDataSize));
  _ ← lift (RT_ASSERT (negb (p =? 0)));
  _ ← modify (fun a => with_text a p (Z.of_nat (length data)) (<[p := data]> (heap a)));
  rt_mb_send 0.

(** The state of the component before the thread's first turn, with a buffer
    [buf] behind the driver. *)
Definition ads_init (buf : list Z) (p : PCPsrtuctTypedef) : ads :=
  mkAds (mkScan buf 0) None WaitVersion 1 p 0 0 ∅ [].

(** *** Frames in the mailbox *)

(** Stretches of the screen's byte stream; after each, the thread looks into the
    mailbox. *)
Fixpoint serve (segs : list (list Z)) : ST ads (list (option Z)) :=
  match segs with
  | [] => mret []
  | bs :: segs => _ ← ADS_inputs bs; m ← rt_mb_recv; ms ← serve segs; mret (m :: ms)
  end.

(** The mailbox has room for one message: what the thread finds is the length of
    the first frame that was closed since it last looked. *)
Fixpoint mails (before : list Z) (segs : list (list Z)) : list (option Z) :=
  match segs with
  | [] => []
  | bs :: segs =>
      head ((fun l => Z.of_nat (length (frame l))) <$>
        drop (length (frames before).1) (frames (before ++ bs)).1) :: mails (before ++ bs) segs
  end.

Lemma ADS_inputs_mail bs : forall a, Z.of_nat (length (SaveBuf (scn a))) < 65536 ->
  ADS_inputs bs a =
    match steps bs (scn a) with
    | Ret (fs, s') => Ret (tt, with_mb (with_scn a s')
        (match ADS_MB a with Some v => Some v | None => head ((fun f => Z.of_nat (length f)) <$> fs) end))
    | Err e => Err e
    end.
Proof.
  induction bs as [|b bs IH]; intros a Hl; cbn [ADS_inputs steps].
  - destruct a as [? [] ? ? ? ? ? ? ?]; done.
  - unfold ADS_input, rt_mb_send. unfold_st. destruct (Scan.step b (scn a)) as [[o s1]|] eqn:E; [|done].
    destruct (step_told _ _ _ _ E Hl) as [Hl1 Hk]. cbn [fst snd]. destruct o as [n|].
    + specialize (Hk n eq_refl). destruct (ADS_MB a) as [v|] eqn:Hmb; cbn [ADS_MB with_scn]; rewrite ?Hmb;
        rewrite IH by (cbn; by rewrite Hl1); cbn [scn with_mb with_scn ADS_MB];
        (destruct (steps bs s1) as [[fs s2]|]; [|done]); cbn [fst snd fmap list_fmap head]; rewrite ?Hk, ?Hmb; by destruct a.
    + rewrite IH by (cbn; by rewrite Hl1). cbn [scn with_scn ADS_MB].
      destruct (steps bs s1) as [[fs s2]|]; [|done]. by destruct a.
Qed.

Lemma recv_run a m : rt_mb_recv (with_mb a m) = Ret (m, with_mb a None).
Proof. by destruct m. Qed.

Lemma mail_serve_run n segs : (2 <= n)%nat -> Z.of_nat n < 65536 -> Forall byte (concat segs) -> forall before a,
  holds n (frames before).2 (scn a) -> fits n (frames before) -> ADS_MB a = None ->
  if decide (fits n (frames (before ++ concat segs))) then
    exists new a', serve segs a = Ret (mails before segs, a') /\
      (frames (before ++ concat segs)).1 = (frames before).1 ++ new /\
      steps (concat segs) (scn a) = Ret (frame <$> new, scn a')
  else serve segs a = Err OutOfBounds.
Proof.
  intros Hn Hmax. induction segs as [|bs segs IH]; cbn [concat serve mails]; intros Hb before a Hs Hf Hm.
  - rewrite app_nil_r, decide_True by done. exists [], a. by rewrite app_nil_r.
  - apply Forall_app in Hb as [Hb Hbs]. assert (H := steps_frames n bs Hn Hmax Hb (frames before).1 _ _ Hs).
    rewrite <- surjective_pairing, <- frames_app in H. specialize (H Hf). cbn zeta in H.
    assert (Hi := ADS_inputs_mail bs a ltac:(rewrite (h_len _ _ _ Hs); lia)).
    rewrite app_assoc. destruct (decide (fits n (frames (before ++ bs)))) as [Hf1|Hf1].
    + destruct H as (new & s1 & Hx & Hrun & Hs1). rewrite Hrun, Hm, <- list_fmap_compose in Hi.
      rewrite (st_bind_run _ _ _ _ _ Hi), (st_bind_run _ _ _ _ _ (recv_run _ _)), Hx, drop_app_length.
      set (m := head _). set (a1 := with_mb _ None).
      specialize (IH Hbs (before ++ bs) a1 Hs1 Hf1 eq_refl). case_decide.
      * destruct IH as (new2 & a' & E & Hx2 & Hst). exists (new ++ new2), a'.
        rewrite (st_bind_run _ _ _ _ _ E). split; [done|]. split; [by rewrite Hx2, Hx, app_assoc|].
        rewrite steps_app, Hrun. unfold_st. cbn [fst snd]. change (scn a1) with s1 in Hst. rewrite Hst.
        by rewrite fmap_app.
      * unfold_st. by rewrite IH.
    + rewrite decide_False; [by unfold_st; rewrite Hi, H|]. rewrite (frames_app (before ++ bs)).
      intros Hc. by apply Hf1, (fits_feeds _ (concat segs)).
Qed.

(** *** Sessions *)

(** A reply from the screen: a frame, and what [control(ADS, 2)] makes of
    it. *)
Definition reply (l : list Z) (u : bool * PCPsrtuctTypedef) : ST ads unit :=
  _ ← ADS_inputs (frame l); ads_resume false u.

Fixpoint timeouts (n : nat) : ST ads unit :=
  match n with O => mret tt | S n => _ ← ads_resume true (false, mkPCP 0 0 0 0 [] 0); timeouts n end.

(** Texts given to the screen, each taken by the thread and acknowledged. *)
Fixpoint show_all (texts : list (Z * list Z)) (l : list Z) (u : bool * PCPsrtuctTypedef) : ST ads unit :=
  match texts with
  | [] => mret tt
  | (p, data) :: texts =>
      _ ← AD_Get_text p data; _ ← ads_resume false u; _ ← reply l u; show_all texts l u
  end.

(** The scanner is between frames and has room for a frame of body [l]. *)
Definition idle (a : ads) (l : list Z) : Prop :=
  couter (scn a) = 0 /\ body l /\ (length l + 2 <= length (SaveBuf (scn a)))%nat /\
  Z.of_nat (length l) + 2 < 65536.

Lemma ADS_inputs_steps bs : forall a fs s',
  steps bs (scn a) = Ret (fs, s') ->
  exists m, ADS_inputs bs a = Ret (tt, with_mb (with_scn a s') m) /\
    (m = ADS_MB a \/ m <> None) /\ (ADS_MB a = None -> fs <> [] -> m <> None).
Proof.
  induction bs as [|b bs IH]; intros a fs s' H; cbn [steps ADS_inputs] in *.
  - unfold mret, res_ret in H. injection H as <- <-. exists (ADS_MB a).
    split_and!; [by destruct a|by left|done].
  - unfold ADS_input, rt_mb_send. unfold_st. destruct (Scan.step b (scn a)) as [[o s1]|]; [|done].
    cbn [fst snd] in *. destruct (steps bs s1) as [[gs s2]|] eqn:Hs; [|done].
    injection H as <- <-. cbn [fst snd]. destruct o as [n|].
    + destruct (ADS_MB a) as [v|] eqn:Hmb; cbn [ADS_MB with_scn]; rewrite ?Hmb.
      * destruct (IH (with_scn a s1) gs s2 Hs) as (m & -> & Hm & _). exists m.
        split_and!; [by destruct a|cbn in Hm; rewrite Hmb in Hm; naive_solver|done].
      * destruct (IH (with_mb (with_scn a s1) (Some n)) gs s2 Hs) as (m & -> & Hm & _).
        exists m. split_and!; [by destruct a|right; cbn in Hm; naive_solver|cbn in Hm; naive_solver].
    + destruct (IH (with_scn a s1) gs s2 Hs) as (m & -> & Hm & Hn). exists m.
      split_and!; [by destruct a|exact Hm|exact Hn].
Qed.

Lemma frame_arrives a l :
  idle a l -> ADS_MB a = None ->
  exists buf v, length buf = length (SaveBuf (scn a)) /\
    ADS_inputs (frame l) a = Ret (tt, with_mb (with_scn a (mkScan buf 0)) (Some v)).
Proof.
  intros (Hc & Hb & Hl & Hm) Hmb.
  destruct (steps_frame l (scn a) Hc Hb Hl Hm) as (buf & Hlen & Hs).
  destruct (ADS_inputs_steps _ _ _ _ Hs) as (m & Hrun & _ & Hsome).
  destruct m as [v|]; [|by destruct Hsome]. eauto.
Qed.

Lemma reply_run a l u :
  idle a l -> ADS_MB a = None ->
  exists buf v, length buf = length (SaveBuf (scn a)) /\
    reply l u a = ads_resume false u (with_mb (with_scn a (mkScan buf 0)) (Some v)).
Proof.
  intros Hi Hmb. destruct (frame_arrives a l Hi Hmb) as (buf & v & Hl & Hf).
  exists buf, v. split; [done|]. unfold reply. by rewrite (st_bind_run _ _ _ _ _ Hf).
Qed.

(** Ready for a text: booted, with nothing in the mailbox. *)
Definition ready (a : ads) : Prop :=
  pc a = WaitText /\ state a = 4 /\ ADS_MB a = None /\ Z.of_nat (length (userData (pcp a))) = dPCPuserDataSize.

Lemma show_one a p data l u :
  ready a -> idle a l -> p <> 0 -> heap a !! p = None ->
  Z.of_nat (length data) < dPCPuserDataSize -> Z.of_nat (length (userData u.2)) = dPCPuserDataSize ->
  exists a' m, (_ ← AD_Get_text p data; _ ← ads_resume false u; reply l u) a = Ret (tt, a') /\
    ready a' /\ idle a' l /\ heap a' = heap a /\ pADText a' = p /\
    sent a' = sent a ++ [m] /\ CMD m = dCMD_MESSAGE /\ pcp_text m = data.
Proof.
  intros (Hpc & Hst & Hmb & Hud) Hidle Hp Hfr Hlen Hu.
  unfold dPCPuserDataSize in *.
  unfold AD_Get_text, rt_mb_send, RT_ASSERT, dPCPuserDataSize.
  rewrite (proj2 (Z.ltb_lt _ _) Hlen), (proj2 (Z.eqb_neq _ _) Hp). cbn [negb].
  unfold ads_resume at 1. unfold rt_mb_recv at 1, show_text, control_send, wait_at. unfold_st.
  cbn [ADS_MB with_text pc]. rewrite Hmb. cbn [ADS_MB with_mb pc with_text pADText with_pcp heap].
  rewrite Hpc. cbn [ADS_MB with_mb pc with_text pADText with_pcp heap pcp].
  rewrite (proj2 (Z.eqb_neq _ _) Hp), lookup_insert_eq. cbn [ADTextLen with_text with_mb with_pcp].
  rewrite Nat2Z.id, take_ge by done. unfold set_data. cbn [userData set_cmd].
  rewrite upd_range_0 by lia. unfold_st. cbn [with_text with_mb with_pcp heap ADTextLen pADText].
  rewrite delete_insert_id by done.
  match goal with |- context [reply l u ?x] => set (a1 := x) end.
  unfold reply. destruct (frame_arrives a1 l) as (buf & v & Hbl & Hf); [exact Hidle|done|].
  rewrite (st_bind_run _ _ _ _ _ Hf). unfold ads_resume, rt_mb_recv, ads_top, wait_at. unfold_st.
  cbn [ADS_MB pc with_mb with_scn a1 with_pc with_pcp state with_state with_sent with_text].
  rewrite Hst. cbn [Z.eqb Pos.eqb].
  eexists _, _. split; [reflexivity|]. cbn.
  split_and!; try done.
  - destruct Hidle as (? & ? & Hl & ?). split_and!; try done. cbn. by rewrite Hbl.
  - unfold pcp_text. cbn. rewrite wrap_id by (cbn; lia). by rewrite Nat2Z.id, take_app_length.
Qed.

Lemma show_all_run texts l u : forall a,
  ready a -> idle a l -> Z.of_nat (length (userData u.2)) = dPCPuserDataSize ->
  Forall (fun t => t.1 <> 0 /\ heap a !! t.1 = None /\ Z.of_nat (length t.2) < dPCPuserDataSize) texts ->
  exists a' ms, show_all texts l u a = Ret (tt, a') /\ ready a' /\ idle a' l /\
    heap a' = heap a /\ sent a' = sent a ++ ms /\
    pcp_text <$> ms = texts.*2 /\ Forall (fun m => CMD m = dCMD_MESSAGE) ms.
Proof.
  induction texts as [|[p data] texts IH]; intros a Hr Hi Hu Ht; cbn [show_all].
  - exists a, []. rewrite app_nil_r. split_and!; done || by constructor.
  - apply Forall_cons in Ht as [(Hp & Hfr & Hlen) Ht]. cbn in Hp, Hfr, Hlen.
    destruct (show_one a p data l u Hr Hi Hp Hfr Hlen Hu)
      as (a1 & m & Hrun & Hr1 & Hi1 & Hh1 & _ & Hs1 & Hcm & Htx).
    destruct (IH a1 Hr1 Hi1 Hu) as (a' & ms & Hrun' & Hr' & Hi' & Hh' & Hs' & Htx' & Hcm').
    { by rewrite Hh1. }
    exists a', (m :: ms). split_and!; try done.
    + revert Hrun. unfold mbind, st_bind. destruct (AD_Get_text p data a) as [[[] x]|]; [|done].
      destruct (ads_resume false u x) as [[[] y]|]; [|done]. by intros ->.
    + by rewrite Hh'.
    + by rewrite Hs', Hs1, <- app_assoc.
    + cbn. by rewrite Htx, Htx'.
    + by constructor.
Qed.

Lemma timeouts_run n : forall a,
  ADS_MB a = None -> pc a <> WaitText -> state a = 1 \/ state a = 2 ->
  (pc a = if state a =? 1 then WaitVersion else WaitPower) ->
  exists p ms, timeouts n a = Ret (tt, with_sent (with_pcp a p) (sent a ++ ms)) /\
    length (userData p) = length (userData (pcp a)) /\
    CMD <$> ms = replicate n (if state a =? 1 then dCmd_Version else dCmd_PowerOn).
Proof.
  induction n as [|n IH]; intros a Hmb Hpc Hst Heq; cbn [timeouts].
  - exists (pcp a), []. split_and!; [rewrite app_nil_r; by destruct a|done..].
  - unfold ads_resume, rt_mb_recv, ads_top, control_send, wait_at. unfold_st.
    rewrite Hmb, bool_decide_false by done. cbn [andb negb].
    destruct Hst as [Hst|Hst]; rewrite Hst; cbn [Z.eqb Pos.eqb];
    (match goal with |- context [timeouts n ?x] => set (a1 := x) end);
    (destruct (IH a1) as (p & ms & -> & Hp & Hms);
      [done|done|rewrite ?Hst; cbn; auto|cbn; by rewrite Hst|]);
    (exists p, (pcp a1 :: ms); split_and!;
      [cbn; rewrite <- app_assoc; do 2 f_equal; unfold with_sent, with_pcp; cbn; f_equal;
         rewrite Heq, Hst; done
      |by rewrite Hp|cbn in *; rewrite Hst in Hms; cbn in Hms; by rewrite Hms]).
Qed.

Lemma handshake_run n m l a v w :
  ADS_MB a = None -> state a = 1 -> pc a = WaitVersion -> idle a l ->
  Z.of_nat (length (userData w)) = dPCPuserDataSize -> CMD w = dCmd_PowerOn ->
  exists a' ms, (_ ← timeouts n; _ ← reply l (true, v); _ ← timeouts m; reply l (true, w)) a = Ret (tt, a') /\
    ready a' /\ idle a' l /\ heap a' = heap a /\ sent a' = sent a ++ ms /\
    CMD <$> ms = replicate n dCmd_Version ++ [dCmd_PowerOn] ++ replicate m dCmd_PowerOn.
Proof.
  intros Hmb Hst Hpc Hidle Hw Hcw.
  destruct (timeouts_run n a) as (p & ms & Hrun & Hp & Hms); [done|congruence|auto|by rewrite Hst|].
  rewrite (st_bind_run _ _ _ _ _ Hrun). rewrite Hst in Hms. cbn in Hms.
  set (a1 := with_sent _ _).
  destruct (reply_run a1 l (true, v)) as (buf & x & Hbl & Hf); [done|done|].
  unfold mbind, st_bind. rewrite Hf. clear Hf.
  unfold ads_resume at 1. unfold rt_mb_recv at 1, ads_top, control_send, wait_at. unfold_st.
  cbn [ADS_MB pc with_mb with_scn a1 with_pc with_pcp state with_state with_sent with_text fst snd].
  rewrite Hpc. cbn [state with_state with_pcp Z.eqb Pos.eqb].
  match goal with |- context [timeouts m ?x] => set (a2 := x) end.
  destruct (timeouts_run m a2) as (p2 & ms2 & Hrun2 & Hp2 & Hms2); [done|done|by right|done|].
  rewrite Hrun2. set (a3 := with_sent _ _).
  assert (Hidle3 : idle a3 l).
  { destruct Hidle as (? & ? & ? & ?). split_and!; try done. cbn. by rewrite Hbl. }
  destruct (reply_run a3 l (true, w) Hidle3) as (buf3 & y & Hbl3 & ->); [done|].
  unfold ads_resume, rt_mb_recv, ads_top, wait_at. unfold_st.
  cbn [ADS_MB pc with_mb with_scn a3 a2 with_pc with_pcp state with_state with_sent with_text fst snd].
  rewrite Hcw. cbn [Z.eqb Pos.eqb andb dCmd_PowerOn state with_state].
  eexists _, (ms ++ [set_cmd v dCmd_PowerOn 0] ++ ms2). split; [reflexivity|].
  split_and!; try done.
  - destruct Hidle3 as (? & ? & ? & ?). split_and!; try done. cbn. by rewrite Hbl3.
  - cbn. by rewrite <- !app_assoc.
  - rewrite !fmap_app, Hms. cbn in *. by rewrite Hms2.
Qed.
End Ads.

(** ** The LCD screen *)

Module Lcd.
Import Scan.

(** The string literals of [LCDAPP.c], in GB2312. *)
Definition Driver1 : list Z :=
  [187; 182; 211; 173; 214; 220; 208; 199; 179; 219; 203; 190; 187; 250; 163; 172; 196; 250;
   181; 196; 177; 224; 186; 197; 202; 199; 163; 186; 49; 48; 48; 50].
Definition Driver2 : list Z :=
  [187; 182; 211; 173; 197; 183; 186; 163; 203; 190; 187; 250; 163; 172; 196; 250; 181; 196;
   177; 224; 186; 197; 202; 199; 163; 186; 49; 48; 48; 56].
Definition greeting : list Z :=
  ((fun i => Z.of_nat i + 48) <$> seq 0 10) ++ str "AbCd" ++ [194; 179; 182; 171; 180; 243; 209; 167].

(** How far a call of [LCD_Get_text] in another thread has come. *)
Inductive caller := Nobody | Allocated (data : list Z) | Copied.

Record lcd := mkLcd {
  scn : scan;
  LCD_Event : Z;                   (**r the event set *)
  pcp : PCPsrtuctTypedef;
  pText : Z;
  TextLen : Z;
  heap : gmap Z (list Z);          (**r texts allocated by [LCD_Get_text] *)
  sent : list PCPsrtuctTypedef;    (**r [control(LCD, dLCD_SEND)] *)
  sending : bool;                  (**r the thread is in [control], with a text *)
  calling : caller
}.

Definition with_scn u s := mkLcd s (LCD_Event u) (pcp u) (pText u) (TextLen u) (heap u) (sent u) (sending u) (calling u).
Definition with_event u e := mkLcd (scn u) e (pcp u) (pText u) (TextLen u) (heap u) (sent u) (sending u) (calling u).
Definition with_pcp u p := mkLcd (scn u) (LCD_Event u) p (pText u) (TextLen u) (heap u) (sent u) (sending u) (calling u).
Definition with_text u p n h := mkLcd (scn u) (LCD_Event u) (pcp u) p n h (sent u) (sending u) (calling u).
Definition with_sent u s := mkLcd (scn u) (LCD_Event u) (pcp u) (pText u) (TextLen u) (heap u) s (sending u) (calling u).
Definition with_sending u b := mkLcd (scn u) (LCD_Event u) (pcp u) (pText u) (TextLen u) (heap u) (sent u) b (calling u).
Definition with_calling u c := mkLcd (scn u) (LCD_Event u) (pcp u) (pText u) (TextLen u) (heap u) (sent u) (sending u) c.

Definition rt_event_send (bits : Z) : ST lcd unit :=
  modify (fun u => with_event u (Z.lor (LCD_Event u) bits)).

Definition LCD_input (size : Z) : ST lcd Z :=
  u ← get;
  x ← lift (Scan.step size (scn u));
  _ ← modify (fun u => with_scn u x.2);
  match x.1 with
  | Some temp => _ ← rt_event_send 1; mret temp
  | None => mret 0
  end.

Definition control_send : ST lcd unit := modify (fun u => with_sent u (sent u ++ [pcp u])).

(** Shows [data]. *)
Definition lcd_show (data : list Z) : ST lcd unit :=
  u ← get;
  p ← lift (set_data (pcp u) data (u8 (Z.of_nat (length data))));
  _ ← modify (fun u => with_pcp u p);
  control_send.

(** [LCDApp_thread_entry] before its loop. *)
Definition lcd_start : ST lcd unit :=
  _ ← modify (fun u => with_pcp u (mkPCP 0x78 0x1234 0x56 0x07 (userData (pcp u)) (psize (pcp u))));
  lcd_show greeting.

(** The events the loop waits for. *)
Definition LCD_EVENTS : Z := 0xf.

Definition has (x f : Z) : bool := negb (Z.land x f =? 0).

(** The text in memory that [pText] points to; no byte of it is read when it has
    none. *)
Definition text_at (u : lcd) : res (list Z) :=
  if TextLen u =? 0 then mret []
  else match heap u !! pText u with
       | None => Err UseAfterFree
       | Some text => mret (take (Z.to_nat (TextLen u)) text)
       end.

(** One turn of the loop, up to the call of [control] when it shows a text:
    [false] while no event is set and the thread stays blocked. *)
Definition lcd_turn : ST lcd bool :=
  u ← get;
  let Value := Z.land (LCD_Event u) LCD_EVENTS in
  if Value =? 0 then mret false
  else
    _ ← modify (fun u => with_event u (Z.ldiff (LCD_Event u) LCD_EVENTS));
    _ ← (if has Value (Z.shiftl 1 0) then mret tt
         else if has Value (Z.shiftl 1 1) then
           if pText u =? 0 then mret tt
           else
             text ← lift (text_at u);
             _ ← lcd_show text;
             modify (fun u => with_sending u true)
         else if has Value (Z.shiftl 1 2) then lcd_show Driver1
         else if has Value (Z.shiftl 1 3) then lcd_show Driver2
         else mret tt);
    mret true.

(** [control] has come back: [rt_free(pText); TextLen=0;], with [pText] as it is
    now. *)
Definition lcd_sent : ST lcd unit :=
  u ← get;
  match heap u !! pText u with
  | None => lift (Err UseAfterFree)
  | Some _ => modify (fun u => with_sending (with_text u (pText u) 0 (delete (pText u) (heap u))) false)
  end.

(** [LCD_Get_text] up to its second assertion; [p] is the result of [rt_malloc], and
    [junk] what the block holds.  The parameter [type] is not used. *)
Definition text_alloc (p : Z) (junk data : list Z) : ST lcd unit :=
  _ ← lift (RT_ASSERT (Z.of_nat (length data) <? dPCPuserDataSize));
  _ ← modify (fun u => with_text u p (TextLen u) (if p =? 0 then heap u else <[p := junk]> (heap u)));
  _ ← lift (RT_ASSERT (negb (p =? 0)));
  modify (fun u => with_calling u (Allocated data)).

(** [rt_memcpy(pText,pStr,len); TextLen=len;] *)
Definition text_copy (data : list Z) : ST lcd unit :=
  u ← get;
  match heap u !! pText u with
  | None => lift (Err UseAfterFree)
  | Some old =>
      new ← lift (upd_range old 0 data);
      _ ← modify (fun u => with_text u (pText u) (Z.of_nat (length data)) (<[pText u := new]> (heap u)));
      modify (fun u => with_calling u Copied)
  end.

Definition text_event : ST lcd unit :=
  _ ← rt_event_send (Z.shiftl 1 1);
  modify (fun u => with_calling u Nobody).

Definition LCD_Get_text (p : Z) (junk data : list Z) : ST lcd unit :=
  _ ← text_alloc p junk data; _ ← text_copy data; text_event.

(** *** Interleavings *)

Inductive op :=
  | OByte (b : Z)                       (**r a byte from the screen *)
  | OText (p : Z) (junk data : list Z)  (**r [LCD_Get_text] is called *)
  | OCopy                               (**r and goes on with the copy *)
  | OEvent                              (**r and with the event *)
  | ORfid (second : bool)               (**r the events the RFID component sends *)
  | OTurn                               (**r the thread *)
  | OSent.                              (**r the thread after [control] *)

(** A step that is not possible changes nothing. *)
Definition exec (o : op) : ST lcd unit :=
  u ← get;
  match o with
  | OByte b => _ ← LCD_input b; mret tt
  | OText p junk data => text_alloc p junk data
  | OCopy => match calling u with Allocated data => text_copy data | _ => mret tt end
  | OEvent => match calling u with Copied => text_event | _ => mret tt end
  | ORfid second => rt_event_send (Z.shiftl 1 (if second then 3 else 2))
  | OTurn => if sending u then mret tt else _ ← lcd_turn; mret tt
  | OSent => if sending u then lcd_sent else mret tt
  end.

Fixpoint execs (ops : list op) : ST lcd unit :=
  match ops with [] => mret tt | o :: ops => _ ← exec o; execs ops end.

(** [o] is permitted in [u]: a byte fits the receive buffer; the allocator returns a
    fresh block of the size asked for, or null; and a text is only given when the one
    before it has been taken, shown and freed. *)
Definition permitted (u : lcd) (o : op) : Prop :=
  match o with
  | OByte b => couter (scn u) < Z.of_nat (length (SaveBuf (scn u)))
  | OText p junk data =>
      (p <> 0 -> heap u !! p = None /\ length junk = length data) /\
      calling u = Nobody /\ sending u = false /\ has (LCD_Event u) 2 = false
  | _ => True
  end.

(** The assertions of [LCD_Get_text]. *)
Definition asserts (o : op) : bool :=
  match o with
  | OText p _ data => (Z.of_nat (length data) <? dPCPuserDataSize) && negb (p =? 0)
  | _ => true
  end.

(** The states of the component after its start. *)
Inductive reach (buf : list Z) (junk : PCPsrtuctTypedef) : lcd -> Prop :=
  | reach_start u :
      lcd_start (mkLcd (mkScan buf 0) 0 junk 0 0 ∅ [] false Nobody) = Ret (tt, u) -> reach buf junk u
  | reach_step u o u' :
      reach buf junk u -> permitted u o -> exec o u = Ret (tt, u') -> reach buf junk u'.

(** A text that can be shown. *)
Definition live (u : lcd) (n : Z) : Prop :=
  pText u <> 0 /\ n < dPCPuserDataSize /\ exists text, heap u !! pText u = Some text /\ n = Z.of_nat (length text).

(** A pending text event, a text being sent and a call of [LCD_Get_text] exclude
    each other, and each has its text allocated. *)
Record good (u : lcd) : Prop := {
  g_pcp : Z.of_nat (length (userData (pcp u))) = dPCPuserDataSize;
  g_event : has (LCD_Event u) 2 = true -> sending u = false /\ calling u = Nobody /\ live u (TextLen u);
  g_sending : sending u = true -> calling u = Nobody /\ exists text, heap u !! pText u = Some text;
  g_calling : match calling u with
              | Nobody => True
              | Allocated data => live u (Z.of_nat (length data))
              | Copied => live u (TextLen u)
              end;
  g_cnt : 0 <= couter (scn u)
}.

Lemma lcd_show_run u data :
  Z.of_nat (length (userData (pcp u))) = dPCPuserDataSize -> Z.of_nat (length data) < dPCPuserDataSize ->
  exists p, lcd_show data u = Ret (tt, with_sent (with_pcp u p) (sent u ++ [p])) /\
    Z.of_nat (length (userData p)) = dPCPuserDataSize /\ pcp_text p = data.
Proof.
  unfold dPCPuserDataSize. intros Hp Hd. unfold lcd_show, control_send, set_data. unfold_st.
  rewrite upd_range_0 by lia. unfold_st. eexists. split; [reflexivity|]. cbn.
  split; [rewrite length_app, length_drop; lia|].
  unfold pcp_text. cbn. by rewrite wrap_id, Nat2Z.id, take_app_length by (cbn; lia).
Qed.

Lemma has_clear e : has (Z.ldiff e LCD_EVENTS) 2 = false.
Proof.
  unfold has. replace (Z.land (Z.ldiff e LCD_EVENTS) 2) with 0; [done|].
  symmetry. apply Z.bits_inj'. intros n Hn. rewrite Z.bits_0, Z.land_spec, Z.ldiff_spec.
  change 2 with (2 ^ 1). rewrite Z.pow2_bits_eqb by lia.
  destruct (Z.eqb_spec 1 n) as [<-|]; [|by rewrite andb_false_r].
  change (Z.testbit LCD_EVENTS 1) with true. by rewrite andb_false_r.
Qed.

Lemma has_lor e b f : has (Z.lor e b) f = has e f || has b f.
Proof.
  unfold has. rewrite Z.land_lor_distr_l.
  destruct (Z.eqb_spec (Z.lor (Z.land e f) (Z.land b f)) 0) as [H|H];
    destruct (Z.eqb_spec (Z.land e f) 0) as [H1|H1]; destruct (Z.eqb_spec (Z.land b f) 0) as [H2|H2];
    try done.
  - apply Z.lor_eq_0_iff in H as [? ?]. done.
  - apply Z.lor_eq_0_iff in H as [? ?]. done.
  - apply Z.lor_eq_0_iff in H as [? ?]. done.
  - rewrite H1, H2 in H. done.
Qed.

Lemma has_text_event e : has (Z.land e LCD_EVENTS) 2 = has e 2.
Proof. unfold has. by rewrite <- Z.land_assoc. Qed.

Lemma has_rfid e (second : bool) : has (Z.lor e (Z.shiftl 1 (if second then 3 else 2))) 2 = has e 2.
Proof. rewrite has_lor. destruct second; apply orb_false_r. Qed.

Lemma byte_good u b : good u -> couter (scn u) < Z.of_nat (length (SaveBuf (scn u))) ->
  exists u', (_ ← LCD_input b; mret tt) u = Ret (tt, u') /\ good u'.
Proof.
  intros [Hp He Hs Hk Hc] Ho. unfold LCD_input, Scan.step, rt_event_send. unfold_st. rewrite upd_ok by lia. unfold_st.
  assert (0 <= u16 (couter (scn u) + 1)) by (apply wrap_bounds; lia).
  destruct (_ && _); [|destruct (_ && _); [destruct (couter (scn u) =? 1)|]];
    unfold_st; cbn [fst snd]; eexists; (split; [reflexivity|]); split; cbn; try done.
  rewrite has_lor, orb_false_r. exact He.
Qed.

(** The event taken, and perhaps a message sent. *)
Lemma taken_good u p l : good u -> sending u = false -> Z.of_nat (length (userData p)) = dPCPuserDataSize ->
  good (with_sent (with_pcp (with_event u (Z.ldiff (LCD_Event u) LCD_EVENTS)) p) l).
Proof. intros [Hp He Hs Hk Hc] Hn Hl. split; cbn; try done. by rewrite has_clear. Qed.

Lemma turn_good u : good u -> sending u = false -> exists u', (_ ← lcd_turn; mret tt) u = Ret (tt, u') /\ good u'.
Proof.
  intros Hg Hn. assert (Hg' := Hg). destruct Hg' as [Hp He Hs Hk Hc]. unfold lcd_turn. unfold_st.
  destruct (_ =? 0); [by eexists|]. set (u1 := with_event u _).
  assert (Hg1 : good u1).
  { assert (H := taken_good u (pcp u) (sent u) Hg Hn Hp). by destruct u. }
  assert (forall d, Z.of_nat (length d) < dPCPuserDataSize -> exists u', lcd_show d u1 = Ret (tt, u') /\ good u') as Hd.
  { intros d Hd. destruct (lcd_show_run u1 d) as (q & -> & Hq & _); [done|done|].
    eexists. split; [reflexivity|]. by apply taken_good. }
  destruct (has _ (Z.shiftl 1 0)); [by eexists|].
  change (Z.shiftl 1 1) with 2. rewrite has_text_event. destruct (has (LCD_Event u) 2) eqn:Hev.
  - destruct (He eq_refl) as (_ & Hcl & Hp0 & Hlt & text & Htx & Hl).
    rewrite (proj2 (Z.eqb_neq _ _) Hp0). unfold_st.
    assert (text_at u = Ret text) as ->.
    { unfold text_at. rewrite Htx, Hl, Nat2Z.id, take_ge by done. by destruct text. }
    unfold_st. destruct (lcd_show_run u1 text) as (q & -> & Hq & _); [done|lia|].
    eexists. split; [reflexivity|]. split; cbn; try done; [by rewrite has_clear|].
    intros _. split; [done|]. by exists text.
  - destruct (has _ (Z.shiftl 1 2)); [|destruct (has _ (Z.shiftl 1 3)); [|by eexists]].
    + destruct (Hd Driver1) as (u' & -> & Hgu); [done|]. by exists u'.
    + destruct (Hd Driver2) as (u' & -> & Hgu); [done|]. by exists u'.
Qed.

Lemma sent_good u : good u -> sending u = true -> exists u', lcd_sent u = Ret (tt, u') /\ good u'.
Proof.
  intros [Hp He Hs Hk Hc] Hn. destruct (Hs Hn) as (Hcl & text & Htx). unfold lcd_sent. unfold_st. rewrite Htx.
  eexists. split; [reflexivity|]. split; cbn; try done; [|by rewrite Hcl].
  intros Hev. by destruct (He Hev) as [? _]; congruence.
Qed.

(** The three parts of [LCD_Get_text]. *)
Lemma alloc_good u p junk data : good u -> permitted u (OText p junk data) ->
  if asserts (OText p junk data) then exists u', text_alloc p junk data u = Ret (tt, u') /\ good u'
  else text_alloc p junk data u = Err AssertFail.
Proof.
  intros [Hp He Hs Hk Hc] (Hf & Hcl & Hsn & Hev). cbn [asserts]. unfold text_alloc, RT_ASSERT.
  destruct (Z.ltb_spec (Z.of_nat (length data)) dPCPuserDataSize); [|done]. cbn [andb]. unfold_st.
  destruct (Z.eqb_spec p 0) as [->|Hne]; cbn [negb]; [done|]. destruct (Hf Hne) as [Hfr Hl]. unfold_st.
  eexists. split; [reflexivity|]. split; cbn; try done; [by rewrite Hev|by rewrite Hsn|].
  split; [done|]. split; [done|]. exists junk. cbn. rewrite lookup_insert_eq. by rewrite Hl.
Qed.

Lemma copy_good u data : good u -> calling u = Allocated data -> exists u', text_copy data u = Ret (tt, u') /\ good u'.
Proof.
  intros [Hp He Hs Hk Hc] Hcl. rewrite Hcl in Hk. destruct Hk as (Hp0 & Hlt & old & Hh & Hl).
  unfold text_copy. unfold_st. rewrite Hh, upd_range_0 by lia. unfold_st.
  eexists. split; [reflexivity|]. split; cbn; try done.
  - intros Hev. destruct (He Hev) as (_ & ? & _). congruence.
  - intros Hsn. destruct (Hs Hsn) as [? _]. congruence.
  - split; [done|]. split; [done|]. eexists. cbn. rewrite lookup_insert_eq. split; [done|].
    rewrite length_app, length_drop. lia.
Qed.

Lemma event_good u : good u -> calling u = Copied -> exists u', text_event u = Ret (tt, u') /\ good u'.
Proof.
  intros [Hp He Hs Hk Hc] Hcl. rewrite Hcl in Hk. unfold text_event, rt_event_send. unfold_st.
  eexists. split; [reflexivity|]. split; cbn; try done.
  - intros _. split; [|done]. destruct (sending u) eqn:E; [|done]. destruct (Hs eq_refl) as [? _]. congruence.
  - intros Hsn. destruct (Hs Hsn) as [? _]. congruence.
Qed.

Lemma exec_good u o : good u -> permitted u o ->
  if asserts o then exists u', exec o u = Ret (tt, u') /\ good u' else exec o u = Err AssertFail.
Proof.
  intros Hg Ho. destruct o as [b|p junk data| | |second| |]; unfold exec; rewrite st_get_bind; cbn [asserts].
  - by apply byte_good.
  - by apply (alloc_good u p junk data).
  - destruct (calling u) eqn:E; [by eexists|by apply copy_good|by eexists].
  - destruct (calling u) eqn:E; [by eexists..|by apply event_good].
  - destruct Hg as [Hp He Hs Hk Hc]. unfold rt_event_send. eexists. split; [reflexivity|].
    split; cbn; try done. by rewrite has_rfid.
  - destruct (sending u) eqn:E; [by eexists|by apply turn_good].
  - destruct (sending u) eqn:E; [by apply sent_good|by eexists].
Qed.
End Lcd.

(** ** Properties *)

(** C39: what the advertising screen's receiver makes of any stream of bytes, while
    the thread looks into the mailbox at any moments (after each of the stretches
    [segs]).  A frame is what comes between two flags 7E with something between them;
    the closing flag of a frame opens none, and what comes outside of frames is
    dropped ([frames], read off the stretches between the flags).  When the frames
    fit the receiver's buffer, the scanner completes exactly these frames, each whole
    in the buffer when its closing flag arrives, and the thread finds in the mailbox,
    which holds one message, the length of the first frame that was closed since it
    last looked: the others are lost.  When a frame does not fit, the code, which does
    not test its index (AdscreenAPP.c:19), writes behind the buffer. *)
Theorem frames_delivered n segs a :
  length (Scan.SaveBuf (Ads.scn a)) = n -> (2 <= n)%nat -> Z.of_nat n < 65536 ->
  Scan.couter (Ads.scn a) = 0 -> Ads.ADS_MB a = None -> Forall byte (concat segs) ->
  let x := Scan.frames (concat segs) in
  if decide (Scan.fits n x) then
    exists a', Ads.serve segs a = Ret (Ads.mails [] segs, a') /\
      Scan.steps (concat segs) (Ads.scn a) = Ret (Scan.frame <$> x.1, Ads.scn a')
  else Ads.serve segs a = Err OutOfBounds.
Proof.
  intros Hl Hn Hmax Hc Hm Hb x.
  assert (H := Ads.mail_serve_run n segs Hn Hmax Hb [] a ltac:(by split) ltac:(by split) Hm).
  cbn [app] in H. fold x in H. case_decide; [|done].
  destruct H as (new & a' & E & Hx & Hs). exists a'. split; [done|]. by rewrite Hx.
Qed.

(** the advertising thread: it repeats the version query and then the
    power-on message until each is answered, however often they time out; then
    every text given to it is sent once, complete and in order, as a 0x40
    message, and its memory is released. *)
Theorem ads_session n m l v w texts a :
  Ads.ADS_MB a = None -> Ads.state a = 1 -> Ads.pc a = Ads.WaitVersion -> Ads.idle a l ->
  Z.of_nat (length (userData w)) = dPCPuserDataSize -> CMD w = dCmd_PowerOn ->
  Forall (fun t => t.1 <> 0 /\ Ads.heap a !! t.1 = None /\
    Z.of_nat (length t.2) < dPCPuserDataSize) texts ->
  exists a' ms1 ms2,
    (_ ← (_ ← Ads.timeouts n; _ ← Ads.reply l (true, v); _ ← Ads.timeouts m; Ads.reply l (true, w));
     Ads.show_all texts l (true, w)) a = Ret (tt, a') /\
    Ads.sent a' = Ads.sent a ++ ms1 ++ ms2 /\
    CMD <$> ms1 = replicate n dCmd_Version ++ [dCmd_PowerOn] ++ replicate m dCmd_PowerOn /\
    pcp_text <$> ms2 = texts.*2 /\ Forall (fun x => CMD x = Ads.dCMD_MESSAGE) ms2 /\
    Ads.heap a' = Ads.heap a.
Proof.
  intros Hmb Hst Hpc Hi Hw Hcw Ht.
  destruct (Ads.handshake_run n m l a v w Hmb Hst Hpc Hi Hw Hcw)
    as (a1 & ms1 & Hrun & Hr & Hi1 & Hh & Hs & Hms).
  destruct (Ads.show_all_run texts l (true, w) a1 Hr Hi1 Hw)
    as (a2 & ms2 & Hrun2 & _ & _ & Hh2 & Hs2 & Htx & Hcm); [by rewrite Hh|].
  exists a2, ms1, ms2. split_and!; [|by rewrite Hs2, Hs, <- app_assoc|done|done|done|congruence].
  by rewrite (st_bind_run _ _ _ _ _ Hrun).
Qed.

(** [pADText] keeps pointing to the text after it has been freed: any
    frame the screen sends on its own while the thread waits for the next text
    makes it print the freed text and free it again. *)
Lemma ads_spurious_frame a l u :
  Ads.ready a -> Ads.idle a l -> Ads.pADText a <> 0 -> Ads.heap a !! Ads.pADText a = None ->
  Ads.reply l u a = Err UseAfterFree.
Proof.
  intros (Hpc & Hst & Hmb & Hud) Hi Hp Hh.
  destruct (Ads.reply_run a l u Hi Hmb) as (buf & v & _ & ->).
  unfold Ads.ads_resume, Ads.rt_mb_recv, Ads.show_text. unfold_st.
  cbn [Ads.ADS_MB Ads.with_mb Ads.with_scn Ads.pc Ads.with_pcp Ads.pADText Ads.heap].
  rewrite Hpc. cbn [Ads.pADText Ads.with_mb Ads.with_scn Ads.with_pcp Ads.heap].
  by rewrite (proj2 (Z.eqb_neq _ _) Hp), Hh.
Qed.

(** C29: the LCD component does not touch freed memory or leave its arrays, in any
    interleaving of bytes from the screen, the steps of [LCD_Get_text] (allocation,
    copy, event) in another thread, the RFID events and the thread, which is
    interrupted in [control] between reading [pText] and freeing it; the only stops
    are the assertions of [LCD_Get_text] (a text of 255 bytes or more, no memory).
    This holds for the interleavings [permitted]: the bytes fit the receive buffer
    (LCDAPP.c:46 does not test its index), and a text is only given when the one
    before has been taken, shown and freed.  The code does not see to either; a text
    given while another is being sent makes it free memory twice
    ([lcd_text_race]). *)
Theorem lcd_safe buf junk u o :
  Z.of_nat (length (userData junk)) = dPCPuserDataSize ->
  Lcd.reach buf junk u -> Lcd.permitted u o ->
  if Lcd.asserts o then exists u', Lcd.exec o u = Ret (tt, u') /\ Lcd.reach buf junk u'
  else Lcd.exec o u = Err AssertFail.
Proof.
  intros Hj Hu Ho.
  assert (Lcd.good u) as Hg.
  { clear o Ho. induction Hu as [u Hs|u o u' Hu IH Ho Hex].
    - unfold Lcd.lcd_start in Hs.
      destruct (Lcd.lcd_show_run (Lcd.with_pcp (Lcd.mkLcd (Scan.mkScan buf 0) 0 junk 0 0 ∅ [] false Lcd.Nobody)
        (mkPCP 0x78 0x1234 0x56 0x07 (userData junk) (psize junk))) Lcd.greeting) as (p & Hr & Hp & _);
        [done|done|].
      revert Hs. unfold_st. cbn [Lcd.pcp]. rewrite Hr. intros [= <-]. by split.
    - assert (H := Lcd.exec_good u o IH Ho). destruct (Lcd.asserts o); [|congruence].
      destruct H as (u2 & Hex2 & Hg2). congruence. }
  assert (H := Lcd.exec_good u o Hg Ho). destruct (Lcd.asserts o); [|done].
  destruct H as (u' & Hex & _). exists u'. split; [done|]. by eapply Lcd.reach_step.
Qed.

(** The loop clears all four events but handles only the lowest one: when
    a frame from the screen and a text are pending together, the text is never
    shown and its memory is not released. *)
Lemma lcd_event_lost u :
  Lcd.has (Lcd.LCD_Event u) 1 = true -> Lcd.LCD_Event u <= 0xf -> 0 <= Lcd.LCD_Event u ->
  Lcd.lcd_turn u = Ret (true, Lcd.with_event u 0).
Proof.
  intros H Hle H0. unfold Lcd.lcd_turn. unfold_st. unfold Lcd.LCD_EVENTS.
  assert (exists k, Lcd.LCD_Event u = Z.of_nat k /\ (k < 16)%nat) as (k & Hk & Hlt)
    by (exists (Z.to_nat (Lcd.LCD_Event u)); lia).
  assert ((Z.land (Z.of_nat k) 15 =? 0) = false /\
    Lcd.has (Z.land (Z.of_nat k) 15) (Z.shiftl 1 0) = true /\ Z.ldiff (Z.of_nat k) 15 = 0)
    as (H1 & H2 & H3).
  { rewrite Hk in H. clear Hk Hle H0.
    do 16 (destruct k as [|k]; [first [discriminate H | split_and!; reflexivity]|]). lia. }
  rewrite Hk, H1, H2. unfold_st. by rewrite Hk, H3.
Qed.

(** ** Witnesses *)

Definition pcp0 : PCPsrtuctTypedef := mkPCP 0 0 1 dCmd_PowerOn (replicate 255 0) 0.

(** The component as it waits for the answer to its first version query. *)
Definition ads0 : Ads.ads :=
  Ads.mkAds (Scan.mkScan (replicate 64 0) 0) None Ads.WaitVersion 1 pcp0 0 0 ∅ [].

(** Two flags in a row, a frame that comes in two parts, and one that is lost. *)
Lemma frames_witness : exists a',
  Ads.serve [[1; 0x7e; 0x7e; 3]; [4; 0x7e; 9; 0x7e; 5; 0x7e]; [6]] ads0 = Ret ([None; Some 4; None], a') /\
  Scan.steps [1; 0x7e; 0x7e; 3; 4; 0x7e; 9; 0x7e; 5; 0x7e; 6] (Ads.scn ads0) =
    Ret ([Scan.frame [3; 4]; Scan.frame [5]], Ads.scn a').
Proof.
  apply (frames_delivered 64 [[1; 0x7e; 0x7e; 3]; [4; 0x7e; 9; 0x7e; 5; 0x7e]; [6]] ads0);
    [exact (length_replicate 64 0)|lia|lia|reflexivity|reflexivity|].
  cbn. repeat (apply Forall_cons; split; [unfold byte; lia|]). by apply Forall_nil.
Defined.

Lemma ads_idle0 : Ads.idle ads0 [1; 2].
Proof.
  split_and!; try done; cbn; try lia. split; [done|].
  repeat (apply Forall_cons; split; [lia|]). by apply Forall_nil.
Qed.

Lemma ads_session_witness : exists a' ms1 ms2,
  (_ ← (_ ← Ads.timeouts 2; _ ← Ads.reply [1; 2] (true, pcp0); _ ← Ads.timeouts 1;
        Ads.reply [1; 2] (true, pcp0));
   Ads.show_all [(1000, str "hello"); (2000, str "world")] [1; 2] (true, pcp0)) ads0 = Ret (tt, a') /\
  Ads.sent a' = Ads.sent ads0 ++ ms1 ++ ms2 /\
  CMD <$> ms1 = replicate 2 dCmd_Version ++ [dCmd_PowerOn] ++ replicate 1 dCmd_PowerOn /\
  pcp_text <$> ms2 = [str "hello"; str "world"] /\ Forall (fun x => CMD x = Ads.dCMD_MESSAGE) ms2 /\
  Ads.heap a' = Ads.heap ads0.
Proof.
  apply (ads_session 2 1 [1; 2] pcp0 pcp0 [(1000, str "hello"); (2000, str "world")] ads0);
    [reflexivity|reflexivity|reflexivity|exact ads_idle0|reflexivity|reflexivity|].
  repeat (apply Forall_cons; split; [split_and!; [done|reflexivity|reflexivity]|]). by apply Forall_nil.
Defined.

Lemma ads_spurious_witness : Ads.reply [1; 2] (true, pcp0)
  (Ads.mkAds (Scan.mkScan (replicate 64 0) 0) None Ads.WaitText 4 pcp0 1000 0 ∅ []) = Err UseAfterFree.
Proof.
  apply ads_spurious_frame; [by split_and!|exact ads_idle0|done|reflexivity].
Defined.

(** The start, and an interleaving in which a second text is given while the first is
    being sent: the thread frees the second text, and then frees it again. *)
Definition lcd0 : Lcd.lcd := Lcd.mkLcd (Scan.mkScan (replicate 64 0) 0) 0 pcp0 0 0 ∅ [] false Lcd.Nobody.

Example lcd_text_race :
  (_ ← Lcd.lcd_start;
   Lcd.execs [Lcd.OText 1000 [9; 9] [65; 66]; Lcd.OCopy; Lcd.OEvent; Lcd.OTurn;
              Lcd.OText 2000 [9] [67]; Lcd.OCopy; Lcd.OEvent; Lcd.OSent; Lcd.OTurn; Lcd.OSent]) lcd0
    = Err UseAfterFree.
Proof. by vm_compute. Qed.

(** The receive buffer is written behind its end by a long frame. *)
Example lcd_overflow : Lcd.execs (Lcd.OByte 0x7e :: replicate 64 (Lcd.OByte 1)) lcd0 = Err OutOfBounds.
Proof. by vm_compute. Qed.

Lemma lcd_safe_witness : exists u u', Lcd.reach (replicate 64 0) pcp0 u /\
  Lcd.exec (Lcd.OText 1000 [9; 9; 9; 9; 9] (str "hello")) u = Ret (tt, u') /\ Lcd.reach (replicate 64 0) pcp0 u'.
Proof.
  assert (exists u, Lcd.reach (replicate 64 0) pcp0 u /\ Lcd.heap u = ∅ /\ Lcd.calling u = Lcd.Nobody /\
    Lcd.sending u = false /\ Lcd.has (Lcd.LCD_Event u) 2 = false) as (u & Hu & Hh & Hc & Hs & He).
  { eexists. split; [apply Lcd.reach_start; vm_compute; reflexivity|split_and!; reflexivity]. }
  destruct (lcd_safe (replicate 64 0) pcp0 u (Lcd.OText 1000 [9; 9; 9; 9; 9] (str "hello")) eq_refl Hu) as (u' & H).
  { cbn. rewrite Hh, Hc, Hs, He. split_and!; try reflexivity. intros _. split; reflexivity. }
  exists u, u'. split; [exact Hu|exact H].
Defined.

Lemma lcd_lost_witness : exists u,
  Lcd.lcd_turn u = Ret (true, Lcd.with_event u 0) /\ Lcd.LCD_Event u = 3.
Proof.
  exists (Lcd.mkLcd (Scan.mkScan [] 0) 3 pcp0 1000 1 {[1000 := [65]]} [] false Lcd.Nobody).
  split; [apply lcd_event_lost; [reflexivity|cbn; lia|cbn; lia]|reflexivity].
Defined.
