(* ===== verification/Camera.v ===== *)
(** * The camera

    [src/MySouce/PCP/CameraAPP.c], [Camera_drive.h]: the receiver of picture
    packets (8 bytes of header, 1024 of data, checksum, CR LF; the last packet
    is shorter and its data end in 0xD9) and the thread that appends the data
    to a file and requests the next packet. *)

From S2P Require Import Prelude.

Open Scope Z_scope.

Definition dImagePacketSizeH : Z := 0x04.
Definition dImagePacketSizeL : Z := 0x00.
Definition dTakePhoto640480CMD : Z := 3.
Definition dReadNextPhotoDataCMD : Z := 4.
Definition dPartOfdata : Z := 2.
Definition dEndChars : Z := 3.
Definition dNoneDatapart : Z := 4.
Definition cameraBufSize : Z := 2048.

(** ** State *)

Record camera := mkCam {
  buf : list Z;                    (**r [CameraDataTypedef.buf] *)
  size : Z;
  pData : option Z;                (**r [pData - buf]; [None] is [RT_NULL] *)
  index : Z;
  checkSum8 : Z;
  endFlage : Z;
  CameraEV : Z;                    (**r the event set *)
  file : list Z;                   (**r [/Picture/Camera1.jpg] *)
  photos : list (Z * list Z);      (**r renamed files, by time *)
  commands : list Z                (**r [Camera->control] *)
}.

Definition with_rx (c : camera) b p i k e :=
  mkCam b (size c) p i k e (CameraEV c) (file c) (photos c) (commands c).
Definition with_size (c : camera) n :=
  mkCam (buf c) n (pData c) (index c) (checkSum8 c) (endFlage c) (CameraEV c) (file c) (photos c) (commands c).
Definition with_event (c : camera) e :=
  mkCam (buf c) (size c) (pData c) (index c) (checkSum8 c) (endFlage c) e (file c) (photos c) (commands c).
Definition with_file (c : camera) f p :=
  mkCam (buf c) (size c) (pData c) (index c) (checkSum8 c) (endFlage c) (CameraEV c) f p (commands c).
Definition with_commands (c : camera) l :=
  mkCam (buf c) (size c) (pData c) (index c) (checkSum8 c) (endFlage c) (CameraEV c) (file c) (photos c) l.

(** ** Reception *)

(** [*pData++=Data] *)
Definition store (Data : Z) : ST camera Z :=
  c ← get;
  match pData c with
  | None => lift (Err NullDeref)
  | Some p =>
      b ← lift (upd (buf c) p Data);
      _ ← modify (fun c => with_rx c b (Some (p + 1)) (index c) (checkSum8 c) (endFlage c));
      mret (p + 1)
  end.

(** The end of a packet: [size = index], and back to the start of the buffer
    ([keep] the checksum or reset it). *)
Definition packet_end (keep : bool) : ST camera unit :=
  modify (fun c => with_rx (with_size c (index c)) (buf c) (Some 0) 0
                     (if keep then checkSum8 c else 0) 0).

Definition set_endFlage (e : Z) : ST camera unit :=
  modify (fun c => with_rx c (buf c) (pData c) (index c) (checkSum8 c) e).

(** The first call finds the buffer ([if(pData==RT_NULL)]). *)
Definition first_call : ST camera unit :=
  c ← get;
  match pData c with
  | None => modify (fun c => with_rx (with_size c 0) (buf c) (Some 0) (index c) (checkSum8 c) (endFlage c))
  | Some _ => mret tt
  end.

Definition CameraData (Data : Z) : ST camera Z :=
  _ ← first_call;
  _ ← modify (fun c => with_rx c (buf c) (pData c) (u16 (index c + 1)) (checkSum8 c) (endFlage c));
  c ← get;
  if cameraBufSize + 11 <? index c then
    _ ← lift (RT_ASSERT (index c <? cameraBufSize + 11)); mret 0
  else if Data =? 13 then _ ← store Data; _ ← set_endFlage 1; mret 0
  else if Data =? 10 then
    p ← store Data;
    let rest := _ ← set_endFlage 0; mret 0 in
    if endFlage c =? 1 then
      if index c <=? 9 then _ ← packet_end false; mret dNoneDatapart
      else if index c =? Z.lor (Z.shiftl dImagePacketSizeH 8) dImagePacketSizeL + 11 then
        _ ← packet_end true; mret dPartOfdata
      else
        c ← get;
        x ← lift (idx (buf c) (p - 4));
        if x =? 0xD9 then _ ← packet_end true; mret dEndChars else rest
    else rest
  else
    _ ← store Data;
    _ ← modify (fun c => with_rx c (buf c) (pData c) (index c) (u8 (checkSum8 c + Data)) (endFlage c));
    mret 0.

Definition Camera_input (sz : Z) : ST camera Z :=
  ret ← CameraData (u8 sz);
  _ ← (if negb (ret =? 0) then modify (fun c => with_event c (Z.lor (CameraEV c) (Z.shiftl 1 ret)))
       else mret tt);
  mret 0.

Fixpoint Camera_inputs (bs : list Z) : ST camera unit :=
  match bs with [] => mret tt | b :: bs => _ ← Camera_input b; Camera_inputs bs end.

(** ** The thread *)

Definition control (cmd : Z) : ST camera unit :=
  modify (fun c => with_commands c (commands c ++ [cmd])).

(** What the file system and the clock answer in one turn of the loop: whether the
    file could be opened, how many bytes of the write were stored (none when it
    failed), and, when there is a clock device, its time and whether the file could
    be renamed. *)
Record turn := mkTurn { opened : bool; stored : nat; clock : option (Z * bool) }.

(** [write(fd, buf+8, size-11)]: the count is unsigned, so a negative one runs
    off the buffer.  A write that stores less than it was given is reported and not
    repeated. *)
Definition append_data (stored : nat) : ST camera unit :=
  c ← get;
  if (0 <=? size c - 11) && (8 + (size c - 11) <=? cameraBufSize + 11) then
    modify (fun c => with_file c
      (file c ++ take stored (take (Z.to_nat (size c - 11)) (drop 8 (buf c)))) (photos c))
  else lift (Err OutOfBounds).

(** [rename], whose result is not tested. *)
Definition store_picture (clock : option (Z * bool)) : ST camera unit :=
  match clock with
  | Some (now, true) => modify (fun c => with_file c [] (photos c ++ [(now, file c)]))
  | Some (_, false) | None => mret tt
  end.

Definition EVENTS : Z := Z.lor (Z.lor (Z.shiftl 1 1) (Z.shiftl 1 2)) (Z.lor (Z.shiftl 1 3) (Z.shiftl 1 4)).

Definition has (x f : Z) : bool := negb (Z.land x f =? 0).

(** One iteration: [Some false] while blocked, [None] when opening the file
    failed and the loop is left. *)
Definition camera_iter (t : turn) : ST camera (option bool) :=
  c ← get;
  let Vaule := Z.land (CameraEV c) EVENTS in
  if Vaule =? 0 then mret (Some false)
  else
    _ ← modify (fun c => with_event c (Z.ldiff (CameraEV c) EVENTS));
    let part := has Vaule (Z.shiftl 1 2) || has Vaule (Z.shiftl 1 3) in
    if part && negb (opened t) then mret None
    else
      _ ← (if part then
             _ ← append_data (stored t);
             _ ← modify (fun c => with_size c 0);
             control dReadNextPhotoDataCMD
           else mret tt);
      _ ← (if has Vaule (Z.shiftl 1 4) then
             _ ← store_picture (clock t);
             _ ← modify (fun c => with_size c 0);
             control dTakePhoto640480CMD
           else mret tt);
      mret (Some true).

(** The thread before its loop. *)
Definition camera_start : ST camera unit := control dTakePhoto640480CMD.

(** ** Bounds *)

Lemma first_call_run c :
  default 0 (pData c) = index c ->
  exists c1, first_call c = Ret (tt, c1) /\
    buf c1 = buf c /\ pData c1 = Some (index c) /\ index c1 = index c /\ endFlage c1 = endFlage c /\
    CameraEV c1 = CameraEV c /\ file c1 = file c /\ photos c1 = photos c /\ commands c1 = commands c.
Proof.
  intros Hpos. unfold first_call. unfold_st.
  destruct (pData c) as [p|] eqn:Hp; cbn in Hpos; subst; (eexists; split; [reflexivity|]); cbn;
    split_and!; congruence.
Qed.

Lemma store_run d c p :
  pData c = Some p -> 0 <= p < Z.of_nat (length (buf c)) ->
  store d c = Ret (p + 1,
    with_rx c (<[Z.to_nat p := d]> (buf c)) (Some (p + 1)) (index c) (checkSum8 c) (endFlage c)).
Proof. intros Hp Hr. unfold store. unfold_st. rewrite Hp, upd_ok by done. done. Qed.

(** The write position is the number of bytes received. *)
Record rx_ok (c : camera) : Prop := {
  rx_len : Z.of_nat (length (buf c)) = cameraBufSize + 11;
  rx_pos : default 0 (pData c) = index c;
  rx_index : 0 <= index c <= cameraBufSize + 11
}.

Lemma CameraData_ok Data c :
  rx_ok c ->
  CameraData Data c = Err AssertFail \/
  exists r c', CameraData Data c = Ret (r, c') /\ rx_ok c' /\ (r <> 0 -> size c' <= cameraBufSize + 11).
Proof.
  intros [Hlen Hpos Hidx]. unfold cameraBufSize in *. unfold CameraData. unfold_st.
  destruct (first_call_run c Hpos) as (c1 & Hc1 & Hb & Hp & Hi & _).
  rewrite Hc1. cbn [index with_rx].
  rewrite Hi, wrap_id by (cbn; lia). unfold cameraBufSize.
  destruct (Z.ltb_spec (2048 + 11) (index c + 1)) as [Hov|Hov].
  { left. unfold RT_ASSERT. by rewrite (proj2 (Z.ltb_ge _ _)) by lia. }
  right. unfold set_endFlage, packet_end. unfold_st. cbn [endFlage with_rx].
  match goal with |- context [(if Data =? 13 then _ else _) ?x] => set (c2 := x) end.
  assert (Hst : store Data c2 = Ret (index c + 1, with_rx c2 (<[Z.to_nat (index c) := Data]> (buf c))
    (Some (index c + 1)) (index c2) (checkSum8 c2) (endFlage c2))).
  { rewrite (store_run _ _ (index c)); [by rewrite <- Hb|done|cbn; rewrite Hb; lia]. }
  assert (Hl2 : length (<[Z.to_nat (index c) := Data]> (buf c)) = length (buf c)) by apply length_insert.
  destruct (Data =? 13); [|destruct (Data =? 10)]; rewrite Hst; cbn [index c2 with_rx].
  - eexists _, _. split; [reflexivity|]. split; [|done].
    split; cbn; unfold cameraBufSize; lia.
  - destruct (endFlage c1 =? 1).
    + destruct (Z.leb_spec (index c + 1) 9).
      { eexists _, _. split; [reflexivity|]. split; [|cbn; unfold cameraBufSize; lia].
        split; cbn; unfold cameraBufSize; lia. }
      destruct (index c + 1 =? _).
      { eexists _, _. split; [reflexivity|]. split; [|cbn; unfold cameraBufSize; lia].
        split; cbn; unfold cameraBufSize; lia. }
      destruct (idx_ok (<[Z.to_nat (index c) := Data]> (buf c)) (index c + 1 - 4)) as [x Hx]; [lia|].
      unfold_st. cbn [buf with_rx]. rewrite Hx. unfold_st. destruct (x =? 217).
      { eexists _, _. split; [reflexivity|]. split; [|cbn; unfold cameraBufSize; lia].
        split; cbn; unfold cameraBufSize; lia. }
      eexists _, _. split; [reflexivity|]. split; [|done]. split; cbn; unfold cameraBufSize; lia.
    + eexists _, _. split; [reflexivity|]. split; [|done]. split; cbn; unfold cameraBufSize; lia.
  - eexists _, _. split; [reflexivity|]. split; [|done]. split; cbn; unfold cameraBufSize; lia.
Qed.

(** ** Packets *)

(** [pre] has been received since the start of the packet. *)
Record rx_at (c : camera) (pre : list Z) : Prop := {
  at_buf : take (length pre) (buf c) = pre;
  at_len : Z.of_nat (length (buf c)) = cameraBufSize + 11;
  at_pos : default 0 (pData c) = index c;
  at_index : index c = Z.of_nat (length pre)
}.

(** What one byte does to the receiver, in all cases. *)
Lemma CameraData_step b c pre :
  rx_at c pre -> Z.of_nat (length pre) < cameraBufSize + 11 ->
  let n := Z.of_nat (length pre) + 1 in
  let done_ r sz := exists c', CameraData b c = Ret (r, c') /\ rx_at c' [] /\ size c' = sz /\
     endFlage c' = 0 /\ take (length pre + 1) (buf c') = pre ++ [b] /\ CameraEV c' = CameraEV c /\
     file c' = file c /\ photos c' = photos c /\ commands c' = commands c in
  let cont e := exists c', CameraData b c = Ret (0, c') /\ rx_at c' (pre ++ [b]) /\
     endFlage c' = e /\ CameraEV c' = CameraEV c /\
     file c' = file c /\ photos c' = photos c /\ commands c' = commands c in
  if b =? 13 then cont 1
  else if b =? 10 then
    if endFlage c =? 1 then
      if n <=? 9 then done_ dNoneDatapart n
      else if n =? 1035 then done_ dPartOfdata n
      else if bool_decide (pre !! (length pre - 3)%nat = Some 0xD9) then done_ dEndChars n
      else cont 0
    else cont 0
  else cont (endFlage c).
Proof.
  intros [Hbuf Hlen Hpos Hidx] Hlt n done_ cont. unfold cameraBufSize in *.
  assert (Hs : forall rest, <[length pre := b]> (pre ++ rest) = pre ++ <[0%nat := b]> rest)
    by (intros; rewrite insert_app_r_alt, Nat.sub_diag; done).
  destruct (drop (length pre) (buf c)) as [|x rest] eqn:Hd.
  { apply (f_equal length) in Hd. rewrite length_drop in Hd. cbn in Hd. lia. }
  assert (Hb : buf c = pre ++ x :: rest) by (rewrite <- Hd, <- Hbuf at 1; by rewrite Hbuf, <- Hbuf, take_drop at 1).
  assert (Hins : <[Z.to_nat (Z.of_nat (length pre)) := b]> (buf c) = (pre ++ [b]) ++ rest)
    by (rewrite Nat2Z.id, Hb, Hs; cbn; by rewrite <- app_assoc).
  destruct (first_call_run c Hpos) as (c1 & Hc1 & Hb1 & Hp1 & Hi1 & He1 & Hv1 & Hf1 & Hph1 & Hcm1).
  assert (Hlen2 : length ((pre ++ [b]) ++ rest) = length (buf c)) by (rewrite Hb, !length_app; cbn; lia).
  assert (Hl3 : length (pre ++ [b]) = S (length pre)) by (rewrite length_app; cbn; lia).
  assert (Htk : take (length pre + 1) ((pre ++ [b]) ++ rest) = pre ++ [b])
    by (rewrite take_app_length'; [done|lia]).
  subst done_ cont. unfold CameraData. unfold_st. rewrite Hc1. cbn [index with_rx].
  rewrite Hi1, Hidx, wrap_id by (cbn; lia). unfold cameraBufSize.
  rewrite (proj2 (Z.ltb_ge _ _)) by lia.
  unfold set_endFlage, packet_end. unfold_st. cbn [endFlage with_rx]. rewrite He1.
  match goal with |- context [(if b =? 13 then _ else _) ?x] => set (c2 := x) end.
  assert (Hst : store b c2 = Ret (n, with_rx c2 ((pre ++ [b]) ++ rest) (Some n) n (checkSum8 c2) (endFlage c))).
  { rewrite (store_run _ _ (Z.of_nat (length pre)));
      [|cbn; by rewrite Hp1, Hidx|cbn; rewrite Hb1; lia].
    unfold n. cbn. by rewrite Hb1, Hins. }
  assert (Hcont : forall k e, rx_at (with_rx (with_rx c1 (buf c1) (pData c1) n (checkSum8 c1) (endFlage c1))
      ((pre ++ [b]) ++ rest) (Some n) n k e) (pre ++ [b])).
  { intros k e. split; cbn; unfold cameraBufSize.
    - rewrite take_app_length. done.
    - lia.
    - done.
    - unfold n. lia. }
  assert (Hdone : forall cc, buf cc = (pre ++ [b]) ++ rest -> default 0 (pData cc) = 0 -> index cc = 0 -> rx_at cc []).
  { intros cc H1 H2 H3. split; cbn; [done|rewrite H1; unfold cameraBufSize; lia|congruence|done]. }
  destruct (b =? 13); [|destruct (b =? 10)]; rewrite Hst; fold n; cbn [index c2 with_rx]; fold n.
  - eexists. split; [reflexivity|]. split_and!; cbn; done || apply Hcont.
  - destruct (endFlage c =? 1).
    2: { eexists. split; [reflexivity|]. split_and!; cbn; done || apply Hcont. }
    destruct (n <=? 9) eqn:Hn9.
    { eexists. split; [reflexivity|]. split_and!; cbn; try done. by apply Hdone. }
    change (Z.lor (dImagePacketSizeH ≪ 8) dImagePacketSizeL + 11) with 1035.
    destruct (n =? 1035).
    { eexists. split; [reflexivity|]. split_and!; cbn; try done. by apply Hdone. }
    apply Z.leb_gt in Hn9. unfold n in Hn9.
    destruct (lookup_lt_is_Some_2 pre (length pre - 3)) as [y Hy]; [lia|].
    unfold_st. cbn [buf with_rx]. rewrite (proj2 (idx_Ret _ _ y)).
    2: { split; [lia|]. replace (Z.to_nat (n - 4)) with (length pre - 3)%nat by (unfold n; lia).
         rewrite lookup_app_l by lia. by rewrite lookup_app_l by lia. }
    unfold_st. rewrite Hy. destruct (Z.eqb_spec y 217) as [->|Hne].
    + rewrite bool_decide_true by done.
      eexists. split; [reflexivity|]. split_and!; cbn; try done. by apply Hdone.
    + rewrite bool_decide_false by congruence.
      eexists. split; [reflexivity|]. split_and!; cbn; done || apply Hcont.
  - eexists. split; [reflexivity|]. split_and!; cbn; done || apply Hcont.
Qed.

(** No LF stands three places after a 0xD9: the receiver takes such a byte for the
    end of the packet when a CR came anywhere before it ([camera_cut]). *)
Definition quiet (l : list Z) : Prop :=
  forall i, l !! i = Some 10 -> l !! (i - 3)%nat <> Some 0xD9.

(** The body of a packet: header and data with the checksum. *)
Record body_ok (body : list Z) : Prop := {
  bo_byte : Forall byte body;
  bo_head : Forall (fun b => b <> 13) (take 8 body);
  bo_quiet : quiet body;
  bo_max : (length body <= 1033)%nat
}.

Definition unchanged (c c' : camera) : Prop :=
  CameraEV c' = CameraEV c /\ file c' = file c /\ photos c' = photos c /\ commands c' = commands c.

Lemma Camera_input_0 b c c' :
  byte b -> CameraData b c = Ret (0, c') -> Camera_input b c = Ret (0, c').
Proof.
  intros Hb H. unfold Camera_input. rewrite wrap_id by (unfold byte in Hb; cbn; lia).
  by rewrite (st_bind_run _ _ _ _ _ H).
Qed.

Lemma inputs_body l : forall c pre,
  rx_at c pre -> body_ok (pre ++ l) -> ((length pre <= 8)%nat -> endFlage c = 0) ->
  exists c', Camera_inputs l c = Ret (tt, c') /\ rx_at c' (pre ++ l) /\ unchanged c c' /\
    ((length (pre ++ l) <= 8)%nat -> endFlage c' = 0).
Proof.
  induction l as [|b l IH]; intros c pre Hat Hok He; cbn [Camera_inputs].
  - exists c. rewrite app_nil_r in *. done.
  - assert (Hb : (pre ++ b :: l) !! length pre = Some b) by by rewrite list_lookup_middle.
    assert (Hbyte : byte b) by (eapply Forall_lookup_1; [apply Hok|exact Hb]).
    assert (Hmax := bo_max _ Hok). rewrite length_app in Hmax. cbn in Hmax.
    assert (Hhead : (length pre < 8)%nat -> b <> 13).
    { intros Hlt. apply (Forall_lookup_1 (fun b => b <> 13) _ (length pre) b (bo_head _ Hok)).
      rewrite lookup_take. by rewrite decide_True by lia. }
    assert (exists c1, CameraData b c = Ret (0, c1) /\ rx_at c1 (pre ++ [b]) /\ unchanged c c1 /\
      ((S (length pre) <= 8)%nat -> endFlage c1 = 0)) as (c1 & Hrun & Hat1 & Hun1 & He1).
    { assert (H := CameraData_step b c pre Hat ltac:(unfold cameraBufSize; lia)). cbv zeta in H.
      destruct (Z.eqb_spec b 13) as [->|H13].
      - destruct H as (c1 & ? & ? & Hef & Hun). exists c1. split_and!; try done; try apply Hun.
        intros Hle. by destruct (Hhead ltac:(lia)).
      - destruct (Z.eqb_spec b 10) as [->|H10].
        + destruct (Z.eqb_spec (endFlage c) 1) as [Hef|Hef].
          * destruct (Z.leb_spec (Z.of_nat (length pre) + 1) 9); [rewrite He in Hef by lia; done|].
            destruct (Z.eqb_spec (Z.of_nat (length pre) + 1) 1035); [lia|].
            rewrite bool_decide_false in H.
            -- destruct H as (c1 & ? & ? & ? & Hun). exists c1. split_and!; try done; apply Hun.
            -- intros HD. apply (bo_quiet _ Hok _ Hb). rewrite lookup_app_l by lia. done.
          * destruct H as (c1 & ? & ? & ? & Hun). exists c1. split_and!; try done; apply Hun.
        + destruct H as (c1 & ? & ? & Hef & Hun). exists c1. split_and!; try done; try apply Hun.
          intros Hle. rewrite Hef. apply He. lia. }
    destruct (IH c1 (pre ++ [b])) as (c' & Hrun' & Hat' & Hun' & He').
    + done.
    + by rewrite <- app_assoc.
    + rewrite length_app. cbn. intros Hle. apply He1. lia.
    + exists c'. rewrite <- app_assoc in Hat', He'. cbn [app] in Hat', He'.
      rewrite (st_bind_run _ _ _ _ _ (Camera_input_0 b c c1 Hbyte Hrun)). split_and!; try done;
        destruct Hun1 as (? & ? & ? & ?), Hun' as (? & ? & ? & ?); unfold unchanged; split_and!; congruence.
Qed.

(** The kind of packet the terminator completes. *)
Definition kind (body : list Z) : Z :=
  let n := Z.of_nat (length body) + 2 in
  if n <=? 9 then dNoneDatapart
  else if n =? 1035 then dPartOfdata
  else if bool_decide (body !! (length body - 2)%nat = Some 0xD9) then dEndChars
  else 0.

Lemma packet_run body c :
  rx_at c [] -> endFlage c = 0 -> CameraEV c = 0 -> body_ok body -> kind body <> 0 ->
  (2 <= length body)%nat ->
  exists c', Camera_inputs (body ++ [13; 10]) c = Ret (tt, c') /\ rx_at c' [] /\ endFlage c' = 0 /\
    CameraEV c' = Z.shiftl 1 (kind body) /\ size c' = Z.of_nat (length body) + 2 /\
    take (length body + 2) (buf c') = body ++ [13; 10] /\
    file c' = file c /\ photos c' = photos c /\ commands c' = commands c.
Proof.
  intros Hat He Hev Hok Hk H2.
  destruct (inputs_body body c [] Hat Hok (fun _ => He)) as (c1 & Hrun1 & Hat1 & Hun1 & _).
  cbn [app] in Hat1. assert (Hmax := bo_max _ Hok).
  assert (Happ : forall l1 l2 x, Camera_inputs l1 c = Ret (tt, x) ->
    Camera_inputs (l1 ++ l2) c = Camera_inputs l2 x).
  { clear. intros l1. revert c. induction l1 as [|b l1 IH]; intros c l2 x; cbn [app Camera_inputs].
    - by intros [= ->].
    - unfold_st. destruct (Camera_input b c) as [[z y]|]; [|done]. apply IH. }
  rewrite (Happ _ _ _ Hrun1). clear Happ. cbn [Camera_inputs].
  assert (H13 := CameraData_step 13 c1 body Hat1 ltac:(unfold cameraBufSize; lia)). cbv zeta in H13.
  cbn [Z.eqb Pos.eqb] in H13. destruct H13 as (c2 & Hrun2 & Hat2 & He2 & Hun2).
  rewrite (st_bind_run _ _ _ _ _ (Camera_input_0 13 c1 c2 ltac:(unfold byte; lia) Hrun2)).
  assert (Hl2 : length (body ++ [13]) = S (length body)) by (rewrite length_app; cbn; lia).
  assert (H10 := CameraData_step 10 c2 (body ++ [13]) Hat2 ltac:(unfold cameraBufSize; lia)). cbv zeta in H10.
  cbn [Z.eqb Pos.eqb] in H10. rewrite He2, Hl2 in H10. cbn [Z.eqb Pos.eqb] in H10.
  unfold kind in *.
  replace (Z.of_nat (S (length body)) + 1) with (Z.of_nat (length body) + 2) in H10 by lia.
  replace (S (length body) - 3)%nat with (length body - 2)%nat in H10 by lia.
  rewrite lookup_app_l in H10 by lia. rewrite Nat.add_1_r in H10.
  replace (S (S (length body))) with (length body + 2)%nat in H10 by lia.
  rewrite <- app_assoc in H10. cbn [app] in H10.
  assert (forall r c', r <> 0 -> CameraData 10 c2 = Ret (r, c') -> (_ ← Camera_input 10; mret tt) c2 =
     Ret (tt, with_event c' (Z.lor (CameraEV c') (Z.shiftl 1 r)))) as Hin.
  { intros r c' Hr Hrun. unfold Camera_input. change (u8 10) with 10. unfold_st. rewrite Hrun.
    by rewrite (proj2 (Z.eqb_neq _ _) Hr). }
  destruct Hun1 as (Hu1 & Hu2 & Hu3 & Hu4), Hun2 as (Hv1 & Hv2 & Hv3 & Hv4).
  assert (forall r, r <> 0 -> (exists c', CameraData 10 c2 = Ret (r, c') /\ rx_at c' [] /\
      size c' = Z.of_nat (length body) + 2 /\ endFlage c' = 0 /\
      take (length body + 2) (buf c') = body ++ [13; 10] /\ CameraEV c' = CameraEV c2 /\
      file c' = file c2 /\ photos c' = photos c2 /\ commands c' = commands c2) ->
    exists c', (_ ← Camera_input 10; mret tt) c2 = Ret (tt, c') /\ rx_at c' [] /\ endFlage c' = 0 /\
      CameraEV c' = Z.shiftl 1 r /\ size c' = Z.of_nat (length body) + 2 /\
      take (length body + 2) (buf c') = body ++ [13; 10] /\
      file c' = file c /\ photos c' = photos c /\ commands c' = commands c) as Hfin.
  { intros r Hr (c' & Hrun & [? ? ? ?] & Hsz & Hef & Hbf & Hv & Hf & Hp & Hc).
    eexists. split; [by apply Hin|].
    cbn. split_and!; [by split|done| |done|done|congruence..].
    by rewrite Hv, Hv1, Hu1, Hev, Z.lor_0_l. }
  repeat case_match; solve [apply Hfin; [done|exact H10] | done].
Qed.

(** ** A whole picture *)

Lemma take_data (hdr data r : list Z) :
  length hdr = 8%nat -> take (length data) (drop 8 (hdr ++ data ++ r)) = data.
Proof. intros H. rewrite <- H, drop_app_length. apply take_app_length. Qed.

Lemma iter_part c hdr data ck k t :
  opened t = true ->
  CameraEV c = Z.shiftl 1 k -> k = dPartOfdata \/ k = dEndChars -> length hdr = 8%nat ->
  size c = Z.of_nat (length (hdr ++ data ++ [ck])) + 2 ->
  (length data <= 1024)%nat ->
  take (length (hdr ++ data ++ [ck]) + 2) (buf c) = (hdr ++ data ++ [ck]) ++ [13; 10] ->
  rx_at c [] -> endFlage c = 0 ->
  exists c', camera_iter t c = Ret (Some true, c') /\ rx_at c' [] /\ endFlage c' = 0 /\
    CameraEV c' = 0 /\ file c' = file c ++ take (stored t) data /\ photos c' = photos c /\
    commands c' = commands c ++ [dReadNextPhotoDataCMD].
Proof.
  intros Hopen Hev Hk Hh Hsz Hmax Hbuf [Ha1 Ha2 Ha3 Ha4] He.
  assert (Hn : length (hdr ++ data ++ [ck]) = (length data + 9)%nat)
    by (rewrite !length_app; cbn; lia).
  rewrite Hn in *.
  assert (Hd : take (Z.to_nat (size c - 11)) (drop 8 (buf c)) = data).
  { rewrite Hsz. replace (Z.to_nat (Z.of_nat (length data + 9) + 2 - 11)) with (length data) by lia.
    assert (length data = Nat.min (length data) (length data + 3)) as Hm by lia.
    rewrite Hm at 1. rewrite <- take_take.
    replace (length data + 3)%nat with ((length data + 9 + 2) - 8)%nat by lia.
    rewrite <- skipn_firstn_comm, Hbuf, <- !app_assoc. by apply take_data. }
  unfold camera_iter. unfold_st. rewrite Hev.
  assert ((Z.land (Z.shiftl 1 k) EVENTS =? 0) = false /\
    has (Z.land (Z.shiftl 1 k) EVENTS) (Z.shiftl 1 2) || has (Z.land (Z.shiftl 1 k) EVENTS) (Z.shiftl 1 3) = true /\
    has (Z.land (Z.shiftl 1 k) EVENTS) (Z.shiftl 1 4) = false /\ Z.ldiff (Z.shiftl 1 k) EVENTS = 0)
    as (E1 & E2 & E3 & E4) by (destruct Hk as [->| ->]; done).
  rewrite E1, E2, E3, Hopen. cbn [andb negb]. unfold append_data, control. unfold_st. cbn [size with_event].
  rewrite Hsz. unfold cameraBufSize.
  rewrite (proj2 (Z.leb_le _ _)), (proj2 (Z.leb_le _ _)) by lia. cbn [andb].
  eexists. split; [reflexivity|]. cbn [CameraEV with_commands with_size with_file with_event]. rewrite Hev, E4.
  split_and!; [by split|done|done| |done|done]. cbn. do 2 f_equal. exact Hd.
Qed.

(** Packets as the camera sends them. *)
Record part := mkPart { hdr : list Z; data : list Z; ck : Z }.
Definition part_body (p : part) : list Z := hdr p ++ data p ++ [ck p].
Definition part_bytes (p : part) : list Z := part_body p ++ [13; 10].

(** A full packet, or the last one. *)
Definition part_ok (p : part) : Prop :=
  length (hdr p) = 8%nat /\ body_ok (part_body p) /\
  (length (data p) = 1024%nat \/ (length (data p) < 1024)%nat /\ last (data p) = Some 0xD9).

(** The packets arrive one by one, the thread handling each before it asks for
    the next; [k] bytes of the packet's data are stored. *)
Fixpoint receive_parts (ps : list (part * nat)) : ST camera unit :=
  match ps with
  | [] => mret tt
  | (p, k) :: ps =>
      _ ← Camera_inputs (part_bytes p); _ ← camera_iter (mkTurn true k None); receive_parts ps
  end.

(** What the packets leave in the file. *)
Definition picture (ps : list (part * nat)) : list Z := concat ((fun '(p, k) => take k (data p)) <$> ps).

Record idle (c : camera) : Prop := {
  id_at : rx_at c [];
  id_end : endFlage c = 0;
  id_ev : CameraEV c = 0
}.

Lemma part_kind p : part_ok p -> kind (part_body p) = dPartOfdata \/ kind (part_body p) = dEndChars.
Proof.
  intros (Hh & Hok & Hd). unfold kind, part_body.
  assert (Hn : length (hdr p ++ data p ++ [ck p]) = (length (data p) + 9)%nat)
    by (rewrite !length_app; cbn; lia).
  rewrite Hn. rewrite (proj2 (Z.leb_gt _ _)) by lia.
  destruct Hd as [Hd|[Hd HD9]].
  - left. by rewrite Hd.
  - right. rewrite (proj2 (Z.eqb_neq _ _)) by lia. rewrite bool_decide_true; [done|].
    rewrite last_lookup in HD9. assert (Hlt := lookup_lt_Some _ _ _ HD9).
    replace (length (data p) + 9 - 2)%nat with (length (hdr p) + pred (length (data p)))%nat by lia.
    rewrite lookup_app_r by lia. rewrite Nat.add_comm, Nat.add_sub. by rewrite lookup_app_l by lia.
Qed.

Lemma receive_parts_run ps : forall c,
  idle c -> Forall part_ok ps.*1 ->
  exists c', receive_parts ps c = Ret (tt, c') /\ idle c' /\
    file c' = file c ++ picture ps /\ photos c' = photos c /\
    commands c' = commands c ++ replicate (length ps) dReadNextPhotoDataCMD.
Proof.
  induction ps as [|[p k] ps IH]; intros c [Ha He Hv] Hps; cbn [receive_parts].
  - exists c. cbn. rewrite !app_nil_r. split_and!; done.
  - apply Forall_cons in Hps as [Hp Hps]. cbn [fst] in Hp. assert (Hk := part_kind p Hp). destruct Hp as (Hh & Hok & Hd).
    destruct (packet_run (part_body p) c Ha He Hv Hok) as (c1 & Hrun & Ha1 & He1 & Hv1 & Hs1 & Hb1 & Hf1 & Hp1 & Hc1).
    { destruct Hk as [-> | ->]; done. }
    { unfold part_body. rewrite !length_app. lia. }
    rewrite (st_bind_run _ _ _ _ _ Hrun).
    destruct (iter_part c1 (hdr p) (data p) (ck p) _ (mkTurn true k None) eq_refl Hv1 Hk Hh Hs1)
      as (c2 & Hit & Ha2 & He2 & Hv2 & Hf2 & Hp2 & Hc2).
    { destruct Hd as [->|[Hd _]]; lia. } { exact Hb1. } { done. } { done. } cbn [stored] in Hf2.
    rewrite (st_bind_run _ _ _ _ _ Hit).
    destruct (IH c2) as (c' & Hr & Hi & Hf & Hph & Hcm); [by split|done|].
    exists c'. split_and!; [done|done| |congruence|].
    + rewrite Hf, Hf2, Hf1. cbn. by rewrite <- app_assoc.
    + rewrite Hcm, Hc2, Hc1. cbn. by rewrite <- app_assoc.
Qed.

(** ** Properties *)

Fixpoint CameraDatas (bs : list Z) : ST camera unit :=
  match bs with [] => mret tt | b :: bs => _ ← CameraData b; CameraDatas bs end.

(** whatever bytes arrive, the receiver never writes or reads outside its
    buffer of 2059 bytes: it stays within bounds, or stops at its own assertion
    when 2059 bytes have passed without the end of a packet. *)
Theorem camera_bounds bs c :
  rx_ok c ->
  CameraDatas bs c = Err AssertFail \/ exists c', CameraDatas bs c = Ret (tt, c') /\ rx_ok c'.
Proof.
  revert c. induction bs as [|b bs IH]; intros c H; cbn [CameraDatas].
  - right. by exists c.
  - unfold_st. destruct (CameraData_ok b c H) as [-> | (r & c' & -> & H' & _)]; [by left|auto].
Qed.

(** C15: a picture: full packets (1024 bytes of data) and a last one whose data
    end in 0xD9, received one by one and each handled by the thread (which opens the
    file) before the next, append to the file, in order, the part of their data that
    each write stores (all of it when the writes succeed), and one request for the
    next packet is sent for each; then the empty packet makes the thread put the file
    away under the time's name, when that rename succeeds, and take the next photo.
    When the rename fails, the next picture will be appended to this one.
    The packets are those the receiver recognises ([body_ok]): no CR in the header,
    and no LF three places behind a 0xD9 within the packet, which the code may take
    for the packet's end (CameraAPP.c:47, [camera_cut]). *)
Theorem camera_picture ps empty now renamed k c :
  idle c -> Forall part_ok ps.*1 ->
  body_ok empty -> (2 <= length empty <= 7)%nat ->
  exists c', (_ ← receive_parts ps; _ ← Camera_inputs (empty ++ [13; 10]);
              camera_iter (mkTurn true k (Some (now, renamed)))) c = Ret (Some true, c') /\
    (if renamed then photos c' = photos c ++ [(now, file c ++ picture ps)] /\ file c' = []
     else photos c' = photos c /\ file c' = file c ++ picture ps) /\
    commands c' = commands c ++ replicate (length ps) dReadNextPhotoDataCMD ++ [dTakePhoto640480CMD] /\
    idle c'.
Proof.
  intros Hi Hps He Hl. destruct (receive_parts_run ps c Hi Hps) as (c1 & Hr & [Ha1 He1 Hv1] & Hf & Hp & Hc).
  rewrite (st_bind_run _ _ _ _ _ Hr).
  assert (kind empty = dNoneDatapart) as Hk by (unfold kind; by rewrite (proj2 (Z.leb_le _ _)) by lia).
  destruct (packet_run empty c1 Ha1 He1 Hv1 He) as (c2 & Hrun & Ha2 & He2 & Hv2 & _ & _ & Hf2 & Hp2 & Hc2);
    [by rewrite Hk|lia|].
  rewrite (st_bind_run _ _ _ _ _ Hrun). rewrite Hk in Hv2. rewrite app_assoc, <- Hc, <- Hc2, <- Hf, <- Hf2, <- Hp, <- Hp2.
  unfold camera_iter. unfold_st. rewrite Hv2. cbn [andb]. unfold control, store_picture. unfold_st.
  cbn [clock]. destruct renamed; (eexists; split; [reflexivity|]);
    (split; [by split|split; [done|split; cbn; [by destruct Ha2; split|done|by rewrite Hv2]]]).
Qed.

(** When the file cannot be opened, the thread leaves its loop with the event
    taken and nothing stored or requested. *)
Lemma camera_open_failed c t : opened t = false ->
  has (Z.land (CameraEV c) EVENTS) (Z.shiftl 1 2) || has (Z.land (CameraEV c) EVENTS) (Z.shiftl 1 3) = true ->
  camera_iter t c = Ret (None, with_event c (Z.ldiff (CameraEV c) EVENTS)).
Proof.
  intros Ho Hp. unfold camera_iter. unfold_st. rewrite Ho, Hp. destruct (Z.eqb_spec (Z.land (CameraEV c) EVENTS) 0) as [E|]; [|done].
  by rewrite E in Hp.
Qed.

(** The shortest packet the receiver takes for the last one has 10 bytes;
    the thread then writes [size - 11], an unsigned -1, bytes from the
    buffer. *)
Lemma camera_short_end c :
  idle c ->
  (_ ← Camera_inputs ([1; 2; 3; 4; 5; 6; 0xD9; 7] ++ [13; 10]); camera_iter (mkTurn true 0 None)) c = Err OutOfBounds.
Proof.
  intros [Ha He Hv].
  assert (Hok : body_ok [1; 2; 3; 4; 5; 6; 0xD9; 7]).
  { split; [| | |cbn; lia].
    - repeat (apply Forall_cons; split; [unfold byte; lia|]). by apply Forall_nil.
    - cbn. repeat (apply Forall_cons; split; [lia|]). by apply Forall_nil.
    - intros i Hi. do 9 (destruct i as [|i]; [done|]). done. }
  destruct (packet_run _ c Ha He Hv Hok) as (c' & Hrun & _ & _ & Hv' & Hs' & _); [done|cbn; lia|].
  rewrite (st_bind_run _ _ _ _ _ Hrun). unfold camera_iter. cbn [stored]. unfold append_data. unfold_st.
  rewrite Hv'. change (kind _) with dEndChars.
  change (Z.land (Z.shiftl 1 dEndChars) EVENTS) with 8.
  change (8 =? 0) with false. change (has 8 (Z.shiftl 1 2) || has 8 (Z.shiftl 1 3)) with true.
  cbn [andb negb opened]. unfold_st. cbn [size with_event]. rewrite Hs'. done.
Qed.

(** ** Witnesses *)

Definition cam0 : camera := mkCam (replicate 2059 0) 0 None 0 0 0 0 [] [] [].

Lemma cam0_idle : idle cam0.
Proof. split; [|done|done]. split; [done| |done|done]. cbn [buf cam0]. by rewrite length_replicate. Qed.

Lemma camera_bounds_witness :
  CameraDatas [13; 10; 1; 2] cam0 = Err AssertFail \/
  exists c', CameraDatas [13; 10; 1; 2] cam0 = Ret (tt, c') /\ rx_ok c'.
Proof.
  apply camera_bounds. split; [|reflexivity|cbn; unfold cameraBufSize; lia].
  cbn [buf cam0]. rewrite length_replicate. reflexivity.
Defined.

Lemma small_ok (l : list Z) :
  bool_decide (Forall (fun b => 0 <= b < 256 /\ b <> 10 /\ b <> 13) l) = true ->
  (length l <= 1033)%nat -> body_ok l.
Proof.
  intros Hl%bool_decide_eq_true_1 Hm. split; [| | |done].
  - eapply Forall_impl; [exact Hl|]. unfold byte. cbn. lia.
  - apply Forall_take. eapply Forall_impl; [exact Hl|]. cbn. lia.
  - intros i Hi. apply (Forall_lookup_1 _ _ _ _ Hl) in Hi. cbn in Hi. lia.
Qed.

Lemma camera_picture_witness : exists c',
  (_ ← receive_parts [(mkPart [1; 2; 3; 4; 5; 6; 7; 8] [255; 216; 0; 217] 9, 4%nat)];
   _ ← Camera_inputs ([1; 2; 3] ++ [13; 10]); camera_iter (mkTurn true 0 (Some (77, true)))) cam0 = Ret (Some true, c') /\
  (photos c' = [(77, [255; 216; 0; 217])] /\ file c' = []) /\
  commands c' = [dReadNextPhotoDataCMD; dTakePhoto640480CMD] /\ idle c'.
Proof.
  apply (camera_picture [(mkPart [1; 2; 3; 4; 5; 6; 7; 8] [255; 216; 0; 217] 9, 4%nat)] [1; 2; 3] 77 true 0 cam0).
  - exact cam0_idle.
  - apply Forall_cons. split; [|by apply Forall_nil]. split_and!; [reflexivity| |right; split; [cbn; lia|reflexivity]].
    apply small_ok; [reflexivity|cbn; lia].
  - apply small_ok; [reflexivity|cbn; lia].
  - cbn; lia.
Defined.

(** A CR in the data, and an LF three places behind a 0xD9 that does not follow a
    CR: the receiver takes it for the end of the picture. *)
Example camera_cut :
  (_ ← CameraDatas [1; 2; 3; 4; 5; 6; 7; 8; 13; 0xD9; 1; 2]; x ← CameraData 10; mret (x =? dEndChars)) cam0
    = (_ ← CameraDatas [1; 2; 3; 4; 5; 6; 7; 8; 13; 0xD9; 1; 2; 10]; mret true) cam0.
Proof. by vm_compute. Qed.

Lemma camera_short_witness :
  (_ ← Camera_inputs ([1; 2; 3; 4; 5; 6; 0xD9; 7] ++ [13; 10]); camera_iter (mkTurn true 0 None)) cam0 = Err OutOfBounds.
Proof. apply (camera_short_end cam0). exact cam0_idle. Defined.
