(* ===== verification/Gps.v ===== *)
(** * The GPS receiver

    [src/MySouce/PCP/GPSAPP.c] and the position record of
    [src/MySouce/GNSS/GNSS.h]: the sentence buffer, the decoder of GPRMC
    sentences and the thread that reports every tenth position. *)

From S2P Require Import Prelude.
From Stdlib Require Import SpecFloat.

Open Scope Z_scope.

(** ** Numbers read by [sscanf] *)

Definition is_space (c : Z) : bool := (c =? 32) || ((9 <=? c) && (c <=? 13)).

Fixpoint skip_space (s : list Z) : list Z :=
  match s with c :: s' => if is_space c then skip_space s' else s | [] => [] end.

(** The value of a digit in [base]. *)
Definition digit (base c : Z) : option Z :=
  let d := if (48 <=? c) && (c <=? 57) then c - 48
           else if (97 <=? c) && (c <=? 102) then c - 87
           else if (65 <=? c) && (c <=? 70) then c - 55 else base in
  if d <? base then Some d else None.

(** The leading digits of [s], their number, and what follows. *)
Fixpoint digits (base : Z) (s : list Z) (acc : Z) (n : nat) : Z * nat * list Z :=
  match s with
  | c :: s' =>
      match digit base c with
      | Some d => digits base s' (acc * base + d) (S n)
      | None => (acc, n, s)
      end
  | [] => (acc, n, [])
  end.

(** An optional sign. *)
Definition sign (s : list Z) : bool * list Z :=
  match s with
  | c :: s' => if c =? 45 then (true, s') else if c =? 43 then (false, s') else (false, s)
  | [] => (false, [])
  end.

(** [%d] and [%x] into a 32-bit object; [None] when nothing matches. *)
Definition sscanf_int (base : Z) (s : list Z) : option Z :=
  let '(neg, s) := sign (skip_space s) in
  let s := match s with
           | c :: x :: s' =>
               if (base =? 16) && (c =? 48) && ((x =? 120) || (x =? 88)) then s' else s
           | _ => s
           end in
  match digits base s 0 0 with
  | (_, O, _) => None
  | (v, _, _) => Some (u32 (if neg then - v else v))
  end.

(** [%f] into a [float]: the decimal number rounded to 24 bits. *)
Definition sf_of_decimal (neg : bool) (m e : Z) : spec_float :=
  match m with
  | Zpos p =>
      if 0 <=? e then binary_normalize 24 128 (if neg then - (m * 10 ^ e) else m * 10 ^ e) 0 false
      else match 10 ^ (- e) with
           | Zpos q => SFdiv 24 128 (S754_finite neg p 0) (S754_finite false q 0)
           | _ => S754_nan
           end
  | _ => S754_zero neg
  end.

Definition exponent (s : list Z) : Z :=
  match s with
  | c :: s' =>
      if (c =? 101) || (c =? 69) then
        let '(neg, s') := sign s' in
        match digits 10 s' 0 0 with
        | (_, O, _) => 0
        | (v, _, _) => if neg then - v else v
        end
      else 0
  | [] => 0
  end.

Definition sscanf_float (s : list Z) : option spec_float :=
  let '(neg, s) := sign (skip_space s) in
  let '(v, n, s) := digits 10 s 0 0 in
  let '(v, k, s) :=
    match s with
    | c :: s' => if c =? 46 then digits 10 s' v 0 else (v, O, s)
    | [] => (v, O, s)
    end in
  if (Nat.add n k =? 0)%nat then None
  else Some (sf_of_decimal neg v (exponent s - Z.of_nat k)).

(** [fValue*1.825/10], computed in [double], as an unsigned 16-bit value. *)
Definition sf_trunc (f : spec_float) : Z :=
  match f with
  | S754_finite s m e =>
      let v := if 0 <=? e then Zpos m * 2 ^ e else Zpos m / 2 ^ (- e) in if s then - v else v
  | _ => 0
  end.

Definition speed_of (f : spec_float) : Z :=
  let c := SFdiv 53 1024 (S754_finite false 1825 0) (S754_finite false 1000 0) in
  u16 (sf_trunc (SFdiv 53 1024 (SFmul 53 1024 f c) (S754_finite false 10 0))).

(** ** The decoder *)

(** [LocateBasicInfoTypeDef], without the flag words the thread clears. *)
Record LocateBasicInfo := mkLoc {
  Latitude : Z; Longitude : Z; Altitude : Z; Speed : Z; Direction : Z; TimeBCD : list Z
}.

Definition set_time (l : LocateBasicInfo) (k : nat) (v : Z) : LocateBasicInfo :=
  mkLoc (Latitude l) (Longitude l) (Altitude l) (Speed l) (Direction l) (<[k := u8 v]> (TimeBCD l)).

(** The locals of [Unpack_GPRMC] and the record it fills. *)
Record gprmc := mkG {
  tempBuf : list Z;
  index : Z;
  CommaNum : Z;
  fValue : spec_float;
  Value : Z;
  out : LocateBasicInfo
}.

Definition with_temp g t i := mkG t i (CommaNum g) (fValue g) (Value g) (out g).
Definition with_comma g n := mkG (tempBuf g) (index g) n (fValue g) (Value g) (out g).
Definition with_value g v := mkG (tempBuf g) (index g) (CommaNum g) (fValue g) v (out g).
Definition with_fvalue g f := mkG (tempBuf g) (index g) (CommaNum g) f (Value g) (out g).
Definition with_out g o := mkG (tempBuf g) (index g) (CommaNum g) (fValue g) (Value g) o.

(** [memcpy(tempStr, &tempBuf[k], 2); sscanf(tempStr, "%x", &Value);
    TimeBCD[j] = Value] *)
Definition time_field (k : Z) (j : nat) : ST gprmc unit :=
  g ← get;
  a ← lift (idx (tempBuf g) k);
  b ← lift (idx (tempBuf g) (k + 1));
  s ← lift (cstr [a; b; 0]);
  _ ← modify (fun g => with_value g (default (Value g) (sscanf_int 16 s)));
  modify (fun g => with_out g (set_time (out g) j (Value g))).

(** The loop that closes the gaps the points leave in [tempBuf[0..index)]. *)
Definition drop_points : ST gprmc unit :=
  modify (fun g =>
    let kept := filter (fun c => c <> 46) (take (Z.to_nat (index g)) (tempBuf g)) in
    with_temp g (kept ++ drop (length kept) (tempBuf g)) (index g)).

(** The loop that cuts [tempBuf] at its first point. *)
Fixpoint cut_point (n : nat) (l : list Z) : list Z :=
  match n, l with
  | S n, c :: l => if c =? 46 then 0 :: l else c :: cut_point n l
  | _, _ => l
  end.

Definition set_out (f : LocateBasicInfo -> LocateBasicInfo) : ST gprmc unit :=
  modify (fun g => with_out g (f (out g))).

(** The [switch] on the number of commas: [true] to return -1. *)
Definition field : ST gprmc bool :=
  g ← get;
  let n := CommaNum g in
  if n =? 2 then
    _ ← time_field 0 3; _ ← time_field 2 4; _ ← time_field 4 5; mret false
  else if n =? 3 then
    c ← lift (idx (tempBuf g) 0); mret (negb (c =? 65) : bool)
  else if n =? 4 then
    _ ← drop_points;
    g ← get;
    s ← lift (cstr (tempBuf g));
    _ ← set_out (fun l => mkLoc (default (Latitude l) (sscanf_int 10 s)) (Longitude l) (Altitude l)
                            (Speed l) (Direction l) (TimeBCD l));
    mret false
  else if n =? 6 then
    _ ← drop_points;
    g ← get;
    s ← lift (cstr (tempBuf g));
    _ ← set_out (fun l => mkLoc (Latitude l) (default (Longitude l) (sscanf_int 10 s)) (Altitude l)
                            (Speed l) (Direction l) (TimeBCD l));
    mret false
  else if n =? 8 then
    s ← lift (cstr (tempBuf g));
    _ ← modify (fun g => with_fvalue g (default (fValue g) (sscanf_float s)));
    g ← get;
    _ ← set_out (fun l => mkLoc (Latitude l) (Longitude l) (Altitude l) (speed_of (fValue g))
                            (Direction l) (TimeBCD l));
    mret false
  else if n =? 9 then
    _ ← modify (fun g => with_temp g (cut_point (Z.to_nat (index g)) (tempBuf g)) (index g));
    g ← get;
    s ← lift (cstr (tempBuf g));
    _ ← modify (fun g => with_value g (default (Value g) (sscanf_int 10 s)));
    g ← get;
    _ ← set_out (fun l => mkLoc (Latitude l) (Longitude l) (Altitude l) (Speed l) (u16 (Value g)) (TimeBCD l));
    mret false
  else if n =? 10 then
    _ ← time_field 0 2; _ ← time_field 2 1; _ ← time_field 4 0; mret false
  else mret false.

(** [tempBuf[index++]=c] *)
Definition put_char (c : Z) : ST gprmc unit :=
  g ← get;
  t ← lift (upd (tempBuf g) (index g) c);
  modify (fun g => with_temp g t (u8 (index g + 1))).

(** The [while] loop: [true] when it returns -1. *)
Fixpoint unpack_loop (str_ : list Z) : ST gprmc bool :=
  match str_ with
  | [] => lift (Err OutOfBounds)
  | c :: s =>
      if c =? 0 then mret false
      else if c =? 44 then
        _ ← modify (fun g => with_comma g (u8 (CommaNum g + 1)));
        _ ← put_char 0;
        bad ← field;
        if (bad : bool) then mret true
        else _ ← modify (fun g => with_temp g (tempBuf g) 0); unpack_loop s
      else _ ← put_char c; unpack_loop s
  end.

(** ** The component *)

Record gps := mkGps {
  UserData : list Z;               (**r the driver's sentence buffer *)
  rx_index : Z;                    (**r the [static index] of [GPS_input] *)
  GPS_MB : option Z;
  couter : Z;
  blocks : nat;                    (**r blocks of 100 bytes in use *)
  locate : LocateBasicInfo;
  reports : list LocateBasicInfo   (**r [GNSS_T_Ask_LocateInfo] *)
}.

Definition with_rx s b i := mkGps b i (GPS_MB s) (couter s) (blocks s) (locate s) (reports s).
Definition with_mb s m := mkGps (UserData s) (rx_index s) m (couter s) (blocks s) (locate s) (reports s).
Definition with_couter s c := mkGps (UserData s) (rx_index s) (GPS_MB s) c (blocks s) (locate s) (reports s).
Definition with_blocks s n := mkGps (UserData s) (rx_index s) (GPS_MB s) (couter s) n (locate s) (reports s).
Definition with_locate s l := mkGps (UserData s) (rx_index s) (GPS_MB s) (couter s) (blocks s) l (reports s).
Definition with_reports s r := mkGps (UserData s) (rx_index s) (GPS_MB s) (couter s) (blocks s) (locate s) r.

Definition GPS_input (size : Z) : ST gps Z :=
  let InData := u8 size in
  _ ← (if InData =? 36 then modify (fun s => with_rx s (UserData s) 0) else mret tt);
  s ← get;
  b ← lift (upd (UserData s) (rx_index s) InData);
  _ ← modify (fun s => with_rx s b (u8 (rx_index s + 1)));
  if InData =? 10 then
    s ← get;
    b ← lift (upd (UserData s) (rx_index s) 0);
    _ ← modify (fun s => with_rx s b (u8 (rx_index s + 1)));
    _ ← modify (fun s => match GPS_MB s with None => with_mb s (Some (rx_index s)) | Some _ => s end);
    _ ← modify (fun s => with_rx s (UserData s) 0);
    mret 0
  else mret 0.

Section decoder.

(** [mem] is the number of blocks of 100 bytes the heap can give out;
    [junk_temp], [junk_f] and [junk_v] are the uninitialised locals. *)
Context (mem : nat) (junk_temp : list Z) (junk_f : spec_float) (junk_v : Z).

(** The result and the record; the block is released only on the normal
    path. *)
Definition Unpack_GPRMC (pGPRMCstr : list Z) : ST gps Z :=
  s ← get;
  if (mem <=? blocks s)%nat then mret (-1)
  else
    _ ← modify (fun s => with_blocks s (S (blocks s)));
    x ← lift (unpack_loop pGPRMCstr (mkG junk_temp 0 0 junk_f junk_v (locate s)));
    _ ← modify (fun s => with_locate s (out x.2));
    if x.1 : bool then mret (-1)
    else
      _ ← modify (fun s => with_locate s
            (mkLoc (Latitude (locate s)) (Longitude (locate s)) 0 (Speed (locate s))
                   (Direction (locate s)) (TimeBCD (locate s))));
      _ ← modify (fun s => with_blocks s (pred (blocks s)));
      mret 0.

(** One iteration of the thread: [false] while the mailbox is empty; [auth] is
    whether the authenticated event is set. *)
Definition gps_iter (auth : bool) : ST gps bool :=
  s ← get;
  match GPS_MB s with
  | None => mret false
  | Some _ =>
      _ ← modify (fun s => with_mb s None);
      _ ← modify (fun s => with_couter s (u8 (couter s + 1)));
      s ← get;
      if couter s <? 10 then mret true
      else
        _ ← modify (fun s => with_couter s 0);
        ret ← Unpack_GPRMC (UserData s);
        if ret <? 0 then mret true
        else
          _ ← (if auth then modify (fun s => with_reports s (reports s ++ [locate s])) else mret tt);
          mret true
  end.
End decoder.

(** ** Scanning *)

Definition isdigit (c : Z) : Prop := 48 <= c < 58.
Definition dec (l : list Z) : Z := foldl (fun a c => a * 10 + (c - 48)) 0 l.
Definition bcd (a b : Z) : Z := 16 * (a - 48) + (b - 48).

Lemma digit10 c : isdigit c -> digit 10 c = Some (c - 48).
Proof.
  unfold isdigit, digit. intros Hc.
  rewrite (proj2 (Z.leb_le 48 c)), (proj2 (Z.leb_le c 57)) by lia. cbn [andb].
  by rewrite (proj2 (Z.ltb_lt _ _)) by lia.
Qed.

Lemma digits_run s : forall acc n,
  Forall isdigit s ->
  digits 10 s acc n = (foldl (fun a c => a * 10 + (c - 48)) acc s, (n + length s)%nat, []).
Proof.
  induction s as [|c s IH]; intros acc n Hs; cbn.
  - by rewrite Nat.add_0_r.
  - apply Forall_cons in Hs as [Hc Hs]. rewrite digit10, IH by done. do 2 f_equal. lia.
Qed.

Lemma sscanf_dec s : Forall isdigit s -> s <> [] -> sscanf_int 10 s = Some (u32 (dec s)).
Proof.
  intros Hs Hne. destruct s as [|c s]; [done|]. assert (Hc := Forall_inv Hs). unfold isdigit in Hc.
  unfold sscanf_int. cbn [skip_space]. unfold is_space.
  rewrite (proj2 (Z.eqb_neq c 32)), (proj2 (Z.leb_gt c 13)), andb_false_r by lia. cbn [orb sign].
  rewrite (proj2 (Z.eqb_neq c 45)), (proj2 (Z.eqb_neq c 43)) by lia.
  replace (match c :: s with c0 :: x :: s' => if (10 =? 16) && (c0 =? 48) && ((x =? 120) || (x =? 88)) then s' else c :: s | _ => c :: s end)
    with (c :: s) by (by destruct s).
  by rewrite digits_run.
Qed.

Lemma sscanf_bcd a b : isdigit a -> isdigit b -> sscanf_int 16 [a; b] = Some (bcd a b).
Proof.
  intros Ha Hb.
  assert (H : forallb (fun a => forallb (fun b =>
    bool_decide (sscanf_int 16 [a; b] = Some (bcd a b))) (seqZ 48 10)) (seqZ 48 10) = true)
    by (vm_compute; reflexivity).
  unfold isdigit in *. rewrite forallb_forall in H.
  specialize (H a (proj1 (list_elem_of_In _ _) (proj2 (elem_of_seqZ 48 10 a) ltac:(lia)))).
  cbn beta in H. rewrite forallb_forall in H.
  specialize (H b (proj1 (list_elem_of_In _ _) (proj2 (elem_of_seqZ 48 10 b) ltac:(lia)))).
  by apply bool_decide_eq_true_1 in H.
Qed.

(** ** The loop, field by field *)

(** The characters of a field. *)
Definition plain (f : list Z) : Prop :=
  Forall (fun c => c <> 0 /\ c <> 44) f /\ (length f <= 98)%nat.

Lemma loop_chars f : forall g r,
  Forall (fun c => c <> 0 /\ c <> 44) f -> length (tempBuf g) = 100%nat -> 0 <= index g ->
  index g + Z.of_nat (length f) <= 99 ->
  unpack_loop (f ++ r) g = unpack_loop r
    (with_temp g (take (Z.to_nat (index g)) (tempBuf g) ++ f ++ drop (Z.to_nat (index g) + length f) (tempBuf g))
       (index g + Z.of_nat (length f))).
Proof.
  induction f as [|c f IH]; intros g r Hf Hl Hi Hn; cbn [app unpack_loop].
  - cbn [length app]. rewrite Nat.add_0_r, take_drop, Z.add_0_r. by destruct g.
  - apply Forall_cons in Hf as [[Hc0 Hc1] Hf]. cbn [length] in *.
    rewrite (proj2 (Z.eqb_neq _ _) Hc0), (proj2 (Z.eqb_neq _ _) Hc1).
    unfold put_char. unfold_st. rewrite upd_ok by lia. unfold_st. rewrite wrap_id by (cbn; lia).
    rewrite IH; cbn [tempBuf index with_temp]; [|done|by rewrite length_insert|lia|lia].
    f_equal. unfold with_temp. cbn. f_equal; [|lia].
    rewrite insert_take_drop by lia.
    replace (Z.to_nat (index g + 1)) with (S (Z.to_nat (index g))) by lia.
    rewrite drop_app_ge by (rewrite length_take; lia).
    rewrite take_app_ge by (rewrite length_take; lia).
    rewrite length_take, Nat.min_l by lia.
    replace (S (Z.to_nat (index g)) - Z.to_nat (index g))%nat with 1%nat by lia.
    replace (S (Z.to_nat (index g)) + length f - Z.to_nat (index g))%nat with (S (length f)) by lia.
    cbn [take drop]. rewrite take_0, drop_drop, <- app_assoc. cbn [app].
    do 3 f_equal. f_equal. lia.
Qed.

(** At the comma that ends field [f] the buffer holds [f] as a string. *)
Record at_comma (g : gprmc) (n : Z) (f : list Z) (o : LocateBasicInfo) : Prop := {
  ac_num : CommaNum g = n;
  ac_out : out g = o;
  ac_buf : exists tl, tempBuf g = f ++ 0 :: tl;
  ac_index : index g = Z.of_nat (length f) + 1;
  ac_len : length (tempBuf g) = 100%nat
}.

(** [field] takes the record from [o] to [o'] at the comma after [f]. *)
Definition field_ok (n : Z) (f : list Z) (o o' : LocateBasicInfo) : Prop :=
  forall g, at_comma g n f o -> exists g', field g = Ret (false, g') /\
    CommaNum g' = n /\ out g' = o' /\ length (tempBuf g') = 100%nat.

(** Between two fields. *)
Record between (g : gprmc) (n : Z) (o : LocateBasicInfo) : Prop := {
  bw_num : CommaNum g = n;
  bw_out : out g = o;
  bw_index : index g = 0;
  bw_len : length (tempBuf g) = 100%nat
}.

Lemma loop_field f g n o o' :
  between g n o -> plain f -> 0 <= n < 200 -> field_ok (n + 1) f o o' ->
  exists g', between g' (n + 1) o' /\ forall r, unpack_loop (f ++ 44 :: r) g = unpack_loop r g'.
Proof.
  intros [Hn Ho Hi Hl] [Hf Hfl] Hnb Hok.
  set (g1 := mkG (f ++ 0 :: drop (length f + 1) (tempBuf g)) (Z.of_nat (length f) + 1) (n + 1)
    (fValue g) (Value g) o).
  destruct (Hok g1) as (g2 & Hrun & Hn2 & Ho2 & Hl2).
  { split; try done; [by eexists|]. cbn. rewrite length_app. cbn. rewrite length_drop. lia. }
  exists (with_temp g2 (tempBuf g2) 0). split; [by split|]. intros r.
  rewrite loop_chars by (done || lia). rewrite Hi, Z.add_0_l. change (Z.to_nat 0) with 0%nat. rewrite take_0.
  cbn [app Nat.add unpack_loop Z.eqb Pos.eqb]. unfold put_char. unfold_st.
  cbn [tempBuf index with_temp with_comma].
  rewrite upd_ok by (rewrite length_app, length_drop; lia). unfold_st.
  cbn [tempBuf index with_temp with_comma CommaNum]. rewrite Hn, !wrap_id by (cbn; lia).
  match goal with |- context [field ?x] => replace x with g1 end.
  - by rewrite Hrun.
  - unfold g1, with_temp, with_comma. cbn. rewrite Ho. f_equal.
    rewrite Nat2Z.id, insert_app_r_alt, Nat.sub_diag by lia. f_equal.
    destruct (drop (length f) (tempBuf g)) as [|x d] eqn:Hd.
    { apply (f_equal length) in Hd. rewrite length_drop in Hd. cbn in Hd. lia. }
    rewrite <- drop_drop, Hd. done.
Qed.

(** *** The kinds of field *)

Lemma field_skip n f o :
  n ∉ [2; 3; 4; 6; 8; 9; 10] -> field_ok n f o o.
Proof.
  intros Hn g [Hnum Ho _ _ Hl]. unfold field. unfold_st. rewrite Hnum.
  assert (Hneq : forall k, k ∈ [2; 3; 4; 6; 8; 9; 10] -> (n =? k) = false).
  { intros k Hk. apply Z.eqb_neq. intros ->. done. }
  rewrite !Hneq by set_solver. by exists g.
Qed.

Lemma time_field_run g k j a b o :
  0 <= k -> tempBuf g !! Z.to_nat k = Some a -> tempBuf g !! Z.to_nat (k + 1) = Some b ->
  isdigit a -> isdigit b -> out g = o ->
  time_field k j g = Ret (tt, with_out (with_value g (bcd a b)) (set_time o j (bcd a b))).
Proof.
  intros Hk Ha Hb Hda Hdb <-. unfold time_field. unfold_st.
  rewrite (proj2 (idx_Ret _ _ a)) by done. rewrite (proj2 (idx_Ret _ _ b)) by (split; [lia|done]).
  unfold isdigit in *. cbn [cstr].
  rewrite (proj2 (Z.eqb_neq a 0)), (proj2 (Z.eqb_neq b 0)) by lia. cbn [Z.eqb].
  unfold_st. rewrite sscanf_bcd by done. done.
Qed.

(** Field 2 (time) and field 10 (date): three pairs of digits. *)
Lemma field_time n f a b c d e x tl o (i j k : nat) :
  (n, i, j, k) = (2, 3, 4, 5)%nat \/ (n, i, j, k) = (10, 2, 1, 0)%nat ->
  f = [a; b; c; d; e; x] ++ tl -> Forall isdigit [a; b; c; d; e; x] ->
  field_ok (Z.of_nat n) f o (set_time (set_time (set_time o i (bcd a b)) j (bcd c d)) k (bcd e x)).
Proof.
  intros Hn -> Hd g [Hnum Ho [r Hr] Hi Hl]. unfold field. unfold_st. rewrite Hnum.
  repeat (apply Forall_cons in Hd as [? Hd]).
  assert (forall i j k, exists g', (_ ← time_field 0 i; _ ← time_field 2 j; _ ← time_field 4 k; mret false) g
     = Ret (false, g') /\ CommaNum g' = CommaNum g /\ length (tempBuf g') = 100%nat /\
     out g' = set_time (set_time (set_time o i (bcd a b)) j (bcd c d)) k (bcd e x)) as Hrun.
  { intros i' j' k'. unfold_st.
    rewrite (time_field_run g 0 i' a b o) by (rewrite ?Hr; done).
    rewrite (time_field_run _ 2 j' c d (set_time o i' (bcd a b))) by (cbn; rewrite ?Hr; done).
    erewrite (time_field_run _ 4 k' e x) by (cbn; rewrite ?Hr; done).
    eexists. split; [reflexivity|]. done. }
  destruct Hn as [[= -> -> -> ->] | [= -> -> -> ->]]; cbn [Z.of_nat Pos.of_succ_nat Pos.succ Z.eqb Pos.eqb].
  - destruct (Hrun 3%nat 4%nat 5%nat) as (g' & Hg & ? & ? & ?).
    unfold_st. exists g'. split_and!; [exact Hg|by etrans|done..].
  - destruct (Hrun 2%nat 1%nat 0%nat) as (g' & Hg & ? & ? & ?).
    unfold_st. exists g'. split_and!; [exact Hg|by etrans|done..].
Qed.

Lemma field_status x o : field_ok 3 (65 :: x) o o.
Proof.
  intros g [Hnum Ho [r Hr] Hi Hl]. unfold field. unfold_st. rewrite Hnum. cbn [Z.eqb Pos.eqb].
  rewrite (proj2 (idx_Ret _ _ 65)) by (rewrite Hr; done). by exists g.
Qed.

Lemma filter_digits l : Forall isdigit l -> filter (fun c => c <> 46) l = l.
Proof.
  induction 1 as [|c l Hc _ IH]; [done|]. rewrite filter_cons_True, IH; [done|].
  unfold isdigit in Hc. lia.
Qed.

(** Fields 4 and 6: a number with one point, read without it. *)
Lemma drop_points_run g a b n o :
  Forall isdigit a -> Forall isdigit b -> at_comma g n (a ++ 46 :: b) o ->
  exists g', drop_points g = Ret (tt, g') /\ CommaNum g' = n /\ out g' = o /\
    length (tempBuf g') = 100%nat /\ cstr (tempBuf g') = Ret (a ++ b).
Proof.
  intros Ha Hb [Hnum Ho [r Hr] Hi Hl]. unfold drop_points. unfold_st.
  eexists. split; [reflexivity|]. cbn [tempBuf CommaNum out with_temp].
  assert (Hk : filter (fun c => c <> 46) (take (Z.to_nat (index g)) (tempBuf g)) = (a ++ b) ++ [0]).
  { rewrite Hi, Hr. replace (Z.to_nat _) with (length ((a ++ 46 :: b) ++ [0])) by (rewrite !length_app; cbn; lia).
    replace ((a ++ 46 :: b) ++ 0 :: r) with (((a ++ 46 :: b) ++ [0]) ++ r) by (by rewrite <- !app_assoc).
    rewrite take_app_length, !filter_app, filter_digits by done.
    rewrite filter_cons_False by lia. by rewrite filter_digits by done. }
  rewrite Hk. split_and!; [done|done| |].
  - rewrite Hr in Hl. rewrite length_app, length_drop, Hr. rewrite !length_app in *. cbn in *. lia.
  - rewrite <- app_assoc. apply cstr_app. apply Forall_app. unfold isdigit in *.
    split; eapply Forall_impl; eauto; cbn; lia.
Qed.

Definition set_lat (o : LocateBasicInfo) (v : Z) :=
  mkLoc v (Longitude o) (Altitude o) (Speed o) (Direction o) (TimeBCD o).
Definition set_lon (o : LocateBasicInfo) (v : Z) :=
  mkLoc (Latitude o) v (Altitude o) (Speed o) (Direction o) (TimeBCD o).
Definition set_speed (o : LocateBasicInfo) (v : Z) :=
  mkLoc (Latitude o) (Longitude o) (Altitude o) v (Direction o) (TimeBCD o).
Definition set_dir (o : LocateBasicInfo) (v : Z) :=
  mkLoc (Latitude o) (Longitude o) (Altitude o) (Speed o) v (TimeBCD o).

Lemma field_lat a b o :
  Forall isdigit a -> Forall isdigit b -> a ++ b <> [] ->
  field_ok 4 (a ++ 46 :: b) o (set_lat o (u32 (dec (a ++ b)))).
Proof.
  intros Ha Hb Hne g Hg. destruct (drop_points_run g a b 4 o Ha Hb Hg) as (g1 & Hr & Hn & Ho & Hl & Hc).
  unfold field, set_out. unfold_st. rewrite (ac_num _ _ _ _ Hg). cbn [Z.eqb Pos.eqb].
  rewrite Hr, Hc, sscanf_dec; [|apply Forall_app; done|done].
  eexists. split; [reflexivity|]. cbn. by rewrite Hn, Ho.
Qed.

Lemma field_lon a b o :
  Forall isdigit a -> Forall isdigit b -> a ++ b <> [] ->
  field_ok 6 (a ++ 46 :: b) o (set_lon o (u32 (dec (a ++ b)))).
Proof.
  intros Ha Hb Hne g Hg. destruct (drop_points_run g a b 6 o Ha Hb Hg) as (g1 & Hr & Hn & Ho & Hl & Hc).
  unfold field, set_out. unfold_st. rewrite (ac_num _ _ _ _ Hg). cbn [Z.eqb Pos.eqb].
  rewrite Hr, Hc, sscanf_dec; [|apply Forall_app; done|done].
  eexists. split; [reflexivity|]. cbn. by rewrite Hn, Ho.
Qed.

Lemma field_speed f v o :
  Forall (fun c => c <> 0 /\ c <> 44) f -> sscanf_float f = Some v ->
  field_ok 8 f o (set_speed o (speed_of v)).
Proof.
  intros Hf Hv g [Hnum Ho [r Hr] Hi Hl]. unfold field, set_out. unfold_st. rewrite Hnum.
  cbn [Z.eqb Pos.eqb]. rewrite Hr, cstr_app by (eapply Forall_impl; [exact Hf|]; naive_solver).
  rewrite Hv. eexists. split; [reflexivity|]. cbn [CommaNum out tempBuf with_out with_fvalue fValue default].
  rewrite Ho. split_and!; done.
Qed.

Lemma cut_point_app a b n :
  Forall isdigit a -> (length a < n)%nat -> cut_point n (a ++ 46 :: b) = a ++ 0 :: b.
Proof.
  intros Ha. revert n. induction Ha as [|c a Hc _ IH]; intros [|n] Hn; cbn in *; try lia; [done|].
  unfold isdigit in Hc. rewrite (proj2 (Z.eqb_neq c 46)) by lia. by rewrite IH by lia.
Qed.

Lemma field_dir a b o :
  Forall isdigit a -> a <> [] -> field_ok 9 (a ++ 46 :: b) o (set_dir o (u16 (u32 (dec a)))).
Proof.
  intros Ha Hne g [Hnum Ho [r Hr] Hi Hl]. unfold field, set_out. unfold_st. rewrite Hnum.
  cbn [Z.eqb Pos.eqb tempBuf with_temp]. rewrite Hi, Hr in *. rewrite <- app_assoc. cbn [app].
  rewrite cut_point_app by (done || rewrite length_app; cbn; lia).
  rewrite cstr_app by (eapply Forall_impl; [exact Ha|]; unfold isdigit; cbn; lia).
  rewrite sscanf_dec by done. eexists. split; [reflexivity|].
  cbn [CommaNum out tempBuf with_out with_value with_temp Value default]. rewrite Ho.
  split_and!; [done|done|]. rewrite !length_app in *. cbn in *. rewrite !length_app in *. cbn in *. lia.
Qed.

(** ** Sentences *)

(** The fields of a sentence with a fix. *)
Record sentence := mkS {
  s_head : list Z;
  s_hh : Z * Z; s_mm : Z * Z; s_ss : Z * Z; s_frac : list Z;
  s_status : list Z;                         (**r what follows the [A] *)
  s_lat : list Z * list Z; s_ns : list Z;
  s_lon : list Z * list Z; s_ew : list Z;
  s_speed : list Z;
  s_dir : list Z * list Z;
  s_day : Z * Z; s_month : Z * Z; s_year : Z * Z; s_date : list Z;
  s_mag : list Z; s_east : list Z; s_tail : list Z
}.

Definition pairs (a b c : Z * Z) (r : list Z) : list Z := [a.1; a.2; b.1; b.2; c.1; c.2] ++ r.
Definition decimal (p : list Z * list Z) : list Z := p.1 ++ 46 :: p.2.

Definition fields_of (s : sentence) : list (list Z) :=
  [ s_head s; pairs (s_hh s) (s_mm s) (s_ss s) (s_frac s); 65 :: s_status s;
    decimal (s_lat s); s_ns s; decimal (s_lon s); s_ew s; s_speed s; decimal (s_dir s);
    pairs (s_day s) (s_month s) (s_year s) (s_date s); s_mag s; s_east s ].

(** The text of a sentence, with its terminator. *)
Definition text (s : sentence) : list Z :=
  foldr (fun f r => f ++ 44 :: r) (s_tail s ++ [0]) (fields_of s).

Record sentence_ok (s : sentence) (v : spec_float) : Prop := {
  so_plain : Forall plain (fields_of s);
  so_tail : plain (s_tail s);
  so_time : Forall isdigit (pairs (s_hh s) (s_mm s) (s_ss s) []);
  so_date : Forall isdigit (pairs (s_day s) (s_month s) (s_year s) []);
  so_lat : Forall isdigit (s_lat s).1 /\ Forall isdigit (s_lat s).2 /\ (s_lat s).1 ++ (s_lat s).2 <> [];
  so_lon : Forall isdigit (s_lon s).1 /\ Forall isdigit (s_lon s).2 /\ (s_lon s).1 ++ (s_lon s).2 <> [];
  so_dir : Forall isdigit (s_dir s).1 /\ (s_dir s).1 <> [];
  so_speed : sscanf_float (s_speed s) = Some v
}.

(** The position the sentence gives. *)
Definition position (s : sentence) (v : spec_float) : LocateBasicInfo :=
  let b p := bcd p.1 p.2 in
  mkLoc (u32 (dec ((s_lat s).1 ++ (s_lat s).2))) (u32 (dec ((s_lon s).1 ++ (s_lon s).2))) 0 (speed_of v)
    (u16 (u32 (dec (s_dir s).1)))
    [b (s_year s); b (s_month s); b (s_day s); b (s_hh s); b (s_mm s); b (s_ss s)].

Lemma u8_bcd a b : isdigit a -> isdigit b -> u8 (bcd a b) = bcd a b.
Proof. unfold isdigit, bcd. intros. apply wrap_id. cbn. lia. Qed.

Lemma unpack_sentence s v g :
  sentence_ok s v -> between g 0 (out g) -> length (TimeBCD (out g)) = 6%nat ->
  exists g', unpack_loop (text s) g = Ret (false, g') /\
    out g' = (let p := position s v in mkLoc (Latitude p) (Longitude p) (Altitude (out g)) (Speed p)
                (Direction p) (TimeBCD p)).
Proof.
  intros [Hp [Ht Htl] Htime Hdate (Hla & Hlb & Hln) (Hoa & Hob & Hon) (Hda & Hdn) Hs] Hg Hbcd.
  unfold fields_of in Hp. repeat (apply Forall_cons in Hp as [? Hp]). clear Hp.
  unfold text, fields_of. cbn [foldr].
  assert (Hskip : forall n f o, n ∉ [2; 3; 4; 6; 8; 9; 10] -> field_ok n f o o) by apply field_skip.
  set (o0 := out g) in *.
  destruct (loop_field _ _ _ _ _ Hg H ltac:(lia) (Hskip 1 _ _ ltac:(set_solver))) as (g1 & Hg1 & ->).
  destruct (loop_field _ _ _ _ _ Hg1 H0 ltac:(lia)
    (field_time 2 _ _ _ _ _ _ _ _ _ 3 4 5 (or_introl eq_refl) eq_refl Htime)) as (g2 & Hg2 & ->).
  destruct (loop_field _ _ _ _ _ Hg2 H1 ltac:(lia) (field_status _ _)) as (g3 & Hg3 & ->).
  destruct (loop_field _ _ _ _ _ Hg3 H2 ltac:(lia) (field_lat _ _ _ Hla Hlb Hln)) as (g4 & Hg4 & ->).
  destruct (loop_field _ _ _ _ _ Hg4 H3 ltac:(lia) (Hskip 5 _ _ ltac:(set_solver))) as (g5 & Hg5 & ->).
  destruct (loop_field _ _ _ _ _ Hg5 H4 ltac:(lia) (field_lon _ _ _ Hoa Hob Hon)) as (g6 & Hg6 & ->).
  destruct (loop_field _ _ _ _ _ Hg6 H5 ltac:(lia) (Hskip 7 _ _ ltac:(set_solver))) as (g7 & Hg7 & ->).
  destruct (loop_field _ _ _ _ _ Hg7 H6 ltac:(lia) (field_speed _ _ _ (proj1 H6) Hs)) as (g8 & Hg8 & ->).
  destruct (loop_field _ _ _ _ _ Hg8 H7 ltac:(lia) (field_dir _ _ _ Hda Hdn)) as (g9 & Hg9 & ->).
  destruct (loop_field _ _ _ _ _ Hg9 H8 ltac:(lia)
    (field_time 10 _ _ _ _ _ _ _ _ _ 2 1 0 (or_intror eq_refl) eq_refl Hdate)) as (g10 & Hg10 & ->).
  destruct (loop_field _ _ _ _ _ Hg10 H9 ltac:(lia) (Hskip 11 _ _ ltac:(set_solver))) as (g11 & Hg11 & ->).
  destruct (loop_field _ _ _ _ _ Hg11 H10 ltac:(lia) (Hskip 12 _ _ ltac:(set_solver))) as (g12 & Hg12 & ->).
  destruct Hg12 as [Hn12 Ho12 Hi12 Hl12].
  rewrite loop_chars by (done || lia). cbn [unpack_loop Z.eqb]. eexists. split; [reflexivity|].
  cbn [out with_temp]. rewrite Ho12. clear - Htime Hdate Hbcd.
  unfold pairs in Htime, Hdate. cbn in Htime, Hdate.
  repeat (apply Forall_cons in Htime as [? Htime]). repeat (apply Forall_cons in Hdate as [? Hdate]).
  clearbody o0. destruct o0 as [la lo al sp di tb]. cbn [TimeBCD] in Hbcd.
  destruct tb as [|t0 [|t1 [|t2 [|t3 [|t4 [|t5 [|]]]]]]]; try done.
  cbv beta iota zeta delta [set_time set_dir set_speed set_lon set_lat position
    TimeBCD Altitude Latitude Longitude Speed Direction]. cbn [insert list_insert]. by rewrite !u8_bcd by done.
Qed.

(** A sentence without a fix: the third field does not start with [A]. *)
Definition void_text (head time : list Z) (c : Z) (st rest : list Z) : list Z :=
  head ++ 44 :: time ++ 44 :: (c :: st) ++ 44 :: rest.

Lemma unpack_void head hh mm ss frac c st rest g :
  plain head -> plain (pairs hh mm ss frac) -> plain (c :: st) -> Forall isdigit (pairs hh mm ss []) ->
  c <> 65 -> between g 0 (out g) ->
  exists g', unpack_loop (void_text head (pairs hh mm ss frac) c st rest) g = Ret (true, g').
Proof.
  intros Hh Ht Hst Hd Hc Hg. unfold void_text.
  destruct (loop_field _ _ _ _ _ Hg Hh ltac:(lia) (field_skip 1 _ _ ltac:(set_solver))) as (g1 & Hg1 & ->).
  destruct (loop_field _ _ _ _ _ Hg1 Ht ltac:(lia)
    (field_time 2 _ _ _ _ _ _ _ _ _ 3 4 5 (or_introl eq_refl) eq_refl Hd)) as (g2 & [Hn Ho Hi Hl] & ->).
  destruct Hst as [Hst Hsl].
  rewrite loop_chars by (done || lia). rewrite Hi, Z.add_0_l. change (Z.to_nat 0) with 0%nat. rewrite take_0.
  cbn [app Nat.add unpack_loop Z.eqb Pos.eqb]. unfold put_char. unfold_st.
  cbn [tempBuf index with_temp with_comma].
  rewrite upd_ok by (cbn [length] in *; rewrite length_app, length_drop; lia). unfold_st.
  unfold field. unfold_st. cbn [CommaNum with_temp with_comma tempBuf]. rewrite Hn. cbn [Z.add Pos.add].
  change (u8 3 =? 2) with false. change (u8 3 =? 3) with true. unfold_st.
  cbn [tempBuf with_temp with_comma]. rewrite (proj2 (idx_Ret _ _ c)).
  2: { split; [lia|]. rewrite Nat2Z.id. cbn [length]. by rewrite list_lookup_insert_ne. }
  rewrite (proj2 (Z.eqb_neq c 65)) by done. cbn [negb]. by eexists.
Qed.

(** What follows the terminator is not read. *)
Lemma unpack_loop_tail a r g : unpack_loop (a ++ 0 :: r) g = unpack_loop (a ++ [0]) g.
Proof.
  revert g. induction a as [|c a IH]; intros g; [done|]. cbn [app unpack_loop].
  destruct (c =? 0); [done|]. unfold_st. destruct (c =? 44).
  - destruct (put_char 0 _) as [[[] g1]|]; [|done].
    destruct (field g1) as [[bad g2]|]; [|done]. destruct bad; [done|]. apply IH.
  - destruct (put_char c g) as [[[] g1]|]; [|done]. apply IH.
Qed.

(** ** Reception *)

Fixpoint recv (bs : list Z) : ST gps unit :=
  match bs with [] => mret tt | b :: bs => _ ← GPS_input b; recv bs end.

(** Characters of a sentence between its [$] and its LF. *)
Definition inner (c : Z) : Prop := byte c /\ c <> 36 /\ c <> 10.

Lemma recv_inner l : forall s pre rest,
  UserData s = pre ++ rest -> rx_index s = Z.of_nat (length pre) -> Forall inner l ->
  (length l <= length rest)%nat -> (length pre + length l < 256)%nat ->
  recv l s = Ret (tt, with_rx s ((pre ++ l) ++ drop (length l) rest) (Z.of_nat (length (pre ++ l)))).
Proof.
  induction l as [|c l IH]; intros s pre rest Hu Hi Hl Hle Hlt; cbn [recv].
  - unfold_st. rewrite app_nil_r. rewrite drop_0, <- Hu, <- Hi. by destruct s.
  - apply Forall_cons in Hl as [(Hb & H36 & H10) Hl]. cbn [length] in *.
    destruct rest as [|x rest]; [cbn in Hle; lia|]. unfold byte in Hb.
    assert (Hin : GPS_input c s = Ret (0, with_rx s ((pre ++ [c]) ++ rest) (Z.of_nat (length (pre ++ [c]))))).
    { unfold GPS_input. rewrite (wrap_id 8 c) by (cbn; lia).
      rewrite (proj2 (Z.eqb_neq _ _) H36), (proj2 (Z.eqb_neq _ _) H10). unfold_st.
      rewrite Hu, Hi, upd_ok by (rewrite length_app; cbn; lia). unfold_st.
      rewrite Hi, wrap_id by (cbn; lia). do 3 f_equal.
      - rewrite Nat2Z.id, insert_app_r_alt, Nat.sub_diag by lia. cbn. by rewrite <- app_assoc.
      - rewrite length_app. cbn. lia. }
    rewrite (st_bind_run _ _ _ _ _ Hin).
    rewrite (IH _ (pre ++ [c]) rest); cbn [UserData rx_index with_rx]; try done.
    + cbn [drop]. unfold with_rx. cbn. by rewrite <- !(app_assoc pre).
    + cbn in Hle. lia.
    + rewrite length_app. cbn. lia.
Qed.

Lemma recv_sentence body s :
  Forall inner body -> (length body + 3 <= length (UserData s))%nat -> (length body + 3 <= 255)%nat ->
  exists rest mb, mb <> None /\
    recv (36 :: body ++ [10]) s = Ret (tt, with_mb (with_rx s (36 :: body ++ [10; 0] ++ rest) 0) mb).
Proof.
  intros Hb Hl Hn.
  destruct (UserData s) as [|x rest] eqn:Hu; [cbn in Hl; lia|]. cbn in Hl.
  assert (Hstart : GPS_input 36 s = Ret (0, with_rx s ([36] ++ rest) (Z.of_nat (length [36])))).
  { unfold GPS_input. change (u8 36) with 36. cbn [Z.eqb Pos.eqb]. unfold_st.
    cbn [UserData rx_index with_rx]. rewrite Hu, upd_ok by (cbn; lia). done. }
  cbn [recv]. rewrite (st_bind_run _ _ _ _ _ Hstart).
  assert (Happ : forall l1 l2 a b, recv l1 a = Ret (tt, b) -> recv (l1 ++ l2) a = recv l2 b).
  { clear. intros l1. induction l1 as [|c l1 IH]; intros l2 a b; cbn [app recv]; [by intros [= ->]|].
    unfold_st. destruct (GPS_input c a) as [[z y]|]; [|done]. apply IH. }
  erewrite Happ; [|apply (recv_inner body _ [36] rest); [done|done|done|lia|cbn; lia]].
  set (pre := [36] ++ body). assert (Hpl : length pre = S (length body)) by done.
  cbn [recv]. unfold GPS_input. change (u8 10) with 10. cbn [Z.eqb Pos.eqb]. unfold_st.
  cbn [UserData rx_index with_rx].
  rewrite upd_ok by (rewrite length_app, length_drop; lia). unfold_st. cbn [UserData rx_index with_rx].
  rewrite wrap_id by (cbn; lia).
  rewrite upd_ok by (rewrite length_insert, length_app, length_drop; lia). unfold_st.
  cbn [UserData rx_index with_rx].
  destruct (drop (length body) rest) as [|y [|z r]] eqn:Hd;
    [apply (f_equal length) in Hd; rewrite length_drop in Hd; cbn in Hd; lia..|].
  exists r. rewrite Nat2Z.id, insert_app_r_alt, Nat.sub_diag by lia.
  replace (Z.to_nat (Z.of_nat (length pre) + 1)) with (S (length pre)) by lia.
  rewrite insert_app_r_alt by lia. replace (S (length pre) - length pre)%nat with 1%nat by lia.
  cbn [insert list_insert]. unfold pre. cbn [app].
  destruct (GPS_MB s) as [m|] eqn:Hmb.
  - exists (Some m). split; [done|]. cbn [GPS_MB with_rx]. rewrite Hmb. unfold with_mb, with_rx. cbn.
    by rewrite Hmb.
  - eexists. split; [|cbn [GPS_MB with_rx]; rewrite Hmb; reflexivity]. done.
Qed.

(** The buffer keeps its size. *)
Lemma GPS_input_length c s1 z s2 :
  GPS_input c s1 = Ret (z, s2) -> length (UserData s2) = length (UserData s1).
Proof.
  unfold GPS_input. unfold_st.
  destruct (u8 c =? 36), (u8 c =? 10); cbn [UserData rx_index with_rx];
    repeat (let E := fresh in destruct (upd _ _ _) eqn:E;
      [apply upd_length in E; cbn [UserData rx_index with_rx] in *|done]);
    intros Hret; injection Hret as _ <-; cbn [UserData with_rx with_mb];
    repeat case_match; cbn [UserData with_rx with_mb]; congruence.
Qed.

Lemma recv_length bs : forall s1 s2, recv bs s1 = Ret (tt, s2) -> length (UserData s2) = length (UserData s1).
Proof.
  induction bs as [|c bs IH]; intros s1 s2; cbn [recv]; [by intros [= ->]|].
  intros (z & s & Hc & Hr)%st_bind_Ret. apply GPS_input_length in Hc. apply IH in Hr. congruence.
Qed.

(** A sentence arrives and the thread runs. *)
Fixpoint session (mem : nat) (jt : list Z) (jf : spec_float) (jv : Z) (auth : bool) (bodies : list (list Z)) :
    ST gps unit :=
  match bodies with
  | [] => mret tt
  | b :: bodies => _ ← recv (36 :: b ++ [10]); _ ← gps_iter mem jt jf jv auth; session mem jt jf jv auth bodies
  end.

Definition body_ok (s : gps) (b : list Z) : Prop :=
  Forall inner b /\ (length b + 3 <= length (UserData s))%nat /\ (length b + 3 <= 255)%nat.

(** Before the tenth sentence the thread only counts. *)
Lemma session_count mem jt jf jv auth bodies : forall s,
  Forall (body_ok s) bodies -> 0 <= couter s -> couter s + Z.of_nat (length bodies) < 10 ->
  GPS_MB s = None ->
  exists u, length u = length (UserData s) /\
    session mem jt jf jv auth bodies s =
      Ret (tt, with_couter (with_rx s u (if decide (bodies = []) then rx_index s else 0))
                 (couter s + Z.of_nat (length bodies))).
Proof.
  induction bodies as [|b bodies IH]; intros s Hb Hc Hn Hmb; cbn [session].
  - exists (UserData s). rewrite decide_True by done. split; [done|]. cbn. rewrite Z.add_0_r. by destruct s.
  - apply Forall_cons in Hb as [(Hi & Hl & Hs) Hb]. cbn [length] in Hn.
    destruct (recv_sentence b s Hi Hl Hs) as (rest & mb & Hmbs & Hr).
    rewrite (st_bind_run _ _ _ _ _ Hr). unfold gps_iter. unfold_st. cbn [GPS_MB with_mb].
    destruct mb as [v|]; [|done]. cbn [couter with_mb with_rx with_couter].
    rewrite wrap_id by (cbn; lia). rewrite (proj2 (Z.ltb_lt _ _)) by lia.
    assert (Hlen : length (36 :: b ++ [10; 0] ++ rest) = length (UserData s)).
    { exact (recv_length _ _ _ Hr). }
    match goal with |- context [session _ _ _ _ _ bodies ?x] => set (s1 := x) end.
    destruct (IH s1) as (u & Hu & ->); cbn [couter s1 with_couter GPS_MB with_mb UserData with_rx]; try done; try lia.
    + eapply Forall_impl; [exact Hb|]. intros x (? & ? & ?). split_and!; try done.
      cbn [UserData s1 with_couter with_mb with_rx]. by rewrite Hlen.
    + exists u. split; [etrans; [exact Hu | exact Hlen]|].
      rewrite (decide_False (P := b :: bodies = [])) by done.
      unfold s1, with_couter, with_rx, with_mb. cbn. rewrite Hmb.
      destruct (decide (bodies = [])); do 3 f_equal; lia.
Qed.

(** ** Properties *)

(** C28: every tenth sentence is reported: when nine sentences of any content
    and then a well-formed sentence with a fix arrive, each followed by a turn
    of the thread, the thread decodes only the last one, and (when the terminal
    is authenticated) reports the position the code makes of its fields: latitude,
    longitude and course as decimal numbers, the times and date as BCD pairs, the
    speed as [speed_of]; the decoder's block is released.
    Two of these fields are not what GNSS.h documents: the time is the UTC time of
    the sentence, not GMT+8 (GNSS.h:215), and the speed is 1.825/10 of the knots, not
    the tenths of a km/h (GNSS.h:213; [speed_undocumented]). *)
Theorem gps_tenth_reported mem jt jf jv nine snt v body s :
  length jt = 100%nat -> (blocks s < mem)%nat -> couter s = 0 -> GPS_MB s = None ->
  length (TimeBCD (locate s)) = 6%nat ->
  length nine = 9%nat -> Forall (body_ok s) nine -> body_ok s body ->
  sentence_ok snt v -> text snt = (36 :: body ++ [10]) ++ [0] ->
  exists s', session mem jt jf jv true (nine ++ [body]) s = Ret (tt, s') /\
    reports s' = reports s ++ [position snt v] /\ couter s' = 0 /\ blocks s' = blocks s.
Proof.
  intros Hjt Hmem Hc Hmb Hbcd Hnine Hok Hbody Hsnt Htext.
  assert (Happ : forall l1 l2 a b, session mem jt jf jv true l1 a = Ret (tt, b) ->
    session mem jt jf jv true (l1 ++ l2) a = session mem jt jf jv true l2 b).
  { clear. intros l1. induction l1 as [|c l1 IH]; intros l2 a b; cbn [app session]; [by intros [= ->]|].
    unfold_st. destruct (recv _ a) as [[[] x]|]; [|done].
    destruct (gps_iter _ _ _ _ _ x) as [[z y]|]; [|done]. apply IH. }
  destruct (session_count mem jt jf jv true nine s Hok) as (u & Hu & Hrun); [lia|lia|done|].
  rewrite (Happ _ _ _ _ Hrun). clear Hrun Happ. set (s1 := with_couter _ _).
  destruct Hbody as (Hi & Hl & Hs).
  destruct (recv_sentence body s1 Hi) as (rest & mb & Hmbs & Hr); [cbn; lia|done|].
  cbn [session]. rewrite (st_bind_run _ _ _ _ _ Hr). unfold gps_iter. unfold_st. cbn [GPS_MB with_mb].
  destruct mb as [m|]; [|done]. cbn [couter s1 with_couter with_mb with_rx]. rewrite Hc, Hnine.
  change (u8 (0 + Z.of_nat 9 + 1) <? 10) with false. unfold Unpack_GPRMC. unfold_st.
  cbn [blocks with_couter with_mb with_rx UserData with_blocks locate s1].
  rewrite (proj2 (Nat.leb_gt _ _)) by lia.
  replace (36 :: body ++ [10; 0] ++ rest) with ((36 :: body ++ [10]) ++ 0 :: rest)
    by (cbn; by rewrite <- app_assoc).
  rewrite unpack_loop_tail, <- Htext.
  destruct (unpack_sentence snt v (mkG jt 0 0 jf jv (locate s)) Hsnt) as (g' & -> & Ho); [by split|done|].
  cbn [fst snd]. unfold_st. cbn [reports with_blocks with_locate locate]. rewrite Ho.
  eexists. split; [reflexivity|]. done.
Qed.

Fixpoint decode_all (mem : nat) (jt : list Z) (jf : spec_float) (jv : Z) (ts : list (list Z)) :
    ST gps (list Z) :=
  match ts with
  | [] => mret []
  | t :: ts => r ← Unpack_GPRMC mem jt jf jv t; rs ← decode_all mem jt jf jv ts; mret (r :: rs)
  end.

(** A sentence without a fix makes [Unpack_GPRMC] return without releasing
    its block, so each one leaks 100 bytes; when they have used up the heap,
    every later sentence is rejected, even one with a fix. *)
Lemma gps_leak mem jt jf jv n head hh mm ss frac c st rest s others :
  length jt = 100%nat ->
  plain head -> plain (pairs hh mm ss frac) -> plain (c :: st) -> Forall isdigit (pairs hh mm ss []) ->
  c <> 65 -> (blocks s + n = mem)%nat ->
  exists s', decode_all mem jt jf jv
      (replicate n (void_text head (pairs hh mm ss frac) c st rest) ++ others) s =
        Ret (replicate (n + length others) (-1), s') /\ blocks s' = mem.
Proof.
  intros Hjt Hh Ht Hst Hd Hc. revert s. induction n as [|n IH]; intros s Hn; cbn [replicate app decode_all Nat.add].
  - exists s. split; [|lia]. revert s Hn. induction others as [|o others IHo]; intros s Hn; [done|].
    cbn [decode_all length replicate]. unfold Unpack_GPRMC. unfold_st.
    rewrite (proj2 (Nat.leb_le _ _)) by lia. unfold_st. by rewrite IHo.
  - unfold Unpack_GPRMC at 1. unfold_st. rewrite (proj2 (Nat.leb_gt _ _)) by lia.
    destruct (unpack_void head hh mm ss frac c st rest (mkG jt 0 0 jf jv (locate s)) Hh Ht Hst Hd Hc)
      as (g' & Hg); [by split|].
    cbn [locate with_blocks]. unfold_st. cbn [locate with_blocks]. rewrite Hg. cbn [fst snd].
    match goal with |- context [decode_all _ _ _ _ _ ?x] => destruct (IH x) as (s' & -> & Hb) end.
    + cbn. lia.
    + by exists s'.
Qed.

(** ** Witnesses *)

Definition loc0 : LocateBasicInfo := mkLoc 0 0 7 0 0 (replicate 6 0).
Definition gps0 : gps := mkGps (replicate 200 0) 0 None 0 0 loc0 [].

(** $GPRMC,083559.00,A,4717.11437,N,00833.91522,E,022.4,077.52,091202,,,A *)
Definition snt0 : sentence :=
  mkS (str "$GPRMC") (48, 56) (51, 53) (53, 57) (str ".00") [] (str "4717", str "11437") (str "N")
    (str "00833", str "91522") (str "E") (str "022.4") (str "077", str "52")
    (48, 57) (49, 50) (48, 50) [] [] [] (str "A" ++ [13; 10]).

(** Character classes of concrete fields. *)
Ltac show_chars :=
  unfold plain, isdigit; cbn;
  repeat first [apply Forall_cons_2 | apply Forall_nil_2 | split | exact I | apply Nat.leb_le; reflexivity | lia | discriminate].

Lemma gps_tenth_witness : exists s',
  session 3 (replicate 100 7) S754_nan 5 true
    (replicate 9 (str "GPGGA,x") ++ [str "GPRMC,083559.00,A,4717.11437,N,00833.91522,E,022.4,077.52,091202,,,A" ++ [13]])
    gps0 = Ret (tt, s') /\
  reports s' = [mkLoc 471711437 83391522 0 4 77 [0x02; 0x12; 0x09; 0x08; 0x35; 0x59]] /\
  couter s' = 0 /\ blocks s' = 0%nat.
Proof.
  destruct (sscanf_float (str "022.4")) as [v|] eqn:Hv; [|discriminate].
  assert (Hpos : position snt0 v = mkLoc 471711437 83391522 0 4 77 [0x02; 0x12; 0x09; 0x08; 0x35; 0x59])
    by (vm_compute in Hv; injection Hv as <-; vm_compute; reflexivity).
  rewrite <- Hpos.
  apply (gps_tenth_reported 3 (replicate 100 7) S754_nan 5 (replicate 9 (str "GPGGA,x")) snt0 v);
    [reflexivity|cbn; lia|reflexivity|reflexivity|reflexivity|reflexivity| | | |vm_compute; reflexivity].
  - apply Forall_replicate. split_and!; [|cbn; lia|cbn; lia].
    unfold inner, byte. cbn. repeat (apply Forall_cons; split; [lia|]). by apply Forall_nil.
  - split_and!; [|cbn; lia|cbn; lia].
    unfold inner, byte. cbn. repeat (apply Forall_cons; split; [lia|]). by apply Forall_nil.

  - split; try exact Hv; show_chars.
Defined.

(** 22.4 knots are 41.4 km/h, so the documented value is 414; the code reports 4. *)
Example speed_undocumented : speed_of <$> sscanf_float (str "022.4") = Some 4 /\ 224 * 1852 / 1000 = 414.
Proof. by vm_compute. Qed.

Lemma gps_leak_witness : exists s',
  decode_all 2 (replicate 100 7) S754_nan 0
    (replicate 2 (void_text (str "$GPRMC") (pairs (48, 56) (51, 53) (53, 57) []) 86 [] [13; 10; 0])
     ++ [text snt0]) gps0 = Ret ([-1; -1; -1], s') /\ blocks s' = 2%nat.
Proof.
  apply (gps_leak 2 (replicate 100 7) S754_nan 0 2); show_chars.
Defined.
