(* ===== verification/Voice.v ===== *)
(** * Voice

    [src/MySouce/Vocoder/RecordAPP.c] and [SoundAPP.c]: [Module Recorder] is
    the double buffer between the sampling interrupt and the encoder thread,
    [Module Player] the ring of encoded packets between the network and the
    decoder thread.  The Speex codec itself is a parameter. *)

From S2P Require Import Prelude Ring.

Open Scope Z_scope.

Definition ENCODED_FRAME_SIZE : nat := 20.
Definition FRAME_SIZE : nat := 160.

Module Recorder.

Section recorder.
(** The encoder: a state machine from frames to packets. *)
Context {E : Type} (speex : E -> list Z -> E * list Z).

Record rec := mkRec {
  Buffer0 : list Z;
  Buffer1 : list Z;
  currentIndex : Z;
  i : nat;                         (**r the [static i] of [record_input2] *)
  recMB : list Z;                  (**r mailbox of five messages *)
  enc_state : E;
  out_bytes : list Z;
  waiting : bool;                  (**r blocked in [rt_event_recv] *)
  fed : list (list Z);             (**r frames given to the encoder *)
  voices : list (list Z)           (**r [GNSS_T_Voice] *)
}.

Definition with_buf (r : rec) b0 b1 c n :=
  mkRec b0 b1 c n (recMB r) (enc_state r) (out_bytes r) (waiting r) (fed r) (voices r).
Definition with_mb (r : rec) m :=
  mkRec (Buffer0 r) (Buffer1 r) (currentIndex r) (i r) m (enc_state r) (out_bytes r) (waiting r) (fed r) (voices r).
Definition with_enc (r : rec) e o f :=
  mkRec (Buffer0 r) (Buffer1 r) (currentIndex r) (i r) (recMB r) e o (waiting r) f (voices r).
Definition with_voices (r : rec) w v :=
  mkRec (Buffer0 r) (Buffer1 r) (currentIndex r) (i r) (recMB r) (enc_state r) (out_bytes r) w (fed r) v.

(** The sample as it is stored: [(size)^0x8000] in a signed 16-bit word. *)
Definition sample (size : Z) : Z := s16 (Z.lxor size 0x8000).

Definition rt_mb_send (v : Z) : ST rec unit :=
  modify (fun r => if (length (recMB r) <? 5)%nat then with_mb r (recMB r ++ [v]) else r).

Definition record_input2 (size : Z) : ST rec unit :=
  r ← get;
  _ ← (if currentIndex r =? 0 then
         b ← lift (upd (Buffer0 r) (Z.of_nat (i r)) (sample size));
         modify (fun r => with_buf r b (Buffer1 r) (currentIndex r) (S (i r)))
       else
         b ← lift (upd (Buffer1 r) (Z.of_nat (i r)) (sample size));
         modify (fun r => with_buf r (Buffer0 r) b (currentIndex r) (S (i r))));
  r ← get;
  if (i r =? FRAME_SIZE)%nat then
    if negb (currentIndex r =? 0) then
      _ ← rt_mb_send (Z.shiftl 1 2); modify (fun r => with_buf r (Buffer0 r) (Buffer1 r) 0 0)
    else
      _ ← rt_mb_send (Z.shiftl 1 1); modify (fun r => with_buf r (Buffer0 r) (Buffer1 r) 1 0)
  else mret tt.

(** Encodes [frame] into [out_bytes]. *)
Definition encode (frame : list Z) : ST rec unit :=
  modify (fun r =>
    let '(e, o) := speex (enc_state r) frame in
    with_enc r e (take ENCODED_FRAME_SIZE o) (fed r ++ [frame])).

(** The end of the loop: wait for the authenticated event and send. *)
Definition send_voice (auth : bool) : ST rec unit :=
  modify (fun r => if auth then with_voices r false (voices r ++ [out_bytes r])
                   else with_voices r true (voices r)).

(** A turn of the thread. *)
Definition record_turn (auth : bool) : ST rec unit :=
  r ← get;
  if waiting r then send_voice auth
  else
    match recMB r with
    | [] => mret tt
    | Result :: ms =>
        _ ← modify (fun r => with_mb r ms);
        _ ← (if Result =? Z.shiftl 1 1 then encode (Buffer0 r)
             else if Result =? Z.shiftl 1 2 then encode (Buffer1 r)
             else mret tt);
        send_voice auth
    end.

(** ** Schedules *)

Inductive ev := Sample (x : Z) | Turn (auth : bool).

Definition exec (e : ev) : ST rec unit :=
  match e with Sample x => record_input2 x | Turn auth => record_turn auth end.

Fixpoint run (evs : list ev) : ST rec unit :=
  match evs with [] => mret tt | e :: evs => _ ← exec e; run evs end.

Definition samples (evs : list ev) : list Z :=
  flat_map (fun e => match e with Sample x => [sample x] | Turn _ => [] end) evs.

(** The thread keeps up: no frame is completed while another one waits. *)
Fixpoint in_time (evs : list ev) (r : rec) : Prop :=
  match evs with
  | [] => True
  | e :: evs =>
      (match e with Sample _ => i r = pred FRAME_SIZE -> recMB r = [] | Turn _ => True end) /\
      forall r', exec e r = Ret (tt, r') -> in_time evs r'
  end.

(** The packets the encoder makes of a list of frames. *)
Fixpoint packets (e : E) (fs : list (list Z)) : list (list Z) :=
  match fs with
  | [] => []
  | f :: fs => let '(e, o) := speex e f in take ENCODED_FRAME_SIZE o :: packets e fs
  end.

Fixpoint after (e : E) (fs : list (list Z)) : E :=
  match fs with [] => e | f :: fs => after (speex e f).1 fs end.

Lemma packets_snoc fs f : forall e, packets e (fs ++ [f]) =
  packets e fs ++ [take ENCODED_FRAME_SIZE (speex (after e fs) f).2].
Proof.
  induction fs as [|g fs IH]; intros e; cbn.
  - by destruct (speex e f).
  - destruct (speex e g) as [e1 o]. by rewrite IH.
Qed.

Lemma after_snoc fs f : forall e, after e (fs ++ [f]) = (speex (after e fs) f).1.
Proof. induction fs as [|g fs IH]; intros e; cbn; [done|]. by rewrite IH. Qed.

(** [xs] are the samples taken so far: the frames fed to the encoder, the
    frame waiting in the other buffer, if any, and the part of a frame in the
    current one. *)
Record inv (e0 : E) (r : rec) (xs : list Z) (pend part : list Z) : Prop := {
  iv_xs : xs = concat (fed r) ++ pend ++ part;
  iv_len0 : length (Buffer0 r) = FRAME_SIZE;
  iv_len1 : length (Buffer1 r) = FRAME_SIZE;
  iv_cur : currentIndex r = 0 \/ currentIndex r = 1;
  iv_i : i r = length part;
  iv_lt : (length part < FRAME_SIZE)%nat;
  iv_part : take (length part) (if currentIndex r =? 0 then Buffer0 r else Buffer1 r) = part;
  iv_pend : match recMB r with
            | [] => pend = []
            | [v] => v = (if currentIndex r =? 0 then Z.shiftl 1 2 else Z.shiftl 1 1) /\
                     pend = (if currentIndex r =? 0 then Buffer1 r else Buffer0 r)
            | _ => False
            end;
  iv_frames : Forall (fun f => length f = FRAME_SIZE) (fed r);
  iv_enc : enc_state r = after e0 (fed r);
  iv_voices : voices r ++ (if waiting r then [out_bytes r] else []) = packets e0 (fed r)
}.

Lemma take_insert_snoc (l : list Z) n x :
  (n < length l)%nat -> take (S n) (<[n := x]> l) = take n l ++ [x].
Proof.
  intros Hn. erewrite take_S_r; [|by apply list_lookup_insert_eq].
  by rewrite take_insert_ge by lia.
Qed.

Lemma input_inv e0 r xs pend part x :
  inv e0 r xs pend part -> (i r = pred FRAME_SIZE -> recMB r = []) ->
  exists r' pend' part', record_input2 x r = Ret (tt, r') /\
    inv e0 r' (xs ++ [sample x]) pend' part'.
Proof.
  intros [Hxs H0 H1 Hcur Hi Hlt Hpart Hpend Hfr Henc Hv] Htime.
  unfold record_input2, rt_mb_send. unfold_st.
  assert (Hpart' : forall b, length b = FRAME_SIZE -> take (length part) b = part ->
    take (length (part ++ [sample x])) (<[length part := sample x]> b) = part ++ [sample x]).
  { intros b Hb Ht. rewrite length_app. cbn [length]. rewrite Nat.add_1_r.
    by rewrite take_insert_snoc, Ht by lia. }
  assert (Hlen' : length (part ++ [sample x]) = S (length part)) by (rewrite length_app; cbn; lia).
  unfold FRAME_SIZE in *.
  destruct Hcur as [Hc|Hc]; rewrite Hc in *; cbn [Z.eqb] in *;
    rewrite Hi, upd_ok, Nat2Z.id by lia; unfold_st; cbn [i with_buf currentIndex].
  - destruct (Nat.eqb_spec (S (i r)) 160) as [Hf|Hf].
    + rewrite Hc. cbn [negb Z.eqb]. rewrite Htime in * by (rewrite Hi in *; lia).
      subst pend. cbn [recMB with_buf length Nat.ltb Nat.leb app]. rewrite Htime by lia. cbn [length Nat.ltb Nat.leb app].
      eexists _, (part ++ [sample x]), []. split; [reflexivity|].
      split; cbn; try done.
      * rewrite Hxs. rewrite app_nil_r. cbn. by rewrite app_assoc.
      * by rewrite length_insert.
      * by right.
      * unfold FRAME_SIZE in *; lia.
      * split; [done|]. rewrite <- (Hpart' (Buffer0 r)) by done.
        rewrite Hlen', take_ge by (rewrite length_insert; lia). done.
    + eexists _, pend, (part ++ [sample x]). split; [reflexivity|].
      split; cbn; try done.
      * rewrite Hxs. by rewrite <- !app_assoc.
      * by rewrite length_insert.
      * by left.
      * unfold FRAME_SIZE in *; lia.
      * unfold FRAME_SIZE in *; lia.
      * rewrite Hc. cbn. by apply Hpart'.
      * by rewrite Hc.
  - destruct (Nat.eqb_spec (S (i r)) 160) as [Hf|Hf].
    + rewrite Hc. cbn [negb Z.eqb]. rewrite Htime in * by (rewrite Hi in *; lia).
      subst pend. cbn [recMB with_buf]. rewrite Htime by lia. cbn [length Nat.ltb Nat.leb app].
      eexists _, (part ++ [sample x]), []. split; [reflexivity|].
      split; cbn; try done.
      * rewrite Hxs. rewrite app_nil_r. cbn. by rewrite app_assoc.
      * by rewrite length_insert.
      * by left.
      * unfold FRAME_SIZE in *; lia.
      * split; [done|]. rewrite <- (Hpart' (Buffer1 r)) by done.
        rewrite Hlen', take_ge by (rewrite length_insert; lia). done.
    + eexists _, pend, (part ++ [sample x]). split; [reflexivity|].
      split; cbn; try done.
      * rewrite Hxs. by rewrite <- !app_assoc.
      * by rewrite length_insert.
      * by right.
      * unfold FRAME_SIZE in *; lia.
      * unfold FRAME_SIZE in *; lia.
      * rewrite Hc. cbn. by apply Hpart'.
      * by rewrite Hc.
Qed.

Lemma encode_turn_inv e0 r xs pend part auth :
  inv e0 r xs pend part ->
  exists r' pend', record_turn auth r = Ret (tt, r') /\ inv e0 r' xs pend' part.
Proof.
  intros [Hxs H0 H1 Hcur Hi Hlt Hpart Hpend Hfr Henc Hv].
  unfold record_turn, send_voice, encode. unfold_st. destruct (waiting r) eqn:Hw.
  - destruct auth; eexists _, pend; (split; [reflexivity|]); split; cbn; try done.
    by rewrite app_nil_r.
  - destruct (recMB r) as [|v [|]] eqn:Hmb; [|clear Hmb|done].
    { exists r, pend. split; [done|]. split; try done; rewrite ?Hmb, ?Hw; done. }
    destruct Hpend as [-> ->].
    assert (Hrest : forall f r1, f = (if currentIndex r =? 0 then Buffer1 r else Buffer0 r) ->
      r1 = with_enc (with_mb r []) (speex (enc_state r) f).1
             (take ENCODED_FRAME_SIZE (speex (enc_state r) f).2) (fed r ++ [f]) ->
      exists r' pend', Ret (tt, if auth then with_voices r1 false (voices r1 ++ [out_bytes r1])
                   else with_voices r1 true (voices r1)) = Ret (tt, r') /\ inv e0 r' xs pend' part).
    { intros f r1 Hf ->.
      assert (Hvv : (voices r ++ [take ENCODED_FRAME_SIZE (speex (enc_state r) f).2]) = packets e0 (fed r ++ [f])).
      { rewrite packets_snoc, <- Hv, app_nil_r, Henc. done. }
      exists (if auth then with_voices (with_enc (with_mb r []) (speex (enc_state r) f).1
             (take ENCODED_FRAME_SIZE (speex (enc_state r) f).2) (fed r ++ [f])) false
               (voices r ++ [take ENCODED_FRAME_SIZE (speex (enc_state r) f).2])
             else with_voices (with_enc (with_mb r []) (speex (enc_state r) f).1
             (take ENCODED_FRAME_SIZE (speex (enc_state r) f).2) (fed r ++ [f])) true (voices r)), [].
      split; [by destruct auth|].
      destruct auth; split; cbn; try done.
      all: try (by rewrite after_snoc, Henc).
      all: try (apply Forall_app; split; [done|]; apply Forall_singleton; subst f; by destruct (_ =? 0)).
      all: try (by rewrite Hxs, concat_app, <- app_assoc; cbn; rewrite app_nil_r, <- Hf).
      by rewrite app_nil_r. }
    cbn [Buffer0 Buffer1 with_mb enc_state].
    destruct Hcur as [Hc|Hc]; rewrite Hc in *; cbn [Z.eqb] in *.
    + change (Z.shiftl 1 2 =? Z.shiftl 1 1) with false. change (Z.shiftl 1 2 =? Z.shiftl 1 2) with true.
      cbn [enc_state with_mb Buffer1 fed]. destruct (speex (enc_state r) (Buffer1 r)) as [e o] eqn:He.
      apply (Hrest (Buffer1 r)); [done|]. by rewrite He.
    + change (Z.shiftl 1 1 =? Z.shiftl 1 1) with true.
      cbn [enc_state with_mb Buffer0 fed]. destruct (speex (enc_state r) (Buffer0 r)) as [e o] eqn:He.
      apply (Hrest (Buffer0 r)); [done|]. by rewrite He.
Qed.

Lemma run_inv e0 evs : forall r xs pend part,
  inv e0 r xs pend part -> in_time evs r ->
  exists r' pend' part', run evs r = Ret (tt, r') /\ inv e0 r' (xs ++ samples evs) pend' part'.
Proof.
  induction evs as [|e evs IH]; intros r xs pend part H Ht; cbn [run samples flat_map].
  - exists r, pend, part. by rewrite app_nil_r.
  - destruct Ht as [Hnow Hlater]. destruct e as [x|auth]; cbn [exec] in *.
    + destruct (input_inv e0 r xs pend part x H Hnow) as (r1 & p1 & q1 & Hr & H1).
      rewrite (st_bind_run _ _ _ _ _ Hr).
      destruct (IH _ _ _ _ H1 (Hlater _ Hr)) as (r' & p' & q' & Hr' & H').
      exists r', p', q'. split; [done|]. rewrite <- app_assoc in H'. exact H'.
    + destruct (encode_turn_inv e0 r xs pend part auth H) as (r1 & p1 & Hr & H1).
      rewrite (st_bind_run _ _ _ _ _ Hr). apply (IH _ _ _ _ H1 (Hlater _ Hr)).
Qed.
End recorder.
End Recorder.

Module Player.

Definition RT_EOK : Z := 0.
Definition RT_ERROR : Z := 1.

Section player.
(** The decoder: a state machine from packets to frames. *)
Context {D : Type} (speex : D -> list Z -> D * list Z).

Record play := mkPlay {
  nodes : gmap Z (slot (list Z));          (**r [ReceiveEncodeDataTypedef] nodes *)
  pRead : Z;                               (**r [pReadEncodeData] *)
  pWrite : Z;                              (**r [pWriteEncodeData] *)
  DecoderSem : nat;
  dec_state : D;
  written : list (list Z);                 (**r [device->write] *)
  restarts : nat                           (**r times the device was reopened *)
}.

Definition with_nodes p n := mkPlay n (pRead p) (pWrite p) (DecoderSem p) (dec_state p) (written p) (restarts p).
Definition with_ptrs p r w := mkPlay (nodes p) r w (DecoderSem p) (dec_state p) (written p) (restarts p).
Definition with_sem p n := mkPlay (nodes p) (pRead p) (pWrite p) n (dec_state p) (written p) (restarts p).
Definition with_dev p d w n := mkPlay (nodes p) (pRead p) (pWrite p) (DecoderSem p) d w n.

Definition node (a : Z) : ST play (slot (list Z)) := fun p =>
  match nodes p !! a with Some s => Ret (s, p) | None => Err NullDeref end.

Definition set_node (a : Z) (s : slot (list Z)) : ST play unit :=
  _ ← node a; modify (fun p => with_nodes p (<[a := s]> (nodes p))).

(** [rt_malloc] gave [a] ([junk] is the uninitialised node, nothing when the
    allocation failed). *)
Definition malloc_node (m : Z * slot (list Z)) : ST play unit :=
  modify (fun p => if m.1 =? 0 then p else with_nodes p (<[m.1 := m.2]> (nodes p))).

(** The loop of [ReceiveBufInit] over the remaining nodes. *)
Fixpoint init_loop (ms : list (Z * slot (list Z))) : ST play unit :=
  match ms with
  | [] => mret tt
  | m :: ms =>
      _ ← malloc_node m;
      p ← get;
      s ← node (pRead p);
      _ ← set_node (pRead p) (mkSlot (payload s) (Ready s) m.1);
      _ ← modify (fun p => with_ptrs p m.1 (pWrite p));
      s ← node m.1;
      _ ← set_node m.1 (mkSlot (payload s) 0 (next s));
      init_loop ms
  end.

Definition ReceiveBufInit (ms : list (Z * slot (list Z))) : ST play unit :=
  match ms with
  | [] => mret tt
  | m :: ms =>
      _ ← malloc_node m;
      _ ← modify (fun p => with_ptrs p m.1 (pWrite p));
      s ← node m.1;
      _ ← set_node m.1 (mkSlot (payload s) 0 (next s));
      _ ← modify (fun p => with_ptrs p (pRead p) (pRead p));
      _ ← init_loop ms;
      p ← get;
      s ← node (pRead p);
      _ ← set_node (pRead p) (mkSlot (payload s) (Ready s) (pWrite p));
      modify (fun p => with_ptrs p (pWrite p) (pWrite p))
  end.

(** [pData] is the memory from the argument on. *)
Definition CopyToDecoderBuf (pData : list Z) : ST play Z :=
  p ← get;
  s ← node (pWrite p);
  if negb (Ready s =? 0) then mret RT_ERROR
  else
    if (length pData <? ENCODED_FRAME_SIZE)%nat then lift (Err OutOfBounds)
    else
      d ← lift (upd_range (payload s) 0 (s8 <$> take ENCODED_FRAME_SIZE pData));
      _ ← set_node (pWrite p) (mkSlot d 1 (next s));
      _ ← modify (fun p => with_ptrs p (pRead p) (next s));
      _ ← modify (fun p => with_sem p (S (DecoderSem p)));
      mret RT_EOK.

(** One turn of the decoder thread: [false] while the semaphore blocks; [len]
    is what [device->write] accepts of the 320 bytes. *)
Definition decoder_turn (len : Z) : ST play bool :=
  p ← get;
  match DecoderSem p with
  | O => mret false
  | S n =>
      _ ← modify (fun p => with_sem p n);
      s ← node (pRead p);
      if Ready s =? 0 then mret true
      else
        _ ← modify (fun p =>
              let '(d, f) := speex (dec_state p) (payload s) in
              with_dev p d (written p ++ [take FRAME_SIZE f])
                (if len <? Z.of_nat FRAME_SIZE * 2 then S (restarts p) else restarts p));
        _ ← set_node (pRead p) (mkSlot (payload s) 0 (next s));
        _ ← modify (fun p => with_ptrs p (next s) (pWrite p));
        mret true
  end.

(** ** Schedules *)

Inductive ev := Packet (data : list Z) | Turn (len : Z).

(** The results: of [CopyToDecoderBuf] for a packet, 0 for a turn. *)
Fixpoint run (evs : list ev) : ST play (list Z) :=
  match evs with
  | [] => mret []
  | Packet data :: evs => r ← CopyToDecoderBuf data; rs ← run evs; mret (r :: rs)
  | Turn len :: evs => _ ← decoder_turn len; rs ← run evs; mret (0 :: rs)
  end.

Definition packet_ok (e : ev) : Prop :=
  match e with Packet data => length data = ENCODED_FRAME_SIZE | Turn _ => True end.

(** *** Specification: a queue of [cap] packets *)

Fixpoint spec (cap : nat) (d : D) (q : list (list Z)) (evs : list ev) :
    list Z * list (list Z) * (D * list (list Z)) :=
  match evs with
  | [] => ([], [], (d, q))
  | Packet data :: evs =>
      if (length q <? cap)%nat then
        let '(rs, fs, x) := spec cap d (q ++ [s8 <$> data]) evs in (RT_EOK :: rs, fs, x)
      else let '(rs, fs, x) := spec cap d q evs in (RT_ERROR :: rs, fs, x)
  | Turn _ :: evs =>
      match q with
      | [] => let '(rs, fs, x) := spec cap d q evs in (0 :: rs, fs, x)
      | pk :: q =>
          let '(d, f) := speex d pk in
          let '(rs, fs, x) := spec cap d q evs in (0 :: rs, take FRAME_SIZE f :: fs, x)
      end
  end.

Record inv (p : play) (ns : list Z) (q : list (list Z)) : Prop := {
  iv_ring : ring (nodes p) (pRead p) (pWrite p) ns q;
  iv_sem : DecoderSem p = length q;
  iv_pay : forall a s, a ∈ ns -> nodes p !! a = Some s -> length (payload s) = ENCODED_FRAME_SIZE
}.

Lemma packet_inv p ns q data :
  inv p ns q -> length data = ENCODED_FRAME_SIZE -> ns <> [] ->
  exists p', CopyToDecoderBuf data p =
      Ret (if (length q <? length ns)%nat then RT_EOK else RT_ERROR, p') /\
    inv p' ns (if (length q <? length ns)%nat then q ++ [s8 <$> data] else q) /\
    dec_state p' = dec_state p /\ written p' = written p.
Proof.
  intros [Hr Hsem Hpay] Hd Hne. unfold CopyToDecoderBuf, node. unfold_st.
  destruct (Nat.ltb_spec (length q) (length ns)) as [Hlt|Hge].
  - destruct (ring_room _ _ _ _ _ Hr Hlt) as (s & Hs & Hrd). rewrite Hs, Hrd. cbn [Z.eqb negb].
    rewrite Hd, Nat.ltb_irrefl, take_ge by lia.
    assert (Hin : pWrite p ∈ ns) by (eapply list_elem_of_lookup_2, (rg_write _ _ _ _ _ Hr)).
    assert (Hps := Hpay _ _ Hin Hs).
    assert (Hfl : length (s8 <$> data) = ENCODED_FRAME_SIZE) by (by rewrite length_fmap).
    unfold_st. rewrite upd_range_0 by lia. unfold_st. rewrite Hfl, drop_ge, app_nil_r by lia.
    unfold set_node, node. unfold_st. rewrite Hs. eexists. split; [reflexivity|].
    split; [|done]. split; cbn.
    + by apply ring_put.
    + rewrite length_app, Hsem. cbn. lia.
    + intros a s' Ha. rewrite lookup_insert. case_decide; [intros [= <-]; done|]. by apply Hpay.
  - assert (Hfull : length q = length ns) by (pose proof (rg_fits _ _ _ _ _ Hr); lia).
    destruct (ring_full _ _ _ _ _ Hr Hfull) as (s & Hs & Hrd). rewrite Hs, Hrd. cbn [Z.eqb negb].
    exists p. done.
Qed.

Lemma play_turn_inv p ns q len :
  inv p ns q ->
  exists p' ns', decoder_turn len p = Ret (negb (length q =? 0)%nat, p') /\ length ns' = length ns /\
    inv p' ns' (tail q) /\
    match q with
    | [] => dec_state p' = dec_state p /\ written p' = written p
    | pk :: _ => dec_state p' = (speex (dec_state p) pk).1 /\
        written p' = written p ++ [take FRAME_SIZE (speex (dec_state p) pk).2]
    end.
Proof.
  intros [Hr Hsem Hpay]. unfold decoder_turn. unfold_st. rewrite Hsem.
  destruct q as [|pk q]; cbn [length].
  - exists p, ns. done.
  - destruct (ring_first _ _ _ _ _ Hr) as (s & Hs & Hrd & Hpk).
    unfold node. unfold_st. cbn [nodes with_sem pRead]. rewrite Hs, Hrd. cbn [Z.eqb].
    destruct (ring_take _ _ _ _ _ _ _ Hr Hs) as (ns' & Hl & Hel & Hr').
    unfold set_node, node. unfold_st. rewrite Hpk in *.
    cbn [dec_state with_sem]. destruct (speex (dec_state p) pk) as [d f].
    cbn [nodes with_dev with_sem]. rewrite Hs.
    eexists _, ns'. split; [reflexivity|]. split; [done|]. split; [|done].
    split; cbn; [done|done|].
    intros a s' Ha%Hel. rewrite lookup_insert. case_decide.
    + intros [= <-]. cbn. rewrite <- Hpk. eapply Hpay; [|exact Hs].
      eapply list_elem_of_lookup_2, (rg_read _ _ _ _ _ Hr).
    + by apply Hpay.
Qed.

Lemma run_spec evs : forall p ns q,
  inv p ns q -> ns <> [] -> Forall packet_ok evs ->
  exists p', run evs p = Ret ((spec (length ns) (dec_state p) q evs).1.1, p') /\
    written p' = written p ++ (spec (length ns) (dec_state p) q evs).1.2.
Proof.
  induction evs as [|[data|len] evs IH]; intros p ns q H Hne Hok; cbn [run spec].
  - exists p. cbn. by rewrite app_nil_r.
  - apply Forall_cons in Hok as [Hd Hok].
    destruct (packet_inv p ns q data H Hd Hne) as (p1 & Hr & H1 & Hds & Hw).
    rewrite (st_bind_run _ _ _ _ _ Hr).
    destruct (IH _ _ _ H1 Hne Hok) as (p' & Hr' & Hw'). rewrite (st_bind_run _ _ _ _ _ Hr').
    rewrite Hds, Hw in *. exists p'. destruct (length q <? length ns)%nat;
      destruct (spec (length ns) (dec_state p) _ evs) as [[rs fs] x]; done.
  - apply Forall_cons in Hok as [_ Hok].
    destruct (play_turn_inv p ns q len H) as (p1 & ns1 & Hr & Hl & H1 & Hst).
    rewrite (st_bind_run _ _ _ _ _ Hr).
    destruct (IH _ _ _ H1) as (p' & Hr' & Hw'); [by destruct ns1, ns|done|].
    rewrite (st_bind_run _ _ _ _ _ Hr'). rewrite Hl in *. exists p'. destruct q as [|pk q].
    + destruct Hst as [Hd1 Hd2]. rewrite Hd1, Hd2 in *. cbn [tail] in *.
      destruct (spec _ _ [] evs) as [[rs fs] x]; done.
    + destruct Hst as [Hd1 Hd2]. cbn [tail] in *. destruct (speex (dec_state p) pk) as [d f].
      cbn [fst snd] in *. rewrite Hd1, Hd2 in *.
      destruct (spec _ _ q evs) as [[rs fs] x]. cbn in *. split; [done|]. by rewrite Hw', <- app_assoc.
Qed.

(** *** Building the ring *)

Record good_mallocs (ms : list (Z * slot (list Z))) : Prop := {
  gm_nodup : NoDup ms.*1;
  gm_ok : Forall (fun m => m.1 <> 0 /\ length (payload m.2) = ENCODED_FRAME_SIZE) ms
}.

Definition pay_ok (p : play) (ns : list Z) : Prop :=
  forall a s, a ∈ ns -> nodes p !! a = Some s -> length (payload s) = ENCODED_FRAME_SIZE.

Lemma init_loop_run ms : forall p ns,
  open_chain (nodes p) (pWrite p) (pRead p) ns -> NoDup (ns ++ ms.*1) -> pay_ok p ns ->
  Forall (fun m => m.1 <> 0 /\ length (payload m.2) = ENCODED_FRAME_SIZE) ms ->
  exists p', init_loop ms p = Ret (tt, p') /\
    open_chain (nodes p') (pWrite p') (pRead p') (ns ++ ms.*1) /\ pay_ok p' (ns ++ ms.*1) /\
    DecoderSem p' = DecoderSem p /\ dec_state p' = dec_state p /\ written p' = written p.
Proof.
  induction ms as [|[a s0] ms IH]; intros p ns Hoc Hnd Hpay Hms; cbn [init_loop].
  - exists p. cbn. by rewrite app_nil_r.
  - apply Forall_cons in Hms as [[Ha0 Hl0] Hms]. cbn in Ha0, Hl0, Hnd.
    assert (Han : a ∉ ns) by (apply NoDup_app in Hnd as (_ & Hd & _); intros Hin; by apply (Hd a Hin); left).
    destruct (oc_node _ _ _ _ Hoc (pred (length ns)) (pRead p)) as (s & Hs & Hrd & _);
      [by rewrite <- last_lookup, (oc_tl _ _ _ _ Hoc)|].
    assert (Hin : pRead p ∈ ns)
      by (eapply list_elem_of_lookup_2; rewrite <- last_lookup; apply (oc_tl _ _ _ _ Hoc)).
    assert (Hne : pRead p <> a) by (intros Heq; by rewrite Heq in Hin).
    unfold malloc_node, set_node, node. unfold_st. cbn [fst snd]. rewrite (proj2 (Z.eqb_neq _ _) Ha0).
    cbn [nodes with_nodes pRead]. rewrite lookup_insert_ne, Hs by done.
    cbn [nodes with_nodes pRead]. rewrite lookup_insert_ne, Hs by done.
    cbn [nodes with_nodes pRead with_ptrs]. rewrite lookup_insert_ne, lookup_insert_eq by done.
    cbn [nodes with_nodes pRead with_ptrs]. rewrite lookup_insert_ne, lookup_insert_eq by done.
    match goal with |- context [init_loop ms ?x] => set (p1 := x) end.
    assert (Hn1 : nodes p1 = <[a := mkSlot (payload s0) 0 (next s0)]>
      (<[pRead p := mkSlot (payload s) (Ready s) a]> (nodes p))).
    { cbn. rewrite (insert_insert_ne _ (pRead p) a) by done. by rewrite insert_insert_eq. }
    destruct (IH p1 (ns ++ [a])) as (p' & Hrun & Hoc' & Hpay' & Hse & Hds & Hw).
    + rewrite Hn1. apply (open_chain_snoc _ _ (pRead p)); done.
    + rewrite <- app_assoc. done.
    + intros x y Hx. rewrite Hn1, lookup_insert. case_decide as Hax; [by intros [= <-]|].
      rewrite lookup_insert. case_decide as Hxr.
      * intros [= <-]. cbn. eapply Hpay; [exact Hin|exact Hs].
      * apply Hpay. apply elem_of_app in Hx as [Hx|Hx%list_elem_of_singleton]; [done|].
        by destruct Hax.
    + done.
    + exists p'. rewrite <- app_assoc in Hoc', Hpay'. done.
Qed.

Lemma ReceiveBufInit_run ms p :
  good_mallocs ms -> ms <> [] -> DecoderSem p = 0%nat ->
  exists p', ReceiveBufInit ms p = Ret (tt, p') /\ inv p' ms.*1 [] /\
    dec_state p' = dec_state p /\ written p' = written p.
Proof.
  intros [Hnd Hok] Hne Hsem. destruct ms as [|[a s0] ms]; [done|]. cbn [ReceiveBufInit].
  apply Forall_cons in Hok as [[Ha0 Hl0] Hok]. cbn in Ha0, Hl0.
  unfold malloc_node, set_node, node. unfold_st. cbn [fst snd].
  rewrite (proj2 (Z.eqb_neq _ _) Ha0). cbn [nodes with_nodes with_ptrs pRead].
  rewrite lookup_insert_eq. cbn [nodes with_nodes with_ptrs pRead]. rewrite lookup_insert_eq.
  match goal with |- context [init_loop ms ?x] => set (p1 := x) end.
  assert (Hn1 : nodes p1 = <[a := mkSlot (payload s0) 0 (next s0)]> (nodes p))
    by (cbn; by rewrite insert_insert_eq).
  destruct (init_loop_run ms p1 [a]) as (p2 & Hrun & Hoc & Hpay & Hse & Hds & Hw).
  { apply (open_chain_one _ a (payload s0) (next s0)). by rewrite Hn1, lookup_insert_eq. }
  { exact Hnd. }
  { intros x y ->%list_elem_of_singleton. rewrite Hn1, lookup_insert_eq. by intros [= <-]. }
  { done. }
  rewrite Hrun. set (ns := [a] ++ ms.*1) in *.
  assert (Hin : pRead p2 ∈ ns)
    by (eapply list_elem_of_lookup_2; rewrite <- last_lookup; apply (oc_tl _ _ _ _ Hoc)).
  destruct (oc_node _ _ _ _ Hoc (pred (length ns)) (pRead p2)) as (s & Hs & Hrd & _);
    [by rewrite <- last_lookup, (oc_tl _ _ _ _ Hoc)|].
  unfold set_node, node. unfold_st. rewrite Hs, Hs. eexists. split; [reflexivity|].
  split; [|by split]. split; cbn.
  - apply (ring_close _ _ _ _ _ Hoc Hs).
  - by rewrite Hse.
  - intros x y Hx. rewrite lookup_insert. case_decide as Hxr; [|by apply Hpay].
    intros [= <-]. cbn. eapply Hpay; [exact Hin|exact Hs].
Qed.
End player.
End Player.

(** The number of nodes [Decoder_thread_entery] asks for. *)
Definition DECODER_NODES : nat := 1000.

(** ** Properties *)

Section properties.
Context {E : Type} (enc : E -> list Z -> E * list Z).
Context {D : Type} (dec : D -> list Z -> D * list Z).

(** The recorder before the first sample. *)
Definition rec_start (r : Recorder.rec) (e0 : E) : Prop :=
  length (Recorder.Buffer0 r) = FRAME_SIZE /\ length (Recorder.Buffer1 r) = FRAME_SIZE /\
  Recorder.currentIndex r = 0 /\ Recorder.i r = 0%nat /\ Recorder.recMB r = [] /\
  Recorder.enc_state r = e0 /\ Recorder.waiting r = false /\ Recorder.fed r = [] /\ Recorder.voices r = [].

(** as long as no frame is completed while the previous one still waits,
    the recorder cuts the samples into consecutive frames of 160 and encodes
    them in order, without loss, repetition or mixing of the two buffers: the
    packets sent (and the one that waits for authentication) are those of the
    frames, and at most two frames' worth of samples has not been encoded
    yet. *)
Theorem record_frames r e0 evs :
  rec_start r e0 -> Recorder.in_time enc evs r ->
  exists r' fs rest, Recorder.run enc evs r = Ret (tt, r') /\
    Recorder.samples evs = concat fs ++ rest /\ Forall (fun f => length f = FRAME_SIZE) fs /\
    (length rest < 2 * FRAME_SIZE)%nat /\
    Recorder.voices r' ++ (if Recorder.waiting r' then [Recorder.out_bytes r'] else []) =
      Recorder.packets enc e0 fs.
Proof.
  intros (H0 & H1 & Hc & Hi & Hmb & He & Hw & Hf & Hv) Ht.
  assert (Hinv : Recorder.inv enc e0 r [] [] []).
  { split; rewrite ?Hf, ?Hw, ?Hv, ?Hmb; cbn; try done; [by left|unfold FRAME_SIZE; lia]. }
  destruct (Recorder.run_inv enc e0 evs r [] [] [] Hinv Ht) as (r' & pend & part & Hr & H').
  exists r', (Recorder.fed r'), (pend ++ part). destruct H'. split_and!; try done.
  assert (length pend <= FRAME_SIZE)%nat.
  { destruct (Recorder.recMB r') as [|v [|]]; [by subst pend; cbn; unfold FRAME_SIZE; lia| |done].
    destruct iv_pend as [_ ->]. destruct (_ =? 0); lia. }
  rewrite length_app. lia.
Qed.

(** C8: the player is a queue with as many places as nodes were allocated: for
    every interleaving of packets and turns of the decoder, a packet is
    refused with [RT_ERROR] exactly when the queue is full, otherwise it is
    decoded once, in order of arrival, whatever the device accepts of each
    frame; no access faults. *)
Theorem player_queue p ms evs :
  Player.good_mallocs ms -> ms <> [] -> Player.DecoderSem p = 0%nat ->
  Forall Player.packet_ok evs ->
  exists p', (_ ← Player.ReceiveBufInit ms; Player.run dec evs) p =
      Ret ((Player.spec dec (length ms) (Player.dec_state p) [] evs).1.1, p') /\
    Player.written p' = Player.written p ++ (Player.spec dec (length ms) (Player.dec_state p) [] evs).1.2.
Proof.
  intros Hms Hne Hsem Hok.
  destruct (Player.ReceiveBufInit_run ms p Hms Hne Hsem) as (p1 & Hinit & Hinv & Hd & Hw).
  rewrite (st_bind_run _ _ _ _ _ Hinit).
  destruct (Player.run_spec dec evs p1 ms.*1 [] Hinv) as (p' & Hrun & Hwr); [by destruct ms|done|].
  rewrite length_fmap, Hd, Hw in *. by exists p'.
Qed.
End properties.

(** ** Witnesses *)

(** A toy codec: the state counts, a packet repeats a frame's first sample. *)
Definition enc0 (n : nat) (f : list Z) : nat * list Z := (S n, replicate 20 (default 0 (head f))).
Definition dec0 (n : nat) (f : list Z) : nat * list Z := (S n, replicate 160 (default 0 (head f))).

Definition rec0 : @Recorder.rec nat :=
  Recorder.mkRec (replicate 160 0) (replicate 160 0) 0 0%nat [] 0%nat [] false [] [].

Lemma record_witness : exists r' fs rest,
  Recorder.run enc0 (replicate 160 (Recorder.Sample 0x8005) ++ [Recorder.Turn true; Recorder.Sample 1]) rec0
    = Ret (tt, r') /\
  Recorder.samples (replicate 160 (Recorder.Sample 0x8005) ++ [Recorder.Turn true; Recorder.Sample 1])
    = concat fs ++ rest /\ Forall (fun f => length f = FRAME_SIZE) fs /\ (length rest < 2 * FRAME_SIZE)%nat /\
  Recorder.voices r' ++ (if Recorder.waiting r' then [Recorder.out_bytes r'] else []) =
    Recorder.packets enc0 0%nat fs.
Proof.
  apply (record_frames enc0 rec0 0%nat); [by split_and!|].
  cbn [replicate app Recorder.in_time].
  repeat (split; [intros Hi; try discriminate Hi; reflexivity|];
          let r' := fresh "r'" in let H := fresh "H" in intros r' H; vm_compute in H; injection H as <-).
  split; [exact I|]. intros r' H. vm_compute in H. injection H as <-.
  split; [intros Hi; reflexivity|]. intros r' _. exact I.
Defined.

Definition ms0 : list (Z * slot (list Z)) :=
  (fun a => (a, mkSlot (replicate 20 7) 9 0)) <$> [100; 200].
Definition play0 : @Player.play nat := Player.mkPlay ∅ 0 0 0%nat 0%nat [] 0%nat.

Lemma player_witness : exists p',
  (_ ← Player.ReceiveBufInit ms0; Player.run dec0
     [Player.Packet (replicate 20 1); Player.Packet (replicate 20 2); Player.Packet (replicate 20 3);
      Player.Turn 320; Player.Turn 0]) play0 = Ret ([0; 0; 1; 0; 0], p') /\
  Player.written p' = [replicate 160 1; replicate 160 2].
Proof.
  apply (player_queue dec0 play0 ms0).
  - split; [by apply (bool_decide_unpack _); vm_compute|].
    repeat (apply Forall_cons; split; [split; [done|reflexivity]|]). by apply Forall_nil.
  - done.
  - reflexivity.
  - repeat (apply Forall_cons; split; [try exact I; reflexivity|]). by apply Forall_nil.
Defined.
