(* ===== verification/Peripherals.v ===== *)
(** * The front panel, the card reader and the load meter

    Module [Panel] models the small threads around the terminal's front panel
    and how they interact: LED/LED_my.c (lamps and the lamp thread),
    LED/beep.c (the beeper and its semaphore), LED/ManualAlarm.c (the alarm
    button's interrupt), LED/LowVoltageDetecte.c and Keyboard/Keyboard.c (the
    push-to-talk key, which opens and closes the voice recorder).  Module
    [Rfid] models the card thread of RFID/RFID_APP.c over an interface for the
    reader's driver, and module [Cpu] the idle hook of cpuUsage/cpuusage.c. *)

From S2P Require Import Prelude.

(** ** The front panel *)

Module Panel.

(** What the key thread does to the recorder device. *)
Inductive rec_op := RecClose | RecOpen.

#[global] Instance rec_op_eq_dec : EqDecision rec_op.
Proof. solve_decision. Defined.

(** [lamps] are the pin levels of the lamps 1 to 4 (a lamp is on when its pin
    is low); [BeepSem] is the semaphore's value and [pulses] counts the beeps
    sounded so far. *)
Record panel := mkPanel {
  lamps : list bool;
  led_inited : bool;
  ManualAlarmStatus : Z;
  BeepSem : Z;
  pulses : Z;
  LastPPTstate : Z;
  rec_log : list rec_op
}.

Definition with_lamps s l :=
  mkPanel l (led_inited s) (ManualAlarmStatus s) (BeepSem s) (pulses s) (LastPPTstate s) (rec_log s).
Definition with_alarm s a :=
  mkPanel (lamps s) (led_inited s) a (BeepSem s) (pulses s) (LastPPTstate s) (rec_log s).
Definition with_beep s v p :=
  mkPanel (lamps s) (led_inited s) (ManualAlarmStatus s) v p (LastPPTstate s) (rec_log s).
Definition with_key s k l :=
  mkPanel (lamps s) (led_inited s) (ManualAlarmStatus s) (BeepSem s) (pulses s) k l.
Definition with_inited s :=
  mkPanel (lamps s) true (ManualAlarmStatus s) (BeepSem s) (pulses s) (LastPPTstate s) (rec_log s).

(** *** Lamps *)

Definition rt_hw_led_on (n : Z) (s : panel) : panel :=
  match n with
  | 1 => with_lamps s (<[0%nat := false]> (lamps s))
  | 2 => with_lamps s (<[1%nat := false]> (lamps s))
  | 3 => with_lamps s (<[2%nat := false]> (lamps s))
  | 4 => with_lamps s (<[3%nat := false]> (lamps s))
  | _ => s
  end.

Definition rt_hw_led_off (n : Z) (s : panel) : panel :=
  match n with
  | 1 => with_lamps s (<[0%nat := true]> (lamps s))
  | 2 => with_lamps s (<[1%nat := true]> (lamps s))
  | 3 => with_lamps s (<[2%nat := true]> (lamps s))
  | 4 => with_lamps s (<[3%nat := true]> (lamps s))
  | _ => s
  end.

Definition rt_hw_led_init (s : panel) : panel :=
  rt_hw_led_off 4 (rt_hw_led_off 3 (rt_hw_led_off 2 (rt_hw_led_off 1 s))).

Definition set_lamp (n value : Z) (s : panel) : panel :=
  match value with 0 => rt_hw_led_off n s | 1 => rt_hw_led_on n s | _ => s end.

(** The shell command [led]. *)
Definition led (n value : Z) (s : panel) : panel :=
  let s := if led_inited s then s else with_inited (rt_hw_led_init s) in
  let s := if n =? 1 then set_lamp 1 value s else s in
  let s := if n =? 2 then set_lamp 2 value s else s in
  let s := if n =? 3 then set_lamp 3 value s else s in
  if n =? 4 then set_lamp 4 value s else s.

(** *** Beeper *)

(** [rt_sem_release] with nobody waiting: the value is 16 bits wide. *)
Definition release (s : panel) : panel := with_beep s (u16 (BeepSem s + 1)) (pulses s).

Definition beep_On_time (n : Z) (s : panel) : res panel :=
  _ ← RT_ASSERT (n <? 20);
  mret (Nat.iter (Z.to_nat n) release s).

(** A turn of the beeper's thread: nothing happens until the semaphore can be
    taken. *)
Definition beep_turn (s : panel) : panel :=
  if BeepSem s =? 0 then s else with_beep s (BeepSem s - 1) (pulses s + 1).

(** *** The alarm button *)

Definition ManualAlarm_IsInterrupt (s : panel) : bool * panel :=
  if ManualAlarmStatus s =? 0 then (false, s) else (true, with_alarm s 0).

Definition EXTI4_IRQHandler (pending : bool) (s : panel) : panel :=
  if pending then with_alarm s 1 else s.

(** A turn of the lamp thread; [lvd] is the level of the supply monitor's pin,
    low when the voltage is. *)
Definition led_turn (lvd : Z) (s : panel) : res panel :=
  let r := ManualAlarm_IsInterrupt s in
  s ← (if fst r then beep_On_time 2 (rt_hw_led_on 2 (snd r)) else mret (rt_hw_led_off 2 (snd r)));
  s ← (if lvd =? 0 then beep_On_time 3 s else mret s);
  mret (rt_hw_led_off 3 (rt_hw_led_on 3 s)).

(** *** The push-to-talk key *)

Definition keyboard_turn (pin : Z) (s : panel) : panel :=
  if negb (pin =? 0) then
    if LastPPTstate s =? 0 then
      let s := rt_hw_led_off 1 s in
      with_key s 1 (rec_log s ++ [RecClose])
    else s
  else
    if negb (LastPPTstate s =? 0) then
      let s := release (rt_hw_led_on 1 s) in
      with_key s 0 (rec_log s ++ [RecOpen])
    else s.

(** *** The system *)

Inductive event :=
  | Key (pin : Z)          (**r the key thread samples its pin *)
  | Alarm (pending : bool) (**r EXTI4 interrupts *)
  | Lamp (lvd : Z)         (**r a turn of the lamp thread *)
  | Beep                   (**r the beeper's thread is scheduled *)
  | Cmd (n value : Z).     (**r the shell command [led] *)

Definition step (e : event) (s : panel) : res panel :=
  match e with
  | Key pin => mret (keyboard_turn pin s)
  | Alarm p => mret (EXTI4_IRQHandler p s)
  | Lamp lvd => led_turn lvd s
  | Beep => mret (beep_turn s)
  | Cmd n v => mret (led n v s)
  end.

Fixpoint run (es : list event) (s : panel) : res panel :=
  match es with [] => mret s | e :: es => s ← step e s; run es s end.

(** The panel when its threads have started. *)
Definition panel0 : panel := mkPanel [true; true; true; true] false 0 1 0 0 [].

(** *** What the event sequence says *)

(** The samples of the key, in order. *)
Fixpoint keys (es : list event) : list Z :=
  match es with [] => [] | Key p :: es => p :: keys es | _ :: es => keys es end.

(** A change of level between two samples. *)
Fixpoint edges (last : bool) (ps : list Z) : list rec_op :=
  match ps with
  | [] => []
  | p :: ps =>
      let up := negb (p =? 0) in
      (if eqb up last then [] else [if up then RecClose else RecOpen]) ++ edges up ps
  end.

(** Beeps asked for: one for each press of the key, two for each turn of the
    lamp thread that follows an alarm, three for each at low voltage. *)
Fixpoint asked (up alarm : bool) (es : list event) : Z :=
  match es with
  | [] => 0
  | Key p :: es => (if up && (p =? 0) then 1 else 0) + asked (negb (p =? 0)) alarm es
  | Alarm p :: es => asked up (alarm || p) es
  | Lamp v :: es =>
      (if alarm then 2 else 0) + (if v =? 0 then 3 else 0) + asked up false es
  | (Beep | Cmd _ _) :: es => asked up alarm es
  end.

(** *** Lemmas *)

(** [s'] differs from [s] in its lamps only. *)
Definition same (s s' : panel) : Prop :=
  BeepSem s' = BeepSem s /\ pulses s' = pulses s /\ ManualAlarmStatus s' = ManualAlarmStatus s /\
  LastPPTstate s' = LastPPTstate s /\ rec_log s' = rec_log s.

#[global] Instance same_po : PreOrder same.
Proof. split; [done|]. intros a b c (?&?&?&?&?) (?&?&?&?&?). unfold same. naive_solver congruence. Qed.

Lemma led_on_same n s : same s (rt_hw_led_on n s).
Proof. unfold rt_hw_led_on. repeat case_match; done. Qed.

Lemma led_off_same n s : same s (rt_hw_led_off n s).
Proof. unfold rt_hw_led_off. repeat case_match; done. Qed.

Lemma led_same n v s : same s (led n v s).
Proof.
  unfold led, set_lamp, rt_hw_led_init. repeat case_match;
    repeat first [done | etrans; [|apply led_on_same] | etrans; [|apply led_off_same]].
Qed.

Lemma release_iter n s :
  Nat.iter n release s = with_beep s (if n is O then BeepSem s else u16 (BeepSem s + Z.of_nat n)) (pulses s).
Proof.
  induction n as [|n IH]; [by destruct s|].
  change (Nat.iter (S n) release s) with (release (Nat.iter n release s)). rewrite IH. unfold release. cbn.
  destruct n as [|n]; [done|]. rewrite wrap_add_l. unfold with_beep. cbn. do 2 f_equal. lia.
Qed.

Lemma beep_On_time_run n s : 0 < n < 20 ->
  beep_On_time n s = Ret (with_beep s (u16 (BeepSem s + n)) (pulses s)).
Proof.
  intros Hn. unfold beep_On_time, RT_ASSERT. rewrite (proj2 (Z.ltb_lt _ _)) by lia. unfold_st.
  rewrite release_iter. destruct (Z.to_nat n) as [|k] eqn:Hk; [lia|]. do 3 f_equal. lia.
Qed.

(** The wake-ups of the beeper: whatever is asked for is either sounded, still
    pending, or lost in one of [k] overflows of the 16-bit count. *)
Definition accounts (s s' : panel) (n : Z) : Prop :=
  exists k, 0 <= k /\ BeepSem s' + pulses s' + 65536 * k = BeepSem s + pulses s + n.

Definition in_range (s : panel) : Prop := 0 <= BeepSem s < 65536 /\ 0 <= pulses s.

Lemma accounts_trans a b c n m : accounts a b n -> accounts b c m -> accounts a c (n + m).
Proof. intros (k & Hk & ?) (l & Hl & ?). exists (k + l). lia. Qed.

Lemma accounts_same s s' : same s s' -> accounts s s' 0.
Proof. intros (H1 & H2 & _). exists 0. lia. Qed.

Lemma accounts_release n s : 0 <= n < 65536 -> in_range s ->
  accounts s (with_beep s (u16 (BeepSem s + n)) (pulses s)) n /\
  in_range (with_beep s (u16 (BeepSem s + n)) (pulses s)).
Proof.
  intros Hn [Hs Hp]. unfold accounts, in_range. cbn. split; [|wrap_lia].
  exists ((BeepSem s + n) / 65536). wrap_lia.
Qed.

(** The flags of the key and of the alarm, and the operations on the recorder. *)
Record tracks (s : panel) (up alarm : bool) (log : list rec_op) : Prop := {
  tr_key : LastPPTstate s = Z.b2z up;
  tr_alarm : ManualAlarmStatus s = Z.b2z alarm;
  tr_log : rec_log s = log;
  tr_range : in_range s
}.

Lemma tracks_same s s' up alarm log : same s s' -> tracks s up alarm log -> tracks s' up alarm log.
Proof. intros (H1 & H2 & H3 & H4 & H5) [Hk Ha Hl [Hr Hp]]. split; [congruence..|]. unfold in_range. lia. Qed.

Lemma tracks_release s up alarm log n : 0 <= n < 65536 -> tracks s up alarm log ->
  tracks (with_beep s (u16 (BeepSem s + n)) (pulses s)) up alarm log.
Proof. intros Hn [Hk Ha Hl Hr]. split; try done. by apply accounts_release. Qed.

Lemma keyboard_step p s up alarm log : tracks s up alarm log ->
  let s' := keyboard_turn p s in
  tracks s' (negb (p =? 0)) alarm (log ++ edges up [p]) /\
  accounts s s' (if up && (p =? 0) then 1 else 0).
Proof.
  intros Ht. pose proof Ht as [Hk Ha Hl Hr]. unfold keyboard_turn. cbn [edges].
  destruct (p =? 0), up; cbn [negb andb eqb] in *; rewrite Hk; cbn [Z.b2z Z.eqb negb app].
  - assert (H := tracks_same _ _ _ _ _ (led_on_same 1 s) Ht).
    destruct (accounts_release 1 _ ltac:(lia) (tr_range _ _ _ _ H)) as [Hacc Hr'].
    split; [|exact (accounts_trans _ _ _ _ _ (accounts_same _ _ (led_on_same 1 s)) Hacc)].
    split; cbn; [done|done|by rewrite Hl|exact Hr'].
  - rewrite app_nil_r. by split; [|apply accounts_same].
  - rewrite app_nil_r. by split; [|apply accounts_same].
  - split; [|exists 0; cbn; lia]. split; cbn; [done|done|by rewrite Hl|done].
Qed.

Lemma beeps_step (b : bool) n s0 s up alarm log :
  0 < n < 20 -> same s0 s -> tracks s up alarm log ->
  exists s', (if b then beep_On_time n s else mret s) = Ret s' /\ tracks s' up alarm log /\
    accounts s0 s' (if b then n else 0).
Proof.
  intros Hn Hsm Ht. destruct b.
  - rewrite beep_On_time_run by lia. eexists. split; [done|]. split; [apply tracks_release; [lia|done]|].
    change n with (0 + n) at 2. eapply accounts_trans; [by apply accounts_same|].
    apply accounts_release; [lia|by destruct Ht].
  - exists s. split; [done|]. split; [done|by apply accounts_same].
Qed.

Lemma led_turn_step v s up alarm log : tracks s up alarm log ->
  exists s', led_turn v s = Ret s' /\ tracks s' up false log /\
    accounts s s' ((if alarm then 2 else 0) + (if v =? 0 then 3 else 0)).
Proof.
  intros Ht. set (s1 := if alarm then rt_hw_led_on 2 (with_alarm s 0) else rt_hw_led_off 2 s).
  assert (Ht1 : tracks s1 up false log).
  { unfold s1. destruct alarm; [|by apply (tracks_same s); [apply led_off_same|]].
    apply (tracks_same (with_alarm s 0)); [apply led_on_same|]. by destruct Ht. }
  destruct (beeps_step alarm 2 s1 s1 up false log) as (s2 & Hr2 & Ht2 & Ha2); [lia|done|done|].
  destruct (beeps_step (v =? 0) 3 s2 s2 up false log) as (s3 & Hr3 & Ht3 & Ha3); [lia|done|done|].
  exists (rt_hw_led_off 3 (rt_hw_led_on 3 s3)).
  assert (Hlast : same s3 (rt_hw_led_off 3 (rt_hw_led_on 3 s3))) by (etrans; [apply led_on_same|apply led_off_same]).
  split; [|split; [by apply (tracks_same s3)|]].
  - unfold led_turn, ManualAlarm_IsInterrupt. rewrite (tr_alarm _ _ _ _ Ht). unfold s1 in Hr2.
    destruct alarm; cbn [Z.b2z Z.eqb fst snd] in *; rewrite Hr2; unfold_st; rewrite Hr3; done.
  - replace (_ + _) with (0 + (if alarm then 2 else 0) + (if v =? 0 then 3 else 0) + 0) by lia.
    eapply accounts_trans; [|by apply accounts_same]. eapply accounts_trans; [|done].
    eapply accounts_trans; [|done]. unfold s1. destruct alarm; [|by apply accounts_same, led_off_same].
    by apply (accounts_same (with_alarm s 0)), led_on_same.
Qed.

Lemma beep_turn_step s up alarm log : tracks s up alarm log ->
  tracks (beep_turn s) up alarm log /\ accounts s (beep_turn s) 0.
Proof.
  intros [Hk Ha Hl [Hr Hp]]. unfold beep_turn. destruct (Z.eqb_spec (BeepSem s) 0) as [H0|H0].
  - split; [by split|]. exists 0. lia.
  - split; [split; try done; unfold in_range; cbn; lia|]. exists 0. cbn. lia.
Qed.

Lemma edges_cons up p ps : edges up (p :: ps) = edges up [p] ++ edges (negb (p =? 0)) ps.
Proof. cbn. by rewrite app_nil_r. Qed.

Lemma run_tracks es : forall s up alarm log, tracks s up alarm log ->
  exists s' up' alarm', run es s = Ret s' /\ tracks s' up' alarm' (log ++ edges up (keys es)) /\
    accounts s s' (asked up alarm es).
Proof.
  induction es as [|e es IH]; intros s up alarm log Ht.
  { exists s, up, alarm. cbn. rewrite app_nil_r. split_and!; try done. exists 0. lia. }
  assert (Hst : exists s1 up1 al1 n, step e s = Ret s1 /\
    tracks s1 up1 al1 (log ++ match e with Key p => edges up [p] | _ => [] end) /\ accounts s s1 n /\
    keys (e :: es) = match e with Key p => [p] | _ => [] end ++ keys es /\
    (match e with Key p => up1 = negb (p =? 0) | _ => up1 = up end) /\
    asked up alarm (e :: es) = n + asked up1 al1 es).
  { destruct e as [p|pd|v| |n v]; cbn [step keys app asked].
    - destruct (keyboard_step p _ _ _ _ Ht) as [H1 H2].
      by exists (keyboard_turn p s), (negb (p =? 0)), alarm, (if up && (p =? 0) then 1 else 0).
    - exists (EXTI4_IRQHandler pd s), up, (alarm || pd), 0. rewrite app_nil_r. split_and!; try done.
      + unfold EXTI4_IRQHandler. destruct pd; [|by rewrite orb_false_r]. rewrite orb_true_r. by destruct Ht.
      + destruct pd; by exists 0.
    - destruct (led_turn_step v _ _ _ _ Ht) as (s1 & H1 & H2 & H3). rewrite app_nil_r.
      by exists s1, up, false, ((if alarm then 2 else 0) + (if v =? 0 then 3 else 0)).
    - destruct (beep_turn_step _ _ _ _ Ht) as [H1 H2]. rewrite app_nil_r. by exists (beep_turn s), up, alarm, 0.
    - exists (led n v s), up, alarm, 0. rewrite app_nil_r. split_and!; try done.
      + apply (tracks_same s); [apply led_same|done].
      + apply accounts_same, led_same. }
  destruct Hst as (s1 & up1 & al1 & n & Hr1 & Ht1 & Ha1 & Hkeys & Hup & Hasked).
  destruct (IH _ _ _ _ Ht1) as (s' & up' & alarm' & Hr & Ht' & Ha').
  exists s', up', alarm'. cbn [run]. rewrite Hr1. unfold_st. split; [done|]. rewrite Hkeys, Hasked. split.
  - rewrite <- app_assoc in Ht'. destruct e; cbn [app] in *; subst up1; try done.
    by rewrite edges_cons.
  - by eapply accounts_trans.
Qed.

Lemma panel0_tracks : tracks panel0 false false [].
Proof. by split. Qed.

(** *** What the edges say *)

(** The level of the last sample, or [up] before the first one. *)
Definition level (up : bool) (ps : list Z) : bool := if last ps is Some p then negb (p =? 0) else up.

Lemma level_cons up p ps : level up (p :: ps) = level (negb (p =? 0)) ps.
Proof. unfold level. rewrite last_cons. by destruct (last ps). Qed.

Lemma edges_last ps : forall up,
  match last (edges up ps) with
  | None => Forall (fun p => negb (p =? 0) = up) ps
  | Some o => level up ps = if o then true else false
  end.
Proof.
  induction ps as [|p ps IH]; intros up; [constructor|]. cbn [edges]. specialize (IH (negb (p =? 0))).
  rewrite last_app, level_cons. destruct (last (edges _ ps)) as [o|]; [done|].
  assert (Hl : level (negb (p =? 0)) ps = negb (p =? 0)).
  { unfold level. destruct (last ps) as [q|] eqn:Hq; [|done].
    apply last_Some_elem_of in Hq. rewrite Forall_forall in IH. by apply IH. }
  rewrite Hl. destruct (eqb (negb (p =? 0)) up) eqn:He.
  - apply eqb_prop in He. subst up. by constructor.
  - cbn. by destruct (p =? 0).
Qed.

Lemma edges_open ps :
  last (edges false ps) = Some RecOpen <-> last ps = Some 0 /\ Exists (fun p => p <> 0) ps.
Proof.
  assert (H := edges_last ps false). unfold level in H. split.
  - intros Ho. rewrite Ho in H. destruct (last ps) as [p|] eqn:Hp.
    + destruct (Z.eqb_spec p 0) as [->|]; [|done]. split; [done|].
      destruct (decide (Forall (fun p => p = 0) ps)) as [Hn|Hn];
        [exfalso | by apply (not_Forall_Exists (fun p => p = 0)) in Hn].
      cut (edges false ps = []); [intros E; by rewrite E in Ho|].
      clear - Hn. induction Hn as [|q l Hq _ IH]; [done|]. cbn.
      by subst q.
    + destruct ps; [done|by rewrite last_cons in Hp; destruct (last ps)].
  - intros [Hl He]. rewrite Hl in H. destruct (last (edges false ps)) as [[]|]; [done|done|exfalso].
    rewrite Forall_forall in H. apply Exists_exists in He as (p & Hp & Hne).
    apply H in Hp. by destruct (Z.eqb_spec p 0).
Qed.

(** Closing and opening take turns, beginning with [op]. *)
Fixpoint alternate (op : rec_op) (l : list rec_op) : Prop :=
  match l with
  | [] => True
  | o :: l => o = op /\ alternate (if o then RecOpen else RecClose) l
  end.

Lemma edges_alternate ps : forall up : bool, alternate (if up then RecOpen else RecClose) (edges up ps).
Proof.
  induction ps as [|p ps IH]; intros up; [done|]. cbn [edges]. specialize (IH (negb (p =? 0))).
  destruct (p =? 0), up; cbn in *; eauto.
Qed.
End Panel.

(** ** The card reader *)

Module Rfid.

(** The reader's driver is not part of the repository: [control] answers a
    command with a status, [Anticoll] also gives the serial number of a card,
    [read] and [write] return the number of bytes they moved. *)
Class Reader (D : Type) := {
  control : Z -> D -> Z * D;
  anticoll : D -> Z * list Z * D;
  read : Z -> list Z -> D -> Z * list Z * D;
  write : Z -> list Z -> D -> Z * D
}.

Definition RFID_ConfigISOType : Z := 1.
Definition RFID_FindCard : Z := 2.
Definition RFID_Anticoll : Z := 3.
Definition RFID_SelCard : Z := 4.
Definition RFID_LoadPasswordInFiFO : Z := 5.
Definition RFID_Authenticate_A : Z := 6.
Definition RT_EOK : Z := 0.

Section thread.
Context {D : Type} `{Reader D}.

(** [SnrBuf] and [DataBuf] as in the thread; [events] are the sets sent to the
    screen's event object, in order; [lcd] says that the object exists. *)
Record rfid := mkRfid {
  dev : D;
  SnrBuf : list Z;
  DataBuf : list Z;
  lcd : bool;
  events : list Z
}.

Definition with_dev s d := mkRfid d (SnrBuf s) (DataBuf s) (lcd s) (events s).
Definition with_snr s d n := mkRfid d n (DataBuf s) (lcd s) (events s).
Definition with_data s d b := mkRfid d (SnrBuf s) b (lcd s) (events s).
Definition with_events s e := mkRfid (dev s) (SnrBuf s) (DataBuf s) (lcd s) e.

Definition ctl (cmd : Z) : ST rfid Z :=
  fun s => let r := control cmd (dev s) in Ret (fst r, with_dev s (snd r)).

Definition rd (blk : Z) : ST rfid Z :=
  fun s => let '(n, b, d) := read blk (DataBuf s) (dev s) in Ret (u8 n, with_data s d b).

Definition wr (blk : Z) : ST rfid Z :=
  fun s => let '(n, d) := write blk (DataBuf s) (dev s) in Ret (u8 n, with_dev s d).

(** [for (i = 0; i < n; i++) rt_kprintf("%X ", DataBuf[i])] *)
Fixpoint print (n : nat) (b : list Z) : res unit :=
  match n with O => mret tt | S n => _ ← print n b; _ ← idx b (Z.of_nat n); mret tt end.

Definition show (size : Z) : ST rfid unit := s ← get; lift (print (Z.to_nat size) (DataBuf s)).

Definition send_event (e : Z) : ST rfid unit :=
  modify (fun s => if lcd s then with_events s (events s ++ [e]) else s).

Definition is_serial (a b c d : Z) (s : rfid) : res bool :=
  x0 ← idx (SnrBuf s) 0; if negb (x0 =? a) then mret false else
  x1 ← idx (SnrBuf s) 1; if negb (x1 =? b) then mret false else
  x2 ← idx (SnrBuf s) 2; if negb (x2 =? c) then mret false else
  x3 ← idx (SnrBuf s) 3; mret (x3 =? d).

(** Polls until the second of two searches finds no card; [fuel] bounds the
    seconds the card stays. *)
Fixpoint wait_leave (fuel : nat) : ST rfid bool :=
  match fuel with
  | O => mret false
  | S fuel =>
      _ ← ctl RFID_FindCard;
      status ← ctl RFID_FindCard;
      if status =? RT_EOK then wait_leave fuel else mret true
  end.

(** What became of one turn of the loop: it was given up at some command, or
    the card was served and has left, or is still there. *)
Inductive outcome := GivenUp (cmd : Z) | Served (left : bool).

(** The first part of a turn of the thread's loop, up to the second reading of
    the card: the command that failed, if one did (reading and writing count
    as 7, 8 and 9). *)
Definition prepare : ST rfid (option Z) :=
  status ← ctl RFID_FindCard;
  if negb (status =? RT_EOK) then mret (Some RFID_FindCard) else
  status ← (fun s => let '(st, n, d) := anticoll (dev s) in Ret (st, with_snr s d n));
  if negb (status =? RT_EOK) then mret (Some RFID_Anticoll) else
  status ← ctl RFID_SelCard;
  if negb (status =? RT_EOK) then mret (Some RFID_SelCard) else
  status ← ctl RFID_LoadPasswordInFiFO;
  if negb (status =? RT_EOK) then mret (Some RFID_LoadPasswordInFiFO) else
  status ← ctl RFID_Authenticate_A;
  if negb (status =? RT_EOK) then mret (Some RFID_Authenticate_A) else
  size ← rd 1;
  if size =? 0 then mret (Some 7) else
  _ ← show size;
  _ ← modify (fun s => with_data s (dev s) ((fun b => u8 (b + 1)) <$> DataBuf s));
  size ← wr 1;
  if size =? 0 then mret (Some 8) else
  _ ← show size;
  size ← rd 1;
  if size =? 0 then mret (Some 9) else
  _ ← show size;
  mret None.

(** The second part: the known cards are announced, and the card must leave. *)
Definition serve (fuel : nat) : ST rfid bool :=
  s ← get;
  h1 ← lift (is_serial 0xBC 0x03 0xDD 0x0F s);
  _ ← (if h1 : bool then send_event (Z.shiftl 1 2) else mret tt);
  h2 ← lift (is_serial 0xDE 0xFF 0x4E 0xE2 s);
  _ ← (if h2 : bool then send_event (Z.shiftl 1 3) else mret tt);
  wait_leave fuel.

Definition rfid_turn (fuel : nat) : ST rfid outcome :=
  failed ← prepare;
  match failed with
  | Some cmd => mret (GivenUp cmd)
  | None => left ← serve fuel; mret (Served left)
  end.

(** *** A card on the reader

    What the driver and a card promise together: [card d sn b n] says that in
    the state [d] a card of serial number [sn] whose block 1 holds [b] lies on
    the reader and will be found [n] more times. *)
Class Card (card : D -> list Z -> list Z -> nat -> Prop) := {
  card_find : forall d sn b n, card d sn b (S n) ->
    exists d', control RFID_FindCard d = (RT_EOK, d') /\ card d' sn b n;
  card_gone : forall d sn b, card d sn b 0%nat ->
    exists st d', control RFID_FindCard d = (st, d') /\ st <> RT_EOK /\ card d' sn b 0%nat;
  card_command : forall cmd d sn b n, card d sn b n ->
    cmd = RFID_SelCard \/ cmd = RFID_LoadPasswordInFiFO \/ cmd = RFID_Authenticate_A ->
    exists d', control cmd d = (RT_EOK, d') /\ card d' sn b n;
  card_anticoll : forall d sn b n, card d sn b n ->
    exists d', anticoll d = (RT_EOK, sn, d') /\ card d' sn b n;
  card_read : forall buf d sn b n, card d sn b n ->
    exists d', read 1 buf d = (16, b, d') /\ card d' sn b n;
  card_write : forall buf d sn b n, card d sn b n -> length buf = 16%nat ->
    exists d', write 1 buf d = (16, d') /\ card d' sn buf n
}.

(** The screen's events for a serial number. *)
Definition events_of (sn : list Z) : list Z :=
  if decide (take 4 sn = [0xBC; 0x03; 0xDD; 0x0F]) then [4]
  else if decide (take 4 sn = [0xDE; 0xFF; 0x4E; 0xE2]) then [8] else [].

Context (card : D -> list Z -> list Z -> nat -> Prop) `{!Card card}.

Lemma ctl_found s sn b n : card (dev s) sn b (S n) ->
  exists d, ctl RFID_FindCard s = Ret (RT_EOK, with_dev s d) /\ card d sn b n.
Proof. intros Hc. destruct (card_find _ _ _ _ Hc) as (d & Hd & Hn). exists d. unfold ctl. by rewrite Hd. Qed.

Lemma ctl_command cmd s sn b n : card (dev s) sn b n ->
  cmd = RFID_SelCard \/ cmd = RFID_LoadPasswordInFiFO \/ cmd = RFID_Authenticate_A ->
  exists d, ctl cmd s = Ret (RT_EOK, with_dev s d) /\ card d sn b n.
Proof.
  intros Hc Hcmd. destruct (card_command _ _ _ _ _ Hc Hcmd) as (d & Hd & Hn). exists d. unfold ctl. by rewrite Hd.
Qed.

Lemma print_ok n b : (n <= length b)%nat -> print n b = Ret tt.
Proof.
  induction n as [|n IH]; intros Hn; [done|]. cbn [print]. rewrite IH by lia. unfold_st.
  destruct (idx_ok b (Z.of_nat n)) as [x ->]; [lia|done].
Qed.

Lemma wait_leave_run fuel : forall n s sn b, card (dev s) sn b n -> (n < 2 * fuel)%nat ->
  exists d, wait_leave fuel s = Ret (true, with_dev s d) /\ card d sn b 0%nat.
Proof.
  induction fuel as [|fuel IH]; intros n s sn b Hc Hn; [lia|]. cbn [wait_leave].
  destruct n as [|n].
  - destruct (card_gone _ _ _ Hc) as (st & d & Hd & Hst & Hc1).
    destruct (card_gone _ _ _ Hc1) as (st2 & d2 & Hd2 & Hst2 & Hc2).
    unfold ctl at 1 2. unfold_st. cbn [dev with_dev]. rewrite Hd. cbn [snd fst dev with_dev]. rewrite Hd2. cbn [fst snd].
    rewrite (proj2 (Z.eqb_neq _ _) Hst2). by exists d2.
  - destruct (ctl_found _ _ _ _ Hc) as (d & Hd & Hc1). rewrite (st_bind_run _ _ _ _ _ Hd).
    destruct n as [|n].
    + destruct (card_gone _ _ _ Hc1) as (st2 & d2 & Hd2 & Hst2 & Hc2).
      unfold ctl. unfold_st. cbn [dev with_dev]. rewrite Hd2. cbn [snd fst].
      rewrite (proj2 (Z.eqb_neq _ _) Hst2). by exists d2.
    + destruct (ctl_found (with_dev s d) _ _ _ Hc1) as (d2 & Hd2 & Hc2).
      rewrite (st_bind_run _ _ _ _ _ Hd2). cbn [Z.eqb RT_EOK].
      destruct (IH n (with_dev (with_dev s d) d2) sn b Hc2) as (d3 & -> & Hc3); [lia|]. by exists d3.
Qed.

Lemma is_serial_Ret a b c d s h :
  is_serial a b c d s = Ret h -> h = bool_decide (take 4 (SnrBuf s) = [a; b; c; d]).
Proof.
  unfold is_serial. intros Hr. symmetry.
  repeat match type of Hr with context [idx ?l ?i] =>
    let x := fresh "x" in destruct (idx l i) as [x|] eqn:?; [|discriminate]; unfold_st;
    match type of Hr with
    | context [negb (x =? ?v)] => destruct (Z.eqb_spec x v) as [->|]; cbn [negb] in Hr
    | _ => destruct (Z.eqb_spec x d) as [->|]
    end
  end; injection Hr as <-; [apply bool_decide_eq_true_2|apply bool_decide_eq_false_2..];
  repeat match goal with E : idx _ _ = Ret _ |- _ => apply idx_Ret in E as [_ E]; revert E end;
  destruct (SnrBuf s) as [|y0 [|y1 [|y2 [|y3 r]]]]; cbn [take]; rewrite ?take_0;
  change (Z.to_nat 0) with 0%nat; change (Z.to_nat 1) with 1%nat;
  change (Z.to_nat 2) with 2%nat; change (Z.to_nat 3) with 3%nat; cbn; congruence.
Qed.

(** The serial is one of at most one of the two known cards. *)
Lemma serial_events s h1 h2 :
  is_serial 0xBC 0x03 0xDD 0x0F s = Ret h1 -> is_serial 0xDE 0xFF 0x4E 0xE2 s = Ret h2 ->
  (if h1 then [4] else []) ++ (if h2 then [8] else []) = events_of (SnrBuf s).
Proof.
  intros ->%is_serial_Ret ->%is_serial_Ret. unfold events_of. repeat case_bool_decide; repeat case_decide; try done.
  congruence.
Qed.
(** *** What a turn leaves alone *)

Definition keeps {A B} (g : rfid -> B) (m : ST rfid A) : Prop :=
  forall s a s', m s = Ret (a, s') -> g s' = g s.

Lemma keeps_ret {A B} (g : rfid -> B) (a : A) : keeps g (mret a).
Proof. intros s b s' Hs. unfold_st. by injection Hs as _ <-. Qed.

Lemma keeps_bind {A B C} (g : rfid -> C) (m : ST rfid A) (k : A -> ST rfid B) :
  keeps g m -> (forall a, keeps g (k a)) -> keeps g (m ≫= k).
Proof. intros Hm Hk s b s' (a & s1 & H1 & H2)%st_bind_Ret. by rewrite (Hk _ _ _ _ H2), (Hm _ _ _ H1). Qed.

Lemma keeps_if {A B} (g : rfid -> B) (b : bool) (m1 m2 : ST rfid A) :
  keeps g m1 -> keeps g m2 -> keeps g (if b then m1 else m2).
Proof. by destruct b. Qed.

Definition announced (s : rfid) : list Z * bool := (events s, lcd s).

Lemma keeps_ctl cmd : keeps announced (ctl cmd) /\ keeps SnrBuf (ctl cmd).
Proof. unfold keeps, ctl. split; intros s a s' [= _ <-]; done. Qed.

Lemma keeps_rd blk : keeps announced (rd blk).
Proof. unfold keeps, rd. intros s a s'. destruct (read _ _ _) as [[n b] d]. by intros [= _ <-]. Qed.

Lemma keeps_wr blk : keeps announced (wr blk).
Proof. unfold keeps, wr. intros s a s'. destruct (write _ _ _) as [n d]. by intros [= _ <-]. Qed.

Lemma keeps_show n : keeps announced (show n).
Proof.
  unfold keeps, show. intros s a s'. unfold_st. destruct (print _ _) as [[]|]; [|done]. by intros [= _ <-].
Qed.

Lemma keeps_prepare : keeps announced prepare.
Proof.
  unfold prepare.
  repeat first [apply keeps_ctl | apply keeps_rd | apply keeps_wr | apply keeps_show | apply keeps_ret
               | apply keeps_bind; [|intros ?] | apply keeps_if].
  - intros s x s'. destruct (anticoll _) as [[st n] d]. by intros [= _ <-].
  - intros s x s'. unfold_st. by intros [= _ <-].
Qed.

Lemma keeps_wait fuel : keeps announced (wait_leave fuel) /\ keeps SnrBuf (wait_leave fuel).
Proof.
  induction fuel as [|fuel [IH1 IH2]]; cbn [wait_leave]; [by split; apply keeps_ret|].
  split; repeat first [assumption | apply keeps_ctl | apply keeps_ret
                      | apply keeps_bind; [|intros ?] | apply keeps_if].
Qed.

Lemma send_event_run (b : bool) e s : (if b then send_event e else mret tt) s =
  Ret (tt, with_events s (events s ++ (if lcd s && b then [e] else []))).
Proof. unfold send_event. unfold_st. destruct b, (lcd s), s; cbn; by rewrite ?app_nil_r. Qed.

Lemma serve_events fuel s l s' : serve fuel s = Ret (l, s') ->
  events s' = events s ++ (if lcd s then events_of (SnrBuf s) else []) /\ SnrBuf s' = SnrBuf s.
Proof.
  unfold serve. unfold_st.
  destruct (is_serial 0xBC 0x03 0xDD 0x0F s) as [h1|] eqn:H1; [|done]. rewrite send_event_run.
  destruct (is_serial 0xDE 0xFF 0x4E 0xE2 s) as [h2|] eqn:H2; [|done]. rewrite send_event_run.
  rewrite <- (serial_events _ _ _ H1 H2). intros Hw.
  destruct (keeps_wait fuel) as [K1 K2]. apply K1 in Hw as Ha. apply K2 in Hw. unfold announced in Ha.
  injection Ha as -> _. split; [|by rewrite Hw]. cbn. rewrite <- app_assoc.
  by destruct (lcd s), h1, h2.
Qed.

Lemma serve_run fuel s sn b n :
  SnrBuf s = sn -> length sn = 4%nat -> card (dev s) sn b n -> (n < 2 * fuel)%nat ->
  exists s', serve fuel s = Ret (true, s') /\ card (dev s') sn b 0%nat /\ DataBuf s' = DataBuf s.
Proof.
  intros Hs Hl Hc Hn. unfold serve. unfold_st.
  assert (Hser : forall a b c d, exists h, is_serial a b c d s = Ret h).
  { intros x0 x1 x2 x3. unfold is_serial. rewrite Hs.
    destruct (idx_ok sn 0) as [? ->]; [lia|]. destruct (idx_ok sn 1) as [? ->]; [lia|].
    destruct (idx_ok sn 2) as [? ->]; [lia|]. destruct (idx_ok sn 3) as [? ->]; [lia|].
    unfold_st. repeat case_match; eauto. }
  destruct (Hser 0xBC 0x03 0xDD 0x0F) as [h1 ->]. rewrite send_event_run.
  destruct (Hser 0xDE 0xFF 0x4E 0xE2) as [h2 ->]. rewrite send_event_run.
  match goal with |- context [wait_leave fuel ?x] =>
    destruct (wait_leave_run fuel n x sn b) as (d & -> & Hd); [done|done|] end.
  by eexists.
Qed.

Lemma rd_run s sn b n : card (dev s) sn b n ->
  exists d, rd 1 s = Ret (16, with_data s d b) /\ card d sn b n.
Proof. intros Hc. destruct (card_read (DataBuf s) _ _ _ _ Hc) as (d & Hd & Hn). exists d. unfold rd. by rewrite Hd. Qed.

Lemma wr_run s sn b n : card (dev s) sn b n -> length (DataBuf s) = 16%nat ->
  exists d, wr 1 s = Ret (16, with_dev s d) /\ card d sn (DataBuf s) n.
Proof.
  intros Hc Hl. destruct (card_write (DataBuf s) _ _ _ _ Hc Hl) as (d & Hd & Hn). exists d. unfold wr. by rewrite Hd.
Qed.

Lemma show_run s : length (DataBuf s) = 16%nat -> show 16 s = Ret (tt, s).
Proof. intros Hl. unfold show. unfold_st. rewrite print_ok; [done|]. rewrite Hl. done. Qed.

(** What the thread writes back. *)
Definition bumped (b : list Z) : list Z := (fun x => u8 (x + 1)) <$> b.

Lemma prepare_run s sn b n :
  card (dev s) sn b (S n) -> length b = 16%nat ->
  exists d, prepare s = Ret (None, mkRfid d sn (bumped b) (lcd s) (events s)) /\ card d sn (bumped b) n.
Proof.
  intros Hc Hl. assert (Hl2 : length (bumped b) = 16%nat) by (unfold bumped; by rewrite length_fmap).
  unfold prepare.
  destruct (ctl_found _ _ _ _ Hc) as (d1 & H1 & C1). rewrite (st_bind_run _ _ _ _ _ H1).
  destruct (card_anticoll _ _ _ _ C1) as (d2 & H2 & C2). cbn [RT_EOK Z.eqb negb].
  erewrite st_bind_run by (cbn [dev with_dev]; rewrite H2; reflexivity). cbn [RT_EOK Z.eqb negb].
  edestruct (ctl_command RFID_SelCard (with_snr (with_dev s d1) d2 sn)) as (d3 & H3 & C3); [exact C2|tauto|].
  rewrite (st_bind_run _ _ _ _ _ H3). cbn [RT_EOK Z.eqb negb].
  match type of H3 with _ = Ret (_, ?x) =>
    edestruct (ctl_command RFID_LoadPasswordInFiFO x) as (d4 & H4 & C4); [exact C3|tauto|] end.
  rewrite (st_bind_run _ _ _ _ _ H4). cbn [RT_EOK Z.eqb negb].
  match type of H4 with _ = Ret (_, ?x) =>
    edestruct (ctl_command RFID_Authenticate_A x) as (d5 & H5 & C5); [exact C4|tauto|] end.
  rewrite (st_bind_run _ _ _ _ _ H5). cbn [RT_EOK Z.eqb negb].
  match type of H5 with _ = Ret (_, ?x) => destruct (rd_run x sn b n C5) as (d6 & H6 & C6) end.
  rewrite (st_bind_run _ _ _ _ _ H6). cbn [Z.eqb].
  rewrite (st_bind_run _ _ _ _ _ (show_run (with_data _ d6 b) Hl)). unfold modify at 1. unfold mbind at 1, st_bind at 1.
  cbn [with_data with_dev with_snr dev SnrBuf DataBuf lcd events]. fold (bumped b).
  destruct (wr_run (mkRfid d6 sn (bumped b) (lcd s) (events s)) sn b n C6 Hl2) as (d7 & H7 & C7).
  rewrite (st_bind_run _ _ _ _ _ H7). cbn [Z.eqb].
  rewrite (st_bind_run _ _ _ _ _ 
    (show_run (with_dev (mkRfid d6 sn (bumped b) (lcd s) (events s)) d7) Hl2)).
  destruct (rd_run (with_dev (mkRfid d6 sn (bumped b) (lcd s) (events s)) d7) sn _ n C7) as (d8 & H8 & C8).
  rewrite (st_bind_run _ _ _ _ _ H8). cbn [Z.eqb].
  rewrite (st_bind_run _ _ _ _ _ 
    (show_run (with_data (with_dev (mkRfid d6 sn (bumped b) (lcd s) (events s)) d7) d8 (bumped b)) Hl2)).
  by exists d8.
Qed.
End thread.
End Rfid.

(** ** The load meter *)

Module Cpu.

Record cpu := mkCpu { cpu_usage_major : Z; cpu_usage_minor : Z; total_count : Z }.

Definition CPU_USAGE_CALC_TICK : Z := 10.

(** [while (rt_tick_get() - tick < CPU_USAGE_CALC_TICK) count++], the list
    being what the successive calls of [rt_tick_get] return; the inner delay
    loop only takes time. *)
Fixpoint count_until (tick : Z) (ticks : list Z) (count : Z) : res (Z * list Z) :=
  match ticks with
  | [] => Err OutOfFuel
  | t :: ticks =>
      if u32 (t - tick) <? CPU_USAGE_CALC_TICK then count_until tick ticks (u32 (count + 1))
      else mret (count, ticks)
  end.

(** [tick = rt_tick_get()] and the loop after it. *)
Definition measure (ticks : list Z) (count : Z) : res (Z * list Z) :=
  match ticks with [] => Err OutOfFuel | t :: ticks => count_until t ticks count end.

Definition cpu_usage_idle_hook (ticks : list Z) (s : cpu) : res (cpu * list Z) :=
  st ← (if total_count s =? 0 then
          r ← measure ticks 0;
          mret (mkCpu (cpu_usage_major s) (cpu_usage_minor s) (fst r), snd r)
        else mret (s, ticks));
  let '(s, ticks) := st in
  r ← measure ticks 0;
  let '(count, ticks) := r in
  if count <? total_count s then
    let count := u32 (total_count s - count) in
    if total_count s =? 0 then Err DivByZero
    else mret (mkCpu (u8 (u32 (count * 100) / total_count s))
                     (u8 (u32 (u32 (count * 100) mod total_count s * 100) / total_count s))
                     (total_count s), ticks)
  else mret (mkCpu 0 0 count, ticks).

Definition cpu_usage_get (s : cpu) : Z * Z := (cpu_usage_major s, cpu_usage_minor s).

(** What a turn of the display thread prints. *)
Definition cpu_usage_show (s : cpu) : Z * Z :=
  let '(major, minor) := cpu_usage_get s in
  if 100 <=? major then (100, 0) else (major, minor).

(** [n] calls of the clock fall into the ten ticks after [tick]. *)
Definition window (n : nat) (ticks rest : list Z) : Prop :=
  exists tick inside t, ticks = tick :: inside ++ t :: rest /\ length inside = n /\
    Forall (fun x => u32 (x - tick) < 10) inside /\ 10 <= u32 (t - tick).

Lemma count_until_run tick t rest inside : forall c,
  Forall (fun x => u32 (x - tick) < 10) inside -> 10 <= u32 (t - tick) ->
  0 <= c -> c + Z.of_nat (length inside) < 2 ^ 32 ->
  count_until tick (inside ++ t :: rest) c = Ret (c + Z.of_nat (length inside), rest).
Proof.
  induction inside as [|x l IH]; intros c Hf Ht Hc Hlt; cbn [app count_until length].
  - rewrite (proj2 (Z.ltb_ge _ _)) by done. by rewrite Z.add_0_r.
  - apply Forall_cons in Hf as [Hx Hf]. rewrite (proj2 (Z.ltb_lt _ _)) by done. cbn [length] in Hlt.
    rewrite wrap_id by lia. rewrite IH by (done || lia). do 2 f_equal. lia.
Qed.

Lemma measure_run n ticks rest : window n ticks rest -> Z.of_nat n < 2 ^ 32 ->
  measure ticks 0 = Ret (Z.of_nat n, rest).
Proof. intros (tick & l & t & -> & <- & Hl & Ht) Hn. cbn [measure]. by rewrite count_until_run by (done || lia). Qed.

(** The two digits pairs are those of the quotient. *)
Lemma percent c T : 0 <= c <= T -> 0 < T -> T * 100 < 2 ^ 32 ->
  let major := u8 (u32 (c * 100) / T) in
  let minor := u8 (u32 (u32 (c * 100) mod T * 100) / T) in
  100 * major + minor = 10000 * c / T /\ 0 <= major <= 100 /\ 0 <= minor < 100.
Proof.
  intros Hc HT Hov. cbv zeta. rewrite (wrap_id 32 (c * 100)) by nia.
  assert (Hm := Z.mod_pos_bound (c * 100) T HT). rewrite (wrap_id 32 (_ mod _ * _)) by nia.
  assert (H1 : 0 <= c * 100 / T <= 100) by (split; [apply Z.div_pos; lia | apply Z.div_le_upper_bound; lia]).
  assert (H2 : 0 <= (c * 100) mod T * 100 / T < 100)
    by (split; [apply Z.div_pos; lia | apply Z.div_lt_upper_bound; lia]).
  rewrite !wrap_id by (cbn; lia). split; [|lia].
  replace (10000 * c) with ((c * 100) mod T * 100 + (100 * (c * 100 / T)) * T)
    by (assert (E := Z.div_mod (c * 100) T ltac:(lia)); nia).
  rewrite Z.div_add by lia. lia.
Qed.
End Cpu.

(** ** Properties *)

(** C30: the front panel accounts for every beep: whatever the threads and the
    alarm interrupt do and in whatever order, the beeps sounded and still
    pending are the one at start-up, one for each press of the talk key, two
    for each turn of the lamp thread that follows an alarm (alarms between two
    turns count once) and three for each at low voltage, less 65536 for each
    overflow of the semaphore. *)
Theorem panel_beeps es :
  exists s', Panel.run es Panel.panel0 = Ret s' /\ exists k, 0 <= k /\
    Panel.BeepSem s' + Panel.pulses s' + 65536 * k = 1 + Panel.asked false false es /\
    0 <= Panel.BeepSem s' < 65536.
Proof.
  destruct (Panel.run_tracks es _ _ _ _ Panel.panel0_tracks) as (s' & up & al & Hr & [_ _ _ [Hb Hp]] & k & Hk & Ha).
  exists s'. split; [done|]. exists k. split; [done|]. cbn in Ha. lia.
Qed.

(** the talk key drives the recorder: the key thread closes and opens it
    in turn, beginning with a close, and it has been opened last exactly when
    the key is down in the last sample and was up in an earlier one. *)
Theorem panel_recorder es :
  exists s', Panel.run es Panel.panel0 = Ret s' /\
    Panel.alternate Panel.RecClose (Panel.rec_log s') /\
    (last (Panel.rec_log s') = Some Panel.RecOpen <->
     last (Panel.keys es) = Some 0 /\ Exists (fun p => p <> 0) (Panel.keys es)).
Proof.
  destruct (Panel.run_tracks es _ _ _ _ Panel.panel0_tracks) as (s' & up & al & Hr & [_ _ Hl _] & _).
  exists s'. split; [done|]. rewrite Hl. cbn [app].
  split; [exact (Panel.edges_alternate _ false) | apply Panel.edges_open].
Qed.

(** a card that lies on the reader until it has been found [S n] times is
    served completely: its block 1 is rewritten with every byte one higher, the
    screen is told which known card it was (if it is one and the screen runs),
    and the turn ends when the card has left. *)
Theorem rfid_card {D} `{Rfid.Reader D} card `{!Rfid.Card card} fuel s sn b n :
  card (Rfid.dev s) sn b (S n) -> length sn = 4%nat -> length b = 16%nat -> (n < 2 * fuel)%nat ->
  exists s', Rfid.rfid_turn fuel s = Ret (Rfid.Served true, s') /\
    card (Rfid.dev s') sn (Rfid.bumped b) 0%nat /\ Rfid.DataBuf s' = Rfid.bumped b /\
    Rfid.events s' = Rfid.events s ++ (if Rfid.lcd s then Rfid.events_of sn else []).
Proof.
  intros Hc Hsn Hb Hn. destruct (Rfid.prepare_run card s sn b n Hc Hb) as (d & Hp & Hd).
  destruct (Rfid.serve_run card fuel (Rfid.mkRfid d sn (Rfid.bumped b) (Rfid.lcd s) (Rfid.events s)) sn
    (Rfid.bumped b) n) as (s' & Hs & Hc' & Hb'); [done|done|done|done|].
  exists s'. unfold Rfid.rfid_turn. rewrite (st_bind_run _ _ _ _ _ Hp), (st_bind_run _ _ _ _ _ Hs).
  destruct (Rfid.serve_events _ _ _ _ Hs) as [He _]. split_and!; [done..|exact He].
Qed.

(** C32: with any reader, however it answers, a turn that is given up announces
    nothing, and one that serves a card announces exactly the known card whose
    serial number the reader gave. *)
Theorem rfid_announces {D} `{Rfid.Reader D} fuel (s : Rfid.rfid) o s' :
  Rfid.rfid_turn fuel s = Ret (o, s') ->
  Rfid.events s' = Rfid.events s ++
    match o with
    | Rfid.GivenUp _ => []
    | Rfid.Served _ => if Rfid.lcd s then Rfid.events_of (Rfid.SnrBuf s') else []
    end.
Proof.
  unfold Rfid.rfid_turn. intros (g & s1 & Hp & Hk)%st_bind_Ret.
  apply Rfid.keeps_prepare in Hp. injection Hp as He Hl. destruct g as [cmd|].
  - injection Hk as <- <-. by rewrite app_nil_r.
  - apply st_bind_Ret in Hk as (l & s2 & Hs & Hr). injection Hr as <- <-.
    apply Rfid.serve_events in Hs as [-> ->]. by rewrite He, Hl.
Qed.

(** the load meter: when [n] iterations fit into the ten ticks measured and
    [T] into an idle period, the hook stores the load (T - n) / T as a
    percentage with two decimals, rounded down; when [n] is not below [T] it
    becomes the new reference and the load is zero. *)
Theorem cpu_load s T n ticks rest :
  Cpu.total_count s = T -> 0 < T -> T * 100 < 2 ^ 32 -> Cpu.window n ticks rest -> Z.of_nat n < 2 ^ 32 ->
  exists s', Cpu.cpu_usage_idle_hook ticks s = Ret (s', rest) /\
    0 < Cpu.total_count s' /\
    (if Z.of_nat n <? T
     then 100 * Cpu.cpu_usage_major s' + Cpu.cpu_usage_minor s' = 10000 * (T - Z.of_nat n) / T /\
          Cpu.total_count s' = T
     else Cpu.cpu_usage_get s' = (0, 0) /\ Cpu.total_count s' = Z.of_nat n) /\
    Cpu.cpu_usage_show s' = Cpu.cpu_usage_get s'.
Proof.
  intros HT Hpos Hov Hw Hn. unfold Cpu.cpu_usage_idle_hook. rewrite HT, (proj2 (Z.eqb_neq T 0)) by lia.
  unfold_st. rewrite (Cpu.measure_run _ _ _ Hw Hn). rewrite HT, (proj2 (Z.eqb_neq T 0)) by lia.
  destruct (Z.ltb_spec (Z.of_nat n) T) as [Hlt|Hge].
  - rewrite (wrap_id 32 (T - _)) by lia.
    destruct (Cpu.percent (T - Z.of_nat n) T) as (Hq & Hmaj & Hmin); [lia|lia|lia|].
    eexists. split; [reflexivity|]. cbn [Cpu.total_count Cpu.cpu_usage_major Cpu.cpu_usage_minor].
    unfold Cpu.cpu_usage_show, Cpu.cpu_usage_get. cbn [Cpu.cpu_usage_major Cpu.cpu_usage_minor].
    split_and!; [lia|exact Hq|done|]. set (mj := u8 (u32 (_ * 100) / T)) in *. set (mn := u8 (u32 (_ mod T * 100) / T)) in *.
    destruct (Z.leb_spec 100 mj); [|done]. replace mj with 100 by lia.
    cut (mn = 0); [by intros ->|]. assert (10000 * (T - Z.of_nat n) / T <= 10000) by (apply Z.div_le_upper_bound; lia).
    lia.
  - eexists. split; [reflexivity|]. cbn. split_and!; try done. lia.
Qed.

(** ** Witnesses *)

(** A reader with one card on it: its serial number and block, and how often it
    will still be found. *)
Definition toy : Type := list Z * list Z * nat.

#[local] Instance toy_reader : Rfid.Reader toy := {|
  Rfid.control cmd d := let '(sn, b, n) := d in
    if cmd =? Rfid.RFID_FindCard then
      match n with O => (1, d) | S n => (0, (sn, b, n)) end
    else (0, d);
  Rfid.anticoll d := (0, d.1.1, d);
  Rfid.read blk buf d := (16, d.1.2, d);
  Rfid.write blk buf d := (16, (d.1.1, buf, d.2))
|}.

Definition on_toy (d : toy) (sn b : list Z) (n : nat) : Prop := d = (sn, b, n).

#[local] Instance toy_card : Rfid.Card on_toy.
Proof.
  split; unfold on_toy; intros; subst; cbn.
  - by eexists.
  - by repeat eexists.
  - destruct_or!; subst; by eexists.
  - by eexists.
  - by eexists.
  - by eexists.
Qed.

Definition rfid0 : Rfid.rfid (D := toy) :=
  Rfid.mkRfid ([0xBC; 0x03; 0xDD; 0x0F], replicate 16 255, 4%nat) [9; 9; 9; 9] (replicate 16 0) true [1].

Lemma rfid_card_witness : exists s',
  Rfid.rfid_turn 2 rfid0 = Ret (Rfid.Served true, s') /\
  on_toy (Rfid.dev s') [0xBC; 0x03; 0xDD; 0x0F] (replicate 16 0) 0%nat /\
  Rfid.DataBuf s' = replicate 16 0 /\ Rfid.events s' = [1; 4].
Proof.
  apply (rfid_card on_toy 2 rfid0 [0xBC; 0x03; 0xDD; 0x0F] (replicate 16 255) 3);
    [reflexivity|reflexivity|reflexivity|cbn; lia].
Defined.

(** The card leaves too early for the second search, and the turn is given up. *)
Lemma rfid_announces_witness : exists s',
  Rfid.rfid_turn 2 (Rfid.with_dev rfid0 ([], [], 0%nat)) = Ret (Rfid.GivenUp Rfid.RFID_FindCard, s') /\
  Rfid.events s' = [1] ++ [].
Proof.
  eexists. split; [reflexivity|].
  apply (rfid_announces 2 (Rfid.with_dev rfid0 ([], [], 0%nat)) (Rfid.GivenUp Rfid.RFID_FindCard)). reflexivity.
Defined.

(** Three of four iterations fit: the processor is loaded by a quarter. *)
Lemma cpu_load_witness : exists s',
  Cpu.cpu_usage_idle_hook [2 ^ 32 - 5; 2 ^ 32 - 3; 0; 2; 5; 77] (Cpu.mkCpu 0 0 4) = Ret (s', [77]) /\
  0 < Cpu.total_count s' /\
  (100 * Cpu.cpu_usage_major s' + Cpu.cpu_usage_minor s' = 2500 /\ Cpu.total_count s' = 4) /\
  Cpu.cpu_usage_show s' = Cpu.cpu_usage_get s'.
Proof.
  apply (cpu_load (Cpu.mkCpu 0 0 4) 4 3); [reflexivity|lia|lia| |lia].
  exists (2 ^ 32 - 5), [2 ^ 32 - 3; 0; 2], 5. split_and!; [reflexivity|reflexivity| |].
  - repeat apply Forall_cons_2; [by vm_compute..|apply Forall_nil_2].
  - by vm_compute.
Defined.
