(* ===== verification/Gnss.v ===== *)
(** * The platform protocol's application side

    GNSS/GNSS_Splitter.c hands the messages of the platform to their handlers;
    GNSS/GNSS_APP.c holds the threads that register the terminal and upload
    pictures.  The protocol library (GNSS_Terminal.c, GNSS.c) is not part of the
    repository: its entry points are recorded as calls, and what the modelled
    code needs from their results is a parameter.  The file system is a function
    from path names to contents behind a table of [DFS_FD_MAX] descriptors. *)

From S2P Require Import Prelude Ring Voice.

(** ** Messages *)

Definition eServerCommonACK : Z := 0x8001.
Definition eTerminalRegisterACK : Z := 0x8100.
Definition eSetTerminalParameters : Z := 0x8103.
Definition eGetTerminalParameters : Z := 0x8104.
Definition eTerminalControl : Z := 0x8105.
Definition eGetLocationInformation : Z := 0x8201.
Definition eTemporaryPositionTrackingControl : Z := 0x8202.
Definition eTextMessage : Z := 0x8300.
Definition eQuestionDownlink : Z := 0x8302.
Definition eSetInformationMenu : Z := 0x8303.
Definition eInformationServices : Z := 0x8304.
Definition eCallBack : Z := 0x8400.
Definition eUploadMultimediaDataACK : Z := 0x8800.
Definition eStorageUploadMultimediaDataCMD : Z := 0x8803.
Definition eSendVoiceData : Z := 0x0AA0.

Definition GNSS_FrameBytes_MAX : nat := 1024.
Definition GNSS_EOK : Z := 0.
Definition dSuccess : Z := 0.
Definition GNSS_RegisterACKEvent : Z := 1.
Definition NET_CONNET_EVENT : Z := 1.
Definition AUTHENTCATED_EVENT : Z := 2.
Definition DFS_FD_MAX : nat := 4.

(** [MessageHeadTypeDef]; the property word is kept as a whole. *)
Record head := mkHead {
  MessageID : Z;
  MessageProperty : Z;
  PhoneNumber : list Z;
  MessageSerialNumber : Z;
  TotalMessagePackets : Z;
  PackageNo : Z
}.

(** The bit field of bits 0 to 9. *)
Definition MessageLen (h : head) : Z := Z.land (MessageProperty h) 1023.

(** A message on its way to a thread of its own. *)
Record message := mkMsg { MessageHead : head; Data : list Z }.

(** [MultimediaTypedef] with the bytes its pointer refers to. *)
Record multimedia := mkMM {
  MultimediaID : Z;
  TotalPackets : Z;
  PacketID : Z;
  len : Z;
  pData : list Z
}.

(** Calls into the protocol library. *)
Inductive call :=
  | SearchAndExecute (serial id result : Z)
  | Get_SetParam (h : head) (body : list Z)
  | Get_QueryParam (serial : Z)
  | Get_Control (h : head) (body : list Z)
  | Get_QueryLocateInfo
  | Get_TempLocateTrack (h : head) (body : list Z)
  | Get_TextInfo (h : head) (body : list Z)
  | Get_Question (h : head) (body : list Z)
  | Get_SetMenu (h : head) (body : list Z)
  | Get_InfoService (h : head) (body : list Z)
  | Get_PhoneCallBack (h : head) (body : list Z)
  | GetAck_MultimediaUpload (h : head) (body : list Z)
  | Ask_MultimediaUpload (m : multimedia).

(** A file: its bytes, and from which position on the medium fails, if it
    does. *)
Record file := mkFile { bytes : list Z; bad : option nat }.

Section app.
Context {D : Type}.

(** [player] is the voice player's ring; the two event sets; [calls] made so
    far; [blocks] allocated and [fds] open; [threads] started and not yet
    run. *)
Record gnss := mkGnss {
  player : Player.play (D := D);
  GNSSEvent : Z;
  GlobalEvent : Z;
  calls : list call;
  blocks : nat;
  fds : nat;
  threads : list message
}.

Definition with_player s p := mkGnss p (GNSSEvent s) (GlobalEvent s) (calls s) (blocks s) (fds s) (threads s).
Definition with_gevent s e := mkGnss (player s) e (GlobalEvent s) (calls s) (blocks s) (fds s) (threads s).
Definition with_global s e := mkGnss (player s) (GNSSEvent s) e (calls s) (blocks s) (fds s) (threads s).
Definition with_calls s c := mkGnss (player s) (GNSSEvent s) (GlobalEvent s) c (blocks s) (fds s) (threads s).
Definition with_blocks s b := mkGnss (player s) (GNSSEvent s) (GlobalEvent s) (calls s) b (fds s) (threads s).
Definition with_fds s f := mkGnss (player s) (GNSSEvent s) (GlobalEvent s) (calls s) (blocks s) f (threads s).
Definition with_threads s t := mkGnss (player s) (GNSSEvent s) (GlobalEvent s) (calls s) (blocks s) (fds s) t.

Definition do_call (c : call) : ST gnss unit := modify (fun s => with_calls s (calls s ++ [c])).

(** The heap gives out at most [mem] blocks, [files] are the files, [reg_ack]
    is the status of [GNSS_T_GetACK_Register] and [upload_cmd] the result and
    the picture of [GNSS_T_Get_MultimediaUploadCMD]; [thread_ok] says whether
    [rt_thread_create] succeeds. *)
Context (mem : nat) (files : list Z -> option file).
Context (reg_ack : list Z -> Z) (upload_cmd : head -> list Z -> Z * Z) (thread_ok : bool).

Definition alloc : ST gnss bool :=
  s ← get;
  if (mem <=? blocks s)%nat then mret false
  else _ ← modify (fun s => with_blocks s (S (blocks s))); mret true.

Definition free : ST gnss unit := modify (fun s => with_blocks s (pred (blocks s))).

(** ** The splitter

    The argument is what [GNSS_TryGetMessage] returned and left in the head and
    in the static buffer of the body. *)
Definition be16 (body : list Z) (i : Z) : res Z :=
  a ← idx body i; b ← idx body (i + 1); mret (Z.lor (Z.shiftl a 8) b).

(** A new thread gets a copy of the message. *)
Definition start_upload (junk : list Z) (h : head) (body : list Z) : ST gnss unit :=
  ok ← alloc;
  if negb ok then lift (Err AssertFail)
  else
    if (length body <? Z.to_nat (MessageLen h))%nat then lift (Err OutOfBounds)
    else
      d ← lift (upd_range junk 0 (take (Z.to_nat (MessageLen h)) body));
      if thread_ok then modify (fun s => with_threads s (threads s ++ [mkMsg h d])) else mret tt.

Definition GNSS_Splitter (junk : list Z) (ret : Z) (h : head) (body : list Z) : ST gnss unit :=
  if negb (ret =? 0) then mret tt
  else
    let i := MessageID h in
    if i =? eServerCommonACK then
      serial ← lift (be16 body 0); id ← lift (be16 body 2); result ← lift (idx body 4);
      do_call (SearchAndExecute serial id result)
    else if i =? eTerminalRegisterACK then
      if reg_ack body =? GNSS_EOK
      then modify (fun s => with_gevent s (Z.lor (GNSSEvent s) GNSS_RegisterACKEvent)) else mret tt
    else if i =? eSetTerminalParameters then do_call (Get_SetParam h body)
    else if i =? eGetTerminalParameters then do_call (Get_QueryParam (MessageSerialNumber h))
    else if i =? eTerminalControl then do_call (Get_Control h body)
    else if i =? eGetLocationInformation then do_call Get_QueryLocateInfo
    else if i =? eTemporaryPositionTrackingControl then do_call (Get_TempLocateTrack h body)
    else if i =? eTextMessage then do_call (Get_TextInfo h body)
    else if i =? eQuestionDownlink then do_call (Get_Question h body)
    else if i =? eSetInformationMenu then do_call (Get_SetMenu h body)
    else if i =? eInformationServices then do_call (Get_InfoService h body)
    else if i =? eCallBack then do_call (Get_PhoneCallBack h body)
    else if i =? eUploadMultimediaDataACK then do_call (GetAck_MultimediaUpload h body)
    else if i =? eStorageUploadMultimediaDataCMD then start_upload junk h body
    else if i =? eSendVoiceData then
      s ← get;
      r ← lift (Player.CopyToDecoderBuf body (player s));
      modify (fun s => with_player s (snd r))
    else mret tt.

(** ** The upload thread *)

(** [rt_sprintf(PathName, "/Picture/%08X.jpg", id)] *)
Definition hex_digit (d : Z) : Z := if d <? 10 then 48 + d else 55 + d.

Definition hex8 (n : Z) : list Z :=
  (fun k => hex_digit (Z.land (Z.shiftr n (4 * k)) 15)) <$> [7; 6; 5; 4; 3; 2; 1; 0].

Definition picture_path (id : Z) : list Z := str "/Picture/" ++ hex8 (u32 id) ++ str ".jpg".

(** [GNSS_fopen]: [None] when there is no such file or no free descriptor. *)
Definition fopen (path : list Z) : ST gnss (option file) :=
  s ← get;
  if (DFS_FD_MAX <=? fds s)%nat then mret None
  else match files path with
       | None => mret None
       | Some f => _ ← modify (fun s => with_fds s (S (fds s))); mret (Some f)
       end.

(** [GNSS_fread(fd, pData, 512)] at position [pos]: the bytes read, or [None]
    for the result -1. *)
Definition fread (f : file) (pos : nat) : option (list Z) :=
  match bad f with
  | Some b => if (b <=? pos)%nat then None else Some (take 512 (drop pos (bytes f)))
  | None => Some (take 512 (drop pos (bytes f)))
  end.

(** A thread has ended, waits for an event nobody has sent, or is still
    running when the fuel is used up. *)
Inductive status := Finished | Waiting | Running.

Fixpoint upload_loop (fuel : nat) (f : file) (pos : nat) (m : multimedia) : ST gnss status :=
  match fuel with
  | O => mret Running
  | S fuel =>
      let data := fread f pos in
      let ret := match data with Some d => Z.of_nat (length d) | None => -1 end in
      if ret =? 0 then mret Finished
      else
        buf ← lift (match data with Some d => upd_range (pData m) 0 d | None => Ret (pData m) end);
        let m := mkMM (MultimediaID m) (TotalPackets m) (u32 (PacketID m + 1)) (u32 ret) buf in
        s ← get;
        if Z.land (GlobalEvent s) AUTHENTCATED_EVENT =? 0 then mret Waiting
        else
          _ ← do_call (Ask_MultimediaUpload m);
          upload_loop fuel f (match data with Some d => (pos + length d)%nat | None => pos end) m
  end.

Definition packets_of (size : Z) : Z :=
  let n := size / 512 in if negb (size mod 512 =? 0) then n + 1 else n.

(** [junk] is the content of the block of 512 bytes. *)
Definition MultimediaUpload_thread_entry (junk : list Z) (fuel : nat) (msg : message) : ST gnss status :=
  path_ok ← alloc;
  st ← (if MessageID (MessageHead msg) =? eStorageUploadMultimediaDataCMD then
          let '(Result, id) := upload_cmd (MessageHead msg) (Data msg) in
          if Result =? dSuccess then
            data_ok ← alloc;
            if negb data_ok then mret Finished
            else if negb path_ok then lift (Err NullDeref)
            else
              f ← fopen (picture_path id);
              match f with
              | None => _ ← free; mret Finished
              | Some f =>
                  st ← upload_loop fuel f 0
                    (mkMM id (packets_of (Z.of_nat (length (bytes f)))) 0 0 junk);
                  match st with
                  | Finished => _ ← free; mret Finished
                  | _ => mret st
                  end
              end
          else mret Finished
        else mret Finished);
  match st with
  | Finished =>
      _ ← free;
      _ ← (if path_ok : bool then free else mret tt);
      mret Finished
  | _ => mret st
  end.

(** The first thread that was started runs. *)
Definition run_next (junk : list Z) (fuel : nat) : ST gnss status :=
  s ← get;
  match threads s with
  | [] => mret Finished
  | msg :: ts =>
      _ ← modify (fun s => with_threads s ts);
      MultimediaUpload_thread_entry junk fuel msg
  end.

(** One command after the other. *)
Fixpoint serve (junk : list Z) (fuel : nat) (msgs : list message) : ST gnss unit :=
  match msgs with
  | [] => mret tt
  | msg :: msgs => _ ← alloc; _ ← MultimediaUpload_thread_entry junk fuel msg; serve junk fuel msgs
  end.

(** ** The registration thread

    [Register_thread_entry] waits for the network and publishes the event of a
    successful authentication; what follows its [return] is
    [register_dialogue]. *)
Definition Register_thread_entry (param : Z) : ST gnss status :=
  ok ← alloc;
  if negb ok then lift (Err AssertFail)
  else
    s ← get;
    if Z.land (GlobalEvent s) NET_CONNET_EVENT =? 0 then mret Waiting
    else
      _ ← modify (fun s => with_global s (Z.lor (GlobalEvent s) AUTHENTCATED_EVENT));
      mret Finished.

(** ** Lemmas *)

Definition ready (s : gnss) : Prop := Z.land (GlobalEvent s) AUTHENTCATED_EVENT <> 0.

(** The bytes a packet carries. *)
Definition payload_of (m : multimedia) : list Z := take (Z.to_nat (len m)) (pData m).

Lemma alloc_ok s : (blocks s < mem)%nat -> alloc s = Ret (true, with_blocks s (S (blocks s))).
Proof. intros Hm. unfold alloc. unfold_st. by rewrite (proj2 (Nat.leb_gt _ _)) by lia. Qed.

Lemma packets_step n : 0 < n -> packets_of n = 1 + packets_of (Z.max 0 (n - 512)).
Proof.
  intros Hn. unfold packets_of. destruct (Z_le_gt_dec 512 n).
  - rewrite Z.max_r by lia. assert (Hk : exists k, n = k + 1 * 512) by (exists (n - 512); lia).
    destruct Hk as [k ->]. replace (k + 1 * 512 - 512) with k by lia.
    rewrite Z.div_add, Z.mod_add by lia. destruct (_ =? 0); cbn [negb]; lia.
  - rewrite Z.max_l by lia. rewrite (Z.div_small n), (Z.mod_small n) by lia.
    by rewrite (proj2 (Z.eqb_neq n 0)) by lia.
Qed.

Lemma upload_loop_run f fuel : forall pos m s,
  bad f = None -> ready s -> length (pData m) = 512%nat ->
  (length (bytes f) - pos <= 512 * (fuel - 1))%nat -> (0 < fuel)%nat ->
  0 <= PacketID m -> PacketID m + Z.of_nat (length (bytes f) - pos) < 2 ^ 32 ->
  exists ps, upload_loop fuel f pos m s = Ret (Finished, with_calls s (calls s ++ (Ask_MultimediaUpload <$> ps))) /\
    concat (payload_of <$> ps) = drop pos (bytes f) /\
    PacketID <$> ps = seqZ (PacketID m + 1) (packets_of (Z.of_nat (length (bytes f) - pos))) /\
    Forall (fun p => MultimediaID p = MultimediaID m /\ TotalPackets p = TotalPackets m) ps.
Proof.
  induction fuel as [|fuel IH]; intros pos m s Hbad Hs Hl Hfuel Hpos Hp Hov; [lia|]. clear Hpos.
  cbn [upload_loop]. unfold fread. rewrite Hbad.
  set (d := take 512 (drop pos (bytes f))).
  assert (Hd : length d = Nat.min 512 (length (bytes f) - pos)) by (unfold d; by rewrite length_take, length_drop).
  destruct (Z.eqb_spec (Z.of_nat (length d)) 0) as [H0|H0].
  { exists []. assert (Hend : (length (bytes f) - pos = 0)%nat) by lia. rewrite Hend.
    rewrite app_nil_r. split; [by destruct s|]. split; [|by split; [|constructor]].
    cbn. by rewrite drop_ge by lia. }
  unfold_st. rewrite upd_range_0 by lia. cbn [GlobalEvent]. rewrite (proj2 (Z.eqb_neq _ _) Hs).
  rewrite (wrap_id 32 (PacketID m + 1)), (wrap_id 32 (Z.of_nat _)) by lia.
  unfold do_call, modify.
  match goal with |- context [upload_loop fuel f _ ?x ?y] => set (m1 := x); set (s1 := y) end.
  destruct (IH (pos + length d)%nat m1 s1) as (ps & Hrun & Hps & Hid & Hall);
    [done|done| |lia|lia|cbn; lia|cbn; lia|].
  { cbn. rewrite length_app, length_drop. lia. }
  exists (m1 :: ps). split; [|split; [|split]].
  - etrans; [exact Hrun|]. unfold s1, with_calls. cbn. by rewrite <- app_assoc.
  - cbn [fmap list_fmap concat]. rewrite Hps. unfold payload_of, m1. cbn [len pData].
    rewrite Nat2Z.id, take_app_length. unfold d at 1. rewrite <- (take_drop 512 (drop pos (bytes f))) at 2.
    f_equal. rewrite !drop_drop. destruct (decide (length (bytes f) - pos <= 512)%nat).
    + rewrite !drop_ge by lia. done.
    + f_equal. lia.
  - cbn [fmap list_fmap]. unfold m1 in *. cbn [PacketID] in *. rewrite Hid.
    rewrite (packets_step (Z.of_nat (length (bytes f) - pos))) by lia.
    replace (Z.max 0 (Z.of_nat (length (bytes f) - pos) - 512)) with (Z.of_nat (length (bytes f) - (pos + length d))) by lia.
    assert (Hge : 0 <= packets_of (Z.of_nat (length (bytes f) - (pos + length d)))).
    { unfold packets_of. assert (0 <= Z.of_nat (length (bytes f) - (pos + length d)) / 512) by (apply Z.div_pos; lia).
      case_match; lia. }
    rewrite (seqZ_cons _ (1 + _)) by lia. f_equal. f_equal; lia.
  - constructor; [done|]. done.
Qed.

(** A readable picture, and enough turns of the loop for it. *)
Definition picture (fuel : nat) (f : file) : Prop :=
  bad f = None /\ (length (bytes f) <= 512 * (fuel - 1))%nat /\ (0 < fuel)%nat /\
  Z.of_nat (length (bytes f)) < 2 ^ 32.

Lemma upload_run junk fuel msg id f s :
  MessageID (MessageHead msg) = eStorageUploadMultimediaDataCMD ->
  upload_cmd (MessageHead msg) (Data msg) = (dSuccess, id) ->
  files (picture_path id) = Some f -> picture fuel f -> length junk = 512%nat ->
  ready s -> (0 < blocks s)%nat -> (blocks s + 2 <= mem)%nat -> (fds s < DFS_FD_MAX)%nat ->
  exists ps, MultimediaUpload_thread_entry junk fuel msg s =
    Ret (Finished, with_blocks (with_fds (with_calls s (calls s ++ (Ask_MultimediaUpload <$> ps)))
                                         (S (fds s))) (pred (blocks s))) /\
    concat (payload_of <$> ps) = bytes f /\
    PacketID <$> ps = seqZ 1 (packets_of (Z.of_nat (length (bytes f)))) /\
    Forall (fun p => MultimediaID p = id /\ TotalPackets p = packets_of (Z.of_nat (length (bytes f)))) ps.
Proof.
  intros Hid Hcmd Hfile (Hbad & Hfuel & Hf0 & H32) Hj Hr Hb Hm Hfd.
  unfold MultimediaUpload_thread_entry. rewrite (st_bind_run _ _ _ _ _ (alloc_ok s ltac:(lia))).
  rewrite Hid, Hcmd. cbn [Z.eqb eStorageUploadMultimediaDataCMD Pos.eqb dSuccess].
  set (s1 := with_blocks s (S (blocks s))).
  assert (Ha : alloc s1 = Ret (true, with_blocks s1 (S (blocks s1)))) by (apply alloc_ok; cbn; lia).
  set (s2 := with_blocks s1 (S (blocks s1))) in *.
  assert (Hop : fopen (picture_path id) s2 = Ret (Some f, with_fds s2 (S (fds s)))).
  { unfold fopen. unfold_st. rewrite (proj2 (Nat.leb_gt _ _)) by (cbn; lia). by rewrite Hfile. }
  set (s3 := with_fds s2 (S (fds s))) in *.
  set (m := mkMM id (packets_of (Z.of_nat (length (bytes f)))) 0 0 junk).
  destruct (upload_loop_run f fuel 0 m s3) as (ps & Hrun & Hps & Hpid & Hall);
    [done|done|done|lia|lia|done|cbn; lia|].
  rewrite Nat.sub_0_r in Hpid. exists ps. split; [|by split_and!].
  set (s4 := with_calls s3 _) in Hrun.
  match goal with |- (?p ≫= ?k) _ = _ =>
    assert (Hp : p s1 = Ret (Finished, with_blocks s4 (S (blocks s)))) end.
  { rewrite (st_bind_run _ _ _ _ _ Ha). cbn [negb]. rewrite (st_bind_run _ _ _ _ _ Hop).
    by rewrite (st_bind_run _ _ _ _ _ Hrun). }
  rewrite (st_bind_run _ _ _ _ _ Hp). unfold free, modify. unfold_st. done.
Qed.

(** Without a descriptor nothing is sent. *)
Lemma upload_blocked junk fuel msg s :
  (0 < blocks s)%nat -> (blocks s + 2 <= mem)%nat -> (DFS_FD_MAX <= fds s)%nat ->
  MultimediaUpload_thread_entry junk fuel msg s = Ret (Finished, with_blocks s (pred (blocks s))).
Proof.
  intros Hb Hm Hfd. unfold MultimediaUpload_thread_entry.
  rewrite (st_bind_run _ _ _ _ _ (alloc_ok s ltac:(lia))).
  set (s1 := with_blocks s (S (blocks s))).
  match goal with |- (?p ≫= ?k) _ = _ => assert (Hp : p s1 = Ret (Finished, s1)) end.
  { destruct (_ =? eStorageUploadMultimediaDataCMD); [|done].
    destruct (upload_cmd _ _) as [r id]. destruct (r =? dSuccess); [|done].
    rewrite (st_bind_run _ _ _ _ _ (alloc_ok s1 ltac:(cbn; lia))). cbn [negb].
    unfold fopen. unfold_st. rewrite (proj2 (Nat.leb_le _ _)) by (cbn; lia). by destruct s. }
  rewrite (st_bind_run _ _ _ _ _ Hp). by destruct s.
Qed.

(** A failing medium: the loop goes on at the same place. *)
Lemma upload_loop_bad f fuel : forall pos m s,
  (exists b, bad f = Some b /\ (b <= pos)%nat) -> ready s ->
  exists ps, upload_loop fuel f pos m s =
      Ret (Running, with_calls s (calls s ++ (Ask_MultimediaUpload <$> ps))) /\
    length ps = fuel /\ Forall (fun p => len p = 2 ^ 32 - 1 /\ pData p = pData m) ps.
Proof.
  induction fuel as [|fuel IH]; intros pos m s (b & Hb & Hle) Hr; cbn [upload_loop].
  - exists []. rewrite app_nil_r. split; [by destruct s|]. by split.
  - unfold fread. rewrite Hb, (proj2 (Nat.leb_le _ _)) by done. cbn [Z.eqb]. unfold_st.
    rewrite (proj2 (Z.eqb_neq _ _) Hr). unfold do_call, modify.
    match goal with |- context [upload_loop fuel f _ ?x ?y] => set (m1 := x); set (s1 := y) end.
    destruct (IH pos m1 s1) as (ps & Hrun & Hl & Hall); [by exists b|done|].
    exists (m1 :: ps). split; [|split; [by cbn; rewrite Hl|by constructor]].
    etrans; [exact Hrun|]. unfold s1, with_calls. cbn. by rewrite <- app_assoc.
Qed.

Lemma serve_app junk fuel ms1 ms2 s s1 :
  serve junk fuel ms1 s = Ret (tt, s1) -> serve junk fuel (ms1 ++ ms2) s = serve junk fuel ms2 s1.
Proof.
  revert s. induction ms1 as [|msg ms1 IH]; intros s; cbn [app serve]; [by intros [= ->]|].
  intros (a & s2 & Ha & H2)%st_bind_Ret. apply st_bind_Ret in H2 as (st & s3 & Ht & H3).
  rewrite (st_bind_run _ _ _ _ _ Ha), (st_bind_run _ _ _ _ _ Ht). by apply IH.
Qed.

(** What [serve] keeps when it can allocate. *)
Definition room (s : gnss) : Prop := (blocks s + 3 <= mem)%nat.

Lemma serve_blocked junk fuel ms : forall s, room s -> (DFS_FD_MAX <= fds s)%nat ->
  serve junk fuel ms s = Ret (tt, s).
Proof.
  induction ms as [|msg ms IH]; intros s Hs Hfd; cbn [serve]; [done|]. unfold room in Hs.
  rewrite (st_bind_run _ _ _ _ _ (alloc_ok s ltac:(lia))).
  rewrite (st_bind_run _ _ _ _ _ (upload_blocked _ _ _ (with_blocks s (S (blocks s)))
    ltac:(cbn; lia) ltac:(cbn; lia) Hfd)).
  rewrite IH by done. by destruct s.
Qed.

(** A command for a readable picture. *)
Definition good_command (fuel : nat) (msg : message) : Prop :=
  MessageID (MessageHead msg) = eStorageUploadMultimediaDataCMD /\
  exists id f, upload_cmd (MessageHead msg) (Data msg) = (dSuccess, id) /\
    files (picture_path id) = Some f /\ picture fuel f.

Lemma serve_good junk fuel ms : forall s, room s -> ready s -> length junk = 512%nat ->
  Forall (good_command fuel) ms -> (fds s + length ms <= DFS_FD_MAX)%nat ->
  exists ps, serve junk fuel ms s =
    Ret (tt, with_fds (with_calls s (calls s ++ (Ask_MultimediaUpload <$> ps))) (fds s + length ms)).
Proof.
  induction ms as [|msg ms IH]; intros s Hs Hr Hj Hg Hfd; cbn [serve].
  - exists []. rewrite app_nil_r, Nat.add_0_r. by destruct s.
  - apply Forall_cons in Hg as [(Hid & id & f & Hcmd & Hfile & Hp) Hg]. cbn [length] in *. unfold room in Hs.
    rewrite (st_bind_run _ _ _ _ _ (alloc_ok s ltac:(lia))).
    destruct (upload_run junk fuel msg id f (with_blocks s (S (blocks s)))) as (ps & Hrun & _);
      [done..|cbn; lia|cbn; lia|cbn; lia|]. rewrite (st_bind_run _ _ _ _ _ Hrun).
    match goal with |- context [serve junk fuel ms ?x] => destruct (IH x) as (qs & ->) end;
      [done|done|done|done|cbn; lia|].
    exists (ps ++ qs). rewrite fmap_app. unfold with_fds, with_calls, with_blocks. cbn. rewrite <- app_assoc.
    by rewrite Nat.add_succ_r.
Qed.
End app.

(** ** The dialogue behind the registration thread's [return]

    The configuration file is the image of [TerminalRegisterStructTypeDef], 44
    bytes with the authentication code at offset 34. *)

Module Register.

Inductive request :=
  | AskRegister (config : list Z)
  | AskAuthenticate (code : list Z) (len : Z)
  | AskUnregister.

Definition STRUCT_SIZE : nat := 44.
Definition AuthenticationCodeStr : Z := 34.

(** [read] into the structure; [None] is a file that cannot be opened. *)
Definition read_config (f : option (list Z)) (config : list Z) : res (list Z) :=
  match f with Some c => upd_range config 0 (take STRUCT_SIZE c) | None => mret config end.

(** The loop that looks for the end of the code, in at most ten bytes. *)
Fixpoint code_end (fuel : nat) (config : list Z) (i : Z) : res Z :=
  match fuel with
  | O => mret i
  | S fuel =>
      c ← idx config (AuthenticationCodeStr + i);
      if c =? 0 then mret i else code_end fuel config (i + 1)
  end.

(** The switch on the result: whether the event is published. *)
Definition result_switch (gResult : Z) : res bool :=
  if gResult =? 0 then mret true
  else if (gResult =? 1) || (gResult =? 2) || (gResult =? 3) then mret false
  else Err AssertFail.

Definition authenticate_case (config : list Z) (gResult : Z) : res (list request * bool) :=
  i ← code_end 10 config 0;
  if 10 <=? i then Err AssertFail
  else
    published ← result_switch gResult;
    mret ([AskAuthenticate (take (Z.to_nat (i + 1)) (drop 34 config)) (i + 1)], published).

(** The requests sent and whether the terminal counts as authenticated;
    [file1] is the configuration at the start and [file2] after the platform's
    answer to the registration, [gResult] its answer to the last request. *)
Definition register_dialogue (param : Z) (junk : list Z) (file1 file2 : option (list Z)) (gResult : Z) :
    res (list request * bool) :=
  if param =? 1 then
    config ← read_config file1 junk;
    c ← idx config AuthenticationCodeStr;
    if c =? 0 then
      match file2 with
      | None => Err AssertFail
      | Some _ =>
          config2 ← read_config file2 config;
          c ← idx config2 AuthenticationCodeStr;
          if c =? 0 then Err AssertFail
          else
            r ← authenticate_case config2 gResult;
            mret (AskRegister config :: fst r, snd r)
      end
    else authenticate_case config gResult
  else if param =? 3 then authenticate_case junk gResult
  else if param =? 2 then
    published ← result_switch gResult;
    mret ([AskUnregister], published)
  else Err AssertFail.

(** The configuration [test_register] writes. *)
Definition test_register : list Z :=
  [370600 / 10000; 0; Z.land (370600 mod 10000) 255; Z.shiftr (370600 mod 10000) 8]
  ++ [0x30; 0x31; 0x32; 0x33; 0x34] ++ [1; 2; 3; 4; 5; 6; 7; 8]
  ++ [0x20; 0x21; 0x22; 0x23; 0x24; 0x25; 0x26] ++ [3]
  ++ [0; 1; 2; 3; 4; 5; 6; 7; 8] ++ [0; 0; 0; 0; 0; 0; 0; 0; 0; 0].

(** A configuration with an authentication code. *)
Definition config_with (general code pad : list Z) : list Z := general ++ code ++ 0 :: pad.

Definition config_ok (general code pad : list Z) : Prop :=
  length general = 34%nat /\ Forall (fun c => c <> 0) code /\ (length code + length pad = 9)%nat.

Lemma read_config_ok c junk : length c = STRUCT_SIZE -> length junk = STRUCT_SIZE ->
  read_config (Some c) junk = Ret c.
Proof.
  intros Hc Hj. cbn [read_config]. rewrite take_ge by lia. rewrite upd_range_0 by lia.
  rewrite Hc, <- Hj, drop_all. by rewrite app_nil_r.
Qed.

Lemma code_end_run fuel : forall general done_ code pad,
  length general = 34%nat -> Forall (fun c => c <> 0) code -> (length code < fuel)%nat ->
  code_end fuel (general ++ (done_ ++ code) ++ 0 :: pad) (Z.of_nat (length done_)) =
    Ret (Z.of_nat (length (done_ ++ code))).
Proof.
  induction fuel as [|fuel IH]; intros general done_ code pad Hg Hc Hl; [lia|]. cbn [code_end].
  unfold AuthenticationCodeStr. destruct code as [|c code].
  - rewrite !app_nil_r. rewrite (proj2 (idx_Ret _ _ 0)); [done|]. split; [lia|].
    rewrite app_assoc. apply list_lookup_middle. rewrite length_app. lia.
  - apply Forall_cons in Hc as [Hc Hcs]. rewrite (proj2 (idx_Ret _ _ c)).
    2: { split; [lia|]. rewrite <- app_assoc, app_assoc. apply list_lookup_middle. rewrite length_app. lia. }
    unfold_st. rewrite (proj2 (Z.eqb_neq _ _) Hc).
    specialize (IH general (done_ ++ [c]) code pad Hg Hcs). rewrite length_app in IH. cbn [length] in *.
    rewrite <- (app_assoc done_) in IH. cbn [app] in IH.
    replace (Z.of_nat (length done_) + 1) with (Z.of_nat (length done_ + 1)) by lia. apply IH. lia.
Qed.

Lemma authenticate_run general code pad g b : config_ok general code pad -> result_switch g = Ret b ->
  authenticate_case (config_with general code pad) g =
    Ret ([AskAuthenticate (code ++ [0]) (Z.of_nat (length code) + 1)], b).
Proof.
  intros (Hg & Hc & Hl) Hb. unfold authenticate_case, config_with.
  assert (He := code_end_run 10 general [] code pad Hg Hc ltac:(lia)). cbn [app length] in He.
  change (Z.of_nat 0) with 0 in He. rewrite He. unfold_st.
  rewrite (proj2 (Z.leb_gt _ _)) by lia. rewrite Hb. unfold_st. do 4 f_equal.
  rewrite <- Hg, drop_app_length. replace (Z.to_nat _) with (length (code ++ [0])) by (rewrite length_app; cbn; lia).
  rewrite <- (take_app_length (code ++ [0]) pad) at 2. by rewrite <- app_assoc.
Qed.

Lemma config_first general code pad : config_ok general code pad ->
  idx (config_with general code pad) AuthenticationCodeStr = Ret (default 0 (hd_error code)).
Proof.
  intros (Hg & Hc & Hl). apply idx_Ret. split; [done|]. unfold config_with.
  destruct code as [|c code]; apply list_lookup_middle; done.
Qed.
End Register.

(** ** Lemmas on the splitter *)

(** The messages the splitter knows. *)
Definition known : list Z :=
  [eServerCommonACK; eTerminalRegisterACK; eSetTerminalParameters; eGetTerminalParameters; eTerminalControl;
   eGetLocationInformation; eTemporaryPositionTrackingControl; eTextMessage; eQuestionDownlink; eSetInformationMenu;
   eInformationServices; eCallBack; eUploadMultimediaDataACK; eStorageUploadMultimediaDataCMD; eSendVoiceData].

(** The messages that are passed on, and to what. *)
Definition handlers : list (Z * (head -> list Z -> call)) :=
  [(0x8103, Get_SetParam); (0x8104, fun h _ => Get_QueryParam (MessageSerialNumber h)); (0x8105, Get_Control);
   (0x8201, fun _ _ => Get_QueryLocateInfo); (0x8202, Get_TempLocateTrack); (0x8300, Get_TextInfo);
   (0x8302, Get_Question); (0x8303, Get_SetMenu); (0x8304, Get_InfoService); (0x8400, Get_PhoneCallBack);
   (0x8800, GetAck_MultimediaUpload)].

Lemma be16_run body i a b : body !! Z.to_nat i = Some a -> body !! Z.to_nat (i + 1) = Some b -> 0 <= i ->
  byte a -> byte b -> be16 body i = Ret (256 * a + b).
Proof.
  intros Ha Hb Hi Hba Hbb. unfold be16. rewrite (proj2 (idx_Ret body i a)) by done.
  rewrite (proj2 (idx_Ret body (i + 1) b)) by (split; [lia|done]). unfold_st. f_equal. unfold byte in *.
  rewrite Z.shiftl_mul_pow2 by lia. assert (E := Z.add_lor_land (a * 2 ^ 8) b).
  cut (Z.land (a * 2 ^ 8) b = 0); [intros H0; rewrite H0 in E; lia|]. apply Z.bits_inj'. intros n Hn.
  rewrite Z.land_spec, Z.bits_0. destruct (Z.ltb_spec n 8).
  - rewrite Z.mul_pow2_bits_low by lia. done.
  - rewrite (Z.bits_above_log2 b n), andb_false_r; [done|lia|].
    destruct (decide (b = 0)) as [->|]; [cbn; lia|]. apply (Z.log2_lt_pow2 b n); [lia|].
    apply (Z.lt_le_trans _ (2 ^ 8)); [cbn; lia|]. by apply Z.pow_le_mono_r.
Qed.

Lemma ack_fields body : length body = GNSS_FrameBytes_MAX -> Forall byte body ->
  exists b0 b1 b2 b3 b4, take 5 body = [b0; b1; b2; b3; b4] /\
    be16 body 0 = Ret (256 * b0 + b1) /\ be16 body 2 = Ret (256 * b2 + b3) /\ idx body 4 = Ret b4.
Proof.
  intros Hl Hb. destruct body as [|b0 [|b1 [|b2 [|b3 [|b4 r]]]]]; try done.
  repeat (apply Forall_cons in Hb as [? Hb]). exists b0, b1, b2, b3, b4. split_and!; [by cbn; rewrite take_0| | |done].
  - by apply be16_run.
  - by apply be16_run.
Qed.

(** ** Properties *)

(** C22: a message of the platform asking for a picture makes the splitter
    start a thread that uploads the whole picture: when the terminal is
    authenticated, its packets are numbered from 1 to the total that each of
    them announces and carry the file's bytes in order; all memory is released
    and one descriptor is used up. *)
Theorem picture_uploaded {D} mem files reg_ack upload_cmd junk1 junk2 fuel h body s id f :
  MessageID h = eStorageUploadMultimediaDataCMD ->
  length junk1 = GNSS_FrameBytes_MAX -> length body = GNSS_FrameBytes_MAX -> length junk2 = 512%nat ->
  upload_cmd h (take (Z.to_nat (MessageLen h)) body ++ drop (Z.to_nat (MessageLen h)) junk1) = (dSuccess, id) ->
  files (picture_path id) = Some f -> picture fuel f ->
  ready s -> threads s = [] -> (blocks s + 3 <= mem)%nat -> (fds s < DFS_FD_MAX)%nat ->
  exists s1 s2 ps, GNSS_Splitter (D := D) mem reg_ack true junk1 0 h body s = Ret (tt, s1) /\
    run_next mem files upload_cmd junk2 fuel s1 = Ret (Finished, s2) /\
    calls s2 = calls s ++ (Ask_MultimediaUpload <$> ps) /\
    concat (payload_of <$> ps) = bytes f /\
    PacketID <$> ps = seqZ 1 (packets_of (Z.of_nat (length (bytes f)))) /\
    Forall (fun p => MultimediaID p = id /\ TotalPackets p = packets_of (Z.of_nat (length (bytes f)))) ps /\
    blocks s2 = blocks s /\ fds s2 = S (fds s).
Proof.
  intros Hid Hj1 Hb Hj2 Hcmd Hfile Hp Hr Ht Hm Hfd.
  assert (Hlen : 0 <= MessageLen h < 1024).
  { unfold MessageLen. change 1023 with (Z.ones 10). rewrite Z.land_ones by lia. apply Z.mod_pos_bound. lia. }
  unfold GNSS_FrameBytes_MAX in *. set (d := take _ body ++ drop _ junk1) in *.
  assert (Hsp : GNSS_Splitter mem reg_ack true junk1 0 h body s =
    Ret (tt, with_threads (with_blocks s (S (blocks s))) [mkMsg h d])).
  { transitivity (start_upload mem true junk1 h body s); [unfold GNSS_Splitter; by rewrite Hid|].
    unfold start_upload. rewrite (st_bind_run _ _ _ _ _ (alloc_ok mem s ltac:(lia))). cbn [negb].
    destruct (Nat.ltb_spec (length body) (Z.to_nat (MessageLen h))) as [Hlt|_]; [lia|].
    rewrite upd_range_0 by (rewrite length_take; lia). unfold_st. cbn [threads with_blocks]. rewrite Ht.
    rewrite length_take, Nat.min_l by lia. done. }
  destruct (upload_run mem files upload_cmd junk2 fuel (mkMsg h d) id f
    (with_threads (with_threads (with_blocks s (S (blocks s))) [mkMsg h d]) []))
    as (ps & Hrun & H1 & H2 & H3); [done..|cbn; lia|cbn; lia|done|].
  eexists _, _, ps. split; [exact Hsp|]. split; [exact Hrun|]. done.
Qed.

(** the upload thread never closes its file: once as many pictures have
    been uploaded as there are free descriptors, every further command for a
    picture sends nothing, while the memory is still released. *)
Theorem upload_leaks_descriptors {D} mem files upload_cmd junk fuel ms1 ms2 (s : gnss (D := D)) :
  room mem s -> ready s -> length junk = 512%nat ->
  Forall (good_command files upload_cmd fuel) ms1 -> (fds s + length ms1 = DFS_FD_MAX)%nat ->
  exists s1, serve mem files upload_cmd junk fuel ms1 s = Ret (tt, s1) /\
    serve mem files upload_cmd junk fuel (ms1 ++ ms2) s = Ret (tt, s1) /\
    fds s1 = DFS_FD_MAX /\ blocks s1 = blocks s.
Proof.
  intros Hm Hr Hj Hg Hfd. destruct (serve_good mem files upload_cmd junk fuel ms1 s Hm Hr Hj Hg) as (ps & Hrun); [lia|].
  eexists. split; [exact Hrun|]. rewrite (serve_app _ _ _ _ _ _ _ _ _ Hrun). rewrite serve_blocked; [done|done|cbn; lia].
Qed.

(** A picture that cannot be read is uploaded for ever: the result -1 of
    [read] is taken for a length, and however long the thread runs it sends
    one packet after the other that claims 2^32 - 1 bytes. *)
Lemma upload_read_error {D} mem files upload_cmd junk fuel msg id data (s : gnss (D := D)) :
  MessageID (MessageHead msg) = eStorageUploadMultimediaDataCMD ->
  upload_cmd (MessageHead msg) (Data msg) = (dSuccess, id) ->
  files (picture_path id) = Some (mkFile data (Some 0%nat)) ->
  ready s -> (blocks s + 2 <= mem)%nat -> (fds s < DFS_FD_MAX)%nat ->
  exists s' ps, MultimediaUpload_thread_entry mem files upload_cmd junk fuel msg s = Ret (Running, s') /\
    calls s' = calls s ++ (Ask_MultimediaUpload <$> ps) /\ length ps = fuel /\
    Forall (fun p => len p = 2 ^ 32 - 1 /\ pData p = junk) ps.
Proof.
  intros Hid Hcmd Hfile Hr Hm Hfd. unfold MultimediaUpload_thread_entry.
  rewrite (st_bind_run _ _ _ _ _ (alloc_ok mem s ltac:(lia))).
  rewrite Hid, Hcmd. cbn [Z.eqb eStorageUploadMultimediaDataCMD Pos.eqb dSuccess].
  set (s1 := with_blocks s (S (blocks s))).
  assert (Ha := alloc_ok mem s1 ltac:(cbn; lia)). set (s2 := with_blocks s1 (S (blocks s1))) in *.
  assert (Hop : fopen files (picture_path id) s2 = Ret (Some (mkFile data (Some 0%nat)), with_fds s2 (S (fds s)))).
  { unfold fopen. unfold_st. rewrite (proj2 (Nat.leb_gt _ _)) by (cbn; lia). by rewrite Hfile. }
  set (s3 := with_fds s2 (S (fds s))) in *.
  destruct (upload_loop_bad (mkFile data (Some 0%nat)) fuel 0
    (mkMM id (packets_of (Z.of_nat (length data))) 0 0 junk) s3) as (ps & Hrun & Hl & Hall); [by exists 0%nat|done|].
  eexists _, ps. split; [|split; [|done]].
  - match goal with |- (?p ≫= ?k) _ = _ => assert (Hp : p s1 = Ret (Running, with_calls s3 (calls s3 ++ (Ask_MultimediaUpload <$> ps)))) end.
    { rewrite (st_bind_run _ _ _ _ _ Ha). cbn [negb]. rewrite (st_bind_run _ _ _ _ _ Hop). cbn [bytes].
      by rewrite (st_bind_run _ _ _ _ _ Hrun). }
    by rewrite (st_bind_run _ _ _ _ _ Hp).
  - done.
Qed.

(** the registration thread asks the platform for nothing: as soon as the
    network is up it publishes the event of a successful authentication, for
    every command, and keeps its block. *)
Theorem register_bypass {D} mem param (s : gnss (D := D)) :
  (blocks s < mem)%nat -> Z.land (GlobalEvent s) NET_CONNET_EVENT <> 0 ->
  exists s', Register_thread_entry mem param s = Ret (Finished, s') /\
    ready s' /\ calls s' = calls s /\ blocks s' = S (blocks s).
Proof.
  intros Hm Hn. unfold Register_thread_entry. rewrite (st_bind_run _ _ _ _ _ (alloc_ok mem s Hm)). cbn [negb].
  unfold_st. cbn [GlobalEvent with_blocks]. rewrite (proj2 (Z.eqb_neq _ _) Hn).
  eexists. split; [done|]. split_and!; [|done|done].
  unfold ready. cbn. unfold AUTHENTCATED_EVENT. intros H0. apply (f_equal (fun z => Z.testbit z 1)) in H0.
  rewrite Z.land_spec, Z.lor_spec, Z.bits_0 in H0. by rewrite orb_true_r in H0.
Qed.

(** the dialogue that the thread would have: a configuration with a code
    of at most nine characters is authenticated with exactly this code, one
    without a code is registered first and authenticated with the code the
    platform has given; the terminal counts as authenticated if and only if the
    platform answers 0. *)
Theorem register_dialogue_spec junk general code pad general2 code2 pad2 g :
  length junk = Register.STRUCT_SIZE -> 0 <= g <= 3 ->
  Register.config_ok general code pad -> Register.config_ok general2 code2 pad2 -> code2 <> [] ->
  Register.register_dialogue 1 junk (Some (Register.config_with general code pad))
      (Some (Register.config_with general2 code2 pad2)) g =
    Ret (match code with
         | [] => [Register.AskRegister (Register.config_with general code pad);
                  Register.AskAuthenticate (code2 ++ [0]) (Z.of_nat (length code2) + 1)]
         | _ => [Register.AskAuthenticate (code ++ [0]) (Z.of_nat (length code) + 1)]
         end, g =? 0).
Proof.
  intros Hj Hg Hc1 Hc2 Hne.
  assert (Hlen : forall a b c, Register.config_ok a b c -> length (Register.config_with a b c) = Register.STRUCT_SIZE).
  { intros a b c (Ha & _ & Hl). unfold Register.config_with, Register.STRUCT_SIZE.
    rewrite !length_app. cbn [length]. lia. }
  assert (Hres : Register.result_switch g = Ret (g =? 0)).
  { assert (g = 0 \/ g = 1 \/ g = 2 \/ g = 3) as [-> | [-> | [-> | ->]]] by lia; done. }
  unfold Register.register_dialogue. cbn [Z.eqb Pos.eqb]. rewrite Register.read_config_ok by auto. unfold_st.
  rewrite (Register.config_first _ _ _ Hc1). destruct code as [|c code]; cbn [default hd_error].
  - cbn [Z.eqb]. rewrite Register.read_config_ok by auto. rewrite (Register.config_first _ _ _ Hc2).
    destruct code2 as [|c code2]; [done|]. cbn [default hd_error].
    assert (Hc : c <> 0) by (destruct Hc2 as (_ & H & _); by apply Forall_cons in H as [? _]).
    unfold_st. cbn [from_option id hd_error].
    rewrite (proj2 (Z.eqb_neq _ _) Hc), (Register.authenticate_run _ _ _ _ _ Hc2 Hres). done.
  - assert (Hc : c <> 0) by (destruct Hc1 as (_ & H & _); by apply Forall_cons in H as [? _]).
    unfold_st. cbn [from_option id hd_error].
    rewrite (proj2 (Z.eqb_neq _ _) Hc). apply (Register.authenticate_run _ _ _ _ _ Hc1 Hres).
Qed.

(** the splitter gives every message to its handler: a message whose number has
    one in the table of the protocol leads to exactly that call, whatever its body;
    an acknowledgement of the platform is matched by its serial number, message
    number and result, both numbers in network byte order; and a message with a
    number the splitter does not know changes nothing. *)
Theorem gnss_dispatch {D} mem reg_ack ok junk h body (s : gnss (D := D)) :
  length body = GNSS_FrameBytes_MAX -> Forall byte body ->
  (forall f, (MessageID h, f) ∈ handlers ->
     GNSS_Splitter mem reg_ack ok junk 0 h body s = Ret (tt, with_calls s (calls s ++ [f h body]))) /\
  (MessageID h = eServerCommonACK -> exists b0 b1 b2 b3 b4, take 5 body = [b0; b1; b2; b3; b4] /\
     GNSS_Splitter mem reg_ack ok junk 0 h body s =
       Ret (tt, with_calls s (calls s ++ [SearchAndExecute (256 * b0 + b1) (256 * b2 + b3) b4]))) /\
  (MessageID h ∉ known -> GNSS_Splitter mem reg_ack ok junk 0 h body s = Ret (tt, s)).
Proof.
  intros Hb Hbytes. split_and!.
  - unfold handlers. intros f Hf. rewrite !elem_of_cons, elem_of_nil in Hf. unfold GNSS_Splitter.
    repeat destruct Hf as [[= -> ->]|Hf]; done.
  - intros Hid. destruct (ack_fields body) as (b0 & b1 & b2 & b3 & b4 & H5 & H01 & H23 & H4); [done|done|].
    exists b0, b1, b2, b3, b4. split; [done|]. unfold GNSS_Splitter. rewrite Hid, H01, H23, H4. done.
  - unfold known. rewrite !not_elem_of_cons. intros Hid. unfold GNSS_Splitter. cbn [negb Z.eqb].
    by rewrite !(proj2 (Z.eqb_neq (MessageID h) _)) by apply Hid.
Qed.

(** ** Witnesses *)

Definition play1 : @Player.play unit :=
  Player.mkPlay {[ 16 := mkSlot (replicate 20 0) 0 16 ]} 16 16 0%nat tt [] 0%nat.
Definition gnss0 : gnss (D := unit) := mkGnss play1 0 2 [] 1%nat 3%nat [].

(** The picture 0x2A has 600 bytes. *)
Definition files0 (path : list Z) : option file :=
  if decide (path = str "/Picture/0000002A.jpg") then Some (mkFile (replicate 600 7) None)
  else if decide (path = str "/Picture/0000002B.jpg") then Some (mkFile (replicate 600 7) (Some 0%nat))
  else None.

Definition cmd0 (h : head) (body : list Z) : Z * Z := (0, default 0 (hd_error body)).
Definition head0 (id n : Z) : head := mkHead id n (replicate 6 0) 1 0 0.

Lemma picture0 : picture 3 (mkFile (replicate 600 7) None).
Proof. split_and!; [done|apply Nat.leb_le; reflexivity|lia|reflexivity]. Qed.

Lemma picture_uploaded_witness : exists s1 s2 ps,
  GNSS_Splitter (D := unit) 9 (fun _ => 0) true (replicate 1024 9) 0 (head0 0x8803 1) (42 :: replicate 1023 0) gnss0
    = Ret (tt, s1) /\
  run_next 9 files0 cmd0 (replicate 512 0) 3 s1 = Ret (Finished, s2) /\
  calls s2 = [] ++ (Ask_MultimediaUpload <$> ps) /\ concat (payload_of <$> ps) = replicate 600 7 /\
  PacketID <$> ps = seqZ 1 (packets_of 600) /\
  Forall (fun p => MultimediaID p = 42 /\ TotalPackets p = packets_of 600) ps /\
  blocks s2 = 1%nat /\ fds s2 = 4%nat.
Proof.
  apply (picture_uploaded 9 files0 (fun _ => 0) cmd0 (replicate 1024 9) (replicate 512 0) 3 (head0 0x8803 1)
    (42 :: replicate 1023 0) gnss0 42 (mkFile (replicate 600 7) None));
    [reflexivity|reflexivity|reflexivity|reflexivity|vm_compute; reflexivity|vm_compute; reflexivity
    |exact picture0|discriminate|reflexivity|cbn; lia|vm_compute; lia].
Defined.

Lemma upload_leaks_witness : exists s1,
  serve 9 files0 cmd0 (replicate 512 0) 3 [mkMsg (head0 0x8803 1) [42]] gnss0 = Ret (tt, s1) /\
  serve 9 files0 cmd0 (replicate 512 0) 3 ([mkMsg (head0 0x8803 1) [42]] ++ [mkMsg (head0 0x8803 1) [42]]) gnss0
    = Ret (tt, s1) /\
  fds s1 = DFS_FD_MAX /\ blocks s1 = 1%nat.
Proof.
  apply (upload_leaks_descriptors 9 files0 cmd0 (replicate 512 0) 3 [mkMsg (head0 0x8803 1) [42]]
    [mkMsg (head0 0x8803 1) [42]] gnss0); [unfold room; cbn; lia|discriminate|reflexivity| |reflexivity].
  apply Forall_cons_2; [|apply Forall_nil_2]. split; [reflexivity|].
  exists 42, (mkFile (replicate 600 7) None). split_and!; [reflexivity|vm_compute; reflexivity|exact picture0].
Defined.

Lemma upload_read_error_witness : exists s' ps,
  MultimediaUpload_thread_entry 9 files0 cmd0 (replicate 512 0) 5 (mkMsg (head0 0x8803 1) [43]) gnss0
    = Ret (Running, s') /\
  calls s' = [] ++ (Ask_MultimediaUpload <$> ps) /\ length ps = 5%nat /\
  Forall (fun p => len p = 2 ^ 32 - 1 /\ pData p = replicate 512 0) ps.
Proof.
  apply (upload_read_error 9 files0 cmd0 (replicate 512 0) 5 (mkMsg (head0 0x8803 1) [43]) 43 (replicate 600 7) gnss0);
    [reflexivity|reflexivity|vm_compute; reflexivity|discriminate|cbn; lia|vm_compute; lia].
Defined.

Lemma register_bypass_witness : exists s',
  Register_thread_entry 9 1 (with_global gnss0 1) = Ret (Finished, s') /\
  ready s' /\ calls s' = [] /\ blocks s' = 2%nat.
Proof. apply (register_bypass 9 1 (with_global gnss0 1)); [cbn; lia|discriminate]. Defined.

(** The configuration that [test_register] writes has no code yet. *)
Lemma register_dialogue_witness :
  Register.register_dialogue 1 (replicate 44 1) (Some Register.test_register)
      (Some (Register.config_with (take 34 Register.test_register) (str "AB12") (replicate 5 0))) 0 =
    Ret ([Register.AskRegister Register.test_register; Register.AskAuthenticate (str "AB12" ++ [0]) 5], true).
Proof.
  apply (register_dialogue_spec (replicate 44 1) (take 34 Register.test_register) [] (replicate 9 0)
    (take 34 Register.test_register) (str "AB12") (replicate 5 0) 0);
    [reflexivity|lia| | |discriminate]; (split_and!; [reflexivity| |reflexivity]).
  - apply Forall_nil_2.
  - repeat (apply Forall_cons_2; [discriminate|]). apply Forall_nil_2.
Defined.

Lemma gnss_dispatch_witness :
  GNSS_Splitter 9 (fun _ => 0) true (replicate 1024 0) 0 (head0 0x8300 5) (replicate 1024 65) gnss0
    = Ret (tt, with_calls gnss0 [Get_TextInfo (head0 0x8300 5) (replicate 1024 65)]).
Proof.
  apply (gnss_dispatch 9 (fun _ => 0) true (replicate 1024 0) (head0 0x8300 5) (replicate 1024 65) gnss0);
    [exact (length_replicate 1024 65)|apply Forall_replicate; unfold byte; lia|].
  unfold handlers. rewrite !elem_of_cons. cbn. tauto.
Defined.
