(* ===== verification/FinshShell.v ===== *)
(** * The command shell's line editor

    RTT/components/finsh/shell.c: the thread that reads keys, edits the line,
    keeps the history of the last five commands and hands complete lines to the
    interpreter.  The specification is an editor of plain texts; the arrays, the
    escape sequences and the positions of the code refine it as long as lines
    stay within 78 characters. *)

From S2P Require Import Prelude.

Definition FINSH_CMD_SIZE : nat := 80.
Definition FINSH_HISTORY_LINES : nat := 5.

Inductive input_stat := WAIT_NORMAL | WAIT_SPEC_KEY | WAIT_FUNC_KEY.

(** [struct finsh_shell]; [ran] collects the strings given to the
    interpreter. *)
Record shell := mkShell {
  stat : input_stat;
  use_history : Z;
  current_history : Z;
  history_count : Z;
  cmd_history : list (list Z);
  line : list Z;
  line_position : Z;
  ran : list (list Z)
}.

Definition with_stat s x :=
  mkShell x (use_history s) (current_history s) (history_count s) (cmd_history s) (line s) (line_position s) (ran s).
Definition with_use s x :=
  mkShell (stat s) x (current_history s) (history_count s) (cmd_history s) (line s) (line_position s) (ran s).
Definition with_cur s x :=
  mkShell (stat s) (use_history s) x (history_count s) (cmd_history s) (line s) (line_position s) (ran s).
Definition with_hist s c h :=
  mkShell (stat s) (use_history s) (current_history s) c h (line s) (line_position s) (ran s).
Definition with_line s l p :=
  mkShell (stat s) (use_history s) (current_history s) (history_count s) (cmd_history s) l p (ran s).
Definition with_ran s r :=
  mkShell (stat s) (use_history s) (current_history s) (history_count s) (cmd_history s) (line s) (line_position s) r.

(** [strlen(shell->line)] *)
Definition line_len (s : shell) : res Z := t ← cstr (line s); mret (Z.of_nat (length t)).

(** Copies the history command the current position names into the line. *)
Definition recall : ST shell unit :=
  s ← get;
  row ← lift (idx (cmd_history s) (current_history s));
  _ ← modify (fun s => with_line s row (line_position s));
  s ← get;
  n ← lift (line_len s);
  modify (fun s => with_use (with_line s (line s) (u8 n)) 1).

(** What follows the two key branches: the line is shown again. *)
Definition shown : ST shell bool := s ← get; mret (negb (use_history s =? 0)).

Definition finsh_handle_history (ch : Z) : ST shell bool :=
  s ← get;
  if ch =? 0x1b then _ ← modify (fun s => with_stat s WAIT_SPEC_KEY); mret true
  else
    match stat s with
    | WAIT_SPEC_KEY =>
        if ch =? 0x5b then _ ← modify (fun s => with_stat s WAIT_FUNC_KEY); mret true
        else _ ← modify (fun s => with_stat s WAIT_NORMAL); mret false
    | WAIT_FUNC_KEY =>
        _ ← modify (fun s => with_stat s WAIT_NORMAL);
        if ch =? 0x41 then
          if 0 <? current_history s then
            _ ← modify (fun s => with_cur s (current_history s - 1));
            _ ← recall;
            shown
          else _ ← modify (fun s => with_cur s 0); mret true
        else if ch =? 0x42 then
          if current_history s <? history_count s - 1 then
            _ ← modify (fun s => with_cur s (u8 (current_history s + 1)));
            _ ← recall;
            shown
          else if negb (history_count s =? 0) then
            _ ← modify (fun s => with_cur s (u8 (history_count s - 1)));
            _ ← recall;
            shown
          else mret true
        else shown
    | WAIT_NORMAL => mret false
    end.

(** [memset(row, 0, FINSH_CMD_SIZE); memcpy(row, line, line_position)] *)
Definition new_row (s : shell) : res (list Z) :=
  if (FINSH_CMD_SIZE <? Z.to_nat (line_position s))%nat then Err OutOfBounds
  else mret (take (Z.to_nat (line_position s)) (line s)
             ++ replicate (FINSH_CMD_SIZE - Z.to_nat (line_position s)) 0).

(** [for (index = 0; index < FINSH_HISTORY_LINES - 1; index++)]: [n] rows are
    left to move. *)
Fixpoint move_rows (n : nat) (index : Z) (h : list (list Z)) : res (list (list Z)) :=
  match n with
  | O => mret h
  | S n => row ← idx h (index + 1); h ← upd h index row; move_rows n (index + 1) h
  end.

Definition finsh_push_history : ST shell unit :=
  s ← get;
  _ ← (if (use_history s =? 0) && negb (line_position s =? 0) then
         if Z.of_nat FINSH_HISTORY_LINES <=? history_count s then
           h ← lift (move_rows (FINSH_HISTORY_LINES - 1) 0 (cmd_history s));
           row ← lift (new_row s);
           h ← lift (upd h (Z.of_nat (FINSH_HISTORY_LINES - 1)) row);
           modify (fun s => with_hist s (Z.of_nat FINSH_HISTORY_LINES) h)
         else
           row ← lift (new_row s);
           h ← lift (upd (cmd_history s) (history_count s) row);
           modify (fun s => with_hist s (u16 (history_count s + 1)) h)
       else mret tt);
  modify (fun s => with_cur s (u8 (history_count s))).

(** The interpreter reads the line as a C string. *)
Definition finsh_run_line : ST shell unit :=
  s ← get;
  text ← lift (cstr (line s));
  modify (fun s => with_ran s (ran s ++ [text])).

Definition end_of_line : ST shell unit :=
  s ← get;
  l ← lift (upd (line s) (line_position s) 59);
  _ ← modify (fun s => with_line s l (line_position s));
  _ ← finsh_push_history;
  s ← get;
  _ ← (if negb (line_position s =? 0) then finsh_run_line else mret tt);
  modify (fun s => with_line s (replicate FINSH_CMD_SIZE 0) 0).

Definition backspace : ST shell unit :=
  s ← get;
  let pos := if line_position s <=? 0 then 0 else line_position s - 1 in
  l ← lift (upd (line s) pos 0);
  modify (fun s => with_line s l pos).

(** *** Completion, cmd.c

    [functions] and [variables] are the names that [list_prefix] goes through: the
    linker's table and then the list of those added at run time, of each kind. *)

Section names.
Variables (functions variables : list (list Z)).

Fixpoint str_is_prefix (prefix name : list Z) : res Z :=
  match prefix, name with
  | c :: prefix, d :: name =>
      if negb (c =? 0) && (c =? d) then str_is_prefix prefix name else mret (if c =? 0 then 0 else -1)
  | c :: _, [] => if c =? 0 then mret 0 else Err OutOfBounds
  | [], _ => Err OutOfBounds
  end.

(** The loops over one kind of names: the 16-bit counter and [name_ptr]. *)
Fixpoint matches (prefix : list Z) (names : list (list Z)) (cnt : Z) (name_ptr : option (list Z)) :
    res (Z * option (list Z)) :=
  match names with
  | [] => mret (cnt, name_ptr)
  | name :: names =>
      r ← str_is_prefix prefix (name ++ [0]);
      if r =? 0 then matches prefix names (u16 (cnt + 1)) (Some name) else matches prefix names cnt name_ptr
  end.

(** A single match is copied over the line, without its terminator:
    [rt_strncpy(prefix, name_ptr, strlen(name_ptr))]. *)
Definition list_prefix (prefix : list Z) : res (list Z) :=
  '(func_cnt, name_ptr) ← matches prefix functions 0 None;
  '(var_cnt, name_ptr) ← matches prefix variables 0 name_ptr;
  if func_cnt + var_cnt =? 1 then
    match name_ptr with Some name => upd_range prefix 0 name | None => Err NullDeref end
  else mret prefix.

(** [finsh_auto_complete(&shell->line[0]); shell->line_position = strlen(shell->line);] *)
Definition complete : ST shell unit :=
  s ← get;
  l ← lift (list_prefix (line s));
  _ ← modify (fun s => with_line s l (line_position s));
  s ← get; n ← lift (line_len s); modify (fun s => with_line s (line s) (u8 n)).

Definition insert_char (ch : Z) : ST shell unit :=
  s ← get;
  let pos := if Z.of_nat FINSH_CMD_SIZE <=? line_position s then 0 else line_position s in
  l ← lift (upd (line s) pos ch);
  modify (fun s => with_use (with_line s l (u8 (pos + 1))) 0).

(** A character past the history keys and the carriage return. *)
Definition plain_key (ch : Z) : ST shell unit :=
  if (ch =? 13) || (ch =? 10) then end_of_line else insert_char ch.

(** The characters that are at hand: after a carriage return the next one, if
    there is one, takes its place. *)
Fixpoint chars (cs : list Z) : ST shell unit :=
  match cs with
  | [] => mret tt
  | ch :: rest =>
      handled ← finsh_handle_history ch;
      if handled : bool then chars rest
      else if ch =? 13 then
        match rest with
        | [] => plain_key 13
        | next :: rest => _ ← plain_key next; chars rest
        end
      else if ch =? 9 then _ ← complete; chars rest
      else if (ch =? 0x7f) || (ch =? 0x08) then _ ← backspace; chars rest
      else _ ← plain_key ch; chars rest
  end.
End names.

(** [finsh_system_init]: the structure is cleared. *)
Definition shell0 : shell :=
  mkShell WAIT_NORMAL 0 0 0 (replicate FINSH_HISTORY_LINES (replicate FINSH_CMD_SIZE 0))
          (replicate FINSH_CMD_SIZE 0) 0 [].

(** ** Specification: an editor of texts *)

Module Editor.

Record editor := mkEd {
  text : list Z;
  past : list (list Z);      (**r the last five commands, oldest first *)
  cursor : nat;              (**r the entry of [past] the arrows have reached *)
  recalled : bool;           (**r the text has come from [past] *)
  runs : list (list Z)       (**r the commands executed *)
}.

Inductive key := Char (c : Z) | Back (del : bool) | Tab | Up | Down | Enter (crlf : bool).

(** The characters a terminal sends. *)
Definition encode (k : key) : list Z :=
  match k with
  | Char c => [c]
  | Back del => [if del then 0x7f else 0x08]
  | Tab => [9]
  | Up => [0x1b; 0x5b; 0x41]
  | Down => [0x1b; 0x5b; 0x42]
  | Enter crlf => if crlf then [13; 10] else [10]
  end.

Definition remember (past : list (list Z)) (t : list Z) : list (list Z) :=
  if (length past <? FINSH_HISTORY_LINES)%nat then past ++ [t] else tail past ++ [t].

(** The entry [n] becomes the text. *)
Definition recall_at (n : nat) (e : editor) : editor :=
  mkEd (default [] (past e !! n)) (past e) n true (runs e).

Definition with_text (e : editor) (t : list Z) : editor := mkEd t (past e) (cursor e) (recalled e) (runs e).

Section names.
Variable names : list (list Z).

(** A text that begins one of the names, and only one, becomes that name. *)
Definition completed (t : list Z) : list Z :=
  match filter (fun n => t `prefix_of` n) names with [n] => n | _ => t end.

Definition press (k : key) (e : editor) : editor :=
  match k with
  | Char c => mkEd (text e ++ [c]) (past e) (cursor e) false (runs e)
  | Back _ => mkEd (removelast (text e)) (past e) (cursor e) (recalled e) (runs e)
  | Tab => with_text e (completed (text e))
  | Up => match cursor e with O => e | S n => recall_at n e end
  | Down =>
      if (S (cursor e) <? length (past e))%nat then recall_at (S (cursor e)) e
      else match past e with [] => e | _ => recall_at (pred (length (past e))) e end
  | Enter _ =>
      match text e with
      | [] => mkEd [] (past e) (length (past e)) (recalled e) (runs e)
      | t => let p := if recalled e then past e else remember (past e) t in
             mkEd [] p (length p) (recalled e) (runs e ++ [t ++ [59]])
      end
  end.

Fixpoint presses (ks : list key) (e : editor) : editor :=
  match ks with [] => e | k :: ks => presses ks (press k e) end.

(** No line grows beyond [n] characters on the way. *)
Fixpoint within (n : nat) (ks : list key) (e : editor) : Prop :=
  match ks with
  | [] => True
  | k :: ks => (length (text (press k e)) <= n)%nat /\ within n ks (press k e)
  end.
End names.

(** A printable character. *)
Definition char_ok (c : Z) : Prop := 32 <= c < 127.

Definition key_ok (k : key) : Prop := match k with Char c => char_ok c | _ => True end.

Definition editor0 : editor := mkEd [] [] 0 false [].
End Editor.

(** ** Refinement *)

Definition text_ok (t : list Z) : Prop := Forall Editor.char_ok t /\ (length t <= 78)%nat.

(** A text at the start of an array of zeros. *)
Definition padded (t : list Z) : list Z := t ++ replicate (FINSH_CMD_SIZE - length t) 0.

Record refines (s : shell) (e : Editor.editor) : Prop := {
  rf_stat : stat s = WAIT_NORMAL;
  rf_text : text_ok (Editor.text e);
  rf_line : line s = padded (Editor.text e);
  rf_pos : line_position s = Z.of_nat (length (Editor.text e));
  rf_past : Forall text_ok (Editor.past e);
  rf_count : history_count s = Z.of_nat (length (Editor.past e));
  rf_max : (length (Editor.past e) <= FINSH_HISTORY_LINES)%nat;
  rf_rows : length (cmd_history s) = FINSH_HISTORY_LINES;
  rf_row : forall i t, Editor.past e !! i = Some t -> cmd_history s !! i = Some (padded t);
  rf_cur : current_history s = Z.of_nat (Editor.cursor e);
  rf_cursor : (Editor.cursor e <= length (Editor.past e))%nat;
  rf_use : use_history s = Z.b2z (Editor.recalled e);
  rf_ran : ran s = Editor.runs e
}.

Lemma padded_length t : (length t <= 80)%nat -> length (padded t) = 80%nat.
Proof. intros Ht. unfold padded, FINSH_CMD_SIZE. rewrite length_app, length_replicate. lia. Qed.

Lemma padded_cstr t : Forall (fun c => c <> 0) t -> (length t < 80)%nat -> cstr (padded t) = Ret t.
Proof.
  intros Hc Ht. unfold padded, FINSH_CMD_SIZE. destruct (80 - length t)%nat as [|n] eqn:Hn; [lia|].
  by apply cstr_app.
Qed.

Lemma padded_put t c : (length t < 80)%nat -> upd (padded t) (Z.of_nat (length t)) c = Ret (padded (t ++ [c])).
Proof.
  intros Ht. rewrite upd_ok by (rewrite padded_length by lia; lia). f_equal. unfold padded, FINSH_CMD_SIZE.
  rewrite Nat2Z.id, length_app. cbn [length].
  replace (80 - length t)%nat with (S (80 - (length t + 1))) by lia. cbn [replicate].
  rewrite insert_app_r_alt, Nat.sub_diag by lia. cbn. by rewrite <- app_assoc.
Qed.

Lemma padded_drop t c : (length t < 80)%nat -> upd (padded (t ++ [c])) (Z.of_nat (length t)) 0 = Ret (padded t).
Proof.
  intros Ht. rewrite upd_ok by (rewrite padded_length by (rewrite length_app; cbn; lia); lia). f_equal.
  unfold padded, FINSH_CMD_SIZE. rewrite Nat2Z.id, length_app. cbn [length].
  replace (80 - length t)%nat with (S (80 - (length t + 1))) by lia. cbn [replicate].
  rewrite <- app_assoc. cbn [app]. by rewrite insert_app_r_alt, Nat.sub_diag by lia.
Qed.

Lemma text_ok_nonzero t : text_ok t -> Forall (fun c => c <> 0) t.
Proof. intros [Ht _]. eapply Forall_impl; [exact Ht|]. unfold Editor.char_ok. intros. lia. Qed.

Lemma text_ok_cstr t : text_ok t -> cstr (padded t) = Ret t.
Proof. intros Ht. apply padded_cstr; [by apply text_ok_nonzero|]. destruct Ht. lia. Qed.

Lemma recall_run s e n t :
  refines s e -> Editor.past e !! n = Some t ->
  exists s', recall (with_cur s (Z.of_nat n)) = Ret (tt, s') /\ refines s' (Editor.recall_at n e) /\
    use_history s' = 1.
Proof.
  intros [Hst Htx Hl Hp Hpa Hc Hm Hr Hrow Hcu Hcr Hu Hra] Hn.
  assert (Ht : text_ok t) by (rewrite Forall_lookup in Hpa; by eapply Hpa).
  assert (Hlt := lookup_lt_Some _ _ _ Hn). apply Hrow in Hn as Hn'.
  unfold recall, line_len. unfold_st. cbn [current_history with_cur cmd_history].
  rewrite (proj2 (idx_Ret _ _ (padded t))) by (split; [lia|by rewrite Nat2Z.id]).
  unfold_st. cbn [line with_line]. rewrite (text_ok_cstr _ Ht). unfold_st. eexists. split; [done|]. split; [|done].
  destruct Ht as [Hch Hlen]. rewrite wrap_id by (cbn; lia).
  unfold Editor.recall_at. rewrite Hn. by split; cbn; try (done || lia).
Qed.

Section keys.
Variables (functions variables : list (list Z)).
Abbreviation chars := (chars functions variables).
Abbreviation names := (functions ++ variables).
Abbreviation press := (Editor.press names).
Abbreviation presses := (Editor.presses names).
Abbreviation within := (Editor.within names).

(** The names are printable texts, and there are not too many to count. *)
Record names_ok : Prop := {
  nm_text : Forall (Forall Editor.char_ok) names;
  nm_funcs : Z.of_nat (length functions) < 2 ^ 16;
  nm_vars : Z.of_nat (length variables) < 2 ^ 16
}.
Hypothesis (Hnames : names_ok).

Lemma up_run s e rest : refines s e -> exists s',
  chars (Editor.encode Editor.Up ++ rest) s = chars rest s' /\ refines s' (press Editor.Up e).
Proof.
  intros Hs. pose proof Hs as [Hst _ _ _ _ _ _ _ _ Hcu Hcr _ _]. cbn [Editor.encode app chars].
  unfold finsh_handle_history at 1. unfold_st. cbn [Z.eqb Pos.eqb].
  unfold finsh_handle_history at 1. unfold_st. cbn [Z.eqb Pos.eqb stat with_stat].
  unfold finsh_handle_history at 1. unfold_st. cbn [Z.eqb Pos.eqb stat with_stat current_history].
  rewrite Hcu. cbn [Editor.press]. destruct (Editor.cursor e) as [|n] eqn:Hn.
  - eexists. split; [reflexivity|]. by destruct s, Hs; cbn in *; subst; split.
  - rewrite (proj2 (Z.ltb_lt 0 _)) by lia. cbn beta.
    destruct (lookup_lt_is_Some_2 (Editor.past e) n) as [t Ht]; [lia|].
    destruct (recall_run s e n t Hs Ht) as (s' & Hr & Hs' & Hu).
    match goal with |- context [recall ?x] => replace x with (with_cur s (Z.of_nat n)) end.
    2: { destruct s. cbn in *. subst. f_equal. lia. }
    rewrite Hr. unfold shown. unfold_st. rewrite Hu. by exists s'.
Qed.

Lemma down_run s e rest : refines s e -> exists s',
  chars (Editor.encode Editor.Down ++ rest) s = chars rest s' /\ refines s' (press Editor.Down e).
Proof.
  intros Hs. pose proof Hs as [Hst _ _ _ _ Hc Hm _ _ Hcu Hcr _ _]. cbn [Editor.encode app chars].
  unfold FINSH_HISTORY_LINES in Hm.
  unfold finsh_handle_history at 1. unfold_st. cbn [Z.eqb Pos.eqb].
  unfold finsh_handle_history at 1. unfold_st. cbn [Z.eqb Pos.eqb stat with_stat].
  unfold finsh_handle_history at 1. unfold_st. cbn [Z.eqb Pos.eqb stat with_stat current_history history_count].
  assert (Hgo : forall n, (n < length (Editor.past e))%nat -> exists s', recall (with_cur s (Z.of_nat n)) = Ret (tt, s') /\
    refines s' (Editor.recall_at n e) /\ use_history s' = 1).
  { intros n Hn. destruct (lookup_lt_is_Some_2 (Editor.past e) n) as [t Ht]; [lia|]. by apply (recall_run s e n t). }
  assert (Hnm : forall z, with_cur (with_stat (with_stat (with_stat s WAIT_SPEC_KEY) WAIT_FUNC_KEY) WAIT_NORMAL) z
    = with_cur s z) by (intros z; by destruct s; cbn in *; subst).
  rewrite Hcu, Hc. cbn [Editor.press].
  destruct (Nat.ltb_spec (S (Editor.cursor e)) (length (Editor.past e))) as [Hlt|Hge].
  - rewrite (proj2 (Z.ltb_lt _ _)) by lia. cbn beta. cbn [current_history with_stat]. rewrite Hcu.
    rewrite wrap_id by (cbn; lia). rewrite Hnm.
    replace (Z.of_nat (Editor.cursor e) + 1) with (Z.of_nat (S (Editor.cursor e))) by lia.
    destruct (Hgo (S (Editor.cursor e)) Hlt) as (s' & Hr & Hs' & Hu).
    rewrite Hr. unfold shown. unfold_st. rewrite Hu. by exists s'.
  - rewrite (proj2 (Z.ltb_ge _ _)) by lia. destruct (Editor.past e) as [|p ps] eqn:Hp.
    + cbn [length Z.of_nat Z.eqb negb]. eexists. split; [reflexivity|]. by destruct s, Hs; cbn in *; subst; split.
    + rewrite (proj2 (Z.eqb_neq _ _)) by (cbn; lia). cbn [negb]. cbn beta. cbn [history_count with_stat]. rewrite Hc.
      cbn [length] in *. rewrite wrap_id by (cbn; lia). rewrite Hnm.
      replace (Z.of_nat (S (length ps)) - 1) with (Z.of_nat (length ps)) by lia. cbn [pred].
      destruct (Hgo (length ps)) as (s' & Hr & Hs' & Hu); [lia|].
      rewrite Hr. unfold shown. unfold_st. rewrite Hu. by exists s'.
Qed.

(** An ordinary key is not taken by the history. *)
Lemma normal_key s e ch : refines s e -> ch <> 0x1b -> finsh_handle_history ch s = Ret (false, s).
Proof.
  intros Hs Hch. unfold finsh_handle_history. unfold_st. rewrite (proj2 (Z.eqb_neq _ _) Hch).
  by rewrite (rf_stat _ _ Hs).
Qed.

Lemma char_run s e c rest : refines s e -> Editor.char_ok c -> (length (Editor.text e) < 78)%nat -> exists s',
  chars (c :: rest) s = chars rest s' /\ refines s' (press (Editor.Char c) e).
Proof.
  intros Hs Hc Hlen. unfold Editor.char_ok in Hc. cbn [chars].
  rewrite (st_bind_run _ _ _ _ _ (normal_key s e c Hs ltac:(lia))).
  assert (Hne : forall k, k = 13 \/ k = 9 \/ k = 0x7f \/ k = 0x08 \/ k = 10 -> (c =? k) = false)
    by (intros k Hk; apply Z.eqb_neq; lia).
  unfold plain_key. rewrite !Hne by tauto. cbn [orb]. destruct Hs as [Hst Htx Hl Hp Hpa Hcn Hm Hr Hrow Hcu Hcr Hu Hra].
  unfold insert_char. unfold_st. rewrite Hp, Hl. rewrite (proj2 (Z.leb_gt _ _)) by (unfold FINSH_CMD_SIZE; lia).
  rewrite padded_put by lia. unfold_st. eexists. split; [reflexivity|].
  split; cbn; try done; try lia.
  - destruct Htx as [Hx _]. split; [apply Forall_app; split; [done|by apply Forall_singleton]|]. rewrite length_app. cbn. lia.
  - rewrite wrap_id by (cbn; lia). rewrite length_app. cbn. lia.
Qed.

Lemma str_is_prefix_spec t : forall name r, Forall (fun c => c <> 0) t -> Forall (fun c => c <> 0) name ->
  str_is_prefix (t ++ 0 :: r) (name ++ [0]) = Ret (if decide (t `prefix_of` name) then 0 else -1).
Proof.
  induction t as [|c t IH]; intros name r Ht Hn.
  - rewrite decide_True by apply prefix_nil. by destruct name.
  - apply Forall_cons in Ht as [Hc Ht]. destruct name as [|d name]; cbn; rewrite (proj2 (Z.eqb_neq c 0) Hc); cbn.
    + rewrite decide_False; [done|]. apply prefix_nil_not.
    + apply Forall_cons in Hn as [Hd Hn]. destruct (Z.eqb_spec c d) as [->|E]; cbn.
      * rewrite IH by done. f_equal. apply decide_ext. split; [apply prefix_cons|apply prefix_cons_inv_2].
      * rewrite decide_False; [done|]. by intros H%prefix_cons_inv_1.
Qed.

Lemma matches_spec t r ns : forall cnt p, Forall (fun c => c <> 0) t -> Forall (Forall Editor.char_ok) ns ->
  0 <= cnt -> cnt + Z.of_nat (length ns) < 2 ^ 16 ->
  matches (t ++ 0 :: r) ns cnt p = Ret (cnt + Z.of_nat (length (filter (fun n => t `prefix_of` n) ns)),
    match last (filter (fun n => t `prefix_of` n) ns) with Some n => Some n | None => p end).
Proof.
  induction ns as [|n ns IH]; intros cnt p Ht Hns Hc Hl; cbn [matches length] in *.
  - cbn. do 2 f_equal. lia.
  - apply Forall_cons in Hns as [Hn Hns]. rewrite str_is_prefix_spec; [|done|].
    2: { eapply Forall_impl; [exact Hn|]. unfold Editor.char_ok. intros; lia. }
    unfold_st. rewrite filter_cons. destruct (decide (t `prefix_of` n)); cbn [Z.eqb].
    + rewrite wrap_id by lia. rewrite IH by (done || lia). cbn [length]. do 2 f_equal; [lia|].
      rewrite last_cons. by destruct (last _).
    + by rewrite IH by (done || lia).
Qed.

Lemma padded_grows t u : (length t + length u <= 78)%nat -> upd_range (padded t) 0 (t ++ u) = Ret (padded (t ++ u)).
Proof.
  intros Hl. unfold padded, FINSH_CMD_SIZE. unfold upd_range.
  rewrite decide_True by (rewrite !length_app, length_replicate; lia). f_equal.
  change (Z.to_nat 0) with 0%nat. rewrite take_0. cbn [app Nat.add]. f_equal. rewrite length_app.
  rewrite drop_app_ge by lia. rewrite drop_replicate. f_equal. lia.
Qed.

(** A single match replaces the line. *)
Lemma list_prefix_spec t : text_ok t -> (length (Editor.completed names t) <= 78)%nat ->
  list_prefix functions variables (padded t) = Ret (padded (Editor.completed names t)).
Proof.
  intros Ht Hlen. assert (Hnz := text_ok_nonzero t Ht). destruct Ht as [_ Htl]. destruct Hnames as [Htx Hf Hv].
  apply Forall_app in Htx as [Hfx Hvx]. unfold list_prefix.
  assert (exists r, padded t = t ++ 0 :: r) as [r Hr].
  { unfold padded, FINSH_CMD_SIZE. destruct (80 - length t)%nat eqn:E; [lia|]. by eexists. }
  assert (Hm := matches_spec t r). rewrite <- Hr in Hm. clear r Hr.
  rewrite Hm by (done || lia). cbn [mbind res_bind]. rewrite Hm by (done || lia). cbn [mbind res_bind]. rewrite !Z.add_0_l.
  assert (Hsuffix : forall n, n ∈ filter (fun n => t `prefix_of` n) names -> exists u, n = t ++ u)
    by (intros n [Hp _]%list_elem_of_filter; exact Hp).
  unfold Editor.completed in *. rewrite filter_app in *.
  destruct (filter (fun n => t `prefix_of` n) functions) as [|n [|n' l]]; cbn [app length] in *.
  - destruct (filter (fun n => t `prefix_of` n) variables) as [|n [|n' l]]; cbn [length] in *; [done| |].
    + destruct (Hsuffix n) as [u ->]; [left|]. cbn. rewrite length_app in Hlen. by apply padded_grows.
    + rewrite (proj2 (Z.eqb_neq _ 1)) by lia. done.
  - destruct (filter (fun n => t `prefix_of` n) variables) as [|n' l]; cbn [length] in *.
    + destruct (Hsuffix n) as [u ->]; [left|]. cbn. rewrite length_app in Hlen. by apply padded_grows.
    + rewrite (proj2 (Z.eqb_neq _ 1)) by lia. done.
  - rewrite (proj2 (Z.eqb_neq _ 1)) by lia. done.
Qed.

Lemma completed_ok t : Forall Editor.char_ok t -> Forall Editor.char_ok (Editor.completed names t).
Proof.
  intros Ht. unfold Editor.completed. destruct (filter _ names) as [|n [|]] eqn:E; [done| |done].
  assert (Hn : n ∈ filter (fun n => t `prefix_of` n) names) by (rewrite E; left).
  apply list_elem_of_filter in Hn as [_ Hn]. destruct Hnames as [Htx _ _]. rewrite Forall_forall in Htx. auto.
Qed.

Lemma tab_run s e rest : refines s e -> (length (Editor.text (press Editor.Tab e)) <= 78)%nat -> exists s',
  chars (9 :: rest) s = chars rest s' /\ refines s' (press Editor.Tab e).
Proof.
  intros Hs Hlen. cbn [FinshShell.chars]. rewrite (st_bind_run _ _ _ _ _ (normal_key s e 9 Hs ltac:(lia))). cbn [Z.eqb Pos.eqb].
  destruct Hs as [Hst Htx Hl Hp Hpa Hcn Hm Hr Hrow Hcu Hcr Hu Hra]. cbn in Hlen.
  assert (Htx' : text_ok (Editor.completed names (Editor.text e))) by (split; [apply completed_ok, Htx|done]).
  unfold complete, line_len. unfold_st. rewrite Hl, list_prefix_spec by done. unfold_st. cbn [line with_line].
  rewrite (text_ok_cstr _ Htx'). unfold_st. eexists. split; [reflexivity|].
  split; cbn; try done. by rewrite wrap_id by (cbn; lia).
Qed.

Lemma back_run s e del rest : refines s e -> exists s',
  chars ((if del : bool then 0x7f else 0x08) :: rest) s = chars rest s' /\
  refines s' (press (Editor.Back del) e).
Proof.
  intros Hs. assert (Hd : (if del then 0x7f else 0x08) <> 0x1b) by (destruct del; lia).
  cbn [chars]. rewrite (st_bind_run _ _ _ _ _ (normal_key s e _ Hs Hd)).
  cut (exists s', (backspace ≫= fun _ => chars rest) s = chars rest s' /\ refines s' (press (Editor.Back del) e));
    [by destruct del|]. clear Hd.
  destruct Hs as [Hst [Htx Hlen] Hl Hp Hpa Hcn Hm Hr Hrow Hcu Hcr Hu Hra]. unfold backspace. unfold_st. rewrite Hp, Hl.
  cbn [Editor.press].
  destruct (Editor.text e) as [|c t _] eqn:Ht using rev_ind.
  - change (upd (padded []) _ 0) with (Ret (padded [])). eexists. split; [reflexivity|].
    by split; cbn.
  - rewrite length_app in Hlen. cbn [length] in Hlen.
    rewrite (proj2 (Z.leb_gt _ _)) by (rewrite length_app; cbn; lia).
    replace (Z.of_nat (length (t ++ [c])) - 1) with (Z.of_nat (length t)) by (rewrite length_app; cbn; lia).
    rewrite padded_drop by lia. unfold_st. eexists. split; [reflexivity|]. rewrite removelast_last.
    apply Forall_app in Htx as [Htx _]. split; cbn; try done. split; [done|lia].
Qed.

(** The rows of the history hold the commands of [p]. *)
Definition rows_hold (h : list (list Z)) (p : list (list Z)) : Prop :=
  length h = 5%nat /\ (length p <= 5)%nat /\
  forall i t, p !! i = Some t -> h !! i = Some (padded t).

Lemma push_full h p row t : rows_hold h p -> length p = 5%nat -> row = padded t ->
  exists h1 h2, move_rows 4 0 h = Ret h1 /\ upd h1 4 row = Ret h2 /\ rows_hold h2 (tail p ++ [t]).
Proof.
  intros (Hl & _ & Hr) Hp ->. do 6 (destruct h as [|?r h]; try discriminate). clear Hl.
  exists [r0; r1; r2; r3; r3], [r0; r1; r2; r3; padded t]. split; [done|]. split; [done|].
  do 6 (destruct p as [|?q p]; try discriminate). split; [done|]. split; [done|].
  intros [|[|[|[|[|i]]]]] x Hx; cbn in Hx;
    [exact (Hr 1%nat _ Hx)|exact (Hr 2%nat _ Hx)|exact (Hr 3%nat _ Hx)|exact (Hr 4%nat _ Hx)| |done].
  by injection Hx as <-.
Qed.

Lemma push_room h p row t : rows_hold h p -> (length p < 5)%nat -> row = padded t ->
  exists h2, upd h (Z.of_nat (length p)) row = Ret h2 /\ rows_hold h2 (p ++ [t]).
Proof.
  intros (Hl & _ & Hr) Hp ->. eexists. split; [apply upd_ok; lia|]. rewrite Nat2Z.id.
  split; [by rewrite length_insert|]. split; [rewrite length_app; cbn; lia|]. intros i x Hx.
  destruct (decide (i = length p)) as [->|Hne].
  - rewrite list_lookup_middle in Hx by done. injection Hx as <-. by rewrite list_lookup_insert_eq by lia.
  - assert (i < length p)%nat by (apply lookup_lt_Some in Hx; rewrite length_app in Hx; cbn in Hx; lia).
    rewrite list_lookup_insert_ne by done. apply Hr. by rewrite lookup_app_l in Hx by lia.
Qed.

Lemma push_history_run s t p rec :
  line s = padded (t ++ [59]) -> line_position s = Z.of_nat (length t) -> (length t <= 78)%nat ->
  history_count s = Z.of_nat (length p) -> rows_hold (cmd_history s) p -> use_history s = Z.b2z rec ->
  let p' := match t with [] => p | _ => if rec : bool then p else Editor.remember p t end in
  exists h, rows_hold h p' /\ finsh_push_history s =
    Ret (tt, with_cur (with_hist s (Z.of_nat (length p')) h) (Z.of_nat (length p'))).
Proof.
  intros Hl Hpos Ht Hc Hh Hu p'. assert (Hp5 : (length p <= 5)%nat) by apply Hh.
  assert (Hrow : new_row s = Ret (padded t)).
  { unfold new_row. rewrite Hl, Hpos, Nat2Z.id. unfold padded at 1, FINSH_CMD_SIZE.
    destruct (Nat.ltb_spec 80 (length t)); [lia|]. rewrite <- app_assoc, take_app_length. done. }
  unfold finsh_push_history. unfold_st. rewrite Hu, Hpos. unfold p'. clear p'.
  destruct t as [|c t]; [|destruct rec; [|rewrite (proj2 (Z.eqb_neq (Z.of_nat (length (c :: t))) 0)) by (cbn; lia)]].
  - exists (cmd_history s). split; [done|]. rewrite andb_false_r, Hc, wrap_id by (cbn; lia).
    by destruct s; cbn in *; subst.
  - exists (cmd_history s). split; [done|]. cbn [Z.b2z Z.eqb andb]. rewrite Hc, wrap_id by (cbn; lia).
    by destruct s; cbn in *; subst.
  - cbn [Z.b2z Z.eqb andb negb]. unfold Editor.remember, FINSH_HISTORY_LINES in *. rewrite Hc.
    destruct (Nat.ltb_spec (length p) 5) as [Hlt|Hge].
    + rewrite (proj2 (Z.leb_gt _ _)) by lia. rewrite Hrow.
      destruct (push_room _ _ _ (c :: t) Hh Hlt eq_refl) as (h2 & Hu2 & Hr2). rewrite Hu2.
      exists h2. split; [done|]. cbn [history_count with_hist]. rewrite length_app, (wrap_id 16), (wrap_id 8) by (cbn; lia).
      cbn [length]. rewrite Hc.
      by replace (Z.of_nat (length p) + 1) with (Z.of_nat (length p + 1)) by lia.
    + rewrite (proj2 (Z.leb_le _ _)) by lia.
      destruct (push_full _ _ _ (c :: t) Hh ltac:(lia) eq_refl) as (h1 & h2 & Hm & Hu2 & Hr2).
      cbn [Nat.sub]. rewrite Hm. rewrite Hrow. change (Z.of_nat 4) with 4.
      rewrite Hu2. exists h2. split; [done|]. cbn [history_count with_hist].
      assert (Hl5 : length (tail p ++ [c :: t]) = 5%nat) by (rewrite length_app; destruct p; cbn in *; lia).
      rewrite Hl5. done.
Qed.

Lemma remember_ok p t : Forall text_ok p -> text_ok t -> Forall text_ok (Editor.remember p t).
Proof.
  intros Hp Ht. unfold Editor.remember. case_match; apply Forall_app; (split; [|by apply Forall_singleton]); [done|].
  destruct p; [done|]. by apply Forall_cons in Hp as [_ ?].
Qed.

Lemma end_of_line_run s e crlf : refines s e -> exists s',
  end_of_line s = Ret (tt, s') /\ refines s' (press (Editor.Enter crlf) e).
Proof.
  intros [Hst Htx Hl Hp Hpa Hcn Hm Hr Hrow Hcu Hcr Hu Hra]. destruct (Htx) as [Hch Hlen].
  unfold end_of_line. unfold_st. rewrite Hl, Hp, padded_put by lia. unfold_st. rewrite ?Hp.
  set (s1 := with_line s (padded (Editor.text e ++ [59])) (Z.of_nat (length (Editor.text e)))).
  destruct (push_history_run s1 (Editor.text e) (Editor.past e) (Editor.recalled e)) as (h & Hh & Hpush);
    [done|done|lia|done|by split_and!|done|].
  cbn zeta in *. set (p' := match Editor.text e with [] => Editor.past e
    | _ => if Editor.recalled e then Editor.past e else Editor.remember (Editor.past e) (Editor.text e) end) in *.
  rewrite Hpush. cbn [line_position with_cur with_hist s1 with_line].
  assert (Hp' : Forall text_ok p').
  { unfold p'. destruct (Editor.text e); [done|]. case_match; [done|]. by apply remember_ok. }
  destruct Hh as (Hh1 & Hh2 & Hh3). cbn [Editor.press].
  destruct (Editor.text e) as [|c t] eqn:Ht.
  - eexists. split; [reflexivity|]. by split.
  - rewrite (proj2 (Z.eqb_neq (Z.of_nat (length (c :: t))) 0)) by (cbn; lia). cbn [negb].
    unfold finsh_run_line. unfold_st. cbn [line with_cur with_hist s1 with_line].
    rewrite (padded_cstr ((c :: t) ++ [59])).
    + eexists. split; [reflexivity|]. split; cbn; try done; [|by rewrite Hra]. split; [constructor|cbn; lia].
    + apply Forall_app. split; [by apply text_ok_nonzero|]. by apply Forall_singleton.
    + rewrite length_app. cbn in *. lia.
Qed.

Lemma enter_run s e crlf rest : refines s e -> exists s',
  chars (Editor.encode (Editor.Enter crlf) ++ rest) s = chars rest s' /\
  refines s' (press (Editor.Enter crlf) e).
Proof.
  intros Hs. destruct (end_of_line_run s e crlf Hs) as (s' & Hr & Hs'). exists s'. split; [|done].
  destruct crlf; cbn [Editor.encode app chars];
    first [rewrite (st_bind_run _ _ _ _ _ (normal_key s e 13 Hs ltac:(lia)))
          |rewrite (st_bind_run _ _ _ _ _ (normal_key s e 10 Hs ltac:(lia)))]; cbn [Z.eqb Pos.eqb orb];
    unfold plain_key; cbn [Z.eqb Pos.eqb orb]; by rewrite (st_bind_run _ _ _ _ _ Hr).
Qed.

Lemma key_run s e k rest :
  refines s e -> Editor.key_ok k -> (length (Editor.text (press k e)) <= 78)%nat ->
  exists s', chars (Editor.encode k ++ rest) s = chars rest s' /\ refines s' (press k e).
Proof.
  intros Hs Hk Hl. destruct k as [c|del| | | |crlf].
  - apply char_run; [done|done|]. cbn in Hl. rewrite length_app in Hl. cbn in Hl. lia.
  - by apply back_run.
  - by apply tab_run.
  - by apply up_run.
  - by apply down_run.
  - by apply enter_run.
Qed.

Lemma keys_run ks : forall s e, refines s e -> Forall Editor.key_ok ks -> within 78 ks e ->
  exists s', chars (concat (Editor.encode <$> ks)) s = Ret (tt, s') /\ refines s' (presses ks e).
Proof.
  induction ks as [|k ks IH]; intros s e Hs Hk Hw; cbn [fmap list_fmap concat].
  - by exists s.
  - apply Forall_cons in Hk as [Hk Hks]. destruct Hw as [Hl Hw].
    destruct (key_run s e k (concat (Editor.encode <$> ks)) Hs Hk Hl) as (s1 & -> & Hs1). by apply IH.
Qed.

Lemma shell0_refines : refines shell0 Editor.editor0.
Proof. split; try done; cbn; try lia. split; [constructor|cbn; lia]. Qed.

(** ** Long lines *)

(** A line without a zero. *)
Definition full (l : list Z) : Prop := length l = 80%nat /\ Forall (fun c => c <> 0) l.

Lemma push_ok s : length (cmd_history s) = 5%nat -> 0 <= history_count s <= 5 ->
  0 <= line_position s <= 80 -> exists s', finsh_push_history s = Ret (tt, s') /\
    line s' = line s /\ line_position s' = line_position s.
Proof.
  intros Hl Hc Hp. unfold finsh_push_history. unfold_st.
  assert (Hrow : exists r, new_row s = Ret r).
  { unfold new_row, FINSH_CMD_SIZE. destruct (Nat.ltb_spec 80 (Z.to_nat (line_position s))); [lia|]. by eexists. }
  destruct Hrow as [r Hrow].
  destruct ((use_history s =? 0) && negb (line_position s =? 0)); [|by eexists].
  destruct (Z.leb_spec (Z.of_nat FINSH_HISTORY_LINES) (history_count s)) as [Hge|Hlt].
  - destruct (cmd_history s) as [|r0 [|r1 [|r2 [|r3 [|r4 [|]]]]]]; try done.
    change (move_rows _ 0 _) with (Ret [r1; r2; r3; r4; r4] : res (list (list Z))). rewrite Hrow.
    rewrite upd_ok by (cbn; lia). by eexists.
  - rewrite Hrow, upd_ok by (unfold FINSH_HISTORY_LINES in *; lia). by eexists.
Qed.

(** The line after at least 79 characters: exactly 79 and their zero, or no
    zero at all. *)
Record long (s : shell) : Prop := {
  lg_stat : stat s = WAIT_NORMAL;
  lg_rows : length (cmd_history s) = 5%nat;
  lg_count : 0 <= history_count s <= 5;
  lg_pos : 1 <= line_position s <= 80;
  lg_line : full (line s) \/
    exists t, line s = padded t /\ length t = 79%nat /\ line_position s = 79 /\ Forall (fun c => c <> 0) t
}.

Lemma full_upd l i c : full l -> c <> 0 -> 0 <= i < 80 -> exists l', upd l i c = Ret l' /\ full l'.
Proof.
  intros [Hl Hf] Hc Hi. eexists. split; [apply upd_ok; lia|]. split; [by rewrite length_insert|].
  by apply Forall_insert.
Qed.

Lemma padded_full t c : length t = 79%nat -> Forall (fun c => c <> 0) t -> c <> 0 -> full (padded (t ++ [c])).
Proof.
  intros Hl Hf Hc. split; [apply padded_length; rewrite length_app; cbn; lia|].
  unfold padded, FINSH_CMD_SIZE. rewrite length_app, Hl. cbn. rewrite app_nil_r.
  apply Forall_app. split; [done|by apply Forall_singleton].
Qed.

Lemma insert_long s c : long s -> c <> 0 -> exists s', insert_char c s = Ret (tt, s') /\ long s'.
Proof.
  intros [Hst Hr Hc Hp Hl] Hne. unfold insert_char. unfold_st. unfold FINSH_CMD_SIZE.
  destruct Hl as [Hf | (t & Ht & Hlt & Hpt & Hf)].
  - set (pos := if Z.of_nat 80 <=? line_position s then 0 else line_position s).
    assert (Hpos : 0 <= pos < 80) by (unfold pos; destruct (Z.leb_spec (Z.of_nat 80) (line_position s)); lia).
    destruct (full_upd (line s) pos c Hf Hne Hpos) as (l' & -> & Hf'). eexists. split; [done|].
    rewrite wrap_id by (cbn; lia). split; cbn; [done..|lia|by left].
  - rewrite Hpt, Ht, (proj2 (Z.leb_gt (Z.of_nat 80) 79)) by lia.
    assert (Hput : upd (padded t) 79 c = Ret (padded (t ++ [c])))
      by (replace 79 with (Z.of_nat (length t)) by lia; apply padded_put; lia).
    rewrite Hput. change (u8 (79 + 1)) with 80. eexists. split; [done|].
    split; cbn; [done..|lia|left]. by apply padded_full.
Qed.

Lemma enter_long s : long s -> end_of_line s = Err OutOfBounds.
Proof.
  intros [Hst Hr Hc Hp Hl]. unfold end_of_line. unfold_st.
  assert (Hcase : line_position s = 80 \/ exists l, upd (line s) (line_position s) 59 = Ret l /\ full l).
  { destruct Hl as [Hf | (t & Ht & Hlt & Hpt & Hf)].
    - destruct (decide (line_position s = 80)); [by left|right]. apply full_upd; [done|done|lia].
    - right. exists (padded (t ++ [59])). rewrite Hpt, Ht. replace 79 with (Z.of_nat (length t)) by lia.
      split; [apply padded_put; lia|by apply padded_full]. }
  destruct Hcase as [H80 | (l & -> & Hfl)].
  - assert (Hlen : length (line s) = 80%nat).
    { destruct Hl as [[Hf _] | (t & -> & Hlt & _)]; [done|]. apply padded_length. lia. }
    unfold upd. rewrite decide_False by lia. done.
  - destruct (push_ok (with_line s l (line_position s))) as (s' & -> & Hln & Hlp); [done|done|cbn; lia|].
    rewrite Hlp. cbn [line_position with_line]. rewrite (proj2 (Z.eqb_neq (line_position s) 0)) by lia. cbn [negb].
    unfold finsh_run_line. unfold_st. rewrite Hln. cbn [line with_line]. by rewrite full_cstr by apply Hfl.
Qed.

Lemma chars_long cs : forall s, long s -> Forall Editor.char_ok cs -> chars (cs ++ [10]) s = Err OutOfBounds.
Proof.
  induction cs as [|c cs IH]; intros s Hs Hc; cbn [app chars].
  - unfold finsh_handle_history at 1. unfold_st. rewrite (lg_stat _ Hs). cbn [Z.eqb Pos.eqb orb].
    unfold plain_key. cbn [Z.eqb Pos.eqb orb]. by rewrite enter_long.
  - apply Forall_cons in Hc as [Hc Hcs]. unfold Editor.char_ok in Hc.
    assert (Hn : finsh_handle_history c s = Ret (false, s)).
    { unfold finsh_handle_history. unfold_st. rewrite (proj2 (Z.eqb_neq c 0x1b)) by lia. by rewrite (lg_stat _ Hs). }
    rewrite (st_bind_run _ _ _ _ _ Hn).
    assert (Hne : forall k, k = 13 \/ k = 9 \/ k = 0x7f \/ k = 0x08 \/ k = 10 -> (c =? k) = false)
      by (intros k Hk; apply Z.eqb_neq; lia).
    unfold plain_key. rewrite !Hne by tauto. cbn [orb].
    destruct (insert_long s c Hs ltac:(lia)) as (s1 & Hi & Hs1). rewrite (st_bind_run _ _ _ _ _ Hi). by apply IH.
Qed.

Lemma short_long s e c : refines s e -> length (Editor.text e) = 78%nat -> Editor.char_ok c ->
  exists s', insert_char c s = Ret (tt, s') /\ long s'.
Proof.
  intros [Hst [Htx Hlen] Hl Hp Hpa Hcn Hm Hr Hrow Hcu Hcr Hu Hra] H78 Hc. unfold insert_char. unfold_st.
  unfold Editor.char_ok in Hc. rewrite Hp, Hl. rewrite (proj2 (Z.leb_gt _ _)) by (unfold FINSH_CMD_SIZE; lia).
  rewrite padded_put by lia. eexists. split; [done|]. rewrite wrap_id by (cbn; lia).
  unfold FINSH_HISTORY_LINES in *. split; cbn; [done|done|lia|lia|]. right.
  exists (Editor.text e ++ [c]). rewrite length_app. cbn. split_and!; [done|lia|lia|].
  apply Forall_app. split; [by apply text_ok_nonzero|]. apply Forall_singleton. lia.
Qed.

End keys.

(** ** Properties *)

(** C11: the shell edits lines like a plain editor: whatever sequence of
    printable characters, backspaces, tabs, arrows and ends of lines is typed, as
    long as no line grows beyond 78 characters, exactly the lines the editor
    completes are executed, each with its semicolon, and the history arrays hold
    the last five commands that were not themselves recalled.  A tab turns a text
    that begins exactly one of the names of functions and variables into that name,
    and leaves every other text alone. *)
Theorem shell_refines_editor functions variables ks :
  let names := functions ++ variables in
  names_ok functions variables ->
  Forall Editor.key_ok ks -> Editor.within names 78 ks Editor.editor0 ->
  exists s', chars functions variables (concat (Editor.encode <$> ks)) shell0 = Ret (tt, s') /\
    ran s' = Editor.runs (Editor.presses names ks Editor.editor0) /\
    rows_hold (cmd_history s') (Editor.past (Editor.presses names ks Editor.editor0)).
Proof.
  intros names Hn Hk Hw. destruct (keys_run _ _ Hn ks _ _ shell0_refines Hk Hw) as (s' & Hr & [_ _ _ _ _ _ Hm Hl Hrow _ _ _ Hran]).
  exists s'. by split_and!.
Qed.

(** A longer line leaves the array: when 79 or more printable characters
    are typed on an empty line and then the end of the line, the shell writes
    behind its line or the interpreter reads behind it, although the code means
    to discard such a line. *)
Lemma shell_long_line functions variables s e cs :
  refines s e -> Editor.text e = [] -> Forall Editor.char_ok cs -> (79 <= length cs)%nat ->
  chars functions variables (cs ++ [10]) s = Err OutOfBounds.
Proof.
  intros Hs He Hc Hn.
  cut (forall n s e, refines s e -> (length (Editor.text e) + n = 78)%nat -> forall cs, Forall Editor.char_ok cs ->
    (n < length cs)%nat -> chars functions variables (cs ++ [10]) s = Err OutOfBounds).
  { intros H. apply (H 78%nat s e); [done|by rewrite He|done|lia]. }
  clear - functions variables. induction n as [|n IH]; intros s e Hs Hl cs Hc Hn; (destruct cs as [|c cs]; [cbn in Hn; lia|]);
    apply Forall_cons in Hc as [Hc Hcs].
  - assert (Hc' := Hc). unfold Editor.char_ok in Hc'. cbn [app chars].
    rewrite (st_bind_run _ _ _ _ _ (normal_key s e c Hs ltac:(lia))).
    assert (Hne : forall k, k = 13 \/ k = 9 \/ k = 0x7f \/ k = 0x08 \/ k = 10 -> (c =? k) = false)
      by (intros k Hk; apply Z.eqb_neq; lia).
    unfold plain_key. rewrite !Hne by tauto. cbn [orb].
    destruct (short_long s e c Hs ltac:(lia) Hc) as (s1 & Hi & Hs1). rewrite (st_bind_run _ _ _ _ _ Hi).
    by apply chars_long.
  - destruct (char_run functions variables s e c (cs ++ [10]) Hs Hc ltac:(lia)) as (s1 & Hr & Hs1). cbn [app]. rewrite Hr.
    apply (IH s1 _ Hs1); [cbn; rewrite length_app; cbn; lia|done|cbn in Hn; lia].
Qed.

(** ** Witnesses *)

Definition functions0 : list (list Z) := [str "lied"; str "list_mem"; str "hello"].

(** The tab after "li" finds two names, the one after "lie" only one. *)
Definition keys1 : list Editor.key :=
  (Editor.Char <$> str "li") ++ [Editor.Tab; Editor.Char 101; Editor.Tab] ++ (Editor.Char <$> str "(1)")
  ++ [Editor.Enter true; Editor.Up; Editor.Enter false].

Lemma shell_refines_witness : exists s',
  chars functions0 [str "dummy"] (concat (Editor.encode <$> keys1)) shell0 = Ret (tt, s') /\
  ran s' = [str "lied(1);"; str "lied(1);"] /\ rows_hold (cmd_history s') [str "lied(1)"].
Proof.
  apply (shell_refines_editor functions0 [str "dummy"] keys1).
  - split; [|reflexivity|reflexivity]. vm_compute. repeat (apply Forall_cons_2; [repeat (apply Forall_cons_2; [split; discriminate || reflexivity|]); apply Forall_nil_2|]). apply Forall_nil_2.
  - vm_compute. repeat (apply Forall_cons_2; [first [exact I | split; discriminate || reflexivity]|]). apply Forall_nil_2.
  - vm_compute. repeat split; repeat constructor.
Defined.

Lemma shell_long_witness : chars [] [] (replicate 79 65 ++ [10]) shell0 = Err OutOfBounds.
Proof.
  apply (shell_long_line [] [] shell0 Editor.editor0 (replicate 79 65) shell0_refines); [reflexivity| |cbn; lia].
  apply Forall_replicate. unfold Editor.char_ok. lia.
Defined.
