(* ===== verification/FinshSym.v ===== *)
(** * The command shell's names

    RTT/components/finsh/finsh_var.c, finsh_vm.c and finsh_node.c: the table of
    eight shell variables, the system variables and functions (the link-time
    tables and the lists extended at run time) and the order in which an
    identifier is looked up. *)

From S2P Require Import Prelude.

Definition FINSH_NAME_MAX : nat := 16.
Definition FINSH_VARIABLE_MAX : nat := 8.

(** ** C strings in arrays *)

(** [strncmp(a, b, n)]. *)
Fixpoint strncmp (n : nat) (a b : list Z) : res Z :=
  match n with
  | O => mret 0
  | S n =>
      match a, b with
      | x :: a, y :: b =>
          if x =? y then if x =? 0 then mret 0 else strncmp n a b else mret (x - y)
      | _, _ => Err OutOfBounds
      end
  end.

(** The [n] bytes [strncpy(dst, src, n)] writes: the string, then zeros. *)
Fixpoint strncpy_bytes (n : nat) (src : list Z) : res (list Z) :=
  match n with
  | O => mret []
  | S n =>
      match src with
      | [] => Err OutOfBounds
      | c :: src =>
          if c =? 0 then mret (replicate (S n) 0)
          else r ← strncpy_bytes n src; mret (c :: r)
      end
  end.

(** [strcmp] of shell.c (on strings that hold their terminator). *)
Fixpoint strcmp (a b : list Z) : res Z :=
  match a, b with
  | x :: a', y :: b' => if negb (x =? 0) && (x =? y) then strcmp a' b' else mret (x - y)
  | _, _ => Err OutOfBounds
  end.

(** ** Variables *)

(** [struct finsh_var]: an array of 17 bytes, the type and the value. *)
Record finsh_var := mkVar { name : list Z; type : Z; value : Z }.

Definition finsh_type_unknown : Z := 0.
Definition unused : finsh_var := mkVar (replicate (S FINSH_NAME_MAX) 0) 0 0.
Definition finsh_var_init : list finsh_var := replicate FINSH_VARIABLE_MAX unused.

(** The loop of [finsh_var_insert]: [None] when the name exists, and the first
    unused entry. *)
Fixpoint insert_scan (vs : list finsh_var) (i : Z) (nm : list Z) (empty : Z) : res (option Z) :=
  match vs with
  | [] => mret (Some empty)
  | v :: vs =>
      c ← strncmp FINSH_NAME_MAX (name v) nm;
      if c =? 0 then mret None
      else insert_scan vs (i + 1) nm
             (if (type v =? finsh_type_unknown) && (empty =? -1) then i else empty)
  end.

Definition finsh_var_insert (nm : list Z) (ty : Z) : ST (list finsh_var) Z :=
  vs ← get;
  r ← lift (insert_scan vs 0 nm (-1));
  match r with
  | None => mret (-1)
  | Some empty =>
      if empty =? -1 then mret (-1)
      else
        v ← lift (idx vs empty);
        b ← lift (strncpy_bytes FINSH_NAME_MAX nm);
        n ← lift (upd_range (name v) 0 b);
        vs ← lift (upd vs empty (mkVar n (u8 ty) (value v)));
        _ ← put vs;
        mret empty
  end.

(** [finsh_var_delete]: [strncpy] returns its destination, which is never
    null, so every entry is overwritten and none is found. *)
Fixpoint delete_scan (vs : list finsh_var) (nm : list Z) : res (list finsh_var) :=
  match vs with
  | [] => mret []
  | v :: vs =>
      b ← strncpy_bytes FINSH_NAME_MAX nm;
      n ← upd_range (name v) 0 b;
      r ← delete_scan vs nm;
      mret (mkVar n (type v) (value v) :: r)
  end.

Definition finsh_var_delete (nm : list Z) : ST (list finsh_var) Z :=
  vs ← get; vs ← lift (delete_scan vs nm); _ ← put vs; mret (-1).

(** [finsh_var_lookup]: the index of the entry, -1 for a null result. *)
Fixpoint lookup_scan (vs : list finsh_var) (i : Z) (nm : list Z) : res Z :=
  match vs with
  | [] => mret (-1)
  | v :: vs =>
      c ← strncmp FINSH_NAME_MAX (name v) nm;
      if c =? 0 then mret i else lookup_scan vs (i + 1) nm
  end.

Definition finsh_var_lookup (nm : list Z) (vs : list finsh_var) : res Z := lookup_scan vs 0 nm.

(** ** System variables and functions

    [static] is the link-time table; [dyn] the list that
    [finsh_sysvar_append] and [finsh_syscall_append] extend at its head. *)
Record symbols := mkSym { static : list (list Z); dyn : list (list Z) }.

(** [ok] says whether the memory for the item was there. *)
Definition finsh_append (nm : list Z) (ok : bool) (s : symbols) : symbols :=
  if ok then mkSym (static s) (nm :: dyn s) else s.

(** The entries are numbered through both tables. *)
Fixpoint static_scan (ns : list (list Z)) (i : Z) (nm : list Z) : res (option Z) :=
  match ns with
  | [] => mret None
  | n :: ns => c ← strcmp n nm; if c =? 0 then mret (Some i) else static_scan ns (i + 1) nm
  end.

Fixpoint dyn_scan (ns : list (list Z)) (i : Z) (nm : list Z) : res (option Z) :=
  match ns with
  | [] => mret None
  | n :: ns =>
      t ← cstr nm;
      c ← strncmp (length t) n nm;
      if c =? 0 then mret (Some i) else dyn_scan ns (i + 1) nm
  end.

(** [finsh_sysvar_lookup] and [finsh_syscall_lookup], which are alike. *)
Definition finsh_symbol_lookup (nm : list Z) (s : symbols) : res (option Z) :=
  r ← static_scan (static s) 0 nm;
  match r with
  | Some i => mret (Some i)
  | None => dyn_scan (dyn s) (Z.of_nat (length (static s))) nm
  end.

(** The search of [finsh_node_new_id]. *)
Inductive symbol := Var (i : Z) | SysVar (i : Z) | SysCall (i : Z) | Unknown.

Definition resolve (nm : list Z) (vs : list finsh_var) (sysvars syscalls : symbols) : res symbol :=
  i ← finsh_var_lookup nm vs;
  if negb (i =? -1) then mret (Var i)
  else
    r ← finsh_symbol_lookup nm sysvars;
    match r with
    | Some i => mret (SysVar i)
    | None =>
        r ← finsh_symbol_lookup nm syscalls;
        match r with Some i => mret (SysCall i) | None => mret Unknown end
    end.

(** ** Specification: a list of at most eight names *)

(** Names are compared by their first 16 bytes. *)
Definition key (t : list Z) : list Z := take FINSH_NAME_MAX t.

Fixpoint position (k : list Z) (ks : list (list Z)) : Z :=
  match ks with
  | [] => -1
  | x :: ks => if decide (x = k) then 0
               else let p := position k ks in if p =? -1 then -1 else p + 1
  end.

Definition declare (t : list Z) (ks : list (list Z)) : Z * list (list Z) :=
  if decide (key t ∈ ks) then (-1, ks)
  else if (length ks <? FINSH_VARIABLE_MAX)%nat then (Z.of_nat (length ks), ks ++ [key t]) else (-1, ks).

(** The results of a sequence of declarations, and the names declared. *)
Fixpoint declares (ts : list (list Z)) (ks : list (list Z)) : list Z * list (list Z) :=
  match ts with
  | [] => ([], ks)
  | t :: ts => let '(r, ks) := declare t ks in let '(rs, ks) := declares ts ks in (r :: rs, ks)
  end.

Fixpoint inserts (ts : list (list Z)) (ty : Z) : ST (list finsh_var) (list Z) :=
  match ts with
  | [] => mret []
  | t :: ts => r ← finsh_var_insert (t ++ [0]) ty; rs ← inserts ts ty; mret (r :: rs)
  end.

(** A name: no zero in it, and not empty. *)
Definition is_name (t : list Z) : Prop := Forall (fun c => c <> 0) t /\ t <> [].

(** [v] holds the name [k]. *)
Definition holds (v : finsh_var) (k : list Z) : Prop :=
  length (name v) = 17%nat /\ type v <> 0 /\ Forall (fun c => c <> 0) k /\ k <> [] /\ (length k <= 16)%nat /\
  exists r, name v = k ++ 0 :: r.

Definition table (vs : list finsh_var) (ks : list (list Z)) : Prop :=
  exists used, vs = used ++ replicate (FINSH_VARIABLE_MAX - length ks) unused /\
    Forall2 holds used ks /\ (length ks <= FINSH_VARIABLE_MAX)%nat.

(** ** Lemmas *)

Lemma strncmp_key n : forall a r b, Forall (fun c => c <> 0) a -> Forall (fun c => c <> 0) b ->
  (length a <= n)%nat ->
  exists c, strncmp n (a ++ 0 :: r) (b ++ [0]) = Ret c /\ (c = 0 <-> a = take n b).
Proof.
  induction n as [|n IH]; intros a r b Ha Hb Hl.
  - destruct a; [|cbn in Hl; lia]. exists 0. by split.
  - destruct a as [|x a], b as [|y b]; cbn [app strncmp take].
    + by exists 0.
    + apply Forall_cons in Hb as [Hy _]. rewrite (proj2 (Z.eqb_neq 0 y)) by done. exists (0 - y). split; [done|].
      split; [lia|done].
    + apply Forall_cons in Ha as [Hx _]. rewrite (proj2 (Z.eqb_neq x 0)) by done. exists (x - 0). split; [done|].
      split; [lia|done].
    + apply Forall_cons in Ha as [Hx Ha]. apply Forall_cons in Hb as [Hy Hb].
      destruct (Z.eqb_spec x y) as [->|Hne].
      * rewrite (proj2 (Z.eqb_neq y 0)) by done. destruct (IH a r b Ha Hb) as (c & Hc & Hiff); [cbn in Hl; lia|].
        exists c. split; [done|]. rewrite Hiff. split; [by intros ->|by intros [= ->]].
      * exists (x - y). split; [done|]. split; [lia|by intros [= ->]].
Qed.

Lemma holds_cmp v k t : holds v k -> is_name t ->
  exists c, strncmp FINSH_NAME_MAX (name v) (t ++ [0]) = Ret c /\ (c = 0 <-> k = key t).
Proof. intros (_ & _ & Hk & _ & Hl & r & ->) [Ht _]. by apply strncmp_key. Qed.

Lemma unused_cmp t : is_name t ->
  exists c, strncmp FINSH_NAME_MAX (name unused) (t ++ [0]) = Ret c /\ c <> 0.
Proof.
  intros [Ht Hne]. destruct (strncmp_key FINSH_NAME_MAX [] (replicate 16 0) t) as (c & Hc & Hiff);
    [done|done|cbn; lia|]. exists c. split; [exact Hc|]. rewrite Hiff. by destruct t.
Qed.

Lemma scan_unused t n : forall i e, is_name t -> 0 <= i ->
  insert_scan (replicate n unused) i (t ++ [0]) e = Ret (Some (if (e =? -1) && negb (n =? 0)%nat then i else e)).
Proof.
  induction n as [|n IH]; intros i e Ht Hi; cbn [replicate insert_scan]; [by rewrite andb_false_r|].
  destruct (unused_cmp t Ht) as (c & Hc & Hne). rewrite Hc. unfold_st. rewrite (proj2 (Z.eqb_neq c 0)) by done.
  rewrite IH by (done || lia). cbn [type unused Z.eqb finsh_type_unknown andb Nat.eqb negb].
  rewrite andb_true_r. destruct (Z.eqb_spec e (-1)) as [->|He]; cbn [andb].
  - rewrite (proj2 (Z.eqb_neq i (-1))) by lia. done.
  - rewrite (proj2 (Z.eqb_neq e (-1))) by done. done.
Qed.

Lemma scan_used t used ks rest : forall i, Forall2 holds used ks -> is_name t ->
  insert_scan (used ++ rest) i (t ++ [0]) (-1) =
    if decide (key t ∈ ks) then Ret None else insert_scan rest (i + Z.of_nat (length ks)) (t ++ [0]) (-1).
Proof.
  intros i H. revert i. induction H as [|v k used ks Hv _ IH]; intros i Ht; cbn [app insert_scan].
  - rewrite decide_False by (by intros ?%elem_of_nil). by rewrite Z.add_0_r.
  - destruct (holds_cmp v k t Hv Ht) as (c & Hc & Hiff). rewrite Hc. unfold_st.
    destruct (Z.eqb_spec c 0) as [H0|H0].
    + apply Hiff in H0 as ->. by rewrite decide_True by apply list_elem_of_here.
    + destruct Hv as (_ & Hty & _). rewrite (proj2 (Z.eqb_neq (type v) _)) by done. cbn [andb]. rewrite IH by done.
      cbn [length]. replace (i + 1 + Z.of_nat (length ks)) with (i + Z.of_nat (S (length ks))) by lia.
      assert (Hk : key t <> k) by (intros <-; tauto).
      destruct (decide (key t ∈ ks)) as [Hin|Hin].
      * by rewrite decide_True by (by apply list_elem_of_further).
      * by rewrite decide_False by (intros [?|?]%elem_of_cons; done).
Qed.

Lemma strncpy_run n : forall t, Forall (fun c => c <> 0) t ->
  strncpy_bytes n (t ++ [0]) = Ret (take n t ++ replicate (n - length t) 0).
Proof.
  induction n as [|n IH]; intros t Ht; [done|]. destruct t as [|c t]; [done|].
  apply Forall_cons in Ht as [Hc Ht]. cbn [app strncpy_bytes]. rewrite (proj2 (Z.eqb_neq c 0)) by done.
  by rewrite IH.
Qed.

Lemma new_name t : is_name t -> exists b r, strncpy_bytes FINSH_NAME_MAX (t ++ [0]) = Ret b /\
  upd_range (name unused) 0 b = Ret (key t ++ 0 :: r) /\ length (key t ++ 0 :: r) = 17%nat.
Proof.
  intros [Ht _]. exists (take 16 t ++ replicate (16 - length t) 0), (replicate (16 - length t) 0).
  assert (Hlen : length (take 16 t ++ replicate (16 - length t) 0) = 16%nat)
    by (rewrite length_app, length_take, length_replicate; lia).
  split; [by apply strncpy_run|]. unfold key, FINSH_NAME_MAX. split.
  - rewrite upd_range_0 by (rewrite Hlen; cbn; lia). rewrite Hlen. f_equal. change (drop 16 _) with [0].
    rewrite <- app_assoc. f_equal. change [0] with (replicate 1 0). rewrite <- replicate_add.
    by rewrite Nat.add_comm.
  - rewrite length_app in Hlen |- *. cbn [length]. rewrite Nat.add_succ_r, Hlen. done.
Qed.

Lemma key_name t : is_name t -> Forall (fun c => c <> 0) (key t) /\ key t <> [] /\ (length (key t) <= 16)%nat.
Proof.
  intros [Ht Hne]. unfold key, FINSH_NAME_MAX. split_and!; [by apply Forall_take|by destruct t|].
  rewrite length_take. lia.
Qed.

Lemma insert_run vs ks t ty : table vs ks -> is_name t -> u8 ty <> 0 ->
  exists vs', finsh_var_insert (t ++ [0]) ty vs = Ret (fst (declare t ks), vs') /\ table vs' (snd (declare t ks)).
Proof.
  intros (used & Hvs & Hu & Hl) Ht Hty. unfold FINSH_VARIABLE_MAX in Hl. assert (Hlu := Forall2_length _ _ _ Hu).
  unfold finsh_var_insert. unfold_st.
  assert (Hscan := scan_used t used ks (replicate (FINSH_VARIABLE_MAX - length ks) unused) 0 Hu Ht).
  rewrite <- Hvs in Hscan. rewrite Hscan. unfold declare. destruct (decide (key t ∈ ks)) as [Hin|Hin].
  { exists vs. split; [done|]. by exists used. }
  rewrite scan_unused by (done || lia). cbn [Z.eqb Pos.eqb andb]. unfold FINSH_VARIABLE_MAX in *.
  destruct (Nat.ltb_spec (length ks) 8) as [Hlt|Hge].
  - rewrite (proj2 (Nat.eqb_neq _ _)) by lia. cbn [negb]. rewrite (proj2 (Z.eqb_neq _ _)) by lia.
    replace (0 + Z.of_nat (length ks)) with (Z.of_nat (length used)) by lia.
    destruct (8 - length ks)%nat as [|n] eqn:Hn; [lia|]. cbn [replicate] in Hvs.
    rewrite Hvs, (proj2 (idx_Ret _ _ unused)) by (split; [lia|rewrite Nat2Z.id; by apply list_lookup_middle]).
    destruct (new_name t Ht) as (b & r & -> & -> & H17).
    rewrite upd_ok by (rewrite length_app; cbn; lia). rewrite Nat2Z.id, insert_app_r_alt, Nat.sub_diag by lia.
    cbn [insert list_insert fst snd]. eexists. split; [by rewrite Hlu|].
    exists (used ++ [mkVar (key t ++ 0 :: r) (u8 ty) (value unused)]). split_and!.
    + rewrite <- app_assoc. cbn [app]. rewrite length_app. cbn [length].
      unfold FINSH_VARIABLE_MAX. by replace (8 - (length ks + 1))%nat with n by lia.
    + apply Forall2_app; [done|]. constructor; [|constructor]. destruct (key_name t Ht) as (H1 & H2 & H3).
      split_and!; try done. by exists r.
    + rewrite length_app. unfold FINSH_VARIABLE_MAX. cbn. lia.
  - replace (8 - length ks)%nat with 0%nat by lia. cbn [Nat.eqb negb]. exists vs. split; [done|]. by exists used.
Qed.

Lemma inserts_run ts ty : forall vs ks, table vs ks -> Forall is_name ts -> u8 ty <> 0 ->
  exists vs', inserts ts ty vs = Ret (fst (declares ts ks), vs') /\ table vs' (snd (declares ts ks)).
Proof.
  induction ts as [|t ts IH]; intros vs ks Hv Ht Hty; cbn [inserts declares].
  - by exists vs.
  - apply Forall_cons in Ht as [Ht Hts]. destruct (insert_run vs ks t ty Hv Ht Hty) as (v1 & Hr & Hv1).
    rewrite (st_bind_run _ _ _ _ _ Hr). destruct (declare t ks) as [r ks1]. cbn [fst snd] in *.
    destruct (IH v1 ks1 Hv1 Hts Hty) as (v2 & Hr2 & Hv2). rewrite (st_bind_run _ _ _ _ _ Hr2).
    destruct (declares ts ks1) as [rs ks2]. by exists v2.
Qed.

Lemma lookup_unused t n : forall i, is_name t -> lookup_scan (replicate n unused) i (t ++ [0]) = Ret (-1).
Proof.
  induction n as [|n IH]; intros i Ht; [done|]. cbn [replicate lookup_scan].
  destruct (unused_cmp t Ht) as (c & Hc & Hne). rewrite Hc. unfold_st. rewrite (proj2 (Z.eqb_neq c 0)) by done. by apply IH.
Qed.

Lemma lookup_run vs ks t : table vs ks -> is_name t -> finsh_var_lookup (t ++ [0]) vs = Ret (position (key t) ks).
Proof.
  intros (used & -> & Hu & _) Ht. unfold finsh_var_lookup.
  cut (forall i rest, 0 <= i -> (forall j, lookup_scan rest j (t ++ [0]) = Ret (-1)) ->
    lookup_scan (used ++ rest) i (t ++ [0]) =
      Ret (let p := position (key t) ks in if p =? -1 then -1 else p + i)).
  { intros H. rewrite H; [|lia|intros j; by apply lookup_unused]. cbn zeta. destruct (Z.eqb_spec (position (key t) ks) (-1)) as [->|]; [done|].
    f_equal. lia. }
  induction Hu as [|v k used ks Hv _ IH]; intros i rest Hi Hrest; cbn [app lookup_scan position].
  - by rewrite Hrest.
  - destruct (holds_cmp v k t Hv Ht) as (c & Hc & Hiff). rewrite Hc. unfold_st.
    destruct (Z.eqb_spec c 0) as [H0|H0].
    + apply Hiff in H0 as ->. by rewrite decide_True by done.
    + rewrite decide_False by (intros ->; tauto). rewrite IH by (done || lia). cbn zeta.
      assert (Hp : forall q l, -1 <= position q l).
      { clear. intros q l. induction l as [|x l IH]; cbn; [lia|]. repeat case_match; lia. }
      specialize (Hp (key t) ks). destruct (Z.eqb_spec (position (key t) ks) (-1)) as [E|E]; [done|].
      rewrite (proj2 (Z.eqb_neq _ (-1))) by lia. f_equal. lia.
Qed.

Lemma init_table : table finsh_var_init [].
Proof. exists []. split; [done|]. split; [constructor|cbn; lia]. Qed.

Lemma delete_run vs ks t : table vs ks -> is_name t -> exists vs',
  delete_scan vs (t ++ [0]) = Ret vs' /\ length vs' = length vs /\
  Forall (fun v => exists r, name v = key t ++ r) vs'.
Proof.
  intros (used & -> & Hu & Hl) [Ht Hne]. assert (Hall : Forall (fun v => length (name v) = 17%nat)
    (used ++ replicate (FINSH_VARIABLE_MAX - length ks) unused)).
  { apply Forall_app. split; [|by apply Forall_replicate]. clear -Hu. induction Hu as [|v k ? ? Hv]; constructor; [apply Hv|done]. }
  induction Hall as [|v vs Hv _ IH]; cbn [delete_scan]; [by exists []|].
  rewrite strncpy_run by done. unfold_st.
  assert (Hb : length (take 16 t ++ replicate (16 - length t) 0) = 16%nat)
    by (rewrite length_app, length_take, length_replicate; lia).
  unfold FINSH_NAME_MAX. rewrite upd_range_0 by lia. destruct IH as (vs' & -> & Hlen & Hf).
  eexists. split; [done|]. split; [cbn; lia|]. constructor; [|done]. cbn [name]. rewrite <- app_assoc. by eexists.
Qed.

(** ** Properties *)

(** C33: the shell's variables are a table of at most eight names, compared by
    their first 16 characters: a declaration gets the next place, or is refused
    when the name is taken or the table full, and a lookup finds the place of
    the declaration and nothing else. *)
Theorem finsh_variables ts ty t :
  Forall is_name ts -> is_name t -> u8 ty <> 0 ->
  exists vs, inserts ts ty finsh_var_init = Ret (fst (declares ts []), vs) /\
    finsh_var_lookup (t ++ [0]) vs = Ret (position (key t) (snd (declares ts []))).
Proof.
  intros Hts Ht Hty. destruct (inserts_run ts ty _ _ init_table Hts Hty) as (vs & Hr & Hv).
  exists vs. split; [done|]. by apply lookup_run.
Qed.

(** Deleting a variable deletes none: [strncpy] stands where [strncmp] is
    meant, so the result is always -1 and every entry of the table gets the name
    that was to be deleted. *)
Lemma finsh_delete_clobbers ts ty t :
  Forall is_name ts -> is_name t -> u8 ty <> 0 ->
  exists vs vs', inserts ts ty finsh_var_init = Ret (fst (declares ts []), vs) /\
    finsh_var_delete (t ++ [0]) vs = Ret (-1, vs') /\ length vs' = length vs /\
    Forall (fun v => exists r, name v = key t ++ r) vs'.
Proof.
  intros Hts Ht Hty. destruct (inserts_run ts ty _ _ init_table Hts Hty) as (vs & Hr & Hv).
  destruct (delete_run _ _ t Hv Ht) as (vs' & Hd & Hl & Hf). exists vs, vs'. split; [done|].
  unfold finsh_var_delete. unfold_st. rewrite Hd. by split_and!.
Qed.

(** ** Witnesses *)

Ltac show_name := split; [unfold str; cbn; repeat (apply Forall_cons_2; [lia|]); apply Forall_nil_2 | discriminate].

Lemma finsh_variables_witness : exists vs,
  inserts [str "speed"; str "n"; str "speed"] 3 finsh_var_init = Ret ([0; 1; -1], vs) /\
  finsh_var_lookup (str "n" ++ [0]) vs = Ret 1.
Proof.
  apply (finsh_variables [str "speed"; str "n"; str "speed"] 3 (str "n")); [|show_name|discriminate].
  repeat (apply Forall_cons_2; [show_name|]). apply Forall_nil_2.
Defined.

Lemma finsh_delete_witness : exists vs vs',
  inserts [str "speed"; str "n"] 3 finsh_var_init = Ret ([0; 1], vs) /\
  finsh_var_delete (str "n" ++ [0]) vs = Ret (-1, vs') /\ length vs' = length vs /\
  Forall (fun v => exists r, name v = str "n" ++ r) vs'.
Proof.
  apply (finsh_delete_clobbers [str "speed"; str "n"] 3 (str "n")); [|show_name|discriminate].
  repeat (apply Forall_cons_2; [show_name|]). apply Forall_nil_2.
Defined.
