(* ===== verification/FinshVm.v ===== *)
(** * The shell's virtual machine

    RTT/components/finsh/finsh_vm.c and finsh_ops.c: a stack of 64 values, a text
    segment of 128 bytes and the 48 operations.  A value is the four bytes of
    [union finsh_value]; a byte or word operation writes only the low bytes of its
    slot, so what was there before remains in the others. *)

From S2P Require Import Prelude.

Definition FINSH_STACK_MAX : nat := 64.
Definition FINSH_TEXT_MAX : nat := 128.

(** ** Values *)

(** The members [char_value], [short_value] and [long_value]. *)
Inductive width := Byte | Word | Dword.

#[global] Instance width_eq_dec : EqDecision width.
Proof. solve_decision. Defined.

(** Reading a member; [char] is unsigned on this processor. *)
Definition value (w : width) (x : Z) : Z :=
  match w with Byte => u8 x | Word => s16 x | Dword => s32 x end.

(** Writing a member leaves the higher bytes. *)
Definition set_value (w : width) (x v : Z) : Z :=
  match w with
  | Byte => x - x mod 2 ^ 8 + u8 v
  | Word => x - x mod 2 ^ 16 + u16 v
  | Dword => u32 v
  end.

Definition size (w : width) : nat := match w with Byte => 1 | Word => 2 | Dword => 4 end.

(** ** Memory *)

Definition mem : Type := Z -> Z.

(** What lies outside the shell: which addresses can be accessed, where the
    linker put the table of variables, and the functions exported to the shell. *)
Class Machine := {
  valid : Z -> bool;
  global_variable : Z;
  call : Z -> list Z -> mem -> res (Z * mem)
}.

Section vm.
Context `{Machine}.

Fixpoint load_bytes (n : nat) (a : Z) (m : mem) : res Z :=
  match n with
  | O => mret 0
  | S n =>
      if valid (u32 a) then h ← load_bytes n (a + 1) m; mret (u8 (m (u32 a)) + 256 * h)
      else Err NullDeref
  end.

Fixpoint store_bytes (n : nat) (a v : Z) (m : mem) : res mem :=
  match n with
  | O => mret m
  | S n =>
      if valid (u32 a) then store_bytes n (a + 1) (v / 256) (<[u32 a := u8 v]> m)
      else Err NullDeref
  end.

Definition load (w : width) (a : Z) (m : mem) : res Z := load_bytes (size w) a m.
Definition store (w : width) (a v : Z) (m : mem) : res mem := store_bytes (size w) a v m.

(** ** The machine *)

Record vm := mkVm {
  finsh_vm_stack : list Z;
  finsh_sp : Z;
  text_segment : list Z;
  finsh_pc : Z;
  memory : mem
}.

Definition op : Type := ST vm unit.

(** [finsh_sp + i] as a place of the stack. *)
Definition slot (i : Z) : ST vm Z :=
  s ← get; lift (idx (finsh_vm_stack s) (finsh_sp s + i)).

Definition set_slot (i x : Z) : op :=
  s ← get;
  st ← lift (upd (finsh_vm_stack s) (finsh_sp s + i) x);
  put (mkVm st (finsh_sp s) (text_segment s) (finsh_pc s) (memory s)).

Definition add_sp (i : Z) : op :=
  modify (fun s => mkVm (finsh_vm_stack s) (finsh_sp s + i) (text_segment s) (finsh_pc s) (memory s)).

Definition add_pc (i : Z) : op :=
  modify (fun s => mkVm (finsh_vm_stack s) (finsh_sp s) (text_segment s) (finsh_pc s + i) (memory s)).

Definition set_memory (m : mem) : op :=
  modify (fun s => mkVm (finsh_vm_stack s) (finsh_sp s) (text_segment s) (finsh_pc s) m).

(** [*finsh_pc], [FINSH_GET16(finsh_pc)] and [FINSH_GET32(finsh_pc)]. *)
Fixpoint read_text (n : nat) (text : list Z) (pc : Z) : res Z :=
  match n with
  | O => mret 0
  | S n => b ← idx text pc; h ← read_text n text (pc + 1); mret (b + 256 * h)
  end.

Definition immediate (n : nat) : ST vm Z :=
  s ← get; lift (read_text n (text_segment s) (finsh_pc s)).

(** ** Operations *)

Definition OP_no_op : op := mret tt.

(** [OP_BIN_BYTE], [OP_BIN_WORD] and [OP_BIN_DWORD]. *)
Definition OP_BIN (w : width) (f : Z -> Z -> res Z) : op :=
  a ← slot (-2);
  b ← slot (-1);
  r ← lift (f (value w a) (value w b));
  _ ← set_slot (-2) (set_value w a r);
  add_sp (-1).

(** The operators on [int]s.  Division by zero and shifts by a negative amount
    or by the width are undefined. *)
Definition c_div (a b : Z) : res Z := if b =? 0 then Err DivByZero else mret (Z.quot a b).
Definition c_mod (a b : Z) : res Z := if b =? 0 then Err DivByZero else mret (Z.rem a b).
Definition c_shl (a b : Z) : res Z := if (0 <=? b) && (b <? 32) then mret (Z.shiftl a b) else Err BadShift.
Definition c_shr (a b : Z) : res Z := if (0 <=? b) && (b <? 32) then mret (Z.shiftr a b) else Err BadShift.

Definition OP_add (w : width) : op := OP_BIN w (fun a b => mret (a + b)).
Definition OP_sub (w : width) : op := OP_BIN w (fun a b => mret (a - b)).
Definition OP_div (w : width) : op := OP_BIN w c_div.
Definition OP_mod (w : width) : op := OP_BIN w c_mod.
Definition OP_mul (w : width) : op := OP_BIN w (fun a b => mret (a * b)).
Definition OP_and (w : width) : op := OP_BIN w (fun a b => mret (Z.land a b)).
Definition OP_or (w : width) : op := OP_BIN w (fun a b => mret (Z.lor a b)).
Definition OP_xor (w : width) : op := OP_BIN w (fun a b => mret (Z.lxor a b)).
Definition OP_shl (w : width) : op := OP_BIN w c_shl.
Definition OP_shr (w : width) : op := OP_BIN w c_shr.

Definition OP_bw (w : width) : op :=
  a ← slot (-1); set_slot (-1) (set_value w a (Z.lnot (value w a))).

(** [OP_ld]: a constant from the text. *)
Definition OP_ld (w : width) : op :=
  v ← immediate (size w);
  x ← slot 0;
  _ ← set_slot 0 (set_value w x v);
  _ ← add_sp 1;
  add_pc (Z.of_nat (size w)).

(** [OP_ld_value]: what an address in the text points to. *)
Definition OP_ld_value (w : width) : op :=
  a ← immediate 4;
  s ← get;
  v ← lift (load w a (memory s));
  x ← slot 0;
  _ ← set_slot 0 (set_value w x v);
  _ ← add_sp 1;
  add_pc 4.

Definition OP_ld_value_stack (w : width) : op :=
  x ← slot (-1);
  s ← get;
  v ← lift (load w (value Dword x) (memory s));
  set_slot (-1) (set_value w x v).

Definition OP_st (w : width) : op :=
  a ← slot (-2);
  v ← slot (-1);
  s ← get;
  m ← lift (store w (value Dword a) (value w v) (memory s));
  _ ← set_memory m;
  add_sp (-1).

Definition OP_pop : op := add_sp (-1).

(** [OP_call]: the loop that takes [n] parameters off the stack, the last one
    first; [parameterv] has sixteen places. *)
Fixpoint take_params (n : nat) (acc : list Z) : ST vm (list Z) :=
  match n with
  | O => mret acc
  | S n => x ← slot 0; _ ← add_sp (-1); take_params n (u32 x :: acc)
  end.

Definition OP_call : op :=
  n ← immediate 1;
  _ ← add_pc 1;
  _ ← add_sp (-1);
  if 16 <? n then lift (Err OutOfBounds) else
  parameterv ← take_params (Z.to_nat n) [];
  f ← slot 0;
  s ← get;
  r ← lift (call (u32 f) (if n =? 0 then [0] else parameterv) (memory s));
  _ ← set_memory (snd r);
  _ ← set_slot 0 (u32 (fst r));
  add_sp 1.

(** The table ends in a null pointer. *)
Definition op_table : list (option op) :=
  [ Some OP_no_op;
    Some (OP_add Byte); Some (OP_add Word); Some (OP_add Dword);
    Some (OP_sub Byte); Some (OP_sub Word); Some (OP_sub Dword);
    Some (OP_div Byte); Some (OP_div Word); Some (OP_div Dword);
    Some (OP_mod Byte); Some (OP_mod Word); Some (OP_mod Dword);
    Some (OP_mul Byte); Some (OP_mul Word); Some (OP_mul Dword);
    Some (OP_and Byte); Some (OP_and Word); Some (OP_and Dword);
    Some (OP_or Byte); Some (OP_or Word); Some (OP_or Dword);
    Some (OP_xor Byte); Some (OP_xor Word); Some (OP_xor Dword);
    Some (OP_bw Byte); Some (OP_bw Word); Some (OP_bw Dword);
    Some (OP_shl Byte); Some (OP_shl Word); Some (OP_shl Dword);
    Some (OP_shr Byte); Some (OP_shr Word); Some (OP_shr Dword);
    Some (OP_ld Byte); Some (OP_ld Word); Some (OP_ld Dword);
    Some (OP_ld_value Byte); Some (OP_ld_value Word); Some (OP_ld_value Dword);
    Some (OP_st Byte); Some (OP_st Word); Some (OP_st Dword);
    Some OP_pop; Some OP_call;
    Some (OP_ld_value_stack Byte); Some (OP_ld_value_stack Word); Some (OP_ld_value_stack Dword);
    None ].

(** One turn of the loop of [finsh_vm_run]. *)
Definition vm_step : op :=
  c ← immediate 1;
  _ ← add_pc 1;
  o ← lift (idx op_table c);
  match o with Some f => f | None => lift (Err BadOpcode) end.

Fixpoint vm_loop (fuel : nat) (s : vm) : res vm :=
  if (0 <=? finsh_pc s) && (finsh_pc s <? Z.of_nat FINSH_TEXT_MAX) then
    match fuel with
    | O => Err OutOfFuel
    | S fuel => match vm_step s with Ret (_, s) => vm_loop fuel s | Err f => Err f end
    end
  else mret s.

Definition start (stack text : list Z) (m : mem) : vm := mkVm stack 0 text 0 m.

Definition finsh_vm_run (stack text : list Z) (m : mem) : res vm :=
  vm_loop FINSH_TEXT_MAX (start stack text m).
End vm.

(** ** Values and members *)

Lemma value_set w x v : value w (set_value w x v) = value w v.
Proof.
  destruct w; cbn [value set_value]; [wrap_lia| |by rewrite <- (swrap_wrap 32 (wrap 32 v)), wrap_wrap, swrap_wrap].
  rewrite <- swrap_wrap, <- (swrap_wrap 16 v). f_equal. wrap_lia.
Qed.

Lemma value_value w v : value w (value w v) = value w v.
Proof.
  destruct w; cbn [value]; [by rewrite wrap_wrap| |]; by rewrite <- swrap_wrap, wrap_swrap, swrap_wrap.
Qed.

Lemma value_u32 v : value Dword (u32 v) = value Dword v.
Proof. cbn. by rewrite swrap_wrap. Qed.

Lemma u32_value v : u32 (value Dword v) = u32 v.
Proof. cbn. by rewrite wrap_swrap. Qed.

(** ** Termination *)

Section halts.
Context `{Mc : Machine}.

(** A piece of code that does not move [finsh_pc] back and waits for nothing. *)
Definition advances {A} (o : ST vm A) : Prop :=
  forall s, match o s with Ret (_, s') => finsh_pc s <= finsh_pc s' | Err f => f <> OutOfFuel end.

Lemma advances_ret {A} (a : A) : advances (mret a).
Proof. intros s. cbn. lia. Qed.

Lemma advances_bind {A B} (m : ST vm A) (k : A -> ST vm B) :
  advances m -> (forall a, advances (k a)) -> advances (m ≫= k).
Proof.
  intros Hm Hk s. unfold mbind, st_bind. specialize (Hm s). destruct (m s) as [[a s1]|f]; [|done].
  specialize (Hk a s1). destruct (k a s1) as [[b s2]|f]; [lia|done].
Qed.

Lemma advances_lift {A} (r : res A) : r <> Err OutOfFuel -> advances (lift r).
Proof. intros Hr s. unfold lift. destruct r; [lia|congruence]. Qed.

Lemma advances_get : advances get.
Proof. intros s. cbn. lia. Qed.

Lemma advances_slot i : advances (slot i).
Proof. intros s. unfold slot, idx. unfold_st. repeat case_match; simplify_eq; lia || done. Qed.

Lemma advances_set_slot i x : advances (set_slot i x).
Proof. intros s. unfold set_slot, upd. unfold_st. repeat case_match; simplify_eq; cbn; lia || done. Qed.

Lemma advances_sp i : advances (add_sp i).
Proof. intros s. cbn. lia. Qed.

Lemma advances_memory m : advances (set_memory m).
Proof. intros s. cbn. lia. Qed.

Lemma advances_pc i : 0 <= i -> advances (add_pc i).
Proof. intros Hi s. cbn. lia. Qed.

Lemma read_text_fuel n text : forall pc, read_text n text pc <> Err OutOfFuel.
Proof.
  induction n as [|n IH]; intros pc; cbn [read_text]; [done|]. unfold idx. unfold_st.
  specialize (IH (pc + 1)). repeat case_match; simplify_eq; done.
Qed.

Lemma advances_immediate n : advances (immediate n).
Proof. apply advances_bind; [apply advances_get|]. intros s. apply advances_lift, read_text_fuel. Qed.

Lemma load_fuel n m : forall a, load_bytes n a m <> Err OutOfFuel.
Proof.
  induction n as [|n IH]; intros a; cbn [load_bytes]; [done|]. unfold_st.
  specialize (IH (a + 1)). repeat case_match; simplify_eq; done.
Qed.

Lemma store_fuel n : forall a v m, store_bytes n a v m <> Err OutOfFuel.
Proof. induction n as [|n IH]; intros a v m; cbn [store_bytes]; [done|]. case_match; [apply IH|done]. Qed.

Hint Resolve advances_ret advances_lift advances_get advances_slot advances_set_slot advances_sp
  advances_memory advances_pc advances_immediate read_text_fuel load_fuel store_fuel : halts.

Ltac advance :=
  repeat first [ solve [eauto with halts] | apply advances_pc; lia | apply advances_bind; [|intros ?] ].

Lemma advances_bin w f : (forall a b, f a b <> Err OutOfFuel) -> advances (OP_BIN w f).
Proof. intros Hf. unfold OP_BIN. advance. Qed.

Lemma advances_params n : forall acc, advances (take_params n acc).
Proof. induction n as [|n IH]; intros acc; cbn [take_params]; advance. Qed.

(** The functions the shell calls return. *)
Hypothesis call_returns : forall f args m, call f args m <> Err OutOfFuel.

Lemma advances_call : advances OP_call.
Proof.
  unfold OP_call. advance. case_match; [by apply advances_lift|].
  apply advances_bind; [apply advances_params|intros ?]. advance.
Qed.

Lemma advances_ops : Forall (fun o => match o with Some f => advances f | None => True end) op_table.
Proof.
  unfold op_table. repeat apply Forall_cons_2; try exact I; try apply Forall_nil_2;
    try (apply advances_bin; intros a b; unfold c_div, c_mod, c_shl, c_shr; by repeat case_match);
    try apply advances_call;
    unfold OP_no_op, OP_bw, OP_ld, OP_ld_value, OP_ld_value_stack, OP_st, OP_pop, load, store; advance.
Qed.

Lemma step_advances s : match vm_step s with
  Ret (_, s') => finsh_pc s < finsh_pc s' | Err f => f <> OutOfFuel end.
Proof.
  unfold vm_step. assert (Him := advances_immediate 1 s). destruct (immediate 1 s) as [[c s1]|f] eqn:Hc;
    [|unfold mbind, st_bind; by rewrite Hc].
  rewrite (st_bind_run _ _ _ _ _ Hc). unfold add_pc at 1. rewrite (st_bind_run _ _ _ _ _ eq_refl).
  destruct (idx op_table c) as [[o|]|f] eqn:Ho; unfold mbind, st_bind, lift at 1; [|done|].
  - apply idx_Ret in Ho as [_ Ho]. assert (Ha := proj1 (Forall_lookup _ _) advances_ops _ _ Ho). cbn in Ha.
    specialize (Ha (mkVm (finsh_vm_stack s1) (finsh_sp s1) (text_segment s1) (finsh_pc s1 + 1) (memory s1))).
    cbn [finsh_pc] in Ha. destruct (o _) as [[[] s2]|f]; [lia|done].
  - unfold idx in Ho. repeat case_match; simplify_eq; done.
Qed.

Lemma loop_halts n : forall s, 0 <= finsh_pc s -> Z.of_nat FINSH_TEXT_MAX - finsh_pc s <= Z.of_nat n ->
  vm_loop n s <> Err OutOfFuel.
Proof.
  induction n as [|n IH]; intros s Hpc Hn; cbn [vm_loop].
  - rewrite (proj2 (Z.ltb_ge _ _)) by lia. by rewrite andb_false_r.
  - case_match; [|done]. assert (Hs := step_advances s). destruct (vm_step s) as [[[] s1]|f]; [|congruence].
    apply IH; lia.
Qed.
End halts.

Lemma loop_more `{Machine} n k : forall s, vm_loop n s <> Err OutOfFuel -> vm_loop (n + k) s = vm_loop n s.
Proof.
  induction n as [|n IH]; intros s; cbn [vm_loop Nat.add].
  - intros Hs. case_match; [done|]. destruct k; cbn [vm_loop]; by rewrite H0.
  - case_match; [|done]. destruct (vm_step s) as [[[] s1]|f]; [apply IH|done].
Qed.

(** ** One instruction at a time

    A state by the values on the stack ([d]), the unused part of the stack
    ([rest]) and the position of [finsh_pc]. *)

Section steps.
Context `{Mc : Machine}.
Implicit Types (d rest text code : list Z) (m : mem).

Definition St (text : list Z) (pc : nat) (d rest : list Z) (m : mem) : vm :=
  mkVm (d ++ rest) (Z.of_nat (length d)) text (Z.of_nat pc) m.

(** [code] stands at [pc] in the text segment. *)
Definition at_code (text : list Z) (pc : nat) (code : list Z) : Prop :=
  length text = FINSH_TEXT_MAX /\ exists post, drop pc text = code ++ post.

Lemma at_code_app text pc c1 c2 :
  at_code text pc (c1 ++ c2) -> at_code text pc c1 /\ at_code text (pc + length c1) c2.
Proof.
  intros [Hl [post Hp]]. rewrite <- app_assoc in Hp. split; split; try done; [by exists (c2 ++ post)|].
  exists post. rewrite <- drop_drop, Hp. by apply drop_app_length.
Qed.

Lemma at_code_cons text pc c code :
  at_code text pc (c :: code) -> text !! pc = Some c /\ at_code text (S pc) code.
Proof.
  intros [Hl [post Hp]]. split.
  - rewrite <- (Nat.add_0_r pc), <- lookup_drop, Hp. done.
  - split; [done|]. exists post. replace (S pc) with (pc + 1)%nat by lia. by rewrite <- drop_drop, Hp.
Qed.

Lemma at_code_bound text pc c code : at_code text pc (c :: code) -> (pc < FINSH_TEXT_MAX)%nat.
Proof. intros Hc. destruct (Hc) as [<- _]. apply at_code_cons in Hc as [Hc _]. by apply lookup_lt_Some in Hc. Qed.

Lemma slot_1 text pc d a rest m :
  slot (-1) (St text pc (d ++ [a]) rest m) = Ret (a, St text pc (d ++ [a]) rest m).
Proof.
  unfold slot, St. unfold_st. cbn [finsh_vm_stack finsh_sp]. rewrite <- app_assoc. cbn [app].
  rewrite idx_middle; [done|]. rewrite length_app. cbn. lia.
Qed.

Lemma slot_2 text pc d a b rest m :
  slot (-2) (St text pc (d ++ [a; b]) rest m) = Ret (a, St text pc (d ++ [a; b]) rest m).
Proof.
  unfold slot, St. unfold_st. cbn [finsh_vm_stack finsh_sp]. rewrite <- app_assoc. cbn [app].
  rewrite idx_middle; [done|]. rewrite length_app. cbn. lia.
Qed.

Lemma slot_0 text pc d r rest m :
  slot 0 (St text pc d (r :: rest) m) = Ret (r, St text pc d (r :: rest) m).
Proof.
  unfold slot, St. unfold_st. cbn [finsh_vm_stack finsh_sp]. rewrite idx_middle; [done|lia].
Qed.

Lemma set_slot_1 text pc d a rest m x :
  set_slot (-1) x (St text pc (d ++ [a]) rest m) = Ret (tt, St text pc (d ++ [x]) rest m).
Proof.
  unfold set_slot, St. unfold_st. cbn [finsh_vm_stack finsh_sp text_segment finsh_pc memory].
  rewrite <- !app_assoc. cbn [app]. rewrite !length_app, (upd_middle d a rest) by (cbn; lia). done.
Qed.

Lemma set_slot_2 text pc d a b rest m x :
  set_slot (-2) x (St text pc (d ++ [a; b]) rest m) = Ret (tt, St text pc (d ++ [x; b]) rest m).
Proof.
  unfold set_slot, St. unfold_st. cbn [finsh_vm_stack finsh_sp text_segment finsh_pc memory].
  rewrite <- !app_assoc. cbn [app]. rewrite !length_app, (upd_middle d a _) by (cbn; lia). done.
Qed.

Lemma set_slot_0 text pc d r rest m x :
  set_slot 0 x (St text pc d (r :: rest) m) = Ret (tt, St text pc d (x :: rest) m).
Proof.
  unfold set_slot, St. unfold_st. cbn [finsh_vm_stack finsh_sp text_segment finsh_pc memory].
  rewrite upd_middle by lia. done.
Qed.

Lemma pop_1 text pc d a rest m : add_sp (-1) (St text pc (d ++ [a]) rest m) = Ret (tt, St text pc d (a :: rest) m).
Proof.
  unfold add_sp, modify, St. cbn [finsh_vm_stack finsh_sp text_segment finsh_pc memory]. rewrite <- app_assoc.
  repeat f_equal. rewrite length_app. cbn. lia.
Qed.

Lemma push_1 text pc d a rest m : add_sp 1 (St text pc d (a :: rest) m) = Ret (tt, St text pc (d ++ [a]) rest m).
Proof.
  unfold add_sp, modify, St. cbn [finsh_vm_stack finsh_sp text_segment finsh_pc memory]. rewrite <- app_assoc.
  repeat f_equal. rewrite length_app. cbn. lia.
Qed.

Lemma add_pc_St text pc d rest m n :
  add_pc (Z.of_nat n) (St text pc d rest m) = Ret (tt, St text (pc + n) d rest m).
Proof. unfold add_pc, modify, St. cbn. repeat f_equal. lia. Qed.

(** Bytes, least significant first. *)
Fixpoint number (bs : list Z) : Z := match bs with [] => 0 | b :: bs => b + 256 * number bs end.

Lemma read_at text code : forall pc, at_code text pc code ->
  read_text (length code) text (Z.of_nat pc) = Ret (number code).
Proof.
  induction code as [|c code IH]; intros pc Hc; cbn [length read_text number]; [done|].
  apply at_code_cons in Hc as [Hc Hr]. rewrite (proj2 (idx_Ret _ _ c)) by (rewrite Nat2Z.id; split; [lia|done]).
  cbn [mbind res_bind]. replace (Z.of_nat pc + 1) with (Z.of_nat (S pc)) by lia. by rewrite (IH (S pc) Hr).
Qed.

Lemma immediate_St text pc d rest m code : at_code text pc code ->
  immediate (length code) (St text pc d rest m) = Ret (number code, St text pc d rest m).
Proof. intros Hc. unfold immediate. unfold_st. cbn [text_segment finsh_pc St]. by rewrite read_at. Qed.

(** The loop executes the operation at [pc]. *)
Lemma loop_op k text pc d rest m c code o :
  at_code text pc (c :: code) -> op_table !! Z.to_nat c = Some (Some o) -> 0 <= c ->
  vm_loop (S k) (St text pc d rest m) =
    match o (St text (S pc) d rest m) with Ret (_, s) => vm_loop k s | Err f => Err f end.
Proof.
  intros Hc Ho Hc0. cbn [vm_loop]. assert (Hb := at_code_bound _ _ _ _ Hc).
  rewrite (proj2 (Z.leb_le _ _)), (proj2 (Z.ltb_lt _ _)) by (cbn [finsh_pc St]; lia). cbn [andb].
  unfold vm_step. change 1%nat with (length [c]). rewrite (st_bind_run _ _ _ _ _ (immediate_St text pc d rest m [c]
    (proj1 (at_code_app _ _ [c] _ Hc)))). cbn [number length]. change 1 with (Z.of_nat 1).
  rewrite (st_bind_run _ _ _ _ _ (add_pc_St _ _ _ _ _ _)). replace (pc + 1)%nat with (S pc) by lia.
  replace (c + 256 * 0) with c by lia. unfold mbind at 1, st_bind at 1, lift at 1.
  by rewrite (proj2 (idx_Ret _ _ (Some o))) by done.
Qed.

(** Runs one monadic step of an operation by a rewriting fact. *)
Ltac op_step H := rewrite (st_bind_run _ _ _ _ _ H).

Lemma run_bin k text pc d a b rest m c code w f :
  at_code text pc (c :: code) -> op_table !! Z.to_nat c = Some (Some (OP_BIN w f)) -> 0 <= c ->
  vm_loop (S k) (St text pc (d ++ [a; b]) rest m) =
    match f (value w a) (value w b) with
    | Ret r => vm_loop k (St text (S pc) (d ++ [set_value w a r]) (b :: rest) m)
    | Err e => Err e
    end.
Proof.
  intros Hc Ho Hc0. rewrite (loop_op _ _ _ _ _ _ _ _ _ Hc Ho Hc0). unfold OP_BIN.
  op_step (slot_2 text (S pc) d a b rest m). replace (d ++ [a; b]) with ((d ++ [a]) ++ [b]) by by rewrite <- app_assoc.
  op_step (slot_1 text (S pc) (d ++ [a]) b rest m). rewrite <- app_assoc. cbn [app].
  unfold mbind at 1, st_bind at 1, lift at 1. destruct (f _ _) as [r|]; [|done].
  op_step (set_slot_2 text (S pc) d a b rest m (set_value w a r)).
  replace (d ++ [set_value w a r; b]) with ((d ++ [set_value w a r]) ++ [b]) by by rewrite <- app_assoc.
  by rewrite pop_1.
Qed.

Lemma run_bw k text pc d a rest m c code w :
  at_code text pc (c :: code) -> op_table !! Z.to_nat c = Some (Some (OP_bw w)) -> 0 <= c ->
  vm_loop (S k) (St text pc (d ++ [a]) rest m) =
    vm_loop k (St text (S pc) (d ++ [set_value w a (Z.lnot (value w a))]) rest m).
Proof.
  intros Hc Ho Hc0. rewrite (loop_op _ _ _ _ _ _ _ _ _ Hc Ho Hc0). unfold OP_bw.
  op_step (slot_1 text (S pc) d a rest m). by rewrite set_slot_1.
Qed.

Lemma run_ld k text pc d r rest m c code w :
  at_code text pc (c :: code) -> op_table !! Z.to_nat c = Some (Some (OP_ld w)) -> 0 <= c ->
  length code = size w ->
  vm_loop (S k) (St text pc d (r :: rest) m) =
    vm_loop k (St text (S pc + size w) (d ++ [set_value w r (number code)]) rest m).
Proof.
  intros Hc Ho Hc0 Hl. rewrite (loop_op _ _ _ _ _ _ _ _ _ Hc Ho Hc0). apply at_code_cons in Hc as [_ Hc].
  unfold OP_ld. rewrite <- Hl. op_step (immediate_St text (S pc) d (r :: rest) m code Hc).
  op_step (slot_0 text (S pc) d r rest m). op_step (set_slot_0 text (S pc) d r rest m (set_value w r (number code))).
  op_step (push_1 text (S pc) d (set_value w r (number code)) rest m). by rewrite add_pc_St.
Qed.

Lemma run_ld_value k text pc d r rest m c code w :
  at_code text pc (c :: code) -> op_table !! Z.to_nat c = Some (Some (OP_ld_value w)) -> 0 <= c ->
  length code = 4%nat ->
  vm_loop (S k) (St text pc d (r :: rest) m) =
    match load w (number code) m with
    | Ret v => vm_loop k (St text (S pc + 4) (d ++ [set_value w r v]) rest m)
    | Err e => Err e
    end.
Proof.
  intros Hc Ho Hc0 Hl. rewrite (loop_op _ _ _ _ _ _ _ _ _ Hc Ho Hc0). apply at_code_cons in Hc as [_ Hc].
  unfold OP_ld_value. rewrite <- Hl. op_step (immediate_St text (S pc) d (r :: rest) m code Hc).
  unfold get at 1. op_step (eq_refl (Ret (St text (S pc) d (r :: rest) m, St text (S pc) d (r :: rest) m))).
  unfold mbind at 1, st_bind at 1, lift at 1. cbn [memory St]. destruct (load w _ m) as [v|]; [|done].
  op_step (slot_0 text (S pc) d r rest m). op_step (set_slot_0 text (S pc) d r rest m (set_value w r v)).
  op_step (push_1 text (S pc) d (set_value w r v) rest m). by rewrite Hl, (add_pc_St _ _ _ _ _ 4).
Qed.

Lemma run_ld_value_stack k text pc d a rest m c code w :
  at_code text pc (c :: code) -> op_table !! Z.to_nat c = Some (Some (OP_ld_value_stack w)) -> 0 <= c ->
  vm_loop (S k) (St text pc (d ++ [a]) rest m) =
    match load w (value Dword a) m with
    | Ret v => vm_loop k (St text (S pc) (d ++ [set_value w a v]) rest m)
    | Err e => Err e
    end.
Proof.
  intros Hc Ho Hc0. rewrite (loop_op _ _ _ _ _ _ _ _ _ Hc Ho Hc0). unfold OP_ld_value_stack.
  op_step (slot_1 text (S pc) d a rest m). unfold get at 1, mbind at 1, st_bind at 1.
  unfold mbind at 1, st_bind at 1, lift at 1. cbn [memory St]. destruct (load w _ m) as [v|]; [|done].
  by rewrite set_slot_1.
Qed.

Lemma run_st k text pc d a b rest m c code w :
  at_code text pc (c :: code) -> op_table !! Z.to_nat c = Some (Some (OP_st w)) -> 0 <= c ->
  vm_loop (S k) (St text pc (d ++ [a; b]) rest m) =
    match store w (value Dword a) (value w b) m with
    | Ret m => vm_loop k (St text (S pc) (d ++ [a]) (b :: rest) m)
    | Err e => Err e
    end.
Proof.
  intros Hc Ho Hc0. rewrite (loop_op _ _ _ _ _ _ _ _ _ Hc Ho Hc0). unfold OP_st.
  op_step (slot_2 text (S pc) d a b rest m). replace (d ++ [a; b]) with ((d ++ [a]) ++ [b]) by by rewrite <- app_assoc.
  op_step (slot_1 text (S pc) (d ++ [a]) b rest m). unfold get at 1, mbind at 1, st_bind at 1.
  unfold mbind at 1, st_bind at 1, lift at 1. cbn [memory St]. destruct (store w _ _ m) as [m'|]; [|done].
  op_step (eq_refl (set_memory m' (St text (S pc) ((d ++ [a]) ++ [b]) rest m))).
  change (mkVm _ _ _ _ _) with (St text (S pc) ((d ++ [a]) ++ [b]) rest m'). by rewrite pop_1.
Qed.

Lemma run_pop k text pc d a rest m code :
  at_code text pc (43 :: code) ->
  vm_loop (S k) (St text pc (d ++ [a]) rest m) = vm_loop k (St text (S pc) d (a :: rest) m).
Proof. intros Hc. rewrite (loop_op _ _ _ _ _ _ _ _ OP_pop Hc) by done. unfold OP_pop. by rewrite pop_1. Qed.

Lemma take_params_run text pc d l rest m n : forall acc, (n < length l)%nat ->
  take_params n acc (St text pc (d ++ take n l) (drop n l ++ rest) m) =
    Ret ((u32 <$> take n (tail l)) ++ acc, St text pc d (l ++ rest) m).
Proof.
  induction n as [|n IH]; intros acc Hn; cbn [take_params take drop].
  - by rewrite app_nil_r.
  - destruct (lookup_lt_is_Some_2 l (S n)) as [x Hx]; [lia|]. destruct (lookup_lt_is_Some_2 l n) as [y Hy]; [lia|].
    rewrite (drop_S _ _ _ Hx), (take_S_r _ _ _ Hy). cbn [app].
    op_step (slot_0 text pc (d ++ take n l ++ [y]) x (drop (S (S n)) l ++ rest) m). rewrite app_assoc.
    op_step (pop_1 text pc (d ++ take n l) y (x :: drop (S (S n)) l ++ rest) m).
    change (y :: x :: drop (S (S n)) l ++ rest) with ((y :: x :: drop (S (S n)) l) ++ rest).
    rewrite <- (drop_S _ _ _ Hx), <- (drop_S _ _ _ Hy), IH by lia.
    destruct l as [|z l]; [done|]. cbn [tail]. change (l !! n = Some x) in Hx. rewrite (take_S_r _ _ _ Hx), fmap_app, <- app_assoc. done.
Qed.

Lemma run_call k text pc d f args rest m n code :
  at_code text pc (44 :: n :: code) -> n = Z.of_nat (length args) -> n <= 16 ->
  vm_loop (S k) (St text pc (d ++ f :: args) rest m) =
    match call (u32 f) (if n =? 0 then [0] else u32 <$> args) m with
    | Ret (r, m) => vm_loop k (St text (pc + 2) (d ++ [u32 r]) (args ++ rest) m)
    | Err e => Err e
    end.
Proof.
  intros Hc Hn H16. rewrite (loop_op _ _ _ _ _ _ _ _ OP_call Hc) by done. apply at_code_cons in Hc as [_ Hc].
  unfold OP_call. change 1%nat with (length [n]).
  op_step (immediate_St text (S pc) (d ++ f :: args) rest m [n] (proj1 (at_code_app _ _ [n] _ Hc))).
  cbn [number length]. replace (n + 256 * 0) with n by lia. rewrite (proj2 (Z.ltb_ge 16 n)) by lia.
  op_step (add_pc_St text (S pc) (d ++ f :: args) rest m 1). replace (S pc + 1)%nat with (pc + 2)%nat by lia.
  set (l := f :: args). assert (Hlen : (length args < length l)%nat) by (cbn; lia).
  destruct (lookup_lt_is_Some_2 l (length args)) as [y Hy]; [done|].
  assert (Hl : d ++ l = (d ++ take (length args) l) ++ [y]).
  { rewrite <- app_assoc, <- (take_S_r _ _ _ Hy). by rewrite take_ge by (cbn; lia). }
  rewrite Hl. op_step (pop_1 text (pc + 2) (d ++ take (length args) l) y rest m).
  assert (Hd : y :: rest = drop (length args) l ++ rest).
  { rewrite (drop_S _ _ _ Hy). by rewrite drop_ge by (cbn; lia). }
  rewrite Hd, Hn, Nat2Z.id. op_step (take_params_run text (pc + 2) d l rest m (length args) [] Hlen).
  rewrite app_nil_r. cbn [l tail app]. rewrite (take_ge args) by lia.
  op_step (slot_0 text (pc + 2) d f (args ++ rest) m). unfold get at 1, mbind at 1, st_bind at 1.
  unfold mbind at 1, st_bind at 1, lift at 1. cbn [memory St]. destruct (call _ _ m) as [[r m']|]; [|done].
  cbn [fst snd]. op_step (eq_refl (set_memory m' (St text (pc + 2) d (f :: args ++ rest) m))).
  change (mkVm _ _ _ _ _) with (St text (pc + 2) d (f :: args ++ rest) m').
  op_step (set_slot_0 text (pc + 2) d f (args ++ rest) m' (u32 r)). by rewrite push_1.
Qed.

(** The zeros behind the code are operations without effect. *)
Lemma run_noops n : forall k text pc d rest m, at_code text pc (replicate n 0) ->
  vm_loop (n + k) (St text pc d rest m) = vm_loop k (St text (pc + n) d rest m).
Proof.
  induction n as [|n IH]; intros k text pc d rest m Hc; [by rewrite Nat.add_0_r|].
  cbn [replicate] in Hc. cbn [Nat.add]. rewrite (loop_op _ _ _ _ _ _ _ _ OP_no_op Hc) by done.
  apply at_code_cons in Hc as [_ Hc]. unfold OP_no_op, mret, st_ret. rewrite IH by done.
  by rewrite Nat.add_succ_comm.
Qed.

Lemma run_end k text d rest m : vm_loop k (St text FINSH_TEXT_MAX d rest m) = Ret (St text FINSH_TEXT_MAX d rest m).
Proof. destruct k; done. Qed.
End steps.

(** ** Memory accesses *)

Section accesses.
Context `{Mc : Machine}.

Lemma mem_insert (m : mem) a v : <[a := v]> m a = v.
Proof. apply (fn_lookup_insert (m : Z -> Z)). Qed.

Lemma store_other n b : forall a v m m', store_bytes n a v m = Ret m' ->
  (forall i, 0 <= i < Z.of_nat n -> u32 (a + i) <> b) -> m' b = m b.
Proof.
  induction n as [|n IH]; intros a v m m'; cbn [store_bytes]; [by intros [= ->]|].
  intros Hs Hb. destruct (valid _) eqn:Hv; [|done]. rewrite (IH _ _ _ _ Hs).
  - apply fn_lookup_insert_ne. specialize (Hb 0). rewrite Z.add_0_r in Hb. apply Hb. lia.
  - intros i Hi. replace (a + 1 + i) with (a + (1 + i)) by lia. apply Hb. lia.
Qed.

(** What is read back after a store. *)
Lemma load_store n : forall a v m m', (n <= 4)%nat -> store_bytes n a v m = Ret m' ->
  load_bytes n a m' = Ret (v mod 256 ^ Z.of_nat n).
Proof.
  induction n as [|n IH]; intros a v m m' Hn; cbn [store_bytes load_bytes]; [intros _; by rewrite Z.mod_1_r|].
  intros Hs. destruct (valid _) eqn:Hv; [|done]. rewrite (IH _ _ _ _ ltac:(lia) Hs). cbn [mbind res_bind mret res_ret].
  rewrite (store_other _ (u32 a) _ _ _ _ Hs), mem_insert.
  - f_equal. rewrite Nat2Z.inj_succ, Z.pow_succ_r by lia. rewrite (Z.mul_comm 256), Z.mul_comm.
    rewrite Z.rem_mul_r by (try apply Z.pow_pos_nonneg; lia). wrap_lia.
  - intros i Hi. wrap_lia.
Qed.

Lemma value_load w v : value w (v mod 256 ^ Z.of_nat (size w)) = value w v.
Proof.
  destruct w; cbn [value size]; change (256 ^ _) with (2 ^ 8) || change (256 ^ _) with (2 ^ 16) || change (256 ^ _) with (2 ^ 32).
  - apply wrap_wrap.
  - apply (swrap_wrap 16).
  - apply (swrap_wrap 32).
Qed.

Lemma size_le w : (size w <= 4)%nat.
Proof. destruct w; cbn; lia. Qed.

Lemma load_stored w a v m m' : store w a v m = Ret m' -> exists x, load w a m' = Ret x /\ value w x = value w v.
Proof.
  intros Hs. eexists. split; [apply (load_store _ _ _ _ _ (size_le w) Hs)|]. apply value_load.
Qed.

(** The low bytes of a longer load are those of a shorter one. *)
Lemma load_prefix j n : forall a m x, (j <= n)%nat -> load_bytes n a m = Ret x ->
  load_bytes j a m = Ret (x mod 256 ^ Z.of_nat j).
Proof.
  revert n. induction j as [|j IH]; intros n a m x Hj Hl; cbn [load_bytes]; [by rewrite Z.mod_1_r|].
  destruct n as [|n]; [lia|]. cbn [load_bytes] in Hl. destruct (valid _) eqn:Hv; [|done].
  apply bind_Ret in Hl as (h & Hh & [= <-]). rewrite (IH n (a + 1) m h) by (lia || done).
  cbn [mbind res_bind mret res_ret]. f_equal. rewrite Nat2Z.inj_succ, Z.pow_succ_r by lia.
  rewrite Z.rem_mul_r by (try apply Z.pow_pos_nonneg; lia). set (b := u8 _).
  assert (Hb : 0 <= b < 256) by (subst b; wrap_lia). replace ((b + 256 * h) / 256) with h by (Z.div_mod_to_equations; lia).
  replace ((b + 256 * h) mod 256) with b by (Z.div_mod_to_equations; lia). done.
Qed.

Lemma load_low w a m x : load Dword a m = Ret x -> exists y, load w a m = Ret y /\ value w y = value w x.
Proof.
  intros Hl. eexists. split; [apply (load_prefix _ _ _ _ _ (size_le w) Hl)|]. apply value_load.
Qed.

Lemma load_valid n m : forall a, (forall i, 0 <= i < Z.of_nat n -> valid (u32 (a + i)) = true) ->
  exists x, load_bytes n a m = Ret x.
Proof.
  induction n as [|n IH]; intros a Ha; cbn [load_bytes]; [by exists 0|].
  assert (H0 := Ha 0 ltac:(lia)). rewrite Z.add_0_r in H0. rewrite H0. destruct (IH (a + 1)) as [h ->]; [|by eexists].
  intros i Hi. replace (a + 1 + i) with (a + (1 + i)) by lia. apply Ha. lia.
Qed.
End accesses.

(** ** Properties *)

(** C20: the virtual machine stops: whatever bytes the text segment holds, the run
    ends after at most 128 operations, with a result or a fault, provided the
    functions it calls return. *)
Theorem finsh_vm_halts `{Machine} stack text m :
  (forall f args m, call f args m <> Err OutOfFuel) ->
  finsh_vm_run stack text m <> Err OutOfFuel /\
  forall k, vm_loop (FINSH_TEXT_MAX + k) (start stack text m) = finsh_vm_run stack text m.
Proof.
  intros Hcall. assert (Hh : vm_loop FINSH_TEXT_MAX (start stack text m) <> Err OutOfFuel).
  { apply loop_halts; [exact Hcall| |]; unfold start, FINSH_TEXT_MAX; cbn [finsh_pc]; lia. }
  split; [exact Hh|]. intros k. exact (loop_more _ _ _ Hh).
Qed.

(** ** Witnesses *)

(** A machine with a megabyte of memory at address 0 and one function, which
    adds its arguments. *)
#[global] Instance demo : Machine := {|
  valid := fun a => (0 <=? a) && (a <? 2 ^ 20);
  global_variable := 4096;
  call := fun f args m => if f =? 64 then Ret (foldr Z.add 0 args, m) else Err NullDeref
|}.

Lemma finsh_vm_halts_witness :
  finsh_vm_run (replicate 64 0) (replicate 128 255) (fun _ => 0) <> Err OutOfFuel /\
  forall k, vm_loop (FINSH_TEXT_MAX + k) (start (replicate 64 0) (replicate 128 255) (fun _ => 0)) =
    finsh_vm_run (replicate 64 0) (replicate 128 255) (fun _ => 0).
Proof. apply finsh_vm_halts. intros f args m. cbn. by destruct (f =? 64). Defined.
