(* ===== verification/FinshNode.v ===== *)
(** * The nodes of the shell's syntax trees

    RTT/components/finsh/finsh_node.c and finsh_node.h: the pool of sixteen nodes
    and the functions that make leaves.  A node owns its child and its sibling,
    so a tree is a value; of the pool only the kinds matter (an entry is free
    while its kind is [FINSH_NODE_UNKNOWN]).  The heap for strings comes through
    the class [StringHeap]. *)

From S2P Require Import Prelude FinshVm FinshSym.

(** [node_type] *)
Inductive node_kind :=
  | FINSH_NODE_UNKNOWN | FINSH_NODE_ID
  | FINSH_NODE_VALUE_CHAR | FINSH_NODE_VALUE_INT | FINSH_NODE_VALUE_LONG
  | FINSH_NODE_VALUE_STRING | FINSH_NODE_VALUE_NULL
  | FINSH_NODE_SYS_ADD | FINSH_NODE_SYS_SUB | FINSH_NODE_SYS_MUL | FINSH_NODE_SYS_DIV
  | FINSH_NODE_SYS_MOD | FINSH_NODE_SYS_AND | FINSH_NODE_SYS_OR | FINSH_NODE_SYS_XOR
  | FINSH_NODE_SYS_BITWISE | FINSH_NODE_SYS_SHL | FINSH_NODE_SYS_SHR
  | FINSH_NODE_SYS_FUNC | FINSH_NODE_SYS_ASSIGN | FINSH_NODE_SYS_CAST
  | FINSH_NODE_SYS_PREINC | FINSH_NODE_SYS_PREDEC | FINSH_NODE_SYS_INC | FINSH_NODE_SYS_DEC
  | FINSH_NODE_SYS_GETVALUE | FINSH_NODE_SYS_GETADDR | FINSH_NODE_SYS_NULL.

#[global] Instance node_kind_eq_dec : EqDecision node_kind.
Proof. solve_decision. Defined.

(** [data_type] *)
Definition FINSH_DATA_TYPE_VOID : Z := 0.
Definition FINSH_DATA_TYPE_BYTE : Z := 1.
Definition FINSH_DATA_TYPE_WORD : Z := 2.
Definition FINSH_DATA_TYPE_DWORD : Z := 3.

(** [idtype] *)
Definition FINSH_NODE_VALUE : Z := 0.
Definition FINSH_IDTYPE_VAR : Z := 1.
Definition FINSH_IDTYPE_SYSVAR : Z := 2.
Definition FINSH_IDTYPE_SYSCALL : Z := 4.
Definition FINSH_IDTYPE_ADDRESS : Z := 8.

(** [enum finsh_type] *)
Definition finsh_type_void : Z := 1.
Definition finsh_type_voidp : Z := 2.
Definition finsh_type_char : Z := 3.
Definition finsh_type_uchar : Z := 4.
Definition finsh_type_charp : Z := 5.
Definition finsh_type_short : Z := 6.
Definition finsh_type_ushort : Z := 7.
Definition finsh_type_shortp : Z := 8.
Definition finsh_type_int : Z := 9.
Definition finsh_type_uint : Z := 10.
Definition finsh_type_intp : Z := 11.
Definition finsh_type_long : Z := 12.
Definition finsh_type_ulong : Z := 13.
Definition finsh_type_longp : Z := 14.

(** Error codes *)
Definition FINSH_ERROR_OK : Z := 0.
Definition FINSH_ERROR_INVALID_TOKEN : Z := 1.
Definition FINSH_ERROR_EXPECT_TYPE : Z := 2.
Definition FINSH_ERROR_UNKNOWN_TYPE : Z := 3.
Definition FINSH_ERROR_VARIABLE_EXIST : Z := 4.
Definition FINSH_ERROR_EXPECT_OPERATOR : Z := 5.
Definition FINSH_ERROR_MEMORY_FULL : Z := 6.
Definition FINSH_ERROR_UNKNOWN_NODE : Z := 8.
Definition FINSH_ERROR_EXPECT_CHAR : Z := 9.
Definition FINSH_ERROR_UNEXPECT_END : Z := 10.
Definition FINSH_ERROR_UNKNOWN_TOKEN : Z := 11.
Definition FINSH_ERROR_UNKNOWN_SYMBOL : Z := 13.
Definition FINSH_ERROR_NULL_NODE : Z := 14.

(** What the member [id] points to: an entry of [global_variable], a
    [struct finsh_sysvar] or a [struct finsh_syscall] (at the address [self]). *)
Inductive ident :=
  | NoId
  | IdVar (i : Z)
  | IdSysvar (self type var : Z)
  | IdSyscall (self func : Z).

(** [struct finsh_node]; [word] is the union [value] as a 32-bit word. *)
Inductive node := mkNode {
  node_type : node_kind;
  data_type : Z;
  idtype : Z;
  word : Z;
  id : ident;
  sibling : option node;
  child : option node
}.

(** An entry of the pool after [finsh_node_allocate]: the pool was cleared. *)
Definition new_node (k : node_kind) : node := mkNode k 0 0 0 NoId None None.

Definition set_data_type (t : Z) (n : node) : node :=
  mkNode (node_type n) t (idtype n) (word n) (id n) (sibling n) (child n).
Definition set_sibling (s : option node) (n : node) : node :=
  mkNode (node_type n) (data_type n) (idtype n) (word n) (id n) s (child n).
Definition set_child (c : option node) (n : node) : node :=
  mkNode (node_type n) (data_type n) (idtype n) (word n) (id n) (sibling n) c.
Definition set_word (v : Z) (n : node) : node :=
  mkNode (node_type n) (data_type n) (idtype n) v (id n) (sibling n) (child n).
Definition set_id (t : Z) (i : ident) (n : node) : node :=
  mkNode (node_type n) (data_type n) t (word n) i (sibling n) (child n).

(** The number of nodes in a tree, siblings included. *)
Fixpoint count (n : node) : nat :=
  match n with
  | mkNode _ _ _ _ _ s c =>
      S (match c with Some c => count c | None => O end + match s with Some s => count s | None => O end)
  end.

(** ** The shell's data *)

(** The heap for strings: an address, 0 when there is no memory, and the memory
    afterwards, for the new block is cleared.  The collector looks at the
    variables. *)
Class StringHeap (H : Type) := {
  heap_allocate : Z -> list finsh_var -> mem -> H -> res (Z * H * mem)
}.

Definition FINSH_NODE_MAX : nat := 16.

(** System variables and functions: the names, and what the entries hold. *)
Record tables := mkTables {
  sysvars : symbols;
  sysvar_entry : Z -> Z * Z * Z;        (**r address, type, [var] *)
  syscalls : symbols;
  syscall_entry : Z -> Z * Z            (**r address, [func] *)
}.

Record globals (H : Type) := mkGlobals {
  global_node_table : list node_kind;
  global_errno : Z;
  variables : list finsh_var;
  heap : H;
  heap_bytes : mem
}.
Arguments mkGlobals {H}.
Arguments global_node_table {H}.
Arguments global_errno {H}.
Arguments variables {H}.
Arguments heap {H}.
Arguments heap_bytes {H}.

Definition finsh_node_init : list node_kind := replicate FINSH_NODE_MAX FINSH_NODE_UNKNOWN.

(** The search for a free entry. *)
Fixpoint free_entry (t : list node_kind) : option nat :=
  match t with
  | [] => None
  | k :: t => if decide (k = FINSH_NODE_UNKNOWN) then Some O else S <$> free_entry t
  end.

Section nodes.
Context {H : Type} `{StringHeap H}.

Definition finsh_error_set (e : Z) : ST (globals H) unit :=
  modify (fun g => mkGlobals (global_node_table g) e (variables g) (heap g) (heap_bytes g)).

Definition set_heap (h : H) (m : mem) : ST (globals H) unit :=
  modify (fun g => mkGlobals (global_node_table g) (global_errno g) (variables g) h m).

Definition finsh_node_allocate (k : node_kind) : ST (globals H) (option node) :=
  g ← get;
  match free_entry (global_node_table g) with
  | None => mret None
  | Some i =>
      _ ← put (mkGlobals (<[i := k]> (global_node_table g)) (global_errno g) (variables g) (heap g) (heap_bytes g));
      mret (Some (new_node k))
  end.

(** Allocates a node and fills it; without a free node, memory is full. *)
Definition new_filled (k : node_kind) (fill : node -> ST (globals H) node) : ST (globals H) (option node) :=
  n ← finsh_node_allocate k;
  match n with
  | None => _ ← finsh_error_set FINSH_ERROR_MEMORY_FULL; mret None
  | Some n => n ← fill n; mret (Some n)
  end.

Definition finsh_node_new_char (c : Z) : ST (globals H) (option node) :=
  new_filled FINSH_NODE_VALUE_CHAR (fun n => mret (set_word (u8 c) n)).
Definition finsh_node_new_int (i : Z) : ST (globals H) (option node) :=
  new_filled FINSH_NODE_VALUE_INT (fun n => mret (set_word (u32 i) n)).
Definition finsh_node_new_long (l : Z) : ST (globals H) (option node) :=
  new_filled FINSH_NODE_VALUE_LONG (fun n => mret (set_word (u32 l) n)).
Definition finsh_node_new_ptr (p : Z) : ST (globals H) (option node) :=
  new_filled FINSH_NODE_VALUE_NULL (fun n => mret (set_word (u32 p) n)).

(** Bytes written one after the other. *)
Fixpoint write_bytes (a : Z) (bs : list Z) (m : mem) : mem :=
  match bs with [] => m | b :: bs => write_bytes (a + 1) bs (<[u32 a := u8 b]> m) end.

(** The result of the allocation is not checked; writing through a null
    pointer is a fault. *)
Definition finsh_node_new_string (s : list Z) : ST (globals H) (option node) :=
  new_filled FINSH_NODE_VALUE_STRING (fun n =>
    g ← get;
    t ← lift (cstr s);
    r ← lift (heap_allocate (Z.of_nat (length t) + 1) (variables g) (heap_bytes g) (heap g));
    let '(p, h, m) := r in
    if p =? 0 then lift (Err NullDeref)
    else _ ← set_heap h (write_bytes p (t ++ [0]) m); mret (set_word p n)).

(** [finsh_node_new_id]. *)
Definition finsh_node_new_id (T : tables) (nm : list Z) : ST (globals H) (option node) :=
  g ← get;
  r ← lift (resolve nm (variables g) (sysvars T) (syscalls T));
  match r with
  | Unknown => _ ← finsh_error_set FINSH_ERROR_UNKNOWN_SYMBOL; mret None
  | Var i => new_filled FINSH_NODE_ID (fun n => mret (set_id FINSH_IDTYPE_VAR (IdVar i) n))
  | SysVar i =>
      let '(self, ty, var) := sysvar_entry T i in
      new_filled FINSH_NODE_ID (fun n => mret (set_id FINSH_IDTYPE_SYSVAR (IdSysvar self ty var) n))
  | SysCall i =>
      let '(self, func) := syscall_entry T i in
      new_filled FINSH_NODE_ID (fun n => mret (set_id FINSH_IDTYPE_SYSCALL (IdSyscall self func) n))
  end.

(** [make_sys_node] of finsh_parser.c. *)
Definition make_sys_node (k : node_kind) (node1 node2 : option node) : ST (globals H) (option node) :=
  n ← finsh_node_allocate k;
  match node1, n with
  | Some n1, Some n => mret (Some (set_child (Some (set_sibling node2 n1)) n))
  | _, _ => _ ← finsh_error_set FINSH_ERROR_NULL_NODE; mret n
  end.
End nodes.
