(* ===== verification/FinshCompiler.v ===== *)
(** * The shell's code generator

    RTT/components/finsh/finsh_compiler.c: [finsh_type_check], which writes the
    data type and the address flag into every node, and [finsh_compile], which
    emits the code of [FinshVm]. *)

From S2P Require Import Prelude FinshSym FinshVm FinshNode.

(** ** Operations (finsh_ops.h) *)
Definition FINSH_OP_ADD_BYTE : Z := 1.
Definition FINSH_OP_ADD_WORD : Z := 2.
Definition FINSH_OP_ADD_DWORD : Z := 3.
Definition FINSH_OP_SUB_BYTE : Z := 4.
Definition FINSH_OP_SUB_WORD : Z := 5.
Definition FINSH_OP_SUB_DWORD : Z := 6.
Definition FINSH_OP_DIV_BYTE : Z := 7.
Definition FINSH_OP_MOD_BYTE : Z := 10.
Definition FINSH_OP_MUL_BYTE : Z := 13.
Definition FINSH_OP_AND_BYTE : Z := 16.
Definition FINSH_OP_OR_BYTE : Z := 19.
Definition FINSH_OP_XOR_BYTE : Z := 22.
Definition FINSH_OP_BITWISE_BYTE : Z := 25.
Definition FINSH_OP_SHL_BYTE : Z := 28.
Definition FINSH_OP_SHR_BYTE : Z := 31.
Definition FINSH_OP_LD_BYTE : Z := 34.
Definition FINSH_OP_LD_WORD : Z := 35.
Definition FINSH_OP_LD_DWORD : Z := 36.
Definition FINSH_OP_LD_VALUE_BYTE : Z := 37.
Definition FINSH_OP_LD_VALUE_WORD : Z := 38.
Definition FINSH_OP_LD_VALUE_DWORD : Z := 39.
Definition FINSH_OP_ST_BYTE : Z := 40.
Definition FINSH_OP_ST_WORD : Z := 41.
Definition FINSH_OP_ST_DWORD : Z := 42.
Definition FINSH_OP_POP : Z := 43.
Definition FINSH_OP_SYSCALL : Z := 44.
Definition FINSH_OP_LD_VALUE_BYTE_STACK : Z := 45.
Definition FINSH_OP_LD_VALUE_WORD_STACK : Z := 46.
Definition FINSH_OP_LD_VALUE_DWORD_STACK : Z := 47.

(** ** Emitting code *)

(** The text segment, [finsh_compile_pc] and the error number. *)
Record cstate := mkC { text : list Z; finsh_compile_pc : Z; errno : Z }.

Definition emit : Type := ST cstate unit.

Definition finsh_code_byte (x : Z) : emit :=
  s ← get;
  t ← lift (upd (text s) (finsh_compile_pc s) (u8 x));
  put (mkC t (finsh_compile_pc s + 1) (errno s)).

(** [FINSH_SET16] and [FINSH_SET32]. *)
Definition set16 (v : Z) : list Z := [Z.land v 255; u8 (Z.shiftr v 8)].
Definition set32 (v : Z) : list Z :=
  [Z.land (u32 v) 255; Z.land (Z.shiftr (u32 v) 8) 255; Z.land (Z.shiftr (u32 v) 16) 255; Z.shiftr (u32 v) 24].

Fixpoint code_bytes (bs : list Z) : emit :=
  match bs with [] => mret tt | b :: bs => _ ← finsh_code_byte b; code_bytes bs end.

Definition finsh_code_word (x : Z) : emit := code_bytes (set16 x).
Definition finsh_code_dword (x : Z) : emit := code_bytes (set32 x).

#[global] Arguments set16 : simpl never.
#[global] Arguments set32 : simpl never.
#[global] Arguments finsh_code_word : simpl never.
#[global] Arguments finsh_code_dword : simpl never.

Definition set_errno (e : Z) : emit := modify (fun s => mkC (text s) (finsh_compile_pc s) e).

(** ** Compiling a node *)

Section compiler.
Context `{Machine}.
Context (vars : list finsh_var).

(** [&var->value] for an entry of [global_variable] of 24 bytes. *)
Definition var_value (i : Z) : Z := global_variable + 24 * i + 20.

(** The same expression for whatever the member [id] points to. *)
Definition id_var_value (i : ident) : Z :=
  match i with
  | NoId => 20
  | IdVar i => var_value i
  | IdSysvar self _ _ => self + 20
  | IdSyscall self _ => self + 20
  end.

Definition has (flags f : Z) : bool := negb (Z.land flags f =? 0).

(** The switch on the type of a variable: its address or its value. *)
Definition compile_load (ty addr it : Z) : emit :=
  if (ty =? finsh_type_char) || (ty =? finsh_type_uchar) then
    _ ← finsh_code_byte (if has it FINSH_IDTYPE_ADDRESS then FINSH_OP_LD_DWORD else FINSH_OP_LD_VALUE_BYTE);
    finsh_code_dword addr
  else if (ty =? finsh_type_short) || (ty =? finsh_type_ushort) then
    _ ← finsh_code_byte (if has it FINSH_IDTYPE_ADDRESS then FINSH_OP_LD_DWORD else FINSH_OP_LD_VALUE_WORD);
    finsh_code_dword addr
  else if (ty =? finsh_type_int) || (ty =? finsh_type_uint) || (ty =? finsh_type_long) || (ty =? finsh_type_ulong)
       || (ty =? finsh_type_charp) || (ty =? finsh_type_shortp) || (ty =? finsh_type_intp) || (ty =? finsh_type_longp) then
    _ ← finsh_code_byte (if has it FINSH_IDTYPE_ADDRESS then FINSH_OP_LD_DWORD else FINSH_OP_LD_VALUE_DWORD);
    finsh_code_dword addr
  else mret tt.

(** [FINSH_NODE_ID]; a pointer taken for one to another structure is a fault. *)
Definition compile_id (n : node) : emit :=
  if has (idtype n) FINSH_IDTYPE_SYSCALL then
    match id n with
    | IdSyscall _ func => _ ← finsh_code_byte FINSH_OP_LD_DWORD; finsh_code_dword func
    | _ => lift (Err NullDeref)
    end
  else if has (idtype n) FINSH_IDTYPE_SYSVAR then
    match id n with
    | IdSysvar _ ty var => compile_load ty var (idtype n)
    | NoId => mret tt
    | _ => lift (Err NullDeref)
    end
  else
    match id n with
    | IdVar i => v ← lift (idx vars i); compile_load (type v) (var_value i) (idtype n)
    | NoId => mret tt
    | _ => lift (Err NullDeref)
    end.

(** Constants *)
Definition compile_const (n : node) : emit :=
  match node_type n with
  | FINSH_NODE_VALUE_CHAR => _ ← finsh_code_byte FINSH_OP_LD_BYTE; finsh_code_byte (u8 (word n))
  | _ => _ ← finsh_code_byte FINSH_OP_LD_DWORD; finsh_code_dword (word n)
  end.

(** The three operations of an operator are consecutive. *)
Definition code_by_type (dt op : Z) : emit :=
  if dt =? FINSH_DATA_TYPE_BYTE then finsh_code_byte op
  else if dt =? FINSH_DATA_TYPE_WORD then finsh_code_byte (op + 1)
  else if dt =? FINSH_DATA_TYPE_DWORD then finsh_code_byte (op + 2)
  else mret tt.

Definition operator_code (k : node_kind) : option Z :=
  match k with
  | FINSH_NODE_SYS_ADD => Some FINSH_OP_ADD_BYTE
  | FINSH_NODE_SYS_SUB => Some FINSH_OP_SUB_BYTE
  | FINSH_NODE_SYS_MUL => Some FINSH_OP_MUL_BYTE
  | FINSH_NODE_SYS_DIV => Some FINSH_OP_DIV_BYTE
  | FINSH_NODE_SYS_MOD => Some FINSH_OP_MOD_BYTE
  | FINSH_NODE_SYS_AND => Some FINSH_OP_AND_BYTE
  | FINSH_NODE_SYS_OR => Some FINSH_OP_OR_BYTE
  | FINSH_NODE_SYS_XOR => Some FINSH_OP_XOR_BYTE
  | FINSH_NODE_SYS_BITWISE => Some FINSH_OP_BITWISE_BYTE
  | FINSH_NODE_SYS_SHL => Some FINSH_OP_SHL_BYTE
  | FINSH_NODE_SYS_SHR => Some FINSH_OP_SHR_BYTE
  | _ => None
  end.

(** The number of siblings behind a node. *)
Fixpoint siblings (n : node) : Z :=
  match n with mkNode _ _ _ _ _ s _ => match s with Some s => 1 + siblings s | None => 0 end end.

Definition compile_func (n : node) : emit :=
  match child n with
  | None => lift (Err NullDeref)
  | Some c => _ ← finsh_code_byte FINSH_OP_SYSCALL; finsh_code_byte (siblings c)
  end.

(** Store and load the value again. *)
Definition compile_store (dt : Z) : emit :=
  if dt =? FINSH_DATA_TYPE_BYTE then
    _ ← finsh_code_byte FINSH_OP_ST_BYTE; finsh_code_byte FINSH_OP_LD_VALUE_BYTE_STACK
  else if dt =? FINSH_DATA_TYPE_WORD then
    _ ← finsh_code_byte FINSH_OP_ST_WORD; finsh_code_byte FINSH_OP_LD_VALUE_WORD_STACK
  else if dt =? FINSH_DATA_TYPE_DWORD then
    _ ← finsh_code_byte FINSH_OP_ST_DWORD; finsh_code_byte FINSH_OP_LD_VALUE_DWORD_STACK
  else set_errno FINSH_ERROR_UNKNOWN_TYPE.

Definition compile_assign (n : node) : emit :=
  match child n with
  | None => lift (Err NullDeref)
  | Some c =>
      match node_type c with
      | FINSH_NODE_ID => compile_store (data_type c)
      | FINSH_NODE_SYS_GETVALUE => compile_store (Z.land (data_type c) 15)
      | _ => mret tt
      end
  end.

(** [++id] and [--id]: [op] is the operation on bytes. *)
Definition compile_pre (op : Z) (n : node) : emit :=
  match child n with
  | None => lift (Err NullDeref)
  | Some c =>
      match node_type c with
      | FINSH_NODE_ID =>
          let a := id_var_value (id c) in
          if data_type n =? FINSH_DATA_TYPE_BYTE then
            _ ← finsh_code_byte FINSH_OP_LD_VALUE_BYTE; _ ← finsh_code_dword a;
            _ ← finsh_code_byte FINSH_OP_LD_BYTE; _ ← finsh_code_byte 1;
            _ ← finsh_code_byte op; _ ← finsh_code_byte FINSH_OP_ST_BYTE;
            finsh_code_byte FINSH_OP_LD_VALUE_DWORD_STACK
          else if data_type n =? FINSH_DATA_TYPE_WORD then
            _ ← finsh_code_byte FINSH_OP_LD_VALUE_WORD; _ ← finsh_code_dword a;
            _ ← finsh_code_byte FINSH_OP_LD_WORD; _ ← finsh_code_word 1;
            _ ← finsh_code_byte (op + 1); _ ← finsh_code_byte FINSH_OP_ST_WORD;
            finsh_code_byte FINSH_OP_LD_VALUE_DWORD_STACK
          else if data_type n =? FINSH_DATA_TYPE_DWORD then
            _ ← finsh_code_byte FINSH_OP_LD_VALUE_DWORD; _ ← finsh_code_dword a;
            _ ← finsh_code_byte FINSH_OP_LD_DWORD; _ ← finsh_code_dword 1;
            _ ← finsh_code_byte (op + 2); _ ← finsh_code_byte FINSH_OP_ST_DWORD;
            finsh_code_byte FINSH_OP_LD_VALUE_DWORD_STACK
          else mret tt
      | _ => mret tt
      end
  end.

Definition compile_preinc : node -> emit := compile_pre FINSH_OP_ADD_BYTE.
Definition compile_predec : node -> emit := compile_pre FINSH_OP_SUB_BYTE.

(** [id++] and [id--]. *)
Definition compile_post (op : Z) (n : node) : emit :=
  match child n with
  | None => lift (Err NullDeref)
  | Some c =>
      match node_type c with
      | FINSH_NODE_ID =>
          let a := id_var_value (id c) in
          if data_type n =? FINSH_DATA_TYPE_BYTE then
            _ ← finsh_code_byte FINSH_OP_LD_DWORD; _ ← finsh_code_dword a;
            _ ← finsh_code_byte FINSH_OP_LD_VALUE_BYTE; _ ← finsh_code_dword a;
            _ ← finsh_code_byte FINSH_OP_LD_BYTE; _ ← finsh_code_byte 1;
            _ ← finsh_code_byte op; _ ← finsh_code_byte FINSH_OP_ST_BYTE;
            finsh_code_byte FINSH_OP_POP
          else if data_type n =? FINSH_DATA_TYPE_WORD then
            _ ← finsh_code_byte FINSH_OP_LD_DWORD; _ ← finsh_code_dword a;
            _ ← finsh_code_byte FINSH_OP_LD_VALUE_WORD; _ ← finsh_code_dword a;
            _ ← finsh_code_byte FINSH_OP_LD_WORD; _ ← finsh_code_word 1;
            _ ← finsh_code_byte (op + 1); _ ← finsh_code_byte FINSH_OP_ST_WORD;
            finsh_code_byte FINSH_OP_POP
          else if data_type n =? FINSH_DATA_TYPE_DWORD then
            _ ← finsh_code_byte FINSH_OP_LD_DWORD; _ ← finsh_code_dword a;
            _ ← finsh_code_byte FINSH_OP_LD_VALUE_DWORD; _ ← finsh_code_dword a;
            _ ← finsh_code_byte FINSH_OP_LD_DWORD; _ ← finsh_code_dword 1;
            _ ← finsh_code_byte (op + 2); _ ← finsh_code_byte FINSH_OP_ST_DWORD;
            finsh_code_byte FINSH_OP_POP
          else mret tt
      | _ => mret tt
      end
  end.

Definition compile_inc : node -> emit := compile_post FINSH_OP_ADD_BYTE.
Definition compile_dec : node -> emit := compile_post FINSH_OP_SUB_BYTE.

Definition compile_getvalue (n : node) : emit :=
  if has (idtype n) FINSH_IDTYPE_ADDRESS then mret tt
  else code_by_type (data_type n) FINSH_OP_LD_VALUE_BYTE_STACK.

(** The switch on the kind of the node. *)
Definition compile_node (n : node) : emit :=
  match node_type n with
  | FINSH_NODE_ID => compile_id n
  | FINSH_NODE_VALUE_CHAR | FINSH_NODE_VALUE_INT | FINSH_NODE_VALUE_LONG
  | FINSH_NODE_VALUE_STRING | FINSH_NODE_VALUE_NULL => compile_const n
  | FINSH_NODE_SYS_FUNC => compile_func n
  | FINSH_NODE_SYS_ASSIGN => compile_assign n
  | FINSH_NODE_SYS_PREINC => compile_preinc n
  | FINSH_NODE_SYS_PREDEC => compile_predec n
  | FINSH_NODE_SYS_INC => compile_inc n
  | FINSH_NODE_SYS_DEC => compile_dec n
  | FINSH_NODE_SYS_NULL => finsh_code_dword 0
  | FINSH_NODE_SYS_GETVALUE => compile_getvalue n
  | FINSH_NODE_SYS_GETADDR => mret tt
  | k =>
      match operator_code k with
      | Some op => code_by_type (data_type n) op
      | None => set_errno FINSH_ERROR_UNKNOWN_NODE
      end
  end.

(** Child, node, sibling. *)
Fixpoint finsh_compile (n : node) : emit :=
  match n with
  | mkNode k dt it w i s c =>
      _ ← match c with Some c => finsh_compile c | None => mret tt end;
      _ ← compile_node (mkNode k dt it w i s c);
      match s with Some s => finsh_compile s | None => mret tt end
  end.

(** ** Data types *)

(** The switch on the type of a variable; [None]: unknown. *)
Definition data_type_of (ty : Z) : option Z :=
  if ty =? finsh_type_void then Some FINSH_DATA_TYPE_VOID
  else if (ty =? finsh_type_char) || (ty =? finsh_type_uchar) then Some FINSH_DATA_TYPE_BYTE
  else if (ty =? finsh_type_short) || (ty =? finsh_type_ushort) then Some FINSH_DATA_TYPE_WORD
  else if (ty =? finsh_type_int) || (ty =? finsh_type_uint) || (ty =? finsh_type_long) || (ty =? finsh_type_ulong)
  then Some FINSH_DATA_TYPE_DWORD
  else if (ty =? finsh_type_charp) || (ty =? finsh_type_voidp) || (ty =? finsh_type_shortp) || (ty =? finsh_type_intp)
       || (ty =? finsh_type_longp) then Some FINSH_DATA_TYPE_DWORD
  else None.

Definition check_type (ty dt : Z) : ST Z Z :=
  match data_type_of ty with
  | Some dt => mret dt
  | None => _ ← put FINSH_ERROR_UNKNOWN_TYPE; mret dt
  end.

(** The data type of a node without a child. *)
Definition leaf_type (k : node_kind) (dt it : Z) (i : ident) : ST Z Z :=
  match k with
  | FINSH_NODE_ID =>
      if has it FINSH_IDTYPE_VAR then
        match i with
        | IdVar i => v ← lift (idx vars i); check_type (type v) dt
        | NoId => mret dt
        | _ => lift (Err NullDeref)
        end
      else if has it FINSH_IDTYPE_SYSVAR then
        match i with
        | IdSysvar _ ty _ => check_type ty dt
        | NoId => mret dt
        | _ => lift (Err NullDeref)
        end
      else mret dt
  | FINSH_NODE_VALUE_CHAR => mret FINSH_DATA_TYPE_BYTE
  | FINSH_NODE_VALUE_INT | FINSH_NODE_VALUE_LONG | FINSH_NODE_VALUE_STRING | FINSH_NODE_VALUE_NULL =>
      mret FINSH_DATA_TYPE_DWORD
  | _ => mret dt
  end.

(** The flag passed to the child. *)
Definition child_flag (k : node_kind) (is_addr : Z) : Z :=
  match k with
  | FINSH_NODE_SYS_ASSIGN | FINSH_NODE_SYS_PREINC | FINSH_NODE_SYS_PREDEC | FINSH_NODE_SYS_GETADDR =>
      FINSH_IDTYPE_ADDRESS
  | FINSH_NODE_SYS_GETVALUE => if is_addr =? 0 then is_addr else 0
  | _ => is_addr
  end.

Fixpoint finsh_type_check (n : node) (is_addr : Z) : ST Z node :=
  match n with
  | mkNode k dt it w i s c =>
      c ← match c with
          | Some c => c ← finsh_type_check c (child_flag k is_addr); mret (Some c)
          | None => mret None
          end;
      s ← match s with
          | Some s => s ← finsh_type_check s FINSH_NODE_VALUE; mret (Some s)
          | None => mret None
          end;
      let it := if it =? FINSH_IDTYPE_SYSCALL then it else Z.lor it is_addr in
      match c with
      | Some c' => mret (mkNode k (data_type c') it w i s c)
      | None => dt ← leaf_type k dt it i; mret (mkNode k dt it w i s c)
      end
  end.

(** ** Statements *)

(** The loop over the statements: each is cut off its siblings. *)
Fixpoint compile_statements (n : node) : emit :=
  match n with
  | mkNode k dt it w i s c =>
      _ ← finsh_compile (mkNode k dt it w i None c);
      match s with
      | Some s => _ ← finsh_code_byte FINSH_OP_POP; compile_statements s
      | None => mret tt
      end
  end.

(** [finsh_compiler_run]: the text segment, the error number and the stack, of
    which only the first value is cleared. *)
Definition finsh_compiler_run (root : option node) (e : Z) (stack : list Z) : res (list Z * Z * list Z) :=
  r ← match root with
      | Some n => r ← finsh_type_check n FINSH_NODE_VALUE e; mret (Some (fst r), snd r)
      | None => mret (None, e)
      end;
  stack ← upd stack 0 0;
  s ← match fst r with
      | Some n => s ← compile_statements n (mkC (replicate FINSH_TEXT_MAX 0) 0 (snd r)); mret (snd s)
      | None => mret (mkC (replicate FINSH_TEXT_MAX 0) 0 (snd r))
      end;
  mret (text s, errno s, stack).
End compiler.
