(* ===== verification/FinshExpr.v ===== *)
(** * Expressions of the shell

    The reference for the code generator: expressions with their types and their
    meaning ([eval]), the trees the parser builds for them ([raw]), the trees the
    type checker makes of these ([annot]) and their code ([code]).  An expression
    is [typed] when every operator gets operands at least as wide as its own
    type, which is that of its first operand. *)

From S2P Require Import Prelude FinshSym FinshVm FinshNode FinshCompiler.

(** ** Expressions and their meaning *)

Inductive binop := Add | Sub | Mul | Div | Mod | And | Or | Xor | Shl | Shr.

(** A variable of the shell, or one of the system. *)
Inductive var := Local (i : Z) | System (self ty addr : Z).

(** Constants of four bytes: [int], [long], string and null. *)
Inductive lit := LInt | LLong | LString | LNull.

Inductive expr :=
  | EChar (c : Z)
  | ELit (l : lit) (v : Z)
  | EVar (x : var)
  | EBin (o : binop) (a b : expr)
  | ENot (a : expr)
  | EAssign (x : var) (a : expr)
  | EStore (p a : expr)                   (**r [*p = a] *)
  | EStep (pre dec : bool) (x : var)      (**r [++x], [--x], [x++], [x--] *)
  | EDeref (p : expr)
  | EAddr (x : var)
  | ECall (self f : Z) (args : exprs)
  | ECast (t : Z) (a : expr)
with exprs :=
  | ENil
  | ECons (e : expr) (es : exprs).

Scheme expr_ind2 := Induction for expr Sort Prop
with exprs_ind2 := Induction for exprs Sort Prop.
Combined Scheme expr_mutind from expr_ind2, exprs_ind2.

Fixpoint exprs_length (es : exprs) : nat := match es with ENil => O | ECons _ es => S (exprs_length es) end.

Definition sem (o : binop) (a b : Z) : res Z :=
  match o with
  | Add => mret (a + b) | Sub => mret (a - b) | Mul => mret (a * b)
  | Div => c_div a b | Mod => c_mod a b
  | And => mret (Z.land a b) | Or => mret (Z.lor a b) | Xor => mret (Z.lxor a b)
  | Shl => c_shl a b | Shr => c_shr a b
  end.

Definition kind (o : binop) : node_kind :=
  match o with
  | Add => FINSH_NODE_SYS_ADD | Sub => FINSH_NODE_SYS_SUB | Mul => FINSH_NODE_SYS_MUL
  | Div => FINSH_NODE_SYS_DIV | Mod => FINSH_NODE_SYS_MOD | And => FINSH_NODE_SYS_AND
  | Or => FINSH_NODE_SYS_OR | Xor => FINSH_NODE_SYS_XOR | Shl => FINSH_NODE_SYS_SHL | Shr => FINSH_NODE_SYS_SHR
  end.

Definition lit_kind (l : lit) : node_kind :=
  match l with
  | LInt => FINSH_NODE_VALUE_INT | LLong => FINSH_NODE_VALUE_LONG
  | LString => FINSH_NODE_VALUE_STRING | LNull => FINSH_NODE_VALUE_NULL
  end.

Definition step_kind (pre dec : bool) : node_kind :=
  match pre, dec with
  | true, false => FINSH_NODE_SYS_PREINC | true, true => FINSH_NODE_SYS_PREDEC
  | false, false => FINSH_NODE_SYS_INC | false, true => FINSH_NODE_SYS_DEC
  end.

Definition width_code (w : width) : Z := match w with Byte => 0 | Word => 1 | Dword => 2 end.

(** The data type of a width, and back. *)
Definition dt (w : width) : Z := width_code w + 1.
Definition width_dt (t : Z) : width := if t =? 1 then Byte else if t =? 2 then Word else Dword.
Definition is_operand (t : Z) : bool := (t =? 1) || (t =? 2) || (t =? 3).

Definition fits (w w' : width) : bool := width_code w <=? width_code w'.

(** The width of a variable's type; there is no code for [void] and [void *]. *)
Definition width_of_type (ty : Z) : option width :=
  if (ty =? finsh_type_char) || (ty =? finsh_type_uchar) then Some Byte
  else if (ty =? finsh_type_short) || (ty =? finsh_type_ushort) then Some Word
  else if (ty =? finsh_type_int) || (ty =? finsh_type_uint) || (ty =? finsh_type_long) || (ty =? finsh_type_ulong)
       || (ty =? finsh_type_charp) || (ty =? finsh_type_shortp) || (ty =? finsh_type_intp) || (ty =? finsh_type_longp)
  then Some Dword
  else None.

Section meaning.
Context `{Mc : Machine}.
Context (vars : list finsh_var).

Definition var_type (x : var) : Z :=
  match x with
  | Local i => match idx vars i with Ret v => type v | Err _ => 0 end
  | System _ ty _ => ty
  end.

Definition var_ok (x : var) : bool :=
  match x with
  | Local i => (0 <=? i) && (i <? Z.of_nat (length vars))
  | System _ _ _ => true
  end && match width_of_type (var_type x) with Some _ => true | None => false end.

Definition is_local (x : var) : bool := match x with Local _ => true | System _ _ _ => false end.
Definition var_width (x : var) : width := default Dword (width_of_type (var_type x)).
Definition var_addr (x : var) : Z := match x with Local i => var_value i | System _ _ a => a end.

(** The data type the code generator gives an expression, and the width of the
    value it leaves. *)
Fixpoint dtype (e : expr) : Z :=
  match e with
  | EChar _ => FINSH_DATA_TYPE_BYTE
  | ELit _ _ => FINSH_DATA_TYPE_DWORD
  | EVar x | EAssign x _ | EStep _ _ x | EAddr x => dt (var_width x)
  | EBin _ a _ | ENot a | ECast _ a => dtype a
  | EStore p _ | EDeref p => dtype p
  | ECall _ _ _ => FINSH_DATA_TYPE_VOID
  end.

Fixpoint vwidth (e : expr) : width :=
  match e with
  | EAddr _ | ECall _ _ _ => Dword
  | ECast _ a => vwidth a
  | e => width_dt (dtype e)
  end.

(** Every operand has the bytes its operator reads. *)
Fixpoint typed (e : expr) : bool :=
  match e with
  | EChar _ | ELit _ _ => true
  | EVar x | EAddr x => var_ok x
  | EBin _ a b =>
      typed a && typed b && is_operand (dtype a) && fits (width_dt (dtype a)) (vwidth a)
      && fits (width_dt (dtype a)) (vwidth b)
  | ENot a => typed a && is_operand (dtype a) && fits (width_dt (dtype a)) (vwidth a)
  | EAssign x a => var_ok x && typed a && fits (var_width x) (vwidth a)
  | EStore p a =>
      typed p && typed a && is_operand (dtype p) && fits Dword (vwidth p) && fits (width_dt (dtype p)) (vwidth a)
  | EStep _ _ x => var_ok x && is_local x
  | EDeref p => typed p && is_operand (dtype p) && fits Dword (vwidth p)
  | ECall _ _ args => typeds args && (exprs_length args <=? 16)%nat
  | ECast _ a => typed a
  end
with typeds (es : exprs) : bool :=
  match es with ENil => true | ECons e es => typed e && fits Dword (vwidth e) && typeds es end.

(** The meaning of an expression. *)
Fixpoint eval (e : expr) (m : mem) : res (Z * mem) :=
  match e with
  | EChar c => mret (u8 c, m)
  | ELit _ v => mret (s32 v, m)
  | EVar x => v ← load (var_width x) (var_addr x) m; mret (value (var_width x) v, m)
  | EBin o a b =>
      let w := width_dt (dtype a) in
      '(x, m) ← eval a m;
      '(y, m) ← eval b m;
      r ← sem o (value w x) (value w y);
      mret (value w r, m)
  | ENot a =>
      let w := width_dt (dtype a) in
      '(x, m) ← eval a m; mret (value w (Z.lnot (value w x)), m)
  | EAssign x a =>
      let w := var_width x in
      '(v, m) ← eval a m; m ← store w (var_addr x) (value w v) m; mret (value w v, m)
  | EStore p a =>
      let w := width_dt (dtype p) in
      '(q, m) ← eval p m; '(v, m) ← eval a m; m ← store w q (value w v) m; mret (value w v, m)
  | EStep pre dec x =>
      let w := var_width x in
      v ← load w (var_addr x) m;
      let n := value w (if dec then value w v - 1 else value w v + 1) in
      m ← store w (var_addr x) n m;
      mret (if pre then n else value w v, m)
  | EDeref p =>
      let w := width_dt (dtype p) in
      '(q, m) ← eval p m; v ← load w q m; mret (value w v, m)
  | EAddr x => mret (s32 (var_addr x), m)
  | ECall _ f args =>
      '(vs, m) ← evals args m;
      '(r, m) ← call (u32 f) (match vs with [] => [0] | _ => u32 <$> vs end) m;
      mret (s32 r, m)
  | ECast _ a => eval a m
  end
with evals (es : exprs) (m : mem) : res (list Z * mem) :=
  match es with
  | ENil => mret ([], m)
  | ECons e es => '(v, m) ← eval e m; '(vs, m) ← evals es m; mret (v :: vs, m)
  end.

(** ** Trees and code *)

(** The node of a variable. *)
Definition var_node (x : var) (t flag : Z) (s : option node) : node :=
  match x with
  | Local i => mkNode FINSH_NODE_ID t (Z.lor FINSH_IDTYPE_VAR flag) 0 (IdVar i) s None
  | System self ty a => mkNode FINSH_NODE_ID t (Z.lor FINSH_IDTYPE_SYSVAR flag) 0 (IdSysvar self ty a) s None
  end.

Definition sys_node (k : node_kind) (t flag : Z) (s : option node) (c : node) : node :=
  mkNode k t flag 0 NoId s (Some c).

(** The tree the parser builds; a cast writes its type into the node, the
    outermost one last. *)
Fixpoint raw (t : Z) (e : expr) (s : option node) : node :=
  match e with
  | EChar c => mkNode FINSH_NODE_VALUE_CHAR t 0 (u8 c) NoId s None
  | ELit l v => mkNode (lit_kind l) t 0 (u32 v) NoId s None
  | EVar x => var_node x t 0 s
  | EBin o a b => sys_node (kind o) t 0 s (raw 0 a (Some (raw 0 b None)))
  | ENot a => sys_node FINSH_NODE_SYS_BITWISE t 0 s (raw 0 a None)
  | EAssign x a => sys_node FINSH_NODE_SYS_ASSIGN t 0 s (var_node x 0 0 (Some (raw 0 a None)))
  | EStore p a =>
      sys_node FINSH_NODE_SYS_ASSIGN t 0 s
        (sys_node FINSH_NODE_SYS_GETVALUE 0 0 (Some (raw 0 a None)) (raw 0 p None))
  | EStep pre dec x => sys_node (step_kind pre dec) t 0 s (var_node x 0 0 None)
  | EDeref p => sys_node FINSH_NODE_SYS_GETVALUE t 0 s (raw 0 p None)
  | EAddr x => sys_node FINSH_NODE_SYS_GETADDR t 0 s (var_node x 0 0 None)
  | ECall self f args =>
      sys_node FINSH_NODE_SYS_FUNC t 0 s
        (mkNode FINSH_NODE_ID 0 FINSH_IDTYPE_SYSCALL 0 (IdSyscall self f) (raws args) None)
  | ECast t' a => raw (if t =? 0 then t' else t) a s
  end
with raws (es : exprs) : option node :=
  match es with ENil => None | ECons e es => Some (raw 0 e (raws es)) end.

(** The same tree with the types and the address flags. *)
Fixpoint annot (e : expr) (s : option node) : node :=
  match e with
  | EChar c => mkNode FINSH_NODE_VALUE_CHAR FINSH_DATA_TYPE_BYTE 0 (u8 c) NoId s None
  | ELit l v => mkNode (lit_kind l) FINSH_DATA_TYPE_DWORD 0 (u32 v) NoId s None
  | EVar x => var_node x (dt (var_width x)) 0 s
  | EBin o a b => sys_node (kind o) (dtype a) 0 s (annot a (Some (annot b None)))
  | ENot a => sys_node FINSH_NODE_SYS_BITWISE (dtype a) 0 s (annot a None)
  | EAssign x a =>
      sys_node FINSH_NODE_SYS_ASSIGN (dt (var_width x)) 0 s
        (var_node x (dt (var_width x)) FINSH_IDTYPE_ADDRESS (Some (annot a None)))
  | EStore p a =>
      sys_node FINSH_NODE_SYS_ASSIGN (dtype p) 0 s
        (sys_node FINSH_NODE_SYS_GETVALUE (dtype p) FINSH_IDTYPE_ADDRESS (Some (annot a None)) (annot p None))
  | EStep pre dec x =>
      sys_node (step_kind pre dec) (dt (var_width x)) 0 s
        (var_node x (dt (var_width x)) (if pre then FINSH_IDTYPE_ADDRESS else 0) None)
  | EDeref p => sys_node FINSH_NODE_SYS_GETVALUE (dtype p) 0 s (annot p None)
  | EAddr x =>
      sys_node FINSH_NODE_SYS_GETADDR (dt (var_width x)) 0 s
        (var_node x (dt (var_width x)) FINSH_IDTYPE_ADDRESS None)
  | ECall self f args =>
      sys_node FINSH_NODE_SYS_FUNC FINSH_DATA_TYPE_VOID 0 s
        (mkNode FINSH_NODE_ID 0 FINSH_IDTYPE_SYSCALL 0 (IdSyscall self f) (annots args) None)
  | ECast _ a => annot a s
  end
with annots (es : exprs) : option node :=
  match es with ENil => None | ECons e es => Some (annot e (annots es)) end.

Definition op_for (base : Z) (w : width) : Z := base + width_code w.

Definition bin_code (o : binop) : Z :=
  match o with
  | Add => FINSH_OP_ADD_BYTE | Sub => FINSH_OP_SUB_BYTE | Mul => FINSH_OP_MUL_BYTE | Div => FINSH_OP_DIV_BYTE
  | Mod => FINSH_OP_MOD_BYTE | And => FINSH_OP_AND_BYTE | Or => FINSH_OP_OR_BYTE | Xor => FINSH_OP_XOR_BYTE
  | Shl => FINSH_OP_SHL_BYTE | Shr => FINSH_OP_SHR_BYTE
  end.

Definition one (w : width) : list Z := match w with Byte => [1] | Word => set16 1 | Dword => set32 1 end.

(** [x + 1] or [x - 1] stored to [x], whose address is on the stack. *)
Definition step_code (dec : bool) (w : width) (a : Z) : list Z :=
  op_for FINSH_OP_LD_VALUE_BYTE w :: set32 a ++ op_for FINSH_OP_LD_BYTE w :: one w ++
  [op_for (if dec then FINSH_OP_SUB_BYTE else FINSH_OP_ADD_BYTE) w; op_for FINSH_OP_ST_BYTE w].

Fixpoint code (e : expr) : list Z :=
  match e with
  | EChar c => [FINSH_OP_LD_BYTE; u8 c]
  | ELit _ v => FINSH_OP_LD_DWORD :: set32 v
  | EVar x => op_for FINSH_OP_LD_VALUE_BYTE (var_width x) :: set32 (var_addr x)
  | EBin o a b => code a ++ code b ++ [op_for (bin_code o) (width_dt (dtype a))]
  | ENot a => code a ++ [op_for FINSH_OP_BITWISE_BYTE (width_dt (dtype a))]
  | EAssign x a =>
      (FINSH_OP_LD_DWORD :: set32 (var_addr x)) ++ code a ++
      [op_for FINSH_OP_ST_BYTE (var_width x); op_for FINSH_OP_LD_VALUE_BYTE_STACK (var_width x)]
  | EStore p a =>
      code p ++ code a ++
      [op_for FINSH_OP_ST_BYTE (width_dt (dtype p)); op_for FINSH_OP_LD_VALUE_BYTE_STACK (width_dt (dtype p))]
  | EStep true dec x =>
      (FINSH_OP_LD_DWORD :: set32 (var_addr x)) ++ step_code dec (var_width x) (var_addr x) ++
      [FINSH_OP_LD_VALUE_DWORD_STACK]
  | EStep false dec x =>
      (op_for FINSH_OP_LD_VALUE_BYTE (var_width x) :: set32 (var_addr x)) ++
      (FINSH_OP_LD_DWORD :: set32 (var_addr x)) ++ step_code dec (var_width x) (var_addr x) ++ [FINSH_OP_POP]
  | EDeref p => code p ++ [op_for FINSH_OP_LD_VALUE_BYTE_STACK (width_dt (dtype p))]
  | EAddr x => FINSH_OP_LD_DWORD :: set32 (var_addr x)
  | ECall _ f args => (FINSH_OP_LD_DWORD :: set32 f) ++ codes args ++ [FINSH_OP_SYSCALL; Z.of_nat (exprs_length args)]
  | ECast _ a => code a
  end
with codes (es : exprs) : list Z :=
  match es with ENil => [] | ECons e es => code e ++ codes es end.

(** The number of values an expression has on the stack at once. *)
Fixpoint depth (e : expr) : nat :=
  match e with
  | EChar _ | ELit _ _ | EVar _ | EAddr _ => 1
  | EBin _ a b | EStore a b => Nat.max (depth a) (S (depth b))
  | ENot a | EDeref a | ECast _ a => depth a
  | EAssign _ a => S (depth a)
  | EStep _ _ _ => 4
  | ECall _ _ args => S (depths args)
  end
with depths (es : exprs) : nat :=
  match es with ENil => O | ECons e es => Nat.max (depth e) (S (depths es)) end.
End meaning.

(** ** Programs: statements one after the other *)

(** The first statement and the others. *)
Fixpoint raw_program (e : expr) (es : list expr) : node :=
  raw 0 e (match es with [] => None | e :: es => Some (raw_program e es) end).

Section programs.
Context `{Mc : Machine}.
Context (vars : list finsh_var).

Fixpoint annot_program (e : expr) (es : list expr) : node :=
  annot vars e (match es with [] => None | e :: es => Some (annot_program e es) end).

Fixpoint code_program (e : expr) (es : list expr) : list Z :=
  match es with [] => code vars e | e' :: es => code vars e ++ FINSH_OP_POP :: code_program e' es end.

Fixpoint eval_program (e : expr) (es : list expr) (m : mem) : res (Z * mem) :=
  match es with [] => eval vars e m | e' :: es => '(_, m) ← eval vars e m; eval_program e' es m end.

Fixpoint program_depth (e : expr) (es : list expr) : nat :=
  match es with [] => depth e | e' :: es => Nat.max (depth e) (program_depth e' es) end.

Definition program_width (e : expr) (es : list expr) : width := vwidth vars (List.last es e).
End programs.

(** ** Examples *)

Definition name_of (s : string) : list Z := str s ++ replicate (S FINSH_NAME_MAX - length (str s)) 0.

(** An [int], a [char], a [long] and five unused entries. *)
Definition demo_vars : list finsh_var :=
  [mkVar (name_of "i") finsh_type_int 0; mkVar (name_of "c") finsh_type_char 0; mkVar (name_of "l") finsh_type_long 0] ++
  replicate 5 unused.

(** [i = 2 + 3 * 4; i++; add(i, 1)] *)
Definition demo_first : expr :=
  EAssign (Local 0) (EBin Add (ELit LInt 2) (EBin Mul (ELit LInt 3) (ELit LInt 4))).
Definition demo_rest : list expr :=
  [EStep false false (Local 0); ECall 32 64 (ECons (EVar (Local 0)) (ECons (ELit LInt 1) ENil))].

(** [add(i++, i++, i++, i++, i++, i++, i++)]: sixteen nodes, a line of 39 characters. *)
Definition demo_long : expr :=
  let x := EStep false false (Local 0) in
  ECall 32 64 (ECons x (ECons x (ECons x (ECons x (ECons x (ECons x (ECons x ENil))))))).
