(* ===== verification/FinshCorrect.v ===== *)
(** * Correctness of the shell's code

    The type checker turns the parser's trees into the annotated ones, the code
    generator emits [code] for these, and the machine computes [eval] with it. *)

From S2P Require Import Prelude FinshSym FinshVm FinshNode FinshCompiler FinshExpr.

(** ** The code that is emitted *)

Definition C (pre post : list Z) (err : Z) : cstate := mkC (pre ++ post) (Z.of_nat (length pre)) err.

(** [E] appends [bs] to the code, or overruns the text segment. *)
Definition emits (E : emit) (bs : list Z) : Prop :=
  forall pre post err, E (C pre post err) =
    if decide (length bs <= length post)%nat
    then Ret (tt, C (pre ++ bs) (drop (length bs) post) err) else Err OutOfBounds.

Lemma emits_nil : emits (mret tt) [].
Proof. intros pre post err. rewrite decide_True by (cbn; lia). by rewrite app_nil_r. Qed.

Lemma emits_bind E F b c : emits E b -> emits F c -> emits (_ ← E; F) (b ++ c).
Proof.
  intros HE HF pre post err. unfold mbind, st_bind. rewrite HE, length_app.
  destruct (decide (length b <= length post)%nat).
  - rewrite HF, length_drop. destruct (decide (length c <= length post - length b)%nat).
    + rewrite decide_True by lia. by rewrite drop_drop, <- app_assoc.
    + by rewrite decide_False by lia.
  - by rewrite decide_False by lia.
Qed.

Lemma emits_byte x y : u8 x = y -> emits (finsh_code_byte x) [y].
Proof.
  intros <- pre post err. unfold finsh_code_byte, C. unfold_st. cbn [text finsh_compile_pc errno length].
  destruct post as [|p post]; cbn [length drop].
  - unfold upd. rewrite decide_False; [by rewrite decide_False by lia|]. rewrite length_app. cbn. lia.
  - rewrite upd_middle by done. rewrite decide_True by lia. rewrite <- app_assoc, drop_0. repeat f_equal.
    rewrite length_app. cbn. lia.
Qed.

Lemma emits_byte_cons x y E bs : u8 x = y -> emits E bs -> emits (_ ← finsh_code_byte x; E) (y :: bs).
Proof. intros Hx HE. apply (emits_bind _ _ [y] bs); [by apply emits_byte|done]. Qed.

Lemma emits_bytes bs : Forall byte bs -> emits (code_bytes bs) bs.
Proof.
  induction 1 as [|b bs Hb _ IH]; [apply emits_nil|]. cbn [code_bytes].
  apply emits_byte_cons; [|done]. apply wrap_id. exact Hb.
Qed.

Lemma land_255 x : Z.land x 255 = u8 x.
Proof. change 255 with (Z.ones 8). by rewrite Z.land_ones by lia. Qed.

Lemma set32_bytes v : Forall byte (set32 v).
Proof.
  unfold set32. rewrite !land_255. repeat apply Forall_cons_2; try apply Forall_nil_2; try (unfold byte; wrap_lia).
  rewrite Z.shiftr_div_pow2 by lia. unfold byte. wrap_lia.
Qed.

Lemma set16_bytes v : Forall byte (set16 v).
Proof. unfold set16. rewrite !land_255. repeat apply Forall_cons_2; try apply Forall_nil_2; unfold byte; wrap_lia. Qed.

Lemma number_set32 v : number (set32 v) = u32 v.
Proof. unfold set32. rewrite !land_255, !Z.shiftr_div_pow2 by lia. cbn [number]. wrap_lia. Qed.

Lemma set32_length v : length (set32 v) = 4%nat.
Proof. done. Qed.

Lemma emits_dword v : emits (finsh_code_dword v) (set32 v).
Proof. apply emits_bytes, set32_bytes. Qed.

Lemma emits_word v : emits (finsh_code_word v) (set16 v).
Proof. apply emits_bytes, set16_bytes. Qed.

(** Proves [emits] of a sequence of emissions. *)
Ltac emitting :=
  repeat first
    [ apply emits_byte_cons; [reflexivity|] | apply emits_byte; reflexivity
    | apply emits_dword | apply emits_word | apply emits_nil | apply emits_bind ].

Section emission.
Context `{Mc : Machine}.
Context (vars : list finsh_var).

Lemma width_dt_dt w : width_dt (dt w) = w.
Proof. by destruct w. Qed.

Lemma is_operand_dt t : is_operand t = true -> t = dt (width_dt t).
Proof. unfold is_operand, width_dt, dt. repeat case_match; naive_solver lia. Qed.

Lemma emits_by_type t op : is_operand t = true -> 0 <= op < 128 -> emits (code_by_type t op) [op_for op (width_dt t)].
Proof.
  intros ->%is_operand_dt Hop. rewrite width_dt_dt. unfold code_by_type, op_for.
  destruct (width_dt t); cbn; apply emits_byte; wrap_lia.
Qed.

Lemma emits_store w :
  emits (compile_store (dt w)) [op_for FINSH_OP_ST_BYTE w; op_for FINSH_OP_LD_VALUE_BYTE_STACK w].
Proof. destruct w; cbn; unfold compile_store; cbn; emitting. Qed.

Lemma load_by_width ty a it w : width_of_type ty = Some w ->
  emits (compile_load ty a it)
    ((if has it FINSH_IDTYPE_ADDRESS then FINSH_OP_LD_DWORD else op_for FINSH_OP_LD_VALUE_BYTE w) :: set32 a).
Proof.
  unfold width_of_type, compile_load. intros Hw. repeat case_match; simplify_eq; cbn [op_for width_code]; emitting.
Qed.

Lemma data_type_width ty w : width_of_type ty = Some w -> data_type_of ty = Some (dt w).
Proof.
  unfold width_of_type, data_type_of, finsh_type_void, finsh_type_char, finsh_type_uchar, finsh_type_short,
    finsh_type_ushort, finsh_type_int, finsh_type_uint, finsh_type_long, finsh_type_ulong, finsh_type_charp,
    finsh_type_shortp, finsh_type_intp, finsh_type_longp, finsh_type_voidp.
  intros Hw. destruct (Z.eqb_spec ty 1); [by subst|]. repeat case_match; simplify_eq; try done; exfalso; lia.
Qed.

Lemma var_ok_width x : var_ok vars x = true -> width_of_type (var_type vars x) = Some (var_width vars x).
Proof. unfold var_ok, var_width. intros [_ H]%andb_true_iff. by destruct (width_of_type _). Qed.

Lemma local_entry i : var_ok vars (Local i) = true -> exists v, idx vars i = Ret v /\ var_type vars (Local i) = type v.
Proof.
  intros [Hi _]%andb_true_iff. apply andb_true_iff in Hi as [H1%Z.leb_le H2%Z.ltb_lt].
  destruct (idx_ok vars i) as [v Hv]; [lia|]. exists v. split; [done|]. cbn. by rewrite Hv.
Qed.

(** The siblings of a node. *)
Definition check_siblings (s : option node) : ST Z (option node) :=
  match s with Some s => s ← finsh_type_check vars s FINSH_NODE_VALUE; mret (Some s) | None => mret None end.

Definition compile_siblings (s : option node) : emit :=
  match s with Some s => finsh_compile vars s | None => mret tt end.

(** A variable: its address under the address flag, its value without. *)
Lemma emits_var x t flag s : var_ok vars x = true -> flag = 0 \/ flag = FINSH_IDTYPE_ADDRESS ->
  emits (compile_id vars (var_node x t flag s))
    ((if flag =? 0 then op_for FINSH_OP_LD_VALUE_BYTE (var_width vars x) else FINSH_OP_LD_DWORD) :: set32 (var_addr x)).
Proof.
  intros Hx Hf. assert (Hw := var_ok_width x Hx). unfold compile_id. destruct x as [i|self ty a].
  - destruct (local_entry i Hx) as (v & Hv & Ht). rewrite Ht in Hw.
    destruct Hf as [->| ->]; intros pre post err; cbn [var_node idtype id]; unfold_st; rewrite Hv.
    + exact (load_by_width _ (var_value i) 1 _ Hw pre post err).
    + exact (load_by_width _ (var_value i) 9 _ Hw pre post err).
  - destruct Hf as [->| ->]; cbn [var_node idtype id].
    + exact (load_by_width _ a 2 _ Hw).
    + exact (load_by_width _ a 10 _ Hw).
Qed.

Lemma check_var x t0 t flag s s' err : var_ok vars x = true -> flag = 0 \/ flag = FINSH_IDTYPE_ADDRESS ->
  t = dt (var_width vars x) ->
  check_siblings s err = Ret (s', err) ->
  finsh_type_check vars (var_node x t0 0 s) flag err = Ret (var_node x t flag s', err).
Proof.
  intros Hx Hf -> Hs. assert (Hd := data_type_width _ _ (var_ok_width x Hx)). destruct x as [i|self ty a].
  - destruct (local_entry i Hx) as (v & Hv & Ht). rewrite Ht in Hd.
    cbn [var_node finsh_type_check]. rewrite (st_bind_run _ _ _ _ _ eq_refl), (st_bind_run _ _ _ _ _ Hs).
    destruct Hf as [->| ->]; cbn; unfold_st; rewrite Hv; unfold check_type; rewrite Hd; done.
  - cbn [var_node finsh_type_check]. rewrite (st_bind_run _ _ _ _ _ eq_refl), (st_bind_run _ _ _ _ _ Hs).
    cbn [var_type] in Hd. destruct Hf as [->| ->]; cbn; unfold_st; unfold check_type; rewrite Hd; done.
Qed.

Lemma check_sys k t t' fl s s' c c' err :
  finsh_type_check vars c (child_flag k fl) err = Ret (c', err) -> data_type c' = t' ->
  check_siblings s err = Ret (s', err) ->
  finsh_type_check vars (sys_node k t 0 s c) fl err = Ret (sys_node k t' fl s' c', err).
Proof.
  intros Hc <- Hs. cbn [sys_node finsh_type_check].
  assert (Hc' : (c ← finsh_type_check vars c (child_flag k fl); mret (Some c)) err = Ret (Some c', err))
    by (unfold mbind, st_bind; by rewrite Hc).
  by rewrite (st_bind_run _ _ _ _ _ Hc'), (st_bind_run _ _ _ _ _ Hs).
Qed.

Lemma check_leaf k t0 t it w i s s' err :
  leaf_type vars k t0 it i err = Ret (t, err) -> it = 0 \/ it = FINSH_IDTYPE_SYSCALL ->
  check_siblings s err = Ret (s', err) ->
  finsh_type_check vars (mkNode k t0 it w i s None) 0 err = Ret (mkNode k t it w i s' None, err).
Proof.
  intros Hl Hit Hs. cbn [finsh_type_check]. rewrite (st_bind_run _ _ _ _ _ eq_refl), (st_bind_run _ _ _ _ _ Hs).
  destruct Hit as [->| ->]; cbn [Z.eqb FINSH_IDTYPE_SYSCALL Pos.eqb Z.lor]; by rewrite (st_bind_run _ _ _ _ _ Hl).
Qed.

Lemma check_some n n' err : finsh_type_check vars n FINSH_NODE_VALUE err = Ret (n', err) ->
  check_siblings (Some n) err = Ret (Some n', err).
Proof. intros Hn. unfold check_siblings, mbind, st_bind. by rewrite Hn. Qed.

Lemma annot_type e : forall s, data_type (annot vars e s) = dtype vars e.
Proof.
  apply (expr_ind2 (fun e => forall s, data_type (annot vars e s) = dtype vars e) (fun _ => True)); try done.
  by intros [].
Qed.

(** The type checker writes the types and flags of [annot] and finds no error. *)
Lemma check_raw : (forall e, typed vars e = true -> forall t s s' err, check_siblings s err = Ret (s', err) ->
    finsh_type_check vars (raw t e s) 0 err = Ret (annot vars e s', err)) /\
  (forall es, typeds vars es = true -> forall err, check_siblings (raws es) err = Ret (annots vars es, err)).
Proof.
  apply expr_mutind; cbn [typed typeds raw raws annot annots];
    intros; rewrite ?andb_true_iff in *; destruct_and?.
  - by apply check_leaf; [|left|].
  - by apply check_leaf; [destruct l|left|].
  - apply check_var; [done|by left|done|done].
  - apply check_sys; [|apply annot_type|done]. destruct o; apply H; try done; apply check_some; by apply H0.
  - apply check_sys; [|apply annot_type|done]. by apply H.
  - apply check_sys; [|by destruct x|done]. apply check_var; [done|by right|done|]. apply check_some. by apply H.
  - apply check_sys; [|done|done]. apply check_sys; [|apply annot_type|apply check_some; by apply H0]. by apply H.
  - apply check_sys; [|by destruct x|done]. destruct pre, dec; apply check_var; by auto.
  - apply check_sys; [|apply annot_type|done]. by apply H.
  - apply check_sys; [|by destruct x|done]. apply check_var; by auto.
  - apply check_sys; [|done|done]. apply check_leaf; [done|by right|]. by apply H.
  - by apply H.
  - done.
  - apply check_some. apply H; [done|]. by apply H0.
Qed.

Lemma emits_sys k t fl s c b1 b2 cs :
  emits (finsh_compile vars c) b1 -> emits (compile_node vars (sys_node k t fl s c)) b2 ->
  emits (compile_siblings s) cs -> emits (finsh_compile vars (sys_node k t fl s c)) ((b1 ++ b2) ++ cs).
Proof. intros H1 H2 H3. rewrite <- app_assoc. by repeat apply emits_bind. Qed.

Lemma emits_leaf k t it w i s b cs :
  emits (compile_node vars (mkNode k t it w i s None)) b -> emits (compile_siblings s) cs ->
  emits (finsh_compile vars (mkNode k t it w i s None)) (b ++ cs).
Proof. intros H1 H2. apply (emits_bind _ _ []); [apply emits_nil|]. by apply emits_bind. Qed.

Lemma emits_var_node x t flag s cs : var_ok vars x = true -> flag = 0 \/ flag = FINSH_IDTYPE_ADDRESS ->
  emits (compile_siblings s) cs ->
  emits (finsh_compile vars (var_node x t flag s))
    (((if flag =? 0 then op_for FINSH_OP_LD_VALUE_BYTE (var_width vars x) else FINSH_OP_LD_DWORD) :: set32 (var_addr x)) ++ cs).
Proof.
  intros Hx Hf Hs. assert (Hv := emits_var x t flag s Hx Hf). destruct x; by apply emits_leaf.
Qed.

Lemma emits_one n b : emits (finsh_compile vars n) b -> emits (compile_siblings (Some n)) b.
Proof. done. Qed.

Lemma siblings_annot e : forall s, siblings (annot vars e s) = match s with Some s => 1 + siblings s | None => 0 end.
Proof.
  apply (expr_ind2 (fun e => forall s, siblings (annot vars e s) = match s with Some s => 1 + siblings s | None => 0 end)
    (fun _ => True)); try done.
  by intros [].
Qed.

Lemma args_length es : match annots vars es with Some n => 1 + siblings n | None => 0 end = Z.of_nat (exprs_length es).
Proof.
  induction es as [|e es IH]; [done|]. cbn [annots exprs_length]. rewrite siblings_annot. lia.
Qed.

Lemma emits_pre x dec t flag s : is_local x = true ->
  emits (compile_node vars (sys_node (step_kind true dec) (dt (var_width vars x)) 0 s (var_node x t flag None)))
    (step_code dec (var_width vars x) (var_addr x) ++ [FINSH_OP_LD_VALUE_DWORD_STACK]).
Proof.
  intros Hx. destruct x as [i|]; [|done]. cbn [sys_node var_node var_addr].
  destruct (var_width vars (Local i)), dec; cbn; unfold compile_preinc, compile_predec, compile_pre; cbn;
    unfold step_code, op_for; cbn; rewrite <- ?app_assoc; cbn; rewrite <- ?app_assoc; emitting.
Qed.

Lemma emits_post x dec t flag s : is_local x = true ->
  emits (compile_node vars (sys_node (step_kind false dec) (dt (var_width vars x)) 0 s (var_node x t flag None)))
    ((FINSH_OP_LD_DWORD :: set32 (var_addr x)) ++ step_code dec (var_width vars x) (var_addr x) ++ [FINSH_OP_POP]).
Proof.
  intros Hx. destruct x as [i|]; [|done]. cbn [sys_node var_node var_addr].
  destruct (var_width vars (Local i)), dec; cbn; unfold compile_inc, compile_dec, compile_post; cbn;
    unfold step_code, op_for; cbn; rewrite <- ?app_assoc; cbn; rewrite <- ?app_assoc; emitting.
Qed.

Lemma emits_bin o t s c : is_operand t = true ->
  emits (compile_node vars (sys_node (kind o) t 0 s c)) [op_for (bin_code o) (width_dt t)].
Proof. intros Ht. destruct o; apply emits_by_type; done. Qed.

Lemma emits_lit l t v s :
  emits (compile_node vars (mkNode (lit_kind l) t 0 (u32 v) NoId s None)) (FINSH_OP_LD_DWORD :: set32 v).
Proof.
  assert (Hv : set32 v = set32 (u32 v)) by (unfold set32; by rewrite wrap_wrap). rewrite Hv.
  destruct l; cbn; unfold compile_const; cbn; emitting.
Qed.

Lemma emits_char t c s :
  emits (compile_node vars (mkNode FINSH_NODE_VALUE_CHAR t 0 (u8 c) NoId s None)) [FINSH_OP_LD_BYTE; u8 c].
Proof. cbn; unfold compile_const; cbn. emitting. apply emits_byte. by rewrite !wrap_wrap. Qed.

Lemma emits_assign k t s c w : data_type c = dt w -> node_type c = FINSH_NODE_ID \/ node_type c = FINSH_NODE_SYS_GETVALUE ->
  k = FINSH_NODE_SYS_ASSIGN ->
  emits (compile_node vars (sys_node k t 0 s c)) [op_for FINSH_OP_ST_BYTE w; op_for FINSH_OP_LD_VALUE_BYTE_STACK w].
Proof.
  intros Ht Hk ->. cbn. unfold compile_assign. cbn [child]. rewrite Ht.
  destruct Hk as [-> | ->]; [apply emits_store|]. replace (Z.land (dt w) 15) with (dt w) by by destruct w.
  apply emits_store.
Qed.

Lemma emits_alone e b :
  (forall s cs, emits (compile_siblings s) cs -> emits (finsh_compile vars (annot vars e s)) (b ++ cs)) ->
  emits (finsh_compile vars (annot vars e None)) b.
Proof. intros He. rewrite <- (app_nil_r b). apply He, emits_nil. Qed.

(** The code of an expression's tree is [code]. *)
Lemma compile_annot : (forall e, typed vars e = true -> forall s cs, emits (compile_siblings s) cs ->
    emits (finsh_compile vars (annot vars e s)) (code vars e ++ cs)) /\
  (forall es, typeds vars es = true -> emits (compile_siblings (annots vars es)) (codes vars es)).
Proof.
  apply expr_mutind; cbn [typed typeds annot annots code codes];
    intros; rewrite ?andb_true_iff, ?Nat.leb_le in *; destruct_and?.
  - apply emits_leaf; [apply emits_char|done].
  - apply emits_leaf; [apply emits_lit|done].
  - apply (emits_var_node x _ 0); by auto.
  - rewrite (app_assoc (code vars a)). apply emits_sys; [|by apply emits_bin|done]. apply H; [done|].
    apply emits_one, emits_alone. by apply H0.
  - apply emits_sys; [|by apply emits_by_type|done]. apply emits_alone. by apply H.
  - rewrite (app_assoc (_ :: _)). apply emits_sys; [|apply emits_assign; [by destruct x|left; by destruct x|done]|done].
    apply (emits_var_node x _ FINSH_IDTYPE_ADDRESS); [done|by right|]. apply emits_one, emits_alone. by apply H.
  - rewrite (app_assoc (code vars p)). apply emits_sys; [|apply emits_assign; [by apply is_operand_dt|by right|done]|done].
    rewrite <- (app_nil_r (code vars p)). apply emits_sys; [|apply emits_nil|].
    + apply emits_alone. by apply H.
    + apply emits_one, emits_alone. by apply H0.
  - destruct pre.
    + apply emits_sys; [|by apply emits_pre|done]. rewrite <- (app_nil_r (_ :: _)).
      apply (emits_var_node x _ FINSH_IDTYPE_ADDRESS); [done|by right|apply emits_nil].
    + apply emits_sys; [|by apply emits_post|done]. rewrite <- (app_nil_r (_ :: _)).
      apply (emits_var_node x _ 0); [done|by left|apply emits_nil].
  - apply emits_sys; [|by apply emits_by_type|done]. apply emits_alone. by apply H.
  - rewrite <- (app_nil_r (_ :: _)). apply emits_sys; [|apply emits_nil|done]. rewrite <- (app_nil_r (_ :: _)).
    apply (emits_var_node x _ FINSH_IDTYPE_ADDRESS); [done|by right|apply emits_nil].
  - rewrite (app_assoc (_ :: _)). apply emits_sys; [| |done].
    + apply (emits_leaf _ _ _ _ _ _ (_ :: _)); [|by apply H]. cbn. unfold compile_id. cbn. emitting.
    + cbn. unfold compile_func. cbn [child sys_node siblings].
      assert (Hn := args_length args). destruct (annots vars args); rewrite Hn; emitting;
        apply emits_byte, wrap_id; cbn in *; lia.
  - by apply H.
  - apply emits_nil.
  - apply H; [done|]. by apply H0.
Qed.
End emission.

(** ** The code that is executed *)

Section execution.
Context `{Mc : Machine}.
Context (vars : list finsh_var).

(** The table of variables is memory. *)
Hypothesis vars_valid : forall i k, 0 <= i < Z.of_nat (length vars) -> 0 <= k < 4 -> valid (u32 (var_value i + k)) = true.

(** From every state with room for [need] values, [bs] does what [ev] says, in
    at most as many steps as it has bytes: it pushes a slot whose [w] low bytes
    are the value. *)
Definition runs (bs : list Z) (w : width) (need : nat) (ev : mem -> res (Z * mem)) : Prop :=
  forall text pc d rest m, at_code text pc bs -> (need <= length rest)%nat ->
  exists n, (n <= length bs)%nat /\
    match ev m with
    | Ret (v, m') => exists x rest', S (length rest') = length rest /\ value w x = v /\
        forall k, vm_loop (n + k) (St text pc d rest m) = vm_loop k (St text (pc + length bs) (d ++ [x]) rest' m')
    | Err f => forall k, vm_loop (n + k) (St text pc d rest m) = Err f
    end.

(** The same for a list of parameters. *)
Definition runs_all (bs : list Z) (need : nat) (ev : mem -> res (list Z * mem)) : Prop :=
  forall text pc d rest m, at_code text pc bs -> (need <= length rest)%nat ->
  exists n, (n <= length bs)%nat /\
    match ev m with
    | Ret (vs, m') => exists xs rest', (length xs + length rest' = length rest)%nat /\ value Dword <$> xs = vs /\
        forall k, vm_loop (n + k) (St text pc d rest m) = vm_loop k (St text (pc + length bs) (d ++ xs) rest' m')
    | Err f => forall k, vm_loop (n + k) (St text pc d rest m) = Err f
    end.

Lemma value_fits w w' x : fits w w' = true -> value w (value w' x) = value w x.
Proof.
  destruct w, w'; intros Hf; try (by cbn in Hf); try apply value_value; cbn [value]; wrap_lia.
Qed.

Lemma runs_ext bs w need ev ev' : (forall m, ev m = ev' m) -> runs bs w need ev -> runs bs w need ev'.
Proof. intros He Hr text pc d rest m Hb Hn. rewrite <- He. by apply Hr. Qed.

(** One instruction that pushes a value. *)
Lemma runs_push bs w (r : mem -> res Z) : bs <> [] ->
  (forall k text pc d y rest m, at_code text pc bs ->
     vm_loop (S k) (St text pc d (y :: rest) m) =
       match r m with
       | Ret v => vm_loop k (St text (pc + length bs) (d ++ [set_value w y v]) rest m)
       | Err f => Err f
       end) ->
  runs bs w 1 (fun m => v ← r m; mret (value w v, m)).
Proof.
  intros Hne Hr text pc d rest m Hb Hn. exists 1%nat. split; [destruct bs; [done|cbn; lia]|].
  destruct rest as [|y rest]; [cbn in Hn; lia|]. destruct (r m) as [v|f] eqn:Hrm; cbn [mbind res_bind mret res_ret].
  - exists (set_value w y v), rest. split_and!; [done|by rewrite value_set|].
    intros k. cbn [Nat.add]. by rewrite Hr, Hrm.
  - intros k. cbn [Nat.add]. by rewrite Hr, Hrm.
Qed.

Lemma runs_const v : runs (FINSH_OP_LD_DWORD :: set32 v) Dword 1 (fun m => mret (s32 v, m)).
Proof.
  apply (runs_ext _ _ _ (fun m => x ← mret (u32 v); mret (value Dword x, m))); [intros m; cbn; by rewrite swrap_wrap|].
  apply runs_push; [done|]. intros k text pc d y rest m Hb. rewrite (run_ld k text pc d y rest m _ _ Dword Hb) by done.
  rewrite number_set32. cbn [mret res_ret length]. do 2 f_equal. rewrite set32_length. cbn. lia.
Qed.

Lemma runs_char c : runs [FINSH_OP_LD_BYTE; u8 c] Byte 1 (fun m => mret (u8 c, m)).
Proof.
  apply (runs_ext _ _ _ (fun m => x ← mret (u8 c); mret (value Byte x, m))); [intros m; cbn; by rewrite wrap_wrap|].
  apply runs_push; [done|]. intros k text pc d y rest m Hb. rewrite (run_ld k text pc d y rest m _ _ Byte Hb) by done.
  cbn [mret res_ret number]. replace (u8 c + 256 * 0) with (u8 c) by lia. do 2 f_equal. cbn. lia.
Qed.

Lemma load_u32 w a m : load w (u32 a) m = load w a m.
Proof.
  unfold load. generalize (size w). intros n. revert a. cut (forall j a b, u32 a = u32 b -> load_bytes j a m = load_bytes j b m).
  { intros Hc a. apply Hc, wrap_wrap. }
  induction j as [|j IH]; intros a b Hab; cbn [load_bytes]; [done|]. rewrite Hab. destruct (valid _); [|done].
  rewrite (IH (a + 1) (b + 1)); [done|]. by rewrite <- (wrap_add_l 32 a), Hab, wrap_add_l.
Qed.

Lemma store_u32 w a v m : store w (u32 a) v m = store w a v m.
Proof.
  unfold store. generalize (size w). intros n. revert a. cut (forall j v m a b, u32 a = u32 b -> store_bytes j a v m = store_bytes j b v m).
  { intros Hc a. apply Hc, wrap_wrap. }
  clear v m. induction j as [|j IH]; intros v m a b Hab; cbn [store_bytes]; [done|]. rewrite Hab. destruct (valid _); [|done].
  apply IH. by rewrite <- (wrap_add_l 32 a), Hab, wrap_add_l.
Qed.

Lemma runs_load w a : runs (op_for FINSH_OP_LD_VALUE_BYTE w :: set32 a) w 1
  (fun m => v ← load w a m; mret (value w v, m)).
Proof.
  apply runs_push; [done|]. intros k text pc d y rest m Hb.
  rewrite (run_ld_value k text pc d y rest m _ _ w Hb) by (by destruct w).
  rewrite number_set32, load_u32. destruct (load w a m); [|done]. do 2 f_equal. cbn [length]. rewrite set32_length. lia.
Qed.

(** Code that turns the value on top into another one. *)
Definition tail1 (bs : list Z) (w1 w : width) (need : nat) (ev : Z -> mem -> res (Z * mem)) : Prop :=
  forall text pc d x rest m, at_code text pc bs -> (need <= length rest)%nat ->
  exists n, (n <= length bs)%nat /\
    match ev (value w1 x) m with
    | Ret (v, m') => exists x' rest', length rest' = length rest /\ value w x' = v /\
        forall k, vm_loop (n + k) (St text pc (d ++ [x]) rest m) = vm_loop k (St text (pc + length bs) (d ++ [x']) rest' m')
    | Err f => forall k, vm_loop (n + k) (St text pc (d ++ [x]) rest m) = Err f
    end.

(** Code that turns the two values on top into one. *)
Definition tail2 (bs : list Z) (w1 w2 w : width) (ev : Z -> Z -> mem -> res (Z * mem)) : Prop :=
  forall text pc d x y rest m, at_code text pc bs ->
  exists n, (n <= length bs)%nat /\
    match ev (value w1 x) (value w2 y) m with
    | Ret (v, m') => exists x' rest', length rest' = S (length rest) /\ value w x' = v /\
        forall k, vm_loop (n + k) (St text pc (d ++ [x; y]) rest m) = vm_loop k (St text (pc + length bs) (d ++ [x']) rest' m')
    | Err f => forall k, vm_loop (n + k) (St text pc (d ++ [x; y]) rest m) = Err f
    end.

Lemma runs_unary b1 b2 w1 w n1 n2 ev1 ev2 :
  runs b1 w1 n1 ev1 -> tail1 b2 w1 w n2 ev2 ->
  runs (b1 ++ b2) w (Nat.max n1 (S n2)) (fun m => '(x, m) ← ev1 m; ev2 x m).
Proof.
  intros H1 H2 text pc d rest m Hb Hn. apply at_code_app in Hb as [Hb1 Hb2].
  destruct (H1 text pc d rest m Hb1 ltac:(lia)) as (k1 & Hk1 & H1'). destruct (ev1 m) as [[v1 m1]|f] eqn:He1.
  - destruct H1' as (x & rest1 & Hl & <- & Hr1).
    destruct (H2 text (pc + length b1)%nat d x rest1 m1 Hb2 ltac:(lia)) as (k2 & Hk2 & H2').
    exists (k1 + k2)%nat. rewrite length_app. split; [lia|]. cbn [mbind res_bind].
    destruct (ev2 (value w1 x) m1) as [[v m']|f].
    + destruct H2' as (x' & rest' & Hl' & Hv & Hr2). exists x', rest'. split_and!; [lia|done|].
      intros k. by rewrite <- Nat.add_assoc, Hr1, Hr2, Nat.add_assoc.
    + intros k. by rewrite <- Nat.add_assoc, Hr1, H2'.
  - exists k1. rewrite length_app. split; [lia|]. done.
Qed.

Lemma runs_binary b1 b2 b3 w1 w2 w n1 n2 ev1 ev2 ev3 :
  runs b1 w1 n1 ev1 -> runs b2 w2 n2 ev2 -> tail2 b3 w1 w2 w ev3 ->
  runs (b1 ++ b2 ++ b3) w (Nat.max n1 (S n2)) (fun m => '(x, m) ← ev1 m; '(y, m) ← ev2 m; ev3 x y m).
Proof.
  intros H1 H2 H3. apply runs_unary with w1; [done|]. intros text pc d x rest m Hb Hn.
  apply at_code_app in Hb as [Hb2 Hb3].
  destruct (H2 text pc (d ++ [x]) rest m Hb2 Hn) as (k2 & Hk2 & H2'). destruct (ev2 m) as [[v2 m2]|f] eqn:He2.
  - destruct H2' as (y & rest2 & Hl & <- & Hr2).
    destruct (H3 text (pc + length b2)%nat d x y rest2 m2 Hb3) as (k3 & Hk3 & H3').
    exists (k2 + k3)%nat. rewrite length_app. split; [lia|]. cbn [mbind res_bind].
    assert (Hd : (d ++ [x]) ++ [y] = d ++ [x; y]) by by rewrite <- app_assoc.
    destruct (ev3 (value w1 x) (value w2 y) m2) as [[v m']|f].
    + destruct H3' as (x' & rest' & Hl' & Hv & Hr3). exists x', rest'. split_and!; [lia|done|].
      intros k. by rewrite <- Nat.add_assoc, Hr2, Hd, Hr3, Nat.add_assoc.
    + intros k. by rewrite <- Nat.add_assoc, Hr2, Hd, H3'.
  - exists k2. rewrite length_app. split; [lia|]. done.
Qed.

Lemma op_for_bin o w : op_table !! Z.to_nat (op_for (bin_code o) w) = Some (Some (OP_BIN w (sem o))).
Proof. by destruct o, w. Qed.

Lemma op_for_pos o w : 0 <= op_for (bin_code o) w.
Proof. by destruct o, w. Qed.

Lemma tail_bin o w w1 w2 : fits w w1 = true -> fits w w2 = true ->
  tail2 [op_for (bin_code o) w] w1 w2 w
    (fun x y m => r ← sem o (value w x) (value w y); mret (value w r, m)).
Proof.
  intros H1 H2 text pc d x y rest m Hb. exists 1%nat. split; [done|].
  assert (Hr := fun k => run_bin k text pc d x y rest m _ _ w _ Hb (op_for_bin o w) (op_for_pos o w)).
  rewrite !value_fits by done. destruct (sem o _ _) as [r|f]; cbn [mbind res_bind mret res_ret]; [|done].
  exists (set_value w x r), (y :: rest). split_and!; [done|apply value_set|]. intros k. rewrite Hr. do 2 f_equal. cbn. lia.
Qed.

Lemma tail_not w w1 : fits w w1 = true ->
  tail1 [op_for FINSH_OP_BITWISE_BYTE w] w1 w 0 (fun x m => mret (value w (Z.lnot (value w x)), m)).
Proof.
  intros H1 text pc d x rest m Hb _. exists 1%nat. split; [done|]. rewrite value_fits by done.
  exists (set_value w x (Z.lnot (value w x))), rest. split_and!; [done|apply value_set|].
  intros k. cbn [Nat.add]. rewrite (run_bw k text pc d x rest m _ _ w Hb) by (by destruct w). do 2 f_equal. cbn. lia.
Qed.

Lemma tail_deref w w1 : fits Dword w1 = true ->
  tail1 [op_for FINSH_OP_LD_VALUE_BYTE_STACK w] w1 w 0 (fun q m => v ← load w q m; mret (value w v, m)).
Proof.
  intros H1 text pc d x rest m Hb _. exists 1%nat. split; [done|].
  destruct w1; try done. assert (Hr := fun k => run_ld_value_stack k text pc d x rest m _ _ w Hb).
  destruct (load w (value Dword x) m) as [v|f]; cbn [mbind res_bind mret res_ret].
  - exists (set_value w x v), rest. split_and!; [done|apply value_set|]. intros k. cbn [Nat.add].
    rewrite Hr by (by destruct w). do 2 f_equal. cbn. lia.
  - intros k. apply Hr; by destruct w.
Qed.

(** A store, and the load that leaves the stored value. *)
Lemma tail_store w w1 w2 : fits Dword w1 = true -> fits w w2 = true ->
  tail2 [op_for FINSH_OP_ST_BYTE w; op_for FINSH_OP_LD_VALUE_BYTE_STACK w] w1 w2 w
    (fun q v m => m ← store w q (value w v) m; mret (value w v, m)).
Proof.
  intros H1 H2 text pc d x y rest m Hb. destruct w1; try done. rewrite value_fits by done.
  assert (Hr := fun k => run_st k text pc d x y rest m _ _ w Hb). apply at_code_cons in Hb as [_ Hb].
  exists 2%nat. split; [done|].
  destruct (store w (value Dword x) (value w y) m) as [m'|f] eqn:Hs; cbn [mbind res_bind mret res_ret].
  - destruct (load_stored _ _ _ _ _ Hs) as (z & Hz & Hv).
    exists (set_value w x z), (y :: rest). split_and!; [done|by rewrite value_set, Hv, value_value|].
    intros k. cbn [Nat.add]. rewrite Hr by (by destruct w).
    rewrite (run_ld_value_stack k text (S pc) d x (y :: rest) m' _ _ w Hb) by (by destruct w). rewrite Hz.
    do 2 f_equal. cbn. lia.
  - intros k. cbn [Nat.add]. apply Hr; by destruct w.
Qed.

Lemma load_s32 w a m : load w (s32 a) m = load w a m.
Proof. by rewrite <- load_u32, wrap_swrap, load_u32. Qed.

Lemma store_s32 w a v m : store w (s32 a) v m = store w a v m.
Proof. by rewrite <- store_u32, wrap_swrap, store_u32. Qed.

Lemma number_one w : number (one w) = 1.
Proof. by destruct w. Qed.

Lemma one_length w : length (one w) = size w.
Proof. by destruct w. Qed.

(** The increment of the variable whose address is on the stack. *)
Definition stepped (dec : bool) (w : width) (v : Z) : Z := value w (if dec then value w v - 1 else value w v + 1).

Lemma step_length dec w a : length (step_code dec w a) = (8 + size w)%nat.
Proof.
  unfold step_code. cbn [length]. rewrite length_app. cbn [length]. rewrite length_app, set32_length, one_length.
  cbn [length]. lia.
Qed.

Lemma step_run dec w a text pc d x rest m :
  at_code text pc (step_code dec w a) -> (2 <= length rest)%nat -> value Dword x = s32 a ->
  exists rest', length rest' = length rest /\
  match v ← load w a m; store w a (stepped dec w v) m with
  | Ret m' => forall k, vm_loop (4 + k) (St text pc (d ++ [x]) rest m) =
      vm_loop k (St text (pc + length (step_code dec w a)) (d ++ [x]) rest' m')
  | Err f => forall k, vm_loop (4 + k) (St text pc (d ++ [x]) rest m) = Err f
  end.
Proof.
  intros Hb Hn Hx. destruct rest as [|y [|z rest]]; try (cbn in Hn; lia). rewrite step_length.
  unfold step_code in Hb. rewrite app_comm_cons in Hb. apply at_code_app in Hb as [Hb1 Hb].
  rewrite app_comm_cons in Hb. apply at_code_app in Hb as [Hb2 Hb3]. cbn [length] in Hb2, Hb3.
  rewrite set32_length in Hb2, Hb3. rewrite one_length in Hb3.
  assert (Hr1 := fun k => run_ld_value k text pc (d ++ [x]) y (z :: rest) m _ _ w Hb1).
  rewrite number_set32, load_u32 in Hr1. destruct (load w a m) as [v|f]; cbn [mbind res_bind].
  2: { exists (y :: z :: rest). split; [done|]. intros k. apply Hr1; clear; done || by destruct w. }
  set (s1 := set_value w y v). set (s2 := set_value w z (number (one w))).
  set (s3 := set_value w s1 (if dec then value w s1 - value w s2 else value w s1 + value w s2)).
  assert (Hs3 : value w s3 = stepped dec w v).
  { unfold s3, stepped, s1, s2. rewrite !value_set, number_one. replace (value w 1) with 1 by by destruct w.
    by destruct dec. }
  assert (Hr2 : forall k, vm_loop (3 + k) (St text (pc + 5) ((d ++ [x]) ++ [s1]) (z :: rest) m) =
    vm_loop (1 + k) (St text (pc + 7 + size w) (d ++ [x; s3]) (s2 :: rest) m)).
  { intros k. cbn [Nat.add]. rewrite (run_ld _ text (pc + 5) _ z rest m _ _ w Hb2) by (clear; done || by destruct w).
    fold s2. rewrite <- (app_assoc (d ++ [x]) [s1]). cbn [app].
    replace (S (pc + 5) + size w)%nat with (pc + 5 + S (size w))%nat by lia.
    destruct dec.
    - rewrite (run_bin _ text _ (d ++ [x]) s1 s2 rest m _ _ w _ Hb3 (op_for_bin Sub w) (op_for_pos Sub w)).
      cbn [sem mret res_ret]. rewrite <- app_assoc. do 2 f_equal. lia.
    - rewrite (run_bin _ text _ (d ++ [x]) s1 s2 rest m _ _ w _ Hb3 (op_for_bin Add w) (op_for_pos Add w)).
      cbn [sem mret res_ret]. rewrite <- app_assoc. do 2 f_equal. lia. }
  apply at_code_cons in Hb3 as [_ Hb4].
  replace (S (pc + 5 + S (size w))) with (pc + 7 + size w)%nat in Hb4 by lia.
  assert (Hr3 := fun k => run_st k text _ d x s3 (s2 :: rest) m _ _ w Hb4). rewrite Hs3, Hx, store_s32 in Hr3.
  exists (s3 :: s2 :: rest). split; [done|].
  assert (Hrun : forall k, vm_loop (4 + k) (St text pc (d ++ [x]) (y :: z :: rest) m) =
    vm_loop (1 + k) (St text (pc + 7 + size w) (d ++ [x; s3]) (s2 :: rest) m)).
  { intros k. cbn [Nat.add]. rewrite Hr1 by (clear; done || by destruct w). rewrite <- Hr2. do 2 f_equal. lia. }
  destruct (store w a (stepped dec w v) m) as [m'|f]; intros k; rewrite Hrun; cbn [Nat.add].
  - rewrite Hr3 by (clear; done || by destruct w). do 2 f_equal. lia.
  - apply Hr3; clear; done || by destruct w.
Qed.

(** The load after [++x] reads four bytes, which are there for a variable. *)
Lemma tail_pre dec w a : (forall k, 0 <= k < 4 -> valid (u32 (a + k)) = true) ->
  forall text pc d x rest m, at_code text pc (step_code dec w a ++ [FINSH_OP_LD_VALUE_DWORD_STACK]) ->
  (2 <= length rest)%nat -> value Dword x = s32 a ->
  match v ← load w a m; m ← store w a (stepped dec w v) m; mret (stepped dec w v, m) with
  | Ret (v, m') => exists x' rest', length rest' = length rest /\ value w x' = v /\
      forall k, vm_loop (5 + k) (St text pc (d ++ [x]) rest m) =
        vm_loop k (St text (pc + length (step_code dec w a ++ [FINSH_OP_LD_VALUE_DWORD_STACK])) (d ++ [x']) rest' m')
  | Err f => forall k, vm_loop (5 + k) (St text pc (d ++ [x]) rest m) = Err f
  end.
Proof.
  intros Ha text pc d x rest m Hb Hn Hx. apply at_code_app in Hb as [Hb1 Hb2].
  destruct (step_run dec w a text pc d x rest m Hb1 Hn Hx) as (rest' & Hl & Hs).
  destruct (load w a m) as [v|f]; cbn [mbind res_bind] in *; [|intros k; apply (Hs (S k))].
  destruct (store w a (stepped dec w v) m) as [m'|f] eqn:Hst; cbn [mret res_ret] in *; [|intros k; apply (Hs (S k))].
  destruct (load_valid 4 m' a Ha) as [z Hz]. destruct (load_low w a m' z Hz) as (y & Hy & Hyz).
  destruct (load_stored _ _ _ _ _ Hst) as (y' & Hy' & Hv). assert (y' = y) as -> by congruence.
  exists (set_value Dword x z), rest'. split_and!; [done| |].
  - rewrite <- (value_fits w Dword) by (by destruct w). rewrite value_set.
    rewrite value_fits by (by destruct w). rewrite <- Hyz, Hv. unfold stepped. apply value_value.
  - intros k. rewrite length_app. cbn [length]. change (5 + k)%nat with (4 + S k)%nat. rewrite Hs.
    rewrite (run_ld_value_stack k text _ d x rest' m' _ _ Dword Hb2) by done. rewrite Hx, load_s32.
    change (load Dword a m') with (load_bytes 4 a m'). rewrite Hz. do 2 f_equal. lia.
Qed.

Lemma runs_pre dec w a : (forall k, 0 <= k < 4 -> valid (u32 (a + k)) = true) ->
  runs ((FINSH_OP_LD_DWORD :: set32 a) ++ step_code dec w a ++ [FINSH_OP_LD_VALUE_DWORD_STACK]) w 4
    (fun m => v ← load w a m; m ← store w a (stepped dec w v) m; mret (stepped dec w v, m)).
Proof.
  intros Ha text pc d rest m Hb Hn. apply at_code_app in Hb as [Hb1 Hb2].
  destruct (runs_const a text pc d rest m Hb1 ltac:(lia)) as (n1 & Hn1 & H1). cbn [mret res_ret] in H1.
  destruct H1 as (x & rest1 & Hl & Hx & H1).
  assert (H2 := tail_pre dec w a Ha text _ d x rest1 m Hb2 ltac:(lia) Hx).
  exists (n1 + 5)%nat. split; [rewrite !length_app, step_length; cbn [length] in *; rewrite set32_length in *; lia|].
  destruct (v ← load w a m; _) as [[v m']|f].
  - destruct H2 as (x' & rest' & Hl' & Hv & H2). exists x', rest'. split_and!; [lia|done|].
    intros k. rewrite <- Nat.add_assoc, H1, H2. by rewrite (length_app (_ :: _)), Nat.add_assoc.
  - intros k. by rewrite <- Nat.add_assoc, H1, H2.
Qed.

(** [x++]: the old value stays below. *)
Lemma runs_post dec w a :
  runs ((op_for FINSH_OP_LD_VALUE_BYTE w :: set32 a) ++ (FINSH_OP_LD_DWORD :: set32 a) ++ step_code dec w a ++ [FINSH_OP_POP])
    w 4 (fun m => v ← load w a m; m ← store w a (stepped dec w v) m; mret (value w v, m)).
Proof.
  intros text pc d rest m Hb Hn. apply at_code_app in Hb as [Hb1 Hb2]. apply at_code_app in Hb2 as [Hb2 Hb3].
  apply at_code_app in Hb3 as [Hb3 Hb4].
  destruct (runs_load w a text pc d rest m Hb1 ltac:(lia)) as (n1 & Hn1 & H1).
  destruct (load w a m) as [v|f] eqn:Hld; cbn [mbind res_bind mret res_ret] in *.
  2: { exists n1. split; [rewrite length_app; lia|done]. }
  destruct H1 as (x0 & rest1 & Hl1 & Hx0 & H1).
  destruct (runs_const a text _ (d ++ [x0]) rest1 m Hb2 ltac:(lia)) as (n2 & Hn2 & H2). cbn [mret res_ret] in H2.
  destruct H2 as (x & rest2 & Hl2 & Hx & H2).
  destruct (step_run dec w a text _ (d ++ [x0]) x rest2 m Hb3 ltac:(lia) Hx) as (rest3 & Hl3 & H3).
  rewrite Hld in H3. cbn [mbind res_bind] in H3. exists (n1 + (n2 + 5))%nat.
  split; [rewrite !length_app, step_length; cbn [length] in *; rewrite set32_length in *; lia|].
  destruct (store w a (stepped dec w v) m) as [m'|f].
  - exists x0, (x :: rest3). split_and!; [cbn; lia|done|]. intros k.
    replace (n1 + (n2 + 5) + k)%nat with (n1 + (n2 + (4 + S k)))%nat by lia. rewrite H1, H2, H3.
    rewrite (run_pop k text _ (d ++ [x0]) x rest3 m' _ Hb4). do 2 f_equal. rewrite !length_app. cbn [length].
    rewrite set32_length. lia.
  - intros k. replace (n1 + (n2 + 5) + k)%nat with (n1 + (n2 + (4 + S k)))%nat by lia. by rewrite H1, H2, H3.
Qed.

Lemma runs_nil : runs_all [] 0 (fun m => mret ([], m)).
Proof.
  intros text pc d rest m _ _. exists 0%nat. split; [done|]. exists [], rest. split_and!; [done|done|].
  intros k. rewrite app_nil_r. cbn. do 2 f_equal. lia.
Qed.

Lemma runs_cons b1 b2 w n1 n2 ev1 ev2 : fits Dword w = true -> runs b1 w n1 ev1 -> runs_all b2 n2 ev2 ->
  runs_all (b1 ++ b2) (Nat.max n1 (S n2)) (fun m => '(v, m) ← ev1 m; '(vs, m) ← ev2 m; mret (v :: vs, m)).
Proof.
  intros Hw H1 H2 text pc d rest m Hb Hn. destruct w; try done. apply at_code_app in Hb as [Hb1 Hb2].
  destruct (H1 text pc d rest m Hb1 ltac:(lia)) as (k1 & Hk1 & H1'). destruct (ev1 m) as [[v1 m1]|f] eqn:He1.
  - destruct H1' as (x & rest1 & Hl & <- & Hr1).
    destruct (H2 text (pc + length b1)%nat (d ++ [x]) rest1 m1 Hb2 ltac:(lia)) as (k2 & Hk2 & H2').
    exists (k1 + k2)%nat. rewrite length_app. split; [lia|]. cbn [mbind res_bind].
    destruct (ev2 m1) as [[vs m']|f]; cbn [mret res_ret].
    + destruct H2' as (xs & rest' & Hl' & <- & Hr2). exists (x :: xs), rest'. split_and!; [cbn; lia|done|].
      intros k. by rewrite <- Nat.add_assoc, Hr1, Hr2, Nat.add_assoc, <- app_assoc.
    + intros k. by rewrite <- Nat.add_assoc, Hr1, H2'.
  - exists k1. rewrite length_app. split; [lia|]. done.
Qed.

Lemma runs_call f bs n need ev : (n <= 16)%nat -> runs_all bs need ev ->
  (forall m vs m', ev m = Ret (vs, m') -> length vs = n) ->
  runs ((FINSH_OP_LD_DWORD :: set32 f) ++ bs ++ [FINSH_OP_SYSCALL; Z.of_nat n]) Dword (S need)
    (fun m => '(vs, m) ← ev m;
              '(r, m) ← call (u32 f) (match vs with [] => [0] | _ => u32 <$> vs end) m;
              mret (s32 r, m)).
Proof.
  intros H16 Hbs Hlen text pc d rest m Hb Hn. apply at_code_app in Hb as [Hb1 Hb2]. apply at_code_app in Hb2 as [Hb2 Hb3].
  destruct (runs_const f text pc d rest m Hb1 ltac:(lia)) as (n1 & Hn1 & H1). cbn [mret res_ret] in H1.
  destruct H1 as (x & rest1 & Hl1 & Hx & H1).
  destruct (Hbs text _ (d ++ [x]) rest1 m Hb2 ltac:(lia)) as (n2 & Hn2 & H2).
  exists (n1 + (n2 + 1))%nat. rewrite !length_app. split; [cbn [length] in *; lia|].
  destruct (ev m) as [[vs m1]|e] eqn:Hev; cbn [mbind res_bind].
  2: { intros k. replace (n1 + (n2 + 1) + k)%nat with (n1 + (n2 + S k))%nat by lia. by rewrite H1, H2. }
  destruct H2 as (xs & rest2 & Hl2 & Hxs & H2). specialize (Hlen _ _ _ Hev).
  assert (Hlx : length xs = n) by (by rewrite <- Hlen, <- Hxs, length_fmap).
  assert (Hrc := fun k => run_call k text _ d x xs rest2 m1 _ [] Hb3 (f_equal Z.of_nat (eq_sym Hlx)) ltac:(lia)).
  assert (Hargs : (if Z.of_nat n =? 0 then [0] else u32 <$> xs) = match vs with [] => [0] | _ => u32 <$> vs end).
  { rewrite <- Hxs, <- Hlx. destruct xs as [|y xs]; [done|]. cbn [length].
    rewrite (proj2 (Z.eqb_neq _ 0)) by lia. change (match value Dword <$> y :: xs with [] => [0] | _ => u32 <$> (value Dword <$> y :: xs) end)
      with (u32 <$> (value Dword <$> y :: xs)). rewrite <- list_fmap_compose. apply list_fmap_ext. intros i z _. symmetry. apply u32_value. }
  assert (Hf : u32 x = u32 f) by (rewrite <- (u32_value x), Hx; apply wrap_swrap). rewrite Hargs, Hf in Hrc.
  assert (Hd : d ++ x :: xs = (d ++ [x]) ++ xs) by by rewrite <- app_assoc. rewrite Hd in Hrc.
  destruct (call _ _ m1) as [[r m2]|e]; cbn [mret res_ret].
  - exists (u32 r), (xs ++ rest2). split_and!; [rewrite length_app; lia|by apply swrap_wrap|]. intros k.
    replace (n1 + (n2 + 1) + k)%nat with (n1 + (n2 + S k))%nat by lia. rewrite H1, H2, Hrc.
    do 2 f_equal. cbn [length]. lia.
  - intros k. replace (n1 + (n2 + 1) + k)%nat with (n1 + (n2 + S k))%nat by lia. by rewrite H1, H2, Hrc.
Qed.

Lemma evals_length es : forall m vs m', evals vars es m = Ret (vs, m') -> length vs = exprs_length es.
Proof.
  induction es as [|e es IH]; intros m vs m'; [by intros [= <- _]|].
  change (evals vars (ECons e es) m) with ('(v, m) ← eval vars e m; '(vs, m) ← evals vars es m; mret (v :: vs, m)).
  destruct (eval vars e m) as [[v m1]|]; cbn [mbind res_bind]; [|done].
  destruct (evals vars es m1) as [[vs' m2]|] eqn:Hes; cbn [mbind res_bind mret res_ret]; [|done].
  intros [= <- _]. cbn. f_equal. by eapply IH.
Qed.

Lemma runs_weaken bs w n n' ev : runs bs w n ev -> (n <= n')%nat -> runs bs w n' ev.
Proof. intros Hr Hn text pc d rest m Hb Hl. apply Hr; [done|lia]. Qed.

Lemma local_valid x k : var_ok vars x = true -> is_local x = true -> 0 <= k < 4 -> valid (u32 (var_addr x + k)) = true.
Proof.
  destruct x as [i|]; [|done]. cbn [var_ok]. intros [Hi _]%andb_true_iff _ Hk.
  apply andb_true_iff in Hi as [H1%Z.leb_le H2%Z.ltb_lt]. by apply vars_valid.
Qed.

Lemma depth_pos e : (1 <= depth e)%nat.
Proof. apply (expr_ind2 (fun e => 1 <= depth e)%nat (fun _ => True)); cbn; lia. Qed.

(** The code computes the expression. *)
Lemma code_runs : (forall e, typed vars e = true -> runs (code vars e) (vwidth vars e) (depth e) (eval vars e)) /\
  (forall es, typeds vars es = true -> runs_all (codes vars es) (depths es) (evals vars es)).
Proof.
  apply expr_mutind; cbn [typed typeds code codes vwidth dtype depth depths eval evals];
    intros; rewrite ?andb_true_iff, ?Nat.leb_le in *; destruct_and?; rewrite ?width_dt_dt.
  - apply runs_char.
  - apply runs_const.
  - apply runs_load.
  - eapply runs_binary; [by apply H|by apply H0|]. by apply tail_bin.
  - eapply runs_weaken; [eapply runs_unary; [by apply H|by apply tail_not]|]. assert (Hp := depth_pos a). lia.
  - eapply runs_ext, runs_weaken; [|eapply runs_binary; [apply runs_const|by apply H|by apply (tail_store _ Dword)]|];
      [|assert (Hp := depth_pos a); lia].
    intros m. cbn [mbind res_bind mret res_ret]. destruct (eval vars a m) as [[v m']|]; [|done]. cbn.
    by rewrite store_s32.
  - eapply runs_binary; [by apply H|by apply H0|]. by apply tail_store.
  - destruct pre; [apply runs_pre; intros; by apply local_valid|apply runs_post].
  - eapply runs_weaken; [eapply runs_unary; [by apply H|by apply tail_deref]|]. assert (Hp := depth_pos p). lia.
  - apply runs_const.
  - eapply runs_call; [done|by apply H|]. apply evals_length.
  - by apply H.
  - apply runs_nil.
  - eapply runs_cons; [done|by apply H|by apply H0].
Qed.
End execution.

(** ** Programs: statements one after the other *)

Section programs.
Context `{Mc : Machine}.
Context (vars : list finsh_var).

Abbreviation annot_program := (annot_program vars).
Abbreviation code_program := (code_program vars).
Abbreviation eval_program := (eval_program vars).
Abbreviation program_width := (program_width vars).

Lemma check_program es : forall e err, Forall (fun e => typed vars e = true) (e :: es) ->
  finsh_type_check vars (raw_program e es) FINSH_NODE_VALUE err = Ret (annot_program e es, err).
Proof.
  induction es as [|e' es IH]; intros e err [He Hes]%Forall_cons; apply check_raw; try done.
  apply check_some. by apply IH.
Qed.

Lemma annot_sibling e : forall s, sibling (annot vars e s) = s /\ set_sibling None (annot vars e s) = annot vars e None.
Proof.
  apply (expr_ind2 (fun e => forall s, sibling (annot vars e s) = s /\ set_sibling None (annot vars e s) = annot vars e None)
    (fun _ => True)); try done; by intros [].
Qed.

Lemma compile_statements_eq n : compile_statements vars n =
  (_ ← finsh_compile vars (set_sibling None n);
   match sibling n with Some s => _ ← finsh_code_byte FINSH_OP_POP; compile_statements vars s | None => mret tt end).
Proof. by destruct n. Qed.

Lemma compile_program es : forall e, Forall (fun e => typed vars e = true) (e :: es) ->
  emits (compile_statements vars (annot_program e es)) (code_program e es).
Proof.
  induction es as [|e' es IH]; intros e [He Hes]%Forall_cons; rewrite compile_statements_eq; cbn [annot_program code_program].
  - destruct (annot_sibling e None) as [-> ->]. rewrite <- (app_nil_r (code vars e)). apply emits_bind; [|apply emits_nil].
    apply emits_alone. by apply compile_annot.
  - destruct (annot_sibling e (Some (annot_program e' es))) as [Hs Hn]. rewrite Hs, Hn.
    apply emits_bind; [apply emits_alone; by apply compile_annot|]. apply emits_byte_cons; [done|]. by apply IH.
Qed.

(** What [finsh_compiler_run] does with a well-typed program. *)
Lemma compiler_output e es err stack : (0 < length stack)%nat -> Forall (fun e => typed vars e = true) (e :: es) ->
  finsh_compiler_run vars (Some (raw_program e es)) err stack =
    if decide (length (code_program e es) <= FINSH_TEXT_MAX)%nat
    then Ret (code_program e es ++ replicate (FINSH_TEXT_MAX - length (code_program e es)) 0, err, <[0%nat := 0]> stack)
    else Err OutOfBounds.
Proof.
  intros Hst Ht. unfold finsh_compiler_run. rewrite check_program by done. cbn [mbind res_bind mret res_ret fst snd].
  rewrite upd_ok by lia. cbn [mbind res_bind]. change (mkC (replicate FINSH_TEXT_MAX 0) 0 err) with
    (C [] (replicate FINSH_TEXT_MAX 0) err). rewrite (compile_program es e Ht), length_replicate. case_decide; [|done].
  cbn [mbind res_bind mret res_ret snd text errno C app]. by rewrite drop_replicate.
Qed.

(** The same for any tree whose code is known. *)
Lemma compiler_emits n n' bs err stack : (0 < length stack)%nat ->
  finsh_type_check vars n FINSH_NODE_VALUE err = Ret (n', err) -> emits (compile_statements vars n') bs ->
  (length bs <= FINSH_TEXT_MAX)%nat ->
  finsh_compiler_run vars (Some n) err stack =
    Ret (bs ++ replicate (FINSH_TEXT_MAX - length bs) 0, err, <[0%nat := 0]> stack).
Proof.
  intros Hst Hn Hb Hl. unfold finsh_compiler_run. rewrite Hn. cbn [mbind res_bind mret res_ret fst snd].
  rewrite upd_ok by lia. cbn [mbind res_bind]. change (mkC (replicate FINSH_TEXT_MAX 0) 0 err) with
    (C [] (replicate FINSH_TEXT_MAX 0) err). rewrite (Hb _ _ _), length_replicate, decide_True by done.
  cbn [mbind res_bind mret res_ret snd text errno C app]. by rewrite drop_replicate.
Qed.

(** An operator whose first operand is of type void, as a call is: both operands
    are compiled, the operator is not. *)
Lemma check_operands o a b err : typeds vars (ECons a (ECons b ENil)) = true ->
  finsh_type_check vars (raw 0 (EBin o a b) None) FINSH_NODE_VALUE err = Ret (annot vars (EBin o a b) None, err).
Proof.
  cbn [typeds]. rewrite !andb_true_iff. intros [[Ha _] [[Hb _] _]].
  apply check_sys; [|apply annot_type|done]. destruct o; apply check_raw; try done; apply check_some; by apply check_raw.
Qed.

Lemma compile_operands o a b : dtype vars a = FINSH_DATA_TYPE_VOID -> typeds vars (ECons a (ECons b ENil)) = true ->
  emits (compile_statements vars (annot vars (EBin o a b) None)) (codes vars (ECons a (ECons b ENil))).
Proof.
  cbn [typeds]. rewrite !andb_true_iff. intros Hv [[Ha _] [[Hb _] _]]. rewrite compile_statements_eq.
  change (codes vars _) with (code vars a ++ code vars b ++ []).
  change (annot vars (EBin o a b) None) with (sys_node (kind o) (dtype vars a) 0 None (annot vars a (Some (annot vars b None)))).
  rewrite Hv.
  replace (code vars a ++ code vars b ++ []) with ((((code vars a ++ code vars b) ++ []) ++ []) ++ [])
    by by rewrite !app_nil_r.
  apply emits_bind; [|apply emits_nil].
  apply emits_sys; [|destruct o; apply emits_nil|apply emits_nil].
  apply compile_annot; [done|]. apply emits_one, emits_alone. by apply compile_annot.
Qed.

Hypothesis vars_valid : forall i k, 0 <= i < Z.of_nat (length vars) -> 0 <= k < 4 -> valid (u32 (var_value i + k)) = true.

Lemma last_cons {A} (l : list A) : forall x y, List.last (x :: l) y = List.last l x.
Proof. induction l as [|z l IH]; intros x y; [done|]. change (List.last (z :: l) y = List.last (z :: l) x). by rewrite !IH. Qed.

Lemma program_runs es : forall e, Forall (fun e => typed vars e = true) (e :: es) ->
  runs (code_program e es) (program_width e es) (program_depth e es) (eval_program e es).
Proof.
  unfold program_width. induction es as [|e' es IH]; intros e [He Hes]%Forall_cons;
    cbn [code_program program_depth eval_program].
  - by apply code_runs.
  - assert (Hw : List.last (e' :: es) e = List.last es e') by apply last_cons.
    rewrite Hw. intros text pc d rest m Hb Hn. apply at_code_app in Hb as [Hb1 Hb2].
    destruct (proj1 (code_runs vars vars_valid) e He text pc d rest m Hb1 ltac:(lia)) as (n1 & Hn1 & H1).
    destruct (eval vars e m) as [[v1 m1]|f]; cbn [mbind res_bind].
    2: { exists n1. rewrite length_app. split; [lia|done]. }
    destruct H1 as (x & rest1 & Hl & _ & H1). destruct (at_code_cons _ _ _ _ Hb2) as [_ Hb3].
    destruct (IH e' Hes text _ d (x :: rest1) m1 Hb3 ltac:(cbn; lia)) as (n2 & Hn2 & H2).
    exists (n1 + S n2)%nat. rewrite length_app. cbn [length]. split; [lia|].
    destruct (eval_program e' es m1) as [[v m']|f].
    + destruct H2 as (y & rest' & Hl' & Hv & H2). exists y, rest'. split_and!; [cbn in Hl'; lia|done|].
      intros k. rewrite <- Nat.add_assoc, H1. cbn [Nat.add]. rewrite (run_pop _ text _ d x rest1 m1 _ Hb2), H2.
      do 2 f_equal. lia.
    + intros k. rewrite <- Nat.add_assoc, H1. cbn [Nat.add]. by rewrite (run_pop _ text _ d x rest1 m1 _ Hb2), H2.
Qed.

(** Running code in an otherwise empty text segment. *)
Lemma run_padded bs stack m n s : (length bs <= FINSH_TEXT_MAX)%nat -> (n <= length bs)%nat ->
  let text := bs ++ replicate (FINSH_TEXT_MAX - length bs) 0 in
  (forall k, vm_loop (n + k) (St text 0 [] stack m) =
    match s with Ret (d, rest, m') => vm_loop k (St text (0 + length bs) d rest m') | Err f => Err f end) ->
  finsh_vm_run stack text m =
    match s with Ret (d, rest, m') => Ret (St text FINSH_TEXT_MAX d rest m') | Err f => Err f end.
Proof.
  intros Hl Hn text Hr. assert (Hlen : length text = FINSH_TEXT_MAX) by (unfold text; rewrite length_app, length_replicate; lia).
  assert (Hb : at_code text 0 (bs ++ replicate (FINSH_TEXT_MAX - length bs) 0))
    by (split; [done|]; exists []; by rewrite app_nil_r).
  apply at_code_app in Hb as [_ Hb]. unfold finsh_vm_run. change (start stack text m) with (St text 0 [] stack m).
  assert (Hf : FINSH_TEXT_MAX = (n + (FINSH_TEXT_MAX - n))%nat) by lia. rewrite Hf at 1. rewrite Hr.
  destruct s as [[[d rest] m']|f]; [|done].
  replace (FINSH_TEXT_MAX - n)%nat with ((FINSH_TEXT_MAX - length bs) + (length bs - n))%nat by lia.
  rewrite run_noops by exact Hb. replace (0 + length bs + _)%nat with FINSH_TEXT_MAX by lia. apply run_end.
Qed.

Lemma at_start bs : (length bs <= FINSH_TEXT_MAX)%nat ->
  at_code (bs ++ replicate (FINSH_TEXT_MAX - length bs) 0) 0 bs.
Proof. intros Hl. split; [rewrite length_app, length_replicate; lia|]. by eexists. Qed.

Lemma run_text bs w need ev stack m : runs bs w need ev -> (length bs <= FINSH_TEXT_MAX)%nat ->
  (need <= length stack)%nat ->
  match ev m with
  | Ret (v, m') => exists x rest, value w x = v /\
      finsh_vm_run stack (bs ++ replicate (FINSH_TEXT_MAX - length bs) 0) m =
        Ret (St (bs ++ replicate (FINSH_TEXT_MAX - length bs) 0) FINSH_TEXT_MAX [x] rest m')
  | Err f => finsh_vm_run stack (bs ++ replicate (FINSH_TEXT_MAX - length bs) 0) m = Err f
  end.
Proof.
  intros Hr Hl Hn. destruct (Hr _ 0%nat [] stack m (at_start bs Hl) Hn) as (n & Hnl & Hr').
  destruct (ev m) as [[v m']|f].
  - destruct Hr' as (x & rest & _ & Hv & Hr'). exists x, rest. split; [done|].
    exact (run_padded bs stack m n (Ret ([x], rest, m')) Hl Hnl Hr').
  - exact (run_padded bs stack m n (Err f) Hl Hnl Hr').
Qed.

Lemma run_text_all bs need ev stack m vs m' : runs_all bs need ev -> (length bs <= FINSH_TEXT_MAX)%nat ->
  (need <= length stack)%nat -> ev m = Ret (vs, m') ->
  exists xs rest, value Dword <$> xs = vs /\
    finsh_vm_run stack (bs ++ replicate (FINSH_TEXT_MAX - length bs) 0) m =
      Ret (St (bs ++ replicate (FINSH_TEXT_MAX - length bs) 0) FINSH_TEXT_MAX xs rest m').
Proof.
  intros Hr Hl Hn Hev. destruct (Hr _ 0%nat [] stack m (at_start bs Hl) Hn) as (n & Hnl & Hr'). rewrite Hev in Hr'.
  destruct Hr' as (xs & rest & _ & Hv & Hr'). exists xs, rest. split; [done|].
  exact (run_padded bs stack m n (Ret (xs, rest, m')) Hl Hnl Hr').
Qed.
End programs.

(** Compiling and running. *)
Lemma compiled_run `{Machine} vars stack m e es err :
  (forall i k, 0 <= i < Z.of_nat (length vars) -> 0 <= k < 4 -> valid (u32 (var_value i + k)) = true) ->
  length stack = FINSH_STACK_MAX ->
  Forall (fun e => typed vars e = true) (e :: es) ->
  (length (code_program vars e es) <= FINSH_TEXT_MAX)%nat ->
  (program_depth e es <= FINSH_STACK_MAX)%nat ->
  exists text, finsh_compiler_run vars (Some (raw_program e es)) err stack = Ret (text, err, <[0%nat := 0]> stack) /\
    match eval_program vars e es m with
    | Ret (v, m') => exists s x, finsh_vm_run (<[0%nat := 0]> stack) text m = Ret s /\ memory s = m' /\
        idx (finsh_vm_stack s) 0 = Ret x /\ value (program_width vars e es) x = v
    | Err f => finsh_vm_run (<[0%nat := 0]> stack) text m = Err f
    end.
Proof.
  intros Hv Hst Ht Hl Hd. eexists. split.
  - rewrite (compiler_output vars e es err stack) by (done || rewrite Hst; unfold FINSH_STACK_MAX; lia). by rewrite decide_True.
  - assert (Hr := run_text _ _ _ _ (<[0%nat := 0]> stack) m (program_runs vars Hv es e Ht) Hl).
    rewrite length_insert, Hst in Hr. specialize (Hr Hd).
    destruct (eval_program vars e es m) as [[v m']|f]; [|done]. destruct Hr as (x & rest & Hx & Hr).
    do 2 eexists. split; [exact Hr|]. done.
Qed.

(** ** Properties *)

(** C3: compiled code means what the expression means.  For every well-typed
    sequence of statements whose code fits into the text segment, compiling the
    parser's tree succeeds without an error, and running the code, whatever the
    stack held before, ends in the memory the evaluation ends in, with the value
    of the last statement at the bottom of the stack; and it fails (division by
    zero, an invalid address, a failing function) exactly when the evaluation
    does, with the same fault. *)
Theorem finsh_code_correct `{Machine} vars stack m e es err :
  (forall i k, 0 <= i < Z.of_nat (length vars) -> 0 <= k < 4 -> valid (u32 (var_value i + k)) = true) ->
  length stack = FINSH_STACK_MAX ->
  Forall (fun e => typed vars e = true) (e :: es) ->
  (length (code_program vars e es) <= FINSH_TEXT_MAX)%nat ->
  (program_depth e es <= FINSH_STACK_MAX)%nat ->
  exists text, finsh_compiler_run vars (Some (raw_program e es)) err stack = Ret (text, err, <[0%nat := 0]> stack) /\
    match eval_program vars e es m with
    | Ret (v, m') => exists s x, finsh_vm_run (<[0%nat := 0]> stack) text m = Ret s /\ memory s = m' /\
        idx (finsh_vm_stack s) 0 = Ret x /\ value (program_width vars e es) x = v
    | Err f => finsh_vm_run (<[0%nat := 0]> stack) text m = Err f
    end.
Proof. apply compiled_run. Qed.

(** C40: the types.  On the tree of a well-typed sequence of statements the type
    checker finds no error, and it gives every node the data type of its
    expression and marks exactly the variables that are assigned to or whose
    address is taken; casts leave no trace. *)
Theorem finsh_types `{Machine} vars e es err :
  Forall (fun e => typed vars e = true) (e :: es) ->
  finsh_type_check vars (raw_program e es) FINSH_NODE_VALUE err = Ret (annot_program vars e es, err) /\
  data_type (annot_program vars e es) = dtype vars e.
Proof.
  intros Ht. split; [by apply check_program|]. destruct es; apply annot_type.
Qed.

(** code is emitted up to the end of the text segment and beyond: a program
    of at most 128 bytes gives these bytes and zeros, a longer one is written
    past the segment, for no length is checked. *)
Theorem finsh_text_overflow `{Machine} vars e es err stack :
  (0 < length stack)%nat -> Forall (fun e => typed vars e = true) (e :: es) ->
  finsh_compiler_run vars (Some (raw_program e es)) err stack =
    if decide (length (code_program vars e es) <= FINSH_TEXT_MAX)%nat
    then Ret (code_program vars e es ++ replicate (FINSH_TEXT_MAX - length (code_program vars e es)) 0, err,
              <[0%nat := 0]> stack)
    else Err OutOfBounds.
Proof. apply compiler_output. Qed.

(** an operator whose first operand is a call is lost: the node takes the data
    type of the function's identifier, void, for which no operation is emitted, so
    the machine ends with the result of the call at the bottom of the stack,
    whatever the second operand is. *)
Theorem finsh_call_operand `{Machine} vars o self f args b err stack m r v m' :
  (forall i k, 0 <= i < Z.of_nat (length vars) -> 0 <= k < 4 -> valid (u32 (var_value i + k)) = true) ->
  length stack = FINSH_STACK_MAX ->
  let operands := ECons (ECall self f args) (ECons b ENil) in
  typeds vars operands = true ->
  (length (codes vars operands) <= FINSH_TEXT_MAX)%nat -> (depths operands <= FINSH_STACK_MAX)%nat ->
  evals vars operands m = Ret ([r; v], m') ->
  exists text s x, finsh_compiler_run vars (Some (raw 0 (EBin o (ECall self f args) b) None)) err stack =
      Ret (text, err, <[0%nat := 0]> stack) /\
    finsh_vm_run (<[0%nat := 0]> stack) text m = Ret s /\ memory s = m' /\
    idx (finsh_vm_stack s) 0 = Ret x /\ value Dword x = r.
Proof.
  intros Hv Hst operands Ht Hl Hd Hev. assert (H64 : (0 < length stack)%nat) by (rewrite Hst; unfold FINSH_STACK_MAX; lia).
  destruct (run_text_all _ _ _ (<[0%nat := 0]> stack) m _ _ (proj2 (code_runs vars Hv) operands Ht) Hl
    ltac:(by rewrite length_insert, Hst) Hev) as (xs & rest & Hxs & Hrun).
  destruct xs as [|x [|y [|]]]; try done. injection Hxs as Hx Hy.
  do 2 eexists. exists x. split; [|split; [exact Hrun|done]].
  exact (compiler_emits vars _ _ _ err stack H64 (check_operands vars o _ b err Ht) (compile_operands vars o (ECall self f args) b eq_refl Ht) Hl).
Qed.

(** ** Witnesses *)

Lemma demo_valid i k : 0 <= i < Z.of_nat (length demo_vars) -> 0 <= k < 4 -> valid (u32 (var_value i + k)) = true.
Proof.
  change (Z.of_nat (length demo_vars)) with 8. intros Hi Hk. unfold valid, var_value, demo, global_variable.
  apply andb_true_iff. rewrite Z.leb_le, Z.ltb_lt. wrap_lia.
Qed.

Lemma finsh_code_witness : exists text s x,
  finsh_compiler_run demo_vars (Some (raw_program demo_first demo_rest)) 0 (replicate 64 7) =
    Ret (text, 0, 0 :: replicate 63 7) /\
  finsh_vm_run (0 :: replicate 63 7) text (fun _ => 0) = Ret s /\ idx (finsh_vm_stack s) 0 = Ret x /\ value Dword x = 16.
Proof.
  destruct (finsh_code_correct demo_vars (replicate 64 7) (fun _ => 0) demo_first demo_rest 0 demo_valid eq_refl)
    as (text & Hc & Hr); [repeat constructor|vm_compute; lia|vm_compute; lia|].
  destruct (eval_program demo_vars demo_first demo_rest (fun _ => 0)) as [[v m']|f] eqn:He; [|by vm_compute in He].
  assert (Hv : v = 16) by (vm_compute in He; congruence). subst v.
  destruct Hr as (s & x & Hs & _ & Hx & H16). exists text, s, x. repeat split; done.
Defined.

Lemma finsh_types_witness : data_type (annot_program demo_vars demo_first demo_rest) = 3.
Proof. exact (proj2 (finsh_types demo_vars demo_first demo_rest 0 ltac:(repeat constructor))). Defined.

Lemma finsh_overflow_witness :
  count (raw 0 demo_long None) = 16%nat /\
  finsh_compiler_run demo_vars (Some (raw_program demo_long [])) 0 (replicate 64 0) = Err OutOfBounds.
Proof.
  split; [reflexivity|]. exact (finsh_text_overflow demo_vars demo_long [] 0 (replicate 64 0) ltac:(cbn; lia) ltac:(repeat constructor)).
Defined.

(** [add(1, 2) * 5] gives 3. *)
Lemma finsh_call_witness : exists text s x,
  let call := ECall 32 64 (ECons (ELit LInt 1) (ECons (ELit LInt 2) ENil)) in
  finsh_compiler_run demo_vars (Some (raw 0 (EBin Mul call (ELit LInt 5)) None)) 0 (replicate 64 0) =
    Ret (text, 0, <[0%nat := 0]> (replicate 64 0)) /\
  finsh_vm_run (<[0%nat := 0]> (replicate 64 0)) text (fun _ => 0) = Ret s /\ memory s = (fun _ => 0) /\
  idx (finsh_vm_stack s) 0 = Ret x /\ value Dword x = 3.
Proof.
  exact (finsh_call_operand demo_vars Mul 32 64 (ECons (ELit LInt 1) (ECons (ELit LInt 2) ENil)) (ELit LInt 5) 0
    (replicate 64 0) (fun _ => 0) 3 5 (fun _ => 0) demo_valid eq_refl eq_refl ltac:(vm_compute; lia) ltac:(vm_compute; lia) eq_refl).
Defined.

(** What the type discipline excludes: in [l + c] with a [long] and a [char], both
    zero, the word operation reads the bytes above the [char] that an earlier
    line left on the stack. *)
Definition bottom (r : res vm) : res Z := s ← r; x ← idx (finsh_vm_stack s) 0; mret (value Dword x).

Example stale_bytes :
  let e := EBin Add (EVar (Local 2)) (EVar (Local 1)) in
  typed demo_vars e = false /\
  exists text, finsh_compiler_run demo_vars (Some (raw 0 e None)) 0 (replicate 64 0) = Ret (text, 0, replicate 64 0) /\
    bottom (finsh_vm_run (replicate 64 0) text (fun _ => 0)) = Ret 0 /\
    bottom (finsh_vm_run (0 :: 256 :: replicate 62 0) text (fun _ => 0)) = Ret 256.
Proof. split; [reflexivity|]. eexists. split; [vm_compute; reflexivity|]. split; vm_compute; reflexivity. Qed.
