(* ===== verification/FinshHeap.v ===== *)
(** * The shell's heap

    RTT/components/finsh/finsh_heap.c: 128 bytes for the strings of the shell, cut
    into blocks behind headers of eight bytes; two lists, of the free and of the
    allocated blocks, in the order of their addresses; a first fit that splits, a
    release that merges neighbours, and a collector that releases what no shell
    variable points to.  The operations refine a list of blocks that tile the
    heap. *)

From S2P Require Import Prelude FinshSym FinshVm FinshNode FinshCompiler.

Definition FINSH_HEAP_MAX : Z := 128.
Definition HEAP_ALIGNMENT : Z := 4.
Definition HEADER : Z := 8.                (**r the size of a block header *)

Definition HEAP_ALIGN_SIZE (size : Z) : Z :=
  Z.land (u32 (size + HEAP_ALIGNMENT - 1)) (Z.lnot (HEAP_ALIGNMENT - 1)).

(** A pointer to a header is its offset in the heap. *)
Definition NULL : Z := -1.

(** The headers in the heap, length and next, and the heads of the lists. *)
Record heap := mkHeap { headers : gmap Z (Z * Z); free_list : Z; allocate_list : Z }.

Inductive which := Free | Allocated.

Abbreviation M := (ST heap).

Definition list_head (w : which) : M Z :=
  s ← get; mret (match w with Free => free_list s | Allocated => allocate_list s end).

Definition set_head (w : which) (h : Z) : M unit :=
  modify (fun s =>
    match w with
    | Free => mkHeap (headers s) h (allocate_list s)
    | Allocated => mkHeap (headers s) (free_list s) h
    end).

Definition header (h : Z) : M (Z * Z) :=
  s ← get; match headers s !! h with Some x => mret x | None => lift (Err NullDeref) end.

Definition set_header (h : Z) (x : Z * Z) : M unit :=
  if (0 <=? h) && (h + HEADER <=? FINSH_HEAP_MAX)
  then modify (fun s => mkHeap (<[h := x]> (headers s)) (free_list s) (allocate_list s))
  else lift (Err OutOfBounds).

Definition set_next (h q : Z) : M unit := x ← header h; set_header h (fst x, q).

(** [memset] of data: what were headers there are no longer. *)
Definition clear (a n : Z) : M unit :=
  modify (fun s =>
    mkHeap (filter (fun x => ~ (a < fst x + HEADER /\ fst x < a + n)) (headers s)) (free_list s) (allocate_list s)).

(** There are at most sixteen headers in the heap. *)
Definition FUEL : nat := 16.

Definition finsh_heap_init : heap :=
  mkHeap {[ 0 := (FINSH_HEAP_MAX - HEADER, NULL) ]} 0 NULL.

(** ** Lists of blocks *)

(** The loop of [finsh_block_insert]: the node the block goes behind. *)
Fixpoint insert_point (fuel : nat) (node h : Z) : M Z :=
  x ← header node;
  if (h <? snd x) || (snd x =? NULL) then mret node
  else match fuel with O => lift (Err OutOfFuel) | S fuel => insert_point fuel (snd x) h end.

Definition finsh_block_insert (w : which) (h : Z) : M unit :=
  node ← list_head w;
  if node =? NULL then set_head w h
  else if h <? node then _ ← set_next h node; set_head w h
  else
    node ← insert_point FUEL node h;
    x ← header node;
    _ ← (if snd x =? NULL then mret tt else set_next h (snd x));
    set_next node h.

(** The loops of [finsh_block_remove] and [finsh_block_merge]: the node in front
    of a block, or null. *)
Fixpoint before (fuel : nat) (node h : Z) : M Z :=
  if node =? NULL then mret NULL
  else
    x ← header node;
    if snd x =? h then mret node
    else match fuel with O => lift (Err OutOfFuel) | S fuel => before fuel (snd x) h end.

Definition finsh_block_remove (w : which) (h : Z) : M unit :=
  node ← list_head w;
  if node =? h then x ← header h; _ ← set_head w (snd x); set_next h NULL
  else
    node ← before FUEL node h;
    if node =? NULL then mret tt else x ← header h; set_next node (snd x).

Definition finsh_block_split (h size : Z) : M unit :=
  x ← header h;
  _ ← set_header (h + HEADER + size) (u32 (fst x - HEADER - size), snd x);
  set_header h (size, h + HEADER + size).

Definition finsh_block_merge (w : which) (h : Z) : M unit :=
  x ← header h;
  node ← list_head w;
  prev ← (if node =? h then mret NULL else before FUEL node h);
  p ← (if prev =? NULL then mret (0, NULL) else header prev);
  n ← (if snd x =? NULL then mret (0, NULL) else header (snd x));
  let close_next := negb (snd x =? NULL) && (h + fst x + HEADER =? snd x) in
  if negb (prev =? NULL) && (prev + fst p + HEADER =? h) then
    if close_next then set_header prev (u32 (fst p + (fst x + fst n + 2 * HEADER)), snd n)
    else set_header prev (u32 (fst p + (fst x + HEADER)), snd x)
  else if close_next then set_header h (u32 (fst x + (fst n + HEADER)), snd n)
  else mret tt.

(** ** Allocation, release and collection

    A pointer to data is the offset of its first byte. *)

Definition finsh_heap_free (p : Z) : M unit :=
  let h := p - HEADER in
  _ ← finsh_block_remove Allocated h;
  _ ← finsh_block_insert Free h;
  finsh_block_merge Free h.

Fixpoint first_fit (fuel : nat) (fits : Z -> bool) (h : Z) : M Z :=
  if h =? NULL then mret NULL
  else
    x ← header h;
    if fits (fst x) then mret h
    else match fuel with O => lift (Err OutOfFuel) | S fuel => first_fit fuel fits (snd x) end.

Section heap.
Context `{Machine}.
(** The address of the array. *)
Context (finsh_heap : Z).

(** Whether a variable in use holds the pointer. *)
Fixpoint referenced (vs : list finsh_var) (i p : Z) (m : mem) : res bool :=
  match vs with
  | [] => mret false
  | v :: vs =>
      if type v =? finsh_type_unknown then referenced vs (i + 1) p m
      else
        x ← load Dword (var_value i) m;
        if x =? u32 (finsh_heap + p) then mret true else referenced vs (i + 1) p m
  end.

Fixpoint gc_loop (fuel : nat) (vs : list finsh_var) (m : mem) (h : Z) : M unit :=
  if h =? NULL then mret tt
  else
    r ← lift (referenced vs 0 (h + HEADER) m);
    x ← header h;
    _ ← (if r : bool then mret tt else finsh_heap_free (h + HEADER));
    match fuel with O => lift (Err OutOfFuel) | S fuel => gc_loop fuel vs m (snd x) end.

Definition finsh_heap_gc (vs : list finsh_var) (m : mem) : M unit :=
  h ← list_head Allocated; gc_loop FUEL vs m h.

Definition finsh_heap_allocate (size : Z) (vs : list finsh_var) (m : mem) : M Z :=
  let size := HEAP_ALIGN_SIZE size in
  h ← list_head Free;
  h ← first_fit FUEL (fun l => u32 (size + HEADER) <? l) h;
  h ← (if h =? NULL then
         _ ← finsh_heap_gc vs m;
         h ← list_head Free;
         first_fit FUEL (fun l => u32 (size + HEADER) <=? l) h
       else mret h);
  if h =? NULL then mret NULL
  else
    _ ← finsh_block_split h size;
    _ ← finsh_block_remove Free h;
    _ ← set_next h NULL;
    _ ← finsh_block_insert Allocated h;
    _ ← clear (h + HEADER) size;
    mret (h + HEADER).

(** For the nodes: the address of the data, which is cleared. *)
#[global] Instance finsh_strings : StringHeap heap := {|
  heap_allocate size vs m s :=
    '(p, s) ← finsh_heap_allocate size vs m s;
    mret (if p =? NULL then (0, s, m)
          else (u32 (finsh_heap + p), s,
                write_bytes (finsh_heap + p) (replicate (Z.to_nat (HEAP_ALIGN_SIZE size)) 0) m))
|}.
End heap.
