(* ===== verification/FinshBlocks.v ===== *)
(** * The shell's heap as a tiling

    The specification of [FinshHeap]: the heap is a list of blocks, free or used,
    that tile the 128 bytes; two free blocks are never neighbours and the last
    block is free.  Allocation, release and collection are functions on this list,
    and the operations on the linked lists implement them. *)

From S2P Require Import Prelude FinshSym FinshVm FinshNode FinshCompiler FinshExpr FinshCorrect FinshHeap.

(** ** Blocks *)

(** Lengths of the data, and whether it is used. *)
Abbreviation block := (Z * bool)%type.

Fixpoint total (bs : list block) : Z :=
  match bs with [] => 0 | (n, _) :: bs => HEADER + n + total bs end.

(** The free or the used blocks with their offsets. *)
Fixpoint cells (u : bool) (o : Z) (bs : list block) : list (Z * Z) :=
  match bs with
  | [] => []
  | (n, v) :: bs => (if Bool.eqb u v then [(o, n)] else []) ++ cells u (o + HEADER + n) bs
  end.

(** In front of a list, with the neighbours merged when both are free. *)
Definition push (b : block) (bs : list block) : list block :=
  match b, bs with
  | (n, false), (m, false) :: bs => (n + HEADER + m, false) :: bs
  | b, bs => b :: bs
  end.

(** Taking the first free block that fits: the offset and the blocks with it split. *)
Fixpoint take_block (fits : Z -> bool) (size o : Z) (bs : list block) : option (Z * list block) :=
  match bs with
  | [] => None
  | (n, u) :: bs =>
      if negb u && fits n then Some (o, (size, true) :: (n - HEADER - size, false) :: bs)
      else
        match take_block fits size (o + HEADER + n) bs with
        | Some (p, bs) => Some (p, (n, u) :: bs)
        | None => None
        end
  end.

(** Releasing the block at [p]. *)
Fixpoint release (p o : Z) (bs : list block) : list block :=
  match bs with
  | [] => []
  | (n, u) :: bs => if o =? p then push (n, false) bs else push (n, u) (release p (o + HEADER + n) bs)
  end.

(** Releasing every used block that is not [live]. *)
Fixpoint collect (live : Z -> bool) (o : Z) (bs : list block) : list block :=
  match bs with
  | [] => []
  | (n, u) :: bs => push (n, u && live o) (collect live (o + HEADER + n) bs)
  end.

Definition allocate (live : Z -> bool) (size : Z) (bs : list block) : option Z * list block :=
  match take_block (fun n => size + HEADER <? n) size 0 bs with
  | Some (p, bs) => (Some p, bs)
  | None =>
      let bs := collect live 0 bs in
      match take_block (fun n => size + HEADER <=? n) size 0 bs with
      | Some (p, bs) => (Some p, bs)
      | None => (None, bs)
      end
  end.

(** No two neighbours are free, and there is a free block at the end. *)
Fixpoint apart (bs : list block) : Prop :=
  match bs with
  | [] => True
  | [(_, u)] => u = false
  | (_, u) :: ((_, v) :: _) as bs => u || v = true /\ apart bs
  end.

Definition lengths (bs : list block) : Prop := Forall (fun b => 0 <= fst b /\ (HEAP_ALIGNMENT | fst b)) bs.

(** ** Linked lists *)

(** Where a list of cells begins, or [q] when it is empty. *)
Definition first (l : list (Z * Z)) (q : Z) : Z := match l with [] => q | (o, _) :: _ => o end.

(** The cells are linked in order, and the last one to [q]. *)
Fixpoint seg (h : gmap Z (Z * Z)) (l : list (Z * Z)) (q : Z) : Prop :=
  match l with [] => True | (o, n) :: l => h !! o = Some (n, first l q) /\ seg h l q end.

Lemma first_app l1 l2 q : first (l1 ++ l2) q = first l1 (first l2 q).
Proof. by destruct l1 as [|[o n] l1]. Qed.

Lemma seg_app h l1 l2 q : seg h (l1 ++ l2) q <-> seg h l1 (first l2 q) /\ seg h l2 q.
Proof.
  induction l1 as [|[o n] l1 IH]; cbn [app seg]; [tauto|]. rewrite IH, first_app. tauto.
Qed.

Lemma seg_frame h h' l q : (forall c, c ∈ l -> h' !! fst c = h !! fst c) -> seg h l q -> seg h' l q.
Proof.
  induction l as [|[o n] l IH]; intros Hf; [done|]. cbn [seg]. intros [Ho Hs]. split.
  - assert (He : h' !! o = h !! o) by (apply (Hf (o, n)); by left). by rewrite He.
  - apply IH, Hs. intros c Hc. apply Hf. by right.
Qed.

Lemma seg_insert h l q o x : o ∉ l.*1 -> seg h l q -> seg (<[o := x]> h) l q.
Proof.
  intros Ho. apply seg_frame. intros c Hc. apply lookup_insert_ne. intros ->. apply Ho, list_elem_of_fmap. by exists c.
Qed.

(** A block can be written. *)
Definition in_heap (h : Z) : Prop := 0 <= h /\ h + HEADER <= FINSH_HEAP_MAX.

Lemma in_heap_not_null h : in_heap h -> h <> NULL.
Proof. unfold in_heap, NULL. lia. Qed.

Lemma header_run s h x : headers s !! h = Some x -> header h s = Ret (x, s).
Proof. intros Hx. unfold header. rewrite st_get_bind. by rewrite Hx. Qed.

Definition with_headers (h : gmap Z (Z * Z)) (s : heap) : heap := mkHeap h (free_list s) (allocate_list s).

Lemma set_header_run s h x : in_heap h -> set_header h x s = Ret (tt, with_headers (<[h := x]> (headers s)) s).
Proof.
  intros [H0 H1]. unfold set_header. by rewrite (proj2 (Z.leb_le _ _) H0), (proj2 (Z.leb_le _ _) H1).
Qed.

Lemma set_next_run s h n q q' : in_heap h -> headers s !! h = Some (n, q') ->
  set_next h q s = Ret (tt, with_headers (<[h := (n, q)]> (headers s)) s).
Proof.
  intros Hh Hx. unfold set_next. rewrite (st_bind_run _ _ _ _ _ (header_run _ _ _ Hx)). by apply set_header_run.
Qed.

Definition head_of (w : which) (s : heap) : Z := match w with Free => free_list s | Allocated => allocate_list s end.

Definition with_list (w : which) (p : Z) (h : gmap Z (Z * Z)) (s : heap) : heap :=
  match w with Free => mkHeap h p (allocate_list s) | Allocated => mkHeap h (free_list s) p end.

Lemma list_head_run w s : list_head w s = Ret (head_of w s, s).
Proof. done. Qed.

Lemma set_head_run w p s : set_head w p s = Ret (tt, with_list w p (headers s) s).
Proof. by destruct w. Qed.

Lemma with_list_same w p h s : head_of w s = p -> with_headers h s = with_list w p h s.
Proof. intros <-. by destruct w. Qed.

Ltac hstep H := rewrite (st_bind_run _ _ _ _ _ H).

(** The conditions on the cells of a list: they lie in the heap and differ. *)
Definition good (l : list (Z * Z)) : Prop := Forall (fun c => in_heap (fst c)) l /\ NoDup l.*1.

Lemma good_not_null l q : good l -> q = NULL \/ in_heap q -> first l q = NULL <-> l = [] /\ q = NULL.
Proof.
  intros [Hl _] Hq. destruct l as [|[o n] l]; cbn; [tauto|]. apply Forall_cons in Hl as [Ho _].
  pose proof (in_heap_not_null _ Ho). cbn in *. naive_solver.
Qed.

(** The search for the node in front of [o]. *)
Lemma before_run l1 : forall a na l2 o n fuel s, seg (headers s) ((a, na) :: l1 ++ (o, n) :: l2) NULL ->
  good ((a, na) :: l1 ++ (o, n) :: l2) -> (length l1 <= fuel)%nat ->
  exists p np l1', (a, na) :: l1 = l1' ++ [(p, np)] /\ before fuel a o s = Ret (p, s).
Proof.
  induction l1 as [|[b nb] l1 IH]; intros a na l2 o n fuel s Hs Hg Hf; cbn [app seg] in Hs.
  - destruct Hs as [Ha _]. exists a, na, []. split; [done|].
    assert (Hna : a <> NULL) by (apply in_heap_not_null; by apply (Forall_inv (proj1 Hg))).
    destruct fuel; cbn [before]; rewrite (proj2 (Z.eqb_neq _ _) Hna); hstep (header_run _ _ _ Ha); cbn [snd first];
      by rewrite Z.eqb_refl.
  - destruct Hs as [Ha Hs]. destruct fuel as [|fuel]; [cbn in Hf; lia|].
    assert (Hg' : good ((b, nb) :: l1 ++ (o, n) :: l2)).
    { destruct Hg as [Hi Hd]. split; [by apply Forall_inv_tail in Hi|]. by apply NoDup_cons in Hd as [_ Hd]. }
    destruct (IH b nb l2 o n fuel s Hs Hg' ltac:(cbn in Hf; lia)) as (p & np & l1' & Hl & Hr).
    exists p, np, ((a, na) :: l1'). split; [by rewrite Hl|].
    assert (Hna : a <> NULL) by (apply in_heap_not_null; by apply (Forall_inv (proj1 Hg))).
    assert (Hbo : b <> o).
    { intros ->. destruct Hg as [_ Hd]. rewrite !fmap_cons, fmap_app in Hd. cbn in Hd.
      apply NoDup_cons in Hd as [_ Hd]. apply NoDup_cons in Hd as [Hd _]. apply Hd, elem_of_app. right. by left. }
    cbn [before]. rewrite (proj2 (Z.eqb_neq _ _) Hna). hstep (header_run _ _ _ Ha). cbn [snd first].
    rewrite (proj2 (Z.eqb_neq _ _) Hbo). exact Hr.
Qed.

(** Taking a block out of its list; its own header keeps the length. *)
Lemma remove_run w l1 o n l2 s : head_of w s = first (l1 ++ (o, n) :: l2) NULL ->
  seg (headers s) (l1 ++ (o, n) :: l2) NULL -> good (l1 ++ (o, n) :: l2) -> (length l1 <= FUEL)%nat ->
  exists h q, finsh_block_remove w o s = Ret (tt, with_list w (first (l1 ++ l2) NULL) h s) /\
    seg h (l1 ++ l2) NULL /\ h !! o = Some (n, q) /\ (forall x, x ∉ (l1 ++ [(o, n)]).*1 -> h !! x = headers s !! x).
Proof.
  intros Hhd Hs Hg Hf. unfold finsh_block_remove. hstep (list_head_run w s). rewrite Hhd.
  assert (Hoh : in_heap o) by (destruct Hg as [Hi _]; apply Forall_app in Hi as [_ Hi]; by apply Forall_inv in Hi).
  destruct l1 as [|[a na] l1].
  - cbn [app first seg] in *. destruct Hs as [Ho Hs]. rewrite Z.eqb_refl. hstep (header_run _ _ _ Ho).
    hstep (set_head_run w (first l2 NULL) s). cbn [snd].
    assert (Hh : headers (with_list w (first l2 NULL) (headers s) s) = headers s) by by destruct w.
    rewrite (set_next_run _ o n NULL (first l2 NULL)) by by rewrite ?Hh. rewrite Hh.
    eexists _, _. split_and!; [by destruct w| |apply lookup_insert_eq|].
    + apply seg_insert, Hs. destruct Hg as [_ Hd]. by apply NoDup_cons in Hd as [? _].
    + intros x Hx. apply lookup_insert_ne. set_solver.
  - cbn [app first] in *. destruct (before_run l1 a na l2 o n FUEL s Hs Hg ltac:(cbn in Hf; lia)) as (p & np & l1' & Hl & Hb).
    assert (Hao : a <> o).
    { intros ->. destruct Hg as [_ Hd]. cbn in Hd. apply NoDup_cons in Hd as [Hd _]. rewrite fmap_app in Hd. apply Hd. set_solver. }
    rewrite (proj2 (Z.eqb_neq _ _) Hao). hstep Hb. change ((a, na) :: l1 ++ (o, n) :: l2) with (((a, na) :: l1) ++ (o, n) :: l2) in *.
    change ((a, na) :: l1 ++ l2) with (((a, na) :: l1) ++ l2). change ((a, na) :: l1 ++ [(o, n)]) with (((a, na) :: l1) ++ [(o, n)]).
    assert (Ha : first (l1' ++ [(p, np)]) NULL = a) by by rewrite <- Hl.
    rewrite Hl in *. clear Hl l1 na.
    apply seg_app in Hs as [Hs1 [Ho Hs2]]. apply seg_app in Hs1 as [Hs1 [Hp _]]. cbn [first] in *.
    destruct Hg as [Hi Hd]. rewrite Forall_app, Forall_app, Forall_singleton, Forall_cons in Hi.
    destruct Hi as [[Hi1 Hip] [_ Hi2]]. cbn [fst] in *.
    rewrite !fmap_app, fmap_cons, <- app_assoc in Hd. cbn in Hd. apply NoDup_app in Hd as (Hd1 & Hdx & Hd2).
    apply NoDup_cons in Hd2 as [Hd2 Hd3]. apply NoDup_cons in Hd3 as [Hd3 Hd4].
    rewrite (proj2 (Z.eqb_neq _ _) (in_heap_not_null _ Hip)). hstep (header_run _ _ _ Ho). cbn [snd].
    rewrite (set_next_run _ p np _ o) by done.
    assert (Hpo : p <> o) by (intros ->; apply Hd2; by left).
    assert (Hp1 : p ∉ l1'.*1) by (intros Hin; apply (Hdx p Hin); by left).
    assert (Hp2 : p ∉ l2.*1) by (intros Hin; apply Hd2; by right).
    exists (<[p := (np, first l2 NULL)]> (headers s)), (first l2 NULL). split_and!.
    + do 2 f_equal. apply with_list_same. rewrite Hhd. by destruct l1' as [|[]].
    + apply seg_app. split.
      * apply seg_app. cbn [seg first]. split; [by apply seg_insert|]. by rewrite lookup_insert_eq.
      * by apply seg_insert.
    + by rewrite lookup_insert_ne.
    + intros x Hx. apply lookup_insert_ne. intros ->. apply Hx. rewrite !fmap_app, !elem_of_app. left. right. by left.
Qed.

(** The search for the place of [o]. *)
Lemma insert_point_run l1 : forall a na l2 o fuel s, seg (headers s) ((a, na) :: l1 ++ l2) NULL ->
  Forall (fun c => in_heap (fst c)) l1 -> Forall (fun c => fst c < o) l1 -> Forall (fun c => o < fst c) l2 ->
  in_heap o -> (length l1 <= fuel)%nat ->
  exists p np l1', (a, na) :: l1 = l1' ++ [(p, np)] /\ insert_point fuel a o s = Ret (p, s).
Proof.
  induction l1 as [|[b nb] l1 IH]; intros a na l2 o fuel s Hs Hi Hl1 Hl2 Ho Hf; cbn [app seg] in Hs; destruct Hs as [Ha Hs].
  - exists a, na, []. split; [done|].
    assert (Hc : (o <? first l2 NULL) || (first l2 NULL =? NULL) = true).
    { destruct l2 as [|[c nc] l2]; [by rewrite Z.eqb_refl, orb_true_r|]. apply Forall_inv in Hl2. cbn in *.
      by rewrite (proj2 (Z.ltb_lt _ _) Hl2). }
    destruct fuel; cbn [insert_point]; hstep (header_run _ _ _ Ha); cbn [snd app]; by rewrite Hc.
  - destruct fuel as [|fuel]; [cbn in Hf; lia|]. apply Forall_cons in Hi as [Hib Hi]. apply Forall_cons in Hl1 as [Hb Hl1].
    destruct (IH b nb l2 o fuel s Hs Hi Hl1 Hl2 Ho ltac:(cbn in Hf; lia)) as (p & np & l1' & Hl & Hr).
    exists p, np, ((a, na) :: l1'). split; [by rewrite Hl|]. cbn [insert_point]. hstep (header_run _ _ _ Ha). cbn [snd first fst] in *.
    rewrite (proj2 (Z.ltb_ge _ _)) by lia. rewrite (proj2 (Z.eqb_neq _ _) (in_heap_not_null _ Hib)). exact Hr.
Qed.

(** Putting a block into its place in a list.  The last block of a list must be
    marked as such beforehand. *)
Lemma block_insert_run w l1 o n q l2 s : head_of w s = first (l1 ++ l2) NULL -> seg (headers s) (l1 ++ l2) NULL ->
  good (l1 ++ (o, n) :: l2) -> Forall (fun c => fst c < o) l1 -> Forall (fun c => o < fst c) l2 ->
  headers s !! o = Some (n, q) -> (l2 = [] -> q = NULL) -> (length l1 <= FUEL)%nat ->
  exists h, finsh_block_insert w o s = Ret (tt, with_list w (first (l1 ++ (o, n) :: l2) NULL) h s) /\
    seg h (l1 ++ (o, n) :: l2) NULL /\ (forall x, x ∉ (l1 ++ [(o, n)]).*1 -> h !! x = headers s !! x).
Proof.
  intros Hhd Hs [Hi Hd] Hl1 Hl2 Ho Hq Hf. unfold finsh_block_insert. hstep (list_head_run w s). rewrite Hhd.
  apply Forall_app in Hi as [Hi1 Hi2]. apply Forall_cons in Hi2 as [Hio Hi2]. cbn [fst] in *.
  rewrite fmap_app, fmap_cons in Hd. cbn [fst] in Hd. apply NoDup_app in Hd as (Hd1 & Hdx & Hd2). apply NoDup_cons in Hd2 as [Hd2 _].
  destruct l1 as [|[a na] l1].
  - cbn [app first seg] in *. destruct l2 as [|[b nb] l2].
    + rewrite Hq in Ho by done. rewrite Z.eqb_refl. exists (headers s). rewrite set_head_run. cbn. by rewrite Ho.
    + cbn [first fst] in *. apply Forall_inv in Hi2 as Hib. apply Forall_inv in Hl2 as Hob. cbn in Hib, Hob.
      rewrite (proj2 (Z.eqb_neq _ _) (in_heap_not_null _ Hib)), (proj2 (Z.ltb_lt _ _) Hob).
      hstep (set_next_run s o n b q Hio Ho). rewrite set_head_run. exists (<[o := (n, b)]> (headers s)).
      split_and!; [by destruct w|by rewrite lookup_insert_eq|by apply (seg_insert _ ((b, nb) :: l2))|].
      intros x Hx. apply lookup_insert_ne. intros ->. apply Hx. by left.
  - apply Forall_cons in Hi1 as [Hia Hi1]. apply Forall_cons in Hl1 as [Hao Hl1]. cbn [app first fst] in *.
    destruct (insert_point_run l1 a na l2 o FUEL s Hs Hi1 Hl1 Hl2 Hio ltac:(cbn in Hf; lia)) as (p & np & l1' & Hl & Hr).
    rewrite (proj2 (Z.eqb_neq _ _) (in_heap_not_null _ Hia)), (proj2 (Z.ltb_ge _ _)) by lia. hstep Hr.
    assert (Ha : first (l1' ++ [(p, np)]) NULL = a) by by rewrite <- Hl.
    change ((a, na) :: l1 ++ l2) with (((a, na) :: l1) ++ l2) in *. change ((a, na) :: l1 ++ ?l) with (((a, na) :: l1) ++ l).
    assert (Hip : in_heap p).
    { assert (Hall : Forall (fun c => in_heap (fst c)) ((a, na) :: l1)) by by constructor.
      rewrite Hl in Hall. apply Forall_app in Hall as [_ Hall]. by apply Forall_inv in Hall. }
    change (a :: l1.*1) with (((a, na) :: l1).*1) in *. rewrite Hl in *. clear Hl.
    apply seg_app in Hs as [Hs1 Hs2]. apply seg_app in Hs1 as [Hs1 [Hp _]]. cbn [first] in *. hstep (header_run _ _ _ Hp). cbn [snd].
    rewrite fmap_app in Hd1, Hdx. apply NoDup_app in Hd1 as (_ & Hd1 & _).
    assert (Hpo : p <> o) by (intros ->; apply (Hdx o); [apply elem_of_app; right; by left|by left]).
    assert (Hpl : p ∉ l1'.*1) by (intros Hin; apply (Hd1 p Hin); by left).
    assert (Hpl2 : p ∉ l2.*1) by (intros Hin; apply (Hdx p); [apply elem_of_app; right; by left|by right]).
    assert (Hol : o ∉ l1'.*1) by (intros Hin; apply (Hdx o); [apply elem_of_app; by left|by left]).
    exists (<[p := (np, o)]> (<[o := (n, first l2 NULL)]> (headers s))). split_and!.
    + assert (Hhd' : head_of w s = first (l1' ++ [(p, np)]) NULL) by by rewrite Ha.
      destruct l2 as [|[b nb] l2]; cbn [first].
      * rewrite Hq in Ho by done. rewrite Z.eqb_refl. cbn [mbind]. rewrite (insert_id _ o (n, NULL)) by done.
        unfold mbind, st_bind, mret, st_ret. rewrite (set_next_run _ p np o NULL) by done. do 2 f_equal.
        apply with_list_same. rewrite Hhd'. by destruct l1' as [|[]].
      * apply Forall_inv in Hi2 as Hib. cbn [fst] in Hib. rewrite (proj2 (Z.eqb_neq _ _) (in_heap_not_null _ Hib)).
        hstep (set_next_run s o n b q Hio Ho). rewrite (set_next_run _ p np o b); [|done|cbn [headers with_headers]; by rewrite lookup_insert_ne].
        do 2 f_equal. transitivity (with_headers (<[p:=(np, o)]> (<[o:=(n, b)]> (headers s))) s); [done|].
        apply with_list_same. rewrite Hhd'. by destruct l1' as [|[]].
    + apply seg_app. split; [apply seg_app; split|].
      * apply seg_insert; [done|]. by apply seg_insert.
      * cbn. by rewrite lookup_insert_eq.
      * cbn [seg]. split; [by rewrite lookup_insert_ne, lookup_insert_eq|]. apply seg_insert; [done|]. by apply seg_insert.
    + intros x Hx. rewrite !fmap_app, !elem_of_app in Hx.
      rewrite !lookup_insert_ne; [done|intros ->; apply Hx; right; by left|intros ->; apply Hx; left; right; by left].
Qed.

(** Splitting a block of a list. *)
Lemma split_run s l1 o n l2 size : let p := o + HEADER + size in
  seg (headers s) (l1 ++ (o, n) :: l2) NULL -> NoDup (l1 ++ (o, n) :: l2).*1 -> in_heap o -> in_heap p ->
  p ∉ (l1 ++ (o, n) :: l2).*1 -> 0 <= n - HEADER - size < 2 ^ 32 ->
  exists h, finsh_block_split o size s = Ret (tt, with_headers h s) /\
    seg h (l1 ++ (o, size) :: (p, n - HEADER - size) :: l2) NULL /\
    (forall x, x <> o -> x <> p -> h !! x = headers s !! x).
Proof.
  intros p Hs Hd Ho Hp Hpn Hn. apply seg_app in Hs as [Hs1 [Hso Hs2]]. cbn [first] in Hs1.
  rewrite fmap_app, fmap_cons in Hd, Hpn. cbn [fst] in *. apply NoDup_app in Hd as (_ & Hdx & Hd2). apply NoDup_cons in Hd2 as [Hd2 _].
  rewrite elem_of_app, elem_of_cons in Hpn.
  assert (Hol : o ∉ l1.*1) by (intros Hin; apply (Hdx o Hin); by left).
  assert (Hpl1 : p ∉ l1.*1) by (intros ?; apply Hpn; by left).
  assert (Hpl2 : p ∉ l2.*1) by (intros ?; apply Hpn; right; by right).
  assert (Hpo : p <> o) by (intros ?; apply Hpn; right; by left).
  exists (<[o := (size, p)]> (<[p := (n - HEADER - size, first l2 NULL)]> (headers s))). split_and!.
  - unfold finsh_block_split. hstep (header_run _ _ _ Hso). cbn [fst snd]. rewrite (wrap_id 32) by done.
    hstep (set_header_run s p (n - HEADER - size, first l2 NULL) Hp). by rewrite set_header_run.
  - apply seg_app. split; [apply seg_insert; [done|]; by apply seg_insert|]. cbn [seg first].
    split_and!; [by rewrite lookup_insert_eq|rewrite lookup_insert_ne by done; by rewrite lookup_insert_eq|].
    apply seg_insert; [done|]. by apply seg_insert.
  - intros x Hxo Hxp. by rewrite !lookup_insert_ne.
Qed.

(** A cell in front of a list, as one with the next when they touch. *)
Definition glue (o n : Z) (l : list (Z * Z)) : list (Z * Z) :=
  match l with
  | (b, nb) :: l' => if o + n + HEADER =? b then (o, n + HEADER + nb) :: l' else (o, n) :: l
  | [] => [(o, n)]
  end.

(** Cell lists whose lengths are those of blocks. *)
Definition small (l : list (Z * Z)) : Prop := Forall (fun c => 0 <= snd c <= FINSH_HEAP_MAX) l.

Lemma first_glue o n l q : first (glue o n l) q = o.
Proof. destruct l as [|[b nb] l]; cbn; [done|]. by case_match. Qed.

(** The header of the first cell then. *)
Definition glue_header (o n : Z) (l : list (Z * Z)) : Z * Z :=
  match l with
  | (b, nb) :: l' => if o + n + HEADER =? b then (n + HEADER + nb, first l' NULL) else (n, b)
  | [] => (n, NULL)
  end.

Lemma glue_seg h o n l : o ∉ l.*1 -> seg h l NULL -> seg (<[o := glue_header o n l]> h) (glue o n l) NULL.
Proof.
  intros Ho Hs. destruct l as [|[b nb] l]; cbn [glue glue_header]; [cbn; by rewrite lookup_insert_eq|].
  case_match; cbn [seg]; rewrite lookup_insert_eq.
  - split; [done|]. apply seg_insert, Hs. intros ?. apply Ho. by right.
  - split; [done|]. exact (seg_insert h ((b, nb) :: l) NULL o (n, b) Ho Hs).
Qed.

(** Reading the header behind a block. *)
Lemma next_run h l s : headers s = h -> seg h l NULL -> Forall (fun c => in_heap (fst c)) l ->
  (if first l NULL =? NULL then mret (0, NULL) else header (first l NULL)) s =
  Ret (match l with (_, nb) :: l' => (nb, first l' NULL) | [] => (0, NULL) end, s).
Proof.
  intros <- Hs Hi. destruct l as [|[b nb] l]; [done|]. apply Forall_inv in Hi. cbn [first fst] in *.
  rewrite (proj2 (Z.eqb_neq _ _) (in_heap_not_null _ Hi)). by apply header_run, (proj1 Hs).
Qed.

(** The cells after a merge of [(o, n)] with its neighbours. *)
Definition merged (l1 : list (Z * Z)) (o n : Z) (l2 : list (Z * Z)) : list (Z * Z) :=
  match List.last l1 (NULL, 0) with
  | (p, np) =>
      if negb (p =? NULL) && (p + np + HEADER =? o) then removelast l1 ++ glue p (np + HEADER + n) l2
      else l1 ++ glue o n l2
  end.

(** The ends of [finsh_block_merge]. *)
Definition behind (l : list (Z * Z)) : Z * Z := match l with (_, nb) :: l' => (nb, first l' NULL) | [] => (0, NULL) end.

Definition close_next (o n : Z) (l : list (Z * Z)) : bool :=
  negb (first l NULL =? NULL) && (o + n + HEADER =? first l NULL).

Lemma close_cons o n b nb l : in_heap b -> close_next o n ((b, nb) :: l) = (o + n + HEADER =? b).
Proof. intros Hb. unfold close_next. cbn [first]. by rewrite (proj2 (Z.eqb_neq _ _) (in_heap_not_null _ Hb)). Qed.

Lemma merge_prev p np o n l s : p + np + HEADER = o -> 0 <= np <= FINSH_HEAP_MAX -> 0 <= n <= FINSH_HEAP_MAX -> small l ->
  in_heap p -> Forall (fun c => in_heap (fst c)) l ->
  (if close_next o n l then set_header p (u32 (np + (n + fst (behind l) + 2 * HEADER)), snd (behind l))
   else set_header p (u32 (np + (n + HEADER)), first l NULL)) s =
  Ret (tt, with_headers (<[p := glue_header p (np + HEADER + n) l]> (headers s)) s).
Proof.
  unfold FINSH_HEAP_MAX, HEADER. intros Ho Hnp Hn Hs Hp Hl. destruct l as [|[b nb] l].
  - cbn. rewrite set_header_run, (wrap_id 32) by (done || lia). by replace (np + (n + 8)) with (np + 8 + n) by lia.
  - apply Forall_inv in Hl. apply Forall_inv in Hs. unfold FINSH_HEAP_MAX in *. cbn [fst snd] in *.
    rewrite close_cons by done. cbn [behind glue_header first fst snd]. unfold HEADER.
    replace (p + (np + 8 + n) + 8) with (o + n + 8) by lia.
    destruct (o + n + 8 =? b); rewrite set_header_run, (wrap_id 32) by (done || lia).
    + by replace (np + (n + nb + 2 * 8)) with (np + 8 + n + 8 + nb) by lia.
    + by replace (np + (n + 8)) with (np + 8 + n) by lia.
Qed.

Lemma merge_self o n l s : headers s !! o = Some (n, first l NULL) -> 0 <= n <= FINSH_HEAP_MAX -> small l ->
  in_heap o -> Forall (fun c => in_heap (fst c)) l ->
  (if close_next o n l then set_header o (u32 (n + (fst (behind l) + HEADER)), snd (behind l)) else mret tt) s =
  Ret (tt, with_headers (<[o := glue_header o n l]> (headers s)) s).
Proof.
  unfold FINSH_HEAP_MAX, HEADER. intros Ho Hn Hs Hi Hl. destruct l as [|[b nb] l].
  - cbn [close_next first negb andb glue_header]. change (NULL =? NULL) with true. cbn. rewrite insert_id by done. by destruct s.
  - apply Forall_inv in Hl. apply Forall_inv in Hs. unfold FINSH_HEAP_MAX in *. cbn [fst snd] in *.
    rewrite close_cons by done. cbn [behind glue_header first fst snd] in *. unfold HEADER.
    destruct (o + n + 8 =? b).
    + rewrite set_header_run, (wrap_id 32) by (done || lia). by replace (n + (nb + 8)) with (n + 8 + nb) by lia.
    + rewrite insert_id by done. by destruct s.
Qed.

Lemma merge_run w l1 o n l2 s : head_of w s = first (l1 ++ (o, n) :: l2) NULL ->
  seg (headers s) (l1 ++ (o, n) :: l2) NULL -> good (l1 ++ (o, n) :: l2) -> small (l1 ++ (o, n) :: l2) ->
  (length l1 <= FUEL)%nat ->
  exists h, finsh_block_merge w o s = Ret (tt, with_headers h s) /\ seg h (merged l1 o n l2) NULL /\
    (forall x, x ∉ (l1 ++ [(o, n)]).*1 -> h !! x = headers s !! x).
Proof.
  intros Hhd Hs Hg Hsm Hf. assert (Hb := fun a na l1' => before_run l1' a na l2 o n FUEL s).
  assert (Hs' := Hs). apply seg_app in Hs' as [Hs1 [Hso Hs2]]. cbn [first] in Hs1.
  assert (Hg' := Hg). destruct Hg' as [Hi Hd]. apply Forall_app in Hi as [Hi1 Hi2]. apply Forall_cons in Hi2 as [Hio Hi2]. cbn [fst] in Hio.
  rewrite fmap_app, fmap_cons in Hd. apply NoDup_app in Hd as (Hd1 & Hdx & Hd2). apply NoDup_cons in Hd2 as [Hd2 _]. cbn [fst] in *.
  apply Forall_app in Hsm as [Hsm1 Hsm2]. apply Forall_cons in Hsm2 as [Hsn Hsm2]. cbn [snd] in Hsn.
  assert (Hnext := next_run (headers s) l2 s eq_refl Hs2 Hi2). fold (behind l2) in Hnext.
  assert (Hol : o ∉ l1.*1) by (intros Hin; apply (Hdx o Hin); by left).
  (* the block stays where it is *)
  assert (Hself : seg (<[o := glue_header o n l2]> (headers s)) (l1 ++ glue o n l2) NULL).
  { apply seg_app. rewrite first_glue. split; [by apply seg_insert|by apply glue_seg]. }
  unfold finsh_block_merge. hstep (header_run _ _ _ Hso). hstep (list_head_run w s). cbn [fst snd]. rewrite Hhd.
  destruct l1 as [|[a na] l1].
  - cbn [app first]. rewrite Z.eqb_refl, st_ret_bind. change (NULL =? NULL) with true. cbn beta iota.
    rewrite st_ret_bind. hstep Hnext. cbn [negb andb]. cbn beta iota. fold (close_next o n l2). rewrite merge_self by done.
    eexists. split_and!; [done|exact Hself|]. intros x Hx. apply lookup_insert_ne. intros ->. apply Hx. by left.
  - destruct (Hb a na l1 Hs Hg ltac:(cbn in Hf; lia)) as (p & np & l1' & Hl & Hbr). clear Hb. cbn [app first].
    assert (Hao : a <> o) by (intros ->; apply Hol; by left). rewrite (proj2 (Z.eqb_neq _ _) Hao). hstep Hbr.
    change ((a, na) :: l1 ++ ?l) with (((a, na) :: l1) ++ l). rewrite Hl in *. clear Hl Hs Hg Hhd Hbr.
    apply Forall_app in Hi1 as [_ Hip]. apply Forall_inv in Hip. apply Forall_app in Hsm1 as [_ Hsp]. apply Forall_inv in Hsp. cbn [fst snd] in *.
    apply seg_app in Hs1 as [Hs1 [Hsp' _]]. cbn [first] in *. rewrite fmap_app in Hd1, Hdx. apply NoDup_app in Hd1 as (_ & Hd1 & _).
    assert (Hpl : p ∉ l1'.*1) by (intros Hin; apply (Hd1 p Hin); by left).
    assert (Hpl2 : p ∉ l2.*1) by (intros Hin; apply (Hdx p); [apply elem_of_app; right; by left|by right]).
    rewrite (proj2 (Z.eqb_neq _ _) (in_heap_not_null _ Hip)). hstep (header_run _ _ _ Hsp'). hstep Hnext. cbn [negb andb fst snd].
    fold (close_next o n l2). unfold merged. rewrite last_last, removelast_last.
    rewrite (proj2 (Z.eqb_neq _ _) (in_heap_not_null _ Hip)). cbn [negb andb].
    destruct (Z.eqb_spec (p + np + HEADER) o) as [He|He].
    + rewrite merge_prev by done. eexists. split_and!; [done| |].
      * apply seg_app. rewrite first_glue. split; [by apply seg_insert|by apply glue_seg].
      * intros x Hx. apply lookup_insert_ne. intros ->. apply Hx. rewrite !fmap_app, !elem_of_app. left. right. by left.
    + rewrite merge_self by done. eexists. split_and!; [done|exact Hself|].
      intros x Hx. apply lookup_insert_ne. intros ->. apply Hx. rewrite !fmap_app, !elem_of_app. right. by left.
Qed.

(** ** Cells of blocks *)

Lemma cells_app u o b1 b2 : cells u o (b1 ++ b2) = cells u o b1 ++ cells u (o + total b1) b2.
Proof.
  revert o. induction b1 as [|[n v] b1 IH]; intros o; cbn [app cells total]; [by rewrite Z.add_0_r|].
  rewrite IH, <- app_assoc. do 3 f_equal. lia.
Qed.

Lemma total_app b1 b2 : total (b1 ++ b2) = total b1 + total b2.
Proof. induction b1 as [|[n v] b1 IH]; cbn [app total]; [done|]. rewrite IH. lia. Qed.

Lemma total_nonneg bs : lengths bs -> 0 <= HEADER * Z.of_nat (length bs) <= total bs.
Proof.
  unfold HEADER. induction 1 as [|[n v] bs [Hn _] _ IH]; cbn [total length fst] in *; [done|]. unfold HEADER. lia.
Qed.

Lemma cells_range u bs : forall o c, lengths bs -> c ∈ cells u o bs ->
  o <= fst c /\ 0 <= snd c /\ fst c + HEADER + snd c <= o + total bs.
Proof.
  induction bs as [|[n v] bs IH]; intros o c Hl Hc; [by apply elem_of_nil in Hc|].
  apply Forall_cons in Hl as [[Hn _] Hl]. pose proof (total_nonneg bs Hl). unfold HEADER in *. cbn [cells total fst] in *.
  apply elem_of_app in Hc as [Hc|Hc].
  - destruct (Bool.eqb u v); [|by apply elem_of_nil in Hc]. apply list_elem_of_singleton in Hc as ->. cbn. unfold HEADER. lia.
  - destruct (IH _ c Hl Hc) as (H1 & H2 & H3). unfold HEADER in *. lia.
Qed.

Lemma cells_fst u bs o x : lengths bs -> x ∈ (cells u o bs).*1 -> o <= x /\ x + HEADER <= o + total bs.
Proof.
  intros Hl Hx. apply list_elem_of_fmap in Hx as (c & -> & Hc). destruct (cells_range u bs o c Hl Hc) as (? & ? & ?). lia.
Qed.

Lemma cells_nodup u bs : forall o, lengths bs -> NoDup (cells u o bs).*1.
Proof.
  induction bs as [|[n v] bs IH]; intros o Hl; [by constructor|]. assert (Hl' := Hl). apply Forall_cons in Hl as [[Hn _] Hl].
  cbn [cells fst] in *. destruct (Bool.eqb u v); [|by apply IH]. cbn. apply NoDup_cons. split; [|by apply IH].
  intros Hin. apply cells_fst in Hin; [|done]. unfold HEADER in *. lia.
Qed.

Lemma cells_disjoint bs : forall o x, lengths bs -> x ∈ (cells true o bs).*1 -> x ∉ (cells false o bs).*1.
Proof.
  induction bs as [|[n v] bs IH]; intros o x Hl Hx; [by apply elem_of_nil in Hx|]. apply Forall_cons in Hl as [[Hn _] Hl].
  unfold HEADER in *. cbn [cells fst] in *. rewrite fmap_app, elem_of_app in Hx |- *. intros Hy.
  destruct v; cbn [Bool.eqb fmap list_fmap] in *.
  - destruct Hy as [Hy|Hy]; [by apply elem_of_nil in Hy|]. destruct Hx as [Hx|Hx]; [|by apply (IH _ x Hl Hx)].
    apply list_elem_of_singleton in Hx as ->. apply cells_fst in Hy; [|done]. unfold HEADER in *. cbn in Hy. lia.
  - destruct Hx as [Hx|Hx]; [by apply elem_of_nil in Hx|]. destruct Hy as [Hy|Hy]; [|by apply (IH _ x Hl Hx)].
    apply list_elem_of_singleton in Hy as ->. apply cells_fst in Hx; [|done]. unfold HEADER in *. cbn in Hx. lia.
Qed.

Lemma cells_length u o bs : (length (cells u o bs) <= length bs)%nat.
Proof.
  revert o. induction bs as [|[n v] bs IH]; intros o; [done|]. cbn [cells]. rewrite length_app.
  specialize (IH (o + HEADER + n)). destruct (Bool.eqb u v); cbn [length]; lia.
Qed.

(** The whole heap. *)
Record tiling (bs : list block) : Prop := {
  tiling_total : total bs = FINSH_HEAP_MAX;
  tiling_lengths : lengths bs;
  tiling_apart : apart bs
}.

Lemma cells_good u bs : lengths bs -> total bs = FINSH_HEAP_MAX -> good (cells u 0 bs).
Proof.
  intros Hl Ht. split; [|by apply cells_nodup]. apply Forall_forall. intros c Hc.
  destruct (cells_range u bs 0 c Hl Hc) as (? & ? & ?). unfold in_heap. lia.
Qed.

Lemma cells_small u bs : lengths bs -> total bs = FINSH_HEAP_MAX -> small (cells u 0 bs).
Proof.
  intros Hl Ht. apply Forall_forall. intros c Hc.
  destruct (cells_range u bs 0 c Hl Hc) as (? & ? & ?). unfold HEADER in *. lia.
Qed.

Lemma blocks_length bs : lengths bs -> total bs = FINSH_HEAP_MAX -> (length bs <= FUEL)%nat.
Proof. intros Hl Ht. pose proof (total_nonneg bs Hl). unfold HEADER, FINSH_HEAP_MAX, FUEL in *. lia. Qed.

Lemma cells_fuel u o b1 b2 : lengths (b1 ++ b2) -> total (b1 ++ b2) = FINSH_HEAP_MAX -> (length (cells u o b1) <= FUEL)%nat.
Proof.
  intros Hl Ht. pose proof (blocks_length _ Hl Ht). pose proof (cells_length u o b1). rewrite length_app in *. lia.
Qed.

(** The state of the heap that has these blocks. *)
Record holds (s : heap) (bs : list block) : Prop := {
  holds_free : free_list s = first (cells false 0 bs) NULL;
  holds_frees : seg (headers s) (cells false 0 bs) NULL;
  holds_used : allocate_list s = first (cells true 0 bs) NULL;
  holds_useds : seg (headers s) (cells true 0 bs) NULL
}.

(** ** Pushing *)

Lemma push_total n u bs : total (push (n, u) bs) = HEADER + n + total bs.
Proof. destruct u; [done|]. destruct bs as [|[m []] bs]; cbn; lia. Qed.

Lemma push_lengths n u bs : 0 <= n /\ (HEAP_ALIGNMENT | n) -> lengths bs -> lengths (push (n, u) bs).
Proof.
  intros Hn Hl. destruct u; [by constructor|]. destruct bs as [|[m []] bs]; cbn; try by constructor.
  apply Forall_cons in Hl as [[Hm Hd] Hl]. constructor; [|done]. unfold HEADER, HEAP_ALIGNMENT in *. cbn [fst] in *.
  split; [lia|]. apply Z.divide_add_r; [|done]. apply Z.divide_add_r; [tauto|by exists 2].
Qed.

Lemma push_apart n u bs : bs <> [] -> apart bs -> apart (push (n, u) bs).
Proof.
  intros Hb Ha. destruct bs as [|[m v] bs]; [done|]. destruct u; [by split|]. destruct v; [by split|]. cbn [push].
  by destruct bs as [|[k w] bs].
Qed.

Lemma push_not_nil b bs : push b bs <> [].
Proof. destruct b as [n []]; [done|]. by destruct bs as [|[m []] bs]. Qed.

Lemma apart_tail b bs : bs <> [] -> apart (b :: bs) -> apart bs.
Proof. destruct b, bs as [|[m v] bs]; [done|]. by intros _ [_ ?]. Qed.

(** A block that is not free at the end. *)
Lemma apart_used n bs : apart ((n, true) :: bs) -> bs <> [].
Proof. by destruct bs. Qed.

Lemma cells_push_free o n bs : lengths bs ->
  cells false o (push (n, false) bs) = glue o n (cells false (o + HEADER + n) bs).
Proof.
  intros Hl. destruct bs as [|[m v] bs]; [done|]. apply Forall_cons in Hl as [[Hm _] Hl]. destruct v; cbn [push].
  - cbn [cells Bool.eqb app]. destruct (cells false (o + HEADER + n + HEADER + m) bs) as [|[b nb] l] eqn:Hc; [done|].
    destruct (cells_range false bs (o + HEADER + n + HEADER + m) (b, nb) Hl) as (Hb & _); [rewrite Hc; by left|].
    cbn [glue]. unfold HEADER in *. cbn in *. by rewrite (proj2 (Z.eqb_neq _ _)) by lia.
  - cbn [cells Bool.eqb app glue]. replace (o + n + HEADER) with (o + HEADER + n) by lia. rewrite Z.eqb_refl.
    by replace (o + HEADER + (n + HEADER + m)) with (o + HEADER + n + HEADER + m) by lia.
Qed.

Lemma cells_push_used o n u bs : cells true o (push (n, u) bs) =
  (if u then [(o, n)] else []) ++ cells true (o + HEADER + n) bs.
Proof.
  destruct u; [done|]. destruct bs as [|[m []] bs]; [done|done|]. cbn [push cells Bool.eqb app]. f_equal. lia.
Qed.

Lemma glue_glue o n m l :
  glue o n (glue (o + HEADER + n) m l) = glue o (n + HEADER + m) l.
Proof.
  unfold HEADER. destruct l as [|[b nb] l]; cbn [glue]; unfold HEADER.
  - replace (o + n + 8) with (o + 8 + n) by lia. by rewrite Z.eqb_refl.
  - replace (o + (n + 8 + m) + 8) with (o + 8 + n + m + 8) by lia. destruct (o + 8 + n + m + 8 =? b); cbn [glue]; unfold HEADER;
      replace (o + n + 8) with (o + 8 + n) by lia; rewrite Z.eqb_refl; [|done]. do 2 f_equal. lia.
Qed.

Lemma glue_apart o n p m l : o + n + HEADER <> p -> glue o n (glue p m l) = (o, n) :: glue p m l.
Proof.
  intros Hp. destruct l as [|[b nb] l]; cbn [glue]; [by rewrite (proj2 (Z.eqb_neq _ _) Hp)|].
  destruct (p + m + HEADER =? b); cbn [glue]; by rewrite (proj2 (Z.eqb_neq _ _) Hp).
Qed.

Lemma glue_first o n l : first l NULL <> o + n + HEADER -> glue o n l = (o, n) :: l.
Proof. destruct l as [|[b nb] l]; [done|]. cbn. intros Hb. by rewrite (proj2 (Z.eqb_neq _ _)). Qed.

Lemma merged_cons o k l1 p n l2 : o <> NULL -> l1 = [] \/ first l1 NULL <> o + k + HEADER ->
  glue o k (merged l1 p n l2) = merged ((o, k) :: l1) p n l2.
Proof.
  intros Ho Hl. destruct l1 as [|[b nb] l].
  - unfold merged. cbn [List.last removelast app]. change (NULL =? NULL) with true. cbn [negb andb].
    rewrite (proj2 (Z.eqb_neq _ _) Ho). cbn [negb andb]. destruct (Z.eqb_spec (o + k + HEADER) p) as [<-|Hp].
    + replace (o + k + HEADER) with (o + HEADER + k) by lia. apply glue_glue.
    + by apply glue_apart.
  - assert (Hm : merged ((o, k) :: (b, nb) :: l) p n l2 = (o, k) :: merged ((b, nb) :: l) p n l2).
    { unfold merged. change (List.last ((o, k) :: (b, nb) :: l) (NULL, 0)) with (List.last ((b, nb) :: l) (NULL, 0)).
      destruct (List.last ((b, nb) :: l) (NULL, 0)) as [q nq]. by case_match. }
    rewrite Hm. apply glue_first. destruct Hl as [|Hl]; [done|]. cbn [first] in Hl. unfold merged.
    destruct (List.last ((b, nb) :: l) (NULL, 0)) as [q nq] eqn:Hq. case_match; [|exact Hl].
    destruct l as [|c l]; [|exact Hl]. cbn in Hq. injection Hq as <- <-. cbn [removelast app]. by rewrite first_glue.
Qed.

(** Releasing the block behind [b1]: the free cells are merged, the used ones lose
    one. *)
Lemma release_cells b1 : forall o n b2, lengths (b1 ++ (n, true) :: b2) -> apart (b1 ++ (n, true) :: b2) -> 0 <= o ->
  let p := o + total b1 in
  let bs := release p o (b1 ++ (n, true) :: b2) in
  cells false o bs = merged (cells false o b1) p n (cells false (p + HEADER + n) b2) /\
  cells true o bs = cells true o b1 ++ cells true (p + HEADER + n) b2 /\
  lengths bs /\ apart bs /\ total bs = total (b1 ++ (n, true) :: b2) /\ bs <> [].
Proof.
  induction b1 as [|[k u] b1 IH]; intros o n b2 Hl Ha Ho p bs.
  - subst p bs. cbn [app release total] in *. rewrite Z.add_0_r, Z.eqb_refl. apply Forall_cons in Hl as [Hn Hl].
    assert (Hb2 := apart_used _ _ Ha). assert (Ha2 := apart_tail _ _ Hb2 Ha).
    split_and!; [|by rewrite cells_push_used|by apply push_lengths|by apply push_apart|by rewrite push_total|by apply push_not_nil].
    rewrite cells_push_free by done. unfold merged. cbn [List.last cells]. done.
  - subst p bs. cbn [app total release] in *. apply Forall_cons in Hl as [Hk Hl]. cbn [fst] in Hk.
    assert (Hn0 : b1 ++ (n, true) :: b2 <> []) by by destruct b1.
    destruct (IH (o + HEADER + k) n b2 Hl (apart_tail _ _ Hn0 Ha) ltac:(unfold HEADER; lia)) as (Hf & Hu & Hl' & Ha' & Ht & Hn').
    pose proof (total_nonneg b1 ltac:(by apply Forall_app in Hl as [? _])) as Htb.
    replace (o + (HEADER + k + total b1)) with (o + HEADER + k + total b1) in * by lia.
    assert (Hne : o <> o + HEADER + k + total b1) by (unfold HEADER; lia).
    rewrite (proj2 (Z.eqb_neq _ _) Hne).
    set (p := o + HEADER + k + total b1) in *. set (R := release p (o + HEADER + k) (b1 ++ (n, true) :: b2)) in *.
    split_and!; [|rewrite cells_push_used, Hu; by destruct u|by apply push_lengths|by apply push_apart|by rewrite push_total, Ht|by apply push_not_nil].
    destruct u; [exact Hf|]. rewrite cells_push_free, Hf by done. cbn [cells Bool.eqb app].
    apply merged_cons; [unfold NULL; lia|]. destruct b1 as [|[m []] b1]; [by left| |by destruct Ha].
    cbn [cells Bool.eqb app]. destruct (cells false (o + HEADER + k + HEADER + m) b1) as [|[b nb] l] eqn:Hc; [by left|right].
    apply Forall_app in Hl as [Hl _]. apply Forall_cons in Hl as [[Hm _] Hl].
    destruct (cells_range false b1 (o + HEADER + k + HEADER + m) (b, nb) Hl) as (Hb & _); [rewrite Hc; by left|].
    unfold HEADER in *. cbn in *. lia.
Qed.

(** ** The operations *)

Lemma headers_with w p h s : headers (with_list w p h s) = h.
Proof. by destruct w. Qed.

Lemma cells_before u b1 o c : lengths b1 -> c ∈ cells u o b1 -> fst c < o + total b1.
Proof. intros Hl Hc. destruct (cells_range u b1 o c Hl Hc) as (? & ? & ?). unfold HEADER in *. lia. Qed.

(** The cells around a block: in front of it and behind it. *)
Lemma cells_around u b1 n v b2 : lengths (b1 ++ (n, v) :: b2) ->
  Forall (fun c => fst c < total b1) (cells u 0 b1) /\
  Forall (fun c => total b1 < fst c) (cells u (total b1 + HEADER + n) b2).
Proof.
  intros [Hl1 Hl2]%Forall_app. apply Forall_cons in Hl2 as [[Hn _] Hl2]. cbn [fst] in Hn. split; apply Forall_forall; intros c Hc.
  - apply (cells_before u b1 0 c Hl1 Hc).
  - destruct (cells_range u b2 _ c Hl2 Hc) as (? & ? & ?). unfold HEADER in *. lia.
Qed.

Lemma cells_at u b1 n b2 : cells u 0 (b1 ++ (n, u) :: b2) = cells u 0 b1 ++ (total b1, n) :: cells u (total b1 + HEADER + n) b2.
Proof. rewrite cells_app. cbn [cells]. by destruct u. Qed.

Lemma cells_not_at u b1 n b2 : cells u 0 (b1 ++ (n, negb u) :: b2) = cells u 0 b1 ++ cells u (total b1 + HEADER + n) b2.
Proof. rewrite cells_app. cbn [cells]. by destruct u. Qed.

Lemma seg_other h h' (l l' : list (Z * Z)) q : (forall x, x ∉ l'.*1 -> h' !! x = h !! x) -> (forall x, x ∈ l.*1 -> x ∉ l'.*1) ->
  seg h l q -> seg h' l q.
Proof. intros Hf Hd. apply seg_frame. intros c Hc. apply Hf, Hd, list_elem_of_fmap. by exists c. Qed.

Lemma apart_suffix b1 b2 : b2 <> [] -> apart (b1 ++ b2) -> apart b2.
Proof.
  intros Hb. induction b1 as [|b b1 IH]; [done|]. intros Ha. apply IH. apply (apart_tail b); [by destruct b1|done].
Qed.

(** The block at the end is free. *)
Lemma apart_free bs : forall o, bs <> [] -> apart bs -> cells false o bs <> [].
Proof.
  induction bs as [|[n u] bs IH]; intros o Hb Ha; [done|]. destruct bs as [|b bs].
  - cbn in Ha. by subst u.
  - cbn [cells]. intros Hc. apply app_nil in Hc as [_ Hc]. apply (IH (o + HEADER + n)); [done|by apply (apart_tail (n, u))|done].
Qed.

Lemma first_merged l1 p n l2 : first (merged l1 p n l2) NULL = first (l1 ++ (p, n) :: l2) NULL.
Proof.
  unfold merged. destruct (List.last l1 (NULL, 0)) as [q nq] eqn:Hq. destruct l1 as [|[a na] l1].
  - cbn in Hq. injection Hq as <- <-. change (NULL =? NULL) with true. cbn. apply first_glue.
  - case_match; [|done]. destruct l1 as [|c l1]; [|done]. cbn in Hq. injection Hq as <- <-. apply first_glue.
Qed.

Lemma free_run s b1 n b2 : let bs := b1 ++ (n, true) :: b2 in tiling bs -> holds s bs ->
  exists s', finsh_heap_free (total b1 + HEADER) s = Ret (tt, s') /\ holds s' (release (total b1) 0 bs) /\
    tiling (release (total b1) 0 bs).
Proof.
  intros bs [Ht Hl Ha] [Hf Hfs Hu Hus]. set (p := total b1).
  assert (Hl' : lengths (b1 ++ (n, false) :: b2)).
  { apply Forall_app in Hl as [Hl1 Hl2]. apply Forall_cons in Hl2 as [Hn Hl2]. apply Forall_app. split; [done|by constructor]. }
  assert (Ht' : total (b1 ++ (n, false) :: b2) = FINSH_HEAP_MAX) by (rewrite <- Ht; unfold bs; by rewrite !total_app).
  assert (Hdis : forall x, x ∈ (cells true 0 bs).*1 -> x ∉ (cells false 0 bs).*1) by (intros x; by apply cells_disjoint).
  assert (Hdis' : forall x, x ∈ (cells true 0 (b1 ++ (n, false) :: b2)).*1 -> x ∉ (cells false 0 (b1 ++ (n, false) :: b2)).*1)
    by (intros x; by apply cells_disjoint).
  assert (Hgu := cells_good true _ Hl Ht). assert (Hgf := cells_good false _ Hl' Ht'). assert (Hsf := cells_small false _ Hl' Ht').
  destruct (cells_around false b1 n false b2 Hl') as [Hlt Hgt].
  unfold bs in *. rewrite (cells_at true) in Hu, Hus, Hgu, Hdis. rewrite (cells_not_at false) in Hf, Hfs, Hdis.
  rewrite (cells_at false) in Hgf, Hsf, Hdis'. rewrite (cells_not_at true) in Hdis'. fold p in Hlt, Hgt, Hu, Hus, Hgu, Hdis, Hf, Hfs, Hgf, Hsf, Hdis' |- *.
  destruct (release_cells b1 0 n b2 Hl Ha ltac:(lia)) as (Hrf & Hru & Hrl & Hra & Hrt & _).
  change (0 + total b1) with p in Hrf, Hru, Hrl, Hra, Hrt.
  set (F1 := cells false 0 b1) in *. set (F2 := cells false (p + HEADER + n) b2) in *.
  set (U1 := cells true 0 b1) in *. set (U2 := cells true (p + HEADER + n) b2) in *.
  assert (HlU : (length U1 <= FUEL)%nat) by by apply (cells_fuel true 0 b1 _ Hl Ht).
  assert (HlF : (length F1 <= FUEL)%nat) by by apply (cells_fuel false 0 b1 _ Hl Ht).
  destruct (remove_run Allocated U1 p n U2 s Hu Hus Hgu HlU) as (h1 & q1 & H1 & Hs1 & Hp1 & Hfr1).
  set (s1 := with_list Allocated (first (U1 ++ U2) NULL) h1 s) in *.
  assert (Hfs1 : seg (headers s1) (F1 ++ F2) NULL).
  { apply (seg_other (headers s) _ _ (U1 ++ [(p, n)])); [exact Hfr1| |exact Hfs]. intros x Hx Hin. apply (Hdis x); [|exact Hx].
    rewrite !fmap_app in *. cbn in *. set_solver. }
  assert (HF2 : F2 <> []).
  { assert (Hsuf : apart ((n, true) :: b2)) by by apply (apart_suffix b1).
    assert (Hb2 := apart_used _ _ Hsuf). apply apart_free; [done|by apply (apart_tail (n, true))]. }
  destruct (block_insert_run Free F1 p n q1 F2 s1 Hf Hfs1 Hgf Hlt Hgt Hp1 ltac:(done) HlF) as (h2 & H2 & Hs2 & Hfr2).
  set (s2 := with_list Free (first (F1 ++ (p, n) :: F2) NULL) h2 s1) in *.
  destruct (merge_run Free F1 p n F2 s2 eq_refl Hs2 Hgf Hsf HlF) as (h3 & H3 & Hs3 & Hfr3).
  exists (with_headers h3 s2). split_and!.
  - unfold finsh_heap_free. replace (p + HEADER - HEADER) with p by lia. hstep H1. hstep H2. exact H3.
  - split.
    + rewrite Hrf, first_merged. done.
    + cbn [headers with_headers]. rewrite Hrf. exact Hs3.
    + rewrite Hru. done.
    + cbn [headers with_headers]. rewrite Hru.
      assert (Hd : forall x, x ∈ (U1 ++ U2).*1 -> x ∉ (F1 ++ [(p, n)]).*1).
      { intros x Hx Hin. apply (Hdis' x Hx). rewrite !fmap_app in *. cbn in *. set_solver. }
      apply (seg_other h2 _ _ (F1 ++ [(p, n)])); [exact Hfr3|exact Hd|].
      apply (seg_other h1 _ _ (F1 ++ [(p, n)])); [exact Hfr2|exact Hd|exact Hs1].
  - split; [by rewrite Hrt|done|done].
Qed.

(** ** Collection *)

(** The blocks when those of [b1] have been looked at. *)
Fixpoint sweep (live : Z -> bool) (o : Z) (b1 b2 : list block) : list block :=
  match b1 with [] => b2 | (n, u) :: b1 => push (n, u && live o) (sweep live (o + HEADER + n) b1 b2) end.

Lemma sweep_all live bs : forall o, sweep live o bs [] = collect live o bs.
Proof. induction bs as [|[n u] bs IH]; intros o; [done|]. cbn. by rewrite IH. Qed.

Lemma sweep_snoc live b1 n u b2 : forall o,
  sweep live o (b1 ++ [(n, u)]) b2 = sweep live o b1 (push (n, u && live (o + total b1)) b2).
Proof.
  induction b1 as [|[k v] b1 IH]; intros o; cbn [app sweep total]; [by rewrite Z.add_0_r|].
  rewrite IH. do 6 f_equal. lia.
Qed.

Lemma push_push k m bs : push (k, false) (push (m, false) bs) = push (k + HEADER + m, false) bs.
Proof. destruct bs as [|[n []] bs]; cbn; [done|done|]. do 2 f_equal. lia. Qed.

Lemma release_cons p o n u bs :
  release p o ((n, u) :: bs) = if o =? p then push (n, false) bs else push (n, u) (release p (o + HEADER + n) bs).
Proof. done. Qed.

Lemma release_push p o k v bs : o <> p -> (forall m bs', bs = (m, false) :: bs' -> o + HEADER + k <> p) ->
  release p o (push (k, v) bs) = push (k, v) (release p (o + HEADER + k) bs).
Proof.
  intros Ho.
  assert (Hcons : forall b, release p o (b :: bs) = push b (release p (o + HEADER + fst b) bs))
    by (intros [n u]; cbn; by rewrite (proj2 (Z.eqb_neq _ _) Ho)).
  intros Hb. destruct v; [apply Hcons|]. destruct bs as [|[m []] bs]; [apply Hcons|apply Hcons|].
  change (push (k, false) ((m, false) :: bs)) with ((k + HEADER + m, false) :: bs). rewrite !release_cons.
  rewrite (proj2 (Z.eqb_neq _ _) Ho), (proj2 (Z.eqb_neq _ _)) by by eapply Hb. rewrite push_push. do 2 f_equal. lia.
Qed.

Lemma sweep_release live n b2 b1 : forall o, lengths b1 ->
  release (o + total b1) o (sweep live o b1 ((n, true) :: b2)) = sweep live o b1 (push (n, false) b2).
Proof.
  induction b1 as [|[k v] b1 IH]; intros o Hl; cbn [sweep total].
  - cbn [release]. by rewrite Z.add_0_r, Z.eqb_refl.
  - apply Forall_cons in Hl as [[Hk _] Hl]. cbn [fst] in Hk. pose proof (total_nonneg b1 Hl). unfold HEADER in *.
    rewrite release_push; [| lia |].
    + unfold HEADER. rewrite <- IH by done. do 2 f_equal. lia.
    + intros m bs' Hb. unfold HEADER in *. destruct b1 as [|[j w] b1]; [done|]. cbn [total length] in *. unfold HEADER in *. lia.
Qed.

Lemma cells_sweep live b1 b2 : forall o, exists X,
  cells true o (sweep live o b1 b2) = X ++ cells true (o + total b1) b2.
Proof.
  induction b1 as [|[k v] b1 IH]; intros o; cbn [sweep total]; [exists []; by rewrite Z.add_0_r|].
  destruct (IH (o + HEADER + k)) as [X HX]. rewrite cells_push_used, HX.
  eexists. rewrite app_assoc. do 2 f_equal. lia.
Qed.

Lemma cells_split bs : forall o p n, (p, n) ∈ cells true o bs ->
  exists c1 c2, bs = c1 ++ (n, true) :: c2 /\ p = o + total c1.
Proof.
  induction bs as [|[k v] bs IH]; intros o p n Hin; [by apply elem_of_nil in Hin|]. cbn [cells] in Hin.
  apply elem_of_app in Hin as [Hin|Hin].
  - destruct v; [|by apply elem_of_nil in Hin]. apply list_elem_of_singleton in Hin as [= -> ->]. exists [], bs. cbn. split; [done|lia].
  - destruct (IH _ _ _ Hin) as (c1 & c2 & -> & ->). exists ((k, v) :: c1), c2. cbn [total app]. split; [done|lia].
Qed.

Section collection.
Context `{Machine}.
Context (finsh_heap : Z) (vs : list finsh_var) (m : mem) (live : Z -> bool).
(** The variables can be read, and refer to the live blocks. *)
Context (Hlive : forall h, in_heap h -> referenced finsh_heap vs 0 (h + HEADER) m = Ret (live h)).

Lemma gc_loop_run b2 : forall b1 fuel s, tiling (b1 ++ b2) ->
  tiling (sweep live 0 b1 b2) -> holds s (sweep live 0 b1 b2) -> (length (cells true (total b1) b2) <= fuel)%nat ->
  exists s', gc_loop finsh_heap fuel vs m (first (cells true (total b1) b2) NULL) s = Ret (tt, s') /\
    holds s' (collect live 0 (b1 ++ b2)) /\ tiling (collect live 0 (b1 ++ b2)).
Proof.
  induction b2 as [|[n u] b2 IH]; intros b1 fuel s Hbs Ht Hs Hf.
  - exists s. rewrite app_nil_r, <- sweep_all. split_and!; [by destruct fuel|done|done].
  - assert (Hl : lengths b1) by (destruct Hbs as [_ Hl _]; by apply Forall_app in Hl as [? _]).
    assert (Hsnoc : b1 ++ (n, u) :: b2 = (b1 ++ [(n, u)]) ++ b2) by by rewrite <- app_assoc.
    assert (Htot : total (b1 ++ [(n, u)]) = total b1 + HEADER + n) by (rewrite total_app; cbn; lia).
    assert (IH' := fun fuel s => IH (b1 ++ [(n, u)]) fuel s). rewrite <- Hsnoc, Htot, sweep_snoc in IH'.
    change (0 + total b1) with (total b1) in IH'. destruct u; cbn [andb] in IH'.
    + cbn [cells Bool.eqb app first] in *.
      destruct (cells_sweep live b1 ((n, true) :: b2) 0) as [X HX]. cbn [cells Bool.eqb app] in HX. change (0 + total b1) with (total b1) in HX.
      assert (Hin : (total b1, n) ∈ cells true 0 (sweep live 0 b1 ((n, true) :: b2))) by (rewrite HX; apply elem_of_app; right; by left).
      destruct (cells_split _ _ _ _ Hin) as (c1 & c2 & Hc & Hp). change (0 + total c1) with (total c1) in Hp.
      assert (Hseg := holds_useds _ _ Hs). rewrite HX in Hseg. apply seg_app in Hseg as [_ [Hh _]].
      assert (Hih : in_heap (total b1)).
      { destruct (cells_good true _ (tiling_lengths _ Ht) (tiling_total _ Ht)) as [Hg _].
        rewrite Forall_forall in Hg. by apply (Hg (total b1, n)). }
      destruct fuel as [|fuel]; [cbn in Hf; lia|]. cbn [length] in Hf. cbn [gc_loop].
      rewrite (proj2 (Z.eqb_neq _ _) (in_heap_not_null _ Hih)), (Hlive _ Hih).
      change (lift (Ret ?b)) with (mret b : M bool). rewrite st_ret_bind. hstep (header_run _ _ _ Hh). cbn [snd].
      destruct (live (total b1)) eqn:Hlv.
      * rewrite st_ret_bind. apply (IH' fuel s Hbs Ht Hs). lia.
      * rewrite Hc in Ht, Hs. destruct (free_run s c1 n c2 Ht Hs) as (s' & Hr & Hs' & Ht').
        rewrite <- Hp in Hr. rewrite <- Hc, <- Hp in Hs', Ht'. change (total b1) with (0 + total b1) in Hs', Ht' at 1.
        rewrite sweep_release in Hs', Ht' by done. hstep Hr. apply (IH' fuel s' Hbs Ht' Hs'). lia.
    + cbn [cells Bool.eqb app] in *.
      assert (Hpush : push (n, false) b2 = (n, false) :: b2).
      { assert (Ha := apart_suffix b1 ((n, false) :: b2) ltac:(done) (tiling_apart _ Hbs)). destruct b2 as [|[k []] b2]; [done|done|by destruct Ha]. }
      rewrite Hpush in IH'. by apply IH'.
Qed.

Lemma gc_run bs s : tiling bs -> holds s bs ->
  exists s', finsh_heap_gc finsh_heap vs m s = Ret (tt, s') /\ holds s' (collect live 0 bs) /\ tiling (collect live 0 bs).
Proof.
  intros Ht Hs. unfold finsh_heap_gc. hstep (list_head_run Allocated s). cbn [head_of]. rewrite (holds_used _ _ Hs).
  apply (gc_loop_run bs [] FUEL s Ht Ht Hs). pose proof (cells_length true 0 bs).
  pose proof (blocks_length bs (tiling_lengths _ Ht) (tiling_total _ Ht)). cbn [total]. lia.
Qed.
End collection.

(** ** Allocation *)

Lemma first_fit_run fits l : forall fuel s, seg (headers s) l NULL -> Forall (fun c => in_heap (fst c)) l -> (length l <= fuel)%nat ->
  first_fit fuel fits (first l NULL) s = Ret (match List.find (fun c => fits (snd c)) l with Some (o, _) => o | None => NULL end, s).
Proof.
  induction l as [|[o n] l IH]; intros fuel s Hs Hi Hf; [by destruct fuel|]. destruct Hs as [Ho Hs]. apply Forall_cons in Hi as [Hio Hi].
  cbn [fst] in Hio. destruct fuel as [|fuel]; [cbn in Hf; lia|]. cbn [first first_fit List.find snd].
  rewrite (proj2 (Z.eqb_neq _ _) (in_heap_not_null _ Hio)). hstep (header_run _ _ _ Ho). cbn [fst snd].
  destruct (fits n); [done|]. apply IH; [done|done|cbn in Hf; lia].
Qed.

(** The list of free blocks and the list of all blocks have the same first fit. *)
Lemma take_find fits size bs : forall o,
  match take_block fits size o bs with
  | Some (p, bs') => exists b1 n b2, bs = b1 ++ (n, false) :: b2 /\ p = o + total b1 /\ fits n = true /\
      bs' = b1 ++ (size, true) :: (n - HEADER - size, false) :: b2 /\
      List.find (fun c => fits (snd c)) (cells false o bs) = Some (p, n)
  | None => List.find (fun c => fits (snd c)) (cells false o bs) = None
  end.
Proof.
  induction bs as [|[n u] bs IH]; intros o; [done|]. cbn [take_block cells]. destruct u; cbn [negb andb Bool.eqb app].
  2: destruct (fits n) eqn:Hn.
  1, 3: specialize (IH (o + HEADER + n)); destruct (take_block fits size (o + HEADER + n) bs) as [[p bs']|];
    cbn [List.find snd]; rewrite ?Hn; [|exact IH]; destruct IH as (b1 & k & b2 & -> & -> & Hk & -> & Hfi);
    (eexists ((n, _) :: b1), k, b2; cbn [total app]; split_and!; [done|lia|done|done|]; rewrite Hfi; do 2 f_equal; lia).
  exists [], n, bs. cbn. rewrite Hn. split_and!; [done|lia|done|done|done].
Qed.

Lemma apart_taken b1 n b2 k r : apart (b1 ++ (n, false) :: b2) -> apart (b1 ++ (k, true) :: (r, false) :: b2).
Proof.
  induction b1 as [|[j v] b1 IH]; cbn [app].
  - intros Ha. split; [done|]. by destruct b2 as [|[m w] b2].
  - intros Ha. destruct b1 as [|[i w] b1]; cbn [app] in *; destruct Ha as [Hv Ha].
    + split; [by rewrite orb_true_r|]. by apply IH.
    + split; [done|]. by apply IH.
Qed.

Lemma taken_tiling b1 n b2 size : 0 <= size -> (HEAP_ALIGNMENT | size) -> size + HEADER <= n -> tiling (b1 ++ (n, false) :: b2) ->
  tiling (b1 ++ (size, true) :: (n - HEADER - size, false) :: b2).
Proof.
  intros H0 Hd Hn [Ht Hl Ha]. split.
  - rewrite <- Ht, !total_app. cbn [total]. lia.
  - apply Forall_app in Hl as [Hl1 Hl2]. apply Forall_cons in Hl2 as [[_ Hdn] Hl2]. cbn [fst] in Hdn. apply Forall_app. split; [done|].
    constructor; [by split|]. constructor; [|done]. cbn [fst]. split; [lia|]. unfold HEADER, HEAP_ALIGNMENT in *.
    apply Z.divide_sub_r; [|done]. apply Z.divide_sub_r; [done|by exists 2].
  - by apply (apart_taken b1 n).
Qed.

Lemma clear_seg h l q a n : (forall c, c ∈ l -> ~ (a < fst c + HEADER /\ fst c < a + n)) -> seg h l q ->
  seg (filter (fun x : Z * (Z * Z) => ~ (a < fst x + HEADER /\ fst x < a + n)) h) l q.
Proof.
  intros Hc. apply seg_frame. intros c Hin. specialize (Hc c Hin). destruct (h !! fst c) as [x|] eqn:Hx.
  - apply map_lookup_filter_Some_2; [done|]. exact Hc.
  - apply map_lookup_filter_None_2. by left.
Qed.

(** What [finsh_heap_allocate] does with the block it found. *)
Definition place (h size : Z) : ST heap Z :=
  _ ← finsh_block_split h size;
  _ ← finsh_block_remove Free h;
  _ ← set_next h NULL;
  _ ← finsh_block_insert Allocated h;
  _ ← clear (h + HEADER) size;
  mret (h + HEADER).

Lemma nodup_parts (A : list Z) p q B : NoDup (A ++ p :: q :: B) ->
  NoDup (A ++ p :: B) /\ q ∉ A ++ p :: B /\ p ∉ A ++ q :: B.
Proof.
  intros (HA & Hx & HB)%NoDup_app. apply NoDup_cons in HB as [Hp HB]. apply NoDup_cons in HB as [Hq HB].
  rewrite elem_of_cons in Hp. setoid_rewrite elem_of_cons in Hx. setoid_rewrite elem_of_cons in Hx.
  rewrite NoDup_app, NoDup_cons, !elem_of_app, !elem_of_cons. setoid_rewrite elem_of_cons. naive_solver.
Qed.

Lemma used_parts (U1 U2 F1 F2 : list Z) p q : NoDup (U1 ++ p :: U2) -> (forall x, x ∈ U1 ++ p :: U2 -> x ∉ F1 ++ q :: F2) ->
  forall x, x ∈ U1 ++ U2 -> x <> p /\ x <> q /\ x ∉ F1.
Proof.
  intros (_ & Hx & Hn)%NoDup_app Hd x Hin. apply NoDup_cons in Hn as [Hp _].
  assert (Hxd : x ∉ F1 ++ q :: F2) by (apply Hd; rewrite elem_of_app, elem_of_cons in *; tauto).
  rewrite elem_of_app, elem_of_cons in Hxd. split_and!; [|tauto|tauto].
  intros ->. apply elem_of_app in Hin as [Hin|Hin]; [|done]. apply (Hx p Hin). by left.
Qed.

Lemma place_lists s F1 p n F2 U1 U2 size : let p2 := p + HEADER + size in let r := n - HEADER - size in
  free_list s = first (F1 ++ (p, n) :: F2) NULL -> seg (headers s) (F1 ++ (p, n) :: F2) NULL ->
  allocate_list s = first (U1 ++ U2) NULL -> seg (headers s) (U1 ++ U2) NULL ->
  good (F1 ++ (p, size) :: (p2, r) :: F2) -> good (U1 ++ (p, size) :: U2) ->
  (forall x, x ∈ (U1 ++ (p, size) :: U2).*1 -> x ∉ (F1 ++ (p2, r) :: F2).*1) ->
  Forall (fun c => fst c < p) F1 -> Forall (fun c => p2 < fst c) F2 ->
  Forall (fun c => fst c < p) U1 -> Forall (fun c => p2 < fst c) U2 ->
  (length F1 <= FUEL)%nat -> (length U1 <= FUEL)%nat -> 0 <= size -> 0 <= r < 2 ^ 32 ->
  exists h, place p size s =
      Ret (p + HEADER, mkHeap h (first (F1 ++ (p2, r) :: F2) NULL) (first (U1 ++ (p, size) :: U2) NULL)) /\
    seg h (F1 ++ (p2, r) :: F2) NULL /\ seg h (U1 ++ (p, size) :: U2) NULL.
Proof.
  intros p2 r Hf Hfs Hu Hus Hgf Hgu Hdis Hf1 Hf2 Hu1 Hu2 HlF HlU H0 Hr.
  assert (Hgf' := Hgf). destruct Hgf' as [Hi Hd]. apply Forall_app in Hi as [_ Hi]. apply Forall_cons in Hi as [Hip Hi].
  apply Forall_inv in Hi as Hip2. cbn [fst] in Hip, Hip2. rewrite fmap_app in Hd. cbn [fmap list_fmap fst] in Hd.
  assert (Hnd : NoDup (F1 ++ (p, n) :: F2).*1 /\ p2 ∉ (F1 ++ (p, n) :: F2).*1 /\ p ∉ (F1 ++ (p2, r) :: F2).*1).
  { rewrite !fmap_app. exact (nodup_parts F1.*1 p p2 F2.*1 Hd). }
  destruct Hnd as (Hnd & Hp2 & Hp).
  destruct (split_run s F1 p n F2 size Hfs Hnd Hip Hip2 Hp2 Hr) as (h1 & H1 & Hs1 & Hfr1). fold p2 r in Hs1, Hfr1.
  set (s1 := with_headers h1 s) in *.
  assert (Hhd1 : head_of Free s1 = first (F1 ++ (p, size) :: (p2, r) :: F2) NULL) by (cbn; by rewrite Hf, !first_app).
  destruct (remove_run Free F1 p size _ s1 Hhd1 Hs1 Hgf HlF) as (h2 & q & H2 & Hs2 & Hp' & Hfr2).
  set (s2 := with_list Free (first (F1 ++ (p2, r) :: F2) NULL) h2 s1) in *.
  assert (H3 := set_next_run s2 p size NULL q Hip Hp'). set (s3 := with_headers (<[p := (size, NULL)]> (headers s2)) s2) in *.
  assert (Hx : forall x, x ∈ (U1 ++ U2).*1 -> x <> p /\ x <> p2 /\ x ∉ F1.*1).
  { intros x Hx. rewrite fmap_app in Hx. destruct Hgu as [_ Hnu]. rewrite fmap_app in Hnu.
    apply (used_parts U1.*1 U2.*1 F1.*1 F2.*1 p p2 Hnu); [|exact Hx]. intros y Hy. specialize (Hdis y). rewrite !fmap_app in Hdis. by apply Hdis. }
  assert (Hus3 : seg (headers s3) (U1 ++ U2) NULL).
  { apply (seg_frame (headers s)); [|exact Hus]. intros c Hc.
    destruct (Hx (fst c)) as (Hcp & Hcp2 & Hcf); [apply list_elem_of_fmap; by exists c|].
    transitivity (h2 !! fst c); [by apply lookup_insert_ne|]. transitivity (h1 !! fst c); [|by apply Hfr1].
    apply Hfr2. rewrite fmap_app, elem_of_app. intros [?|Hin]; [done|]. by apply list_elem_of_singleton in Hin. }
  assert (Hu2' : Forall (fun c => p < fst c) U2).
  { eapply Forall_impl; [exact Hu2|]. cbn. unfold p2, HEADER. intros; lia. }
  destruct (block_insert_run Allocated U1 p size NULL U2 s3 Hu Hus3 Hgu Hu1 Hu2' (lookup_insert_eq _ _ _) ltac:(done) HlU)
    as (h4 & H4 & Hs4 & Hfr4).
  assert (Hclear : forall l1 l2 m, Forall (fun c : Z * Z => fst c < p) l1 -> Forall (fun c : Z * Z => p2 < fst c) l2 -> m = p \/ m = p2 ->
    forall n' c, c ∈ l1 ++ (m, n') :: l2 -> ~ (p + HEADER < fst c + HEADER /\ fst c < p + HEADER + size)).
  { intros l1 l2 m Hl1 Hl2 Hm n' c Hc. rewrite Forall_forall in Hl1, Hl2. apply elem_of_app in Hc as [Hc|Hc]; [specialize (Hl1 c Hc); lia|].
    apply elem_of_cons in Hc as [->|Hc]; [cbn; unfold p2 in *; lia|]. specialize (Hl2 c Hc). unfold p2 in *. lia. }
  eexists. split_and!.
  - unfold place. hstep H1. hstep H2. hstep H3. hstep H4. unfold clear. by rewrite st_modify_bind.
  - apply clear_seg; [apply (Hclear F1 F2 p2 Hf1 Hf2); by right|].
    apply (seg_other (headers s3) _ _ (U1 ++ [(p, size)])); [exact Hfr4| |].
    + intros x Hin Hin'. apply (Hdis x); [|exact Hin]. rewrite !fmap_app in *. cbn in *. set_solver.
    + by apply seg_insert.
  - apply clear_seg; [apply (Hclear U1 U2 p Hu1 Hu2); by left|]. exact Hs4.
Qed.

Lemma place_run s b1 n b2 size : let bs := b1 ++ (n, false) :: b2 in
  let bs' := b1 ++ (size, true) :: (n - HEADER - size, false) :: b2 in
  tiling bs -> holds s bs -> 0 <= size -> (HEAP_ALIGNMENT | size) -> size + HEADER <= n ->
  exists s', place (total b1) size s = Ret (total b1 + HEADER, s') /\ holds s' bs' /\ tiling bs'.
Proof.
  intros bs bs' Ht [Hf Hfs Hu Hus] H0 Hd Hn. assert (Ht' := taken_tiling b1 n b2 size H0 Hd Hn Ht). fold bs' in Ht'.
  set (p := total b1). set (p2 := p + HEADER + size). set (r := n - HEADER - size) in *.
  assert (Hp2 : p2 + HEADER + r = p + HEADER + n) by (unfold p2, r; lia).
  unfold bs in Hf, Hfs, Hu, Hus. rewrite (cells_at false) in Hf, Hfs. rewrite (cells_not_at true) in Hu, Hus. fold p in Hf, Hfs, Hu, Hus.
  assert (Hcf : cells false 0 bs' = cells false 0 b1 ++ (p2, r) :: cells false (p + HEADER + n) b2).
  { unfold bs'. rewrite (cells_not_at false). cbn [cells Bool.eqb app]. fold p p2. by rewrite Hp2. }
  assert (Hcu : cells true 0 bs' = cells true 0 b1 ++ (p, size) :: cells true (p + HEADER + n) b2).
  { unfold bs'. rewrite (cells_at true). cbn [cells Bool.eqb app]. fold p p2. by rewrite Hp2. }
  (* the two parts of the block, both free *)
  set (bm := b1 ++ (size, false) :: (r, false) :: b2).
  assert (Hlm : lengths bm).
  { destruct Ht' as [_ Hl _]. apply Forall_app in Hl as [Hl1 Hl2]. apply Forall_cons in Hl2 as [Hs Hl2]. apply Forall_app. split; [done|by constructor]. }
  assert (Htm : total bm = FINSH_HEAP_MAX) by (rewrite <- (tiling_total _ Ht'); unfold bm, bs'; by rewrite !total_app).
  assert (Hgm := cells_good false bm Hlm Htm). assert (Hcm : cells false 0 bm = cells false 0 b1 ++ (p, size) :: (p2, r) :: cells false (p + HEADER + n) b2).
  { unfold bm. rewrite (cells_at false). cbn [cells Bool.eqb app]. fold p p2. by rewrite Hp2. }
  assert (Hgu := cells_good true bs' (tiling_lengths _ Ht') (tiling_total _ Ht')).
  assert (Hdis := fun x => cells_disjoint bs' 0 x (tiling_lengths _ Ht')).
  assert (Hdis0 := fun x => cells_disjoint bm 0 x Hlm).
  assert (Hsplit : bs' = (b1 ++ [(size, true)]) ++ (r, false) :: b2) by (unfold bs'; by rewrite <- app_assoc).
  assert (Htot2 : total (b1 ++ [(size, true)]) = p2) by (rewrite total_app; cbn; unfold p2, p; lia).
  assert (Hl2 := tiling_lengths _ Ht'). rewrite Hsplit in Hl2.
  destruct (cells_around false b1 size true _ (tiling_lengths _ Ht')) as [Hf1 _].
  destruct (cells_around true b1 size true _ (tiling_lengths _ Ht')) as [Hu1 _].
  destruct (cells_around false _ r false b2 Hl2) as [_ Hf2]. destruct (cells_around true _ r false b2 Hl2) as [_ Hu2].
  rewrite Htot2, Hp2 in Hf2, Hu2. fold p in Hf1, Hu1. clear Hl2.
  pose proof (tiling_lengths _ Ht) as Hl0. pose proof (tiling_total _ Ht) as Htot.
  assert (Hr : 0 <= r < 2 ^ 32).
  { assert (Hl := Hl0). apply Forall_app in Hl as [Hl1 Hl2]. pose proof (total_nonneg _ Hl1).
    apply Forall_cons in Hl2 as [_ Hl2]. pose proof (total_nonneg _ Hl2). unfold bs in Htot. rewrite total_app in Htot. cbn [total] in Htot.
    unfold r, FINSH_HEAP_MAX, HEADER in *. lia. }
  rewrite Hcm in Hgm. rewrite Hcu in Hgu.
  destruct (place_lists s _ p n _ _ _ size Hf Hfs Hu Hus Hgm Hgu) as (h & Hrun & Hsf & Hsu); try done.
  - intros x Hx. rewrite <- Hcu in Hx. fold p2 r. rewrite <- Hcf. by apply Hdis.
  - by apply (cells_fuel false 0 b1 _ Hl0 Htot).
  - by apply (cells_fuel true 0 b1 _ Hl0 Htot).
  - eexists. split_and!; [exact Hrun| |done]. fold p2 r in Hsf |- *. split; cbn [free_list headers allocate_list]; rewrite ?Hcf, ?Hcu; done.
Qed.

Lemma align_spec size : 0 <= size < 2 ^ 31 ->
  size <= HEAP_ALIGN_SIZE size < size + HEAP_ALIGNMENT /\ (HEAP_ALIGNMENT | HEAP_ALIGN_SIZE size).
Proof.
  intros Hs. unfold HEAP_ALIGN_SIZE, HEAP_ALIGNMENT. rewrite wrap_id by lia. change (4 - 1) with (Z.ones 2).
  rewrite <- Z.ldiff_land, Z.ldiff_ones_r, Z.shiftr_div_pow2, Z.shiftl_mul_pow2 by lia. change (2 ^ 2) with 4.
  split; [Z.div_mod_to_equations; lia|]. by exists ((size + 4 - 1) / 4).
Qed.

Section allocation.
Context `{Machine}.
Context (finsh_heap : Z) (vs : list finsh_var) (m : mem) (live : Z -> bool).
Context (Hlive : forall h, in_heap h -> referenced finsh_heap vs 0 (h + HEADER) m = Ret (live h)).

(** A fit of the list is the block [take_block] takes. *)
Lemma fit_place fits size bs s : tiling bs -> holds s bs -> 0 <= size -> (HEAP_ALIGNMENT | size) ->
  (forall n, fits n = true -> size + HEADER <= n) ->
  match take_block fits size 0 bs with
  | Some (p, bs') => first_fit FUEL fits (free_list s) s = Ret (p, s) /\ in_heap p /\
      exists s', place p size s = Ret (p + HEADER, s') /\ holds s' bs' /\ tiling bs'
  | None => first_fit FUEL fits (free_list s) s = Ret (NULL, s)
  end.
Proof.
  intros Ht Hs H0 Hd Hfits. assert (Hg := cells_good false bs (tiling_lengths _ Ht) (tiling_total _ Ht)).
  assert (Hlen : (length (cells false 0 bs) <= FUEL)%nat).
  { pose proof (cells_length false 0 bs). pose proof (blocks_length bs (tiling_lengths _ Ht) (tiling_total _ Ht)). lia. }
  rewrite (holds_free _ _ Hs), (first_fit_run fits _ FUEL s (holds_frees _ _ Hs) (proj1 Hg) Hlen).
  assert (Htf := take_find fits size bs 0). destruct (take_block fits size 0 bs) as [[p bs']|]; [|by rewrite Htf].
  destruct Htf as (b1 & n & b2 & -> & -> & Hn & -> & ->). change (0 + total b1) with (total b1). split_and!; [done| |].
  - destruct Hg as [Hg _]. rewrite (cells_at false) in Hg. apply Forall_app in Hg as [_ Hg]. by apply Forall_inv in Hg.
  - apply place_run; auto.
Qed.

Lemma allocate_heap size bs s : tiling bs -> holds s bs -> 0 <= size < 2 ^ 31 ->
  exists s', finsh_heap_allocate finsh_heap size vs m s =
      Ret (match fst (allocate live (HEAP_ALIGN_SIZE size) bs) with Some p => p + HEADER | None => NULL end, s') /\
    holds s' (snd (allocate live (HEAP_ALIGN_SIZE size) bs)) /\ tiling (snd (allocate live (HEAP_ALIGN_SIZE size) bs)).
Proof.
  intros Ht Hs Hsz. destruct (align_spec size Hsz) as [Ha Hd]. unfold finsh_heap_allocate.
  set (sz := HEAP_ALIGN_SIZE size) in *. rewrite (wrap_id 32) by (unfold HEADER, HEAP_ALIGNMENT in *; lia).
  assert (H1 := fit_place (fun n => sz + HEADER <? n) sz bs s Ht Hs ltac:(lia) Hd ltac:(intros n; cbn; lia)).
  hstep (list_head_run Free s). cbn [head_of]. unfold allocate.
  destruct (take_block (fun n => sz + HEADER <? n) sz 0 bs) as [[p bs1]|].
  - destruct H1 as (H1 & Hp & s' & Hr & Hs' & Ht'). exists s'. split_and!; [|done|done]. hstep H1.
    rewrite (proj2 (Z.eqb_neq _ _) (in_heap_not_null _ Hp)), st_ret_bind. rewrite (proj2 (Z.eqb_neq _ _) (in_heap_not_null _ Hp)). exact Hr.
  - hstep H1. change (NULL =? NULL) with true. cbn beta iota.
    destruct (gc_run finsh_heap vs m live Hlive bs s Ht Hs) as (s1 & H2 & Hs1 & Ht1).
    assert (H3 := fit_place (fun n => sz + HEADER <=? n) sz _ s1 Ht1 Hs1 ltac:(lia) Hd ltac:(intros n; cbn; lia)).
    assert (H23 : (_ ← finsh_heap_gc finsh_heap vs m; h ← list_head Free; first_fit FUEL (fun n => sz + HEADER <=? n) h) s =
      first_fit FUEL (fun n => sz + HEADER <=? n) (free_list s1) s1) by by hstep H2.
    destruct (take_block (fun n => sz + HEADER <=? n) sz 0 (collect live 0 bs)) as [[p bs1]|].
    + destruct H3 as (H3 & Hp & s' & Hr & Hs' & Ht'). exists s'. split_and!; [|done|done]. rewrite H3 in H23. hstep H23.
      rewrite (proj2 (Z.eqb_neq _ _) (in_heap_not_null _ Hp)). exact Hr.
    + exists s1. split_and!; [|done|done]. rewrite H3 in H23. by hstep H23.
Qed.
End allocation.

(** The heap after [finsh_heap_init] is one free block. *)
Definition empty : list block := [(FINSH_HEAP_MAX - HEADER, false)].

Lemma init_holds : holds finsh_heap_init empty /\ tiling empty.
Proof. split; split; try done. apply Forall_singleton. split; [done|by exists 30]. Qed.

(** ** What allocation promises *)

Lemma lengths_aligned bs : lengths bs -> (HEAP_ALIGNMENT | total bs).
Proof.
  induction 1 as [|[n u] bs [_ Hn] _ IH]; [by exists 0|]. cbn [total fst] in *. apply Z.divide_add_r; [|done].
  apply Z.divide_add_r; [by exists 2|done].
Qed.

Lemma collect_live live bs : forall o c, c ∈ cells true o bs -> live (fst c) = true -> c ∈ cells true o (collect live o bs).
Proof.
  induction bs as [|[n u] bs IH]; intros o c Hc Hl; [done|]. cbn [cells collect] in *. rewrite cells_push_used.
  apply elem_of_app in Hc as [Hc|Hc]; apply elem_of_app; [left|right; by apply IH].
  destruct u; [|by apply elem_of_nil in Hc]. apply list_elem_of_singleton in Hc as ->. cbn in Hl. rewrite Hl. by left.
Qed.

(** The block taken is new, and the used blocks stay. *)
Lemma take_fresh fits size bs p bs' : tiling bs -> take_block fits size 0 bs = Some (p, bs') ->
  (forall n, fits n = true -> size + HEADER <= n) -> 0 <= size ->
  (p, size) ∈ cells true 0 bs' /\ (HEAP_ALIGNMENT | p) /\ 0 <= p /\ p + HEADER + size <= FINSH_HEAP_MAX /\
  forall c, c ∈ cells true 0 bs -> c ∈ cells true 0 bs' /\ (fst c + HEADER + snd c <= p \/ p + HEADER + size <= fst c).
Proof.
  intros [Ht Hl Ha] Htk Hfits H0. assert (Htf := take_find fits size bs 0). rewrite Htk in Htf.
  destruct Htf as (b1 & n & b2 & -> & -> & Hn & -> & _). change (0 + total b1) with (total b1). specialize (Hfits n Hn).
  assert (Hl' := Hl). apply Forall_app in Hl' as [Hl1 Hl2]. apply Forall_cons in Hl2 as [_ Hl2].
  pose proof (total_nonneg b1 Hl1). pose proof (total_nonneg b2 Hl2). rewrite total_app in Ht. cbn [total] in Ht.
  rewrite (cells_at true), (cells_not_at true). cbn [cells Bool.eqb app].
  replace (total b1 + HEADER + size + HEADER + (n - HEADER - size)) with (total b1 + HEADER + n) by lia.
  split_and!; [apply elem_of_app; right; by left|by apply lengths_aligned|unfold HEADER in *; lia|unfold HEADER in *; lia|].
  intros c Hc. rewrite elem_of_app, elem_of_cons. apply elem_of_app in Hc as [Hc|Hc]; (split; [tauto|]).
  - left. destruct (cells_range true b1 0 c Hl1 Hc) as (? & ? & ?). lia.
  - right. destruct (cells_range true b2 _ c Hl2 Hc) as (? & ? & ?). unfold HEADER in *. lia.
Qed.

Lemma take_none fits size bs : take_block fits size 0 bs = None -> Forall (fun c => fits (snd c) = false) (cells false 0 bs).
Proof.
  intros Htk. assert (Htf := take_find fits size bs 0). rewrite Htk in Htf. apply Forall_forall. intros c Hc.
  apply (List.find_none _ _ Htf). by apply list_elem_of_In.
Qed.

(** ** Properties *)

(** C17: the linked lists implement the tiling.  On every state that holds a
    tiling, allocating any size and releasing any used block neither fault nor run
    out of fuel, and end in a state that holds the blocks [allocate] and [release]
    give, again a tiling; [finsh_heap_init] holds the one free block.  So after any
    sequence of these operations the 128 bytes are covered by blocks without a gap
    or an overlap, and neighbouring free blocks have been merged. *)
Theorem finsh_heap_refines `{Machine} base bs s : tiling bs -> holds s bs ->
  (holds finsh_heap_init empty /\ tiling empty) /\
  (forall size vs m live, (forall h, in_heap h -> referenced base vs 0 (h + HEADER) m = Ret (live h)) -> 0 <= size < 2 ^ 31 ->
    let r := allocate live (HEAP_ALIGN_SIZE size) bs in
    exists s', finsh_heap_allocate base size vs m s = Ret (match fst r with Some p => p + HEADER | None => NULL end, s') /\
      holds s' (snd r) /\ tiling (snd r)) /\
  (forall p n, (p, n) ∈ cells true 0 bs ->
    exists s', finsh_heap_free (p + HEADER) s = Ret (tt, s') /\ holds s' (release p 0 bs) /\ tiling (release p 0 bs)).
Proof.
  intros Ht Hs. split; [exact init_holds|]. split; [intros size vs m live Hlive Hsz; by apply allocate_heap|].
  intros p n Hp. destruct (cells_split bs 0 p n Hp) as (b1 & b2 & -> & ->). by apply free_run.
Qed.

(** C36: what an allocation gives.  Every block a variable refers to stays where it
    is; the new block has the size asked for, is aligned, lies in the heap and
    overlaps none of these; and null is returned only when, after the collection,
    no free block has room for the size and a header. *)
Theorem finsh_heap_safe `{Machine} base bs s size vs m live : tiling bs -> holds s bs ->
  (forall h, in_heap h -> referenced base vs 0 (h + HEADER) m = Ret (live h)) -> 0 <= size < 2 ^ 31 ->
  exists p s' bs', finsh_heap_allocate base size vs m s = Ret (p, s') /\ holds s' bs' /\ tiling bs' /\
    (forall c, c ∈ cells true 0 bs -> live (fst c) = true -> c ∈ cells true 0 bs') /\
    (p = NULL /\ Forall (fun c => snd c < size + HEADER + HEAP_ALIGNMENT) (cells false 0 bs') \/
     exists n, (p - HEADER, n) ∈ cells true 0 bs' /\ size <= n /\ (HEAP_ALIGNMENT | p) /\ 0 <= p - HEADER /\ p + n <= FINSH_HEAP_MAX /\
       forall c, c ∈ cells true 0 bs -> live (fst c) = true -> fst c + HEADER + snd c <= p - HEADER \/ p + n <= fst c).
Proof.
  intros Ht Hs Hlive Hsz. destruct (align_spec size Hsz) as [Ha Hd]. set (sz := HEAP_ALIGN_SIZE size) in *.
  destruct (allocate_heap base vs m live Hlive size bs s Ht Hs Hsz) as (s' & Hr & Hs' & Ht'). fold sz in Hr, Hs', Ht'.
  do 3 eexists. split; [exact Hr|]. split; [exact Hs'|]. split; [exact Ht'|]. unfold allocate in *.
  assert (Hal : (HEAP_ALIGNMENT | HEADER)) by by exists 2.
  assert (Hsh : forall p, p + HEADER - HEADER = p) by (intros; lia).
  destruct (take_block (fun n => sz + HEADER <? n) sz 0 bs) as [[p b1]|] eqn:H1; cbn [fst snd] in *.
  - destruct (take_fresh _ _ _ _ _ Ht H1 ltac:(cbn; intros; lia) ltac:(lia)) as (Hp & Hpa & Hp0 & Hpm & Hc).
    split; [intros c Hin _; by apply Hc|]. right. exists sz. rewrite Hsh. split_and!; [done|lia|by apply Z.divide_add_r|lia|lia|].
    intros c Hin _. by apply Hc.
  - destruct (gc_run base vs m live Hlive bs s Ht Hs) as (s1 & _ & _ & Ht1).
    destruct (take_block (fun n => sz + HEADER <=? n) sz 0 (collect live 0 bs)) as [[p b1]|] eqn:H2; cbn [fst snd] in *.
    + destruct (take_fresh _ _ _ _ _ Ht1 H2 ltac:(cbn; intros; lia) ltac:(lia)) as (Hp & Hpa & Hp0 & Hpm & Hc).
      split; [intros c Hin Hl; apply Hc; by apply collect_live|]. right. exists sz. rewrite Hsh.
      split_and!; [done|lia|by apply Z.divide_add_r|lia|lia|]. intros c Hin Hl. apply Hc. by apply collect_live.
    + split; [intros c Hin Hl; by apply collect_live|]. left. split; [done|]. apply take_none in H2.
      eapply Forall_impl; [exact H2|]. cbn. intros c Hc. unfold HEAP_ALIGNMENT in *. lia.
Qed.

(** Strings that the line being run has made are referred to by its nodes only, so
    they are collected when a further string needs the room: after one string of an
    earlier line, the second of two strings of 40 bytes overlaps the first. *)
Example collected_in_use : exists s,
  (_ ← finsh_heap_allocate 4096 28 finsh_var_init (fun _ => 0);
   p ← finsh_heap_allocate 4096 40 finsh_var_init (fun _ => 0);
   q ← finsh_heap_allocate 4096 40 finsh_var_init (fun _ => 0);
   mret (p, q)) finsh_heap_init = Ret ((44, 8), s).
Proof. eexists. vm_compute. reflexivity. Qed.

(** ** Witnesses *)

Lemma no_references h : in_heap h -> referenced 4096 finsh_var_init 0 (h + HEADER) (fun _ => 0) = Ret false.
Proof. done. Qed.

Lemma finsh_heap_refines_witness : exists s1 s2,
  finsh_heap_allocate 4096 30 finsh_var_init (fun _ => 0) finsh_heap_init = Ret (8, s1) /\
  holds s1 [(32, true); (80, false)] /\ finsh_heap_free 8 s1 = Ret (tt, s2) /\ holds s2 empty.
Proof.
  destruct (finsh_heap_refines 4096 empty finsh_heap_init (proj2 init_holds) (proj1 init_holds)) as (_ & Hal & _).
  destruct (Hal 30 finsh_var_init (fun _ => 0) (fun _ => false) no_references ltac:(lia)) as (s1 & H1 & Hs1 & Ht1).
  destruct (finsh_heap_refines 4096 [(32, true); (80, false)] s1 Ht1 Hs1) as (_ & _ & Hfr).
  destruct (Hfr 0 32 ltac:(by left)) as (s2 & H2 & Hs2 & _). exists s1, s2. split_and!; [exact H1|exact Hs1|exact H2|exact Hs2].
Defined.

Lemma finsh_heap_safe_witness : exists p s n,
  finsh_heap_allocate 4096 30 finsh_var_init (fun _ => 0) finsh_heap_init = Ret (p, s) /\ 30 <= n /\ p + n <= 128.
Proof.
  destruct (finsh_heap_safe 4096 empty finsh_heap_init 30 finsh_var_init (fun _ => 0) (fun _ => false) (proj2 init_holds)
    (proj1 init_holds) no_references ltac:(lia)) as (p & s & bs' & Hr & _ & _ & _ & [[Hp _]|(n & _ & Hn & _ & _ & Hm & _)]).
  - subst p. vm_compute in Hr. discriminate Hr.
  - exists p, s, n. split_and!; [exact Hr|exact Hn|exact Hm].
Defined.
