(* ===== verification/FinshToken.v ===== *)
(** * The shell's tokens

    RTT/components/finsh/finsh_token.c: a line is cut into tokens, one at a time,
    with one token of look-ahead ([replay]).  The line is an array that holds its
    terminator. *)

From S2P Require Import Prelude FinshVm FinshNode.

Definition FINSH_STRING_MAX : Z := 128.

(** [enum finsh_token_type]; [none] is the 0 before the first token. *)
Inductive token_type :=
  | finsh_token_type_none
  | finsh_token_type_left_paren | finsh_token_type_right_paren | finsh_token_type_comma
  | finsh_token_type_semicolon | finsh_token_type_mul | finsh_token_type_add | finsh_token_type_inc
  | finsh_token_type_sub | finsh_token_type_dec | finsh_token_type_div | finsh_token_type_mod
  | finsh_token_type_assign | finsh_token_type_and | finsh_token_type_or | finsh_token_type_xor
  | finsh_token_type_bitwise | finsh_token_type_shl | finsh_token_type_shr
  | finsh_token_type_void | finsh_token_type_char | finsh_token_type_short | finsh_token_type_int
  | finsh_token_type_long | finsh_token_type_unsigned
  | finsh_token_type_value_char | finsh_token_type_value_int | finsh_token_type_value_long
  | finsh_token_type_value_string | finsh_token_type_value_null
  | finsh_token_type_identifier | finsh_token_type_bad | finsh_token_type_eof.

#[global] Instance token_type_eq_dec : EqDecision token_type.
Proof. solve_decision. Defined.

(** [struct finsh_token]; [tvalue] is the union as a word. *)
Record token := mkTok {
  eof : bool;
  replay : bool;
  position : Z;
  current_token : token_type;
  tvalue : Z;
  tstring : list Z;
  line : list Z;
  terror : Z                       (**r [global_errno] *)
}.

Abbreviation T := (ST token).

Definition set_eof (b : bool) : T unit :=
  modify (fun t => mkTok b (replay t) (position t) (current_token t) (tvalue t) (tstring t) (line t) (terror t)).
Definition set_replay (b : bool) : T unit :=
  modify (fun t => mkTok (eof t) b (position t) (current_token t) (tvalue t) (tstring t) (line t) (terror t)).
Definition set_position (p : Z) : T unit :=
  modify (fun t => mkTok (eof t) (replay t) p (current_token t) (tvalue t) (tstring t) (line t) (terror t)).
Definition set_current (k : token_type) : T unit :=
  modify (fun t => mkTok (eof t) (replay t) (position t) k (tvalue t) (tstring t) (line t) (terror t)).
Definition set_tvalue (v : Z) : T unit :=
  modify (fun t => mkTok (eof t) (replay t) (position t) (current_token t) v (tstring t) (line t) (terror t)).
Definition set_tstring (s : list Z) : T unit :=
  modify (fun t => mkTok (eof t) (replay t) (position t) (current_token t) (tvalue t) s (line t) (terror t)).
Definition token_error (e : Z) : T unit :=
  modify (fun t => mkTok (eof t) (replay t) (position t) (current_token t) (tvalue t) (tstring t) (line t) e).

(** ** Characters *)

Definition is_digit (c : Z) : bool := (48 <=? c) && (c <=? 57).
Definition is_lower (c : Z) : bool := (97 <=? c) && (c <=? 122).
Definition is_upper (c : Z) : bool := (65 <=? c) && (c <=? 90).
Definition isalpha (c : Z) : bool := is_lower c || is_upper c.
Definition is_separator (c : Z) : bool := negb (is_lower c || is_upper c || is_digit c || (c =? 95)).

(** The code of a character. *)
Definition chr (s : string) : Z := hd 0 (str s).
Arguments chr s%_string.

Definition finsh_token_init (l : list Z) : token :=
  mkTok false false 0 finsh_token_type_none 0 (replicate 128 0) l 0.

Definition token_next_char : T Z :=
  t ← get;
  if eof t then mret 0
  else
    s ← lift (cstr (line t));
    c ← lift (idx (line t) (position t));
    if (position t =? Z.of_nat (length s)) || (c =? 10) then
      _ ← set_eof true; _ ← set_position 0; mret 0
    else _ ← set_position (position t + 1); mret c.

Definition token_prev_char : T unit :=
  t ← get;
  if eof t then mret tt
  else if position t =? 0 then mret tt
  else set_position (position t - 1).

(** [*p++ = ch] with [p] in [string]. *)
Definition put_string (p c : Z) : T Z :=
  t ← get; s ← lift (upd (tstring t) p (u8 c)); _ ← set_tstring s; mret (p + 1).

(** Loops over characters; the fuel is the length of the line. *)
Definition fuel_of (t : token) : nat := S (length (line t)).

Fixpoint trim_loop (fuel : nat) : T unit :=
  c ← token_next_char;
  if (c =? 32) || (c =? 9) then
    match fuel with O => lift (Err OutOfFuel) | S fuel => trim_loop fuel end
  else mret tt.

Definition token_trim_space : T unit :=
  t ← get; _ ← trim_loop (fuel_of t); token_prev_char.

Fixpoint word_loop (fuel : nat) (p c : Z) : T Z :=
  t ← get;
  if negb (is_separator c) && negb (eof t) then
    match fuel with
    | O => lift (Err OutOfFuel)
    | S fuel => p ← put_string p c; c ← token_next_char; word_loop fuel p c
    end
  else mret p.

Definition token_get_string : T Z :=
  c ← token_next_char;
  t ← get;
  if eof t then mret (-1)
  else
    _ ← put_string 0 0;
    if is_digit c then _ ← token_prev_char; mret (-1)
    else
      p ← word_loop (fuel_of t) 0 c;
      _ ← set_eof false;
      _ ← token_prev_char;
      _ ← put_string p 0;
      mret 0.

(** [finsh_name_table] *)
Definition finsh_name_table : list (list Z * token_type) :=
  [ (str "void" ++ [0], finsh_token_type_void); (str "char" ++ [0], finsh_token_type_char);
    (str "short" ++ [0], finsh_token_type_short); (str "int" ++ [0], finsh_token_type_int);
    (str "long" ++ [0], finsh_token_type_long); (str "unsigned" ++ [0], finsh_token_type_unsigned);
    (str "NULL" ++ [0], finsh_token_type_value_null); (str "null" ++ [0], finsh_token_type_value_null) ].

Fixpoint match_scan (tbl : list (list Z * token_type)) (s : list Z) : T bool :=
  match tbl with
  | [] => mret false
  | (n, k) :: tbl =>
      c ← lift (FinshSym.strcmp n s);
      if c =? 0 then _ ← set_current k; mret true else match_scan tbl s
  end.

Definition token_match_name (s : list Z) : T bool := match_scan finsh_name_table s.

(** ** Characters and strings in quotes *)

(** The digits of an escape are stored in four bytes, the one behind the last
    digit too; the number is then read from the terminator. *)
Fixpoint digits_loop (fuel : nat) (p c : Z) : T Z :=
  if is_digit c then
    match fuel with
    | O => lift (Err OutOfFuel)
    | S fuel =>
        c ← token_next_char;
        if p <? 4 then digits_loop fuel (p + 1) c else lift (Err OutOfBounds)
    end
  else mret p.

Definition token_proc_char : T Z :=
  c ← token_next_char;
  c ← (if c =? 92 then
         c ← token_next_char;
         if c =? chr "n" then mret 10
         else if c =? chr "t" then mret 9
         else if c =? chr "v" then mret 11
         else if c =? chr "b" then mret 8
         else if c =? chr "r" then mret 13
         else if c =? 92 then mret 92
         else if c =? 39 then mret 39
         else
           t ← get;
           p ← digits_loop (fuel_of t) 0 c;
           _ ← token_prev_char;
           if p <? 4 then mret 0 else lift (Err OutOfBounds)
       else mret c);
  q ← token_next_char;
  if negb (q =? 39) then _ ← token_prev_char; _ ← token_error FINSH_ERROR_EXPECT_CHAR; mret c
  else mret c.

(** The digits of base [b] from the character 0 on, [b] of them. *)
Fixpoint escape_loop (fuel : nat) (b result c : Z) : T Z :=
  if (0 <=? c - 48) && (c - 48 <? b) then
    match fuel with
    | O => lift (Err OutOfFuel)
    | S fuel => n ← token_next_char; escape_loop fuel b (s32 (result * b + c - 48)) n
    end
  else mret result.

Definition token_proc_escape : T Z :=
  c ← token_next_char;
  t ← get;
  if c =? chr "n" then mret 10
  else if c =? chr "t" then mret 9
  else if c =? chr "v" then mret 11
  else if c =? chr "b" then mret 8
  else if c =? chr "r" then mret 13
  else if c =? chr "f" then mret 12
  else if c =? chr "a" then mret 7
  else if c =? chr "x" then
    c ← token_next_char; r ← escape_loop (fuel_of t) 16 0 c; _ ← token_prev_char; mret r
  else if (0 <=? c - 48) && (c - 48 <? 8) then
    r ← escape_loop (fuel_of t) 8 0 c; _ ← token_prev_char; mret r
  else mret 0.

(** [token_proc_string]: at most 128 characters; a string of 128 gets no
    terminator. *)
Fixpoint string_loop (fuel : nat) (p : Z) : T unit :=
  match fuel with
  | O => mret tt
  | S fuel =>
      c ← token_next_char;
      t ← get;
      if eof t then token_error FINSH_ERROR_UNEXPECT_END
      else if c =? 92 then c ← token_proc_escape; p ← put_string p c; string_loop fuel p
      else if c =? 34 then _ ← put_string p 0; mret tt
      else p ← put_string p c; string_loop fuel p
  end.

Definition token_proc_string : T unit := string_loop (Z.to_nat FINSH_STRING_MAX) 0.

(** ** Numbers *)

(** [token_spec_number]: two words, the lower one is the result. *)
Definition digit_value (c : Z) : Z :=
  if (97 <=? c) && (c <=? 102) then c - 97 + 10
  else if (65 <=? c) && (c <=? 70) then c - 65 + 10
  else c - 48.

Fixpoint spec_loop (ds : list Z) (shift b0 b1 : Z) : Z :=
  match ds with
  | [] => b0
  | c :: ds =>
      let t := digit_value c in
      let b0' := Z.lor (u32 (Z.shiftl b0 shift)) (u32 t) in
      let t := Z.shiftr b0 (32 - shift) in
      let b1' := Z.lor (u32 (Z.shiftl b1 shift)) (u32 t) in
      spec_loop ds shift b0' b1'
  end.

Definition token_spec_number (ds : list Z) (b : Z) : Z :=
  spec_loop ds (if b =? 16 then 4 else if b =? 8 then 3 else 1) 0 0.

(** The characters that satisfy [ok], stored in [buf] of 128 bytes, and the one
    behind them. *)
Fixpoint number_loop (fuel : nat) (ok : Z -> bool) (buf : list Z) (c : Z) : T (list Z * Z) :=
  if ok c then
    match fuel with
    | O => lift (Err OutOfFuel)
    | S fuel =>
        if (length buf <? 128)%nat then n ← token_next_char; number_loop fuel ok (buf ++ [c]) n
        else lift (Err OutOfBounds)
    end
  else if (length buf <? 128)%nat then mret (buf, c) else lift (Err OutOfBounds).

Fixpoint decimal_loop (fuel : nat) (v c : Z) : T (Z * Z) :=
  if is_digit c then
    match fuel with
    | O => lift (Err OutOfFuel)
    | S fuel => n ← token_next_char; decimal_loop fuel (s32 (v * 10 + (c - 48))) n
    end
  else mret (v, c).

(** The value of the number that starts with [c], and the character behind it. *)
Definition number_value (c : Z) : T (Z * Z) :=
  t ← get;
  if c =? 48 then
    c ← token_next_char;
    if (c =? chr "x") || (c =? chr "X") then
      c ← token_next_char;
      '(buf, c) ← number_loop (fuel_of t) (fun c => is_digit c || isalpha c) [] c;
      mret (token_spec_number buf 16, c)
    else if (c =? chr "b") || (c =? chr "B") then
      c ← token_next_char;
      '(buf, c) ← number_loop (fuel_of t) (fun c => (c =? 48) || (c =? 49)) [] c;
      mret (token_spec_number buf 2, c)
    else
      '(buf, c) ← number_loop (fuel_of t) is_digit [] c;
      mret (token_spec_number buf 8, c)
  else decimal_loop (fuel_of t) 0 c.

Definition token_proc_number : T unit :=
  c ← token_next_char;
  '(v, c) ← number_value c;
  _ ← set_tvalue (u32 v);
  _ ← set_current finsh_token_type_value_int;
  if (c =? chr "l") || (c =? chr "L") then set_current finsh_token_type_value_long else token_prev_char.

(** ** The next token *)

(** A character that may stand twice. *)
Definition twice (c : Z) (double single : token_type) : T unit :=
  n ← token_next_char;
  if n =? c then set_current double else _ ← token_prev_char; set_current single.

(** The switch on the first character of a token that is no word. *)
Definition operator_token (c : Z) : T unit :=
  if c =? chr "(" then set_current finsh_token_type_left_paren
  else if c =? chr ")" then set_current finsh_token_type_right_paren
  else if c =? chr "," then set_current finsh_token_type_comma
  else if c =? chr ";" then set_current finsh_token_type_semicolon
  else if c =? chr "&" then set_current finsh_token_type_and
  else if c =? chr "*" then set_current finsh_token_type_mul
  else if c =? chr "+" then twice c finsh_token_type_inc finsh_token_type_add
  else if c =? chr "-" then twice c finsh_token_type_dec finsh_token_type_sub
  else if c =? chr "/" then set_current finsh_token_type_div
  else if c =? chr "<" then twice c finsh_token_type_shl finsh_token_type_bad
  else if c =? chr ">" then twice c finsh_token_type_shr finsh_token_type_bad
  else if c =? chr "|" then set_current finsh_token_type_or
  else if c =? chr "%" then set_current finsh_token_type_mod
  else if c =? chr "~" then set_current finsh_token_type_bitwise
  else if c =? chr "^" then set_current finsh_token_type_xor
  else if c =? chr "=" then set_current finsh_token_type_assign
  else if c =? 39 then
    v ← token_proc_char;
    t ← get;
    _ ← set_tvalue (set_value Byte (tvalue t) v);
    set_current finsh_token_type_value_char
  else if c =? 34 then _ ← token_proc_string; set_current finsh_token_type_value_string
  else if is_digit c then _ ← token_prev_char; token_proc_number
  else _ ← token_error FINSH_ERROR_UNKNOWN_TOKEN; set_current finsh_token_type_bad.

Definition token_run : T unit :=
  _ ← token_trim_space;
  _ ← token_get_string;
  t ← get;
  if eof t then set_current finsh_token_type_eof
  else
    c ← lift (idx (tstring t) 0);
    if negb (c =? 0) then
      found ← token_match_name (tstring t);
      if (found : bool) then mret tt else set_current finsh_token_type_identifier
    else c ← token_next_char; operator_token c.

Definition finsh_token_token : T token_type :=
  t ← get;
  _ ← (if replay t then set_replay false else token_run);
  t ← get;
  mret (current_token t).

Definition finsh_token_replay : T unit := set_replay true.

(** [finsh_token_get_token], which also stands in [proc_identifier]: the first 16
    bytes; the last byte of the destination is not written. *)
Definition finsh_token_get_token (dst : list Z) : T (list Z) :=
  t ← get; b ← lift (FinshSym.strncpy_bytes FinshSym.FINSH_NAME_MAX (tstring t)); lift (upd_range dst 0 b).
