(* ===== verification/FinshLex.v ===== *)
(** * Tokens and their text

    Every token has a text ([show]); the tokeniser, run on the texts of a list of
    tokens with spaces between them, delivers the tokens again. *)

From S2P Require Import Prelude FinshSym FinshVm FinshNode FinshToken.

(** ** Tokens and texts *)

Inductive tok :=
  | TOp (k : token_type)          (**r an operator, a separator or a keyword *)
  | TId (nm : list Z)
  | TInt (n : Z)
  | TLong (n : Z)
  | TChar (c : Z).

Definition tok_type (t : tok) : token_type :=
  match t with
  | TOp k => k
  | TId _ => finsh_token_type_identifier
  | TInt _ => finsh_token_type_value_int
  | TLong _ => finsh_token_type_value_long
  | TChar _ => finsh_token_type_value_char
  end.

(** Tokens that are made of special characters, and those that are words. *)
Definition symbol_text (k : token_type) : option (list Z) :=
  match k with
  | finsh_token_type_left_paren => Some (str "(") | finsh_token_type_right_paren => Some (str ")")
  | finsh_token_type_comma => Some (str ",") | finsh_token_type_semicolon => Some (str ";")
  | finsh_token_type_mul => Some (str "*") | finsh_token_type_add => Some (str "+")
  | finsh_token_type_inc => Some (str "++") | finsh_token_type_sub => Some (str "-")
  | finsh_token_type_dec => Some (str "--") | finsh_token_type_div => Some (str "/")
  | finsh_token_type_mod => Some (str "%") | finsh_token_type_assign => Some (str "=")
  | finsh_token_type_and => Some (str "&") | finsh_token_type_or => Some (str "|")
  | finsh_token_type_xor => Some (str "^") | finsh_token_type_bitwise => Some (str "~")
  | finsh_token_type_shl => Some (str "<<") | finsh_token_type_shr => Some (str ">>")
  | _ => None
  end.

Definition word_text (k : token_type) : option (list Z) :=
  match k with
  | finsh_token_type_void => Some (str "void") | finsh_token_type_char => Some (str "char")
  | finsh_token_type_short => Some (str "short") | finsh_token_type_int => Some (str "int")
  | finsh_token_type_long => Some (str "long") | finsh_token_type_unsigned => Some (str "unsigned")
  | finsh_token_type_value_null => Some (str "NULL")
  | _ => None
  end.

(** Decimal digits of [0 <= n]; the fuel is a bound of their number. *)
Fixpoint decimal (fuel : nat) (n : Z) : list Z :=
  match fuel with
  | O => []
  | S fuel => if n <? 10 then [48 + n] else decimal fuel (n / 10) ++ [48 + n mod 10]
  end.

Definition show (t : tok) : list Z :=
  match t with
  | TOp k => default [] (match symbol_text k with Some s => Some s | None => word_text k end)
  | TId nm => nm
  | TInt n => decimal 10 n
  | TLong n => decimal 10 n ++ str "L"
  | TChar c => [39; c; 39]
  end.

(** Letters, digits and the underscore, not a digit first, not a keyword. *)
Definition keywords : list (list Z) :=
  [str "void"; str "char"; str "short"; str "int"; str "long"; str "unsigned"; str "NULL"; str "null"].

Definition is_ident (nm : list Z) : bool :=
  forallb (fun c => negb (is_separator c)) nm && negb (is_digit (hd 48 nm))
  && (length nm <? 16)%nat && bool_decide (nm ∉ keywords).

Definition tok_ok (t : tok) : bool :=
  match t with
  | TOp k => match symbol_text k, word_text k with None, None => false | _, _ => true end
  | TId nm => is_ident nm
  | TInt n | TLong n => (0 <=? n) && (n <? 2 ^ 31)
  | TChar c => (0 <? c) && (c <? 256) && negb (c =? 92) && negb (c =? 10)
  end.

(** The line: a space before every token, and one at the end. *)
Definition text_of (ts : list tok) : list Z := flat_map (fun t => 32 :: show t) ts ++ [32].

(** ** Reading characters *)

Definition plain (l : list Z) : Prop := Forall (fun c => c <> 0 /\ c <> 10) l.

(** The state in the middle of a line, after [pre] and before [txt]. *)
Definition Tk (pre txt : list Z) (rp : bool) (k : token_type) (v : Z) (s : list Z) (e : Z) : token :=
  mkTok false rp (Z.of_nat (length pre)) k v s (pre ++ txt ++ [0]) e.

Lemma plain_cstr l r : plain l -> cstr (l ++ 0 :: r) = Ret l.
Proof. intros Hl. apply cstr_app. eapply Forall_impl; [exact Hl|]. by intros c []. Qed.

Lemma next_char_run pre c txt rp k v s e : plain (pre ++ c :: txt) ->
  token_next_char (Tk pre (c :: txt) rp k v s e) = Ret (c, Tk (pre ++ [c]) txt rp k v s e).
Proof.
  intros Hp. unfold token_next_char, Tk. unfold_st. cbn [eof line position].
  assert (Hl : pre ++ (c :: txt) ++ [0] = (pre ++ c :: txt) ++ [0]) by by rewrite <- app_assoc.
  rewrite Hl, plain_cstr by done. rewrite <- Hl. cbn [app]. rewrite idx_middle by done.
  rewrite (proj2 (Z.eqb_neq (Z.of_nat (length pre)) _)) by (rewrite length_app; cbn; lia).
  apply Forall_app in Hp as [_ Hp]. apply Forall_cons in Hp as [[_ H10] _].
  rewrite (proj2 (Z.eqb_neq c 10)) by done. cbn [orb]. unfold set_position, modify. cbn.
  rewrite length_app, <- app_assoc. cbn. repeat f_equal. lia.
Qed.

Lemma next_char_end pre rp k v s e : plain pre ->
  token_next_char (Tk pre [] rp k v s e) = Ret (0, mkTok true rp 0 k v s (pre ++ [0]) e).
Proof.
  intros Hp. unfold token_next_char, Tk. unfold_st. cbn [eof line position app].
  rewrite plain_cstr by done. rewrite idx_middle by done. by rewrite Z.eqb_refl.
Qed.

Lemma prev_char_run pre c txt rp k v s e :
  token_prev_char (Tk (pre ++ [c]) txt rp k v s e) = Ret (tt, Tk pre (c :: txt) rp k v s e).
Proof.
  unfold token_prev_char, Tk. unfold_st. cbn [eof position]. rewrite length_app.
  rewrite (proj2 (Z.eqb_neq _ 0)) by (cbn; lia). unfold set_position, modify. cbn.
  rewrite <- app_assoc. cbn. repeat f_equal. lia.
Qed.

(** Steps of [token_run] by rewriting facts. *)
Ltac tstep H := rewrite (st_bind_run _ _ _ _ _ H).

Lemma trim_run pre c txt rp k v s e : plain (pre ++ 32 :: c :: txt) -> c <> 32 -> c <> 9 ->
  token_trim_space (Tk pre (32 :: c :: txt) rp k v s e) = Ret (tt, Tk (pre ++ [32]) (c :: txt) rp k v s e).
Proof.
  intros Hp H32 H9. unfold token_trim_space. rewrite st_get_bind.
  assert (Hloop : forall n, trim_loop (S n) (Tk pre (32 :: c :: txt) rp k v s e) =
    Ret (tt, Tk ((pre ++ [32]) ++ [c]) txt rp k v s e)).
  { intros n. cbn [trim_loop]. tstep (next_char_run pre 32 (c :: txt) rp k v s e Hp). cbn [Z.eqb Pos.eqb orb].
    assert (Hp' : plain ((pre ++ [32]) ++ c :: txt)) by by rewrite <- app_assoc.
    destruct n; cbn [trim_loop]; tstep (next_char_run (pre ++ [32]) c txt rp k v s e Hp');
      by rewrite (proj2 (Z.eqb_neq c 32)), (proj2 (Z.eqb_neq c 9)) by done. }
  unfold fuel_of. tstep (Hloop (length (line (Tk pre (32 :: c :: txt) rp k v s e)))). apply prev_char_run.
Qed.

(** The end of the line: a last space, then nothing. *)
Lemma token_run_end pre rp k v s e : plain (pre ++ [32]) ->
  exists t, token_run (Tk pre [32] rp k v s e) = Ret (tt, t) /\ current_token t = finsh_token_type_eof /\
    terror t = e /\ replay t = rp.
Proof.
  intros Hp. unfold token_run, token_trim_space.
  assert (Htrim : token_trim_space (Tk pre [32] rp k v s e) = Ret (tt, mkTok true rp 0 k v s ((pre ++ [32]) ++ [0]) e)).
  { unfold token_trim_space. rewrite st_get_bind.
    assert (Hl : forall n, trim_loop (S n) (Tk pre [32] rp k v s e) = Ret (tt, mkTok true rp 0 k v s ((pre ++ [32]) ++ [0]) e)).
    { intros n. cbn [trim_loop]. tstep (next_char_run pre 32 [] rp k v s e Hp). cbn [Z.eqb Pos.eqb orb].
      destruct n; cbn [trim_loop]; by tstep (next_char_end (pre ++ [32]) rp k v s e Hp). }
    unfold fuel_of. tstep (Hl (length (line (Tk pre [32] rp k v s e)))). done. }
  tstep Htrim. eexists. split; [reflexivity|]. done.
Qed.

(** ** Words *)

Lemma put_string_run pre txt rp k v d x j e c :
  put_string (Z.of_nat (length d)) c (Tk pre txt rp k v (d ++ x :: j) e) =
    Ret (Z.of_nat (length (d ++ [u8 c])), Tk pre txt rp k v (d ++ u8 c :: j) e).
Proof.
  unfold put_string, Tk. unfold_st. cbn [tstring]. rewrite upd_middle by done.
  unfold set_tstring, modify. cbn. rewrite length_app. cbn. repeat f_equal. lia.
Qed.

Lemma put_first pre txt rp k v s e c : s <> [] ->
  put_string 0 c (Tk pre txt rp k v s e) = Ret (1, Tk pre txt rp k v (u8 c :: tail s) e).
Proof. destruct s as [|x s]; [done|]. intros _. apply (put_string_run pre txt rp k v [] x s e c). Qed.

Lemma word_loop_run txt rp k v e w : forall pre d j fuel,
  plain (pre ++ w ++ 32 :: txt) -> Forall (fun c => is_separator c = false /\ 0 <= c < 256) w ->
  (length w <= fuel)%nat -> (length w <= length j)%nat ->
  let full := w ++ 32 :: txt in
  word_loop fuel (Z.of_nat (length d)) (hd 0 full) (Tk (pre ++ [hd 0 full]) (tail full) rp k v (d ++ j) e) =
    Ret (Z.of_nat (length (d ++ w)), Tk (pre ++ w ++ [32]) txt rp k v (d ++ w ++ drop (length w) j) e).
Proof.
  induction w as [|a w IH]; intros pre d j fuel Hp Hw Hf Hj full.
  - cbn. rewrite app_nil_r, drop_0. destruct fuel; reflexivity.
  - apply Forall_cons in Hw as [[Ha Hb] Hw]. destruct fuel as [|fuel]; [cbn in Hf; lia|].
    destruct j as [|x j]; [cbn in Hj; lia|]. cbn [full app hd tail word_loop].
    rewrite st_get_bind.
    rewrite Ha. cbn [negb andb eof Tk]. fold (Tk (pre ++ [a]) (w ++ 32 :: txt) rp k v (d ++ x :: j) e).
    tstep (put_string_run (pre ++ [a]) (w ++ 32 :: txt) rp k v d x j e a). rewrite wrap_id by done.
    assert (Hnext : token_next_char (Tk (pre ++ [a]) (w ++ 32 :: txt) rp k v (d ++ a :: j) e) =
      Ret (hd 0 (w ++ 32 :: txt), Tk ((pre ++ [a]) ++ [hd 0 (w ++ 32 :: txt)]) (tail (w ++ 32 :: txt)) rp k v ((d ++ [a]) ++ j) e)).
    { rewrite <- (app_assoc d). destruct w as [|b w]; cbn [app hd tail]; apply next_char_run;
        by rewrite <- app_assoc. }
    tstep Hnext. rewrite IH; [|by rewrite <- app_assoc|done|cbn in Hf; lia|cbn in Hj; lia].
    rewrite <- !app_assoc. done.
Qed.

Lemma get_string_word pre c w txt rp k v s e :
  plain (pre ++ (c :: w) ++ 32 :: txt) -> Forall (fun c => is_separator c = false /\ 0 <= c < 256) (c :: w) ->
  is_digit c = false -> (S (length w) < 128)%nat -> length s = 128%nat ->
  exists r, token_get_string (Tk pre ((c :: w) ++ 32 :: txt) rp k v s e) =
      Ret (0, Tk (pre ++ c :: w) (32 :: txt) rp k v ((c :: w) ++ 0 :: r) e) /\ length ((c :: w) ++ 0 :: r) = 128%nat.
Proof.
  intros Hp Hw Hd Hl Hs. destruct s as [|x s]; [done|]. cbn [length] in Hs.
  destruct (drop (S (length w)) (0 :: s)) as [|y r] eqn:Hr.
  { apply (f_equal length) in Hr. rewrite length_drop in Hr. cbn in Hr. lia. }
  exists r. assert (Hlen := f_equal length Hr). rewrite length_drop in Hlen. cbn [length] in Hlen.
  split; [|rewrite length_app; cbn; lia]. unfold token_get_string.
  tstep (next_char_run pre c (w ++ 32 :: txt) rp k v (x :: s) e Hp).
  rewrite st_get_bind.
  cbn [eof Tk]. fold (Tk (pre ++ [c]) (w ++ 32 :: txt) rp k v (x :: s) e).
  tstep (put_first (pre ++ [c]) (w ++ 32 :: txt) rp k v (x :: s) e 0 ltac:(done)). rewrite Hd.
  change (u8 0 :: tail (x :: s)) with ([] ++ 0 :: s).
  assert (Hloop := word_loop_run txt rp k v e (c :: w) pre [] (0 :: s)
    (fuel_of (Tk (pre ++ [c]) (w ++ 32 :: txt) rp k v (x :: s) e)) Hp Hw).
  specialize (Hloop ltac:(unfold fuel_of, Tk; cbn [line]; rewrite !length_app; cbn; lia) ltac:(cbn; lia)). cbn [app hd tail length Z.of_nat] in Hloop. cbn [app]. tstep Hloop.
  unfold set_eof. rewrite st_modify_bind.
  cbn [replay position current_token tvalue tstring line terror Tk]. rewrite Hr.
  change (mkTok _ _ _ _ _ _ _ _) with (Tk (pre ++ (c :: w) ++ [32]) txt rp k v ((c :: w) ++ y :: r) e).
  rewrite (app_assoc pre). tstep (prev_char_run (pre ++ c :: w) 32 txt rp k v ((c :: w) ++ y :: r) e).
  assert (Hput := put_string_run (pre ++ c :: w) (32 :: txt) rp k v (c :: w) y r e 0). cbn [length] in Hput. tstep Hput. done.
Qed.

(** A token that is no word leaves an empty string. *)
Lemma get_string_other pre c txt rp k v s e : plain (pre ++ c :: txt) -> s <> [] ->
  is_separator c = true \/ is_digit c = true ->
  exists r, token_get_string (Tk pre (c :: txt) rp k v s e) = Ret (r, Tk pre (c :: txt) rp k v (0 :: tail s) e).
Proof.
  intros Hp Hs Hc. unfold token_get_string. tstep (next_char_run pre c txt rp k v s e Hp).
  rewrite st_get_bind.
  cbn [eof Tk]. fold (Tk (pre ++ [c]) txt rp k v s e). tstep (put_first (pre ++ [c]) txt rp k v s e 0 Hs).
  change (u8 0) with 0. destruct (is_digit c) eqn:Hd.
  - exists (-1). by tstep (prev_char_run pre c txt rp k v (0 :: tail s) e).
  - destruct Hc as [Hc|]; [|done]. exists 0.
    assert (Hloop : forall n, word_loop n 0 c (Tk (pre ++ [c]) txt rp k v (0 :: tail s) e) =
      Ret (0, Tk (pre ++ [c]) txt rp k v (0 :: tail s) e)).
    { intros n. destruct n; cbn [word_loop]; unfold mbind, st_bind, get; by rewrite Hc. }
    tstep (Hloop (fuel_of (Tk (pre ++ [c]) txt rp k v s e))). unfold set_eof. rewrite st_modify_bind.
    tstep (prev_char_run pre c txt rp k v (0 :: tail s) e).
    by tstep (put_first pre (c :: txt) rp k v (0 :: tail s) e 0 ltac:(done)).
Qed.

Lemma strcmp_run a r : forall b, Forall (fun c => c <> 0) a -> Forall (fun c => c <> 0) b ->
  exists c, strcmp (a ++ [0]) (b ++ 0 :: r) = Ret c /\ (c = 0 <-> a = b).
Proof.
  induction a as [|x a IH]; intros [|y b] Ha Hb; cbn [app strcmp].
  - by exists 0.
  - apply Forall_cons in Hb as [Hy _]. exists (0 - y). split; [done|]. split; [lia|done].
  - apply Forall_cons in Ha as [Hx _]. exists (x - 0). rewrite (proj2 (Z.eqb_neq x 0)) by done. cbn [negb andb].
    destruct (Z.eqb_spec x 0); [done|]. split; [done|]. split; [lia|done].
  - apply Forall_cons in Ha as [Hx Ha]. apply Forall_cons in Hb as [Hy Hb]. rewrite (proj2 (Z.eqb_neq x 0)) by done.
    cbn [negb andb]. destruct (Z.eqb_spec x y) as [->|Hne].
    + destruct (IH b Ha Hb) as (c & Hc & Hiff). exists c. split; [done|]. rewrite Hiff. naive_solver.
    + exists (x - y). split; [done|]. split; [lia|naive_solver].
Qed.

Lemma match_other w r t : Forall (fun c => c <> 0) w -> w ∉ keywords -> token_match_name (w ++ 0 :: r) t = Ret (false, t).
Proof.
  intros Hw Hk. unfold token_match_name, finsh_name_table, keywords in *.
  repeat (apply not_elem_of_cons in Hk as [? Hk]).
  assert (Hstep : forall n k tbl, Forall (fun c => c <> 0) n -> w <> n ->
    match_scan ((n ++ [0], k) :: tbl) (w ++ 0 :: r) t = match_scan tbl (w ++ 0 :: r) t).
  { intros n k tbl Hn Hne. cbn [match_scan]. destruct (strcmp_run n r w Hn Hw) as (c & Hc & Hiff).
    unfold mbind, st_bind, lift. rewrite Hc. rewrite (proj2 (Z.eqb_neq c 0)); [done|].
    intros Hc0. apply Hiff in Hc0. congruence. }
  repeat (rewrite Hstep; [|unfold str; cbn; repeat (apply Forall_cons_2; [lia|]); apply Forall_nil_2|done]). done.
Qed.

Lemma match_keyword k w r pre txt rp k0 v s e : word_text k = Some w ->
  token_match_name (w ++ 0 :: r) (Tk pre txt rp k0 v s e) = Ret (true, Tk pre txt rp k v s e).
Proof. destruct k; cbn; intros [= <-]; reflexivity. Qed.

(** ** Numbers *)

Definition undec (v : Z) (ds : list Z) : Z := fold_left (fun v c => v * 10 + (c - 48)) ds v.

Lemma undec_mono ds : forall v, 0 <= v -> Forall (fun c => is_digit c = true) ds -> v <= undec v ds.
Proof.
  induction ds as [|c ds IH]; intros v Hv Hd; [cbn; lia|]. apply Forall_cons in Hd as [Hc Hd].
  unfold is_digit in Hc. apply andb_true_iff in Hc as [H1%Z.leb_le H2%Z.leb_le].
  specialize (IH (v * 10 + (c - 48)) ltac:(lia) Hd). cbn. unfold undec in IH. lia.
Qed.

Lemma decimal_spec f : forall n, 0 <= n < 10 ^ Z.of_nat f -> (0 < f)%nat ->
  Forall (fun c => is_digit c = true) (decimal f n) /\ undec 0 (decimal f n) = n /\
  exists c ds, decimal f n = c :: ds /\ (c = 48 -> n = 0).
Proof.
  induction f as [|f IH]; intros n Hn Hf; [lia|]. cbn [decimal]. destruct (Z.ltb_spec n 10) as [H10|H10].
  - split_and!; [|cbn; lia|exists (48 + n), []; split; [done|lia]].
    apply Forall_singleton. unfold is_digit. apply andb_true_iff. rewrite !Z.leb_le. lia.
  - rewrite Nat2Z.inj_succ, Z.pow_succ_r in Hn by lia.
    assert (Hq : 0 <= n / 10 < 10 ^ Z.of_nat f) by (Z.div_mod_to_equations; lia).
    assert (Hf' : (0 < f)%nat) by (destruct f; [cbn in Hn; lia|lia]).
    destruct (IH (n / 10) Hq Hf') as (Hd & Hv & c & ds & Hc & H48). split_and!.
    + apply Forall_app. split; [done|]. apply Forall_singleton. unfold is_digit. apply andb_true_iff.
      rewrite !Z.leb_le. Z.div_mod_to_equations; lia.
    + unfold undec in *. rewrite fold_left_app, Hv. cbn. Z.div_mod_to_equations; lia.
    + exists c, (ds ++ [48 + n mod 10]). rewrite Hc. split; [done|]. intros H0. specialize (H48 H0).
      Z.div_mod_to_equations; lia.
Qed.

Lemma decimal_loop_run txt x rp k s e v0 ds : forall pre v fuel,
  plain (pre ++ ds ++ x :: txt) -> Forall (fun c => is_digit c = true) ds -> is_digit x = false ->
  (length ds <= fuel)%nat -> 0 <= v -> undec v ds < 2 ^ 31 ->
  let full := ds ++ x :: txt in
  decimal_loop fuel v (hd 0 full) (Tk (pre ++ [hd 0 full]) (tail full) rp k v0 s e) =
    Ret ((undec v ds, x), Tk (pre ++ ds ++ [x]) txt rp k v0 s e).
Proof.
  induction ds as [|d ds IH]; intros pre v fuel Hp Hd Hx Hf Hv Hb full.
  - cbn. destruct fuel; cbn [decimal_loop]; by rewrite Hx.
  - apply Forall_cons in Hd as [Hd Hds]. destruct fuel as [|fuel]; [cbn in Hf; lia|].
    cbn [full app hd tail decimal_loop]. rewrite Hd.
    assert (Hnext : token_next_char (Tk (pre ++ [d]) (ds ++ x :: txt) rp k v0 s e) =
      Ret (hd 0 (ds ++ x :: txt), Tk ((pre ++ [d]) ++ [hd 0 (ds ++ x :: txt)]) (tail (ds ++ x :: txt)) rp k v0 s e)).
    { destruct ds as [|b ds]; cbn [app hd tail]; apply next_char_run; by rewrite <- app_assoc. }
    tstep Hnext. assert (Hd48 := Hd). unfold is_digit in Hd48. apply andb_true_iff in Hd48 as [H1%Z.leb_le H2%Z.leb_le].
    assert (Hm := undec_mono ds (v * 10 + (d - 48)) ltac:(lia) Hds). cbn in Hb. fold (undec (v * 10 + (d - 48)) ds) in Hb.
    rewrite swrap_id by (cbn; lia). rewrite IH; [|by rewrite <- app_assoc|done|done|cbn in Hf; lia|lia|done].
    rewrite <- !app_assoc. done.
Qed.

(** A number and the character behind it. *)
Lemma proc_number_run pre n x txt rp k v s e : plain (pre ++ decimal 10 n ++ x :: txt) -> 0 <= n < 2 ^ 31 ->
  x = 32 \/ x = chr "L" ->
  token_proc_number (Tk pre (decimal 10 n ++ x :: txt) rp k v s e) =
    Ret (tt, if x =? 32 then Tk (pre ++ decimal 10 n) (x :: txt) rp finsh_token_type_value_int n s e
             else Tk (pre ++ decimal 10 n ++ [x]) txt rp finsh_token_type_value_long n s e).
Proof.
  intros Hp Hn Hx. destruct (decimal_spec 10 n ltac:(cbn; lia) ltac:(lia)) as (Hd & Hu & c & ds & Hc & H48).
  assert (Hxd : is_digit x = false) by (by destruct Hx as [-> | ->]).
  unfold token_proc_number. rewrite Hc in *. cbn [app] in *.
  tstep (next_char_run pre c (ds ++ x :: txt) rp k v s e Hp).
  assert (Hbody : number_value c (Tk (pre ++ [c]) (ds ++ x :: txt) rp k v s e) =
    Ret ((n, x), Tk (pre ++ (c :: ds) ++ [x]) txt rp k v s e)).
  { unfold number_value. rewrite st_get_bind. destruct (Z.eqb_spec c 48) as [->|Hne].
    - specialize (H48 eq_refl). subst n. assert (ds = []) as -> by (cbn in Hc; congruence). cbn [app] in *.
      tstep (next_char_run (pre ++ [48]) x txt rp k v s e ltac:(by rewrite <- app_assoc)). rewrite <- app_assoc.
      destruct Hx as [-> | ->]; reflexivity.
    - assert (Hl := decimal_loop_run txt x rp k s e v (c :: ds) pre 0
        (fuel_of (Tk (pre ++ [c]) (ds ++ x :: txt) rp k v s e)) Hp Hd Hxd).
      rewrite Hu in Hl. apply Hl; [|lia|lia]. unfold fuel_of, Tk; cbn [line]; rewrite !length_app; cbn; lia. }
  tstep Hbody. cbn beta iota. unfold set_tvalue, set_current. rewrite !st_modify_bind.
  rewrite wrap_id by (cbn; lia). cbn [eof replay position current_token tvalue tstring line terror Tk].
  change (mkTok false _ _ _ _ _ _ _) with (Tk (pre ++ (c :: ds) ++ [x]) txt rp finsh_token_type_value_int n s e).
  destruct Hx as [-> | ->]; cbn [Z.eqb Pos.eqb orb chr str].
  - rewrite (app_assoc pre). apply (prev_char_run (pre ++ c :: ds)).
  - done.
Qed.

(** ** One token *)

Lemma first_char c w txt pre : plain (pre ++ 32 :: (c :: w) ++ 32 :: txt) ->
  is_separator c = false -> c <> 32 /\ c <> 9.
Proof. intros _ Hc. split; intros ->; done. Qed.

Lemma run_word pre c w txt rp k v s e kw :
  plain (pre ++ 32 :: (c :: w) ++ 32 :: txt) -> Forall (fun c => is_separator c = false /\ 0 <= c < 256) (c :: w) ->
  is_digit c = false -> (S (length w) < 128)%nat -> length s = 128%nat ->
  (kw = finsh_token_type_identifier /\ c :: w ∉ keywords) \/ word_text kw = Some (c :: w) ->
  exists r, token_run (Tk pre (32 :: (c :: w) ++ 32 :: txt) rp k v s e) =
      Ret (tt, Tk (pre ++ 32 :: c :: w) (32 :: txt) rp kw v ((c :: w) ++ 0 :: r) e) /\
    length ((c :: w) ++ 0 :: r) = 128%nat.
Proof.
  intros Hp Hw Hd Hl Hs Hk. assert (Hc : is_separator c = false) by (apply Forall_cons in Hw as [[? _] _]; done).
  destruct (first_char c w txt pre Hp Hc) as [H32 H9].
  assert (Hp' : plain ((pre ++ [32]) ++ (c :: w) ++ 32 :: txt)) by by rewrite <- app_assoc.
  destruct (get_string_word (pre ++ [32]) c w txt rp k v s e Hp' Hw Hd Hl Hs) as (r & Hget & Hlen).
  exists r. split; [|done]. unfold token_run. tstep (trim_run pre c (w ++ 32 :: txt) rp k v s e Hp H32 H9).
  tstep Hget. rewrite st_get_bind. cbn [eof Tk tstring]. unfold mbind at 1, st_bind at 1, lift at 1.
  cbn [app]. rewrite (proj2 (idx_Ret _ _ c)) by done.
  assert (Hnz : Forall (fun c => c <> 0) (c :: w)) by (eapply Forall_impl; [exact Hw|]; intros x [Hx _] ->; done).
  rewrite (proj2 (Z.eqb_neq c 0)) by (apply Forall_cons in Hnz as [? _]; done). cbn [negb].
  assert (Hpre : (pre ++ [32]) ++ c :: w = pre ++ 32 :: c :: w) by by rewrite <- app_assoc.
  rewrite Hpre. destruct Hk as [[-> Hk]|Hk].
  - assert (Hm := match_other (c :: w) r (Tk (pre ++ 32 :: c :: w) (32 :: txt) rp k v ((c :: w) ++ 0 :: r) e) Hnz Hk).
    by tstep Hm.
  - assert (Hm := match_keyword kw (c :: w) r (pre ++ 32 :: c :: w) (32 :: txt) rp k v ((c :: w) ++ 0 :: r) e Hk).
    by tstep Hm.
Qed.

Lemma run_other pre c txt rp k v s e : plain (pre ++ 32 :: c :: txt) -> s <> [] ->
  is_separator c = true \/ is_digit c = true -> c <> 32 -> c <> 9 ->
  token_run (Tk pre (32 :: c :: txt) rp k v s e) = operator_token c (Tk (pre ++ [32; c]) txt rp k v (0 :: tail s) e).
Proof.
  intros Hp Hs Hc H32 H9. assert (Hp' : plain ((pre ++ [32]) ++ c :: txt)) by by rewrite <- app_assoc.
  destruct (get_string_other (pre ++ [32]) c txt rp k v s e Hp' Hs Hc) as (r & Hget).
  unfold token_run. tstep (trim_run pre c txt rp k v s e Hp H32 H9). tstep Hget.
  rewrite st_get_bind. cbn [eof Tk tstring]. unfold mbind at 1, st_bind at 1, lift at 1.
  rewrite (proj2 (idx_Ret _ _ 0)) by done. cbn [Z.eqb negb].
  fold (Tk (pre ++ [32]) (c :: txt) rp k v (0 :: tail s) e).
  tstep (next_char_run (pre ++ [32]) c txt rp k v (0 :: tail s) e Hp'). by rewrite <- app_assoc.
Qed.

Lemma symbol_first k w : symbol_text k = Some w ->
  exists c w', w = c :: w' /\ is_separator c = true /\ c <> 32 /\ c <> 9 /\ (w' = [] \/ w' = [c]).
Proof.
  destruct k; cbn; intros [= <-]; unfold str; cbn; do 2 eexists; (split; [reflexivity|]); split_and!; try done; by auto.
Qed.

(** The symbols, from behind their first character on. *)
Lemma operator_run k c w pre txt rp k0 v s e : symbol_text k = Some (c :: w) ->
  plain (pre ++ w ++ 32 :: txt) ->
  operator_token c (Tk pre (w ++ 32 :: txt) rp k0 v s e) = Ret (tt, Tk (pre ++ w) (32 :: txt) rp k v s e).
Proof.
  intros Hk Hp.
  assert (H1 : operator_token 43 = twice 43 finsh_token_type_inc finsh_token_type_add) by reflexivity.
  assert (H2 : operator_token 45 = twice 45 finsh_token_type_dec finsh_token_type_sub) by reflexivity.
  assert (H3 : operator_token 60 = twice 60 finsh_token_type_shl finsh_token_type_bad) by reflexivity.
  assert (H4 : operator_token 62 = twice 62 finsh_token_type_shr finsh_token_type_bad) by reflexivity.
  destruct k; vm_compute in Hk; try discriminate Hk; injection Hk as <- <-; rewrite ?app_nil_r; try reflexivity;
    rewrite ?H1, ?H2, ?H3, ?H4; unfold twice; cbn [app] in *;
    match goal with |- context [Tk pre (?x :: ?t) rp k0 v s e] => tstep (next_char_run pre x t rp k0 v s e Hp) end;
    cbn [Z.eqb Pos.eqb]; try reflexivity;
    match goal with |- context [Tk (pre ++ [?x]) ?t rp k0 v s e] => by tstep (prev_char_run pre x t rp k0 v s e) end.
Qed.

(** What a token leaves in the tokeniser. *)
Definition payload (t : token) (k : tok) : Prop :=
  match k with
  | TOp _ => True
  | TId nm => exists r, tstring t = nm ++ 0 :: r
  | TInt n | TLong n => tvalue t = n
  | TChar c => u8 (tvalue t) = c
  end.

Lemma ident_chars nm : is_ident nm = true ->
  exists c w, nm = c :: w /\ Forall (fun c => is_separator c = false /\ 0 <= c < 256) nm /\ is_digit c = false /\
    (length nm < 16)%nat /\ nm ∉ keywords.
Proof.
  unfold is_ident. rewrite !andb_true_iff. intros [[[Hs Hd] Hl%Nat.ltb_lt] Hk%bool_decide_eq_true].
  destruct nm as [|c w]; [done|]. exists c, w. split; [done|]. split_and!; [|cbn in Hd; by destruct (is_digit c)|done|done].
  apply Forall_forall. intros x Hx. apply forallb_forall with (x := x) in Hs; [|by apply list_elem_of_In].
  destruct (is_separator x) eqn:Hsep; [done|]. split; [done|].
  unfold is_separator, is_lower, is_upper, is_digit in Hsep. lia.
Qed.

Lemma keyword_chars k w : word_text k = Some w ->
  exists c w', w = c :: w' /\ Forall (fun c => is_separator c = false /\ 0 <= c < 256) w /\ is_digit c = false /\
    (length w < 16)%nat.
Proof.
  destruct k; intros Hk; vm_compute in Hk; try discriminate Hk; injection Hk as <-; do 2 eexists; (split; [reflexivity|]);
    (split; [repeat (apply Forall_cons_2; [split; [reflexivity|lia]|]); apply Forall_nil_2|]); split; try reflexivity;
    cbn; lia.
Qed.

Lemma word_plain w : Forall (fun c => is_separator c = false /\ 0 <= c < 256) w -> plain w.
Proof. intros Hw. eapply Forall_impl; [exact Hw|]. intros c [Hc _]. split; intros ->; done. Qed.

Lemma digits_plain w : Forall (fun c => is_digit c = true) w -> plain w.
Proof. intros Hw. eapply Forall_impl; [exact Hw|]. intros c Hc. split; intros ->; done. Qed.

Lemma show_plain t : tok_ok t = true -> plain (show t).
Proof.
  destruct t as [k|nm|n|n|c]; cbn [tok_ok show].
  - destruct (symbol_text k) as [w|] eqn:Hs.
    + intros _. cbn. destruct (symbol_first k w Hs) as (c & w' & -> & _).
      destruct k; vm_compute in Hs; try discriminate Hs; injection Hs as <- <-;
        repeat (apply Forall_cons_2; [split; lia|]); apply Forall_nil_2.
    + destruct (word_text k) as [w|] eqn:Hw; [|done]. intros _. cbn.
      destruct (keyword_chars k w Hw) as (c & w' & _ & Hf & _). by apply word_plain.
  - intros Hi. destruct (ident_chars nm Hi) as (c & w & _ & Hf & _). by apply word_plain.
  - rewrite andb_true_iff, Z.leb_le, Z.ltb_lt. intros Hn.
    apply digits_plain. apply (decimal_spec 10 n); [cbn; lia|lia].
  - rewrite andb_true_iff, Z.leb_le, Z.ltb_lt. intros Hn. apply Forall_app. split.
    + apply digits_plain. apply (decimal_spec 10 n); [cbn; lia|lia].
    + apply Forall_singleton. vm_compute. split; discriminate.
  - rewrite !andb_true_iff, !Z.ltb_lt, !negb_true_iff, !Z.eqb_neq. intros [[[H0 _] _] H10].
    repeat (apply Forall_cons_2; [split; lia|]). apply Forall_nil_2.
Qed.

Lemma operator_digit c : is_digit c = true -> operator_token c = (_ ← token_prev_char; token_proc_number).
Proof.
  intros Hc. unfold is_digit in Hc. assert (Hr : c ∈ [48;49;50;51;52;53;54;55;56;57]) by (rewrite !elem_of_cons; lia).
  repeat (apply elem_of_cons in Hr as [->|Hr]; [reflexivity|]). by apply elem_of_nil in Hr.
Qed.

Lemma run_number pre n x txt rp k v s e : plain (pre ++ 32 :: decimal 10 n ++ x :: txt) -> 0 <= n < 2 ^ 31 ->
  x = 32 \/ x = chr "L" -> s <> [] ->
  token_run (Tk pre (32 :: decimal 10 n ++ x :: txt) rp k v s e) =
    Ret (tt, if x =? 32 then Tk (pre ++ 32 :: decimal 10 n) (x :: txt) rp finsh_token_type_value_int n (0 :: tail s) e
             else Tk (pre ++ 32 :: decimal 10 n ++ [x]) txt rp finsh_token_type_value_long n (0 :: tail s) e).
Proof.
  intros Hp Hn Hx Hs. destruct (decimal_spec 10 n ltac:(cbn; lia) ltac:(lia)) as (Hd & _ & c & ds & Hc & _).
  assert (Hq : forall txt, (pre ++ [32]) ++ txt = pre ++ 32 :: txt) by (intros; by rewrite <- app_assoc).
  assert (Hdc : is_digit c = true) by (rewrite Hc in Hd; apply Forall_cons in Hd as [? _]; done).
  assert (Hrun : token_run (Tk pre (32 :: decimal 10 n ++ x :: txt) rp k v s e) =
    operator_token c (Tk (pre ++ [32; c]) (ds ++ x :: txt) rp k v (0 :: tail s) e)).
  { rewrite Hc in *. apply run_other; [done|done|by right| |]; intros ->; done. }
  rewrite Hrun, (operator_digit c Hdc). replace (pre ++ [32; c]) with ((pre ++ [32]) ++ [c]) by by rewrite <- app_assoc.
  tstep (prev_char_run (pre ++ [32]) c (ds ++ x :: txt) rp k v (0 :: tail s) e).
  change (c :: ds ++ x :: txt) with ((c :: ds) ++ x :: txt). rewrite <- Hc.
  rewrite proc_number_run by (rewrite ?Hq; done || lia). by rewrite !Hq.
Qed.

Lemma proc_char_run c txt pre rp k v s e : c <> 92 -> plain (pre ++ c :: 39 :: txt) ->
  token_proc_char (Tk pre (c :: 39 :: txt) rp k v s e) = Ret (c, Tk (pre ++ [c; 39]) txt rp k v s e).
Proof.
  intros H92 Hp. unfold token_proc_char. tstep (next_char_run pre c (39 :: txt) rp k v s e Hp).
  rewrite (proj2 (Z.eqb_neq c 92)) by done. rewrite (st_bind_run _ _ _ _ _ eq_refl).
  assert (Hp' : plain ((pre ++ [c]) ++ 39 :: txt)) by by rewrite <- app_assoc.
  tstep (next_char_run (pre ++ [c]) 39 txt rp k v s e Hp'). by rewrite <- app_assoc.
Qed.

(** The tokeniser reads the text of a token as the token. *)
Lemma token_one t pre txt rp k v s e : tok_ok t = true -> plain (pre ++ 32 :: show t ++ 32 :: txt) ->
  length s = 128%nat ->
  exists v' s', token_run (Tk pre (32 :: show t ++ 32 :: txt) rp k v s e) =
      Ret (tt, Tk (pre ++ 32 :: show t) (32 :: txt) rp (tok_type t) v' s' e) /\ length s' = 128%nat /\
    payload (Tk (pre ++ 32 :: show t) (32 :: txt) rp (tok_type t) v' s' e) t.
Proof.
  intros Ht Hp Hs. assert (Hs0 : s <> []) by (by intros ->). assert (Hts : length (0 :: tail s) = 128%nat) by (by destruct s).
  destruct t as [o|nm|n|n|c]; cbn [tok_ok show tok_type] in *.
  - destruct (symbol_text o) as [w|] eqn:Hsy; cbn [default from_option] in *; unfold Datatypes.id in *.
    + destruct (symbol_first o w Hsy) as (c & w' & -> & Hsep & H32 & H9 & Hw').
      exists v, (0 :: tail s). split; [|done]. cbn [app] in *. rewrite run_other by (done || by left).
      rewrite (operator_run o c w' (pre ++ [32; c])) by (done || by rewrite <- app_assoc). by rewrite <- app_assoc.
    + destruct (word_text o) as [w|] eqn:Hw; [|done]. cbn [from_option] in *; unfold Datatypes.id in *. destruct (keyword_chars o w Hw) as (c & w' & -> & Hf & Hd & Hl).
      destruct (run_word pre c w' txt rp k v s e o Hp Hf Hd ltac:(cbn in Hl; lia) Hs ltac:(by right)) as (r & Hr & Hlr).
      exists v, ((c :: w') ++ 0 :: r). done.
  - destruct (ident_chars nm Ht) as (c & w & -> & Hf & Hd & Hl & Hk).
    destruct (run_word pre c w txt rp k v s e _ Hp Hf Hd ltac:(cbn in Hl; lia) Hs ltac:(left; done)) as (r & Hr & Hlr).
    exists v, ((c :: w) ++ 0 :: r). split; [done|]. split; [done|]. by exists r.
  - rewrite andb_true_iff, Z.leb_le, Z.ltb_lt in Ht. exists n, (0 :: tail s). split; [|done].
    rewrite run_number by (done || lia || by left). done.
  - rewrite andb_true_iff, Z.leb_le, Z.ltb_lt in Ht. exists n, (0 :: tail s). split; [|done].
    rewrite <- app_assoc in *. change (str "L" ++ 32 :: txt) with (chr "L" :: 32 :: txt) in *.
    rewrite run_number by (done || lia || by right). done.
  - rewrite !andb_true_iff, !Z.ltb_lt, !negb_true_iff, !Z.eqb_neq in Ht. destruct Ht as [[[H0 H256] H92] H10].
    exists (set_value Byte v c), (0 :: tail s). cbn [app] in *. split.
    + rewrite run_other by (done || by left).
      change (operator_token 39) with (v ← token_proc_char; t ← get; _ ← set_tvalue (set_value Byte (tvalue t) v);
        set_current finsh_token_type_value_char).
      tstep (proc_char_run c (32 :: txt) (pre ++ [32; 39]) rp k v (0 :: tail s) e H92 ltac:(by rewrite <- app_assoc)).
      rewrite st_get_bind. unfold set_tvalue, set_current. rewrite st_modify_bind. by rewrite <- app_assoc.
    + split; [done|]. cbn [payload tvalue Tk]. change (value Byte (set_value Byte v c) = c). rewrite value_set.
      apply wrap_id. lia.
Qed.

(** ** A list of tokens *)

(** The tokeniser is about to read the texts of [ts]. *)
Definition ready (t : token) (ts : list tok) (e : Z) : Prop :=
  exists pre k v s, t = Tk pre (text_of ts) false k v s e /\ plain (pre ++ text_of ts) /\ length s = 128%nat.

Lemma text_of_cons t ts : text_of (t :: ts) = 32 :: show t ++ text_of ts.
Proof. unfold text_of. cbn. by rewrite <- app_assoc. Qed.

Lemma text_of_space ts : exists txt, text_of ts = 32 :: txt.
Proof. destruct ts; [by exists []|]. rewrite text_of_cons. by eexists. Qed.

Lemma token_next t k ts e : ready t (k :: ts) e -> tok_ok k = true ->
  exists t', finsh_token_token t = Ret (tok_type k, t') /\ ready t' ts e /\ payload t' k /\ current_token t' = tok_type k.
Proof.
  intros (pre & k0 & v & s & -> & Hp & Hs) Hk. rewrite text_of_cons in *. destruct (text_of_space ts) as [txt Ht].
  rewrite Ht in *. destruct (token_one k pre txt false k0 v s e Hk Hp Hs) as (v' & s' & Hr & Hs' & Hpay).
  eexists. split; [|split; [|split; [exact Hpay|done]]].
  - unfold finsh_token_token. rewrite st_get_bind. cbn [replay Tk].
    fold (Tk pre (32 :: show k ++ 32 :: txt) false k0 v s e). tstep Hr. done.
  - exists (pre ++ 32 :: show k), (tok_type k), v', s'. rewrite Ht. split_and!; [done| |done].
    by rewrite <- app_assoc.
Qed.

Lemma token_end t e : ready t [] e -> exists t', finsh_token_token t = Ret (finsh_token_type_eof, t') /\ terror t' = e.
Proof.
  intros (pre & k0 & v & s & -> & Hp & Hs). destruct (token_run_end pre false k0 v s e Hp) as (t' & Hr & Hc & He & _).
  exists t'. split; [|done]. unfold finsh_token_token. rewrite st_get_bind. cbn [replay Tk].
  change (text_of []) with [32]. fold (Tk pre [32] false k0 v s e). tstep Hr. rewrite st_get_bind. by rewrite Hc.
Qed.

Lemma text_plain ts : Forall (fun t => tok_ok t = true) ts -> plain (text_of ts).
Proof.
  induction 1 as [|t ts Ht _ IH]; [by apply Forall_singleton|]. rewrite text_of_cons.
  apply Forall_cons_2; [done|]. apply Forall_app. split; [by apply show_plain|done].
Qed.

Lemma init_ready ts : Forall (fun t => tok_ok t = true) ts -> ready (finsh_token_init (text_of ts ++ [0])) ts 0.
Proof.
  intros Hts. exists [], finsh_token_type_none, 0, (replicate 128 0). split_and!; [done|by apply text_plain|done].
Qed.

(** The tokens of a line, up to its end. *)
Definition tok_of (t : token) (k : token_type) : res tok :=
  match k with
  | finsh_token_type_identifier => s ← cstr (tstring t); mret (TId s)
  | finsh_token_type_value_int => mret (TInt (tvalue t))
  | finsh_token_type_value_long => mret (TLong (tvalue t))
  | finsh_token_type_value_char => mret (TChar (u8 (tvalue t)))
  | k => mret (TOp k)
  end.

Fixpoint read_tokens (fuel : nat) (t : token) : res (list tok) :=
  match finsh_token_token t with
  | Err f => Err f
  | Ret (finsh_token_type_eof, _) => mret []
  | Ret (k, t) =>
      match fuel with
      | O => Err OutOfFuel
      | S fuel => k ← tok_of t k; ks ← read_tokens fuel t; mret (k :: ks)
      end
  end.

Lemma tok_of_payload t k : tok_ok k = true -> payload t k -> tok_of t (tok_type k) = Ret k.
Proof.
  destruct k as [o|nm|n|n|c]; cbn [tok_ok payload tok_type tok_of].
  - intros Ho _. by destruct o.
  - intros Hi [r ->]. rewrite cstr_app; [done|]. destruct (ident_chars nm Hi) as (? & ? & _ & Hf & _).
    eapply Forall_impl; [exact Hf|]. intros y [Hy _] ->. done.
  - by intros _ ->.
  - by intros _ ->.
  - by intros _ ->.
Qed.

Lemma read_ready ts : forall t e, ready t ts e -> Forall (fun t => tok_ok t = true) ts ->
  read_tokens (length ts) t = Ret ts.
Proof.
  induction ts as [|k ts IH]; intros t e Hr Hts.
  - destruct (token_end t e Hr) as (t' & Ht & _). cbn. by rewrite Ht.
  - apply Forall_cons in Hts as [Hk Hts]. destruct (token_next t k ts e Hr Hk) as (t' & Ht & Hr' & Hpay & _).
    cbn [length read_tokens]. rewrite Ht.
    assert (Hne : tok_type k <> finsh_token_type_eof) by (destruct k as [[]| | | |]; done).
    assert (Hb : (k' ← tok_of t' (tok_type k); ks ← read_tokens (length ts) t'; mret (k' :: ks)) = Ret (k :: ts)).
    { rewrite tok_of_payload by done. cbn [mbind res_bind]. by rewrite (IH t' e). }
    destruct (tok_type k); try exact Hb. done.
Qed.

(** ** Properties *)

(** C14: the tokeniser reads what is written: the texts of any list of tokens
    (operators, keywords, identifiers, decimal numbers, characters), each with a
    space before it, are cut into exactly these tokens with their values, and then
    the line ends. *)
Theorem finsh_tokens_roundtrip ts : Forall (fun t => tok_ok t = true) ts ->
  read_tokens (length ts) (finsh_token_init (text_of ts ++ [0])) = Ret ts.
Proof. intros Hts. by apply (read_ready ts _ 0 (init_ready ts Hts)). Qed.

(** A line that ends in an identifier: reaching the end in the middle of a word
    sets the position back to the start of the line, so the line begins anew and
    never ends. *)
Example word_at_end : exists t, finsh_token_token (finsh_token_init (str "abc" ++ [0])) = Ret (finsh_token_type_identifier, t) /\
  position t = 0 /\ eof t = false.
Proof. eexists. split; [vm_compute; reflexivity|done]. Qed.

(** An octal character is read from behind its digits, as 0. *)
Example octal_char : exists t, finsh_token_token (finsh_token_init (str "'\101'" ++ [0])) = Ret (finsh_token_type_value_char, t) /\
  tvalue t = 0.
Proof. eexists. split; [vm_compute; reflexivity|done]. Qed.

(** A hexadecimal number swallows the suffix of a long one. *)
Example hex_long : exists t, finsh_token_token (finsh_token_init (str "0x10L;" ++ [0])) = Ret (finsh_token_type_value_int, t) /\
  tvalue t = 284.
Proof. eexists. split; [vm_compute; reflexivity|done]. Qed.

(** ** Witnesses *)

(** [ speed = add ( n ++ , 12L ) << 'a' ; ] *)
Definition demo_tokens : list tok :=
  [TId (str "speed"); TOp finsh_token_type_assign; TId (str "add"); TOp finsh_token_type_left_paren; TId (str "n");
   TOp finsh_token_type_inc; TOp finsh_token_type_comma; TLong 12; TOp finsh_token_type_right_paren;
   TOp finsh_token_type_shl; TChar 97; TOp finsh_token_type_semicolon].

Lemma finsh_tokens_witness :
  text_of demo_tokens = str " speed = add ( n ++ , 12L ) << 'a' ; " /\
  read_tokens 12 (finsh_token_init (str " speed = add ( n ++ , 12L ) << 'a' ; " ++ [0])) = Ret demo_tokens.
Proof.
  split; [reflexivity|]. exact (finsh_tokens_roundtrip demo_tokens ltac:(repeat constructor)).
Defined.
