(* ===== verification/FinshParser.v ===== *)
(** * The shell's parser

    RTT/components/finsh/finsh_parser.c: a recursive descent over the tokens that
    builds the trees of [FinshNode] and declares variables.  The two functions
    that call themselves through the others, [proc_assign_expr] and
    [proc_cast_expr], recurse on fuel; the loops over operators use it too. *)

From S2P Require Import Prelude FinshSym FinshVm FinshNode FinshToken.

Section parser.
Context {H : Type} `{StringHeap H}.
Context (names : tables).
(** What the automatic array [id] of 17 bytes holds. *)
Context (junk_id : list Z).

(** [struct finsh_parser] and the shell's data. *)
Record parser := mkParser { ptoken : token; glob : globals H }.

Abbreviation P := (ST parser).

Definition on_glob {A} (m : ST (globals H) A) : P A :=
  fun s => match m (glob s) with Ret (a, g) => Ret (a, mkParser (ptoken s) g) | Err f => Err f end.

Definition with_error (e : Z) (t : token) : token :=
  mkTok (eof t) (replay t) (position t) (current_token t) (tvalue t) (tstring t) (line t) e.

(** The tokeniser reports to [global_errno]. *)
Definition on_token {A} (m : ST token A) : P A :=
  fun s =>
    match m (with_error (global_errno (glob s)) (ptoken s)) with
    | Ret (a, t) =>
        let g := glob s in
        Ret (a, mkParser t (mkGlobals (global_node_table g) (terror t) (variables g) (heap g) (heap_bytes g)))
    | Err f => Err f
    end.

Definition error (e : Z) : P unit := on_glob (finsh_error_set e).
Definition next_token : P token_type := on_token finsh_token_token.
Definition finsh_replay : P unit := on_token finsh_token_replay.

Definition is_token (k k' : token_type) : bool := bool_decide (k = k').

Definition check_token (k k' : token_type) : P unit :=
  if is_token k k' then mret tt else _ ← error FINSH_ERROR_INVALID_TOKEN; finsh_replay.

Definition match_token (k : token_type) : P unit := t ← next_token; check_token t k.

Definition is_base_type (k : token_type) : bool :=
  match k with
  | finsh_token_type_void | finsh_token_type_char | finsh_token_type_short
  | finsh_token_type_int | finsh_token_type_long => true
  | _ => false
  end.

Definition base_type (k : token_type) : Z :=
  match k with
  | finsh_token_type_void => finsh_type_void
  | finsh_token_type_char => finsh_type_char
  | finsh_token_type_short => finsh_type_short
  | finsh_token_type_int => finsh_type_int
  | finsh_token_type_long => finsh_type_long
  | _ => finsh_type_unknown
  end.

(** The unsigned types; there is no unsigned void. *)
Definition unsigned_type (k : token_type) : option Z :=
  match k with
  | finsh_token_type_char => Some finsh_type_uchar
  | finsh_token_type_short => Some finsh_type_ushort
  | finsh_token_type_int => Some finsh_type_uint
  | finsh_token_type_long => Some finsh_type_ulong
  | _ => None
  end.

Definition pointer_type (ty : Z) : Z :=
  if (ty =? finsh_type_char) || (ty =? finsh_type_uchar) then finsh_type_charp
  else if (ty =? finsh_type_short) || (ty =? finsh_type_ushort) then finsh_type_shortp
  else if (ty =? finsh_type_int) || (ty =? finsh_type_uint) then finsh_type_intp
  else if (ty =? finsh_type_long) || (ty =? finsh_type_ulong) then finsh_type_longp
  else finsh_type_voidp.

(** "*" behind the type. *)
Definition proc_pointer (ty : Z) : P Z :=
  t ← next_token;
  if is_token t finsh_token_type_mul then mret (pointer_type ty)
  else _ ← finsh_replay; mret ty.

Definition unknown_type (ty : Z) : P Z :=
  _ ← finsh_replay; _ ← error FINSH_ERROR_UNKNOWN_TYPE; mret ty.

Definition proc_type : P Z :=
  t ← next_token;
  if is_base_type t then proc_pointer (base_type t)
  else if is_token t finsh_token_type_unsigned then
    t ← next_token;
    if is_base_type t then
      match unsigned_type t with
      | Some ty => proc_pointer ty
      | None => unknown_type finsh_type_unknown
      end
    else
      _ ← finsh_replay; _ ← error FINSH_ERROR_EXPECT_TYPE; proc_pointer finsh_type_unknown
  else unknown_type finsh_type_unknown.

(** The identifier is copied whether or not the token is one. *)
Definition proc_identifier : P (list Z) :=
  _ ← match_token finsh_token_type_identifier;
  on_token (finsh_token_get_token junk_id).

Definition make (k : node_kind) (a b : option node) : P (option node) := on_glob (make_sys_node k a b).

(** One level of binary operators: [next] parses an operand, [op] gives the node
    of a token.  An operand that is missing is an error and the operator is
    dropped. *)
Fixpoint binary_loop (fuel : nat) (op : token_type -> option node_kind) (next : P (option node))
    (n : option node) (t : token_type) : P (option node) :=
  match op t with
  | Some k =>
      match fuel with
      | O => lift (Err OutOfFuel)
      | S fuel =>
          m ← next;
          n ← match m with
              | None => _ ← error FINSH_ERROR_EXPECT_OPERATOR; mret n
              | Some _ => make k n m
              end;
          t ← next_token;
          binary_loop fuel op next n t
      end
  | None => _ ← finsh_replay; mret n
  end.

Definition binary (fuel : nat) (op : token_type -> option node_kind) (next : P (option node)) : P (option node) :=
  n ← next; t ← next_token; binary_loop fuel op next n t.

Definition or_op (t : token_type) : option node_kind :=
  match t with finsh_token_type_or => Some FINSH_NODE_SYS_OR | _ => None end.
Definition xor_op (t : token_type) : option node_kind :=
  match t with finsh_token_type_xor => Some FINSH_NODE_SYS_XOR | _ => None end.
Definition and_op (t : token_type) : option node_kind :=
  match t with finsh_token_type_and => Some FINSH_NODE_SYS_AND | _ => None end.
Definition shift_op (t : token_type) : option node_kind :=
  match t with
  | finsh_token_type_shl => Some FINSH_NODE_SYS_SHL | finsh_token_type_shr => Some FINSH_NODE_SYS_SHR | _ => None
  end.
Definition additive_op (t : token_type) : option node_kind :=
  match t with
  | finsh_token_type_sub => Some FINSH_NODE_SYS_SUB | finsh_token_type_add => Some FINSH_NODE_SYS_ADD | _ => None
  end.
Definition multiplicative_op (t : token_type) : option node_kind :=
  match t with
  | finsh_token_type_mul => Some FINSH_NODE_SYS_MUL | finsh_token_type_div => Some FINSH_NODE_SYS_DIV
  | finsh_token_type_mod => Some FINSH_NODE_SYS_MOD | _ => None
  end.

(** The chain a list of nodes makes through the siblings. *)
Fixpoint chain (ns : list node) : option node :=
  match ns with [] => None | n :: ns => Some (set_sibling (chain ns) n) end.

Section levels.
Context (fuel : nat).
(** [proc_cast_expr] and [proc_assign_expr], called again. *)
Context (cast assign : P (option node)).

Definition proc_multiplicative_expr : P (option node) := binary fuel multiplicative_op cast.
Definition proc_additive_expr : P (option node) := binary fuel additive_op proc_multiplicative_expr.
Definition proc_shift_expr : P (option node) := binary fuel shift_op proc_additive_expr.
Definition proc_and_expr : P (option node) := binary fuel and_op proc_shift_expr.
Definition proc_exclusive_or_expr : P (option node) := binary fuel xor_op proc_and_expr.
Definition proc_inclusive_or_expr : P (option node) := binary fuel or_op proc_exclusive_or_expr.

(** The parameters, linked through their siblings: [ns] so far, in reverse. *)
Fixpoint param_loop (fuel : nat) (ns : list node) (t : token_type) : P (list node) :=
  if is_token t finsh_token_type_comma then
    match fuel with
    | O => lift (Err OutOfFuel)
    | S fuel =>
        m ← assign;
        ns ← match m with
             | Some n => mret (n :: ns)
             | None => _ ← error FINSH_ERROR_EXPECT_OPERATOR; mret ns
             end;
        t ← next_token;
        param_loop fuel ns t
    end
  else _ ← finsh_replay; mret ns.

Definition proc_param_list : P (option node) :=
  m ← assign;
  match m with
  | None => mret None
  | Some n => t ← next_token; ns ← param_loop fuel [n] t; mret (chain (reverse ns))
  end.

Definition proc_primary_expr : P (option node) :=
  t ← next_token;
  match t with
  | finsh_token_type_identifier =>
      _ ← finsh_replay; id ← proc_identifier; on_glob (finsh_node_new_id names id)
  | finsh_token_type_left_paren => n ← assign; _ ← match_token finsh_token_type_right_paren; mret n
  | finsh_token_type_value_int => s ← get; on_glob (finsh_node_new_int (tvalue (ptoken s)))
  | finsh_token_type_value_long => s ← get; on_glob (finsh_node_new_long (tvalue (ptoken s)))
  | finsh_token_type_value_char => s ← get; on_glob (finsh_node_new_char (tvalue (ptoken s)))
  | finsh_token_type_value_string => s ← get; on_glob (finsh_node_new_string (tstring (ptoken s)))
  | finsh_token_type_value_null => on_glob (finsh_node_new_ptr 0)
  | _ => _ ← error FINSH_ERROR_INVALID_TOKEN; mret None
  end.

Fixpoint postfix_loop (fuel : nat) (n : option node) (t : token_type) : P (option node) :=
  match t with
  | finsh_token_type_inc | finsh_token_type_dec | finsh_token_type_left_paren =>
      match fuel with
      | O => lift (Err OutOfFuel)
      | S fuel =>
          n ← match t with
              | finsh_token_type_inc => make FINSH_NODE_SYS_INC n None
              | finsh_token_type_dec => make FINSH_NODE_SYS_DEC n None
              | _ =>
                  t ← next_token;
                  ps ← (if is_token t finsh_token_type_right_paren then mret None
                        else
                          _ ← finsh_replay;
                          ps ← proc_param_list;
                          _ ← match_token finsh_token_type_right_paren;
                          mret ps);
                  make FINSH_NODE_SYS_FUNC n ps
              end;
          t ← next_token;
          postfix_loop fuel n t
      end
  | _ => _ ← finsh_replay; mret n
  end.

Definition proc_postfix_expr : P (option node) :=
  n ← proc_primary_expr; t ← next_token; postfix_loop fuel n t.

Definition proc_unary_expr : P (option node) :=
  t ← next_token;
  match t with
  | finsh_token_type_add => cast
  | finsh_token_type_inc => n ← cast; make FINSH_NODE_SYS_PREINC n None
  | finsh_token_type_sub =>
      n ← cast;
      z ← on_glob (finsh_node_new_long 0);
      make FINSH_NODE_SYS_SUB z n
  | finsh_token_type_dec => n ← cast; make FINSH_NODE_SYS_PREDEC n None
  | finsh_token_type_bitwise => n ← cast; make FINSH_NODE_SYS_BITWISE n None
  | finsh_token_type_mul => n ← cast; make FINSH_NODE_SYS_GETVALUE n None
  | finsh_token_type_and => n ← cast; make FINSH_NODE_SYS_GETADDR n None
  | _ => _ ← finsh_replay; proc_postfix_expr
  end.

(** The body of [proc_cast_expr]: after a left parenthesis a type is expected;
    when the operand of the cast is missing, the last token is read again. *)
Definition cast_body : P (option node) :=
  t ← next_token;
  if is_token t finsh_token_type_left_paren then
    ty ← proc_type;
    _ ← match_token finsh_token_type_right_paren;
    n ← cast;
    match n with
    | Some n => mret (Some (set_data_type ty n))
    | None => _ ← finsh_replay; proc_unary_expr
    end
  else _ ← finsh_replay; proc_unary_expr.

Definition assign_body : P (option node) :=
  n ← proc_inclusive_or_expr;
  t ← next_token;
  if is_token t finsh_token_type_assign then m ← assign; make FINSH_NODE_SYS_ASSIGN n m
  else _ ← finsh_replay; mret n.
End levels.

Fixpoint proc_cast_expr (fuel : nat) : P (option node) :=
  match fuel with
  | O => lift (Err OutOfFuel)
  | S fuel => cast_body fuel (fun s => proc_cast_expr fuel s) (fun s => proc_assign_expr fuel s)
  end
with proc_assign_expr (fuel : nat) : P (option node) :=
  match fuel with
  | O => lift (Err OutOfFuel)
  | S fuel => assign_body fuel (fun s => proc_cast_expr fuel s) (fun s => proc_assign_expr fuel s)
  end.

Definition proc_expr (fuel : nat) : P (option node) := proc_assign_expr fuel.

Definition proc_expr_statement (fuel : nat) : P (option node) :=
  t ← next_token;
  if is_token t finsh_token_type_semicolon then mret None
  else _ ← finsh_replay; n ← proc_expr fuel; _ ← match_token finsh_token_type_semicolon; mret n.

(** ** Declarations *)

Definition declare_var (id : list Z) (ty : Z) : P unit :=
  r ← on_glob (fun g =>
    match finsh_var_insert id ty (variables g) with
    | Ret (r, vs) => Ret (r, mkGlobals (global_node_table g) (global_errno g) vs (heap g) (heap_bytes g))
    | Err f => Err f
    end);
  if r <? 0 then error FINSH_ERROR_VARIABLE_EXIST else mret tt.

(** The assignments of a declaration: [ns] in reverse, and whether [end] is null
    although there are some. *)
Definition add_assign (ns : list node) (end_null : bool) (n : option node) : P (list node * bool) :=
  match ns with
  | [] => match n with Some n => mret ([n], false) | None => mret ([], false) end
  | _ =>
      if end_null then lift (Err NullDeref)
      else match n with Some n => mret (n :: ns, false) | None => mret (ns, true) end
  end.

(** An initialiser behind the token [t]; the result is the token behind it. *)
Definition proc_init (fuel : nat) (id : list Z) (t : token_type) (ns : list node) (end_null : bool) :
    P (token_type * list node * bool) :=
  if is_token t finsh_token_type_assign then
    m ← proc_assign_expr fuel;
    match m with
    | None => mret (t, ns, end_null)
    | Some _ =>
        i ← on_glob (finsh_node_new_id names id);
        n ← make FINSH_NODE_SYS_ASSIGN i m;
        r ← add_assign ns end_null n;
        t ← next_token;
        mret (t, fst r, snd r)
    end
  else mret (t, ns, end_null).

Fixpoint decl_loop (lfuel fuel : nat) (ty : Z) (t : token_type) (ns : list node) (end_null : bool) :
    P (token_type * list node) :=
  if is_token t finsh_token_type_comma then
    match lfuel with
    | O => lift (Err OutOfFuel)
    | S lfuel =>
        id ← proc_identifier;
        _ ← declare_var id ty;
        t ← next_token;
        '(t, ns, end_null) ← proc_init fuel id t ns end_null;
        decl_loop lfuel fuel ty t ns end_null
    end
  else mret (t, ns).

(** The nodes of the assignments, first to last. *)
Definition proc_variable_decl (fuel : nat) : P (list node) :=
  ty ← proc_type;
  id ← proc_identifier;
  _ ← declare_var id ty;
  t ← next_token;
  match t with
  | finsh_token_type_comma =>
      '(t, ns) ← decl_loop fuel fuel ty t [] false;
      _ ← check_token t finsh_token_type_semicolon;
      mret (reverse ns)
  | finsh_token_type_assign =>
      '(t, ns, end_null) ← proc_init fuel id t [] false;
      '(t, ns) ← decl_loop fuel fuel ty t ns end_null;
      _ ← check_token t finsh_token_type_semicolon;
      mret (reverse ns)
  | finsh_token_type_semicolon => mret []
  | _ => _ ← error FINSH_ERROR_EXPECT_TYPE; mret []
  end.

(** ** Statements *)

(** The statements so far up to the one [node] points to, in reverse, each with
    what hangs behind it only for the last. *)
Record roots := mkRoots { before : list node; last_chain : list node }.

(** [finsh_node_sibling(node) = ns; if not null, node = ns], or the first
    statement. *)
Definition append (r : roots) (ns : list node) : roots :=
  match last_chain r, ns with
  | [], _ => mkRoots (before r) ns
  | n :: _, [] => mkRoots (before r) [n]
  | n :: _, _ => mkRoots (n :: before r) ns
  end.

Definition root (r : roots) : option node := chain (reverse (before r) ++ last_chain r).

Definition statement (fuel : nat) (r : roots) (t : token_type) : P roots :=
  match t with
  | finsh_token_type_identifier =>
      _ ← finsh_replay; n ← proc_expr_statement fuel; mret (append r (option_list n))
  | _ =>
      if is_base_type t || is_token t finsh_token_type_unsigned then
        _ ← finsh_replay; ns ← proc_variable_decl fuel; mret (append r ns)
      else
        _ ← finsh_replay;
        n ← proc_expr_statement fuel;
        _ ← match last_chain r, n with
            | _ :: _, None => _ ← next_token; mret tt
            | _, _ => mret tt
            end;
        mret (append r (option_list n))
  end.

Fixpoint run_loop (lfuel fuel : nat) (r : roots) (t : token_type) : P roots :=
  if is_token t finsh_token_type_eof || is_token t finsh_token_type_bad then mret r
  else
    match lfuel with
    | O => lift (Err OutOfFuel)
    | S lfuel => r ← statement fuel r t; t ← next_token; run_loop lfuel fuel r t
    end.

(** [finsh_parser_run], from an empty root. *)
Definition finsh_parser_run (fuel : nat) (l : list Z) (g : globals H) : res (option node * globals H) :=
  match (t ← next_token; run_loop fuel fuel (mkRoots [] []) t) (mkParser (finsh_token_init l) g) with
  | Ret (r, s) => mret (root r, glob s)
  | Err f => Err f
  end.
End parser.
