(* ===== verification/FinshParse.v ===== *)
(** * Printing and parsing expressions

    The parser of [FinshParser] reads back every expression that can be written:
    on the tokens of a printed expression it builds the tree [raw], reports no
    error and takes one node from the pool for every node of the tree. *)

From S2P Require Import Prelude FinshSym FinshVm FinshNode FinshCompiler FinshExpr FinshToken FinshLex FinshParser.

(** ** Printing *)

Definition op_token (o : binop) : token_type :=
  match o with
  | Add => finsh_token_type_add | Sub => finsh_token_type_sub | Mul => finsh_token_type_mul
  | Div => finsh_token_type_div | Mod => finsh_token_type_mod | And => finsh_token_type_and
  | Or => finsh_token_type_or | Xor => finsh_token_type_xor | Shl => finsh_token_type_shl | Shr => finsh_token_type_shr
  end.

(** Precedences: 0 up to casts, 7 for assignments. *)
Definition op_prec (o : binop) : nat :=
  match o with Mul | Div | Mod => 1 | Add | Sub => 2 | Shl | Shr => 3 | And => 4 | Xor => 5 | Or => 6 end.

Definition prec (e : expr) : nat :=
  match e with EBin o _ _ => op_prec o | EAssign _ _ | EStore _ _ => 7 | _ => 0 end.

(** The precedence of the operator a token could go on with. *)
Definition tok_prec (k : tok) : nat :=
  match k with
  | TOp (finsh_token_type_inc | finsh_token_type_dec | finsh_token_type_left_paren) => 0
  | TOp (finsh_token_type_mul | finsh_token_type_div | finsh_token_type_mod) => 1
  | TOp (finsh_token_type_add | finsh_token_type_sub) => 2
  | TOp (finsh_token_type_shl | finsh_token_type_shr) => 3
  | TOp finsh_token_type_and => 4
  | TOp finsh_token_type_xor => 5
  | TOp finsh_token_type_or => 6
  | TOp finsh_token_type_assign => 7
  | _ => 8
  end.

(** The tokens of a type. *)
Definition type_tokens (ty : Z) : option (list tok) :=
  let base k := Some [TOp k] in
  let pointer k := Some [TOp k; TOp finsh_token_type_mul] in
  let uns k := Some [TOp finsh_token_type_unsigned; TOp k] in
  if ty =? finsh_type_void then base finsh_token_type_void
  else if ty =? finsh_type_voidp then pointer finsh_token_type_void
  else if ty =? finsh_type_char then base finsh_token_type_char
  else if ty =? finsh_type_uchar then uns finsh_token_type_char
  else if ty =? finsh_type_charp then pointer finsh_token_type_char
  else if ty =? finsh_type_short then base finsh_token_type_short
  else if ty =? finsh_type_ushort then uns finsh_token_type_short
  else if ty =? finsh_type_shortp then pointer finsh_token_type_short
  else if ty =? finsh_type_int then base finsh_token_type_int
  else if ty =? finsh_type_uint then uns finsh_token_type_int
  else if ty =? finsh_type_intp then pointer finsh_token_type_int
  else if ty =? finsh_type_long then base finsh_token_type_long
  else if ty =? finsh_type_ulong then uns finsh_token_type_long
  else if ty =? finsh_type_longp then pointer finsh_token_type_long
  else None.

Definition step_token (dec : bool) : token_type := if dec then finsh_token_type_dec else finsh_token_type_inc.

(** The size of an expression, and the nodes of its tree. *)
Fixpoint esize (e : expr) : nat :=
  match e with
  | EChar _ | ELit _ _ | EVar _ => 1
  | EBin _ a b => S (esize a + esize b)
  | EStore a b => S (S (esize a + esize b))
  | ENot a | EDeref a | ECast _ a => S (esize a)
  | EAssign _ a => S (S (esize a))
  | EStep _ _ _ | EAddr _ => 2
  | ECall _ _ args => S (S (essize args))
  end
with essize (es : exprs) : nat :=
  match es with ENil => 0 | ECons e es => S (esize e + essize es) end.

Fixpoint nodes (e : expr) : nat :=
  match e with
  | EChar _ | ELit _ _ | EVar _ => 1
  | EBin _ a b => nodes a + nodes b + 1
  | EStore p a => nodes p + 1 + nodes a + 1
  | ENot a | EDeref a => nodes a + 1
  | ECast _ a => nodes a
  | EAssign _ a => 1 + nodes a + 1
  | EStep _ _ _ | EAddr _ => 2
  | ECall _ _ args => 1 + all_nodes args + 1
  end
with all_nodes (es : exprs) : nat :=
  match es with ENil => 0 | ECons e es => nodes e + all_nodes es end.

Fixpoint all_sizes (es : list expr) : nat := match es with [] => 0 | e :: es => esize e + all_sizes es end.
Fixpoint program_nodes (es : list expr) : nat := match es with [] => 0 | e :: es => nodes e + program_nodes es end.

Lemma esize_pos e : (0 < esize e)%nat.
Proof. destruct e; cbn; lia. Qed.

Lemma exprs_length_size es : (exprs_length es <= essize es)%nat.
Proof. induction es; cbn; lia. Qed.

Lemma length_sizes es : (length es <= all_sizes es)%nat.
Proof. induction es as [|e es IH]; [done|]. cbn. pose proof (esize_pos e). lia. Qed.

Section print.
Context (var_name : var -> list Z) (fun_name : Z -> Z -> list Z).

Fixpoint print (e : expr) : list tok :=
  match e with
  | EChar c => [TChar c]
  | ELit LLong v => [TLong v]
  | ELit LNull _ => [TOp finsh_token_type_value_null]
  | ELit _ v => [TInt v]
  | EVar x => [TId (var_name x)]
  | EBin o a b => print a ++ TOp (op_token o) :: print b
  | ENot a => TOp finsh_token_type_bitwise :: print a
  | EAssign x a => TId (var_name x) :: TOp finsh_token_type_assign :: print a
  | EStore p a => TOp finsh_token_type_mul :: print p ++ TOp finsh_token_type_assign :: print a
  | EStep true dec x => [TOp (step_token dec); TId (var_name x)]
  | EStep false dec x => [TId (var_name x); TOp (step_token dec)]
  | EDeref p => TOp finsh_token_type_mul :: print p
  | EAddr x => [TOp finsh_token_type_and; TId (var_name x)]
  | ECall self f args =>
      TId (fun_name self f) :: TOp finsh_token_type_left_paren :: prints args ++ [TOp finsh_token_type_right_paren]
  | ECast t a =>
      TOp finsh_token_type_left_paren :: default [] (type_tokens t) ++ TOp finsh_token_type_right_paren :: print a
  end
with prints (es : exprs) : list tok :=
  match es with
  | ENil => []
  | ECons e ENil => print e
  | ECons e es => print e ++ TOp finsh_token_type_comma :: prints es
  end.
End print.

(** What can be written: there are no parentheses around expressions, so the
    precedences must agree; strings are left out. *)
Fixpoint printable (e : expr) : bool :=
  match e with
  | EChar c => tok_ok (TChar c)
  | ELit LLong v | ELit LInt v => tok_ok (TInt v)
  | ELit LNull v => v =? 0
  | ELit LString _ => false
  | EVar _ | EStep _ _ _ | EAddr _ => true
  | EBin o a b => printable a && printable b && (prec a <=? op_prec o)%nat && (prec b <? op_prec o)%nat
  | ENot a | EDeref a => printable a && (prec a =? 0)%nat
  | EAssign _ a => printable a
  | EStore p a => printable p && printable a && (prec p =? 0)%nat
  | ECall _ _ args => printables args
  | ECast t a => match type_tokens t with Some _ => true | None => false end && printable a && (prec a =? 0)%nat
  end
with printables (es : exprs) : bool :=
  match es with ENil => true | ECons e es => printable e && printables es end.

(** ** The state of the parser *)

(** The free entries of the pool. *)
Fixpoint avail (tbl : list node_kind) : nat :=
  match tbl with [] => 0 | k :: tbl => (if decide (k = FINSH_NODE_UNKNOWN) then 1 else 0) + avail tbl end.

(** A token that was just read, or is read again. *)
Definition reset (rp : bool) (e : Z) (t : token) : token :=
  mkTok (eof t) rp (position t) (current_token t) (tvalue t) (tstring t) (line t) e.

Definition fetched (t : token) (k : tok) (ts : list tok) : Prop :=
  ready (reset false 0 t) ts 0 /\ replay t = false /\ current_token t = tok_type k /\ payload t k.

Definition delivers (t : token) (ts : list tok) : Prop :=
  (replay t = false /\ ready (reset false 0 t) ts 0) \/
  exists k ts', ts = k :: ts' /\ replay t = true /\ fetched (reset false 0 t) k ts'.

Lemma payload_reset rp e t k : payload t k -> payload (reset rp e t) k.
Proof. by destruct k. Qed.

Lemma ready_reset e t ts : ready (reset false 0 t) ts 0 -> ready (reset false e t) ts e.
Proof.
  intros (pre & k & v & s & Ht & Hp & Hs). exists pre, k, v, s. split_and!; [|done|done].
  change (reset false e t) with (reset false e (reset false 0 t)). by rewrite Ht.
Qed.

Lemma ready_reset0 e t ts : ready t ts e -> ready (reset false 0 t) ts 0.
Proof. intros (pre & k & v & s & -> & Hp & Hs). by exists pre, k, v, s. Qed.

Lemma ready_replay e t ts : ready t ts e -> replay t = false /\ terror t = e.
Proof. by intros (pre & k & v & s & -> & Hp & Hs). Qed.

Lemma fetched_delivers t k ts : fetched t k ts -> delivers t ts.
Proof. intros (Hr & Hrp & _). by left. Qed.

Section parse.
Context {H : Type} `{StringHeap H}.
Context (names : tables) (junk_id : list Z) (junk_length : length junk_id = 17%nat).
Context (err : Z) (vars : list finsh_var) (h : H) (bytes : mem).

Abbreviation P := (ST (@parser H)).

(** The shell's data with the pool [tbl]. *)
Definition G (tbl : list node_kind) : globals H := mkGlobals tbl err vars h bytes.
Definition Q (t : token) (tbl : list node_kind) : @parser H := mkParser t (G tbl).

Lemma next_token_run t tbl k ts : delivers t (k :: ts) -> tok_ok k = true ->
  exists t', next_token (Q t tbl) = Ret (tok_type k, Q t' tbl) /\ fetched t' k ts.
Proof.
  intros Hd Hk. unfold next_token, on_token, Q. cbn [ptoken glob]. destruct Hd as [[Hrp Hr]|(k' & ts' & [= <- <-] & Hrp & Hf)].
  - change (with_error (global_errno (G tbl)) t) with (reset (replay t) err t). rewrite Hrp.
    destruct (token_next _ k ts err (ready_reset err t _ Hr) Hk) as (t' & Ht & Hr' & Hp & Hc).
    destruct (ready_replay _ _ _ Hr') as [Hrp' He']. rewrite Ht. exists t'. split.
    + unfold Q, G. by rewrite He'.
    + split_and!; [by apply (ready_reset0 err)|done|done|done].
  - exists (reset false err t). destruct Hf as (Hr & _ & Hc & Hp). split.
    + unfold finsh_token_token. rewrite st_get_bind. cbn [replay with_error]. rewrite Hrp.
      unfold set_replay. rewrite st_modify_bind, st_get_bind. cbn [current_token with_error] in *.
      cbn in Hc. unfold mret, st_ret. by rewrite <- Hc.
    + split_and!; [done|done|done|]. by destruct k.
Qed.

Lemma next_token_end t tbl : delivers t [] ->
  exists t', next_token (Q t tbl) = Ret (finsh_token_type_eof, Q t' tbl).
Proof.
  intros [[Hrp Hr]|(k' & ts' & ? & _)]; [|done]. unfold next_token, on_token, Q. cbn [ptoken glob].
  change (with_error (global_errno (G tbl)) t) with (reset (replay t) err t). rewrite Hrp.
  destruct (token_end _ err (ready_reset err t _ Hr)) as (t' & Ht & He). rewrite Ht. exists t'. unfold G. by rewrite He.
Qed.

Lemma replay_run t tbl k ts : fetched t k ts ->
  exists t', finsh_replay (Q t tbl) = Ret (tt, Q t' tbl) /\ delivers t' (k :: ts).
Proof.
  intros (Hr & Hrp & Hc & Hp). exists (reset true err t). split; [done|]. right. exists k, ts.
  split_and!; [done|done|]. split_and!; [exact Hr|done|exact Hc|]. by destruct k.
Qed.

Lemma match_run t tbl k ts : delivers t (k :: ts) -> tok_ok k = true ->
  exists t', match_token (tok_type k) (Q t tbl) = Ret (tt, Q t' tbl) /\ fetched t' k ts.
Proof.
  intros Hd Hk. destruct (next_token_run t tbl k ts Hd Hk) as (t' & Ht & Hf). exists t'. split; [|done].
  unfold match_token. tstep Ht. unfold check_token, is_token. by rewrite bool_decide_true by done.
Qed.

(** ** Taking nodes from the pool *)

Lemma allocate_run k tbl n : k <> FINSH_NODE_UNKNOWN -> avail tbl = S n ->
  exists tbl', finsh_node_allocate k (G tbl) = Ret (Some (new_node k), G tbl') /\ avail tbl' = n.
Proof.
  intros Hk Ha. assert (Hf : exists i, free_entry tbl = Some i /\ avail (<[i := k]> tbl) = n).
  { revert n Ha. induction tbl as [|x tbl IH]; intros n Ha; [done|]. cbn [avail free_entry] in *.
    destruct (decide (x = FINSH_NODE_UNKNOWN)).
    - exists 0%nat. split; [done|]. cbn. rewrite decide_False by done. lia.
    - destruct (IH n ltac:(lia)) as (i & -> & Hi). exists (S i). split; [done|]. cbn. by rewrite decide_False by done. }
  destruct Hf as (i & Hi & Hn). exists (<[i := k]> tbl). split; [|done].
  unfold finsh_node_allocate. rewrite st_get_bind. cbn [global_node_table G]. by rewrite Hi.
Qed.

Lemma new_filled_run k fill n' tbl n : k <> FINSH_NODE_UNKNOWN -> avail tbl = S n ->
  (forall g, fill (new_node k) g = Ret (n', g)) ->
  exists tbl', new_filled k fill (G tbl) = Ret (Some n', G tbl') /\ avail tbl' = n.
Proof.
  intros Hk Ha Hfill. destruct (allocate_run k tbl n Hk Ha) as (tbl' & Hal & Ha'). exists tbl'. split; [|done].
  unfold new_filled. tstep Hal. by tstep (Hfill (G tbl')).
Qed.

Lemma make_run k a b t tbl n : k <> FINSH_NODE_UNKNOWN -> avail tbl = S n ->
  exists tbl', make k (Some a) b (Q t tbl) =
      Ret (Some (mkNode k 0 0 0 NoId None (Some (set_sibling b a))), Q t tbl') /\ avail tbl' = n.
Proof.
  intros Hk Ha. destruct (allocate_run k tbl n Hk Ha) as (tbl' & Hal & Ha'). exists tbl'. split; [|done].
  unfold make, on_glob, make_sys_node. cbn [glob Q]. unfold mbind, st_bind. by rewrite Hal.
Qed.

(** Reading [ts] with the parser [p] gives [r] and takes [cost] nodes; [ok] is what
    the next token must satisfy. *)
Definition parses {A} (p : P A) (ts : list tok) (cost : nat) (r : A) (ok : tok -> Prop) : Prop :=
  forall t tbl k rest n, delivers t (ts ++ k :: rest) -> tok_ok k = true -> ok k -> avail tbl = (cost + n)%nat ->
  exists t' tbl', p (Q t tbl) = Ret (r, Q t' tbl') /\ delivers t' (k :: rest) /\ avail tbl' = n.

Definition above (l : nat) (k : tok) : Prop := (l < tok_prec k)%nat.

(** ** Leaves *)

Lemma strncpy_short n : forall t r, Forall (fun c => c <> 0) t -> (length t < n)%nat ->
  strncpy_bytes n (t ++ 0 :: r) = Ret (t ++ replicate (n - length t) 0).
Proof.
  induction n as [|n IH]; intros t r Ht Hl; [lia|]. destruct t as [|c t]; [done|].
  apply Forall_cons in Ht as [Hc Ht]. cbn [app strncpy_bytes]. rewrite (proj2 (Z.eqb_neq c 0)) by done.
  cbn [length] in Hl. by rewrite IH by (done || lia).
Qed.

Lemma ident_nonzero nm : is_ident nm = true -> Forall (fun c => c <> 0) nm /\ (length nm < 16)%nat.
Proof.
  intros Hi. destruct (ident_chars nm Hi) as (c & w & _ & Hf & _ & Hl & _). split; [|done].
  eapply Forall_impl; [exact Hf|]. intros y [Hy _] ->. done.
Qed.

(** The array [id] afterwards: the name, its terminator, and more. *)
Lemma identifier_run t tbl nm ts : delivers t (TId nm :: ts) -> is_ident nm = true ->
  exists t' r, proc_identifier junk_id (Q t tbl) = Ret (nm ++ 0 :: r, Q t' tbl) /\ fetched t' (TId nm) ts.
Proof.
  intros Hd Hi. destruct (ident_nonzero nm Hi) as [Hz Hl].
  destruct (match_run t tbl (TId nm) ts Hd Hi) as (t' & Hm & Hf).
  assert (Hf' := Hf). destruct Hf as (Hr & Hrp & Hc & r0 & Hs).
  exists (reset false err t'), (replicate (15 - length nm) 0 ++ drop 16 junk_id).
  split; [|split_and!; [exact Hr|done|done|by exists r0]].
  unfold proc_identifier. tstep Hm. unfold on_token, Q. cbn [ptoken glob]. unfold finsh_token_get_token.
  rewrite st_get_bind. cbn [tstring with_error]. rewrite Hs. unfold mbind, st_bind, lift.
  unfold FINSH_NAME_MAX. rewrite strncpy_short by done.
  assert (Hlen : length (nm ++ replicate (16 - length nm) 0) = 16%nat) by (rewrite length_app, length_replicate; lia).
  rewrite upd_range_0 by (rewrite Hlen, junk_length; lia). rewrite Hlen.
  replace (16 - length nm)%nat with (S (15 - length nm)) by lia. cbn [replicate]. rewrite <- app_assoc. cbn [app].
  unfold G, reset, with_error. cbn [global_errno]. by rewrite Hrp.
Qed.

Section fuel.
Context (cast assign : P (option node)).

(** A name that becomes the node [n]. *)
Definition names_node (nm : list Z) (n : node) : Prop :=
  is_ident nm = true /\
  forall r tbl m, avail tbl = S m ->
  exists tbl', finsh_node_new_id names (nm ++ 0 :: r) (G tbl) = Ret (Some n, G tbl') /\ avail tbl' = m.

Lemma glob_run {A} (m : ST (globals H) A) a t tbl tbl' : m (G tbl) = Ret (a, G tbl') ->
  on_glob m (Q t tbl) = Ret (a, Q t tbl').
Proof. intros Hm. unfold on_glob, Q. cbn [glob ptoken]. by rewrite Hm. Qed.

Lemma primary_name nm n : names_node nm n ->
  parses (proc_primary_expr names junk_id assign) [TId nm] 1 (Some n) (fun _ => True).
Proof.
  intros [Hi Hn] t tbl k rest m Hd Hk _ Ha. destruct (next_token_run t tbl (TId nm) (k :: rest) Hd Hi) as (t1 & H1 & Hf1).
  destruct (replay_run t1 tbl _ _ Hf1) as (t2 & H2 & Hd2).
  destruct (identifier_run t2 tbl nm (k :: rest) Hd2 Hi) as (t3 & r & H3 & Hf3).
  destruct (Hn r tbl m Ha) as (tbl' & H4 & Ha'). exists t3, tbl'. split_and!; [|by apply (fetched_delivers _ _ _ Hf3)|done].
  unfold proc_primary_expr. tstep H1. cbn [tok_type]. tstep H2. tstep H3. by apply glob_run.
Qed.

(** The constants that are one token. *)
Definition const_tok (e : expr) : option tok :=
  match e with
  | EChar c => Some (TChar c)
  | ELit LInt v => Some (TInt v)
  | ELit LLong v => Some (TLong v)
  | ELit LNull _ => Some (TOp finsh_token_type_value_null)
  | _ => None
  end.

Lemma primary_const e k : const_tok e = Some k -> printable e = true ->
  parses (proc_primary_expr names junk_id assign) [k] 1 (Some (raw 0 e None)) (fun _ => True).
Proof.
  intros Hc Hp t tbl k1 rest m Hd Hk1 _ Ha.
  assert (Hk : tok_ok k = true) by (destruct e as [c|[] v| | | | | | | | | |]; cbn in Hc; simplify_eq; done).
  destruct (next_token_run t tbl k (k1 :: rest) Hd Hk) as (t1 & H1 & Hf1). assert (Hd1 := fetched_delivers _ _ _ Hf1).
  destruct Hf1 as (_ & _ & _ & Hpay).
  assert (Hnew : forall knd w, knd <> FINSH_NODE_UNKNOWN -> exists tbl', new_filled knd (fun n => mret (set_word w n)) (G tbl) =
    Ret (Some (mkNode knd 0 0 w NoId None None), G tbl') /\ avail tbl' = m) by (intros; by apply new_filled_run).
  unfold proc_primary_expr. destruct e as [c|[] v| | | | | | | | | |]; cbn [const_tok] in Hc; simplify_eq;
    cbn [tok_type] in *; cbn [payload] in Hpay.
  - destruct (Hnew FINSH_NODE_VALUE_CHAR (u8 c) ltac:(done)) as (tbl' & H2 & Ha'). exists t1, tbl'. split_and!; [|done|done].
    tstep H1. cbn beta iota. rewrite st_get_bind. apply glob_run. unfold finsh_node_new_char. cbn [ptoken Q].
    assert (Hcc : u8 c = c) by (rewrite <- Hpay; apply wrap_wrap). cbn [raw]. rewrite Hcc in H2 |- *. by rewrite Hpay.
  - destruct (Hnew FINSH_NODE_VALUE_INT (u32 v) ltac:(done)) as (tbl' & H2 & Ha'). exists t1, tbl'. split_and!; [|done|done].
    tstep H1. cbn beta iota. rewrite st_get_bind. apply glob_run. unfold finsh_node_new_int. cbn [ptoken Q]. by rewrite Hpay.
  - destruct (Hnew FINSH_NODE_VALUE_LONG (u32 v) ltac:(done)) as (tbl' & H2 & Ha'). exists t1, tbl'. split_and!; [|done|done].
    tstep H1. cbn beta iota. rewrite st_get_bind. apply glob_run. unfold finsh_node_new_long. cbn [ptoken Q]. by rewrite Hpay.
  - destruct (Hnew FINSH_NODE_VALUE_NULL 0 ltac:(done)) as (tbl' & H2 & Ha'). exists t1, tbl'. split_and!; [|done|done].
    cbn in Hp. apply Z.eqb_eq in Hp as ->. tstep H1. cbn beta iota. by apply glob_run.
Qed.

(** ** Postfix expressions *)

Lemma postfix_stop g fuel n t tbl k rest : fetched t k rest -> above 0 k ->
  exists t', postfix_loop g assign fuel n (tok_type k) (Q t tbl) = Ret (n, Q t' tbl) /\ delivers t' (k :: rest).
Proof.
  intros Hf Hk. destruct (replay_run t tbl k rest Hf) as (t' & Hr & Hd). exists t'. split; [|done].
  unfold above in Hk. destruct k as [[]| | | |]; cbn [tok_prec] in Hk; try lia;
    destruct fuel; cbn [postfix_loop tok_type]; by tstep Hr.
Qed.

Lemma postfix_plain fuel ts cost n : parses (proc_primary_expr names junk_id assign) ts cost (Some n) (fun _ => True) ->
  parses (proc_postfix_expr names junk_id fuel assign) ts cost (Some n) (above 0).
Proof.
  intros Hp t tbl k rest m Hd Hk Hab Ha. destruct (Hp t tbl k rest m Hd Hk I Ha) as (t1 & tbl1 & H1 & Hd1 & Ha1).
  destruct (next_token_run t1 tbl1 k rest Hd1 Hk) as (t2 & H2 & Hf2).
  destruct (postfix_stop fuel fuel (Some n) t2 tbl1 k rest Hf2 Hab) as (t3 & H3 & Hd3). exists t3, tbl1.
  split_and!; [|done|done]. unfold proc_postfix_expr. tstep H1. tstep H2. done.
Qed.

(** [x++] and [x--]. *)
Lemma postfix_step fuel nm n dec : names_node nm n ->
  parses (proc_postfix_expr names junk_id (S fuel) assign) [TId nm; TOp (step_token dec)] 2
    (Some (sys_node (step_kind false dec) 0 0 None (set_sibling None n))) (above 0).
Proof.
  intros Hn t tbl k rest m Hd Hk Hab Ha.
  assert (Hok : tok_ok (TOp (step_token dec)) = true) by by destruct dec.
  destruct (primary_name nm n Hn t tbl (TOp (step_token dec)) (k :: rest) (S m) Hd Hok I ltac:(lia)) as (t1 & tbl1 & H1 & Hd1 & Ha1).
  destruct (next_token_run t1 tbl1 _ _ Hd1 Hok) as (t2 & H2 & Hf2). assert (Hd2 := fetched_delivers _ _ _ Hf2).
  assert (Hu : step_kind false dec <> FINSH_NODE_UNKNOWN) by by destruct dec.
  destruct (make_run (step_kind false dec) n None t2 tbl1 m Hu Ha1) as (tbl3 & H3 & Ha3).
  destruct (next_token_run t2 tbl3 k rest Hd2 Hk) as (t4 & H4 & Hf4).
  destruct (postfix_stop (S fuel) fuel (Some (sys_node (step_kind false dec) 0 0 None (set_sibling None n))) t4 tbl3 k rest Hf4 Hab)
    as (t5 & H5 & Hd5).
  exists t5, tbl3. split_and!; [|done|done]. unfold proc_postfix_expr. tstep H1. tstep H2.
  destruct dec; cbn [postfix_loop tok_type step_token step_kind] in *; tstep H3; tstep H4; exact H5.
Qed.

(** ** Unary expressions and casts *)

(** Looking at the next token. *)
Lemma peek_run t tbl k ts : delivers t (k :: ts) -> tok_ok k = true ->
  exists t1 t2, next_token (Q t tbl) = Ret (tok_type k, Q t1 tbl) /\ finsh_replay (Q t1 tbl) = Ret (tt, Q t2 tbl) /\
    delivers t2 (k :: ts).
Proof.
  intros Hd Hk. destruct (next_token_run t tbl k ts Hd Hk) as (t1 & H1 & Hf1).
  destruct (replay_run t1 tbl k ts Hf1) as (t2 & H2 & Hd2). by exists t1, t2.
Qed.

(** The tokens an expression begins with. *)
Definition expr_start (k : tok) : bool :=
  match k with
  | TOp (finsh_token_type_inc | finsh_token_type_dec | finsh_token_type_bitwise | finsh_token_type_mul
        | finsh_token_type_and | finsh_token_type_left_paren | finsh_token_type_value_null) => true
  | TOp _ => false
  | _ => true
  end.

Definition not_first (k : token_type) : bool :=
  match k with
  | finsh_token_type_right_paren | finsh_token_type_semicolon | finsh_token_type_eof | finsh_token_type_bad => true
  | _ => false
  end.

Lemma expr_start_not k k' : expr_start k = true -> not_first k' = true -> is_token (tok_type k) k' = false.
Proof. intros Hk Hk'. apply bool_decide_false. intros <-. by destruct k as [[]| | | |]. Qed.

(** The tokens a primary expression begins with, parentheses apart. *)
Definition starts (k : tok) : bool :=
  match k with TOp finsh_token_type_value_null => true | TOp _ => false | _ => true end.

Lemma cast_postfix g k0 ts cost r ok : starts k0 = true -> tok_ok k0 = true ->
  parses (proc_postfix_expr names junk_id g assign) (k0 :: ts) cost r ok ->
  parses (cast_body names junk_id g cast assign) (k0 :: ts) cost r ok.
Proof.
  intros Hs Hk0 Hp t tbl k rest n Hd Hk Hok Ha. cbn [app] in Hd.
  destruct (peek_run t tbl k0 _ Hd Hk0) as (t1 & t2 & H1 & H2 & Hd2).
  destruct (peek_run t2 tbl k0 _ Hd2 Hk0) as (t3 & t4 & H3 & H4 & Hd4).
  destruct (Hp t4 tbl k rest n Hd4 Hk Hok Ha) as (t5 & tbl5 & H5 & Hd5 & Ha5).
  exists t5, tbl5. split_and!; [|done|done]. unfold cast_body, proc_unary_expr. tstep H1.
  destruct k0 as [[]| | | |]; try done; cbn [tok_type] in *; unfold is_token; rewrite bool_decide_false by done;
    tstep H2; tstep H3; by tstep H4.
Qed.

Definition unary_kind (k : token_type) : option node_kind :=
  match k with
  | finsh_token_type_inc => Some FINSH_NODE_SYS_PREINC
  | finsh_token_type_dec => Some FINSH_NODE_SYS_PREDEC
  | finsh_token_type_bitwise => Some FINSH_NODE_SYS_BITWISE
  | finsh_token_type_mul => Some FINSH_NODE_SYS_GETVALUE
  | finsh_token_type_and => Some FINSH_NODE_SYS_GETADDR
  | _ => None
  end.

Lemma cast_unary g k0 knd ts cost n : unary_kind k0 = Some knd ->
  parses cast ts cost (Some n) (above 0) ->
  parses (cast_body names junk_id g cast assign) (TOp k0 :: ts) (cost + 1)
    (Some (sys_node knd 0 0 None (set_sibling None n))) (above 0).
Proof.
  intros Hs Hp t tbl k rest m Hd Hk Hok Ha. cbn [app] in Hd.
  assert (Hk0 : tok_ok (TOp k0) = true) by by destruct k0.
  destruct (peek_run t tbl _ _ Hd Hk0) as (t1 & t2 & H1 & H2 & Hd2).
  destruct (next_token_run t2 tbl _ _ Hd2 Hk0) as (t3 & H3 & Hf3). assert (Hd3 := fetched_delivers _ _ _ Hf3).
  destruct (Hp t3 tbl k rest (S m) Hd3 Hk Hok ltac:(lia)) as (t4 & tbl4 & H4 & Hd4 & Ha4).
  assert (Hu : knd <> FINSH_NODE_UNKNOWN) by (intros ->; by destruct k0).
  destruct (make_run knd n None t4 tbl4 m Hu Ha4) as (tbl5 & H5 & Ha5).
  exists t4, tbl5. split_and!; [|done|done]. unfold cast_body, proc_unary_expr. tstep H1.
  destruct k0; cbn [unary_kind] in Hs; try done; simplify_eq; cbn [tok_type] in *; unfold is_token;
    rewrite bool_decide_false by done; tstep H2; tstep H3; tstep H4; exact H5.
Qed.

(** Types. *)
Lemma pointer_plain ty t tbl k rest : delivers t (k :: rest) -> tok_ok k = true -> tok_type k <> finsh_token_type_mul ->
  exists t', proc_pointer ty (Q t tbl) = Ret (ty, Q t' tbl) /\ delivers t' (k :: rest).
Proof.
  intros Hd Hk Hm. destruct (peek_run t tbl k rest Hd Hk) as (t1 & t2 & H1 & H2 & Hd2). exists t2. split; [|done].
  unfold proc_pointer. tstep H1. unfold is_token. rewrite bool_decide_false by done. by tstep H2.
Qed.

Lemma pointer_star ty t tbl ts : delivers t (TOp finsh_token_type_mul :: ts) ->
  exists t', proc_pointer ty (Q t tbl) = Ret (pointer_type ty, Q t' tbl) /\ delivers t' ts.
Proof.
  intros Hd. destruct (next_token_run t tbl (TOp finsh_token_type_mul) ts Hd eq_refl) as (t1 & H1 & Hf1). exists t1.
  split; [|by apply (fetched_delivers _ _ _ Hf1)]. unfold proc_pointer. by tstep H1.
Qed.

(** Reading the tokens [ts] of a type before another token than "*". *)
Definition reads_type (ts : list tok) (ty : Z) : Prop :=
  forall t tbl k rest, delivers t (ts ++ k :: rest) -> tok_ok k = true -> tok_type k <> finsh_token_type_mul ->
  exists t', proc_type (Q t tbl) = Ret (ty, Q t' tbl) /\ delivers t' (k :: rest).

Lemma reads_base k : is_base_type k = true -> reads_type [TOp k] (base_type k).
Proof.
  intros Hb t tbl k1 rest Hd Hk Hm. assert (Hk0 : tok_ok (TOp k) = true) by by destruct k.
  destruct (next_token_run t tbl _ _ Hd Hk0) as (t1 & H1 & Hf1). assert (Hd1 := fetched_delivers _ _ _ Hf1).
  destruct (pointer_plain (base_type k) t1 tbl k1 rest Hd1 Hk Hm) as (t2 & H2 & Hd2). exists t2. split; [|done].
  unfold proc_type. tstep H1. cbn [tok_type]. by rewrite Hb.
Qed.

Lemma reads_pointer k : is_base_type k = true ->
  reads_type [TOp k; TOp finsh_token_type_mul] (pointer_type (base_type k)).
Proof.
  intros Hb t tbl k1 rest Hd Hk Hm. assert (Hk0 : tok_ok (TOp k) = true) by by destruct k.
  destruct (next_token_run t tbl _ _ Hd Hk0) as (t1 & H1 & Hf1). assert (Hd1 := fetched_delivers _ _ _ Hf1).
  destruct (pointer_star (base_type k) t1 tbl (k1 :: rest) Hd1) as (t2 & H2 & Hd2). exists t2. split; [|done].
  unfold proc_type. tstep H1. cbn [tok_type]. by rewrite Hb.
Qed.

Lemma reads_unsigned k ty : unsigned_type k = Some ty -> reads_type [TOp finsh_token_type_unsigned; TOp k] ty.
Proof.
  intros Hu t tbl k1 rest Hd Hk Hm. assert (Hk0 : tok_ok (TOp k) = true) by by destruct k.
  destruct (next_token_run t tbl _ _ Hd eq_refl) as (t1 & H1 & Hf1). assert (Hd1 := fetched_delivers _ _ _ Hf1).
  destruct (next_token_run t1 tbl _ _ Hd1 Hk0) as (t2 & H2 & Hf2). assert (Hd2 := fetched_delivers _ _ _ Hf2).
  destruct (pointer_plain ty t2 tbl k1 rest Hd2 Hk Hm) as (t3 & H3 & Hd3). exists t3. split; [|done].
  unfold proc_type. tstep H1. cbn [tok_type is_base_type]. unfold is_token. rewrite bool_decide_true by done.
  tstep H2. destruct k; cbn in Hu |- *; by simplify_eq.
Qed.

Lemma reads_types ty ts : type_tokens ty = Some ts -> reads_type ts ty.
Proof.
  unfold type_tokens.
  repeat (case_match eqn:Hty; [apply Z.eqb_eq in Hty as ->; intros [= <-]; first
    [by apply reads_base | by apply reads_pointer | by apply reads_unsigned]|clear Hty]).
  done.
Qed.

Lemma set_sibling_raw e : forall t s s', set_sibling s (raw t e s') = raw t e s.
Proof.
  induction e using expr_ind2 with (P0 := fun _ => True); intros; try done; cbn [raw].
  - by destruct x.
  - apply IHe.
Qed.

Lemma set_data_type_raw e : forall t t' s, t <> 0 -> set_data_type t (raw t' e s) = raw t e s.
Proof.
  induction e using expr_ind2 with (P0 := fun _ => True); intros; try done; cbn [raw].
  - by destruct x.
  - rewrite (proj2 (Z.eqb_neq t0 0)) by done. by apply IHe.
Qed.

Lemma type_tokens_nonzero ty ts : type_tokens ty = Some ts -> ty <> 0.
Proof. by intros Ht ->. Qed.

(** A cast; its type goes into the node. *)
Lemma cast_cast g ty tts ts cost e : type_tokens ty = Some tts ->
  parses cast ts cost (Some (raw 0 e None)) (above 0) ->
  parses (cast_body names junk_id g cast assign)
    (TOp finsh_token_type_left_paren :: tts ++ TOp finsh_token_type_right_paren :: ts) cost
    (Some (raw ty e None)) (above 0).
Proof.
  intros Hty Hp t tbl k rest m Hd Hk Hok Ha. cbn [app] in Hd. rewrite <- app_assoc in Hd. cbn [app] in Hd.
  destruct (next_token_run t tbl _ _ Hd eq_refl) as (t1 & H1 & Hf1). assert (Hd1 := fetched_delivers _ _ _ Hf1).
  destruct (reads_types ty tts Hty t1 tbl _ _ Hd1 eq_refl ltac:(done)) as (t2 & H2 & Hd2).
  destruct (match_run t2 tbl _ _ Hd2 eq_refl) as (t3 & H3 & Hf3). assert (Hd3 := fetched_delivers _ _ _ Hf3).
  destruct (Hp t3 tbl k rest m Hd3 Hk Hok Ha) as (t4 & tbl4 & H4 & Hd4 & Ha4).
  exists t4, tbl4. split_and!; [|done|done]. unfold cast_body. tstep H1. unfold is_token.
  rewrite bool_decide_true by done. tstep H2. tstep H3. tstep H4.
  by rewrite set_data_type_raw by by apply (type_tokens_nonzero _ tts).
Qed.

(** ** Calls *)

Section calls.
Context (var_name : var -> list Z) (fun_name : Z -> Z -> list Z).

Abbreviation print := (print var_name fun_name).
Abbreviation prints := (prints var_name fun_name).

(** The first token of an expression. *)
Definition opens (e : expr) : Prop := exists k ts, print e = k :: ts /\ tok_ok k = true /\ expr_start k = true.

Fixpoint args_parse (es : exprs) : Prop :=
  match es with
  | ENil => True
  | ECons e es =>
      opens e /\ parses assign (print e) (nodes e) (Some (raw 0 e None)) (above 7) /\ args_parse es
  end.

Fixpoint arg_nodes (es : exprs) : list node :=
  match es with ENil => [] | ECons e es => raw 0 e None :: arg_nodes es end.

Lemma chain_arg_nodes es : chain (arg_nodes es) = raws es.
Proof. induction es as [|e es IH]; [done|]. cbn [arg_nodes chain raws]. by rewrite IH, set_sibling_raw. Qed.

(** The tokens behind an argument. *)
Definition more (es : exprs) : list tok :=
  match es with ENil => [] | es => TOp finsh_token_type_comma :: prints es end.

Lemma prints_cons e es : prints (ECons e es) = print e ++ more es.
Proof. destruct es; [|done]. by rewrite app_nil_r. Qed.

Abbreviation closing := (TOp finsh_token_type_right_paren).

(** The first token behind an argument. *)
Lemma more_first es rest : exists k r,
  more es ++ closing :: rest = k :: r /\ tok_ok k = true /\ above 7 k.
Proof. destruct es; eexists _, _; split_and!; try reflexivity; unfold above; cbn; lia. Qed.

Lemma param_loop_run es : forall fuel ns t tbl rest n, args_parse es -> (exprs_length es <= fuel)%nat ->
  delivers t (more es ++ closing :: rest) -> avail tbl = (all_nodes es + n)%nat ->
  exists t' tbl', (k ← next_token; param_loop assign fuel ns k) (Q t tbl) =
      Ret (reverse (arg_nodes es) ++ ns, Q t' tbl') /\ delivers t' (closing :: rest) /\ avail tbl' = n.
Proof.
  induction es as [|e es IH]; intros fuel ns t tbl rest n Hes Hfuel Hd Ha.
  - destruct (peek_run t tbl closing rest Hd eq_refl) as (t1 & t2 & H1 & H2 & Hd2). exists t2, tbl.
    split_and!; [|done|done]. tstep H1. destruct fuel; cbn [param_loop tok_type]; unfold is_token;
      rewrite bool_decide_false by done; by tstep H2.
  - destruct Hes as (_ & He & Hes). destruct fuel as [|fuel]; [cbn in Hfuel; lia|]. cbn [all_nodes] in Ha.
    change (more (ECons e es)) with (TOp finsh_token_type_comma :: prints (ECons e es)) in Hd.
    rewrite prints_cons in Hd. cbn [app] in Hd. rewrite <- app_assoc in Hd.
    destruct (more_first es rest) as (k & r & Hk & Hok & Hab).
    destruct (next_token_run t tbl _ _ Hd eq_refl) as (t1 & H1 & Hf1). assert (Hd1 := fetched_delivers _ _ _ Hf1).
    rewrite Hk in Hd1.
    destruct (He t1 tbl k r (all_nodes es + n)%nat Hd1 Hok Hab ltac:(lia)) as (t2 & tbl2 & H2 & Hd2 & Ha2).
    rewrite <- Hk in Hd2.
    destruct (IH fuel (raw 0 e None :: ns) t2 tbl2 rest n Hes ltac:(cbn in Hfuel; lia) Hd2 Ha2) as (t3 & tbl3 & H3 & Hd3 & Ha3).
    exists t3, tbl3. split_and!; [|done|done]. tstep H1. cbn [param_loop tok_type]. unfold is_token.
    rewrite bool_decide_true by done. tstep H2. cbn beta iota. cbn [arg_nodes]. rewrite reverse_cons, <- app_assoc.
    exact H3.
Qed.

Lemma param_list_run g e es : args_parse (ECons e es) -> (exprs_length es <= g)%nat ->
  parses (proc_param_list g assign) (prints (ECons e es)) (all_nodes (ECons e es)) (raws (ECons e es)) (fun k => k = closing).
Proof.
  intros (_ & He & Hes) Hg t tbl k rest n Hd Hk -> Ha. rewrite prints_cons, <- app_assoc in Hd. cbn [all_nodes] in Ha.
  destruct (more_first es rest) as (k' & r & Hk' & Hok & Hab). rewrite Hk' in Hd.
  destruct (He t tbl k' r (all_nodes es + n)%nat Hd Hok Hab ltac:(lia)) as (t2 & tbl2 & H2 & Hd2 & Ha2).
  rewrite <- Hk' in Hd2.
  destruct (param_loop_run es g [raw 0 e None] t2 tbl2 rest n Hes Hg Hd2 Ha2) as (t3 & tbl3 & H3 & Hd3 & Ha3).
  exists t3, tbl3. split_and!; [|done|done]. unfold proc_param_list. tstep H2. cbn beta iota.
  rewrite (st_bind_run2 _ _ (fun ns => mret (chain (reverse ns))) _ _ _ H3), reverse_app, reverse_involutive.
  cbn [raws]. rewrite <- chain_arg_nodes, <- (set_sibling_raw e 0 (chain (arg_nodes es)) None). done.
Qed.

(** [f(...)] *)
Lemma postfix_call fuel nm n es : names_node nm n -> args_parse es -> (exprs_length es <= fuel)%nat ->
  parses (proc_postfix_expr names junk_id (S fuel) assign)
    (TId nm :: TOp finsh_token_type_left_paren :: prints es ++ [closing]) (1 + all_nodes es + 1)
    (Some (sys_node FINSH_NODE_SYS_FUNC 0 0 None (set_sibling (raws es) n))) (above 0).
Proof.
  intros Hn Hes Hfuel t tbl k rest m Hd Hk Hab Ha. cbn [app] in Hd. rewrite <- app_assoc in Hd. cbn [app] in Hd.
  destruct (primary_name nm n Hn t tbl (TOp finsh_token_type_left_paren) _ (all_nodes es + S m)%nat Hd eq_refl I ltac:(lia))
    as (t1 & tbl1 & H1 & Hd1 & Ha1).
  destruct (next_token_run t1 tbl1 _ _ Hd1 eq_refl) as (t2 & H2 & Hf2). assert (Hd2 := fetched_delivers _ _ _ Hf2).
  assert (Hargs : exists t3 tbl3, (t ← next_token;
      if is_token t finsh_token_type_right_paren then mret None
      else _ ← finsh_replay; ps ← proc_param_list (S fuel) assign; _ ← match_token finsh_token_type_right_paren; mret ps)
        (Q t2 tbl1) = Ret (raws es, Q t3 tbl3) /\ delivers t3 (k :: rest) /\ avail tbl3 = S m).
  { destruct es as [|e es].
    - destruct (next_token_run t2 tbl1 _ _ Hd2 eq_refl) as (t3 & H3 & Hf3). exists t3, tbl1.
      split_and!; [by tstep H3|by apply (fetched_delivers _ _ _ Hf3)|done].
    - assert (Ho := proj1 Hes). destruct Ho as (k0 & ts & He & Hk0 & Hrp).
      assert (Hps : prints (ECons e es) ++ closing :: k :: rest = k0 :: (ts ++ more es) ++ closing :: k :: rest)
        by (by rewrite prints_cons, He). rewrite Hps in Hd2.
      destruct (peek_run t2 tbl1 k0 _ Hd2 Hk0) as (t3 & t4 & H3 & H4 & Hd4). rewrite <- Hps in Hd4.
      destruct (param_list_run (S fuel) e es Hes ltac:(cbn in Hfuel; lia) t4 tbl1 closing (k :: rest) (S m) Hd4 eq_refl eq_refl Ha1)
        as (t5 & tbl5 & H5 & Hd5 & Ha5).
      destruct (match_run t5 tbl5 closing _ Hd5 eq_refl) as (t6 & H6 & Hf6). exists t6, tbl5.
      split_and!; [|by apply (fetched_delivers _ _ _ Hf6)|done]. tstep H3.
      rewrite expr_start_not by done. tstep H4. tstep H5. by tstep H6. }
  destruct Hargs as (t3 & tbl3 & H3 & Hd3 & Ha3).
  destruct (make_run FINSH_NODE_SYS_FUNC n (raws es) t3 tbl3 m ltac:(done) Ha3) as (tbl4 & H4 & Ha4).
  destruct (next_token_run t3 tbl4 k rest Hd3 Hk) as (t5 & H5 & Hf5).
  destruct (postfix_stop (S fuel) fuel (Some (sys_node FINSH_NODE_SYS_FUNC 0 0 None (set_sibling (raws es) n))) t5 tbl4 k rest
    Hf5 Hab) as (t6 & H6 & Hd6).
  exists t6, tbl4. split_and!; [|done|done]. unfold proc_postfix_expr. tstep H1. tstep H2. cbn [postfix_loop tok_type].
  assert (H34 := st_bind_run2 _ _ (fun ps => make FINSH_NODE_SYS_FUNC (Some n) ps) _ _ _ H3). cbn beta in H34.
  rewrite H4 in H34. tstep H34. tstep H5. exact H6.
Qed.
End calls.
End fuel.

(** ** Levels of binary operators *)

Section levels.
Context (var_name : var -> list Z) (fun_name : Z -> Z -> list Z).

Abbreviation print := (print var_name fun_name).
Abbreviation prints := (prints var_name fun_name).
Abbreviation cast := (proc_cast_expr names junk_id).
Abbreviation assign := (proc_assign_expr names junk_id).

Definition level_op (i : nat) : token_type -> option node_kind :=
  match i with
  | 0%nat => multiplicative_op | 1%nat => additive_op | 2%nat => shift_op | 3%nat => and_op | 4%nat => xor_op
  | _ => or_op
  end.

(** The levels of [proc_inclusive_or_expr], from casts upwards. *)
Fixpoint lev (g i : nat) : P (option node) :=
  match i with O => (fun s => cast g s) | S i => binary g (level_op i) (lev g i) end.

Lemma lev_6 g : lev g 6 = proc_inclusive_or_expr g (fun s => cast g s).
Proof. done. Qed.

Lemma level_op_hit o : level_op (op_prec o - 1) (op_token o) = Some (kind o).
Proof. by destruct o. Qed.

Lemma level_op_miss i k : (i < 6)%nat -> above (S i) k -> level_op i (tok_type k) = None.
Proof.
  unfold above. intros Hi Hk. destruct k as [[]| | | |]; cbn [tok_prec] in Hk;
    do 6 (destruct i as [|i]; [first [done | cbn in Hk; lia]|]); lia.
Qed.

Definition parse_level (g i : nat) (e : expr) : Prop :=
  parses (lev g i) (print e) (nodes e) (Some (raw 0 e None)) (above i).

(** The loop of level [i] gets to the token behind [e]. *)
Definition reach (g i : nat) (e : expr) : Prop :=
  forall t tbl k rest n, delivers t (print e ++ k :: rest) -> tok_ok k = true -> above i k -> avail tbl = (nodes e + n)%nat ->
  exists u t' tbl', lev g (S i) (Q t tbl) =
      binary_loop (g - u) (level_op i) (lev g i) (Some (raw 0 e None)) (tok_type k) (Q t' tbl') /\
    fetched t' k rest /\ avail tbl' = n /\ (u < esize e)%nat.

Lemma reach_stop g i e : (i < 6)%nat -> reach g i e -> parse_level g (S i) e.
Proof.
  intros Hi Hr t tbl k rest n Hd Hk Hab Ha.
  destruct (Hr t tbl k rest n Hd Hk ltac:(unfold above in *; lia) Ha) as (u & t1 & tbl1 & H1 & Hf1 & Ha1 & _).
  destruct (replay_run t1 tbl1 k rest Hf1) as (t2 & H2 & Hd2). exists t2, tbl1. split_and!; [|done|done].
  rewrite H1. destruct (g - u)%nat; cbn [binary_loop]; rewrite (level_op_miss i k Hi Hab); by tstep H2.
Qed.

Lemma level_reach g i e : parse_level g i e -> reach g i e.
Proof.
  intros Hp t tbl k rest n Hd Hk Hab Ha. destruct (Hp t tbl k rest n Hd Hk Hab Ha) as (t1 & tbl1 & H1 & Hd1 & Ha1).
  destruct (next_token_run t1 tbl1 k rest Hd1 Hk) as (t2 & H2 & Hf2). exists 0%nat, t2, tbl1.
  split_and!; [|done|done|apply esize_pos]. cbn [lev]. unfold binary. tstep H1. tstep H2. by rewrite Nat.sub_0_r.
Qed.

Lemma climb g i j e : parse_level g i e -> (i <= j <= 6)%nat -> parse_level g j e.
Proof.
  intros Hp Hij. induction j as [|j IH]; [by replace i with 0%nat in Hp by lia|].
  destruct (decide (i = S j)) as [->|]; [done|]. apply reach_stop; [lia|]. apply level_reach, IH. lia.
Qed.

Lemma reach_bin g i o a b : i = (op_prec o - 1)%nat -> (esize (EBin o a b) <= g)%nat ->
  reach g i a -> parse_level g i b -> reach g i (EBin o a b).
Proof.
  intros -> Hg Hra Hpb t tbl k rest n Hd Hk Hab Ha. cbn [print nodes esize] in *. rewrite <- app_assoc in Hd. cbn [app] in Hd.
  assert (Hop : tok_ok (TOp (op_token o)) = true) by by destruct o.
  destruct (Hra t tbl (TOp (op_token o)) _ (nodes b + S n)%nat Hd Hop ltac:(unfold above; destruct o; cbn; lia) ltac:(lia))
    as (u & t1 & tbl1 & H1 & Hf1 & Ha1 & Hu). assert (Hd1 := fetched_delivers _ _ _ Hf1).
  destruct (Hpb t1 tbl1 k rest (S n) Hd1 Hk Hab Ha1) as (t2 & tbl2 & H2 & Hd2 & Ha2).
  destruct (make_run (kind o) (raw 0 a None) (Some (raw 0 b None)) t2 tbl2 n ltac:(by destruct o) Ha2) as (tbl3 & H3 & Ha3).
  destruct (next_token_run t2 tbl3 k rest Hd2 Hk) as (t4 & H4 & Hf4). exists (S u), t4, tbl3.
  split_and!; [|done|done|cbn [esize]; lia]. rewrite H1.
  replace (g - u)%nat with (S (g - S u)) by lia. cbn [binary_loop]. cbn [tok_type]. rewrite level_op_hit.
  tstep H2. cbn beta iota. tstep H3. tstep H4. cbn [raw]. by rewrite set_sibling_raw.
Qed.

Lemma assign_level g e : parse_level g 6 e -> parses (assign (S g)) (print e) (nodes e) (Some (raw 0 e None)) (above 7).
Proof.
  intros Hp t tbl k rest n Hd Hk Hab Ha.
  destruct (Hp t tbl k rest n Hd Hk ltac:(unfold above in *; lia) Ha) as (t1 & tbl1 & H1 & Hd1 & Ha1).
  destruct (peek_run t1 tbl1 k rest Hd1 Hk) as (t2 & t3 & H2 & H3 & Hd3). exists t3, tbl1. split_and!; [|done|done].
  cbn [proc_assign_expr]. unfold assign_body. rewrite <- lev_6. tstep H1. tstep H2. unfold is_token.
  rewrite bool_decide_false; [by tstep H3|]. unfold above in Hab. destruct k as [[]| | | |]; cbn in Hab |- *; by try lia.
Qed.

(** An assignment, its left side parsed up to "=". *)
Lemma assign_assign g lts lcost l a : 
  parses (lev g 6) lts lcost (Some l) (fun k => above 6 k) ->
  parses (assign g) (print a) (nodes a) (Some (raw 0 a None)) (above 7) ->
  parses (assign (S g)) (lts ++ TOp finsh_token_type_assign :: print a) (lcost + nodes a + 1)
    (Some (sys_node FINSH_NODE_SYS_ASSIGN 0 0 None (set_sibling (Some (raw 0 a None)) l))) (above 7).
Proof.
  intros Hl Hp t tbl k rest n Hd Hk Hab Ha. rewrite <- app_assoc in Hd. cbn [app] in Hd.
  destruct (Hl t tbl (TOp finsh_token_type_assign) _ (nodes a + S n)%nat Hd eq_refl ltac:(unfold above; cbn; lia) ltac:(lia))
    as (t1 & tbl1 & H1 & Hd1 & Ha1).
  destruct (next_token_run t1 tbl1 _ _ Hd1 eq_refl) as (t2 & H2 & Hf2). assert (Hd2 := fetched_delivers _ _ _ Hf2).
  destruct (Hp t2 tbl1 k rest (S n) Hd2 Hk Hab Ha1) as (t3 & tbl3 & H3 & Hd3 & Ha3).
  destruct (make_run FINSH_NODE_SYS_ASSIGN l (Some (raw 0 a None)) t3 tbl3 n ltac:(done) Ha3) as (tbl4 & H4 & Ha4).
  exists t3, tbl4. split_and!; [|done|done]. cbn [proc_assign_expr]. unfold assign_body. rewrite <- lev_6. tstep H1. tstep H2.
  unfold is_token. rewrite bool_decide_true by done. tstep H3. exact H4.
Qed.

(** ** Every expression *)

(** The names of an expression are found to be its variables and functions. *)
Definition resolves (nm : list Z) (r : symbol) : Prop :=
  is_ident nm = true /\ forall tail, resolve (nm ++ 0 :: tail) vars (sysvars names) (syscalls names) = Ret r.

Definition var_named (x : var) : Prop :=
  match x with
  | Local i => resolves (var_name x) (Var i)
  | System self ty a => exists i, resolves (var_name x) (SysVar i) /\ sysvar_entry names i = (self, ty, a)
  end.

Definition fun_named (self f : Z) : Prop :=
  exists i, resolves (fun_name self f) (SysCall i) /\ syscall_entry names i = (self, f).

Lemma var_names x : var_named x -> names_node (var_name x) (var_node x 0 0 None).
Proof.
  intros Hx. split; [by destruct x; [apply Hx|destruct Hx as (? & [? _] & _)]|]. intros r tbl m Ha.
  unfold finsh_node_new_id. rewrite st_get_bind. unfold lift at 1, mbind at 1, st_bind at 1. cbn [variables G].
  destruct x as [i|self ty a].
  - rewrite (proj2 Hx). by apply new_filled_run.
  - destruct Hx as (i & [_ Hr] & He). rewrite Hr, He. by apply new_filled_run.
Qed.

Lemma fun_names self f : fun_named self f ->
  names_node (fun_name self f) (mkNode FINSH_NODE_ID 0 FINSH_IDTYPE_SYSCALL 0 (IdSyscall self f) None None).
Proof.
  intros (i & [Hi Hr] & He). split; [done|]. intros r tbl m Ha. unfold finsh_node_new_id. rewrite st_get_bind.
  unfold lift at 1, mbind at 1, st_bind at 1. cbn [variables G]. rewrite Hr, He. by apply new_filled_run.
Qed.

Fixpoint named (e : expr) : Prop :=
  match e with
  | EChar _ | ELit _ _ => True
  | EVar x | EStep _ _ x | EAddr x => var_named x
  | EBin _ a b | EStore a b => named a /\ named b
  | ENot a | EDeref a | ECast _ a => named a
  | EAssign x a => var_named x /\ named a
  | ECall self f args => fun_named self f /\ all_named args
  end
with all_named (es : exprs) : Prop :=
  match es with ENil => True | ECons e es => named e /\ all_named es end.

Lemma printable_opens e : printable e = true -> named e -> opens var_name fun_name e.
Proof.
  induction e using expr_ind2 with (P0 := fun _ => True); cbn [printable named]; try done; intros Hp Hn.
  - by exists (TChar c), [].
  - destruct l; try done; by eexists _, [].
  - exists (TId (var_name x)), []. split_and!; [done|apply (var_names x Hn)|done].
  - rewrite !andb_true_iff in Hp. destruct (IHe1 ltac:(tauto) ltac:(tauto)) as (k & ts & He & Hk & Hr).
    exists k. eexists. cbn [print]. rewrite He. split_and!; [reflexivity|done|done].
  - by eexists _, _.
  - eexists _, _. split_and!; [reflexivity|apply (var_names x), Hn|done].
  - by eexists _, _.
  - destruct (var_names x Hn). destruct pre; eexists _, _; (split_and!; [reflexivity|by destruct dec|by destruct dec]).
  - by eexists _, _.
  - by eexists _, _.
  - eexists _, _. split_and!; [reflexivity|apply (fun_names self f), Hn|done].
  - by eexists _, _.
Qed.

(** Reading [e] at its own level and above, and as an assignment. *)
Definition reads (e : expr) : Prop :=
  (forall g i, (2 * esize e <= g)%nat -> (prec e <= i <= 6)%nat -> parse_level g i e) /\
  (forall g i, (2 * esize e <= g)%nat -> (prec e <= S i <= 6)%nat -> reach g i e) /\
  (forall f, (2 * esize e < f)%nat -> parses (assign f) (print e) (nodes e) (Some (raw 0 e None)) (above 7)).

Lemma reads_from e : (prec e <= 6)%nat ->
  (forall g, (2 * esize e <= g)%nat -> parse_level g (prec e) e) ->
  (forall g i, (2 * esize e <= g)%nat -> prec e = S i -> reach g i e) -> reads e.
Proof.
  intros Hp Hl Hr. assert (Hall : forall g i, (2 * esize e <= g)%nat -> (prec e <= i <= 6)%nat -> parse_level g i e)
    by (intros g i Hg Hi; by apply (climb g (prec e)), Hi; apply Hl).
  split_and!; [done| |].
  - intros g i Hg Hi. destruct (decide (prec e = S i)); [by apply Hr|]. apply level_reach, Hall; lia.
  - intros [|f] Hf; [lia|]. apply assign_level, Hall; lia.
Qed.

(** Expressions [proc_cast_expr] reads. *)
Lemma reads_cast e : prec e = 0%nat ->
  (forall g, (2 * esize e <= S g)%nat ->
    parses (cast_body names junk_id g (fun s => cast g s) (fun s => assign g s)) (print e) (nodes e)
      (Some (raw 0 e None)) (above 0)) ->
  reads e.
Proof.
  intros Hp Hc. apply reads_from; rewrite Hp; [lia| |lia]. intros [|g] Hg; [pose proof (esize_pos e); lia|].
  intros t tbl k rest n. by apply (Hc g).
Qed.

Lemma reads_var x : var_named x -> reads (EVar x).
Proof.
  intros Hn%var_names. apply reads_cast; [done|]. intros g Hg. apply cast_postfix; [done|apply Hn|].
  cbn [raw nodes]. by apply postfix_plain, primary_name.
Qed.

(** An operator in front of an expression of precedence 0. *)
Lemma reads_unary k knd e a : unary_kind k = Some knd -> prec a = 0%nat -> reads a ->
  prec e = 0%nat -> print e = TOp k :: print a -> nodes e = (nodes a + 1)%nat -> esize e = S (esize a) ->
  raw 0 e None = sys_node knd 0 0 None (raw 0 a None) -> reads e.
Proof.
  intros Hk Hpa (Ha & _) Hp Hpr Hno Hsz Hraw. apply reads_cast; [done|]. intros g Hg.
  rewrite Hpr, Hno, Hraw, <- (set_sibling_raw a 0 None None). apply cast_unary; [done|].
  exact (Ha g 0%nat ltac:(lia) ltac:(lia)).
Qed.

Lemma reads_assign e l a lts : prec e = 7%nat -> reads l -> reads a -> (prec l = 0)%nat ->
  print e = print l ++ TOp finsh_token_type_assign :: print a -> nodes e = (nodes l + nodes a + 1)%nat ->
  (S (esize l) + esize a <= esize e)%nat -> lts = print l ->
  raw 0 e None = sys_node FINSH_NODE_SYS_ASSIGN 0 0 None (raw 0 l (Some (raw 0 a None))) -> reads e.
Proof.
  intros Hp (Hl & _) (_ & _ & Ha) Hpl Hpr Hno Hsz -> Hraw. split_and!; [intros; lia..|].
  intros [|f] Hf; [lia|]. rewrite Hpr, Hno, Hraw, <- (set_sibling_raw l 0 (Some (raw 0 a None)) None).
  apply assign_assign; [apply Hl; lia|apply Ha; pose proof (esize_pos l); lia].
Qed.

(** What the arguments of a call need. *)
Lemma args_parse_of g es : all_named es -> printables es = true -> (2 * essize es <= g)%nat ->
  (forall e, (esize e <= essize es)%nat -> printable e = true -> named e -> reads e) ->
  args_parse (fun s => assign g s) var_name fun_name es.
Proof.
  induction es as [|e es IH]; intros Hn Hp Hg Hr; [done|]. cbn [all_named printables essize] in *.
  apply andb_true_iff in Hp as [Hpe Hpes]. destruct Hn as [Hne Hnes]. split_and!; [by apply printable_opens| |].
  - destruct (Hr e ltac:(lia) Hpe Hne) as (_ & _ & Ha). intros t tbl k rest n. apply (Ha g ltac:(lia)).
  - apply IH; [done|done|lia|]. intros e' He'. apply Hr. lia.
Qed.

Lemma reads_all n : forall e, (esize e <= n)%nat -> printable e = true -> named e -> reads e.
Proof.
  induction n as [|n IH]; intros e Hs Hp Hn; [pose proof (esize_pos e); lia|].
  destruct e as [c|l v|x|o a b|a|x a|p a|pre dec x|p|x|self f args|ty a]; cbn [esize named] in Hs, Hn; assert (Hp' := Hp);
    cbn [printable] in Hp'; rewrite ?andb_true_iff, ?Nat.eqb_eq, ?Nat.leb_le, ?Nat.ltb_lt in Hp'.
  - apply reads_cast; [done|]. intros g Hg. apply cast_postfix; [done|done|]. by apply postfix_plain, primary_const.
  - apply reads_cast; [done|]. intros g Hg. destruct l; try done;
      (apply cast_postfix; [done|done|]); by apply postfix_plain, primary_const.
  - by apply reads_var.
  - destruct Hp' as [[[Hpa Hpb] Hla] Hlb], Hn as [Hna Hnb].
    assert (Ha := IH a ltac:(lia) Hpa Hna). assert (Hb := IH b ltac:(lia) Hpb Hnb).
    assert (Ho : (1 <= op_prec o <= 6)%nat) by (destruct o; cbn; lia).
    assert (Hr : forall g, (2 * esize (EBin o a b) <= g)%nat -> reach g (op_prec o - 1) (EBin o a b)).
    { intros g Hg. cbn [esize] in Hg. apply reach_bin; [done|cbn [esize]; lia|apply Ha; lia|apply Hb; lia]. }
    apply reads_from; cbn [prec]; [lia| |].
    + intros g Hg. replace (op_prec o) with (S (op_prec o - 1)) by lia. apply reach_stop; [lia|by apply Hr].
    + intros g i Hg Hi. replace i with (op_prec o - 1)%nat by lia. by apply Hr.
  - by eapply (reads_unary finsh_token_type_bitwise _ (ENot a) a); [done|apply Hp'|apply IH; [lia|apply Hp'|done]|..].
  - destruct Hn as [Hx Ha]. eapply (reads_assign (EAssign x a) (EVar x) a); try done; [by apply reads_var|apply IH; [lia|done..]].
  - destruct Hp' as [[Hpp Hpa] Hl], Hn as [Hnp Hna].
    eapply (reads_assign (EStore p a) (EDeref p) a);
      try done; (apply IH; cbn [esize printable]; [lia| |done]); [|done].
    rewrite Hpp. by apply Nat.eqb_eq.
  - destruct pre.
    + eapply (reads_unary (step_token dec) _ _ (EVar x)); try done; [by destruct dec|by apply reads_var].
    + apply var_names in Hn. apply reads_cast; [done|]. intros g Hg. apply cast_postfix; [done|apply Hn|].
      cbn [esize] in Hg. destruct g as [|g]; [lia|]. cbn [print nodes raw]. 
      assert (Hps := postfix_step (fun s => assign (S g) s) g _ _ dec Hn).
      change (var_node x 0 0 None) with (raw 0 (EVar x) None) in Hps. by rewrite set_sibling_raw in Hps.
  - by eapply (reads_unary finsh_token_type_mul _ (EDeref p) p); [done|apply Hp'|apply IH; [lia|apply Hp'|done]|..].
  - eapply (reads_unary finsh_token_type_and _ _ (EVar x)); try done. by apply reads_var.
  - destruct Hn as [Hf%fun_names Ha]. apply reads_cast; [done|]. intros g Hg. apply cast_postfix; [done|apply Hf|].
    cbn [esize] in Hg. destruct g as [|g]; [lia|]. pose proof (exprs_length_size args).
    apply (postfix_call (fun s => assign (S g) s) var_name fun_name g _ _ args Hf); [|lia].
    apply args_parse_of; [done|done|lia|]. intros e He. apply IH. lia.
  - destruct (type_tokens ty) as [tts|] eqn:Hty; [|by destruct Hp' as [[]]]. apply reads_cast; [done|]. intros g Hg.
    cbn [print nodes raw]. rewrite Hty. apply cast_cast; [done|].
    destruct (IH a ltac:(lia) ltac:(tauto) Hn) as (Ha & _). cbn [esize] in Hg. apply (Ha g 0%nat); lia.
Qed.

(** ** Statements *)

Abbreviation semicolon := (TOp finsh_token_type_semicolon).

Definition line_tokens (es : list expr) : list tok := flat_map (fun e => print e ++ [semicolon]) es.

Definition writable (e : expr) : Prop := printable e = true /\ named e.

Lemma statement_run g r e t tbl k ts rest n : writable e -> (2 * esize e < g)%nat -> print e = k :: ts ->
  fetched t k (ts ++ semicolon :: rest) -> avail tbl = (nodes e + n)%nat ->
  exists t' tbl', statement names junk_id g r (tok_type k) (Q t tbl) = Ret (append r [raw 0 e None], Q t' tbl') /\
    delivers t' rest /\ avail tbl' = n.
Proof.
  intros [Hp Hn] Hg He Hf Ha. destruct (printable_opens e Hp Hn) as (k' & ts' & He' & Hk & Hs). rewrite He in He'.
  injection He' as <- <-. destruct (replay_run t tbl _ _ Hf) as (t1 & H1 & Hd1).
  destruct (peek_run t1 tbl _ _ Hd1 Hk) as (t2 & t3 & H2 & H3 & Hd3).
  change (k :: ts ++ semicolon :: rest) with ((k :: ts) ++ semicolon :: rest) in Hd3. rewrite <- He in Hd3.
  destruct (reads_all (esize e) e ltac:(lia) Hp Hn) as (_ & _ & Hr).
  destruct (Hr g Hg t3 tbl semicolon rest n Hd3 eq_refl ltac:(unfold above; cbn; lia) Ha) as (t4 & tbl4 & H4 & Hd4 & Ha4).
  destruct (match_run t4 tbl4 semicolon rest Hd4 eq_refl) as (t5 & H5 & Hf5).
  exists t5, tbl4. split_and!; [|by apply (fetched_delivers _ _ _ Hf5)|done].
  assert (Hes : proc_expr_statement names junk_id g (Q t1 tbl) = Ret (Some (raw 0 e None), Q t5 tbl4)).
  { unfold proc_expr_statement. tstep H2. rewrite expr_start_not by done. tstep H3. unfold proc_expr. tstep H4. by tstep H5. }
  unfold statement. destruct k as [[]| | | |]; try done; cbn [tok_type is_base_type] in *; unfold is_token;
    rewrite ?bool_decide_false by done; cbn [orb]; tstep H1; tstep Hes; cbn beta iota; by destruct (last_chain r).
Qed.

(** The statements of a line, behind those that were read. *)
Definition appended (r : roots) (es : list expr) : roots := foldl (fun r e => append r [raw 0 e None]) r es.

Lemma run_loop_run es : forall lfuel fuel r t tbl n, Forall writable es -> (2 * all_sizes es < fuel)%nat ->
  (length es <= lfuel)%nat -> delivers t (line_tokens es) -> avail tbl = (program_nodes es + n)%nat ->
  exists t' tbl', (k ← next_token; run_loop names junk_id lfuel fuel r k) (Q t tbl) = Ret (appended r es, Q t' tbl') /\
    avail tbl' = n.
Proof.
  induction es as [|e es IH]; intros lfuel fuel r t tbl n Hw Hg Hl Hd Ha.
  - destruct (next_token_end t tbl Hd) as (t1 & H1). exists t1, tbl. split; [|done]. tstep H1. by destruct lfuel.
  - apply Forall_cons in Hw as [He Hes]. cbn [all_sizes program_nodes length] in *. destruct lfuel as [|lfuel]; [lia|].
    destruct (printable_opens e (proj1 He) (proj2 He)) as (k & ts & Hpr & Hk & Hs).
    change (line_tokens (e :: es)) with ((print e ++ [semicolon]) ++ line_tokens es) in Hd.
    rewrite <- app_assoc, Hpr in Hd. cbn [app] in Hd.
    destruct (next_token_run t tbl _ _ Hd Hk) as (t1 & H1 & Hf1).
    destruct (statement_run fuel r e t1 tbl k ts _ (program_nodes es + n)%nat He ltac:(lia) Hpr Hf1 ltac:(lia))
      as (t2 & tbl2 & H2 & Hd2 & Ha2).
    destruct (IH lfuel fuel (append r [raw 0 e None]) t2 tbl2 n Hes ltac:(lia) ltac:(lia) Hd2 Ha2) as (t3 & tbl3 & H3 & Ha3).
    exists t3, tbl3. split; [|done]. tstep H1. cbn [run_loop].
    rewrite (expr_start_not _ finsh_token_type_eof), (expr_start_not _ finsh_token_type_bad) by done. cbn [orb].
    tstep H2. exact H3.
Qed.

Lemma raw_program_chain e es : chain ((fun e => raw 0 e None) <$> e :: es) = Some (raw_program e es).
Proof.
  revert e. induction es as [|e' es IH]; intros e; [cbn; by rewrite set_sibling_raw|].
  change (Some (set_sibling (chain ((fun e => raw 0 e None) <$> e' :: es)) (raw 0 e None)) = Some (raw_program e (e' :: es))).
  by rewrite IH, set_sibling_raw.
Qed.

Lemma appended_root es : forall bs e, root (appended (mkRoots bs [raw 0 e None]) es) =
  chain (reverse bs ++ ((fun e => raw 0 e None) <$> e :: es)).
Proof.
  induction es as [|e' es IH]; intros bs e; [done|]. change (appended (mkRoots bs [raw 0 e None]) (e' :: es))
    with (appended (mkRoots (raw 0 e None :: bs) [raw 0 e' None]) es).
  by rewrite IH, reverse_cons, <- app_assoc.
Qed.

Lemma printed_ok e : printable e = true -> named e -> Forall (fun k => tok_ok k = true) (print e).
Proof.
  apply (expr_ind2 (fun e => printable e = true -> named e -> Forall (fun k => tok_ok k = true) (print e))
    (fun es => printables es = true -> all_named es -> Forall (fun k => tok_ok k = true) (prints es)));
    clear e; cbn [printable named printables all_named]; intros; rewrite ?andb_true_iff in *; destruct_and?.
  - by apply Forall_singleton.
  - destruct l; try done; by apply Forall_singleton.
  - by apply Forall_singleton, (var_names x).
  - apply Forall_app; split; [auto|]. apply Forall_cons; split; [by destruct o|auto].
  - apply Forall_cons; auto.
  - apply Forall_cons; split; [by apply (var_names x)|]. apply Forall_cons; auto.
  - apply Forall_cons; split; [done|]. apply Forall_app; split; [auto|]. apply Forall_cons; auto.
  - destruct (var_names x) as [Hx _]; [done|].
    destruct pre; cbn [print]; (apply Forall_cons; split; [by destruct dec|]); apply Forall_singleton; by destruct dec.
  - apply Forall_cons; auto.
  - apply Forall_cons; split; [done|]. by apply Forall_singleton, (var_names x).
  - apply Forall_cons; split; [by apply (fun_names self f)|]. apply Forall_cons; split; [done|].
    apply Forall_app; split; [auto|]. by apply Forall_singleton.
  - apply Forall_cons; split; [done|]. apply Forall_app; split; [|apply Forall_cons; auto].
    destruct (type_tokens t) as [ts|] eqn:Ht; [|by constructor]. revert Ht. unfold type_tokens.
    repeat case_match; intros [= <-]; by repeat constructor.
  - by constructor.
  - rewrite prints_cons. apply Forall_app; split; [auto|]. destruct es; [by constructor|]. apply Forall_cons; auto.
Qed.

Lemma line_ok es : Forall writable es -> Forall (fun k => tok_ok k = true) (line_tokens es).
Proof.
  induction 1 as [|e es [Hp Hn] _ IH]; [done|]. change (line_tokens (e :: es)) with ((print e ++ [semicolon]) ++ line_tokens es).
  apply Forall_app; split; [|done]. apply Forall_app; split; [by apply printed_ok|by apply Forall_singleton].
Qed.

End levels.
End parse.

(** ** A line *)

Lemma parse_run {H} `{StringHeap H} names junk_id err vars h bytes var_name fun_name tbl e es fuel :
  length junk_id = 17%nat ->
  Forall (writable names vars var_name fun_name) (e :: es) ->
  (program_nodes (e :: es) <= avail tbl)%nat ->
  (2 * all_sizes (e :: es) < fuel)%nat ->
  exists tbl', finsh_parser_run names junk_id fuel (text_of (line_tokens var_name fun_name (e :: es)) ++ [0])
      (mkGlobals tbl err vars h bytes) = Ret (Some (raw_program e es), mkGlobals tbl' err vars h bytes) /\
    avail tbl' = (avail tbl - program_nodes (e :: es))%nat.
Proof.
  intros Hj Hw Hn Hf. pose proof (length_sizes (e :: es)).
  assert (Hd : delivers (finsh_token_init (text_of (line_tokens var_name fun_name (e :: es)) ++ [0]))
    (line_tokens var_name fun_name (e :: es))) by (left; split; [done|]; by apply init_ready, (line_ok names junk_id Hj err vars h bytes)).
  destruct (run_loop_run names junk_id Hj err vars h bytes var_name fun_name (e :: es) fuel fuel (mkRoots [] []) _ tbl
    (avail tbl - program_nodes (e :: es)) Hw Hf ltac:(lia) Hd ltac:(lia)) as (t' & tbl' & Hr & Ha).
  exists tbl'. split; [|done]. unfold finsh_parser_run. change (mkParser _ _) with (Q err vars h bytes
    (finsh_token_init (text_of (line_tokens var_name fun_name (e :: es)) ++ [0])) tbl). rewrite Hr.
  change (appended (mkRoots [] []) (e :: es)) with (appended (mkRoots [] [raw 0 e None]) es).
  rewrite (appended_root es [] e). change (reverse [] ++ ?l) with l. by rewrite raw_program_chain.
Qed.

(** ** Properties *)

(** C10: the parser reads what is written.  For every sequence of statements that
    can be written without parentheses, whose names are those of its variables and
    functions and whose trees fit into the pool, parsing the line gives exactly
    the statements' trees, linked in order; the pool loses one entry per node, and
    nothing else of the shell's data changes, the error number included.  Fuel for
    twice the size of the line is enough. *)
Theorem finsh_parse_roundtrip {H} `{StringHeap H} names junk_id err vars h bytes var_name fun_name tbl e es fuel :
  length junk_id = 17%nat ->
  Forall (writable names vars var_name fun_name) (e :: es) ->
  (program_nodes (e :: es) <= avail tbl)%nat ->
  (2 * all_sizes (e :: es) < fuel)%nat ->
  exists tbl', finsh_parser_run names junk_id fuel (text_of (line_tokens var_name fun_name (e :: es)) ++ [0])
      (mkGlobals tbl err vars h bytes) = Ret (Some (raw_program e es), mkGlobals tbl' err vars h bytes) /\
    avail tbl' = (avail tbl - program_nodes (e :: es))%nat.
Proof.
  apply parse_run.
Qed.

(** ** Witnesses *)

(** A shell without memory for strings, with one function, [add]. *)
#[global] Instance no_heap : StringHeap unit := {| heap_allocate _ _ m h := mret (0, h, m) |}.

Definition demo_names : tables :=
  mkTables (mkSym [] []) (fun _ => (0, 0, 0)) (mkSym [str "add" ++ [0]] []) (fun _ => (32, 64)).

Definition demo_var_name (x : var) : list Z :=
  match x with Local 0 => str "i" | Local 1 => str "c" | Local _ => str "l" | System _ _ _ => [] end.
Definition demo_fun_name (self f : Z) : list Z := str "add".

Lemma demo_i : resolves demo_names demo_vars (str "i") (Var 0).
Proof. done. Qed.

Lemma demo_add : fun_named demo_names demo_vars demo_fun_name 32 64.
Proof. by exists 0. Qed.

Lemma demo_writable : Forall (writable demo_names demo_vars demo_var_name demo_fun_name) (demo_first :: demo_rest).
Proof.
  pose proof demo_i. pose proof demo_add.
  repeat (apply Forall_cons; split; [by repeat split|]). by apply Forall_nil.
Qed.

Lemma finsh_parse_witness : exists tbl,
  finsh_parser_run demo_names (replicate 17 0) 100 (str " i = 2 + 3 * 4 ; i ++ ; add ( i , 1 ) ; " ++ [0])
    (mkGlobals finsh_node_init 0 demo_vars tt (fun _ => 0)) =
    Ret (Some (raw_program demo_first demo_rest), mkGlobals tbl 0 demo_vars tt (fun _ => 0)) /\ avail tbl = 3%nat.
Proof.
  exact (finsh_parse_roundtrip demo_names (replicate 17 0) 0 demo_vars tt (fun _ => 0) demo_var_name demo_fun_name
    finsh_node_init demo_first demo_rest 100 eq_refl demo_writable ltac:(vm_compute; lia) ltac:(vm_compute; lia)).
Defined.
