(* ===== verification/FinshLine.v ===== *)
(** * A line of the shell

    RTT/components/finsh/shell.c ([finsh_run_line]), finsh_init.c, finsh_error.c:
    a line is parsed, compiled and run, the result is printed, and the parser's
    state is cleared for the next line.  The theorem composes the correctness of
    the tokeniser, the parser, the code generator and the machine. *)

From S2P Require Import Prelude FinshSym FinshVm FinshNode FinshCompiler FinshExpr FinshCorrect.
From S2P Require Import FinshToken FinshLex FinshParser FinshParse.
From S2P Require FinshHeap.

(** ** The error number *)

Definition finsh_error_string_table : list string :=
  ["No error"; "Invalid token"; "Expect a type"; "Unknown type"; "Variable exist"; "Expect a operater"; "Memory full";
   "Unknown operator"; "Unknown node"; "Expect a character"; "Unexpect end"; "Unknown token"; "Float not supported";
   "Unknown symbol"; "Null node"]%string.

Definition finsh_error_string (e : Z) : res string := idx finsh_error_string_table e.

(** ** Running a line *)

(** What is printed for a line: an error, the value with its low byte when that is
    a visible character, or nothing. *)
Inductive report := Message (s : string) | Value (ch : option Z) (v : Z) | Silent.

Section line.
Context {H : Type} `{StringHeap H} `{Machine}.
Context (names : tables) (junk_id : list Z) (fuel : nat).

(** The shell's data, the memory included, and the machine's stack. *)
Record shell := mkShell { data : globals H; stack : list Z }.

(** [finsh_stack_bottom], read after the run. *)
Definition finsh_stack_bottom (st : list Z) : res Z := x ← idx st 0; mret (value Dword x).

Definition visible (v : Z) : option Z := let ch := u8 v in if (32 <? ch) && (ch <? 126) then Some ch else None.

(** [finsh_flush]: the nodes and the error number. *)
Definition finsh_flush (g : globals H) : globals H :=
  mkGlobals finsh_node_init FINSH_ERROR_OK (variables g) (heap g) (heap_bytes g).

Definition set_errno (e : Z) (g : globals H) : globals H :=
  mkGlobals (global_node_table g) e (variables g) (heap g) (heap_bytes g).
Definition set_memory (m : mem) (g : globals H) : globals H :=
  mkGlobals (global_node_table g) (global_errno g) (variables g) (heap g) m.

Definition finsh_run_line (line : list Z) (s : shell) : res (report * shell) :=
  '(root, g) ← finsh_parser_run names junk_id fuel line (data s);
  if global_errno g =? FINSH_ERROR_OK then
    '(text, e, st) ← finsh_compiler_run (variables g) root FINSH_ERROR_OK (stack s);
    if e =? FINSH_ERROR_OK then
      v ← finsh_vm_run st text (heap_bytes g);
      x ← finsh_stack_bottom (finsh_vm_stack v);
      mret (Value (visible x) x, mkShell (finsh_flush (set_memory (memory v) g)) (finsh_vm_stack v))
    else mret (Silent, mkShell (finsh_flush (set_errno e g)) st)
  else
    msg ← finsh_error_string (global_errno g);
    mret (Message msg, mkShell (finsh_flush g) (stack s)).
End line.

(** ** Properties *)

(** The number of free nodes at the start of a line. *)
Lemma avail_init : avail finsh_node_init = FINSH_NODE_MAX.
Proof. reflexivity. Qed.

(** C2: a line does what it says.  Take any sequence of statements that can be
    written without parentheses, whose names are those of its variables and
    functions, whose trees have at most 16 nodes in all, whose types agree, and
    whose code and values fit into the machine's text and stack.  Running the line
    with their text ends in the memory their evaluation ends in and prints the
    value of the last statement (the bytes its width covers), and it fails exactly
    when the evaluation does; the pool and the error number are as at the start, so
    the next line finds the shell ready. *)
Theorem finsh_line_correct {H} `{StringHeap H} `{Machine} names junk_id vars h m st var_name fun_name e es fuel :
  length junk_id = 17%nat ->
  length st = FINSH_STACK_MAX ->
  (forall i k, 0 <= i < Z.of_nat (length vars) -> 0 <= k < 4 -> valid (u32 (var_value i + k)) = true) ->
  Forall (writable names vars var_name fun_name) (e :: es) ->
  Forall (fun e => typed vars e = true) (e :: es) ->
  (program_nodes (e :: es) <= FINSH_NODE_MAX)%nat ->
  (length (code_program vars e es) <= FINSH_TEXT_MAX)%nat ->
  (program_depth e es <= FINSH_STACK_MAX)%nat ->
  (2 * all_sizes (e :: es) < fuel)%nat ->
  let start m := mkGlobals finsh_node_init FINSH_ERROR_OK vars h m in
  let result := finsh_run_line names junk_id fuel (text_of (line_tokens var_name fun_name (e :: es)) ++ [0])
    (mkShell (start m) st) in
  match eval_program vars e es m with
  | Ret (v, m') => exists x st', value (program_width vars e es) x = v /\
      result = Ret (Value (visible (value Dword x)) (value Dword x), mkShell (start m') st')
  | Err f => result = Err f
  end.
Proof.
  intros Hj Hst Hv Hw Ht Hn Hl Hd Hf start result.
  destruct (parse_run names junk_id FINSH_ERROR_OK vars h m var_name fun_name finsh_node_init e es fuel Hj Hw
    ltac:(by rewrite avail_init) Hf) as (tbl & Hp & _).
  destruct (compiled_run vars st m e es FINSH_ERROR_OK Hv Hst Ht Hl Hd) as (text & Hc & Hr).
  subst result start. unfold finsh_run_line. cbn [data]. rewrite Hp. cbn [mbind res_bind global_errno variables stack].
  change (FINSH_ERROR_OK =? FINSH_ERROR_OK) with true. cbn beta iota. rewrite Hc. cbn [mbind res_bind].
  change (FINSH_ERROR_OK =? FINSH_ERROR_OK) with true. cbn beta iota. cbn [heap_bytes].
  destruct (eval_program vars e es m) as [[v m']|f]; [|by rewrite Hr].
  destruct Hr as (s & x & Hs & <- & Hx & Hval). exists x, (finsh_vm_stack s). split; [done|].
  rewrite Hs. cbn [mbind res_bind]. unfold finsh_stack_bottom. by rewrite Hx.
Qed.

(** ** Witnesses *)

Lemma finsh_line_witness : exists x st,
  value Dword x = 16 /\
  finsh_run_line demo_names (replicate 17 0) 100 (str " i = 2 + 3 * 4 ; i ++ ; add ( i , 1 ) ; " ++ [0])
    (mkShell (mkGlobals finsh_node_init 0 demo_vars tt (fun _ => 0)) (replicate 64 7)) =
  Ret (Value (visible (value Dword x)) (value Dword x),
    mkShell (mkGlobals finsh_node_init 0 demo_vars tt (match eval_program demo_vars demo_first demo_rest (fun _ => 0) with
      Ret (_, m) => m | Err _ => fun _ => 0 end)) st).
Proof.
  assert (Hr := finsh_line_correct demo_names (replicate 17 0) demo_vars tt (fun _ => 0) (replicate 64 7) demo_var_name
    demo_fun_name demo_first demo_rest 100 eq_refl eq_refl demo_valid demo_writable ltac:(repeat constructor)
    ltac:(vm_compute; lia) ltac:(vm_compute; lia) ltac:(vm_compute; lia) ltac:(vm_compute; lia)).
  destruct (eval_program demo_vars demo_first demo_rest (fun _ => 0)) as [[v m']|f] eqn:He; [|clear Hr; by vm_compute in He].
  assert (Hv : v = 16) by (clear Hr; vm_compute in He; congruence). subst v.
  destruct Hr as (x & st' & Hx & Hr). exists x, st'. split; [exact Hx|]. exact Hr.
Defined.

(** A parenthesis in an expression is taken for a cast, and the line is refused. *)
Example no_parentheses : exists s,
  finsh_run_line demo_names (replicate 17 0) 100 (str "(1 + 2) * 3;" ++ [0])
    (mkShell (mkGlobals finsh_node_init 0 demo_vars tt (fun _ => 0)) (replicate 64 0)) = Ret (Message "Null node", s).
Proof. eexists. vm_compute. reflexivity. Qed.

(** The second initialiser of a declaration is lost when a statement follows. *)
Example lost_initialiser : exists s,
  finsh_run_line demo_names (replicate 17 0) 100 (str "int a=1,b=2;a+b;" ++ [0])
    (mkShell (mkGlobals finsh_node_init 0 demo_vars tt (fun _ => 0)) (replicate 64 0)) = Ret (Value None 1, s).
Proof. eexists. vm_compute. reflexivity. Qed.

(** With the heap of [FinshHeap] at address 4096: the string of a line is in memory,
    and its address is the argument. *)
Example string_argument : exists s,
  @finsh_run_line FinshHeap.heap (FinshHeap.finsh_strings 4096) _ demo_names (replicate 17 0) 100 (str "add(" ++ [34; 65; 34] ++ str ",1);" ++ [0])
    (mkShell (mkGlobals finsh_node_init 0 demo_vars FinshHeap.finsh_heap_init (fun _ => 0)) (replicate 64 0)) =
    Ret (Value None 4105, s) /\ heap_bytes (data s) 4104 = 65.
Proof. eexists. vm_compute. split; reflexivity. Qed.
