(* ===== verification/DfsPath.v ===== *)
(** * Path names of the device file system

    RTT/components/dfs/src/dfs.c: [dfs_normalize_path] builds an absolute path
    and resolves its names in place, in the buffer it has just allocated;
    [dfs_subdir] cuts the mount point off a path.  The file system is configured
    without a working directory (no [DFS_USING_WORKDIR] in rtconfig.h).

    A C string is the list of its bytes, none of them zero; a buffer is the list
    of its bytes, and a pointer into it an index.  The reference ([descend]) reads
    an absolute path as the list of its names.  [resolve] describes what the code
    does with every path, those it mistreats included. *)

From S2P Require Import Prelude.

Definition SLASH : Z := 47.
Definition DOT : Z := 46.

(** A C string: no byte of it is the terminator. *)
Definition text (s : list Z) : Prop := Forall (fun c => c <> 0) s.

(** ** The code *)

(** The loops that step over slashes. *)
Fixpoint skip_slashes (fuel : nat) (buf : list Z) (src : Z) : res Z :=
  c ← idx buf src;
  if c =? SLASH then
    match fuel with O => Err OutOfFuel | S fuel => skip_slashes fuel buf (src + 1) end
  else mret src.

(** The loop that copies a name; the result ends in the character that stopped
    it. *)
Fixpoint copy_name (fuel : nat) (buf : list Z) (dst src : Z) : res (list Z * Z * Z * Z) :=
  c ← idx buf src;
  if (c =? 0) || (c =? SLASH) then mret (buf, dst, src + 1, c)
  else
    buf ← upd buf dst c;
    match fuel with O => Err OutOfFuel | S fuel => copy_name fuel buf (dst + 1) (src + 1) end.

(** The loop that steps back over a name. *)
Fixpoint back_name (fuel : nat) (buf : list Z) (dst : Z) : res Z :=
  if 0 <? dst then
    c ← idx buf (dst - 1);
    if c =? SLASH then mret dst
    else match fuel with O => Err OutOfFuel | S fuel => back_name fuel buf (dst - 1) end
  else mret dst.

(** What a turn of the main loop finds at [src]: a name to copy from there, a
    dot to step over, or two dots that go [up_one]. *)
Inductive at_src := Name (src : Z) | Here (src : Z) | Up (src : Z).

Definition look (buf : list Z) (src : Z) : res at_src :=
  c ← idx buf src;
  if c =? DOT then
    c1 ← idx buf (src + 1);
    if c1 =? 0 then mret (Name (src + 1))
    else if c1 =? SLASH then
      src ← skip_slashes (length buf) buf (src + 2); mret (Here src)
    else if c1 =? DOT then
      c2 ← idx buf (src + 2);
      if c2 =? 0 then mret (Up (src + 2))
      else if c2 =? SLASH then
        src ← skip_slashes (length buf) buf (src + 3); mret (Up src)
      else mret (Name src)
    else mret (Name src)
  else mret (Name src).

(** The end of the function: the terminator, without a slash before it. *)
Definition terminate (buf : list Z) (dst : Z) : res (option (list Z)) :=
  buf ← upd buf dst 0;
  let dst := dst - 1 in
  c ← (if dst =? 0 then mret 0 else idx buf dst);
  buf ← (if c =? SLASH then upd buf dst 0 else mret buf);
  p ← cstr buf;
  mret (Some p).

Fixpoint normalize_loop (fuel : nat) (buf : list Z) (dst src : Z) : res (option (list Z)) :=
  match fuel with
  | O => Err OutOfFuel
  | S fuel =>
      a ← look buf src;
      match a with
      | Here src => normalize_loop fuel buf dst src
      | Name src =>
          '(buf, dst, src, c) ← copy_name (length buf) buf dst src;
          if c =? SLASH then
            buf ← upd buf dst SLASH;
            src ← skip_slashes (length buf) buf src;
            normalize_loop fuel buf (dst + 1) src
          else terminate buf dst
      | Up src =>
          let dst := dst - 1 in
          if dst <? 0 then mret None
          else dst ← back_name (length buf) buf dst; normalize_loop fuel buf dst src
      end
  end.

(** The path joined from directory and file name, with its terminator. *)
Definition join_path (directory : option (list Z)) (filename : list Z) : option (list Z) :=
  match filename, directory with
  | c :: _, Some d => Some (if c =? SLASH then filename else d ++ SLASH :: filename)
  | c :: _, None => if c =? SLASH then Some filename else None
  | [], Some d => Some (d ++ [SLASH])
  | [], None => None
  end.

Definition dfs_normalize_path (directory : option (list Z)) (filename : list Z) : res (option (list Z)) :=
  match join_path directory filename with
  | None => mret None
  | Some p => normalize_loop (S (length p)) (p ++ [0]) 0 0
  end.

(** The rest of [filename] below [directory], if there is any. *)
Definition dfs_subdir (directory filename : list Z) : res (option (list Z)) :=
  if (length directory =? length filename)%nat then mret None
  else
    c ← idx (filename ++ [0]) (Z.of_nat (length directory));
    if negb (c =? SLASH) && negb (length directory =? 0)%nat
    then mret (Some (drop (length directory - 1) filename))
    else mret (Some (drop (length directory) filename)).

(** ** The reference: a path from the root as a list of names *)

(** The names between the slashes, empty ones included. *)
Fixpoint split (s : list Z) : list (list Z) :=
  match s with
  | [] => [[]]
  | c :: s =>
      if c =? SLASH then [] :: split s
      else match split s with [] => [[c]] | w :: ws => (c :: w) :: ws end
  end.

(** Where the names of an absolute path lead from the root: an empty name and [.]
    stay, [..] goes back to the directory before, any other name goes down.  The
    names passed so far are [ns], the last one first.  There is no directory above
    the root. *)
Fixpoint descend (ws ns : list (list Z)) : option (list (list Z)) :=
  match ws with
  | [] => Some (rev ns)
  | w :: ws =>
      if decide (w = [] \/ w = [DOT]) then descend ws ns
      else if decide (w = [DOT; DOT]) then match ns with _ :: ns => descend ws ns | [] => None end
      else descend ws (w :: ns)
  end.

(** ** What the code does with every path

    This is not a specification: it describes the code on the paths that climb
    above the root as well, where the leading slash gets lost. *)

(** Where a path has led so far: below the root or not, and through which names,
    the last one first. *)
Record place := mkPlace { rooted : bool; names : list (list Z) }.

Definition enter (w : list Z) (p : place) : option place :=
  if decide (w = [] \/ w = [DOT]) then Some p
  else if decide (w = [DOT; DOT]) then
    match names p with
    | _ :: ns => Some (mkPlace (rooted p) ns)
    | [] => if rooted p then Some (mkPlace false []) else None
    end
  else Some (mkPlace (rooted p) (w :: names p)).

Definition walk (ws : list (list Z)) (p : place) : option place :=
  fold_left (fun p w => p ← p; enter w p) ws (Some p).

(** A place as the code keeps it: every name is followed by a slash. *)
Definition out (p : place) : list Z :=
  (if rooted p then [SLASH] else []) ++ concat ((fun w => w ++ [SLASH]) <$> rev (names p)).

(** The path of a place; the code reads in front of its buffer when the path is
    empty. *)
Definition path_of (p : place) : res (option (list Z)) :=
  match out p with
  | [] => Err OutOfBounds
  | [c] => Ret (Some [c])
  | s => Ret (Some (removelast s))
  end.

Definition resolve (s : list Z) : res (option (list Z)) :=
  let start := match s with c :: _ => c =? SLASH | [] => false end in
  match walk (split s) (mkPlace start []) with
  | None => Ret None
  | Some p => path_of p
  end.

(** ** The code walks the path *)

(** A name: no terminator and no slash in it. *)
Definition name_ok (w : list Z) : Prop := text w /\ Forall (fun c => c <> SLASH) w.

Definition place_ok (p : place) : Prop := Forall (fun w => name_ok w /\ w <> []) (names p).

Section buffers.
Implicit Types (o g w r s buf : list Z) (p : place).

Lemma split_name w r : name_ok w -> split (w ++ SLASH :: r) = w :: split r.
Proof.
  intros [_ Hw]. induction Hw as [|c w Hc _ IH]; [done|]. cbn [split app].
  by rewrite (proj2 (Z.eqb_neq _ _) Hc), IH.
Qed.

Lemma split_last w : name_ok w -> split w = [w].
Proof.
  intros [_ Hw]. induction Hw as [|c w Hc _ IH]; [done|]. cbn [split].
  by rewrite (proj2 (Z.eqb_neq _ _) Hc), IH.
Qed.

(** The first name of a path. *)
Lemma first_name s : text s -> exists w, name_ok w /\
  (s = w \/ exists r, s = w ++ SLASH :: r /\ text r).
Proof.
  induction 1 as [|c s Hc Hs (w & [Ht Hw] & IH)]; [by exists []; repeat constructor; left|].
  destruct (decide (c = SLASH)) as [->|Hne].
  - exists []. split; [by repeat constructor|]. right. by exists s.
  - exists (c :: w). split; [by repeat constructor|].
    destruct IH as [->|(r & -> & Hr)]; [by left|right; by exists r].
Qed.

Lemma walk_cons w ws p : walk (w :: ws) p = match enter w p with Some p => walk ws p | None => None end.
Proof.
  unfold walk. cbn [fold_left mbind option_bind]. destruct (enter w p) as [q|]; [done|]. by induction ws.
Qed.

Lemma walk_end w p : walk [w] p = walk (w :: split []) p.
Proof. rewrite !walk_cons. by destruct (enter w p). Qed.

(** What is left of a path behind the slashes in front of it. *)
Fixpoint unslash (s : list Z) : list Z :=
  match s with [] => [] | c :: s' => if c =? SLASH then unslash s' else s end.

Lemma walk_unslash s p : walk (split (unslash s)) p = walk (split s) p.
Proof.
  induction s as [|c s IH]; [done|]. cbn [unslash split]. destruct (Z.eqb_spec c SLASH) as [->|Hne].
  - by rewrite walk_cons.
  - cbn [split]. by rewrite (proj2 (Z.eqb_neq _ _) Hne).
Qed.

Lemma unslash_head s r : unslash s <> SLASH :: r.
Proof.
  induction s as [|c s IH]; [done|]. cbn. destruct (Z.eqb_spec c SLASH); [done|]. by intros [=].
Qed.

Lemma unslash_text s : text s -> text (unslash s).
Proof. induction 1; cbn; [constructor|]. case_match; [done|by constructor]. Qed.

Lemma skip_run fuel o s : text s -> (length s <= fuel)%nat -> exists g,
  s = g ++ unslash s /\ skip_slashes fuel (o ++ s ++ [0]) (Z.of_nat (length o)) = Ret (Z.of_nat (length (o ++ g))).
Proof.
  intros Ht. revert o fuel. induction Ht as [|c s Hc _ IH]; intros o fuel Hf.
  - exists []. split; [done|]. rewrite app_nil_r.
    destruct fuel; cbn [skip_slashes app]; rewrite idx_middle by done; done.
  - destruct fuel as [|fuel]; [cbn in Hf; lia|]. cbn [skip_slashes app unslash].
    rewrite idx_middle by done. cbn [mbind res_bind]. destruct (Z.eqb_spec c SLASH) as [->|Hne].
    + destruct (IH (o ++ [SLASH]) fuel) as (g & Hg & Hrun); [cbn in Hf; lia|].
      exists (SLASH :: g). split; [by rewrite Hg at 1|]. rewrite <- !app_assoc in Hrun. cbn [app] in Hrun.
      rewrite <- Hrun. f_equal. rewrite length_app. cbn. lia.
    + exists []. by rewrite app_nil_r.
Qed.

(** The gap between the two pointers moves over the name and keeps its size. *)
Lemma copy_run fuel w o g c r : name_ok w -> c = 0 \/ c = SLASH -> (length w <= fuel)%nat -> exists g',
  length g' = length g /\
  copy_name fuel (o ++ g ++ w ++ c :: r) (Z.of_nat (length o)) (Z.of_nat (length (o ++ g))) =
    Ret ((o ++ w) ++ g' ++ c :: r, Z.of_nat (length (o ++ w)), Z.of_nat (length (o ++ g ++ w)) + 1, c).
Proof.
  intros [Ht Hw] Hc. revert o g fuel Hw. induction Ht as [|x w Hx _ IH]; intros o g fuel Hw Hf.
  - exists g. split; [done|]. rewrite !app_nil_r. cbn [app].
    assert (Hi : idx (o ++ g ++ c :: r) (Z.of_nat (length (o ++ g))) = Ret c).
    { rewrite app_assoc. by apply idx_middle. }
    destruct fuel; cbn [copy_name]; rewrite Hi; cbn [mbind res_bind]; by destruct Hc as [-> | ->].
  - apply Forall_cons in Hw as [Hs Hw]. destruct fuel as [|fuel]; [cbn in Hf; lia|].
    assert (Hi : idx (o ++ g ++ (x :: w) ++ c :: r) (Z.of_nat (length (o ++ g))) = Ret x).
    { rewrite app_assoc. by apply idx_middle. }
    cbn [copy_name]. rewrite Hi. cbn [mbind res_bind].
    rewrite (proj2 (Z.eqb_neq _ _) Hx), (proj2 (Z.eqb_neq _ _) Hs). cbn [orb].
    assert (exists y g1, g ++ [x] = y :: g1 /\ length g1 = length g) as (y & g1 & Hy & Hl).
    { destruct g as [|y g]; [by exists x, []|exists y, (g ++ [x]); split; [done|]].
      rewrite length_app. cbn. lia. }
    replace (o ++ g ++ (x :: w) ++ c :: r) with (o ++ y :: g1 ++ w ++ c :: r)
      by (change (y :: g1 ++ w ++ c :: r) with ((y :: g1) ++ w ++ c :: r); rewrite <- Hy, <- app_assoc; done).
    rewrite upd_middle by done. cbn [mbind res_bind].
    destruct (IH (o ++ [x]) g1 fuel) as (g' & Hg' & Hrun); [done|cbn in Hf; lia|].
    exists g'. split; [congruence|]. rewrite <- !app_assoc in Hrun. cbn [app] in Hrun.
    rewrite <- app_assoc. cbn [app]. replace (Z.of_nat (length o) + 1) with (Z.of_nat (length (o ++ [x])))
      by (rewrite length_app; cbn; lia).
    replace (Z.of_nat (length (o ++ g)) + 1) with (Z.of_nat (length (o ++ x :: g1)))
      by (rewrite !length_app; cbn; lia).
    rewrite Hrun. do 2 f_equal. f_equal. rewrite !length_app. cbn. rewrite !length_app. cbn. lia.
Qed.

Lemma back_name_run fuel o w x : Forall (fun c => c <> SLASH) w -> (length w <= fuel)%nat ->
  (o = [] \/ exists o', o = o' ++ [SLASH]) ->
  back_name fuel (o ++ w ++ x) (Z.of_nat (length (o ++ w))) = Ret (Z.of_nat (length o)).
Proof.
  intros Hw Hf Ho. revert x fuel Hw Hf. induction w as [|c w IH] using rev_ind; intros x fuel Hw Hf.
  - rewrite app_nil_r. destruct Ho as [->|(o' & ->)]; [by destruct fuel|].
    assert (Hi : idx ((o' ++ [SLASH]) ++ x) (Z.of_nat (length (o' ++ [SLASH])) - 1) = Ret SLASH).
    { rewrite <- app_assoc. apply idx_middle. rewrite length_app. cbn. lia. }
    destruct fuel; cbn [back_name app]; (destruct (Z.ltb_spec 0 (Z.of_nat (length (o' ++ [SLASH]))));
      [|rewrite length_app in *; cbn in *; lia]); rewrite Hi; done.
  - apply Forall_app in Hw as [Hw Hc]. apply Forall_cons in Hc as [Hc _].
    rewrite length_app in Hf. cbn in Hf. destruct fuel as [|fuel]; [lia|]. cbn [back_name].
    assert (Hl : length (o ++ w ++ [c]) = S (length (o ++ w))) by (rewrite !length_app; cbn; lia).
    destruct (Z.ltb_spec 0 (Z.of_nat (length (o ++ w ++ [c])))); [|lia].
    assert (Hi : idx (o ++ (w ++ [c]) ++ x) (Z.of_nat (length (o ++ w ++ [c])) - 1) = Ret c).
    { rewrite <- app_assoc, app_assoc. cbn [app]. apply idx_middle. lia. }
    rewrite Hi. cbn [mbind res_bind]. rewrite (proj2 (Z.eqb_neq _ _) Hc).
    rewrite <- (IH ([c] ++ x) fuel) by (done || lia). rewrite <- !app_assoc. f_equal. lia.
Qed.

(** The code's copy of a place. *)
Lemma out_push p w : out (mkPlace (rooted p) (w :: names p)) = (out p ++ w) ++ [SLASH].
Proof. unfold out. cbn [rooted names rev]. rewrite fmap_app, concat_app. cbn. by rewrite app_nil_r, <- !app_assoc. Qed.

Lemma out_end p : out p = [] \/ exists o, out p = o ++ [SLASH].
Proof.
  destruct p as [r [|w ns]]; [|right; eexists; apply (out_push (mkPlace r ns))].
  destruct r; [right; by exists []|by left].
Qed.

Lemma out_nil p : place_ok p -> out p = [] -> p = mkPlace false [].
Proof.
  destruct p as [[] [|w ns]]; try done. rewrite (out_push (mkPlace false ns)). by destruct (_ ++ w).
Qed.

Lemma terminate_run o x : text o -> x <> [] ->
  terminate (o ++ x) (Z.of_nat (length o)) =
    match o with
    | [] => Err OutOfBounds
    | [c] => Ret (Some [c])
    | _ => if decide (last o = Some SLASH) then Ret (Some (removelast o)) else Ret (Some o)
    end.
Proof.
  intros Ht Hx. destruct x as [|y x]; [done|]. unfold terminate. rewrite upd_middle by done. cbn [mbind res_bind].
  destruct o as [|c o _] using rev_ind; [done|]. apply Forall_app in Ht as [Ht Hc]. apply Forall_cons in Hc as [Hc _].
  rewrite last_snoc, length_app. cbn [length]. rewrite Nat.add_1_r.
  destruct o as [|c1 o].
  { change (cstr ([c] ++ 0 :: x) ≫= (fun s => mret (Some s)) = Ret (Some [c])).
    by rewrite cstr_app by (by constructor). }
  destruct (Z.eqb_spec (Z.of_nat (S (length (c1 :: o))) - 1) 0); [cbn [length] in *; lia|].
  rewrite <- app_assoc. cbn [app]. change (c1 :: o ++ c :: 0 :: x) with ((c1 :: o) ++ c :: 0 :: x).
  rewrite idx_middle by lia. cbn [mbind res_bind].
  destruct (Z.eqb_spec c SLASH) as [->|Hne].
  - rewrite upd_middle by lia. cbn [mbind res_bind]. rewrite cstr_app by done. cbn [mbind res_bind].
    rewrite decide_True by done. change (c1 :: o ++ [SLASH]) with ((c1 :: o) ++ [SLASH]).
    rewrite removelast_last. by destruct o.
  - change ((c1 :: o) ++ c :: 0 :: x) with ((c1 :: o) ++ [c] ++ 0 :: x).
    cbn [mbind res_bind mret res_ret]. rewrite app_assoc, cstr_app by (apply Forall_app; split; [done|by constructor]). cbn [mbind res_bind].
    rewrite decide_False by congruence. by destruct o.
Qed.

(** The turn at a name [w] with [t] behind it. *)
Lemma look_run o w t : name_ok w -> (exists c t', t = c :: t' /\ (c = 0 \/ c = SLASH)) ->
  look (o ++ w ++ t) (Z.of_nat (length o)) =
    if decide (w = [DOT]) then
      match t with
      | c :: _ => if c =? 0 then Ret (Name (Z.of_nat (length o) + 1))
                  else src ← skip_slashes (length (o ++ w ++ t)) (o ++ w ++ t) (Z.of_nat (length o) + 2); Ret (Here src)
      | [] => Err OutOfBounds
      end
    else if decide (w = [DOT; DOT]) then
      match t with
      | c :: _ => if c =? 0 then Ret (Up (Z.of_nat (length o) + 2))
                  else src ← skip_slashes (length (o ++ w ++ t)) (o ++ w ++ t) (Z.of_nat (length o) + 3); Ret (Up src)
      | [] => Err OutOfBounds
      end
    else Ret (Name (Z.of_nat (length o))).
Proof.
  intros [Ht Hs] (c & t' & -> & Hc). unfold look.
  assert (H0 : forall a l, idx (o ++ a :: l) (Z.of_nat (length o)) = Ret a) by (intros; by apply idx_middle).
  destruct w as [|c0 w]; cbn [app]; rewrite H0; cbn [mbind res_bind].
  { rewrite !decide_False by done. by destruct Hc as [-> | ->]. }
  destruct (Z.eqb_spec c0 DOT) as [->|H3]; [|rewrite !decide_False by congruence; done].
  assert (H1 : forall a l, idx (o ++ DOT :: a :: l) (Z.of_nat (length o) + 1) = Ret a).
  { intros. replace (o ++ DOT :: a :: l) with ((o ++ [DOT]) ++ a :: l) by (by rewrite <- app_assoc).
    apply idx_middle. rewrite length_app. cbn. lia. }
  assert (H2 : forall a b l, idx (o ++ DOT :: a :: b :: l) (Z.of_nat (length o) + 2) = Ret b).
  { intros. replace (o ++ DOT :: a :: b :: l) with ((o ++ [DOT; a]) ++ b :: l) by (by rewrite <- app_assoc).
    apply idx_middle. rewrite length_app. cbn. lia. }
  destruct w as [|c1 w]; cbn [app]; rewrite H1; cbn [mbind res_bind].
  { rewrite decide_True by done. by destruct Hc as [-> | ->]. }
  apply Forall_cons in Ht as [_ Ht]. apply Forall_cons in Ht as [Ht1 Ht].
  apply Forall_cons in Hs as [_ Hs]. apply Forall_cons in Hs as [Hs1 Hs].
  rewrite (proj2 (Z.eqb_neq _ _) Ht1), (proj2 (Z.eqb_neq _ _) Hs1), decide_False by done.
  destruct (Z.eqb_spec c1 DOT) as [->|H4]; [|by rewrite decide_False by congruence].
  destruct w as [|c2 w]; cbn [app]; rewrite H2; cbn [mbind res_bind].
  { rewrite decide_True by done. by destruct Hc as [-> | ->]. }
  apply Forall_cons in Ht as [Ht2 _]. apply Forall_cons in Hs as [Hs2 _].
  by rewrite (proj2 (Z.eqb_neq _ _) Ht2), (proj2 (Z.eqb_neq _ _) Hs2), decide_False by done.
Qed.

(** A slash behind the copied name; the gap moves on. *)
Lemma put_slash o g x : exists g', length g' = length g /\
  upd (o ++ g ++ SLASH :: x) (Z.of_nat (length o)) SLASH = Ret ((o ++ [SLASH]) ++ g' ++ x).
Proof.
  destruct g as [|y g].
  - exists []. split; [done|]. cbn [app]. rewrite upd_middle by done. by rewrite <- app_assoc.
  - exists (g ++ [SLASH]). split; [rewrite length_app; cbn; lia|].
    cbn [app]. rewrite upd_middle by done. by rewrite <- !app_assoc.
Qed.

Lemma out_text p : place_ok p -> text (out p).
Proof.
  unfold place_ok, out. intros Hp. apply Forall_app. split; [by destruct (rooted p); repeat constructor|].
  apply Forall_concat, Forall_fmap. apply Forall_rev. eapply Forall_impl; [exact Hp|]. cbn.
  intros w [[Hw _] _]. apply Forall_app. split; [done|by constructor].
Qed.

Lemma terminate_place p x : place_ok p -> x <> [] ->
  terminate (out p ++ x) (Z.of_nat (length (out p))) = path_of p.
Proof.
  intros Hp Hx. rewrite terminate_run by (done || by apply out_text). unfold path_of.
  destruct (out_end p) as [-> | (o & ->)]; [done|]. rewrite last_snoc. by destruct o as [|? [|]].
Qed.

Lemma path_snoc p s : out p = s ++ [SLASH] -> s <> [] -> path_of p = Ret (Some s).
Proof.
  unfold path_of. intros -> Hs. destruct s as [|a [|b s]]; [done..|].
  change ((a :: b :: s) ++ [SLASH]) with (a :: b :: s ++ [SLASH]). cbv iota.
  change (a :: b :: s ++ [SLASH]) with ((a :: b :: s) ++ [SLASH]). by rewrite removelast_last.
Qed.

Lemma terminate_name p w x : place_ok p -> name_ok w -> w <> [] -> x <> [] ->
  terminate ((out p ++ w) ++ x) (Z.of_nat (length (out p ++ w))) = path_of (mkPlace (rooted p) (w :: names p)).
Proof.
  intros Hp [Ht Hs] Hw Hx. rewrite terminate_run; [|apply Forall_app; split; [by apply out_text|done]|done].
  rewrite (path_snoc _ (out p ++ w)) by (done || by apply out_push || by destruct (out p)). destruct w as [|c w _] using rev_ind; [done|].
  apply Forall_app in Hs as [_ Hs]. apply Forall_cons in Hs as [Hs _].
  rewrite app_assoc, last_snoc, decide_False by congruence. by destruct (out p ++ w) as [|? [|]].
Qed.

Lemma step_up_run p x : place_ok p ->
  match enter [DOT; DOT] p with
  | None => Z.of_nat (length (out p)) - 1 <? 0 = true
  | Some q => place_ok q /\ Z.of_nat (length (out p)) - 1 <? 0 = false /\ (exists g, out p = out q ++ g) /\
      back_name (length (out p ++ x)) (out p ++ x) (Z.of_nat (length (out p)) - 1) = Ret (Z.of_nat (length (out q)))
  end.
Proof.
  intros Hp. unfold enter. rewrite decide_False by naive_solver. rewrite decide_True by done.
  destruct p as [r [|w ns]].
  - destruct r; [|done]. split_and!; [constructor|done|by exists [SLASH]|done].
  - apply Forall_cons in Hp as [[Hw Hw0] Hns]. cbn [names] in *.
    assert (Ho := out_push (mkPlace r ns) w). cbn [rooted names] in Ho. rewrite Ho. split; [done|].
    assert (Hl : Z.of_nat (length ((out (mkPlace r ns) ++ w) ++ [SLASH])) - 1 = Z.of_nat (length (out (mkPlace r ns) ++ w)))
      by (rewrite (length_app _ [SLASH]); cbn; lia).
    rewrite Hl. split_and!; [apply Z.ltb_ge; lia|exists (w ++ [SLASH]); by rewrite <- app_assoc|].
    rewrite <- !app_assoc. apply back_name_run; [apply Hw|rewrite !length_app; lia|apply out_end].
Qed.
(** One turn after the other: [o] is what the code keeps, [g] the gap to [src],
    [s] what is left to read. *)
Definition resumes (fuel : nat) : Prop := forall p g s buf dst src,
  place_ok p -> text s -> (length s < fuel)%nat -> (forall r, s <> SLASH :: r) ->
  buf = out p ++ g ++ s ++ [0] -> dst = Z.of_nat (length (out p)) -> src = Z.of_nat (length (out p ++ g)) ->
  normalize_loop fuel buf dst src =
    match walk (split s) p with None => Ret None | Some p => path_of p end.

(** The turn at two dots. *)
Lemma loop_up fuel p g s buf src : resumes fuel -> place_ok p -> text s -> (length (unslash s) < fuel)%nat ->
  buf = out p ++ g ++ unslash s ++ [0] -> src = Z.of_nat (length (out p ++ g)) ->
  (if Z.of_nat (length (out p)) - 1 <? 0 then mret None
   else dst ← back_name (length buf) buf (Z.of_nat (length (out p)) - 1); normalize_loop fuel buf dst src) =
    match walk ([DOT; DOT] :: split s) p with None => Ret None | Some p => path_of p end.
Proof.
  intros Hrec Hp Ht Hf -> ->. rewrite walk_cons. assert (Hu := step_up_run p (g ++ unslash s ++ [0]) Hp).
  destruct (enter [DOT; DOT] p) as [q|]; [|by rewrite Hu].
  destruct Hu as (Hq & -> & (g0 & Hg) & ->). cbn [mbind res_bind].
  rewrite <- walk_unslash. eapply (Hrec q (g0 ++ g)); try done.
  - by apply unslash_text.
  - intros r. apply unslash_head.
  - by rewrite Hg, <- !app_assoc.
  - by rewrite Hg, <- !app_assoc.
Qed.

(** The turn at a name that is copied, up to the character that stops it. *)
Lemma loop_name fuel p g w r buf : resumes fuel -> place_ok p -> name_ok w -> text r -> (length r < fuel)%nat ->
  w <> [DOT] -> w <> [DOT; DOT] -> w <> [] -> buf = out p ++ g ++ w ++ SLASH :: r ++ [0] ->
  ('(buf, dst, src, c) ← copy_name (length buf) buf (Z.of_nat (length (out p))) (Z.of_nat (length (out p ++ g)));
   if c =? SLASH then
     buf ← upd buf dst SLASH; src ← skip_slashes (length buf) buf src; normalize_loop fuel buf (dst + 1) src
   else terminate buf dst) =
    match walk (w :: split r) p with None => Ret None | Some p => path_of p end.
Proof.
  intros Hrec Hp Hw Ht Hf H1 H2 H0 ->.
  destruct (copy_run (length (out p ++ g ++ w ++ SLASH :: r ++ [0])) w (out p) g SLASH (r ++ [0]))
    as (g' & Hg' & ->); [done|by right|rewrite !length_app; lia|].
  cbn [mbind res_bind]. rewrite Z.eqb_refl.
  destruct (put_slash (out p ++ w) g' (r ++ [0])) as (g2 & Hg2 & ->). cbn [mbind res_bind].
  assert (Hq : enter w p = Some (mkPlace (rooted p) (w :: names p))).
  { unfold enter. rewrite decide_False by naive_solver. by rewrite decide_False. }
  rewrite walk_cons, Hq, <- out_push. set (q := mkPlace _ _).
  destruct (skip_run (length (out q ++ g2 ++ r ++ [0])) (out q ++ g2) r) as (g3 & Hg3 & Hrun);
    [done|rewrite !length_app; lia|].
  replace (Z.of_nat (length (out p ++ g ++ w)) + 1) with (Z.of_nat (length (out q ++ g2))).
  2: { unfold q. rewrite out_push, !length_app. cbn. lia. }
  rewrite <- app_assoc in Hrun. rewrite Hrun. cbn [mbind res_bind]. rewrite <- walk_unslash.
  assert (Hl : length r = length (g3 ++ unslash r)) by congruence. rewrite length_app in Hl.
  apply (Hrec q (g2 ++ g3)).
  - by apply Forall_cons.
  - by apply unslash_text.
  - lia.
  - intros r'. apply unslash_head.
  - rewrite Hg3 at 1. by rewrite <- !app_assoc.
  - unfold q. rewrite out_push, (length_app _ [SLASH]). cbn. lia.
  - by rewrite <- !app_assoc.
Qed.
(** The turn at the last name. *)
Lemma copy_last o g w buf src : name_ok w ->
  buf = o ++ g ++ w ++ [0] -> src = Z.of_nat (length (o ++ g)) -> exists x src', x <> [] /\
  copy_name (length buf) buf (Z.of_nat (length o)) src = Ret ((o ++ w) ++ x, Z.of_nat (length (o ++ w)), src', 0).
Proof.
  intros Hw -> ->. destruct (copy_run (length (o ++ g ++ w ++ [0])) w o g 0 []) as (g' & _ & ->);
    [done|by left|rewrite !length_app; lia|].
  exists (g' ++ [0]). eexists. split; [by destruct g'|done].
Qed.

(** The slashes behind the dots. *)
Lemma skip_dots o g w r n : text r -> n = Z.of_nat (length w) + 1 -> exists g1,
  r = g1 ++ unslash r /\ length r = (length g1 + length (unslash r))%nat /\
  skip_slashes (length (o ++ g ++ w ++ SLASH :: r ++ [0])) (o ++ g ++ w ++ SLASH :: r ++ [0])
    (Z.of_nat (length (o ++ g)) + n) = Ret (Z.of_nat (length (o ++ g ++ w ++ SLASH :: g1))).
Proof.
  intros Ht ->.
  destruct (skip_run (length (o ++ g ++ w ++ SLASH :: r ++ [0])) (o ++ g ++ w ++ [SLASH]) r) as (g1 & Hg1 & Hrun);
    [done|rewrite !length_app; cbn [length]; rewrite length_app; lia|].
  exists g1. split; [done|]. split; [rewrite Hg1 at 1; by rewrite length_app|].
  rewrite <- !app_assoc in Hrun. cbn [app] in Hrun. rewrite <- Hrun. f_equal. rewrite !length_app. cbn [length]. lia.
Qed.

Lemma resumes_S fuel : resumes fuel -> resumes (S fuel).
Proof.
  intros IH p g s buf dst src Hp Ht Hf Hs -> -> ->.
  destruct (first_name s Ht) as (w & Hw & [-> | (r & -> & Hr)]); cbn [normalize_loop].
  - rewrite (app_assoc (out p)), (look_run (out p ++ g) w [0] Hw), split_last by eauto.
    repeat case_decide; subst; cbn [mbind res_bind Z.eqb].
    + destruct (copy_last (out p) (g ++ [DOT]) [] ((out p ++ g) ++ [DOT] ++ [0])
        (Z.of_nat (length (out p ++ g)) + 1)) as (x & ? & Hx & ->); [by repeat constructor|by rewrite <- !app_assoc| |].
      { rewrite !length_app. cbn. lia. }
      cbn [mbind res_bind]. rewrite app_nil_r. by apply terminate_place.
    + rewrite walk_end. apply (loop_up fuel p (g ++ [DOT; DOT]) []); try done; [constructor|cbn in *; lia|by rewrite <- !app_assoc|].
      rewrite !length_app. cbn [length]. lia.
    + destruct (copy_last (out p) g w ((out p ++ g) ++ w ++ [0])
        (Z.of_nat (length (out p ++ g)))) as (x & ? & Hx & ->); [done|by rewrite <- !app_assoc|done|].
      cbn [mbind res_bind]. rewrite walk_cons. unfold enter. destruct (decide (w = [])) as [->|Hne].
      * rewrite app_nil_r. by apply terminate_place.
      * rewrite !decide_False by naive_solver. by apply terminate_name.
  - rewrite length_app in Hf. cbn [length] in Hf.
    replace (out p ++ g ++ (w ++ SLASH :: r) ++ [0]) with ((out p ++ g) ++ w ++ SLASH :: r ++ [0])
      by (by rewrite <- !app_assoc).
    rewrite (look_run (out p ++ g) w (SLASH :: r ++ [0]) Hw), split_name by eauto.
    rewrite <- !app_assoc. repeat case_decide; subst; cbn [mbind res_bind Z.eqb SLASH] in *.
    + destruct (skip_dots (out p) g [DOT] r 2) as (g1 & Hg1 & Hl & ->); [done..|]. cbn [mbind res_bind].
      rewrite walk_cons. change (enter [DOT] p) with (Some p). cbv iota. rewrite <- walk_unslash. apply (IH p (g ++ [DOT; SLASH] ++ g1)); try done.
      * by apply unslash_text.
      * lia.
      * intros r'. apply unslash_head.
      * rewrite Hg1 at 1. by rewrite <- !app_assoc.
    + destruct (skip_dots (out p) g [DOT; DOT] r 3) as (g1 & Hg1 & Hl & ->); [done..|]. cbn [mbind res_bind].
      apply (loop_up fuel p (g ++ [DOT; DOT; SLASH] ++ g1)); try done; [lia|].
      rewrite Hg1 at 1. by rewrite <- !app_assoc.
    + apply loop_name; try done; [lia|]. intros ->. by apply (Hs r).
Qed.

Lemma loop_resumes fuel : resumes fuel.
Proof.
  induction fuel; [|by apply resumes_S]. intros p g s buf dst src Hp Ht Hf. lia.
Qed.

Lemma normalize_run s : text s -> normalize_loop (S (length s)) (s ++ [0]) 0 0 = resolve s.
Proof.
  intros Ht. unfold resolve. destruct (decide (head s = Some SLASH)) as [Hh|Hh].
  - destruct s as [|c r]; [done|]. injection Hh as ->.
    apply Forall_cons in Ht as [_ Ht]. cbn [length]. remember (S (length r)) as fuel eqn:Ef. cbn [normalize_loop].
    assert (Hl := look_run [] [] ((SLASH :: r) ++ [0])). cbn [app length] in Hl |- *. change (Z.of_nat 0) with 0 in Hl.
    rewrite Hl, !decide_False by (done || (repeat constructor) || (cbn; eauto)). cbn [mbind res_bind].
    destruct (copy_run (S (length (r ++ [0]))) [] [] [] SLASH (r ++ [0])) as (g & Hg & Hrun);
      [by repeat constructor|by right|cbn; lia|].
    destruct g; [|done]. cbn [app length] in Hrun. change (Z.of_nat 0) with 0 in Hrun. rewrite Hrun. cbn [mbind res_bind]. rewrite Z.eqb_refl.
    assert (Hu := upd_middle [] SLASH (r ++ [0]) 0 SLASH). cbn [app length] in Hu. change (Z.of_nat 0) with 0 in *. rewrite Hu by done. cbn [mbind res_bind].
    destruct (skip_run (S (length (r ++ [0]))) [SLASH] r) as (g1 & Hg1 & Hs1);
      [done|cbn; rewrite length_app; lia|]. cbn [app] in Hs1. cbn [Z.add length].
    change (Z.of_nat (length [SLASH])) with (0 + 1) in Hs1. rewrite Hs1. cbn [mbind res_bind].
    assert (Hl1 : length r = length (g1 ++ unslash r)) by congruence. rewrite length_app in Hl1.
    rewrite (loop_resumes fuel (mkPlace true []) g1 (unslash r)); try done.
    + cbn [split]. rewrite Z.eqb_refl, walk_cons.
      change (enter [] (mkPlace true [])) with (Some (mkPlace true [])). cbv iota. by rewrite walk_unslash.
    + constructor.
    + by apply unslash_text.
    + lia.
    + intros r'. apply unslash_head.
    + rewrite Hg1 at 1. by rewrite <- app_assoc.
  - rewrite (loop_resumes (S (length s)) (mkPlace false []) [] s); try done; [|constructor|lia|by intros r ->].
    destruct s as [|c s]; [done|]. by destruct (Z.eqb_spec c SLASH) as [->|].
Qed.

(** *** Canonical paths *)

Definition plain_name (w : list Z) : Prop := name_ok w /\ w <> [] /\ w <> [DOT] /\ w <> [DOT; DOT].

Fixpoint joined (ns : list (list Z)) : list Z :=
  match ns with [] => [] | [w] => w | w :: ns => w ++ SLASH :: joined ns end.

(** The path through the names [ns] from the root. *)
Definition absolute (ns : list (list Z)) : list Z := SLASH :: joined ns.

Lemma joined_snoc ns w : ns <> [] -> joined (ns ++ [w]) = joined ns ++ SLASH :: w.
Proof.
  induction ns as [|v ns IH]; [done|]. intros _. destruct ns as [|u ns]; [done|].
  change (joined ((v :: u :: ns) ++ [w])) with (v ++ SLASH :: joined ((u :: ns) ++ [w])).
  rewrite IH by done. cbn [joined]. by rewrite <- app_assoc.
Qed.

Lemma out_joined ns : ns <> [] -> out (mkPlace true (rev ns)) = absolute ns ++ [SLASH].
Proof.
  induction ns as [|w ns IH] using rev_ind; [done|]. intros _. rewrite rev_app_distr. cbn [rev app].
  rewrite (out_push (mkPlace true (rev ns))). destruct ns as [|v ns]; [done|].
  rewrite IH by done. unfold absolute. rewrite joined_snoc by done. cbn [app]. by rewrite <- !app_assoc.
Qed.

Lemma path_absolute ns : path_of (mkPlace true (rev ns)) = Ret (Some (absolute ns)).
Proof. destruct (decide (ns = [])) as [->|Hne]; [done|]. apply path_snoc; [by apply out_joined|done]. Qed.

Lemma split_joined ns : Forall name_ok ns -> ns <> [] -> split (joined ns) = ns.
Proof.
  induction 1 as [|w ns Hw Hns IH]; [done|]. intros _. destruct ns as [|v ns]; [by apply split_last|].
  change (joined (w :: v :: ns)) with (w ++ SLASH :: joined (v :: ns)). rewrite split_name by done. by rewrite IH.
Qed.

Lemma walk_plain ns p : Forall plain_name ns -> walk ns p = Some (mkPlace (rooted p) (rev ns ++ names p)).
Proof.
  intros H. revert p. induction H as [|w ns (_ & Hw & H1 & H2) _ IH]; intros p; [by destruct p|].
  rewrite walk_cons. unfold enter. rewrite !decide_False by naive_solver. rewrite IH. cbn [rooted names rev].
  by rewrite <- app_assoc.
Qed.

Lemma resolve_absolute ns : Forall plain_name ns -> resolve (absolute ns) = Ret (Some (absolute ns)).
Proof.
  intros Hns. unfold resolve, absolute. rewrite Z.eqb_refl. cbn [split]. rewrite Z.eqb_refl, walk_cons.
  change (enter [] (mkPlace true [])) with (Some (mkPlace true [])). cbv iota. destruct (decide (ns = [])) as [->|Hne]; [done|].
  rewrite split_joined, walk_plain by (done || by eapply Forall_impl; [exact Hns|intros ? []]).
  cbn [rooted names]. rewrite app_nil_r. apply path_absolute.
Qed.

Definition plain_place (p : place) : Prop := Forall plain_name (names p).

Lemma split_ok s : text s -> Forall name_ok (split s).
Proof.
  induction 1 as [|c s Hc _ IH]; [by repeat constructor|]. cbn [split].
  destruct (Z.eqb_spec c SLASH); [by repeat constructor|].
  destruct IH as [|w ws [] Hws]; by repeat constructor.
Qed.

Lemma walk_place ws p q : Forall name_ok ws -> plain_place p -> walk ws p = Some q -> plain_place q.
Proof.
  intros Hws. revert p. induction Hws as [|w ws Hw _ IH]; intros p Hp; [by intros [= <-]|].
  rewrite walk_cons. destruct (enter w p) as [p'|] eqn:E; [|done]. apply IH. revert E. unfold enter, plain_place in *.
  destruct (decide (w = [] \/ w = [DOT])); [by intros [= <-]|]. destruct (decide (w = [DOT; DOT])).
  - destruct p as [r [|v ns]]; cbn [names rooted]; [destruct r|]; intros [= <-]; [constructor|].
    by apply Forall_cons in Hp as [].
  - intros [= <-]. constructor; [|done]. split_and!; naive_solver.
Qed.

Lemma out_head p : plain_place p -> head (out p) = Some SLASH -> rooted p = true.
Proof.
  destruct p as [[] ns]; [done|]. unfold plain_place, out. cbn [names rooted app].
  intros Hp%Forall_rev. destruct (rev ns) as [|w ws]; [done|]. apply Forall_cons in Hp as [([_ Hw] & Hn & _) _].
  destruct w as [|c w]; [done|]. apply Forall_cons in Hw as [Hc _]. cbn. congruence.
Qed.

(** A path from the root that comes out of the resolution. *)
Lemma resolve_canonical s q : text s -> resolve s = Ret (Some q) -> head q = Some SLASH ->
  exists ns, Forall plain_name ns /\ q = absolute ns.
Proof.
  intros Ht. unfold resolve. destruct (walk _ _) as [p|] eqn:E; [|done].
  apply walk_place in E; [|by apply split_ok|constructor]. intros Hq Hh. exists (rev (names p)).
  split; [by apply Forall_rev|]. assert (rooted p = true) as Hr.
  { apply out_head; [done|]. revert Hq. unfold path_of. destruct (out p) as [|c1 [|c2 o]]; [done|..]; intros [= <-]; [done|].
    destruct o; exact Hh. }
  assert (p = mkPlace true (rev (rev (names p)))) as Hp by (rewrite rev_involutive; destruct p; cbn in *; congruence).
  rewrite Hp, path_absolute in Hq. by injection Hq.
Qed.
End buffers.

Lemma normalize_resolves directory filename s : join_path directory filename = Some s -> text s ->
  dfs_normalize_path directory filename = resolve s.
Proof. intros Hj Ht. unfold dfs_normalize_path. rewrite Hj. by apply normalize_run. Qed.

Lemma normalize_absolute directory ns : Forall plain_name ns ->
  dfs_normalize_path directory (absolute ns) = Ret (Some (absolute ns)).
Proof.
  intros Hns. rewrite <- (resolve_absolute ns Hns). apply normalize_resolves; [by destruct directory|].
  constructor; [done|]. induction Hns as [|w ns [[Hw _] _] _ IH]; [constructor|]. cbn [joined].
  destruct ns; [done|]. apply Forall_app. split; [done|by constructor].
Qed.

(** The walk of the code agrees with the reference as long as the path stays below
    the root, and never finds the root again when it has left it. *)
Lemma walk_descend ws ns : 
  match descend ws ns with
  | Some ms => walk ws (mkPlace true ns) = Some (mkPlace true (rev ms))
  | None => forall p, walk ws (mkPlace true ns) = Some p -> rooted p = false
  end.
Proof.
  revert ns. induction ws as [|w ws IH]; intros ns; [by cbn; rewrite rev_involutive|].
  rewrite walk_cons. cbn [descend]. unfold enter. case_decide; [apply IH|]. case_decide; [|apply (IH (w :: ns))].
  cbn [names]. destruct ns as [|v ns]; [|apply IH]. cbn [rooted]. clear. intros p.
  generalize (@nil (list Z)). induction ws as [|w ws IH]; intros ns; [by intros [= <-]|].
  rewrite walk_cons. unfold enter. cbn [names rooted]. repeat case_decide; [apply IH| |apply IH].
  destruct ns; [done|apply IH].
Qed.

Lemma resolve_descend s ns : text s -> head s = Some SLASH -> descend (split s) [] = Some ns ->
  Forall plain_name ns /\ resolve s = Ret (Some (absolute ns)).
Proof.
  intros Ht Hh Hd. assert (Hw := walk_descend (split s) []). rewrite Hd in Hw. split.
  - apply walk_place in Hw; [|by apply split_ok|constructor].
    unfold plain_place in Hw. cbn [names] in Hw. rewrite <- (rev_involutive ns). by apply Forall_rev.
  - unfold resolve. destruct s as [|c s]; [done|]. injection Hh as ->. rewrite Z.eqb_refl, Hw. apply path_absolute.
Qed.

Lemma descend_plain ns ms : Forall plain_name ns -> descend ns ms = Some (rev ms ++ ns).
Proof.
  intros H. revert ms. induction H as [|w ns (_ & Hw & H1 & H2) _ IH]; intros ms; [by rewrite app_nil_r|].
  cbn [descend]. rewrite !decide_False by naive_solver. rewrite IH. cbn [rev]. by rewrite <- app_assoc.
Qed.

Lemma absolute_inj ns ms : Forall plain_name ns -> Forall plain_name ms -> absolute ns = absolute ms -> ns = ms.
Proof.
  intros Hns Hms [= Hj]. assert (He : forall l, Forall plain_name l -> joined l = [] -> l = []).
  { intros l Hl Hn. destruct l as [|w l]; [done|]. apply Forall_cons in Hl as [(_ & Hw & _) _].
    destruct l; cbn in Hn; [done|]. by destruct w. }
  destruct (decide (ns = [])) as [->|Hn]; [symmetry; by apply He|].
  destruct (decide (ms = [])) as [->|Hm]; [by apply He|].
  assert (Hok : forall l, Forall plain_name l -> Forall name_ok l) by (intros l Hl; eapply Forall_impl; [exact Hl|by intros ? []]).
  by rewrite <- (split_joined ns), <- (split_joined ms), Hj by auto.
Qed.

(** ** Properties *)


(** A normalised path that starts at the root is canonical (its names are
    not empty, not dots and free of slashes, with one slash between them), and
    normalising it again, under any directory, gives it back. *)
Theorem dfs_path_canonical directory filename s q : join_path directory filename = Some s -> text s ->
  dfs_normalize_path directory filename = Ret (Some q) -> head q = Some SLASH ->
  (exists ns, Forall plain_name ns /\ q = absolute ns) /\
  forall d, dfs_normalize_path d q = Ret (Some q).
Proof.
  intros Hj Ht Hq Hh. rewrite (normalize_resolves _ _ _ Hj Ht) in Hq.
  destruct (resolve_canonical s q Ht Hq Hh) as (ns & Hns & ->).
  split; [by exists ns|]. intros d. by apply normalize_absolute.
Qed.

(** A path that climbs above the root loses its leading slash, or ends up empty
    and is read in front of its first byte. *)
Example above_root : dfs_normalize_path None (str "/../a") = Ret (Some (str "a")) /\
  dfs_normalize_path None (str "/..") = Err OutOfBounds.
Proof. by vm_compute. Qed.


Lemma dfs_path_canonical_witness :
  dfs_normalize_path None (str "/sd/b") = Ret (Some (str "/sd/b")).
Proof.
  apply (dfs_path_canonical (Some (str "/sd")) (str "a/.././/b/") (str "/sd/a/.././/b/"));
    [reflexivity|unfold text; vm_compute; repeat constructor; discriminate|vm_compute; reflexivity|reflexivity].
Defined.
