(* ===== verification/Dfs.v ===== *)
(** * The device file system

    RTT/components/dfs/src: the tables of dfs.c (file system types, mounted file
    systems, file descriptors), mounting and lookup of dfs_fs.c and the file
    operations of dfs_file.c.  A file system is seen through its table of
    operations, any of which may be missing; what it keeps in [void *data] and
    its medium are parameters.  The configuration is that of rtconfig.h: no
    working directory, no standard streams, two mounts, four descriptors. *)

From S2P Require Import Prelude DfsPath.

Definition DFS_FILESYSTEM_TYPES_MAX : nat := 4.
Definition DFS_FILESYSTEMS_MAX : nat := 2.
Definition DFS_FD_MAX : nat := 4.
Definition DFS_PATH_MAX : Z := 256.

Definition ENOENT : Z := 2.
Definition EIO : Z := 5.
Definition EBADF : Z := 9.
Definition ENOMEM : Z := 12.
Definition EBUSY : Z := 16.
Definition EXDEV : Z := 18.
Definition ENODEV : Z := 19.
Definition ENOTDIR : Z := 20.
Definition EINVAL : Z := 22.
Definition ENOSPC : Z := 28.
Definition ENOSYS : Z := 38.

Definition O_RDONLY : Z := 0x0.
Definition O_WRONLY : Z := 0x1.
Definition O_RDWR : Z := 0x2.
Definition O_CREAT : Z := 0x100.
Definition O_TRUNC : Z := 0x1000.
Definition O_APPEND : Z := 0x2000.
Definition O_DIRECTORY : Z := 0x200000.
Definition DFS_F_OPEN : Z := 0x01000000.
Definition DFS_F_DIRECTORY : Z := 0x02000000.
Definition DFS_F_EOF : Z := 0x04000000.
Definition FT_REGULAR : Z := 0.
Definition FT_DIRECTORY : Z := 2.

(** The mode bits: a regular file or a directory, readable and writable by all;
    a directory can be searched by all. *)
Definition S_IFREG : Z := 0x8000.
Definition S_IFDIR : Z := 0x4000.
Definition S_RW : Z := 0x1b6.
Definition S_X : Z := 0x49.

Record stat_buf := mkStat { st_dev : Z; st_mode : Z; st_size : Z; st_mtime : Z; st_blksize : Z }.
Record statfs_buf := mkStatfs { f_bsize : Z; f_blocks : Z; f_bfree : Z }.
Record dirent := mkDirent { d_type : Z; d_namlen : Z; d_reclen : Z; d_name : list Z }.
Definition DIRENT_SIZE : Z := 260.         (**r sizeof(struct dirent) *)

Section dfs.
(** The medium of the file systems, and what their data pointers refer to. *)
Context {D V : Type}.

(** [fs_ops] is the address of the table of operations. *)
Record dfs_filesystem := mkFs {
  fs_dev : option Z; fs_path : option (list Z); fs_ops : option nat; fs_data : option V
}.

(** [fd_fs] is an index into the table of mounted file systems. *)
Record dfs_fd := mkFd {
  fd_path : option (list Z); fd_type : Z; fd_ref : Z; fd_fs : option nat;
  fd_flags : Z; fd_size : Z; fd_pos : Z; fd_data : option V
}.

(** What [rt_memset] leaves of them. *)
Definition no_fs : dfs_filesystem := mkFs None None None None.
Definition no_fd : dfs_fd := mkFd None 0 0 None 0 0 0 None.

Definition with_fd_flags d x := mkFd (fd_path d) (fd_type d) (fd_ref d) (fd_fs d) x (fd_size d) (fd_pos d) (fd_data d).
Definition with_ref d x := mkFd (fd_path d) (fd_type d) x (fd_fs d) (fd_flags d) (fd_size d) (fd_pos d) (fd_data d).
Definition with_pos d x := mkFd (fd_path d) (fd_type d) (fd_ref d) (fd_fs d) (fd_flags d) (fd_size d) x (fd_data d).
Definition with_path d x := mkFd x (fd_type d) (fd_ref d) (fd_fs d) (fd_flags d) (fd_size d) (fd_pos d) (fd_data d).
Definition with_type d x := mkFd (fd_path d) x (fd_ref d) (fd_fs d) (fd_flags d) (fd_size d) (fd_pos d) (fd_data d).

(** An operation gets the mounted file system it works for, and returns what
    it makes of the objects it is handed. *)
Record dfs_filesystem_operation := mkOps {
  op_name : list Z;
  op_mount : option (dfs_filesystem -> Z -> option V -> D -> res (Z * dfs_filesystem * D));
  op_unmount : option (dfs_filesystem -> D -> res (Z * dfs_filesystem * D));
  op_mkfs : option (list Z -> D -> res (Z * D));
  op_statfs : option (dfs_filesystem -> statfs_buf -> D -> res (Z * statfs_buf * D));
  op_open : option (dfs_filesystem -> dfs_fd -> D -> res (Z * dfs_fd * D));
  op_close : option (dfs_filesystem -> dfs_fd -> D -> res (Z * dfs_fd * D));
  op_ioctl : option (dfs_filesystem -> dfs_fd -> Z -> Z -> D -> res (Z * dfs_fd * D));
  op_read : option (dfs_filesystem -> dfs_fd -> list Z -> Z -> D -> res (Z * dfs_fd * list Z * D));
  op_write : option (dfs_filesystem -> dfs_fd -> list Z -> Z -> D -> res (Z * dfs_fd * D));
  op_flush : option (dfs_filesystem -> dfs_fd -> D -> res (Z * dfs_fd * D));
  op_lseek : option (dfs_filesystem -> dfs_fd -> Z -> D -> res (Z * dfs_fd * D));
  op_getdents : option (dfs_filesystem -> dfs_fd -> list dirent -> Z -> D -> res (Z * dfs_fd * list dirent * D));
  op_unlink : option (dfs_filesystem -> option (list Z) -> D -> res (Z * D));
  op_stat : option (dfs_filesystem -> option (list Z) -> stat_buf -> D -> res (Z * stat_buf * D));
  op_rename : option (dfs_filesystem -> option (list Z) -> option (list Z) -> D -> res (Z * D))
}.

(** Calls of the kernel's device interface. *)
Inductive dev_call := DevOpen (dev : Z) | DevClose (dev : Z).

(** The tables, how often the lock is held, the last error, the heap blocks in
    use, the device calls made, the output, the descriptor of the shell's
    commands and the medium. *)
Record dfs := mkDfs {
  filesystem_operation_table : list (option nat);
  filesystem_table : list dfs_filesystem;
  fd_table : list dfs_fd;
  fslock : Z;
  errno : Z;
  blocks : Z;
  devs : list dev_call;
  output : list Z;
  shell_fd : dfs_fd;
  medium : D
}.

Definition with_types s x := mkDfs x (filesystem_table s) (fd_table s) (fslock s) (errno s) (blocks s) (devs s) (output s) (shell_fd s) (medium s).
Definition with_mounts s x := mkDfs (filesystem_operation_table s) x (fd_table s) (fslock s) (errno s) (blocks s) (devs s) (output s) (shell_fd s) (medium s).
Definition with_fds s x := mkDfs (filesystem_operation_table s) (filesystem_table s) x (fslock s) (errno s) (blocks s) (devs s) (output s) (shell_fd s) (medium s).
Definition with_lock s x := mkDfs (filesystem_operation_table s) (filesystem_table s) (fd_table s) x (errno s) (blocks s) (devs s) (output s) (shell_fd s) (medium s).
Definition with_errno s x := mkDfs (filesystem_operation_table s) (filesystem_table s) (fd_table s) (fslock s) x (blocks s) (devs s) (output s) (shell_fd s) (medium s).
Definition with_blocks s x := mkDfs (filesystem_operation_table s) (filesystem_table s) (fd_table s) (fslock s) (errno s) x (devs s) (output s) (shell_fd s) (medium s).
Definition with_devs s x := mkDfs (filesystem_operation_table s) (filesystem_table s) (fd_table s) (fslock s) (errno s) (blocks s) x (output s) (shell_fd s) (medium s).
Definition with_output s x := mkDfs (filesystem_operation_table s) (filesystem_table s) (fd_table s) (fslock s) (errno s) (blocks s) (devs s) x (shell_fd s) (medium s).
Definition with_shell_fd s x := mkDfs (filesystem_operation_table s) (filesystem_table s) (fd_table s) (fslock s) (errno s) (blocks s) (devs s) (output s) x (medium s).
Definition with_medium s x := mkDfs (filesystem_operation_table s) (filesystem_table s) (fd_table s) (fslock s) (errno s) (blocks s) (devs s) (output s) (shell_fd s) x.

Abbreviation M := (ST dfs).

(** The file systems' tables of operations by address; the devices by name; the
    heap holds at most [mem] blocks of these components. *)
Context (driver : nat -> dfs_filesystem_operation) (device_find : list Z -> option Z) (mem : Z).

Definition rt_malloc : M bool :=
  s ← get;
  if blocks s <? mem then _ ← modify (fun s => with_blocks s (blocks s + 1)); mret true else mret false.
Definition rt_free : M unit := modify (fun s => with_blocks s (blocks s - 1)).
Definition rt_set_errno (e : Z) : M unit := modify (fun s => with_errno s e).
Definition rt_kprintf (t : list Z) : M unit := modify (fun s => with_output s (output s ++ t)).

(** ** dfs.c *)

Definition dfs_lock : M unit := modify (fun s => with_lock s (fslock s + 1)).
Definition dfs_unlock : M unit := modify (fun s => with_lock s (fslock s - 1)).

Definition dfs_init : M unit :=
  modify (fun s => mkDfs (replicate DFS_FILESYSTEM_TYPES_MAX None) (replicate DFS_FILESYSTEMS_MAX no_fs)
    (replicate DFS_FD_MAX no_fd) 0 (errno s) (blocks s) (devs s) (output s) (shell_fd s) (medium s)).

(** The loops that look for a free entry. *)
Fixpoint first_index {A} (p : A -> bool) (l : list A) : nat :=
  match l with [] => O | x :: l => if p x then O else S (first_index p l) end.

Definition set_fd (i : nat) (d : dfs_fd) : M unit := modify (fun s => with_fds s (<[i := d]> (fd_table s))).
Definition get_fd (i : nat) : M dfs_fd :=
  s ← get; match fd_table s !! i with Some d => mret d | None => lift (Err OutOfBounds) end.

Definition fd_new : M Z :=
  _ ← dfs_lock;
  s ← get;
  let i := first_index (fun d => fd_ref d <=? 0) (fd_table s) in
  r ← (if (i =? DFS_FD_MAX)%nat then mret (-1)
       else d ← get_fd i; _ ← set_fd i (with_ref d 1); mret (Z.of_nat i));
  _ ← dfs_unlock;
  mret r.

(** A pointer to an entry is its index. *)
Definition fd_get (fd : Z) : M (option nat) :=
  if (fd <? 0) || (Z.of_nat DFS_FD_MAX <=? fd) then mret None
  else
    _ ← dfs_lock;
    d ← get_fd (Z.to_nat fd);
    _ ← set_fd (Z.to_nat fd) (with_ref d (fd_ref d + 1));
    _ ← dfs_unlock;
    mret (Some (Z.to_nat fd)).

Definition fd_put (i : nat) : M unit :=
  _ ← dfs_lock;
  d ← get_fd i;
  _ ← set_fd i (if fd_ref d - 1 =? 0 then no_fd else with_ref d (fd_ref d - 1));
  dfs_unlock.

(** A path on the heap; the code works on what [rt_malloc] returns without
    looking at it. *)
Definition normalize (directory : option (list Z)) (filename : list Z) : M (option (list Z)) :=
  match join_path directory filename with
  | None => mret None
  | Some _ =>
      ok ← rt_malloc;
      if negb ok then lift (Err NullDeref)
      else
        p ← lift (dfs_normalize_path directory filename);
        _ ← (match p with None => rt_free | Some _ => mret tt end);
        mret p
  end.

(** ** dfs_fs.c: lookup *)

(** [strncmp (a, b, strlen (a)) == 0] *)
Definition starts (a b : list Z) : bool := bool_decide (take (length a) b = a).

(** One turn of the loop; [found] is the entry and the length of its path. *)
Definition lookup_turn (path : list Z) (f : dfs_filesystem) (i : nat) (found : option nat * nat) : option nat * nat :=
  match fs_path f with
  | None => found
  | Some p =>
      if (length p <? snd found)%nat then found
      else if bool_decide (fs_ops f <> None) && starts p path then
        if (1 <? length p)%nat && (length p <? length path)%nat &&
           bool_decide (path !! length p <> Some SLASH)
        then found else (Some i, length p)
      else found
  end.

Fixpoint lookup_loop (path : list Z) (l : list dfs_filesystem) (i : nat) (found : option nat * nat) : option nat * nat :=
  match l with [] => found | f :: l => lookup_loop path l (S i) (lookup_turn path f i found) end.

Definition dfs_filesystem_lookup (path : list Z) : M (option nat) :=
  _ ← dfs_lock;
  s ← get;
  let r := fst (lookup_loop path (filesystem_table s) 0 (None, O)) in
  _ ← dfs_unlock;
  mret r.

(** [fs->ops] of a pointer that may be null. *)
Definition get_fs (i : option nat) : M dfs_filesystem :=
  s ← get;
  match i with
  | Some i => match filesystem_table s !! i with Some f => mret f | None => lift (Err OutOfBounds) end
  | None => lift (Err NullDeref)
  end.
Definition ops_of (f : dfs_filesystem) : M dfs_filesystem_operation :=
  match fs_ops f with Some o => mret (driver o) | None => lift (Err NullDeref) end.

(** Calls of operations. *)
Definition on_medium {A} (op : D -> res (A * D)) : M A :=
  s ← get;
  '(a, d) ← lift (op (medium s));
  _ ← modify (fun s => with_medium s d);
  mret a.

(** [fs->path] as a string. *)
Definition path_str (f : dfs_filesystem) : M (list Z) :=
  match fs_path f with Some p => mret p | None => lift (Err NullDeref) end.

(** ** dfs.c: open files *)

Fixpoint open_loop (l : list dfs_fd) (i : nat) (mountpath : list Z) : res bool :=
  match l with
  | [] => mret false
  | d :: l =>
      if bool_decide (fd_fs d = Some i) then
        match fd_path d with
        | None => Err NullDeref
        | Some p => if bool_decide (p = mountpath) then mret true else open_loop l i mountpath
        end
      else open_loop l i mountpath
  end.

Definition fd_is_open (pathname : list Z) : M Z :=
  fullpath ← normalize None pathname;
  match fullpath with
  | None => mret (-1)
  | Some fullpath =>
      fs ← dfs_filesystem_lookup fullpath;
      match fs with
      | None => _ ← rt_free; mret (-1)
      | Some i =>
          f ← get_fs (Some i);
          p ← path_str f;
          let mountpath := if bool_decide (p = [SLASH]) then fullpath else drop (length p) fullpath in
          _ ← dfs_lock;
          s ← get;
          found ← lift (open_loop (fd_table s) i mountpath);
          _ ← (if (found : bool) then (_ ← rt_free; dfs_unlock) else (_ ← dfs_unlock; rt_free));
          mret (if (found : bool) then 0 else -1)
      end
  end.

(** ** dfs_file.c

    The descriptor an operation is handed is an argument and part of the
    result. *)

Definition subdir (f : dfs_filesystem) (fullpath : list Z) : M (option (list Z)) :=
  p ← path_str f; lift (dfs_subdir p fullpath).

(** [rt_strdup]; what it copies exists. *)
Definition rt_strdup (p : list Z) : M (option (list Z)) := ok ← rt_malloc; mret (if ok : bool then Some p else None).

(** [rt_free] of a path that may be null. *)
Definition free_path (p : option (list Z)) : M unit := match p with Some _ => rt_free | None => mret tt end.

Definition dfs_file_open (fd : dfs_fd) (path : list Z) (flags : Z) : M (Z * dfs_fd) :=
  fullpath ← normalize None path;
  match fullpath with
  | None => mret (-1, fd)
  | Some fullpath =>
      fs ← dfs_filesystem_lookup fullpath;
      match fs with
      | None => _ ← rt_free; mret (- ENOENT, fd)
      | Some i =>
          f ← get_fs (Some i);
          sub ← subdir f fullpath;
          p ← rt_strdup (match sub with None => [SLASH] | Some p => p end);
          _ ← rt_free;
          let fd := mkFd p FT_REGULAR (fd_ref fd) (Some i) flags 0 0 (fd_data fd) in
          o ← ops_of f;
          match op_open o with
          | None => _ ← free_path (fd_path fd); mret (- ENOSYS, no_fd)
          | Some open =>
              '(result, fd) ← on_medium (open f fd);
              if result <? 0 then _ ← free_path (fd_path fd); mret (result, no_fd)
              else
                let fd := with_fd_flags fd (Z.lor (fd_flags fd) DFS_F_OPEN) in
                mret (0, if negb (Z.land flags O_DIRECTORY =? 0)
                         then with_fd_flags (with_type fd FT_DIRECTORY) (Z.lor (fd_flags fd) DFS_F_DIRECTORY)
                         else fd)
          end
      end
  end.

(** The operations of the file system a descriptor is open in. *)
Definition fd_ops (fd : dfs_fd) : M (dfs_filesystem * dfs_filesystem_operation) :=
  f ← get_fs (fd_fs fd); o ← ops_of f; mret (f, o).

Definition dfs_file_close (fd : dfs_fd) : M (Z * dfs_fd) :=
  '(f, o) ← fd_ops fd;
  '(result, fd) ← (match op_close o with
                   | Some close => on_medium (close f fd)
                   | None => mret (0, fd)
                   end);
  if result <? 0 then mret (result, fd)
  else _ ← free_path (fd_path fd); mret (result, no_fd).

Definition dfs_file_ioctl (fd : dfs_fd) (cmd args : Z) : M (Z * dfs_fd) :=
  if negb (fd_type fd =? FT_REGULAR) then mret (- EINVAL, fd)
  else
    '(f, o) ← fd_ops fd;
    match op_ioctl o with
    | Some ioctl => on_medium (ioctl f fd cmd args)
    | None => mret (- ENOSYS, fd)
    end.

Definition dfs_file_read (fd : dfs_fd) (buf : list Z) (len : Z) : M (Z * dfs_fd * list Z) :=
  '(f, o) ← fd_ops fd;
  match op_read o with
  | None => mret (- ENOSYS, fd, buf)
  | Some read =>
      '(result, fd, buf) ← on_medium (read f fd buf len);
      mret (result, if result <? 0 then with_fd_flags fd (Z.lor (fd_flags fd) DFS_F_EOF) else fd, buf)
  end.

Definition dfs_file_getdents (fd : dfs_fd) (dirp : list dirent) (nbytes : Z) : M (Z * dfs_fd * list dirent) :=
  if negb (fd_type fd =? FT_DIRECTORY) then mret (- EINVAL, fd, dirp)
  else
    '(f, o) ← fd_ops fd;
    match op_getdents o with
    | Some getdents => on_medium (getdents f fd dirp nbytes)
    | None => mret (- ENOSYS, fd, dirp)
    end.

Definition dfs_file_unlink (path : list Z) : M Z :=
  fullpath ← normalize None path;
  match fullpath with
  | None => mret (- EINVAL)
  | Some fullpath =>
      fs ← dfs_filesystem_lookup fullpath;
      result ← (match fs with
                | None => mret (- ENOENT)
                | Some i =>
                    busy ← fd_is_open fullpath;
                    if busy =? 0 then mret (- EBUSY)
                    else
                      f ← get_fs (Some i);
                      o ← ops_of f;
                      match op_unlink o with
                      | None => mret (- ENOSYS)
                      | Some unlink =>
                          sub ← subdir f fullpath;
                          on_medium (unlink f (Some (match sub with None => [SLASH] | Some p => p end)))
                      end
                end);
      _ ← rt_free;
      mret result
  end.

Definition dfs_file_write (fd : dfs_fd) (buf : list Z) (len : Z) : M (Z * dfs_fd) :=
  '(f, o) ← fd_ops fd;
  match op_write o with
  | None => mret (- ENOSYS, fd)
  | Some write => on_medium (write f fd buf len)
  end.

Definition dfs_file_flush (fd : dfs_fd) : M (Z * dfs_fd) :=
  '(f, o) ← fd_ops fd;
  match op_flush o with
  | None => mret (- ENOSYS, fd)
  | Some flush => on_medium (flush f fd)
  end.

Definition dfs_file_lseek (fd : dfs_fd) (offset : Z) : M (Z * dfs_fd) :=
  '(f, o) ← fd_ops fd;
  match op_lseek o with
  | None => mret (- ENOSYS, fd)
  | Some lseek =>
      '(result, fd) ← on_medium (lseek f fd offset);
      mret (result, if 0 <=? result then with_pos fd result else fd)
  end.

(** The root of a file system. *)
Definition root_stat : stat_buf := mkStat 0 (Z.lor S_RW (Z.lor S_IFDIR S_X)) 0 0 512.

Definition dfs_file_stat (path : list Z) (buf : stat_buf) : M (Z * stat_buf) :=
  fullpath ← normalize None path;
  match fullpath with
  | None => mret (-1, buf)
  | Some fullpath =>
      fs ← dfs_filesystem_lookup fullpath;
      match fs with
      | None => _ ← rt_free; mret (- ENOENT, buf)
      | Some i =>
          f ← get_fs (Some i);
          sub ← subdir f fullpath;
          if bool_decide (fullpath = [SLASH]) || bool_decide (sub = None) then _ ← rt_free; mret (0, root_stat)
          else
            o ← ops_of f;
            match op_stat o with
            | None => _ ← rt_free; mret (- ENOSYS, buf)
            | Some stat =>
                '(result, buf) ← on_medium (stat f sub buf);
                _ ← rt_free;
                mret (result, buf)
            end
      end
  end.

Definition dfs_file_rename (oldpath newpath : list Z) : M Z :=
  oldfullpath ← normalize None oldpath;
  match oldfullpath with
  | None => mret (- ENOENT)
  | Some oldfullpath =>
      newfullpath ← normalize None newpath;
      match newfullpath with
      | None => _ ← rt_free; mret (- ENOENT)
      | Some newfullpath =>
          oldfs ← dfs_filesystem_lookup oldfullpath;
          newfs ← dfs_filesystem_lookup newfullpath;
          result ← (if bool_decide (oldfs = newfs) then
                      f ← get_fs oldfs;
                      o ← ops_of f;
                      match op_rename o with
                      | None => mret (- ENOSYS)
                      | Some rename =>
                          p ← subdir f oldfullpath;
                          q ← subdir f newfullpath;
                          on_medium (rename f p q)
                      end
                    else mret (- EXDEV));
          _ ← rt_free;
          _ ← rt_free;
          mret result
      end
  end.

(** ** dfs_fs.c *)

Definition same_name (name : list Z) (o : option nat) : bool :=
  match o with Some o => bool_decide (op_name (driver o) = name) | None => false end.

Definition dfs_register (ops : nat) : M Z :=
  _ ← dfs_lock;
  s ← get;
  let l := filesystem_operation_table s in
  let i := first_index (fun o => bool_decide (o = None)) l in
  result ← (if existsb (same_name (op_name (driver ops))) l then mret (-1)
            else if (i =? DFS_FILESYSTEM_TYPES_MAX)%nat then mret (-1)
            else _ ← modify (fun s => with_types s (<[i := Some ops]> (filesystem_operation_table s))); mret 0);
  _ ← dfs_unlock;
  mret result.

(** The search of [dfs_mount] compares names without looking for empty
    entries. *)
Fixpoint find_type (name : list Z) (l : list (option nat)) : res (option nat) :=
  match l with
  | [] => mret None
  | None :: _ => Err NullDeref
  | Some o :: l => if bool_decide (op_name (driver o) = name) then mret (Some o) else find_type name l
  end.

Definition set_fs (i : nat) (f : dfs_filesystem) : M unit :=
  modify (fun s => with_mounts s (<[i := f]> (filesystem_table s))).
Definition dev_call_ (c : dev_call) : M unit := modify (fun s => with_devs s (devs s ++ [c])).
Definition close_device (d : option Z) : M unit :=
  match d with Some d => dev_call_ (DevClose d) | None => mret tt end.

(** A failed mount: the error, if one is set, and the result. *)
Definition fail (e : option Z) : M Z :=
  _ ← (match e with Some e => rt_set_errno (- e) | None => mret tt end); mret (-1).

(** The part of [dfs_mount] that opens the mount point; [junk] is the
    uninitialised descriptor on the stack. *)
Definition probe (junk : dfs_fd) (fullpath : list Z) : M bool :=
  if bool_decide (fullpath = [SLASH]) || bool_decide (fullpath = str "/dev") then mret true
  else
    '(r, fd) ← dfs_file_open junk fullpath (Z.lor O_RDONLY O_DIRECTORY);
    if r <? 0 then mret false else _ ← dfs_file_close fd; mret true.

(** Whether a file system is mounted at [path], as the code compares it. *)
Fixpoint mounted (path : list Z) (l : list dfs_filesystem) : res bool :=
  match l with
  | [] => mret false
  | f :: l =>
      match fs_ops f, fs_path f with
      | Some _, Some p => if bool_decide (p = path) then mret true else mounted path l
      | Some _, None => Err NullDeref
      | None, _ => mounted path l
      end
  end.

(** The part of [dfs_mount] that calls the file system in entry [i]. *)
Definition call_mount (i : nat) (ops : nat) (dev : option Z) (rwflag : Z) (data : option V) : M Z :=
  _ ← (match dev with Some d => dev_call_ (DevOpen d) | None => mret tt end);
  match op_mount (driver ops) with
  | None =>
      _ ← close_device dev;
      _ ← dfs_lock;
      _ ← set_fs i no_fs;
      _ ← dfs_unlock;
      _ ← rt_free;
      fail (Some ENOSYS)
  | Some mount =>
      f ← get_fs (Some i);
      '(result, f) ← on_medium (mount f rwflag data);
      _ ← set_fs i f;
      if result <? 0 then
        _ ← close_device (fs_dev f);
        _ ← dfs_lock;
        _ ← set_fs i no_fs;
        _ ← dfs_unlock;
        _ ← rt_free;
        fail None
      else mret 0
  end.

(** The part of [dfs_mount] behind the search for the type. *)
Definition mount_at (junk : dfs_fd) (dev : option Z) (path : list Z) (ops : nat) (rwflag : Z) (data : option V) : M Z :=
  fullpath ← normalize None path;
  match fullpath with
  | None => fail (Some ENOTDIR)
  | Some fullpath =>
      ok ← probe junk fullpath;
      if negb ok then _ ← rt_free; fail (Some ENOTDIR)
      else
        _ ← dfs_lock;
        s ← get;
        used ← lift (mounted path (filesystem_table s));
        let i := first_index (fun f => bool_decide (fs_ops f = None)) (filesystem_table s) in
        if (used : bool) then
          _ ← rt_set_errno (- EINVAL); _ ← dfs_unlock; _ ← rt_free; mret (-1)
        else if (i =? DFS_FILESYSTEMS_MAX)%nat then
          _ ← rt_set_errno (- ENOSPC); _ ← dfs_unlock; _ ← rt_free; mret (-1)
        else
          f ← get_fs (Some i);
          _ ← set_fs i (mkFs dev (Some fullpath) (Some ops) (fs_data f));
          _ ← dfs_unlock;
          call_mount i ops dev rwflag data
  end.

Definition dfs_mount (junk : dfs_fd) (device_name : option (list Z)) (path filesystemtype : list Z)
    (rwflag : Z) (data : option V) : M Z :=
  let dev := d ← device_name; device_find d in
  if bool_decide (device_name <> None) && bool_decide (dev = None) then fail (Some ENODEV)
  else
    _ ← dfs_lock;
    s ← get;
    t ← lift (find_type filesystemtype (filesystem_operation_table s));
    match t with
    | None => _ ← rt_set_errno (- ENODEV); _ ← dfs_unlock; mret (-1)
    | Some ops => _ ← dfs_unlock; mount_at junk dev path ops rwflag data
    end.

Definition dfs_unmount (specialfile : list Z) : M Z :=
  fullpath ← normalize None specialfile;
  match fullpath with
  | None => fail (Some ENOTDIR)
  | Some fullpath =>
      _ ← dfs_lock;
      i ← dfs_filesystem_lookup fullpath;
      result ← (match i with
                | None => mret 0
                | Some _ =>
                    f ← get_fs i;
                    o ← ops_of f;
                    match op_unmount o with
                    | None => mret 0
                    | Some unmount =>
                        '(result, f) ← on_medium (unmount f);
                        _ ← (match i with Some i => set_fs i f | None => mret tt end);
                        mret result
                    end
                end);
      if result <? 0 then _ ← dfs_unlock; _ ← rt_free; mret (-1)
      else
        f ← get_fs i;
        _ ← close_device (fs_dev f);
        _ ← free_path (fs_path f);
        _ ← (match i with Some i => set_fs i no_fs | None => mret tt end);
        _ ← dfs_unlock;
        _ ← rt_free;
        mret 0
  end.

(** A type without [mkfs] leaves through the second release of the lock. *)
Definition dfs_mkfs (fs_name device_name : list Z) : M Z :=
  _ ← dfs_lock;
  s ← get;
  match list_find (fun o => same_name fs_name o = true) (filesystem_operation_table s) with
  | Some (_, Some o) =>
      _ ← dfs_unlock;
      match op_mkfs (driver o) with
      | Some mkfs => on_medium (mkfs device_name)
      | None => _ ← dfs_unlock; mret (-1)
      end
  | _ => _ ← dfs_unlock; mret (-1)
  end.

Definition dfs_statfs (path : list Z) (buffer : statfs_buf) : M (Z * statfs_buf) :=
  i ← dfs_filesystem_lookup path;
  match i with
  | None => mret (-1, buffer)
  | Some _ =>
      f ← get_fs i;
      o ← ops_of f;
      match op_statfs o with
      | Some statfs => on_medium (statfs f buffer)
      | None => mret (-1, buffer)
      end
  end.
End dfs.

(** ** Partitions

    [dfs_filesystem_get_partition]: the entry [pindex] of the partition table in a
    boot sector, as type, offset and size; the offset is signed. *)
Record dfs_partition := mkPart { part_type : Z; part_offset : Z; part_size : Z }.

Definition DPT_ADDRESS : Z := 0x1be.
Definition DPT_ITEM_SIZE : Z := 16.

Definition le32 (buf : list Z) (i : Z) : res Z :=
  a ← idx buf i; b ← idx buf (i + 1); c ← idx buf (i + 2); d ← idx buf (i + 3);
  mret (Z.lor (Z.lor (Z.lor a (Z.shiftl b 8)) (Z.shiftl c 16)) (Z.shiftl d 24)).

Definition dfs_filesystem_get_partition (part : dfs_partition) (buf : list Z) (pindex : Z) : res (Z * dfs_partition) :=
  let dpt := DPT_ADDRESS + pindex * DPT_ITEM_SIZE in
  status ← idx buf dpt;
  if negb (status =? 0x80) && negb (status =? 0) then mret (-1, part)
  else
    type ← idx buf (dpt + 4);
    if type =? 0 then mret (-1, part)
    else
      offset ← le32 buf (dpt + 8);
      size ← le32 buf (dpt + 12);
      mret (0, mkPart type (s32 offset) size).

Arguments dfs_filesystem V : clear implicits.
Arguments dfs_fd V : clear implicits.
Arguments dfs_filesystem_operation D V : clear implicits.
Arguments dfs D V : clear implicits.
