(* ===== verification/DfsPosix.v ===== *)
(** * Files by descriptor, and the shell's file commands

    RTT/components/dfs/src/dfs_posix.c over the descriptor table of [Dfs], and the
    commands of dfs_file.c and dfs_fs.c ([ls], [cat], [copy], ...). *)

From stdpp Require Import pretty.
From S2P Require Import Prelude DfsPath Dfs.

Section posix.
Context {D V : Type}.
Context (driver : nat -> dfs_filesystem_operation D V) (mem : Z).
Abbreviation M := (ST (dfs D V)).

(** The table's entry behind a pointer that [fd_get] returned, handed to an
    operation and written back. *)
Definition on_fd {A} (i : nat) (op : dfs_fd V -> M (A * dfs_fd V)) : M A :=
  d ← get_fd i; '(a, d) ← op d; _ ← set_fd i d; mret a.

(** The result of a call that failed. *)
Definition failed (e : Z) : M Z := _ ← rt_set_errno e; mret (-1).

(** ** Files *)

Definition open (file : list Z) (flags : Z) : M Z :=
  fd ← fd_new;
  if fd <? 0 then failed (- ENOMEM)
  else
    d ← fd_get fd;
    match d with
    | None => lift (Err NullDeref)
    | Some d =>
        result ← on_fd d (fun fd => dfs_file_open driver mem fd file flags);
        if result <? 0 then _ ← fd_put d; _ ← fd_put d; failed result
        else _ ← fd_put d; mret fd
    end.

Definition close (fd : Z) : M Z :=
  d ← fd_get fd;
  match d with
  | None => failed (- EBADF)
  | Some d =>
      result ← on_fd d (dfs_file_close driver);
      _ ← fd_put d;
      if result <? 0 then failed result else _ ← fd_put d; mret 0
  end.

Definition read (fd : Z) (buf : list Z) (len : Z) : M (Z * list Z) :=
  d ← fd_get fd;
  match d with
  | None => r ← failed (- EBADF); mret (r, buf)
  | Some d =>
      '(result, buf) ← on_fd d (fun fd => '(r, fd, b) ← dfs_file_read driver fd buf len; mret ((r, b), fd));
      _ ← fd_put d;
      r ← (if result <? 0 then failed result else mret result);
      mret (r, buf)
  end.

Definition write (fd : Z) (buf : list Z) (len : Z) : M Z :=
  d ← fd_get fd;
  match d with
  | None => failed (- EBADF)
  | Some d =>
      result ← on_fd d (fun fd => dfs_file_write driver fd buf len);
      _ ← fd_put d;
      if result <? 0 then failed result else mret result
  end.

(** A bad origin or a negative position leaves without [fd_put]. *)
Definition lseek (fd offset whence : Z) : M Z :=
  d ← fd_get fd;
  match d with
  | None => failed (- EBADF)
  | Some d =>
      e ← get_fd d;
      let target :=
        if whence =? 0 then Some offset
        else if whence =? 1 then Some (s32 (offset + fd_pos e))
        else if whence =? 2 then Some (s32 (offset + fd_size e))
        else None in
      match target with
      | None => failed (- EINVAL)
      | Some offset =>
          if offset <? 0 then failed (- EINVAL)
          else
            result ← on_fd d (fun fd => dfs_file_lseek driver fd offset);
            _ ← fd_put d;
            if result <? 0 then failed result else mret offset
      end
  end.

Definition rename (old new : list Z) : M Z :=
  result ← dfs_file_rename driver mem old new;
  if result <? 0 then failed result else mret 0.

Definition unlink (pathname : list Z) : M Z :=
  result ← dfs_file_unlink driver mem pathname;
  if result <? 0 then failed result else mret 0.

Definition stat (file : list Z) (buf : stat_buf) : M (Z * stat_buf) :=
  '(result, buf) ← dfs_file_stat driver mem file buf;
  r ← (if result <? 0 then failed result else mret result);
  mret (r, buf).

Definition fstat (fildes : Z) (buf : stat_buf) : M (Z * stat_buf) :=
  d ← fd_get fildes;
  match d with
  | None => r ← failed (- EBADF); mret (r, buf)
  | Some d =>
      e ← get_fd d;
      let mode := Z.lor S_IFREG S_RW in
      let mode := if fd_type e =? FT_DIRECTORY
                  then Z.lor (Z.ldiff mode S_IFREG) (Z.lor S_IFDIR S_X) else mode in
      _ ← fd_put d;
      mret (0, mkStat 0 mode (fd_size e) 0 512)
  end.

Definition statfs (path : list Z) (buf : statfs_buf) : M (Z * statfs_buf) :=
  '(result, buf) ← dfs_statfs driver path buf;
  r ← (if result <? 0 then failed result else mret result);
  mret (r, buf).

(** ** Directories *)

(** A failure gives back one of the two references. *)
Definition mkdir (path : list Z) : M Z :=
  fd ← fd_new;
  if fd =? -1 then failed (- ENOMEM)
  else
    d ← fd_get fd;
    match d with
    | None => lift (Err NullDeref)
    | Some d =>
        result ← on_fd d (fun fd => dfs_file_open driver mem fd path (Z.lor O_DIRECTORY O_CREAT));
        if result <? 0 then _ ← fd_put d; failed result
        else _ ← on_fd d (dfs_file_close driver); _ ← fd_put d; mret 0
    end.

Definition rmdir (pathname : list Z) : M Z :=
  result ← dfs_file_unlink driver mem pathname;
  if result <? 0 then failed result else mret 0.

(** [DIR]: the descriptor, the entries in the buffer, the bytes they take and
    the offset of the current one. *)
Record DIR := mkDir { dir_fd : Z; dir_buf : list dirent; dir_num : Z; dir_cur : Z }.
Definition DIR_BUF : Z := 512.
Definition no_dirent : dirent := mkDirent 0 0 0 [].     (**r what [rt_memset] leaves *)

Definition opendir (name : list Z) : M (option DIR) :=
  fd ← fd_new;
  if fd =? -1 then _ ← rt_set_errno (- ENOMEM); mret None
  else
    d ← fd_get fd;
    match d with
    | None => lift (Err NullDeref)
    | Some d =>
        result ← on_fd d (fun fd => dfs_file_open driver mem fd name (Z.lor O_RDONLY O_DIRECTORY));
        if 0 <=? result then
          ok ← rt_malloc mem;
          t ← (if (ok : bool) then mret (Some (mkDir fd [no_dirent] 0 0))
               else _ ← on_fd d (dfs_file_close driver); _ ← fd_put d; mret None);
          _ ← fd_put d;
          mret t
        else
          _ ← fd_put d;
          _ ← fd_put d;
          _ ← rt_set_errno result;
          mret None
    end.

(** The entry at an offset of the buffer. *)
Definition entry_at (d : DIR) : res dirent :=
  if negb (dir_cur d mod DIRENT_SIZE =? 0) then Err OutOfBounds
  else idx (dir_buf d) (dir_cur d / DIRENT_SIZE).

Definition readdir (d : DIR) : M (option dirent * DIR) :=
  fd ← fd_get (dir_fd d);
  match fd with
  | None => _ ← rt_set_errno (- EBADF); mret (None, d)
  | Some fd =>
      '(more, d) ← (if dir_num d =? 0 then mret (false, d)
                    else
                      e ← lift (entry_at d);
                      let d := mkDir (dir_fd d) (dir_buf d) (dir_num d) (dir_cur d + d_reclen e) in
                      mret (dir_cur d <? dir_num d, d));
      if (more : bool) then
        _ ← fd_put fd;
        e ← lift (entry_at d);
        mret (Some e, d)
      else
        '(result, buf) ← on_fd fd (fun f => '(r, f, b) ← dfs_file_getdents driver f (dir_buf d) (DIR_BUF - 1); mret ((r, b), f));
        let d := mkDir (dir_fd d) buf (dir_num d) (dir_cur d) in
        _ ← fd_put fd;
        if result <=? 0 then _ ← rt_set_errno result; mret (None, d)
        else
          let d := mkDir (dir_fd d) buf result 0 in
          e ← lift (entry_at d);
          mret (Some e, d)
  end.

Definition telldir (d : DIR) : M Z :=
  fd ← fd_get (dir_fd d);
  match fd with
  | None => _ ← rt_set_errno (- EBADF); mret 0
  | Some fd => e ← get_fd fd; _ ← fd_put fd; mret (fd_pos e - dir_num d + dir_cur d)
  end.

Definition seekdir (d : DIR) (offset : Z) : M DIR :=
  fd ← fd_get (dir_fd d);
  match fd with
  | None => _ ← rt_set_errno (- EBADF); mret d
  | Some fd =>
      result ← on_fd fd (fun f => dfs_file_lseek driver f offset);
      _ ← fd_put fd;
      mret (if 0 <=? result then mkDir (dir_fd d) (dir_buf d) 0 0 else d)
  end.

Definition rewinddir (d : DIR) : M DIR := seekdir d 0.

Definition closedir (d : DIR) : M Z :=
  fd ← fd_get (dir_fd d);
  match fd with
  | None => failed (- EBADF)
  | Some fd =>
      result ← on_fd fd (dfs_file_close driver);
      _ ← fd_put fd;
      _ ← fd_put fd;
      _ ← rt_free;
      if result <? 0 then failed result else mret 0
  end.

(** ** Commands

    They share one static descriptor. *)

Definition on_shell_fd {A} (op : dfs_fd V -> M (A * dfs_fd V)) : M A :=
  s ← get; '(a, d) ← op (shell_fd s); _ ← modify (fun s => with_shell_fd s d); mret a.

Definition createfile (path : list Z) : M unit :=
  fd ← open path O_CREAT;
  _ ← (if fd <? 0 then rt_kprintf (str "Create " ++ [34] ++ path ++ [34] ++ str " fial") else mret tt);
  _ ← close fd;
  mret tt.

Definition renamefile (oldpath newpath : list Z) : M Z := dfs_file_rename driver mem oldpath newpath.

(** [rt_kprintf ("%-n s", t)] *)
Definition padded (n : nat) (t : list Z) : list Z := t ++ replicate (n - length t) 32.

(** The body of the loop of [ls]: whether it goes on. *)
Definition ls_entry (path : list Z) : M bool :=
  '(length, e) ← on_shell_fd (fun fd =>
     '(r, fd, e) ← dfs_file_getdents driver fd [no_dirent] DIRENT_SIZE; mret ((r, e), fd));
  if 0 <? length then
    d ← lift (idx e 0);
    fullpath ← normalize mem (Some path) (d_name d);
    match fullpath with
    | None => mret false
    | Some p =>
        '(r, st) ← dfs_file_stat driver mem p (mkStat 0 0 0 0 0);
        _ ← (if r =? 0 then
               _ ← rt_kprintf (padded 20 (d_name d));
               rt_kprintf (padded 25 (if Z.land (st_mode st) 0xf000 =? S_IFDIR then str "<DIR>"
                                      else str (pretty (Z.to_N (st_size st)))) ++ [10])
             else rt_kprintf (str "BAD file: " ++ d_name d ++ [10]));
        _ ← rt_free;
        mret true
    end
  else mret false.

Fixpoint ls_loop (fuel : nat) (path : list Z) : M unit :=
  match fuel with
  | O => lift (Err OutOfFuel)
  | S fuel => more ← ls_entry path; if (more : bool) then ls_loop fuel path else mret tt
  end.

Definition ls (fuel : nat) (pathname : option (list Z)) : M unit :=
  path ← (match pathname with Some p => mret (Some p) | None => rt_strdup mem [SLASH] end);
  match path with
  | None => mret tt
  | Some path =>
      r ← on_shell_fd (fun fd => dfs_file_open driver mem fd path O_DIRECTORY);
      _ ← (if r =? 0 then
             _ ← rt_kprintf (str "Directory " ++ path ++ str ":" ++ [10]);
             _ ← ls_loop fuel path;
             _ ← on_shell_fd (dfs_file_close driver); mret tt
           else rt_kprintf (str "No such directory" ++ [10]));
      match pathname with None => rt_free | Some _ => mret tt end
  end.

Definition rm (filename : list Z) : M unit :=
  r ← dfs_file_unlink driver mem filename;
  if r <? 0 then rt_kprintf (str "Delete " ++ filename ++ str " failed" ++ [10]) else mret tt.

(** The loop of [cat]; the length is unsigned. *)
Fixpoint cat_loop (fuel : nat) : M unit :=
  match fuel with
  | O => lift (Err OutOfFuel)
  | S fuel =>
      '(length, buffer) ← on_shell_fd (fun fd =>
         '(r, fd, b) ← dfs_file_read driver fd (replicate 81 0) 80; mret ((u32 r, b), fd));
      if 0 <? length then
        t ← lift (cstr buffer);
        _ ← rt_kprintf t;
        cat_loop fuel
      else mret tt
  end.

Definition cat (fuel : nat) (filename : list Z) : M unit :=
  r ← on_shell_fd (fun fd => dfs_file_open driver mem fd filename O_RDONLY);
  if r <? 0 then rt_kprintf (str "Open " ++ filename ++ str " failed" ++ [10])
  else _ ← cat_loop fuel; _ ← on_shell_fd (dfs_file_close driver); mret tt.

Definition BUF_SZ : Z := 4096.

(** The loop of [copy]: what was read from [src] is written to the shared
    descriptor; the number of bytes is unsigned. *)
Fixpoint copy_loop (fuel : nat) (src : dfs_fd V) (block : list Z) : M (dfs_fd V) :=
  match fuel with
  | O => lift (Err OutOfFuel)
  | S fuel =>
      '(r, src, block) ← dfs_file_read driver src block BUF_SZ;
      let read_bytes := u32 r in
      if 0 <? read_bytes then
        _ ← on_shell_fd (fun fd => dfs_file_write driver fd block read_bytes);
        copy_loop fuel src block
      else mret src
  end.

Definition copy (fuel : nat) (junk : dfs_fd V) (junk_block src dst : list Z) : M unit :=
  ok ← rt_malloc mem;
  if negb ok then rt_kprintf (str "out of memory" ++ [10])
  else
    '(r, src_fd) ← dfs_file_open driver mem junk src O_RDONLY;
    if r <? 0 then
      _ ← rt_free; rt_kprintf (str "Read " ++ src ++ str " failed" ++ [10])
    else
      r ← on_shell_fd (fun fd => dfs_file_open driver mem fd dst (Z.lor O_WRONLY O_CREAT));
      if r <? 0 then
        _ ← rt_free;
        _ ← dfs_file_close driver src_fd;
        rt_kprintf (str "Write " ++ dst ++ str " failed" ++ [10])
      else
        src_fd ← copy_loop fuel src_fd junk_block;
        _ ← dfs_file_close driver src_fd;
        _ ← on_shell_fd (dfs_file_close driver);
        rt_free.

Definition mkfs (fs_name device_name : list Z) : M unit := _ ← dfs_mkfs driver fs_name device_name; mret tt.

Definition df (path : list Z) : M unit :=
  '(r, b) ← dfs_statfs driver path (mkStatfs 0 0 0);
  if r =? 0 then
    rt_kprintf (str "disk free: " ++ str (pretty (f_bfree b)) ++ str " block[" ++
                str (pretty (f_bsize b)) ++ str " bytes per block]" ++ [10])
  else mret tt.
End posix.
