(* ===== verification/RomFs.v ===== *)
(** * The read-only file system

    RTT/components/dfs/filesystems/romfs: an image is a tree of directory entries
    in constant memory.  [dfs_romfs_lookup] walks a path through it, comparing
    names over the length of the path's name only. *)

From S2P Require Import Prelude DfsPath Dfs.

Definition ROMFS_DIRENT_FILE : Z := 0.
Definition ROMFS_DIRENT_DIR : Z := 1.

(** [struct romfs_dirent]; what the data pointer leads to is never written, so a
    pointer is the object itself. *)
Inductive romfs_dirent := mkRom (rom_type : Z) (rom_name : list Z) (rom_data : rom_data) (rom_size : Z)
with rom_data := NoData | Bytes (b : list Z) | Entries (l : list romfs_dirent).

Definition rom_type (e : romfs_dirent) : Z := let (t, _, _, _) := e in t.
Definition rom_name (e : romfs_dirent) : list Z := let (_, n, _, _) := e in n.
Definition rom_data_of (e : romfs_dirent) : rom_data := let (_, _, d, _) := e in d.
Definition rom_size (e : romfs_dirent) : Z := let (_, _, _, s) := e in s.

(** ** Lookup

    A pointer into the path is what is left of the path from there. *)

(** Whether [rt_strncmp (a, b, n)] is zero. *)
Definition same_chars (a b : list Z) (n : nat) : bool := bool_decide (take n (a ++ [0]) = take n (b ++ [0])).

(** The characters up to the next slash. *)
Fixpoint name_length (s : list Z) : nat :=
  match s with [] => O | c :: s => if c =? SLASH then O else S (name_length s) end.

(** The search of one directory, from an entry on. *)
Fixpoint search (n : nat) (l : list romfs_dirent) (subpath : list Z) : res (option romfs_dirent) :=
  match n with
  | O => mret None
  | S n =>
      match l with
      | [] => Err OutOfBounds
      | e :: l => if same_chars (rom_name e) subpath (name_length subpath) then mret (Some e) else search n l subpath
      end
  end.

(** The walk, from a directory's entries and their number. *)
Fixpoint lookup_from (fuel : nat) (d : rom_data) (size : Z) (subpath : list Z) : res (option (romfs_dirent * Z)) :=
  match fuel with
  | O => Err OutOfFuel
  | S fuel =>
      match d with
      | NoData => mret None
      | Bytes _ => Err OutOfBounds
      | Entries l =>
          found ← search (Z.to_nat size) l subpath;
          match found with
          | None => mret None
          | Some e =>
              let subpath := unslash (drop (name_length subpath) subpath) in
              match subpath with
              | [] => mret (Some (e, rom_size e))
              | _ =>
                  if rom_type e =? ROMFS_DIRENT_DIR then lookup_from fuel (rom_data_of e) (rom_size e) subpath
                  else mret None
              end
          end
      end
  end.

(** The entry and its size. *)
Definition dfs_romfs_lookup (root : romfs_dirent) (path : list Z) : res (option (romfs_dirent * Z)) :=
  if bool_decide (path = [SLASH]) then mret (Some (root, rom_size root))
  else lookup_from (S (length path)) (rom_data_of root) (rom_size root) (unslash path).

(** ** Operations *)

Section romfs.
Context {D : Type}.
Abbreviation fs := (dfs_filesystem romfs_dirent).
Abbreviation fd := (dfs_fd romfs_dirent).

Definition dfs_romfs_mount (f : fs) (rwflag : Z) (data : option romfs_dirent) (d : D) : res (Z * fs * D) :=
  match data with
  | None => mret (- EIO, f, d)
  | Some root => mret (0, mkFs (fs_dev f) (fs_path f) (fs_ops f) (Some root), d)
  end.

Definition dfs_romfs_unmount (f : fs) (d : D) : res (Z * fs * D) := mret (0, f, d).

Definition dfs_romfs_ioctl (f : fs) (file : fd) (cmd args : Z) (d : D) : res (Z * fd * D) := mret (- EIO, file, d).

Definition with_data (file : fd) (x : option romfs_dirent) : fd :=
  mkFd (fd_path file) (fd_type file) (fd_ref file) (fd_fs file) (fd_flags file) (fd_size file) (fd_pos file) x.

Definition dfs_romfs_read (f : fs) (file : fd) (buf : list Z) (count : Z) (d : D) : res (Z * fd * list Z * D) :=
  match fd_data file with
  | None => Err AssertFail
  | Some e =>
      let left := u32 (fd_size file - fd_pos file) in
      let length := if count <? left then count else left in
      buf ← (if 0 <? length then
               match rom_data_of e with
               | Bytes b =>
                   if (0 <=? fd_pos file) && (fd_pos file + length <=? Z.of_nat (List.length b))
                   then upd_range buf 0 (take (Z.to_nat length) (drop (Z.to_nat (fd_pos file)) b))
                   else Err OutOfBounds
               | _ => Err OutOfBounds
               end
             else mret buf);
      mret (length, with_pos file (fd_pos file + length), buf, d)
  end.

Definition dfs_romfs_lseek (f : fs) (file : fd) (offset : Z) (d : D) : res (Z * fd * D) :=
  if u32 offset <=? fd_size file then mret (offset, with_pos file offset, d) else mret (- EIO, file, d).

Definition dfs_romfs_close (f : fs) (file : fd) (d : D) : res (Z * fd * D) := mret (0, with_data file None, d).

Definition WRITING : Z := Z.lor O_CREAT (Z.lor O_WRONLY (Z.lor O_APPEND (Z.lor O_TRUNC O_RDWR))).

(** The path and the root behind pointers that may be null. *)
Definition deref {A} (p : option A) : res A := match p with Some a => mret a | None => Err NullDeref end.

Definition dfs_romfs_open (f : fs) (file : fd) (d : D) : res (Z * fd * D) :=
  if negb (Z.land (fd_flags file) WRITING =? 0) then mret (- EINVAL, file, d)
  else
    path ← deref (fd_path file);
    root ← deref (fs_data f);
    found ← dfs_romfs_lookup root path;
    match found with
    | None => mret (- ENOENT, file, d)
    | Some (e, size) =>
        let directory := negb (Z.land (fd_flags file) O_DIRECTORY =? 0) in
        if negb (Bool.eqb (rom_type e =? ROMFS_DIRENT_DIR) directory) then mret (- ENOENT, file, d)
        else
          mret (0, mkFd (fd_path file) (fd_type file) (fd_ref file) (fd_fs file) (fd_flags file) size 0 (Some e), d)
    end.

Definition dfs_romfs_stat (f : fs) (path : option (list Z)) (st : stat_buf) (d : D) : res (Z * stat_buf * D) :=
  path ← deref path;
  root ← deref (fs_data f);
  found ← dfs_romfs_lookup root path;
  match found with
  | None => mret (- ENOENT, st, d)
  | Some (e, _) =>
      let mode := Z.lor S_IFREG S_RW in
      let mode := if rom_type e =? ROMFS_DIRENT_DIR
                  then Z.lor (Z.ldiff mode S_IFREG) (Z.lor S_IFDIR S_X) else mode in
      mret (0, mkStat 0 mode (rom_size e) 0 512, d)
  end.

(** The loop of [dfs_romfs_getdents], for [n] entries of the buffer from [index]
    on; the result is the number of entries filled. *)
Fixpoint getdents_loop (n : nat) (l : list romfs_dirent) (file : fd) (dirp : list dirent) (index : Z) :
    res (Z * fd * list dirent) :=
  match n with
  | O => mret (index, file, dirp)
  | S n =>
      if fd_pos file <? fd_size file then
        e ← idx l (fd_pos file);
        let name := rom_name e in
        if (DFS_PATH_MAX <? Z.of_nat (length name) + 1) then Err OutOfBounds
        else
          dirp ← upd dirp index (mkDirent (if rom_type e =? ROMFS_DIRENT_DIR then 2 else 1)
                                   (u8 (Z.of_nat (length name))) DIRENT_SIZE name);
          getdents_loop n l (with_pos file (fd_pos file + 1)) dirp (index + 1)
      else mret (index, file, dirp)
  end.

Definition dfs_romfs_getdents (f : fs) (file : fd) (dirp : list dirent) (count : Z) (d : D) :
    res (Z * fd * list dirent * D) :=
  e ← deref (fd_data file);
  if negb (rom_type e =? ROMFS_DIRENT_DIR) then Err AssertFail
  else if count / DIRENT_SIZE =? 0 then mret (- EINVAL, file, dirp, d)
  else
    '(index, file, dirp) ← getdents_loop (Z.to_nat (count / DIRENT_SIZE))
       (match rom_data_of e with Entries l => l | _ => [] end) file dirp 0;
    mret (index * DIRENT_SIZE, file, dirp, d).

(** The table of operations; [dfs_romfs_init] registers it. *)
Definition romfs : dfs_filesystem_operation D romfs_dirent := {|
  op_name := str "rom";
  op_mount := Some dfs_romfs_mount;
  op_unmount := Some dfs_romfs_unmount;
  op_mkfs := None;
  op_statfs := None;
  op_open := Some dfs_romfs_open;
  op_close := Some dfs_romfs_close;
  op_ioctl := Some dfs_romfs_ioctl;
  op_read := Some dfs_romfs_read;
  op_write := None;
  op_flush := None;
  op_lseek := Some dfs_romfs_lseek;
  op_getdents := Some dfs_romfs_getdents;
  op_unlink := None;
  op_stat := Some dfs_romfs_stat;
  op_rename := None
|}.
End romfs.

(** The image of romfs.c. *)
Definition dummy_text : list Z := str "this is a file!" ++ [13; 10].
Definition romfs_root : romfs_dirent :=
  mkRom ROMFS_DIRENT_DIR [SLASH] (Entries [
    mkRom ROMFS_DIRENT_DIR (str "dummy") (Entries [mkRom ROMFS_DIRENT_FILE (str "dummy.txt") (Bytes dummy_text) 17]) 1;
    mkRom ROMFS_DIRENT_FILE (str "dummy.txt") (Bytes dummy_text) 17]) 2.
