(* ===== verification/DfsFiles.v ===== *)
(** * What the device file system promises

    Lookup of the file system a path belongs to; the read-only file system behind
    the descriptor calls, as a table of open files; and what goes wrong. *)

From S2P Require Import Prelude DfsPath Dfs DfsPosix RomFs.

(** ** Single steps

    The lock is taken and released within each of them. *)

Section steps.
Context {D V : Type}.
Implicit Types (s : dfs D V) (d : dfs_fd V).

Lemma locked s : with_lock s (fslock s + 1 - 1) = s.
Proof. destruct s. cbn. unfold with_lock. cbn. f_equal. lia. Qed.

Lemma mount_lookup_run path s : dfs_filesystem_lookup path s =
  Ret (fst (lookup_loop path (filesystem_table s) 0 (None, O)), s).
Proof.
  rewrite <- (locked s) at 3. unfold dfs_filesystem_lookup, dfs_lock, dfs_unlock. unfold_st. done.
Qed.

Lemma get_fd_run i d s : fd_table s !! i = Some d -> get_fd i s = Ret (d, s).
Proof. intros H. unfold get_fd. unfold_st. by rewrite H. Qed.

Lemma fd_get_run i d s : (i < DFS_FD_MAX)%nat -> fd_table s !! i = Some d ->
  fd_get (Z.of_nat i) s = Ret (Some i, with_fds s (<[i := with_ref d (fd_ref d + 1)]> (fd_table s))).
Proof.
  intros Hi H. unfold fd_get, dfs_lock, dfs_unlock, get_fd, set_fd, DFS_FD_MAX in *.
  destruct (Z.ltb_spec (Z.of_nat i) 0); [lia|]. destruct (Z.leb_spec (Z.of_nat 4) (Z.of_nat i)); [lia|].
  rewrite Nat2Z.id. unfold_st. cbn. rewrite H. cbn. unfold with_fds, with_lock. cbn. do 3 f_equal. lia.
Qed.

Lemma fd_get_range fd s : fd < 0 \/ Z.of_nat DFS_FD_MAX <= fd -> fd_get fd s = Ret (None, s).
Proof.
  intros H. unfold fd_get. destruct (Z.ltb_spec fd 0); [done|].
  destruct (Z.leb_spec (Z.of_nat DFS_FD_MAX) fd); [done|lia].
Qed.

Lemma fd_put_run i d s : fd_table s !! i = Some d ->
  fd_put i s = Ret (tt, with_fds s (<[i := if fd_ref d - 1 =? 0 then no_fd else with_ref d (fd_ref d - 1)]> (fd_table s))).
Proof.
  intros H. unfold fd_put, dfs_lock, dfs_unlock, get_fd, set_fd. unfold_st. cbn. rewrite H. cbn.
  unfold with_fds, with_lock. cbn. do 3 f_equal. lia.
Qed.

Lemma first_index_le {A} (p : A -> bool) l : (first_index p l <= length l)%nat.
Proof. induction l as [|x l IH]; cbn; [lia|]. destruct (p x); lia. Qed.

Lemma first_index_lookup {A} (p : A -> bool) l : (first_index p l < length l)%nat ->
  exists x, l !! first_index p l = Some x /\ p x = true.
Proof.
  induction l as [|x l IH]; cbn; [lia|]. destruct (p x) eqn:E; [by exists x|]. intros H. apply IH. lia.
Qed.

Lemma fd_new_full s : first_index (fun d => fd_ref d <=? 0) (fd_table s) = DFS_FD_MAX -> fd_new s = Ret (-1, s).
Proof.
  intros H. rewrite <- (locked s) at 2. unfold fd_new, dfs_lock, dfs_unlock. unfold_st. cbn. by rewrite H.
Qed.

Lemma fd_new_run i d s : first_index (fun d => fd_ref d <=? 0) (fd_table s) = i -> (i < DFS_FD_MAX)%nat ->
  fd_table s !! i = Some d -> fd_new s = Ret (Z.of_nat i, with_fds s (<[i := with_ref d 1]> (fd_table s))).
Proof.
  intros H Hi Hd. unfold fd_new, dfs_lock, dfs_unlock, get_fd, set_fd. unfold_st. cbn. rewrite H.
  destruct (Nat.eqb_spec i DFS_FD_MAX); [lia|]. cbn. rewrite Hd. cbn. unfold with_fds, with_lock. cbn. do 3 f_equal. lia.
Qed.

Lemma malloc_run mem s : blocks s < mem -> rt_malloc mem s = Ret (true, with_blocks s (blocks s + 1)).
Proof. intros H. unfold rt_malloc. unfold_st. rewrite (proj2 (Z.ltb_lt _ _) H). done. Qed.

Lemma release_run s : rt_free (with_blocks s (blocks s + 1)) = Ret (tt, s).
Proof. destruct s. unfold rt_free, with_blocks. unfold_st. cbn. do 3 f_equal. lia. Qed.

Lemma normalize_absolute_run mem ns s : Forall plain_name ns -> blocks s < mem ->
  normalize mem None (absolute ns) s = Ret (Some (absolute ns), with_blocks s (blocks s + 1)).
Proof.
  intros Hns Hm. unfold normalize. cbn [join_path absolute]. rewrite Z.eqb_refl.
  rewrite (st_bind_run _ _ _ _ _ (malloc_run mem s Hm)). cbn [negb].
  change (SLASH :: joined ns) with (absolute ns). rewrite (normalize_absolute None ns Hns). done.
Qed.

Lemma on_fd_run {A} i d op s (a : A) d' s' : fd_table s !! i = Some d -> op d s = Ret ((a, d'), s') ->
  on_fd i op s = Ret (a, with_fds s' (<[i := d']> (fd_table s'))).
Proof. intros H Ho. unfold on_fd, get_fd, set_fd. unfold_st. rewrite H. by rewrite Ho. Qed.
End steps.

(** ** The file system a path belongs to *)

Section lookup.
Context {D V : Type}.
Implicit Types (s : dfs D V) (f g : dfs_filesystem V) (path : list Z).

(** What the code asks of an entry, on paths as strings. *)
Definition covers path f : bool :=
  match fs_path f with
  | None => false
  | Some p =>
      bool_decide (fs_ops f <> None) && starts p path &&
      negb ((1 <? length p)%nat && (length p <? length path)%nat && bool_decide (path !! length p <> Some SLASH))
  end.

Definition path_length f : nat := match fs_path f with Some p => length p | None => O end.

Lemma lookup_turn_spec path f i r n :
  lookup_turn path f i (r, n) =
    if covers path f && (n <=? path_length f)%nat then (Some i, path_length f) else (r, n).
Proof.
  unfold lookup_turn, covers, path_length. destruct (fs_path f) as [p|]; [|done]. cbn [snd].
  destruct (Nat.ltb_spec (length p) n), (Nat.leb_spec n (length p)); try lia; [by rewrite andb_false_r|].
  rewrite andb_true_r. destruct (bool_decide _ && starts p path); [|done]. by destruct (_ && _ && _).
Qed.

(** The last of the longest covering entries, and what was found before. *)
Definition longest path (l : list (dfs_filesystem V)) (i : nat) (before after : option nat * nat) : Prop :=
  (snd before <= snd after)%nat /\
  (after = before \/ exists k f, l !! k = Some f /\ after = (Some (i + k)%nat, path_length f) /\ covers path f = true) /\
  forall k f, l !! k = Some f -> covers path f = true -> (path_length f <= snd after)%nat /\ fst after <> None.

Lemma lookup_loop_spec path l i b : fst b <> None \/ snd b = O -> longest path l i b (lookup_loop path l i b).
Proof.
  revert i b. induction l as [|f l IH]; intros i [r n] Hb; [split; [done|split; [by left|done]]|].
  cbn [lookup_loop]. rewrite lookup_turn_spec.
  destruct (covers path f && (n <=? path_length f)%nat) eqn:E.
  - apply andb_true_iff in E as [Hc Hn%Nat.leb_le]. destruct (IH (S i) (Some i, path_length f)) as (H1 & H2 & H3); [by left|].
    cbn [snd] in *. split; [cbn; lia|]. split.
    + right. destruct H2 as [->|(k & g & Hk & -> & Hg)]; [exists O, f; by rewrite Nat.add_0_r|].
      exists (S k), g. by rewrite Nat.add_succ_r.
    + intros [|k] g; [|by apply H3]. intros [= <-] _. split; [done|].
      by destruct H2 as [->|(k & g & _ & -> & _)].
  - destruct (IH (S i) (r, n) Hb) as (H1 & H2 & H3). split; [done|]. split.
    + destruct H2 as [->|(k & g & Hk & -> & Hg)]; [by left|]. right. exists (S k), g. by rewrite Nat.add_succ_r.
    + intros [|k] g; [|by apply H3]. intros [= <-] Hc. rewrite Hc in E. apply Nat.leb_gt in E. cbn [snd fst] in *.
      split; [lia|]. destruct H2 as [->|(k & g & _ & -> & _)]; [|done]. destruct Hb; [done|]. lia.
Qed.

(** On canonical paths an entry covers the paths below its mount point. *)
Lemma starts_prefix a b : starts a b = true <-> a `prefix_of` b.
Proof.
  unfold starts. rewrite bool_decide_eq_true. split.
  - intros <-. exists (drop (length a) b). by rewrite take_drop.
  - intros [c ->]. by rewrite take_app_length.
Qed.

Lemma joined_app ms ks : ms <> [] -> ks <> [] -> joined (ms ++ ks) = joined ms ++ SLASH :: joined ks.
Proof.
  induction ms as [|w ms IH]; [done|]. intros _ Hk. destruct ms as [|v ms]; [by destruct ks|].
  change (joined ((w :: v :: ms) ++ ks)) with (w ++ SLASH :: joined ((v :: ms) ++ ks)). rewrite IH by done.
  change (joined (w :: v :: ms)) with (w ++ SLASH :: joined (v :: ms)). by rewrite <- app_assoc.
Qed.

Lemma split_joined_app ms r : Forall name_ok ms -> ms <> [] -> split (joined ms ++ SLASH :: r) = ms ++ split r.
Proof.
  induction 1 as [|w ms Hw Hms IH]; [done|]. intros _. destruct ms as [|v ms]; [by apply split_name|].
  change (joined (w :: v :: ms)) with (w ++ SLASH :: joined (v :: ms)). rewrite <- app_assoc. cbn [app].
  rewrite split_name by done. by rewrite IH.
Qed.

Lemma plain_names ns : Forall plain_name ns -> Forall name_ok ns.
Proof. intros H. eapply Forall_impl; [exact H|]. by intros w []. Qed.

Lemma joined_nil ns : Forall plain_name ns -> joined ns = [] -> ns = [].
Proof.
  intros H E. destruct H as [|w ns (_ & Hw & _) _]; [done|]. destruct ns; cbn in E; [done|]. by destruct w.
Qed.

(** A mount point in front of a path, as strings and as names. *)
Lemma below ms ns : Forall plain_name ms -> Forall plain_name ns ->
  (absolute ms `prefix_of` absolute ns /\
   ((length (absolute ms) <= 1)%nat \/ (length (absolute ns) <= length (absolute ms))%nat \/
    absolute ns !! length (absolute ms) = Some SLASH)) <-> ms `prefix_of` ns.
Proof.
  intros Hms Hns. destruct (decide (ms = [])) as [->|Hm].
  { split; [intros _; apply prefix_nil|]. intros _. split; [by exists (joined ns)|by left]. }
  split.
  - intros [[r Hr] Hb]. injection Hr as Hr.
    assert (r = [] \/ exists r', r = SLASH :: r') as Hr'.
    { destruct r as [|c r]; [by left|right; exists r]. f_equal. unfold absolute in Hb. cbn [length] in Hb.
      destruct Hb as [Hb|[Hb|Hb]].
      - destruct (joined ms) eqn:E; [|cbn in Hb; lia]. by apply joined_nil in E.
      - rewrite Hr, length_app in Hb. cbn in Hb. lia.
      - change (joined ns !! length (joined ms) = Some SLASH) in Hb.
        rewrite Hr, list_lookup_middle in Hb by done. congruence. }
    destruct Hr' as [->|(r' & ->)].
    + rewrite app_nil_r in Hr. exists []. rewrite app_nil_r.
      destruct (decide (ns = [])) as [->|Hn]; [symmetry in Hr; by apply joined_nil in Hr|].
      rewrite <- (split_joined ns), <- (split_joined ms) by (done || by apply plain_names). by rewrite Hr.
    + destruct (decide (ns = [])) as [->|Hn]; [by destruct (joined ms)|].
      exists (split r'). rewrite <- split_joined_app, <- Hr by (done || by apply plain_names).
      symmetry. apply split_joined; [by apply plain_names|done].
  - intros [ks ->]. destruct (decide (ks = [])) as [->|Hk]; [rewrite app_nil_r; split; [done|by right; left]|].
    unfold absolute. rewrite joined_app by done. split; [by exists (SLASH :: joined ks)|].
    right; right. change ((joined ms ++ SLASH :: joined ks) !! length (joined ms) = Some SLASH).
    by rewrite list_lookup_middle.
Qed.

Lemma covers_below ms ns f : Forall plain_name ms -> Forall plain_name ns -> fs_path f = Some (absolute ms) ->
  covers (absolute ns) f = true <-> fs_ops f <> None /\ ms `prefix_of` ns.
Proof.
  intros Hms Hns Hf. rewrite <- (below ms ns) by done. unfold covers. rewrite Hf.
  rewrite !andb_true_iff, bool_decide_eq_true, starts_prefix, negb_true_iff, !andb_false_iff, !Nat.ltb_ge, bool_decide_eq_false.
  split; [intros [[Ho Hs] H]|intros [Ho [Hs H]]]; (split_and!; [done|done|]).
  - destruct H as [[H|H]|H]; [by left|by right; left|right; right]. by apply dec_stable.
  - destruct H as [H|[H|H]]; [by left; left|by left; right|by right; intros []].
Qed.

Lemma prefix_longer ks ms : ks `prefix_of` ms -> Forall plain_name ms ->
  (length (absolute ms) <= length (absolute ks))%nat -> ms `prefix_of` ks.
Proof.
  intros [ls ->] Hp Hl. destruct ls as [|w ls]; [by rewrite app_nil_r|]. exfalso.
  apply Forall_app in Hp as [_ Hp]. apply Forall_cons in Hp as [(_ & Hw & _) _].
  unfold absolute in Hl. cbn [length] in Hl. destruct ks as [|k ks]; cbn [app] in Hl.
  - destruct ls; cbn in Hl; destruct w; cbn in *; try lia; done.
  - change (k :: ks ++ w :: ls) with ((k :: ks) ++ w :: ls) in Hl. rewrite joined_app, length_app in Hl by done.
    cbn [length] in Hl. lia.
Qed.
End lookup.

(** C21: A path belongs to the mounted file system whose mount point is its
    deepest ancestor: the entry found is mounted on an ancestor of the path, by
    whole names, and below every other such entry; a path without one is found
    to have none.  The lock is released. *)
Theorem dfs_lookup_deepest {D V} (s : dfs D V) ns : Forall plain_name ns ->
  (forall f p, f ∈ filesystem_table s -> fs_path f = Some p -> exists ms, Forall plain_name ms /\ p = absolute ms) ->
  exists r, dfs_filesystem_lookup (absolute ns) s = Ret (r, s) /\
    match r with
    | Some i => exists f ms, filesystem_table s !! i = Some f /\ fs_ops f <> None /\
        fs_path f = Some (absolute ms) /\ ms `prefix_of` ns /\
        forall j g ks, filesystem_table s !! j = Some g -> fs_ops g <> None -> fs_path g = Some (absolute ks) ->
          Forall plain_name ks -> ks `prefix_of` ns -> ks `prefix_of` ms
    | None => forall j g ks, filesystem_table s !! j = Some g -> fs_ops g <> None ->
        fs_path g = Some (absolute ks) -> Forall plain_name ks -> ~ ks `prefix_of` ns
    end.
Proof.
  intros Hns Hmounts. rewrite mount_lookup_run. eexists. split; [done|].
  destruct (lookup_loop_spec (absolute ns) (filesystem_table s) 0 (None, O)) as (_ & H2 & H3); [by right|].
  destruct H2 as [H2|(i & f & Hf & H2 & Hc)]; rewrite H2 in *; cbn [fst snd] in *.
  - intros j g ks Hg Ho Hp Hks Hb. destruct (H3 j g Hg) as [_ []]; [|done]. by apply (covers_below ks ns g).
  - destruct (fs_path f) as [p|] eqn:Ep; [|unfold covers in Hc; by rewrite Ep in Hc].
    destruct (Hmounts f p) as (ms & Hms & ->); [by eapply list_elem_of_lookup_2|done|].
    apply (covers_below ms ns f) in Hc as [Ho Hpre]; [|done..].
    exists f, ms. split_and!; [done..|]. intros j g ks Hg Hog Hpg Hks Hb.
    destruct (H3 j g Hg) as [Hl _]; [by apply (covers_below ks ns g)|].
    unfold path_length in Hl. rewrite Ep, Hpg in Hl.
    destruct (prefix_weak_total ks ms ns) as [?|Hp]; [done|done|done|].
    by apply (prefix_longer ms ks).
Qed.

(** ** What goes wrong *)

Section faults.
Context {D V : Type}.
Context (driver : nat -> dfs_filesystem_operation D V) (mem : Z).
Implicit Types (s : dfs D V) (d : dfs_fd V).

(** Without a working directory a path that does not start at the root has no
    meaning. *)
Lemma open_relative path s d flags : head path <> Some SLASH ->
  dfs_file_open driver mem d path flags s = Ret ((-1, d), s).
Proof.
  intros Hp. unfold dfs_file_open, normalize, join_path. destruct path as [|c path]; [done|].
  destruct (Z.eqb_spec c SLASH) as [->|]; [done|]. done.
Qed.

(** A directory that cannot be made costs a descriptor. *)
Lemma mkdir_relative path s i d : head path <> Some SLASH ->
  first_index (fun d => fd_ref d <=? 0) (fd_table s) = i -> (i < DFS_FD_MAX)%nat -> fd_table s !! i = Some d ->
  mkdir driver mem path s = Ret (-1, with_errno (with_fds s (<[i := with_ref d 1]> (fd_table s))) (-1)).
Proof.
  intros Hp Hfi Hi Hd. unfold mkdir. assert (Hl := lookup_lt_Some _ _ _ Hd).
  rewrite (st_bind_run _ _ _ _ _ (fd_new_run i d s Hfi Hi Hd)).
  destruct (Z.eqb_spec (Z.of_nat i) (-1)); [lia|]. set (s1 := with_fds s _).
  assert (Hd1 : fd_table s1 !! i = Some (with_ref d 1)) by (by apply list_lookup_insert_eq).
  rewrite (st_bind_run _ _ _ _ _ (fd_get_run i _ s1 Hi Hd1)). cbv iota. set (s2 := with_fds s1 _).
  assert (Hd2 : fd_table s2 !! i = Some (with_ref d 2)) by (apply list_lookup_insert_eq; cbn; by rewrite length_insert).
  rewrite (st_bind_run _ _ _ _ _ (on_fd_run i _ (fun fd => dfs_file_open driver mem fd path (Z.lor O_DIRECTORY O_CREAT))
    s2 (-1) _ s2 Hd2 (open_relative path s2 _ _ Hp))). cbn [Z.ltb Z.compare]. set (s3 := with_fds s2 _).
  assert (Hd3 : fd_table s3 !! i = Some (with_ref d 2)) by (apply list_lookup_insert_eq; cbn; by rewrite !length_insert).
  rewrite (st_bind_run _ _ _ _ _ (fd_put_run i _ s3 Hd3)). unfold failed, rt_set_errno. unfold_st.
  subst s3 s2 s1. unfold with_fds, with_errno. cbn. by rewrite !list_insert_insert_eq.
Qed.

(** How many descriptors are taken in front of the first free one. *)
Lemma first_index_insert {A} (p : A -> bool) l i x : first_index p l = i -> (i < length l)%nat -> p x = false ->
  (i < first_index p (<[i := x]> l))%nat.
Proof.
  intros <-. induction l as [|y l IH]; cbn; [lia|]. destruct (p y) eqn:E; cbn; intros Hl Hx; [by rewrite Hx; lia|].
  rewrite E. apply -> Nat.succ_lt_mono. apply IH; [lia|done].
Qed.

Definition first_free s : nat := first_index (fun d => fd_ref d <=? 0) (fd_table s).

Fixpoint mkdirs (paths : list (list Z)) : ST (dfs D V) unit :=
  match paths with [] => mret tt | p :: paths => _ ← mkdir driver mem p; mkdirs paths end.

Lemma mkdirs_take paths s : Forall (fun p => head p <> Some SLASH) paths -> length (fd_table s) = DFS_FD_MAX ->
  exists s', mkdirs paths s = Ret (tt, s') /\ length (fd_table s') = DFS_FD_MAX /\
    (Nat.min (first_free s + length paths) DFS_FD_MAX <= first_free s')%nat.
Proof.
  intros H. revert s. induction H as [|p paths Hp _ IH]; intros s Hl; [exists s; split_and!; [done..|cbn; lia]|].
  cbn [mkdirs length]. assert (Hle := first_index_le (fun d : dfs_fd V => fd_ref d <=? 0) (fd_table s)).
  unfold first_free in *. set (i := first_index _ (fd_table s)) in *. destruct (decide (i = DFS_FD_MAX)) as [Hi|Hi].
  - assert (Hm : mkdir driver mem p s = Ret (-1, with_errno s (- ENOMEM))).
    { unfold mkdir. by rewrite (st_bind_run _ _ _ _ _ (fd_new_full s Hi)). }
    rewrite (st_bind_run _ _ _ _ _ Hm). destruct (IH (with_errno s (- ENOMEM)) Hl) as (s' & Hr & Hl' & Hf).
    exists s'. split_and!; [done..|]. change (fd_table (with_errno s (- ENOMEM))) with (fd_table s) in Hf. fold i in Hf. lia.
  - destruct (first_index_lookup (fun d : dfs_fd V => fd_ref d <=? 0) (fd_table s)) as (d & Hd & _); [fold i; lia|].
    rewrite (st_bind_run _ _ _ _ _ (mkdir_relative p s i d Hp eq_refl ltac:(lia) Hd)). set (s1 := with_errno _ _).
    destruct (IH s1) as (s' & Hr & Hl' & Hf); [cbn; by rewrite length_insert|]. exists s'. split_and!; [done..|].
    assert (Hn := first_index_insert (fun d : dfs_fd V => fd_ref d <=? 0) (fd_table s) i (with_ref d 1) eq_refl ltac:(lia) eq_refl).
    change (<[i := with_ref d 1]> (fd_table s)) with (fd_table s1) in Hn. lia.
Qed.

(** [mkdir] gives back only one of its two references when it fails: after
    four calls with a path that does not start at the root, no file can be opened
    any more, whatever file systems are mounted and whatever was free before. *)
Theorem mkdir_exhausts (paths : list (list Z)) s file flags :
  Forall (fun p => head p <> Some SLASH) paths -> length (fd_table s) = DFS_FD_MAX ->
  (DFS_FD_MAX <= length paths)%nat ->
  exists s', mkdirs paths s = Ret (tt, s') /\
    open driver mem file flags s' = Ret (-1, with_errno s' (- ENOMEM)).
Proof.
  intros Hp Hl Hn. destruct (mkdirs_take paths s Hp Hl) as (s' & Hr & Hl' & Hf). exists s'. split; [done|].
  assert (Hle := first_index_le (fun d : dfs_fd V => fd_ref d <=? 0) (fd_table s')).
  unfold first_free in Hf. unfold open. rewrite (st_bind_run _ _ _ _ _ (fd_new_full s' ltac:(lia))). done.
Qed.

(** A failed read, as an unsigned length. *)
Lemma no_read buf len s d f o : fd_fs d = Some f -> filesystem_table s !! f = Some o ->
  match fs_ops o with Some a => op_read (driver a) = None | None => False end ->
  dfs_file_read driver d buf len s = Ret ((- ENOSYS, d, buf), s).
Proof.
  intros Hd Hf Ho. unfold dfs_file_read, fd_ops, get_fs, ops_of. unfold_st. rewrite Hd, Hf.
  destruct (fs_ops o) as [a|]; [|done]. by rewrite Ho.
Qed.

(** [cat] does not end on a file it cannot read: it keeps the result of
    [dfs_file_read] in an unsigned length, so that an error is taken for data.  For
    every number of turns the loop still goes on. *)
Theorem cat_never_ends s f o : fd_fs (shell_fd s) = Some f -> filesystem_table s !! f = Some o ->
  match fs_ops o with Some a => op_read (driver a) = None | None => False end ->
  forall fuel, cat_loop driver fuel s = Err OutOfFuel.
Proof.
  intros Hd Hf Ho fuel. revert s Hd Hf. induction fuel as [|fuel IH]; intros s Hd Hf; [done|]. cbn [cat_loop].
  assert (Hrun : on_shell_fd (fun fd => '(r, fd, b) ← dfs_file_read driver fd (replicate 81 0) 80; mret ((u32 r, b), fd)) s =
    Ret ((u32 (- ENOSYS), replicate 81 0), with_shell_fd s (shell_fd s))).
  { unfold on_shell_fd. rewrite st_get_bind.
    by rewrite (st_bind_run _ _ _ ((u32 (- ENOSYS), replicate 81 0), shell_fd s) s)
      by (by rewrite (st_bind_run _ _ _ _ _ (no_read (replicate 81 0) 80 s (shell_fd s) f o Hd Hf Ho))). }
  rewrite (st_bind_run _ _ _ _ _ Hrun). change (0 <? u32 (- ENOSYS)) with true. cbv iota.
  change (cstr (replicate 81 0)) with (@Ret (list Z) []).
  apply (IH (with_output (with_shell_fd s (shell_fd s)) (output s ++ []))); done.
Qed.

(** The same mistake in [copy]: the error becomes the number of bytes to write from
    a block of 4096. *)
Lemma copy_overreads fuel src block s f o : fd_fs src = Some f -> filesystem_table s !! f = Some o ->
  match fs_ops o with Some a => op_read (driver a) = None | None => False end ->
  copy_loop driver (S fuel) src block s =
    (_ ← on_shell_fd (fun fd => dfs_file_write driver fd block (2 ^ 32 - ENOSYS));
     copy_loop driver fuel src block) s.
Proof.
  intros Hd Hf Ho. cbn [copy_loop]. by rewrite (st_bind_run _ _ _ _ _ (no_read block BUF_SZ s src f o Hd Hf Ho)).
Qed.

(** Mounting a type that is not registered, with room left in the table of types. *)
Lemma mount_unknown_type (device_find : list Z -> option Z) junk path name rwflag data l r s :
  filesystem_operation_table s = (Some <$> l) ++ None :: r -> Forall (fun o => op_name (driver o) <> name) l ->
  dfs_mount driver device_find mem junk None path name rwflag data s = Err NullDeref.
Proof.
  intros Ht Hl. unfold dfs_mount, dfs_lock. unfold_st. cbn. rewrite Ht.
  assert (find_type driver name ((Some <$> l) ++ None :: r) = Err NullDeref) as ->; [|done].
  clear Ht. induction Hl as [|o l Ho _ IH]; [done|]. cbn. by rewrite bool_decide_eq_false_2.
Qed.

(** Unmounting where nothing is mounted. *)
Lemma unmount_nothing ns s : Forall plain_name ns -> blocks s < mem ->
  (forall f, f ∈ filesystem_table s -> fs_path f = None) -> dfs_unmount driver mem (absolute ns) s = Err NullDeref.
Proof.
  intros Hns Hb Hf. unfold dfs_unmount. rewrite (st_bind_run _ _ _ _ _ (normalize_absolute_run mem ns s Hns Hb)).
  cbv iota. unfold dfs_lock at 1. rewrite st_modify_bind. rewrite (st_bind_run _ _ _ _ _ (mount_lookup_run _ _)). cbn [filesystem_table with_lock with_blocks].
  assert (forall (l : list (dfs_filesystem V)) i b, (forall f, f ∈ l -> fs_path f = None) -> lookup_loop (absolute ns) l i b = b) as Hloop.
  { induction l as [|f l IH]; intros i b Hl; [done|]. cbn [lookup_loop]. unfold lookup_turn at 1.
    rewrite (Hl f) by apply list_elem_of_here. apply IH. intros g Hg. apply Hl. by apply list_elem_of_further. }
  by rewrite Hloop.
Qed.
End faults.

(** ** Witnesses *)

(** A file system without operations, mounted at the root; one file is open. *)
Definition bare (n : list Z) : dfs_filesystem_operation unit unit :=
  mkOps n None None None None None None None None None None None None None None None.
Definition bare_state : dfs unit unit :=
  mkDfs [Some 0%nat; None; None; None] [mkFs None (Some [SLASH]) (Some 0%nat) None; no_fs]
    (replicate 4 no_fd) 0 0 0 [] [] (mkFd (Some (str "/a")) 0 0 (Some 0%nat) DFS_F_OPEN 0 0 None) tt.

Lemma mkdir_exhausts_witness : exists s',
  mkdirs (fun _ => bare []) 8 [str "a"; str "b"; str "c"; str "d"] bare_state = Ret (tt, s') /\
  open (fun _ => bare []) 8 (str "/f") 0 s' = Ret (-1, with_errno s' (- ENOMEM)).
Proof.
  apply mkdir_exhausts; [|reflexivity|unfold DFS_FD_MAX; cbn; lia]. repeat (apply Forall_cons; split; [discriminate|]). constructor.
Defined.

Lemma cat_never_ends_witness : cat_loop (fun _ => bare []) 1000 bare_state = Err OutOfFuel.
Proof.
  apply (cat_never_ends (fun _ => bare []) bare_state 0 (mkFs None (Some [SLASH]) (Some 0%nat) None)); reflexivity.
Defined.
