(* ===== verification/RomFiles.v ===== *)
(** * Files of the read-only file system

    The reference reads an image as a tree; a mounted image behind the descriptor
    calls is a table of open files, each some bytes and a position. *)

From S2P Require Import Prelude DfsPath Dfs DfsPosix RomFs DfsFiles.

(** ** The image as a tree *)

(** An image as the tools make it: sizes are the numbers of bytes and of
    entries. *)
Inductive rom_ok : romfs_dirent -> Prop :=
  | file_ok n b : Z.of_nat (length b) < 2 ^ 31 ->
      rom_ok (mkRom ROMFS_DIRENT_FILE n (Bytes b) (Z.of_nat (length b)))
  | dir_ok n l : Forall rom_ok l ->
      rom_ok (mkRom ROMFS_DIRENT_DIR n (Entries l) (Z.of_nat (length l))).

Definition entries (e : romfs_dirent) : list romfs_dirent :=
  match rom_data_of e with Entries l => l | _ => [] end.

(** The first entry that satisfies [p]. *)
Fixpoint pick (p : list Z -> bool) (l : list romfs_dirent) : option romfs_dirent :=
  match l with [] => None | e :: l => if p (rom_name e) then Some e else pick p l end.

(** Following names from an entry, where [p w] decides which entry the name [w]
    means. *)
Fixpoint follow (p : list Z -> list Z -> bool) (e : romfs_dirent) (ws : list (list Z)) : option romfs_dirent :=
  match ws with
  | [] => Some e
  | w :: ws =>
      if rom_type e =? ROMFS_DIRENT_DIR then c ← pick (p w) (entries e); follow p c ws else None
  end.

(** The code takes an entry whose name begins with the one it looks for. *)
Definition begins (w n : list Z) : bool := bool_decide (w `prefix_of` n).
Definition exactly (w n : list Z) : bool := bool_decide (n = w).

Section tree.
Implicit Types (e : romfs_dirent) (w : list Z) (ws ns : list (list Z)).

Lemma name_length_name w r : name_ok w -> r = [] \/ (exists r', r = SLASH :: r') -> name_length (w ++ r) = length w.
Proof.
  intros [_ Hw] Hr. induction Hw as [|c w Hc _ IH]; cbn.
  - by destruct Hr as [->|(r' & ->)].
  - by rewrite (proj2 (Z.eqb_neq _ _) Hc), IH.
Qed.

Lemma same_chars_begins n w r : name_ok w -> same_chars n (w ++ r) (length w) = begins w n.
Proof.
  intros [Ht _]. unfold same_chars, begins. apply bool_decide_ext. rewrite <- app_assoc, take_app_length. split.
  - intros H. destruct (decide (length w <= length n)%nat) as [Hl|Hl].
    + rewrite take_app_le in H by done. exists (drop (length w) n). rewrite <- H at 1. by rewrite take_drop.
    + exfalso. rewrite take_ge in H by (rewrite length_app; cbn; lia). rewrite <- H in Ht.
      apply Forall_app in Ht as [_ Ht]. by apply Forall_cons in Ht as [].
  - intros [k ->]. by rewrite <- app_assoc, take_app_length.
Qed.

Lemma search_pick l w r : name_ok w -> r = [] \/ (exists r', r = SLASH :: r') ->
  search (length l) l (w ++ r) = Ret (pick (begins w) l).
Proof.
  intros Hw Hr. induction l as [|e l IH]; [done|]. cbn [length search pick].
  rewrite name_length_name, same_chars_begins by done. by destruct (begins w (rom_name e)).
Qed.

Lemma unslash_joined ws : Forall plain_name ws -> unslash (joined ws) = joined ws.
Proof.
  intros H. destruct H as [|w ws ([_ Hs] & Hw & _) _]; [done|]. destruct w as [|c w]; [done|].
  apply Forall_cons in Hs as [Hc _]. destruct ws; cbn; by rewrite (proj2 (Z.eqb_neq _ _) Hc).
Qed.

Lemma rom_ok_pick p l e : Forall rom_ok l -> pick p l = Some e -> rom_ok e /\ e ∈ l.
Proof.
  induction 1 as [|a l Ha _ IH]; [done|]. cbn. destruct (p _).
  - intros [= <-]. split; [done|apply list_elem_of_here].
  - intros [? ?]%IH. split; [done|by apply list_elem_of_further].
Qed.

Lemma rom_ok_follow p e ws c : rom_ok e -> follow p e ws = Some c -> rom_ok c.
Proof.
  revert e. induction ws as [|w ws IH]; cbn; intros e He; [by intros [= <-]|].
  destruct He as [n b Hb|n l Hl]; cbn; [done|]. unfold entries. cbn. destruct (pick (p w) l) as [d|] eqn:E; [|done].
  cbn. apply IH. by apply (rom_ok_pick (p w) l).
Qed.

Definition sized e : romfs_dirent * Z := (e, rom_size e).

Lemma lookup_from_follow fuel e w ws : rom_ok e -> rom_type e = ROMFS_DIRENT_DIR -> Forall plain_name (w :: ws) ->
  (length (joined (w :: ws)) < fuel)%nat ->
  lookup_from fuel (rom_data_of e) (rom_size e) (joined (w :: ws)) = Ret (sized <$> follow begins e (w :: ws)).
Proof.
  revert e w ws. induction fuel as [|fuel IH]; intros e w ws He Hd Hns Hf; [lia|].
  destruct He as [|n l Hl]; [done|]. apply Forall_cons in Hns as [Hw Hns].
  assert (exists r, joined (w :: ws) = w ++ r /\ (r = [] \/ exists r', r = SLASH :: r') /\ unslash r = joined ws /\
    (length (joined ws) <= length r)%nat) as (r & Hj & Hr & Hu & Hlen).
  { destruct ws as [|v ws]; [exists []; rewrite app_nil_r; split_and!; [done|by left|done|done]|].
    exists (SLASH :: joined (v :: ws)). split_and!; [done|right; eauto| |cbn [length]; lia].
    cbn [unslash]. rewrite Z.eqb_refl. by apply unslash_joined. }
  rewrite Hj in *. cbn [lookup_from rom_data_of rom_size follow rom_type entries]. rewrite Nat2Z.id.
  rewrite search_pick by (done || apply Hw). cbn [mbind res_bind Z.eqb ROMFS_DIRENT_DIR option_bind].
  unfold entries. cbn [rom_data_of]. destruct (pick (begins w) l) as [c|] eqn:Ep; [|done]. cbn [mbind option_bind].
  rewrite name_length_name, drop_app_length, Hu by (done || apply Hw).
  destruct ws as [|v ws]; [done|]. assert (Hc := rom_ok_pick _ _ _ Hl Ep).
  assert (joined (v :: ws) <> []) as Hj' by (intros ?%joined_nil; done).
  destruct (joined (v :: ws)) as [|x s] eqn:Ej; [done|]. rewrite <- Ej. cbn [follow].
  destruct (rom_type c =? ROMFS_DIRENT_DIR) eqn:Et; [|done]. apply Z.eqb_eq in Et.
  rewrite IH; [|apply Hc|done|done|].
  - cbn [follow]. by rewrite Et.
  - rewrite length_app in Hf. rewrite Ej. destruct w; [by destruct Hw as (_ & [] & _)|]. cbn [length] in *. lia.
Qed.

Lemma romfs_lookup_follow e ns : rom_ok e -> rom_type e = ROMFS_DIRENT_DIR -> Forall plain_name ns ->
  dfs_romfs_lookup e (absolute ns) = Ret (sized <$> follow begins e ns).
Proof.
  intros He Hd Hns. unfold dfs_romfs_lookup. destruct ns as [|w ns]; [done|].
  assert (joined (w :: ns) <> []) as Hj by (intros ?%joined_nil; done).
  rewrite bool_decide_eq_false_2 by (unfold absolute; congruence).
  assert (Hu : unslash (absolute (w :: ns)) = joined (w :: ns)).
  { cbn [unslash absolute]. rewrite Z.eqb_refl. by apply unslash_joined. }
  rewrite Hu. apply lookup_from_follow; try done. cbn. lia.
Qed.
End tree.

(** No entry's name begins with the name of a later one: then the entry the code
    takes is the one of exactly that name. *)
Definition apart (l : list romfs_dirent) : Prop := forall i j a b, (i < j)%nat ->
  l !! i = Some a -> l !! j = Some b -> ~ rom_name b `prefix_of` rom_name a.

Inductive separate : romfs_dirent -> Prop :=
  | separate_leaf t n d s : (forall l, d <> Entries l) -> separate (mkRom t n d s)
  | separate_dir t n l s : apart l -> Forall separate l -> separate (mkRom t n (Entries l) s).

Lemma pick_exact w l c : apart l -> pick (exactly w) l = Some c -> pick (begins w) l = Some c.
Proof.
  induction l as [|a l IH]; intros Hl; [done|]. cbn. unfold exactly at 1, begins at 1.
  case_bool_decide as Ha; [intros [= ->]; by rewrite bool_decide_eq_true_2 by (by rewrite Ha)|].
  intros Hc. assert (exists j b, l !! j = Some b /\ rom_name b = w) as (j & b & Hj & Hb).
  { clear IH Hl. induction l as [|b l IH]; [done|]. cbn in Hc. unfold exactly at 1 in Hc.
    case_bool_decide; [by exists O, b|]. destruct (IH Hc) as (j & b' & ? & ?). by exists (S j), b'. }
  rewrite bool_decide_eq_false_2.
  - apply IH; [|done]. intros i k x y Hik Hx Hy. by apply (Hl (S i) (S k) x y); [lia|..].
  - rewrite <- Hb. apply (Hl O (S j) a b); [lia|done|done].
Qed.

Lemma follow_exact e ns c : separate e -> follow exactly e ns = Some c -> follow begins e ns = Some c.
Proof.
  revert e. induction ns as [|w ns IH]; intros e He; [done|]. cbn [follow].
  destruct (rom_type e =? ROMFS_DIRENT_DIR); [|done]. destruct He as [t n d s Hd|t n l s Hl Hs]; unfold entries; cbn.
  - destruct d; try done. by destruct (Hd l).
  - destruct (pick (exactly w) l) as [x|] eqn:E; [|done]. cbn. rewrite (pick_exact w l x) by done. cbn. apply IH.
    assert (x ∈ l) as Hx.
    { clear -E. induction l as [|a l IH]; [done|]. cbn in E. destruct (exactly _ _).
      - injection E as ->. apply list_elem_of_here.
      - by apply list_elem_of_further, IH. }
    rewrite Forall_forall in Hs. by apply Hs.
Qed.

(** ** A mounted image as a table of open files *)

Section mounted.
Context {D : Type}.
Context (driver : nat -> dfs_filesystem_operation D romfs_dirent) (rom : nat) (mem : Z).
(** The read-only file system is the one at the address [rom]. *)
Context (Hrom : driver rom = romfs).
Context (root : romfs_dirent) (Hroot : rom_ok root) (Hdir : rom_type root = ROMFS_DIRENT_DIR).

Abbreviation state := (dfs D romfs_dirent).
Implicit Types (s : state) (d : dfs_fd romfs_dirent) (b : list Z) (pos : Z) (ns : list (list Z)).

(** The mounts: the image at the root. *)
Definition mounts : list (dfs_filesystem romfs_dirent) := [mkFs None (Some [SLASH]) (Some rom) (Some root); no_fs].

(** The bytes of the file at a path. *)
Definition file_at ns : option (list Z) :=
  e ← follow begins root ns; match rom_data_of e with Bytes b => Some b | _ => None end.

(** A file of the abstract table: its bytes and the position in it. *)
Definition file : Type := (list Z * Z)%type.

(** A descriptor of an open file, and what a table entry stands for. *)
Definition reads d b pos : Prop :=
  fd_fs d = Some 0%nat /\ fd_type d = FT_REGULAR /\ fd_path d <> None /\
  (exists n, fd_data d = Some (mkRom ROMFS_DIRENT_FILE n (Bytes b) (Z.of_nat (length b)))) /\
  fd_size d = Z.of_nat (length b) /\ fd_pos d = pos /\ 0 <= pos <= Z.of_nat (length b) /\ Z.of_nat (length b) < 2 ^ 31.

Definition stands_for d (f : option file) : Prop :=
  match f with
  | Some (b, pos) => 1 <= fd_ref d /\ reads d b pos
  | None => fd_ref d <= 0 /\ fd_fs d = None
  end.

Definition opened (A : list (option file)) : Z := Z.of_nat (length (filter (fun f => f <> None) A)).

(** [base] heap blocks are in use apart from the paths of open files. *)
Record represents (base : Z) s (A : list (option file)) : Prop := {
  rp_mounts : filesystem_table s = mounts;
  rp_fds : Forall2 stands_for (fd_table s) A;
  rp_length : length A = DFS_FD_MAX;
  rp_blocks : blocks s = base + opened A;
  rp_lock : fslock s = 0
}.

Inductive request :=
  | Open (ns : list (list Z))
  | Read (fd n : Z)
  | Seek (fd offset whence : Z)
  | Close (fd : Z).

(** The calls; the answer is the result and the bytes read. *)
Definition serve (r : request) : ST state (Z * list Z) :=
  match r with
  | Open ns => fd ← open driver mem (absolute ns) O_RDONLY; mret (fd, [])
  | Read fd n => '(r, buf) ← read driver fd (replicate (Z.to_nat n) 0) n; mret (r, take (Z.to_nat r) buf)
  | Seek fd offset whence => r ← lseek driver fd offset whence; mret (r, [])
  | Close fd => r ← close driver fd; mret (r, [])
  end.

(** What they mean. [None] is a call on a descriptor that is not open, which the
    code does not survive. *)
Definition lookup_fd (A : list (option file)) (fd : Z) : option (option (nat * file)) :=
  if decide (0 <= fd < Z.of_nat DFS_FD_MAX) then
    match A !! Z.to_nat fd with Some (Some f) => Some (Some (Z.to_nat fd, f)) | _ => None end
  else Some None.

Definition target (f : file) (offset whence : Z) : option Z :=
  let t := if whence =? 0 then Some offset
           else if whence =? 1 then Some (offset + snd f)
           else if whence =? 2 then Some (offset + Z.of_nat (length (fst f)))
           else None in
  t ← t; if decide (0 <= t <= Z.of_nat (length (fst f))) then Some t else None.

Definition meaning (A : list (option file)) (r : request) : option (Z * list Z * list (option file)) :=
  match r with
  | Open ns =>
      let i := first_index (fun f => bool_decide (f = None)) A in
      match file_at ns with
      | Some b => if (i <? DFS_FD_MAX)%nat then Some (Z.of_nat i, [], <[i := Some (b, 0)]> A) else Some (-1, [], A)
      | None => Some (-1, [], A)
      end
  | Read fd n =>
      f ← lookup_fd A fd;
      match f with
      | None => Some (-1, [], A)
      | Some (i, (b, pos)) =>
          let t := take (Z.to_nat n) (drop (Z.to_nat pos) b) in
          Some (Z.of_nat (length t), t, <[i := Some (b, pos + Z.of_nat (length t))]> A)
      end
  | Seek fd offset whence =>
      f ← lookup_fd A fd;
      match f with
      | None => Some (-1, [], A)
      | Some (i, f) =>
          match target f offset whence with
          | Some t => Some (t, [], <[i := Some (fst f, t)]> A)
          | None => Some (-1, [], A)
          end
      end
  | Close fd =>
      f ← lookup_fd A fd;
      match f with
      | None => Some (-1, [], A)
      | Some (i, _) => Some (0, [], <[i := None]> A)
      end
  end.

(** Arguments in the range of their types. *)
Definition in_range (r : request) : Prop :=
  match r with
  | Open ns => Forall plain_name ns
  | Read _ n => 0 <= n < 2 ^ 32
  | Seek _ offset _ => - 2 ^ 31 <= offset < 2 ^ 31
  | Close _ => True
  end.

Lemma reads_pos d b pos pos' : reads d b pos -> 0 <= pos' <= Z.of_nat (length b) -> reads (with_pos d pos') b pos'.
Proof. intros (? & ? & ? & ? & ? & ? & ? & ?) []. unfold reads. by split_and!. Qed.

(** *** The operations on one descriptor *)

Lemma with_medium_id s : with_medium s (medium s) = s.
Proof. by destruct s. Qed.

Lemma on_medium_run {A} (op : D -> res (A * D)) a s : op (medium s) = Ret (a, medium s) -> on_medium op s = Ret (a, s).
Proof. intros H. rewrite <- (with_medium_id s) at 2. unfold on_medium. unfold_st. by rewrite H. Qed.

Lemma lookup_root ns s : filesystem_table s = mounts -> dfs_filesystem_lookup (absolute ns) s = Ret (Some 0%nat, s).
Proof. intros H. rewrite mount_lookup_run, H. do 2 f_equal. Qed.

Lemma get_fs_root s : filesystem_table s = mounts ->
  get_fs (Some 0%nat) s = Ret (mkFs None (Some [SLASH]) (Some rom) (Some root), s).
Proof. intros H. unfold get_fs. unfold_st. by rewrite H. Qed.

Lemma ops_root s : ops_of driver (mkFs None (Some [SLASH]) (Some rom) (Some root)) s = Ret (romfs, s).
Proof. unfold ops_of. cbn. by rewrite Hrom. Qed.

Lemma fd_ops_root d s : filesystem_table s = mounts -> fd_fs d = Some 0%nat ->
  fd_ops driver d s = Ret ((mkFs None (Some [SLASH]) (Some rom) (Some root), romfs), s).
Proof.
  intros H Hd. unfold fd_ops. rewrite Hd, (st_bind_run _ _ _ _ _ (get_fs_root s H)).
  by rewrite (st_bind_run _ _ _ _ _ (ops_root s)).
Qed.

(** The mount point is cut off the path. *)
Lemma subdir_root ns : Forall plain_name ns ->
  exists p, dfs_subdir [SLASH] (absolute ns) = Ret p /\ (match p with None => [SLASH] | Some q => q end) = absolute ns.
Proof.
  intros Hns. destruct Hns as [|w ns ([_ Hs] & Hw & _) _]; [by exists None|]. destruct w as [|c w]; [done|].
  apply Forall_cons in Hs as [Hc _]. exists (Some (absolute ((c :: w) :: ns))). split; [|done].
  unfold dfs_subdir. destruct (Nat.eqb_spec (length [SLASH]) (length (absolute ((c :: w) :: ns)))) as [E|_].
  { destruct ns; cbn in E; lia. }
  assert (idx (absolute ((c :: w) :: ns) ++ [0]) (Z.of_nat (length [SLASH])) = Ret c) as ->.
  { apply idx_Ret. split; [cbn; lia|]. by destruct ns. }
  cbn [mbind res_bind]. by rewrite (proj2 (Z.eqb_neq _ _) Hc).
Qed.

Lemma file_at_follow ns b : file_at ns = Some b ->
  exists n, follow begins root ns = Some (mkRom ROMFS_DIRENT_FILE n (Bytes b) (Z.of_nat (length b))) /\
    Z.of_nat (length b) < 2 ^ 31.
Proof.
  unfold file_at. destruct (follow begins root ns) as [e|] eqn:E; [|done]. cbn.
  destruct (rom_ok_follow _ _ _ _ Hroot E) as [n b' Hb|n l Hl]; cbn; [|done]. intros [= ->]. eauto.
Qed.

Lemma no_file_at ns : file_at ns = None ->
  match follow begins root ns with Some e => rom_type e = ROMFS_DIRENT_DIR | None => True end.
Proof.
  unfold file_at. destruct (follow begins root ns) as [e|] eqn:E; [|done]. cbn.
  by destruct (rom_ok_follow _ _ _ _ Hroot E).
Qed.

(** The descriptor of a file just opened. *)
Definition fresh d ns b n : dfs_fd romfs_dirent :=
  mkFd (Some (absolute ns)) FT_REGULAR (fd_ref d) (Some 0%nat) DFS_F_OPEN (Z.of_nat (length b)) 0
    (Some (mkRom ROMFS_DIRENT_FILE n (Bytes b) (Z.of_nat (length b)))).

Definition root_fs : dfs_filesystem romfs_dirent := mkFs None (Some [SLASH]) (Some rom) (Some root).

(** Everything up to the call of the file system's [open]. *)
Lemma file_open_calls d ns s : filesystem_table s = mounts -> Forall plain_name ns -> blocks s + 1 < mem ->
  let d0 := mkFd (Some (absolute ns)) FT_REGULAR (fd_ref d) (Some 0%nat) O_RDONLY 0 0 (fd_data d) in
  dfs_file_open driver mem d (absolute ns) O_RDONLY s =
    ('(result, fd) ← on_medium (dfs_romfs_open root_fs d0);
     if result <? 0 then _ ← free_path (fd_path fd); mret (result, no_fd)
     else mret (0, with_fd_flags fd (Z.lor (fd_flags fd) DFS_F_OPEN))) (with_blocks s (blocks s + 1)).
Proof.
  intros Hm Hns Hb d0. unfold dfs_file_open.
  rewrite (st_bind_run _ _ _ _ _ (normalize_absolute_run mem ns s Hns ltac:(lia))). cbv iota.
  set (s1 := with_blocks s (blocks s + 1)). assert (Hm1 : filesystem_table s1 = mounts) by done.
  rewrite (st_bind_run _ _ _ _ _ (lookup_root ns s1 Hm1)). cbv iota.
  rewrite (st_bind_run _ _ _ _ _ (get_fs_root s1 Hm1)).
  destruct (subdir_root ns Hns) as (p & Hp & Hq).
  assert (Hsub : subdir root_fs (absolute ns) s1 = Ret (p, s1)).
  { unfold subdir, path_str, root_fs. cbn [fs_path]. unfold_st. by rewrite Hp. }
  rewrite (st_bind_run _ _ _ _ _ Hsub), Hq.
  assert (Hdup : rt_strdup mem (absolute ns) s1 = Ret (Some (absolute ns), with_blocks s1 (blocks s1 + 1))).
  { unfold rt_strdup. by rewrite (st_bind_run _ _ _ _ _ (malloc_run mem s1 ltac:(cbn; lia))). }
  rewrite (st_bind_run _ _ _ _ _ Hdup), (st_bind_run _ _ _ _ _ (release_run s1)).
  rewrite (st_bind_run _ _ _ _ _ (ops_root s1)). done.
Qed.

Lemma file_open_run d ns s : filesystem_table s = mounts -> Forall plain_name ns -> blocks s + 1 < mem ->
  match file_at ns with
  | Some b => exists n, dfs_file_open driver mem d (absolute ns) O_RDONLY s =
      Ret ((0, fresh d ns b n), with_blocks s (blocks s + 1))
  | None => dfs_file_open driver mem d (absolute ns) O_RDONLY s = Ret ((- ENOENT, no_fd), s)
  end.
Proof.
  intros Hm Hns Hb. assert (Hrun := file_open_calls d ns s Hm Hns Hb). cbv zeta in Hrun.
  destruct (file_at ns) as [b|] eqn:Ef.
  - destruct (file_at_follow ns b Ef) as (n & Hf & _). exists n. rewrite Hrun.
    rewrite (st_bind_run _ _ _ (0, mkFd (Some (absolute ns)) FT_REGULAR (fd_ref d) (Some 0%nat) O_RDONLY (Z.of_nat (length b)) 0
      (Some (mkRom ROMFS_DIRENT_FILE n (Bytes b) (Z.of_nat (length b))))) (with_blocks s (blocks s + 1))); [done|].
    apply on_medium_run. unfold dfs_romfs_open. cbn [fd_flags fd_path fs_data root_fs deref mbind res_bind mret res_ret].
    rewrite romfs_lookup_follow, Hf by done. done.
  - rewrite Hrun. rewrite (st_bind_run _ _ _ (- ENOENT, mkFd (Some (absolute ns)) FT_REGULAR (fd_ref d) (Some 0%nat) O_RDONLY 0 0 (fd_data d))
      (with_blocks s (blocks s + 1))).
    + cbn [Z.ltb fd_path]. change (- ENOENT <? 0) with true. cbv iota. unfold free_path.
      by rewrite (st_bind_run _ _ _ _ _ (release_run s)).
    + apply on_medium_run. unfold dfs_romfs_open. cbn [fd_flags fd_path fs_data root_fs deref mbind res_bind mret res_ret].
      rewrite romfs_lookup_follow by done. apply no_file_at in Ef. destruct (follow begins root ns) as [e|]; [|done].
      cbn. by rewrite Ef.
Qed.

Lemma file_read_run d b pos n m s : filesystem_table s = mounts -> reads d b pos -> 0 <= n < 2 ^ 32 ->
  (Z.to_nat n <= m)%nat ->
  let t := take (Z.to_nat n) (drop (Z.to_nat pos) b) in
  dfs_file_read driver d (replicate m 0) n s =
    Ret ((Z.of_nat (length t), with_pos d (pos + Z.of_nat (length t)), t ++ replicate (m - length t) 0), s).
Proof.
  intros Hm (Hfs & _ & _ & (nm & Hd) & Hsz & Hpos & Hp & Hb) Hn Hnm t. unfold dfs_file_read.
  rewrite (st_bind_run _ _ _ _ _ (fd_ops_root d s Hm Hfs)). cbn [op_read romfs].
  assert (Hlen : Z.of_nat (length t) = Z.min n (Z.of_nat (length b) - pos)).
  { unfold t. rewrite length_take, length_drop. lia. }
  rewrite (st_bind_run _ _ _ (Z.of_nat (length t), with_pos d (pos + Z.of_nat (length t)),
    t ++ replicate (m - length t) 0) s).
  { rewrite (proj2 (Z.ltb_ge _ _)) by lia. done. }
  apply on_medium_run. unfold dfs_romfs_read. rewrite Hd, Hsz, Hpos. cbn [rom_data_of].
  rewrite wrap_id by lia. assert ((if n <? Z.of_nat (length b) - pos then n else Z.of_nat (length b) - pos) = Z.of_nat (length t)) as ->.
  { rewrite Hlen. destruct (Z.ltb_spec n (Z.of_nat (length b) - pos)); lia. }
  destruct (Z.ltb_spec 0 (Z.of_nat (length t))) as [Hl|Hl].
  - rewrite (proj2 (Z.leb_le 0 pos)), (proj2 (Z.leb_le (pos + _) _)) by lia. cbn [andb].
    assert (take (Z.to_nat (Z.of_nat (length t))) (drop (Z.to_nat pos) b) = t) as ->.
    { rewrite Nat2Z.id. unfold t. rewrite length_take, <- take_take. by rewrite (take_ge (drop _ _)). }
    rewrite upd_range_0 by (rewrite length_replicate; lia). rewrite drop_replicate. done.
  - destruct t; [|cbn in Hl; lia]. by rewrite Nat.sub_0_r.
Qed.

Lemma file_lseek_run d b pos t s : filesystem_table s = mounts -> stands_for d (Some (b, pos)) ->
  0 <= t < 2 ^ 31 ->
  dfs_file_lseek driver d t s =
    Ret (if t <=? Z.of_nat (length b) then (t, with_pos d t) else (- EIO, d), s).
Proof.
  intros Hm (_ & Hfs & _ & _ & _ & Hsz & _) Ht. unfold dfs_file_lseek.
  rewrite (st_bind_run _ _ _ _ _ (fd_ops_root d s Hm Hfs)). cbn [op_lseek romfs].
  rewrite (st_bind_run _ _ _ (if t <=? Z.of_nat (length b) then (t, with_pos d t) else (- EIO, d)) s).
  - destruct (t <=? Z.of_nat (length b)); [|done]. by rewrite (proj2 (Z.leb_le 0 t)) by lia.
  - apply on_medium_run. unfold dfs_romfs_lseek. rewrite Hsz, wrap_id by lia. by destruct (t <=? _).
Qed.

Lemma file_close_run d b pos s : filesystem_table s = mounts -> reads d b pos ->
  dfs_file_close driver d s = Ret ((0, no_fd), with_blocks s (blocks s - 1)).
Proof.
  intros Hm (Hfs & _ & Hpath & _). unfold dfs_file_close.
  rewrite (st_bind_run _ _ _ _ _ (fd_ops_root d s Hm Hfs)). cbn [op_close romfs].
  rewrite (st_bind_run _ _ _ (0, with_data d None) s) by (by apply on_medium_run). cbn [Z.ltb with_data fd_path].
  by destruct (fd_path d).
Qed.

(** *** The calls *)

Lemma with_fds_twice s x y : with_fds (with_fds s x) y = with_fds s y.
Proof. done. Qed.

(** A call on an open descriptor, between its [fd_get] and [fd_put]. *)
Lemma call_run {A} i d (op : dfs_fd romfs_dirent -> ST state (A * dfs_fd romfs_dirent)) (a : A) d' s :
  (i < DFS_FD_MAX)%nat -> fd_table s !! i = Some d -> 1 <= fd_ref d -> fd_ref d' = fd_ref d + 1 ->
  (forall s1, filesystem_table s1 = filesystem_table s -> op (with_ref d (fd_ref d + 1)) s1 = Ret ((a, d'), s1)) ->
  exists s1 s2, fd_get (Z.of_nat i) s = Ret (Some i, s1) /\ fd_table s1 !! i = Some (with_ref d (fd_ref d + 1)) /\
    on_fd i op s1 = Ret (a, s2) /\
    fd_put i s2 = Ret (tt, with_fds s (<[i := with_ref d' (fd_ref d)]> (fd_table s))).
Proof.
  intros Hi Hd Hr Hr' Hop. assert (Hl := lookup_lt_Some _ _ _ Hd).
  set (s1 := with_fds s (<[i := with_ref d (fd_ref d + 1)]> (fd_table s))).
  exists s1, (with_fds s1 (<[i := d']> (fd_table s1))). split; [by apply fd_get_run|].
  assert (H1 : fd_table s1 !! i = Some (with_ref d (fd_ref d + 1))) by (by apply list_lookup_insert_eq).
  split; [done|]. split; [by apply (on_fd_run i _ op s1 a d' s1 H1), Hop|].
  rewrite (fd_put_run i d') by (cbn; rewrite list_lookup_insert_eq; [done|by rewrite length_insert]).
  do 2 f_equal. subst s1. rewrite !with_fds_twice. cbn [fd_table with_fds]. rewrite !list_insert_insert_eq, Hr'.
  destruct (Z.eqb_spec (fd_ref d + 1 - 1) 0); [lia|]. by rewrite Z.add_simpl_r.
Qed.

Definition is_open (f : option file) : Z := match f with Some _ => 1 | None => 0 end.

Lemma opened_insert A i f g : A !! i = Some f -> opened (<[i := g]> A) = opened A - is_open f + is_open g.
Proof.
  unfold opened. revert i. induction A as [|h A IH]; intros [|i] Hi; [done..| |].
  - injection Hi as ->. cbn [list_insert insert]. rewrite !filter_cons.
    destruct f, g; repeat case_decide; cbn [length is_open] in *; try done; lia.
  - cbn in Hi. change (<[S i := g]> (h :: A)) with (h :: <[i := g]> A). rewrite !filter_cons.
    specialize (IH i Hi). case_decide; cbn [length]; lia.
Qed.

Lemma represents_lookup base s A i f : represents base s A -> A !! i = Some f ->
  exists d, fd_table s !! i = Some d /\ stands_for d f /\ (i < DFS_FD_MAX)%nat.
Proof.
  intros [_ H Hl _ _] Hi. destruct (Forall2_lookup_r _ _ _ _ _ H Hi) as (d & Hd & Hs). exists d.
  split_and!; [done..|]. rewrite <- Hl. by eapply lookup_lt_Some.
Qed.

(** An entry and its meaning change together. *)
Lemma represents_update base s A i f g d x : represents base s A -> A !! i = Some f -> stands_for d g ->
  x = blocks s - is_open f + is_open g ->
  represents base (with_fds (with_blocks s x) (<[i := d]> (fd_table s))) (<[i := g]> A).
Proof.
  intros [Hm H Hl Hb Hk] Hi Hd ->. split; cbn.
  - done.
  - by apply Forall2_insert.
  - by rewrite length_insert.
  - rewrite (opened_insert A i f g Hi). lia.
  - done.
Qed.

Lemma represents_same base s A i f g d : represents base s A -> A !! i = Some f -> stands_for d g ->
  is_open f = is_open g -> represents base (with_fds s (<[i := d]> (fd_table s))) (<[i := g]> A).
Proof.
  intros H Hi Hd Ho. assert (Hu := represents_update base s A i f g d (blocks s) H Hi Hd ltac:(lia)).
  by destruct s.
Qed.

Lemma represents_errno base s A e : represents base s A -> represents base (with_errno s e) A.
Proof. by intros []. Qed.

Lemma failed_run base e s A : represents base s A ->
  exists s', failed e s = Ret (-1, s') /\ represents base s' A.
Proof. intros H. eexists. split; [done|]. by apply represents_errno. Qed.

Lemma stands_ref d b pos r : stands_for d (Some (b, pos)) -> 1 <= r -> stands_for (with_ref d r) (Some (b, pos)).
Proof. by intros (_ & ?) Hr. Qed.

Lemma stands_pos d b pos pos' : stands_for d (Some (b, pos)) -> 0 <= pos' <= Z.of_nat (length b) ->
  stands_for (with_pos d pos') (Some (b, pos')).
Proof. intros [Hr Hd] Hp. split; [done|]. by apply (reads_pos d b pos). Qed.

(** A call on a descriptor that is open, or out of the table's range. *)
Lemma lookup_fd_cases base s A fd f : represents base s A -> lookup_fd A fd = Some f ->
  match f with
  | None => fd_get fd s = Ret (None, s)
  | Some (i, (b, pos)) => fd = Z.of_nat i /\ A !! i = Some (Some (b, pos)) /\ (i < DFS_FD_MAX)%nat /\
      exists d, fd_table s !! i = Some d /\ stands_for d (Some (b, pos))
  end.
Proof.
  intros H. unfold lookup_fd. case_decide as Hr.
  - destruct (A !! Z.to_nat fd) as [[[b pos]|]|] eqn:E; [|done..]. intros [= <-].
    destruct (represents_lookup _ _ _ _ _ H E) as (d & Hd & Hs & Hi). split_and!; [lia|done|done|by exists d].
  - intros [= <-]. apply fd_get_range. lia.
Qed.

Lemma read_run base s A fd n o A' : represents base s A -> in_range (Read fd n) -> meaning A (Read fd n) = Some (o, A') ->
  exists s' buf, read driver fd (replicate (Z.to_nat n) 0) n s = Ret ((fst o, buf), s') /\
    take (Z.to_nat (fst o)) buf = snd o /\ represents base s' A'.
Proof.
  intros H Hn Hmean. cbn [meaning mbind option_bind] in Hmean. destruct (lookup_fd A fd) as [f|] eqn:E; [|done].
  apply (lookup_fd_cases base s) in E; [|done]. unfold read. destruct f as [[i [b pos]]|].
  - destruct E as (-> & Hi & Hlt & d & Hd & Hs). injection Hmean as <- <-.
    set (t := take (Z.to_nat n) (drop (Z.to_nat pos) b)) in *.
    assert (Hlen : 0 <= pos + Z.of_nat (length t) <= Z.of_nat (length b)).
    { unfold t. rewrite length_take, length_drop. destruct Hs as (_ & _ & _ & _ & _ & _ & _ & ? & _). lia. }
    assert (Href := proj1 Hs). set (d1 := with_ref d (fd_ref d + 1)).
    assert (Hs1 : stands_for d1 (Some (b, pos))) by (apply stands_ref; [done|lia]).
    destruct (call_run i d (fun fd => '(r, fd, b) ← dfs_file_read driver fd (replicate (Z.to_nat n) 0) n; mret ((r, b), fd))
      (Z.of_nat (length t), t ++ replicate (Z.to_nat n - length t) 0) (with_pos d1 (pos + Z.of_nat (length t))) s)
      as (s1 & s2 & H1 & _ & H2 & H3); [done..| |].
    { intros s1 Hm. apply (f_equal id) in Hm.
      by rewrite (st_bind_run _ _ _ _ _ (file_read_run d1 b pos n _ s1 (eq_trans Hm (rp_mounts _ _ _ H)) (proj2 Hs1) Hn (Nat.le_refl _))). }
    rewrite (st_bind_run _ _ _ _ _ H1). cbv iota. rewrite (st_bind_run _ _ _ _ _ H2). cbv iota beta.
    rewrite (st_bind_run _ _ _ _ _ H3). rewrite (proj2 (Z.ltb_ge _ 0)) by lia.
    eexists _, _. split; [done|]. split; [cbn [fst snd]; by rewrite Nat2Z.id, take_app_length|].
    apply (represents_same base s A i (Some (b, pos))); [done..| |done].
    apply stands_ref; [|done]. by apply (stands_pos _ b pos).
  - injection Hmean as <- <-. rewrite (st_bind_run _ _ _ _ _ E). cbv iota.
    destruct (failed_run base (- EBADF) s A H) as (s' & Hf & H'). rewrite (st_bind_run _ _ _ _ _ Hf).
    by eexists _, _.
Qed.

(** The position the code computes, against the one that is meant. *)
Lemma code_target b pos offset whence : 0 <= pos <= Z.of_nat (length b) -> Z.of_nat (length b) < 2 ^ 31 ->
  - 2 ^ 31 <= offset < 2 ^ 31 ->
  let code := if whence =? 0 then Some offset else if whence =? 1 then Some (s32 (offset + pos))
              else if whence =? 2 then Some (s32 (offset + Z.of_nat (length b))) else None in
  match target (b, pos) offset whence with
  | Some t => code = Some t /\ 0 <= t <= Z.of_nat (length b)
  | None => match code with Some t => t < 0 \/ Z.of_nat (length b) < t < 2 ^ 31 | None => True end
  end.
Proof.
  intros Hp Hb Ho. unfold target. cbn [fst snd].
  assert (Hs : forall x, 0 <= x < 2 ^ 31 -> (offset + x < 2 ^ 31 /\ s32 (offset + x) = offset + x) \/
    (2 ^ 31 <= offset + x /\ s32 (offset + x) < 0)).
  { intros x Hx. destruct (Z.lt_ge_cases (offset + x) (2 ^ 31)); [left|right]; split; try done.
    - apply swrap_id; cbn; lia.
    - revert Hx Ho H. unfold swrap. change (2 ^ (32 - 1)) with 2147483648. change (2 ^ 32) with 4294967296.
      change (2 ^ 31) with 2147483648. intros. Z.div_mod_to_equations. lia. }
  destruct (whence =? 0); [|destruct (whence =? 1); [|destruct (whence =? 2); [|done]]]; cbn [mbind option_bind].
  - case_decide; [done|lia].
  - destruct (Hs pos ltac:(lia)) as [[? ->]|[? ?]]; case_decide; first [done | lia].
  - destruct (Hs (Z.of_nat (length b)) ltac:(lia)) as [[? ->]|[? ?]]; case_decide; first [done | lia].
Qed.

Lemma represents_again base s A i f d : represents base s A -> A !! i = Some f -> stands_for d f ->
  represents base (with_fds s (<[i := d]> (fd_table s))) A.
Proof.
  intros H Hi Hd. rewrite <- (list_insert_id A i f) by done. by apply (represents_same base s A i f).
Qed.

(** The end of [lseek], from the descriptor with its extra reference. *)
Lemma lseek_put base s A i d b pos t : represents base s A -> A !! i = Some (Some (b, pos)) ->
  fd_table s !! i = Some d -> stands_for d (Some (b, pos)) -> 2 <= fd_ref d -> 0 <= t < 2 ^ 31 ->
  exists s2 s3, on_fd i (fun fd => dfs_file_lseek driver fd t) s = Ret (if t <=? Z.of_nat (length b) then t else - EIO, s2) /\
    fd_put i s2 = Ret (tt, s3) /\ represents base s3 (<[i := Some (b, if t <=? Z.of_nat (length b) then t else pos)]> A).
Proof.
  intros H Hi Hd Hs Hr Ht. set (d2 := if t <=? Z.of_nat (length b) then with_pos d t else d).
  assert (Hr2 : fd_ref d2 = fd_ref d) by (unfold d2; by destruct (t <=? _)).
  assert (Hl := lookup_lt_Some _ _ _ Hd). set (s2 := with_fds s (<[i := d2]> (fd_table s))).
  assert (H2 : fd_table s2 !! i = Some d2) by (by apply list_lookup_insert_eq).
  eexists s2, _. split; [|split].
  - apply (on_fd_run i d _ s _ d2 s Hd). rewrite (file_lseek_run d b pos t s (rp_mounts _ _ _ H) Hs Ht).
    unfold d2. by destruct (t <=? _).
  - apply (fd_put_run i d2 s2 H2).
  - rewrite Hr2. destruct (Z.eqb_spec (fd_ref d - 1) 0); [lia|]. subst s2. rewrite with_fds_twice.
    cbn [fd_table with_fds]. rewrite list_insert_insert_eq. apply (represents_same base s A i (Some (b, pos))); [done..| |done].
    unfold d2. apply stands_ref; [|lia]. destruct (Z.leb_spec t (Z.of_nat (length b))); [|done]. apply (stands_pos _ b pos); [done|lia].
Qed.

Lemma lseek_run base s A fd offset whence o A' : represents base s A -> in_range (Seek fd offset whence) ->
  meaning A (Seek fd offset whence) = Some (o, A') ->
  exists s', lseek driver fd offset whence s = Ret (fst o, s') /\ represents base s' A' /\ snd o = [].
Proof.
  intros H Hn Hmean. cbn [meaning mbind option_bind] in Hmean. destruct (lookup_fd A fd) as [f|] eqn:E; [|done].
  apply (lookup_fd_cases base s) in E; [|done]. unfold lseek. destruct f as [[i [b pos]]|].
  2: { injection Hmean as <- <-. rewrite (st_bind_run _ _ _ _ _ E).
       destruct (failed_run base (- EBADF) s A H) as (s' & Hf & H'). by exists s'. }
  destruct E as (-> & Hi & Hlt & d & Hd & Hs). assert (Href := proj1 Hs). set (d1 := with_ref d (fd_ref d + 1)).
  assert (Hs1 : stands_for d1 (Some (b, pos))) by (apply stands_ref; [done|lia]).
  assert (Hget := fd_get_run i d s Hlt Hd). set (s1 := with_fds s _) in Hget. change (with_ref d (fd_ref d + 1)) with d1 in s1.
  rewrite (st_bind_run _ _ _ _ _ Hget). cbv iota.
  assert (Hd1 : fd_table s1 !! i = Some d1) by (apply list_lookup_insert_eq; by eapply lookup_lt_Some).
  rewrite (st_bind_run _ _ _ _ _ (get_fd_run i d1 s1 Hd1)).
  assert (H1 : represents base s1 A) by (by apply (represents_again base s A i (Some (b, pos)))).
  destruct Hs as (_ & _ & _ & _ & _ & Hsz & Hpo & Hp & Hb). cbn [fd_size fd_pos with_ref d1]. rewrite Hsz, Hpo.
  assert (Hc := code_target b pos offset whence Hp Hb Hn). cbv zeta in Hc.
  set (code := if whence =? 0 then _ else _) in *. cbv zeta.
  assert (Hput := fun t => lseek_put base s1 A i d1 b pos t H1 Hi Hd1 Hs1 ltac:(cbn; lia)).
  cbn [mbind option_bind fst] in Hmean. destruct (target (b, pos) offset whence) as [t|].
  - destruct Hc as [-> Ht]. injection Hmean as <- <-. rewrite (proj2 (Z.ltb_ge t 0)) by lia.
    destruct (Hput t) as (s2 & s3 & H2 & H3 & H4); [lia|]. rewrite (proj2 (Z.leb_le t _)) in * by lia.
    rewrite (st_bind_run _ _ _ _ _ H2), (st_bind_run _ _ _ _ _ H3), (proj2 (Z.ltb_ge t 0)) by lia. by exists s3.
  - injection Hmean as <- <-.
    assert (forall s' e, represents base s' A -> exists s3, failed e s' = Ret (-1, s3) /\ represents base s3 A /\ @nil Z = []) as Hbad.
    { intros s' e Hrep. destruct (failed_run base e s' A Hrep) as (s3 & ? & ?). by exists s3. }
    destruct code as [t|]; [|by apply Hbad]. destruct (Z.ltb_spec t 0); [by apply Hbad|]. destruct Hc as [|Ht]; [lia|].
    destruct (Hput t) as (s2 & s3 & H2 & H3 & H4); [lia|]. rewrite (proj2 (Z.leb_gt t _)) in * by lia.
    rewrite (st_bind_run _ _ _ _ _ H2), (st_bind_run _ _ _ _ _ H3). apply Hbad.
    by rewrite (list_insert_id A i) in H4.
Qed.

Lemma close_run base s A fd o A' : represents base s A -> meaning A (Close fd) = Some (o, A') ->
  exists s', close driver fd s = Ret (fst o, s') /\ represents base s' A' /\ snd o = [].
Proof.
  intros H Hmean. cbn [meaning mbind option_bind] in Hmean. destruct (lookup_fd A fd) as [f|] eqn:E; [|done].
  apply (lookup_fd_cases base s) in E; [|done]. unfold close. destruct f as [[i [b pos]]|].
  2: { injection Hmean as <- <-. rewrite (st_bind_run _ _ _ _ _ E).
       destruct (failed_run base (- EBADF) s A H) as (s' & Hf & H'). by exists s'. }
  destruct E as (-> & Hi & Hlt & d & Hd & Hs). injection Hmean as <- <-.
  assert (Hl := lookup_lt_Some _ _ _ Hd). assert (Href := proj1 Hs). set (d1 := with_ref d (fd_ref d + 1)).
  assert (Hs1 : stands_for d1 (Some (b, pos))) by (apply stands_ref; [done|lia]).
  assert (Hget := fd_get_run i d s Hlt Hd). set (s1 := with_fds s _) in Hget. change (with_ref d (fd_ref d + 1)) with d1 in s1.
  rewrite (st_bind_run _ _ _ _ _ Hget). cbv iota.
  assert (Hd1 : fd_table s1 !! i = Some d1) by (by apply list_lookup_insert_eq).
  set (s1' := with_blocks s1 (blocks s1 - 1)). set (s2 := with_fds s1' (<[i := no_fd]> (fd_table s1'))).
  assert (Hon : on_fd i (dfs_file_close driver) s1 = Ret (0, s2)).
  { apply (on_fd_run i d1 _ s1 0 no_fd s1' Hd1). by rewrite (file_close_run d1 b pos s1 (rp_mounts _ _ _ H) (proj2 Hs1)). }
  rewrite (st_bind_run _ _ _ _ _ Hon). assert (Hd2 : fd_table s2 !! i = Some no_fd).
  { apply list_lookup_insert_eq. cbn. by rewrite length_insert. }
  assert (Hput := fd_put_run i no_fd s2 Hd2). change (fd_ref no_fd - 1 =? 0) with false in Hput. change (fd_ref no_fd - 1) with (-1) in Hput. cbv iota in Hput.
  set (s3 := with_fds s2 _) in Hput. rewrite (st_bind_run _ _ _ _ _ Hput). cbn [Z.ltb Z.compare].
  assert (Hd3 : fd_table s3 !! i = Some (with_ref no_fd (-1))).
  { apply list_lookup_insert_eq. cbn. by rewrite !length_insert. }
  rewrite (st_bind_run _ _ _ _ _ (fd_put_run i _ s3 Hd3)). eexists. split; [done|]. split; [|done].
  subst s3 s2 s1' s1. cbn [fd_table with_fds with_blocks]. rewrite !list_insert_insert_eq.
  exact (represents_update base s A i (Some (b, pos)) None (with_ref no_fd (-2)) (blocks s - 1) H Hi
    ltac:(by split) ltac:(cbn [is_open]; lia)).
Qed.

Lemma first_index_free l A : Forall2 stands_for l A ->
  first_index (fun d => fd_ref d <=? 0) l = first_index (fun f => bool_decide (f = None)) A.
Proof.
  induction 1 as [|d f l A Hd _ IH]; [done|]. cbn. rewrite IH. destruct f as [[b pos]|].
  - destruct Hd as [Hr _]. by rewrite (proj2 (Z.leb_gt _ _)) by lia.
  - destruct Hd as [Hr _]. by rewrite (proj2 (Z.leb_le _ _)) by lia.
Qed.

Lemma opened_bound A : opened A <= Z.of_nat (length A).
Proof.
  unfold opened. induction A as [|f A IH]; [done|]. rewrite filter_cons. case_decide; cbn [length] in *; lia.
Qed.

Lemma opened_free A i : A !! i = Some None -> opened A < Z.of_nat (length A).
Proof.
  intros Hi. assert (exists g : option file, is_open g = 1) as [g Hg] by (by exists (Some ([], 0))).
  assert (H := opened_insert A i None g Hi). rewrite Hg in H. cbn [is_open] in H.
  assert (Hb := opened_bound (<[i := g]> A)). rewrite length_insert in Hb. lia.
Qed.

Lemma open_run base s A ns o A' : represents base s A -> Forall plain_name ns -> base + 5 <= mem ->
  meaning A (Open ns) = Some (o, A') ->
  exists s', open driver mem (absolute ns) O_RDONLY s = Ret (fst o, s') /\ represents base s' A' /\ snd o = [].
Proof.
  intros H Hns Hmem Hmean. cbn [meaning] in Hmean. unfold open.
  assert (Hfi := first_index_free _ _ (rp_fds _ _ _ H)). set (i := first_index _ A) in *.
  assert (Hle : (i <= DFS_FD_MAX)%nat) by (rewrite <- (rp_length _ _ _ H); apply first_index_le).
  assert (forall s' e, represents base s' A -> exists s3, failed e s' = Ret (-1, s3) /\ represents base s3 A /\ @nil Z = []) as Hbad.
  { intros s' e Hrep. destruct (failed_run base e s' A Hrep) as (s3 & ? & ?). by exists s3. }
  destruct (decide (i = DFS_FD_MAX)) as [Hfull|Hroom].
  { rewrite (st_bind_run _ _ _ _ _ (fd_new_full s ltac:(congruence))). cbn [Z.ltb Z.compare].
    assert (o = (-1, []) /\ A' = A) as [-> ->].
    { destruct (file_at ns); [|by injection Hmean as <- <-]. rewrite Hfull in Hmean. by injection Hmean as <- <-. }
    by apply Hbad. }
  assert (Hlt : (i < DFS_FD_MAX)%nat) by lia.
  destruct (first_index_lookup (fun f : option file => bool_decide (f = None)) A) as (f & Hi & Hf);
    [by rewrite (rp_length _ _ _ H)|]. apply bool_decide_eq_true in Hf as ->. change (A !! i = Some None) in Hi.
  destruct (represents_lookup _ _ _ _ _ H Hi) as (d & Hd & Hs & _). assert (Hl := lookup_lt_Some _ _ _ Hd).
  rewrite (st_bind_run _ _ _ _ _ (fd_new_run i d s Hfi Hlt Hd)). rewrite (proj2 (Z.ltb_ge _ 0)) by lia.
  set (s1 := with_fds s (<[i := with_ref d 1]> (fd_table s))).
  assert (Hd1 : fd_table s1 !! i = Some (with_ref d 1)) by (by apply list_lookup_insert_eq).
  rewrite (st_bind_run _ _ _ _ _ (fd_get_run i _ s1 Hlt Hd1)). cbv iota.
  set (s2 := with_fds s1 _). set (d2 := with_ref (with_ref d 1) (fd_ref (with_ref d 1) + 1)) in s2.
  assert (Hd2 : fd_table s2 !! i = Some d2) by (apply list_lookup_insert_eq; cbn; by rewrite length_insert).
  assert (Hb2 : blocks s2 + 1 < mem).
  { cbn. rewrite (rp_blocks _ _ _ H). assert (Ho := opened_free A i Hi). rewrite (rp_length _ _ _ H) in Ho. unfold DFS_FD_MAX in Ho. lia. }
  assert (Hop := file_open_run d2 ns s2 (rp_mounts _ _ _ H) Hns Hb2). destruct (file_at ns) as [b|] eqn:Ef.
  - destruct Hop as (n & Hop). destruct (file_at_follow ns b Ef) as (_ & _ & Hb31).
    rewrite (proj2 (Nat.ltb_lt _ _) Hlt) in Hmean. injection Hmean as <- <-. set (s3 := with_blocks s2 (blocks s2 + 1)) in Hop.
    rewrite (st_bind_run _ _ _ _ _ (on_fd_run i d2 (fun fd => dfs_file_open driver mem fd (absolute ns) O_RDONLY) s2 _ _ _ Hd2 Hop)).
    cbn [Z.ltb Z.compare]. set (s4 := with_fds s3 _).
    assert (Hd4 : fd_table s4 !! i = Some (fresh d2 ns b n)) by (apply list_lookup_insert_eq; cbn; by rewrite !length_insert).
    rewrite (st_bind_run _ _ _ _ _ (fd_put_run i _ s4 Hd4)). eexists. split; [done|]. split; [|done].
    subst s4 s3 s2 s1. cbn [fd_table with_fds with_blocks]. rewrite !list_insert_insert_eq.
    refine (represents_update base s A i None (Some (b, 0)) (with_ref (fresh d2 ns b n) 1) (blocks s + 1) H Hi _
      ltac:(cbn [is_open]; lia)).
    unfold stands_for, reads. split_and!; try done; [by exists n|lia].
  - injection Hmean as <- <-.
    rewrite (st_bind_run _ _ _ _ _ (on_fd_run i d2 (fun fd => dfs_file_open driver mem fd (absolute ns) O_RDONLY) s2 _ _ _ Hd2 Hop)).
    change (- ENOENT <? 0) with true. cbv iota. set (s3 := with_fds s2 _).
    assert (Hd3 : fd_table s3 !! i = Some no_fd) by (apply list_lookup_insert_eq; cbn; by rewrite !length_insert).
    rewrite (st_bind_run _ _ _ _ _ (fd_put_run i _ s3 Hd3)).
    change (fd_ref no_fd - 1 =? 0) with false. change (fd_ref no_fd - 1) with (-1). cbv iota.
    set (s4 := with_fds s3 _).
    assert (Hd4 : fd_table s4 !! i = Some (with_ref no_fd (-1))) by (apply list_lookup_insert_eq; cbn; by rewrite !length_insert).
    rewrite (st_bind_run _ _ _ _ _ (fd_put_run i _ s4 Hd4)). apply Hbad.
    subst s4 s3 s2 s1. cbn [fd_table with_fds]. rewrite !with_fds_twice, !list_insert_insert_eq.
    by apply (represents_again base s A i None).
Qed.

Lemma request_run base s A r o A' : represents base s A -> in_range r -> base + 5 <= mem ->
  meaning A r = Some (o, A') -> exists s', serve r s = Ret (o, s') /\ represents base s' A'.
Proof.
  intros H Hr Hmem Hmean. destruct o as [z bs]. destruct r as [ns|fd n|fd off wh|fd]; cbn [serve].
  - destruct (open_run _ _ _ _ _ _ H Hr Hmem Hmean) as (s' & Hrun & H' & Hbs). cbn [fst snd] in *. subst bs. exists s'.
    by rewrite (st_bind_run _ _ _ _ _ Hrun).
  - destruct (read_run _ _ _ _ _ _ _ H Hr Hmean) as (s' & buf & Hrun & Hbs & H'). cbn [fst snd] in *. subst bs. exists s'.
    by rewrite (st_bind_run _ _ _ _ _ Hrun).
  - destruct (lseek_run _ _ _ _ _ _ _ _ H Hr Hmean) as (s' & Hrun & H' & Hbs). cbn [fst snd] in *. subst bs. exists s'.
    by rewrite (st_bind_run _ _ _ _ _ Hrun).
  - destruct (close_run _ _ _ _ _ _ H Hmean) as (s' & Hrun & H' & Hbs). cbn [fst snd] in *. subst bs. exists s'.
    by rewrite (st_bind_run _ _ _ _ _ Hrun).
Qed.

(** *** Printing a file *)

Definition printed s t d : state := with_shell_fd (with_output s (output s ++ t)) d.

Lemma on_shell_fd_run {A} (op : dfs_fd romfs_dirent -> ST state (A * dfs_fd romfs_dirent)) a d s s' :
  op (shell_fd s) s = Ret ((a, d), s') -> on_shell_fd op s = Ret (a, with_shell_fd s' d).
Proof. intros H. unfold on_shell_fd. unfold_st. by rewrite H. Qed.

(** Each turn prints the next 80 bytes. *)
Lemma cat_loop_run fuel b pos s : filesystem_table s = mounts -> reads (shell_fd s) b pos -> text b ->
  (length b - Z.to_nat pos + 80 <= 80 * fuel)%nat ->
  exists d, reads d b (Z.of_nat (length b)) /\
    cat_loop driver fuel s = Ret (tt, printed s (drop (Z.to_nat pos) b) d).
Proof.
  revert pos s. induction fuel as [|fuel IH]; intros pos s Hm Hr Ht Hf; [lia|]. cbn [cat_loop].
  assert (Hr' := Hr). destruct Hr' as (? & ? & ? & ? & ? & ? & Hp & Hb).
  assert (Hrun := file_read_run (shell_fd s) b pos 80 81 s Hm Hr ltac:(lia) ltac:(lia)). cbv zeta in Hrun.
  set (t := take (Z.to_nat 80) (drop (Z.to_nat pos) b)) in *.
  assert (Hlen : length t = Nat.min 80 (length b - Z.to_nat pos)) by (unfold t; by rewrite length_take, length_drop).
  set (d := with_pos (shell_fd s) (pos + Z.of_nat (length t))) in *.
  assert (Hd : reads d b (pos + Z.of_nat (length t))) by (apply (reads_pos _ b pos); [done|lia]).
  assert (Hon : on_shell_fd (fun fd => '(r, fd, b) ← dfs_file_read driver fd (replicate 81 0) 80; mret ((u32 r, b), fd)) s =
    Ret ((Z.of_nat (length t), t ++ replicate (81 - length t) 0), with_shell_fd s d)).
  { apply on_shell_fd_run. rewrite (st_bind_run _ _ _ _ _ Hrun). cbv iota beta. by rewrite wrap_id by lia. }
  rewrite (st_bind_run _ _ _ _ _ Hon). cbv iota beta.
  destruct (Z.ltb_spec 0 (Z.of_nat (length t))) as [Hl|Hl].
  - assert (Hc : cstr (t ++ replicate (81 - length t) 0) = Ret t).
    { destruct (81 - length t)%nat as [|k] eqn:E; [lia|]. cbn [replicate]. apply cstr_app. by apply Forall_take, Forall_drop. }
    rewrite Hc. set (s1 := with_output (with_shell_fd s d) (output s ++ t)).
    destruct (IH (pos + Z.of_nat (length t)) s1 Hm Hd Ht) as (d' & Hd' & Hrest); [lia|]. exists d'. split; [done|].
    assert (drop (Z.to_nat pos) b = t ++ drop (Z.to_nat (pos + Z.of_nat (length t))) b) as ->.
    { rewrite Z2Nat.inj_add, Nat2Z.id, <- drop_drop by lia.
      rewrite <- (take_drop (length t) (drop (Z.to_nat pos) b)) at 1. f_equal.
      unfold t at 1. rewrite length_take, <- take_take. by rewrite (take_ge (drop _ _)). }
    transitivity (cat_loop driver fuel s1); [done|]. rewrite Hrest. unfold printed. cbn. by rewrite app_assoc.
  - assert (Hz : length t = 0%nat) by lia. exists d. rewrite Hz, Z.add_0_r in Hd.
    assert (pos = Z.of_nat (length b)) as -> by lia. split; [done|]. rewrite drop_ge by lia. unfold printed.
    rewrite app_nil_r. by destruct s.
Qed.

Lemma cat_run fuel ns b s : filesystem_table s = mounts -> Forall plain_name ns -> blocks s + 1 < mem ->
  file_at ns = Some b -> text b -> (length b + 80 <= 80 * fuel)%nat ->
  cat driver mem fuel (absolute ns) s = Ret (tt, printed s b no_fd).
Proof.
  intros Hm Hns Hmem Hf Ht Hfuel. assert (Hop := file_open_run (shell_fd s) ns s Hm Hns Hmem). rewrite Hf in Hop.
  destruct Hop as (n & Hop). destruct (file_at_follow ns b Hf) as (_ & _ & Hb). unfold cat.
  set (d := fresh (shell_fd s) ns b n) in *. set (s1 := with_blocks s (blocks s + 1)) in Hop.
  rewrite (st_bind_run _ _ _ _ _ (on_shell_fd_run (fun fd => dfs_file_open driver mem fd (absolute ns) O_RDONLY) 0 d s s1 Hop)).
  cbn [Z.ltb Z.compare]. set (s2 := with_shell_fd s1 d).
  assert (Hd : reads (shell_fd s2) b 0) by (unfold reads; split_and!; try done; [by exists n|lia]).
  destruct (cat_loop_run fuel b 0 s2 Hm Hd Ht) as (d' & Hd' & Hloop); [cbn; lia|]. rewrite drop_0 in Hloop.
  rewrite (st_bind_run _ _ _ _ _ Hloop). set (s3 := printed s2 b d').
  assert (Hm3 : filesystem_table s3 = mounts) by done.
  rewrite (st_bind_run _ _ _ _ _ (on_shell_fd_run (dfs_file_close driver) 0 no_fd s3 _ (file_close_run d' b _ s3 Hm3 Hd'))).
  unfold_st. subst s3 s2 s1. destruct s. unfold printed, with_shell_fd, with_output, with_blocks. cbn. do 3 f_equal. lia.
Qed.

(** Sequences of calls. *)
Fixpoint serves (rs : list request) : ST state (list (Z * list Z)) :=
  match rs with [] => mret [] | r :: rs => o ← serve r; os ← serves rs; mret (o :: os) end.

Fixpoint meanings (A : list (option file)) (rs : list request) : option (list (Z * list Z) * list (option file)) :=
  match rs with
  | [] => Some ([], A)
  | r :: rs => '(o, A) ← meaning A r; '(os, A) ← meanings A rs; Some (o :: os, A)
  end.
End mounted.

(** C7: With an image mounted at the root, the descriptor calls implement a
    table of open files: any sequence of opens, reads, seeks and closes on
    descriptors that are open gives the results and the bytes of the abstract
    table ([meanings]), with a file's bytes read from its position on, positions
    only within the file, the lowest free descriptor for an open; heap blocks are
    those of the open files, and the lock ends free. *)
Theorem rom_descriptors_refine {D} (driver : nat -> dfs_filesystem_operation D romfs_dirent) rom mem root
    (s : dfs D romfs_dirent) base A rs os A' :
  driver rom = romfs -> rom_ok root -> rom_type root = ROMFS_DIRENT_DIR -> base + 5 <= mem ->
  represents rom root base s A -> Forall in_range rs -> meanings root A rs = Some (os, A') ->
  exists s', serves driver mem rs s = Ret (os, s') /\ represents rom root base s' A'.
Proof.
  intros Hrom Hroot Hdir Hmem Hrep Hrs. revert s A os A' Hrep.
  induction Hrs as [|r rs Hr _ IH]; intros s A os A' Hrep; cbn [meanings serves]; [by intros [= <- <-]; exists s|].
  destruct (meaning root A r) as [[o A1]|] eqn:E; [|done]. cbn [mbind option_bind].
  destruct (request_run driver rom mem Hrom root Hroot Hdir base s A r o A1 Hrep Hr Hmem E) as (s1 & H1 & Hrep1).
  destruct (meanings root A1 rs) as [[os1 A2]|] eqn:E1; [|done]. intros [= <- <-].
  destruct (IH s1 A1 os1 A2 Hrep1 E1) as (s2 & H2 & Hrep2). exists s2. split; [|done].
  by rewrite (st_bind_run _ _ _ _ _ H1), (st_bind_run _ _ _ _ _ H2).
Qed.

(** C24: [cat] prints the file: for any path that leads to a file of text, the
    output grows by exactly its bytes, in as many turns of 80 bytes as it takes;
    afterwards nothing of it is held, neither a block nor the commands'
    descriptor. *)
Theorem rom_cat {D} (driver : nat -> dfs_filesystem_operation D romfs_dirent) rom mem root fuel ns b
    (s : dfs D romfs_dirent) :
  driver rom = romfs -> rom_ok root -> rom_type root = ROMFS_DIRENT_DIR ->
  filesystem_table s = mounts rom root -> Forall plain_name ns -> blocks s + 1 < mem ->
  file_at root ns = Some b -> text b -> (length b + 80 <= 80 * fuel)%nat ->
  cat driver mem fuel (absolute ns) s = Ret (tt, printed s b no_fd).
Proof. intros Hrom Hroot Hdir. by apply (cat_run driver rom mem Hrom root Hroot Hdir). Qed.

(** Where no entry's name begins with a later one's, a path leads to the
    entry its names say: the lookup agrees with following exactly these names
    through the tree. *)
Theorem romfs_lookup_exact root ns e : rom_ok root -> rom_type root = ROMFS_DIRENT_DIR -> separate root ->
  Forall plain_name ns -> follow exactly root ns = Some e ->
  dfs_romfs_lookup root (absolute ns) = Ret (Some (e, rom_size e)).
Proof.
  intros Hroot Hdir Hsep Hns He. rewrite romfs_lookup_follow by done. by rewrite (follow_exact root ns e).
Qed.

(** A path that stops short of a name finds its entry all the same, and a file
    in front of a directory hides it. *)
Example lookup_prefix : dfs_romfs_lookup romfs_root (str "/du/d") =
  Ret (Some (mkRom ROMFS_DIRENT_FILE (str "dummy.txt") (Bytes dummy_text) 17, 17)).
Proof. by vm_compute. Qed.

Definition hidden : romfs_dirent :=
  mkRom ROMFS_DIRENT_DIR [SLASH] (Entries [
    mkRom ROMFS_DIRENT_FILE (str "dummy.txt") (Bytes dummy_text) 17;
    mkRom ROMFS_DIRENT_DIR (str "dummy") (Entries [mkRom ROMFS_DIRENT_FILE (str "a") (Bytes []) 0]) 1]) 2.

Example lookup_hidden : dfs_romfs_lookup hidden (str "/dummy/a") = Ret None /\
  follow exactly hidden [str "dummy"; str "a"] <> None.
Proof. by vm_compute. Qed.

(** ** Witnesses *)

(** The image of romfs.c mounted at the root by the program's own calls. *)
Definition demo_driver : nat -> dfs_filesystem_operation unit romfs_dirent := fun _ => romfs.
Definition power_on : dfs unit romfs_dirent := mkDfs [] [] [] 0 0 0 [] [] no_fd tt.
Definition rom_boot : ST (dfs unit romfs_dirent) Z :=
  _ ← dfs_init;
  _ ← dfs_register demo_driver 0;
  dfs_mount demo_driver (fun _ => None) 8 no_fd None (str "/") (str "rom") 0 (Some romfs_root).
Definition booted : dfs unit romfs_dirent :=
  mkDfs [Some 0%nat; None; None; None] (mounts 0 romfs_root) (replicate 4 no_fd) 0 0 1 [] [] no_fd tt.

Example rom_boot_mounts : rom_boot power_on = Ret (0, booted).
Proof. by vm_compute. Qed.

Lemma romfs_root_ok : rom_ok romfs_root.
Proof.
  assert (rom_ok (mkRom ROMFS_DIRENT_FILE (str "dummy.txt") (Bytes dummy_text) 17)) as Hf by (by apply (file_ok _ dummy_text)).
  apply (dir_ok _ [_; _]). apply Forall_cons; split; [|by apply Forall_singleton].
  apply (dir_ok _ [_]). by apply Forall_singleton.
Qed.

Lemma booted_represents : represents 0 romfs_root 1 booted (replicate 4 None).
Proof. split; try done. by repeat constructor. Qed.

Lemma plain_str s : forallb (fun c => negb (c =? 0) && negb (c =? SLASH)) (str s) = true ->
  str s <> [] -> str s <> [DOT] -> str s <> [DOT; DOT] -> plain_name (str s).
Proof.
  intros H ? ? ?. split; [|done]. rewrite forallb_forall in H.
  split; apply Forall_forall; intros c Hc%list_elem_of_In%H; lia.
Qed.

Lemma rom_descriptors_witness : exists s',
  serves demo_driver 6 [Open [str "dummy.txt"]; Read 0 6; Seek 0 2 1; Read 0 100; Seek 0 (-1) 0; Close 0; Read 9 1] booted =
    Ret ([(0, []); (6, str "this i"); (8, []); (9, str "a file!" ++ [13; 10]); (-1, []); (0, []); (-1, [])], s') /\
  represents 0 romfs_root 1 s' (replicate 4 None).
Proof.
  apply (rom_descriptors_refine demo_driver 0 6 romfs_root booted 1 (replicate 4 None));
    [reflexivity|exact romfs_root_ok|reflexivity|lia|exact booted_represents| |vm_compute; reflexivity].
  repeat (apply Forall_cons; split); try (cbn; lia); [|constructor|constructor].
  apply plain_str; [reflexivity|discriminate..].
Defined.

Lemma rom_cat_witness :
  cat demo_driver 8 3 (absolute [str "dummy"; str "dummy.txt"]) booted =
    Ret (tt, printed booted dummy_text no_fd).
Proof.
  apply (rom_cat demo_driver 0 8 romfs_root);
    [reflexivity|exact romfs_root_ok|reflexivity|reflexivity| |cbn; lia|vm_compute; reflexivity| |vm_compute; lia].
  - apply Forall_cons; split; [apply plain_str; [reflexivity|discriminate..]|].
    apply Forall_singleton, plain_str; [reflexivity|discriminate..].
  - unfold text. vm_compute. repeat (apply Forall_cons; split; [discriminate|]). constructor.
Defined.

Lemma romfs_lookup_witness :
  dfs_romfs_lookup romfs_root (absolute [str "dummy"; str "dummy.txt"]) =
    Ret (Some (mkRom ROMFS_DIRENT_FILE (str "dummy.txt") (Bytes dummy_text) 17, 17)).
Proof.
  apply (romfs_lookup_exact romfs_root); [exact romfs_root_ok|reflexivity| | |vm_compute; reflexivity].
  - apply separate_dir.
    + intros [|[|i]] [|[|j]] a b Hij Ha Hb; try lia; try discriminate. injection Ha as <-. injection Hb as <-.
      apply (bool_decide_unpack _). vm_compute. exact I.
    + apply Forall_cons; split; [|apply Forall_singleton; by apply separate_leaf].
      apply separate_dir; [|apply Forall_singleton; by apply separate_leaf].
      intros [|i] [|j] a b Hij Ha Hb; try lia; discriminate.
  - apply Forall_cons; split; [apply plain_str; [reflexivity|discriminate..]|].
    apply Forall_singleton, plain_str; [reflexivity|discriminate..].
Defined.

Lemma dfs_lookup_witness : exists r, dfs_filesystem_lookup (absolute [str "dummy"]) booted = Ret (r, booted).
Proof.
  destruct (dfs_lookup_deepest booted [str "dummy"]) as (r & Hr & _); [| |exists r; exact Hr].
  - apply Forall_singleton, plain_str; [reflexivity|discriminate..].
  - intros f p Hf Hp. exists []. split; [constructor|].
    apply elem_of_cons in Hf as [->|Hf]; [by injection Hp as <-|].
    by apply list_elem_of_singleton in Hf as ->.
Defined.

(** Two threads on one descriptor: the first closes it, and between its
    [dfs_file_close] and its two [fd_put] the second opens a file. *)
Definition close_race : ST (dfs unit romfs_dirent) (Z * Z * Z) :=
  a ← open demo_driver 8 (str "/dummy.txt") 0;
  _ ← fd_get a;
  _ ← on_fd 0 (dfs_file_close demo_driver);
  b ← fd_new;
  _ ← fd_get b;
  _ ← fd_put 0;
  _ ← fd_put 0;
  _ ← on_fd 0 (fun fd => dfs_file_open demo_driver 8 fd (str "/dummy/dummy.txt") 0);
  _ ← fd_put 0;
  c ← open demo_driver 8 (str "/dummy.txt") 0;
  mret (a, b, c).

(** The second thread's file and the next one opened share a descriptor. *)
Example close_race_shares : exists s, close_race booted = Ret ((0, 0, 0), s).
Proof. eexists. vm_compute. reflexivity. Qed.

(** Unmounting a path below a mount point unmounts the file system. *)
Example unmount_below : exists s, dfs_unmount demo_driver 8 (str "/dummy/x") booted = Ret (0, s) /\
  filesystem_table s = [no_fs; no_fs].
Proof. eexists. split; vm_compute; reflexivity. Qed.
