(* ===== verification/Zmodem.v ===== *)
(** * File transfer over the console: the frames

    RTT/components/utilities/zmodem: the tables of crc.h, the line of zdevice.c
    and the frames of zcore.c.

    The line is a list of the bytes that are still to come; where none comes, the
    loop of [zread_line] waits for ever, which is [OutOfFuel] here.  The loops that
    skip or collect bytes read at least one a turn, so the length of the line is
    enough fuel for them.  [sent] collects the bytes written to the device and
    [says] what [rt_kprintf] prints.  A plain [char] is unsigned, as on ARM. *)

From S2P Require Import Prelude.

(** ** zdef.h *)

Definition ZPAD : Z := 42.
Definition ZDLE : Z := 24.
Definition ZBIN : Z := 65.
Definition ZHEX : Z := 66.
Definition ZBIN32 : Z := 67.
Definition ZBINR32 : Z := 68.
Definition ZRESC : Z := 126.

Definition ZRQINIT : Z := 0.
Definition ZRINIT : Z := 1.
Definition ZSINIT : Z := 2.
Definition ZACK : Z := 3.
Definition ZFILE : Z := 4.
Definition ZSKIP : Z := 5.
Definition ZNAK : Z := 6.
Definition ZABORT : Z := 7.
Definition ZFIN : Z := 8.
Definition ZRPOS : Z := 9.
Definition ZDATA : Z := 10.
Definition ZEOF : Z := 11.
Definition ZFERR : Z := 12.
Definition ZCRC : Z := 13.
Definition ZCOMPL : Z := 15.
Definition ZCAN : Z := 16.

Definition ZCRCE : Z := 104.
Definition ZCRCG : Z := 105.
Definition ZCRCQ : Z := 106.
Definition ZCRCW : Z := 107.
Definition ZRUB0 : Z := 108.
Definition ZRUB1 : Z := 109.

Definition GOTOR : Z := 256.
Definition GOTCRCE : Z := Z.lor ZCRCE GOTOR.
Definition GOTCRCG : Z := Z.lor ZCRCG GOTOR.
Definition GOTCRCQ : Z := Z.lor ZCRCQ GOTOR.
Definition GOTCRCW : Z := Z.lor ZCRCW GOTOR.
Definition GOTCAN : Z := Z.lor GOTOR 24.

(** Positions within a header. *)
Definition ZF0 : Z := 3.
Definition ZF1 : Z := 2.
Definition ZF2 : Z := 1.
Definition ZF3 : Z := 0.
Definition ZP0 : Z := 0.
Definition ZP1 : Z := 1.
Definition ZP2 : Z := 2.
Definition ZP3 : Z := 3.

Definition CANFDX : Z := 0x01.
Definition CANOVIO : Z := 0x02.
Definition CANRLE : Z := 0x10.
Definition CANFC32 : Z := 0x28.
Definition ZRQNVH : Z := Z.lor 8 16.
Definition ZATTNLEN : Z := 32.
Definition ZTRLE : Z := 3.

Definition CAN : Z := 24.
Definition XOFF : Z := 19.
Definition XON : Z := 17.
Definition TIMEOUT : Z := -2.
Definition RCDO : Z := -3.
Definition GCOUNT : Z := -4.
Definition RT_ERROR : Z := 1.
Definition RX_BUFFER_SIZE : Z := 1024.
Definition BITRATE : Z := 115200.

(** ** crc.h *)

Definition crctab : list Z := [
  0x0000; 0x1021; 0x2042; 0x3063; 0x4084; 0x50a5; 0x60c6; 0x70e7;
  0x8108; 0x9129; 0xa14a; 0xb16b; 0xc18c; 0xd1ad; 0xe1ce; 0xf1ef;
  0x1231; 0x0210; 0x3273; 0x2252; 0x52b5; 0x4294; 0x72f7; 0x62d6;
  0x9339; 0x8318; 0xb37b; 0xa35a; 0xd3bd; 0xc39c; 0xf3ff; 0xe3de;
  0x2462; 0x3443; 0x0420; 0x1401; 0x64e6; 0x74c7; 0x44a4; 0x5485;
  0xa56a; 0xb54b; 0x8528; 0x9509; 0xe5ee; 0xf5cf; 0xc5ac; 0xd58d;
  0x3653; 0x2672; 0x1611; 0x0630; 0x76d7; 0x66f6; 0x5695; 0x46b4;
  0xb75b; 0xa77a; 0x9719; 0x8738; 0xf7df; 0xe7fe; 0xd79d; 0xc7bc;
  0x48c4; 0x58e5; 0x6886; 0x78a7; 0x0840; 0x1861; 0x2802; 0x3823;
  0xc9cc; 0xd9ed; 0xe98e; 0xf9af; 0x8948; 0x9969; 0xa90a; 0xb92b;
  0x5af5; 0x4ad4; 0x7ab7; 0x6a96; 0x1a71; 0x0a50; 0x3a33; 0x2a12;
  0xdbfd; 0xcbdc; 0xfbbf; 0xeb9e; 0x9b79; 0x8b58; 0xbb3b; 0xab1a;
  0x6ca6; 0x7c87; 0x4ce4; 0x5cc5; 0x2c22; 0x3c03; 0x0c60; 0x1c41;
  0xedae; 0xfd8f; 0xcdec; 0xddcd; 0xad2a; 0xbd0b; 0x8d68; 0x9d49;
  0x7e97; 0x6eb6; 0x5ed5; 0x4ef4; 0x3e13; 0x2e32; 0x1e51; 0x0e70;
  0xff9f; 0xefbe; 0xdfdd; 0xcffc; 0xbf1b; 0xaf3a; 0x9f59; 0x8f78;
  0x9188; 0x81a9; 0xb1ca; 0xa1eb; 0xd10c; 0xc12d; 0xf14e; 0xe16f;
  0x1080; 0x00a1; 0x30c2; 0x20e3; 0x5004; 0x4025; 0x7046; 0x6067;
  0x83b9; 0x9398; 0xa3fb; 0xb3da; 0xc33d; 0xd31c; 0xe37f; 0xf35e;
  0x02b1; 0x1290; 0x22f3; 0x32d2; 0x4235; 0x5214; 0x6277; 0x7256;
  0xb5ea; 0xa5cb; 0x95a8; 0x8589; 0xf56e; 0xe54f; 0xd52c; 0xc50d;
  0x34e2; 0x24c3; 0x14a0; 0x0481; 0x7466; 0x6447; 0x5424; 0x4405;
  0xa7db; 0xb7fa; 0x8799; 0x97b8; 0xe75f; 0xf77e; 0xc71d; 0xd73c;
  0x26d3; 0x36f2; 0x0691; 0x16b0; 0x6657; 0x7676; 0x4615; 0x5634;
  0xd94c; 0xc96d; 0xf90e; 0xe92f; 0x99c8; 0x89e9; 0xb98a; 0xa9ab;
  0x5844; 0x4865; 0x7806; 0x6827; 0x18c0; 0x08e1; 0x3882; 0x28a3;
  0xcb7d; 0xdb5c; 0xeb3f; 0xfb1e; 0x8bf9; 0x9bd8; 0xabbb; 0xbb9a;
  0x4a75; 0x5a54; 0x6a37; 0x7a16; 0x0af1; 0x1ad0; 0x2ab3; 0x3a92;
  0xfd2e; 0xed0f; 0xdd6c; 0xcd4d; 0xbdaa; 0xad8b; 0x9de8; 0x8dc9;
  0x7c26; 0x6c07; 0x5c64; 0x4c45; 0x3ca2; 0x2c83; 0x1ce0; 0x0cc1;
  0xef1f; 0xff3e; 0xcf5d; 0xdf7c; 0xaf9b; 0xbfba; 0x8fd9; 0x9ff8;
  0x6e17; 0x7e36; 0x4e55; 0x5e74; 0x2e93; 0x3eb2; 0x0ed1; 0x1ef0].

Definition cr3tab : list Z := [
  0x00000000; 0x77073096; 0xee0e612c; 0x990951ba; 0x076dc419; 0x706af48f; 0xe963a535; 0x9e6495a3;
  0x0edb8832; 0x79dcb8a4; 0xe0d5e91e; 0x97d2d988; 0x09b64c2b; 0x7eb17cbd; 0xe7b82d07; 0x90bf1d91;
  0x1db71064; 0x6ab020f2; 0xf3b97148; 0x84be41de; 0x1adad47d; 0x6ddde4eb; 0xf4d4b551; 0x83d385c7;
  0x136c9856; 0x646ba8c0; 0xfd62f97a; 0x8a65c9ec; 0x14015c4f; 0x63066cd9; 0xfa0f3d63; 0x8d080df5;
  0x3b6e20c8; 0x4c69105e; 0xd56041e4; 0xa2677172; 0x3c03e4d1; 0x4b04d447; 0xd20d85fd; 0xa50ab56b;
  0x35b5a8fa; 0x42b2986c; 0xdbbbc9d6; 0xacbcf940; 0x32d86ce3; 0x45df5c75; 0xdcd60dcf; 0xabd13d59;
  0x26d930ac; 0x51de003a; 0xc8d75180; 0xbfd06116; 0x21b4f4b5; 0x56b3c423; 0xcfba9599; 0xb8bda50f;
  0x2802b89e; 0x5f058808; 0xc60cd9b2; 0xb10be924; 0x2f6f7c87; 0x58684c11; 0xc1611dab; 0xb6662d3d;
  0x76dc4190; 0x01db7106; 0x98d220bc; 0xefd5102a; 0x71b18589; 0x06b6b51f; 0x9fbfe4a5; 0xe8b8d433;
  0x7807c9a2; 0x0f00f934; 0x9609a88e; 0xe10e9818; 0x7f6a0dbb; 0x086d3d2d; 0x91646c97; 0xe6635c01;
  0x6b6b51f4; 0x1c6c6162; 0x856530d8; 0xf262004e; 0x6c0695ed; 0x1b01a57b; 0x8208f4c1; 0xf50fc457;
  0x65b0d9c6; 0x12b7e950; 0x8bbeb8ea; 0xfcb9887c; 0x62dd1ddf; 0x15da2d49; 0x8cd37cf3; 0xfbd44c65;
  0x4db26158; 0x3ab551ce; 0xa3bc0074; 0xd4bb30e2; 0x4adfa541; 0x3dd895d7; 0xa4d1c46d; 0xd3d6f4fb;
  0x4369e96a; 0x346ed9fc; 0xad678846; 0xda60b8d0; 0x44042d73; 0x33031de5; 0xaa0a4c5f; 0xdd0d7cc9;
  0x5005713c; 0x270241aa; 0xbe0b1010; 0xc90c2086; 0x5768b525; 0x206f85b3; 0xb966d409; 0xce61e49f;
  0x5edef90e; 0x29d9c998; 0xb0d09822; 0xc7d7a8b4; 0x59b33d17; 0x2eb40d81; 0xb7bd5c3b; 0xc0ba6cad;
  0xedb88320; 0x9abfb3b6; 0x03b6e20c; 0x74b1d29a; 0xead54739; 0x9dd277af; 0x04db2615; 0x73dc1683;
  0xe3630b12; 0x94643b84; 0x0d6d6a3e; 0x7a6a5aa8; 0xe40ecf0b; 0x9309ff9d; 0x0a00ae27; 0x7d079eb1;
  0xf00f9344; 0x8708a3d2; 0x1e01f268; 0x6906c2fe; 0xf762575d; 0x806567cb; 0x196c3671; 0x6e6b06e7;
  0xfed41b76; 0x89d32be0; 0x10da7a5a; 0x67dd4acc; 0xf9b9df6f; 0x8ebeeff9; 0x17b7be43; 0x60b08ed5;
  0xd6d6a3e8; 0xa1d1937e; 0x38d8c2c4; 0x4fdff252; 0xd1bb67f1; 0xa6bc5767; 0x3fb506dd; 0x48b2364b;
  0xd80d2bda; 0xaf0a1b4c; 0x36034af6; 0x41047a60; 0xdf60efc3; 0xa867df55; 0x316e8eef; 0x4669be79;
  0xcb61b38c; 0xbc66831a; 0x256fd2a0; 0x5268e236; 0xcc0c7795; 0xbb0b4703; 0x220216b9; 0x5505262f;
  0xc5ba3bbe; 0xb2bd0b28; 0x2bb45a92; 0x5cb36a04; 0xc2d7ffa7; 0xb5d0cf31; 0x2cd99e8b; 0x5bdeae1d;
  0x9b64c2b0; 0xec63f226; 0x756aa39c; 0x026d930a; 0x9c0906a9; 0xeb0e363f; 0x72076785; 0x05005713;
  0x95bf4a82; 0xe2b87a14; 0x7bb12bae; 0x0cb61b38; 0x92d28e9b; 0xe5d5be0d; 0x7cdcefb7; 0x0bdbdf21;
  0x86d3d2d4; 0xf1d4e242; 0x68ddb3f8; 0x1fda836e; 0x81be16cd; 0xf6b9265b; 0x6fb077e1; 0x18b74777;
  0x88085ae6; 0xff0f6a70; 0x66063bca; 0x11010b5c; 0x8f659eff; 0xf862ae69; 0x616bffd3; 0x166ccf45;
  0xa00ae278; 0xd70dd2ee; 0x4e048354; 0x3903b3c2; 0xa7672661; 0xd06016f7; 0x4969474d; 0x3e6e77db;
  0xaed16a4a; 0xd9d65adc; 0x40df0b66; 0x37d83bf0; 0xa9bcae53; 0xdebb9ec5; 0x47b2cf7f; 0x30b5ffe9;
  0xbdbdf21c; 0xcabac28a; 0x53b39330; 0x24b4a3a6; 0xbad03605; 0xcdd70693; 0x54de5729; 0x23d967bf;
  0xb3667a2e; 0xc4614ab8; 0x5d681b02; 0x2a6f2b94; 0xb40bbe37; 0xc30c8ea1; 0x5a05df1b; 0x2d02ef8d].

Definition updcrc16 (cp crc : Z) : Z :=
  Z.lxor (Z.lxor (nth (Z.to_nat (Z.land (Z.shiftr crc 8) 255)) crctab 0) (Z.shiftl crc 8)) cp.

Definition updcrc32 (b c : Z) : Z :=
  Z.lxor (nth (Z.to_nat (Z.land (Z.lxor c b) 255)) cr3tab 0) (Z.land (Z.shiftr c 8) 0x00FFFFFF).

(** ** Globals *)

Record zm := mkZm {
  ZF0_CMD : Z; ZF1_CMD : Z; ZF2_CMD : Z; ZF3_CMD : Z;
  Rxframeind : Z; Rxcount : Z; header_type : Z;
  rx_header : list Z; tx_header : list Z;          (**r four bytes each *)
  Rxpos : Z; Txpos : Z;
  Txfcs32 : Z; TxCRC : Z; RxCRC : Z;
  Attn : list Z;                                   (**r [ZATTNLEN + 1] bytes *)
  Line_left : Z;
  line : list Z;                                   (**r the bytes to come *)
  sent : list Z;                                   (**r the bytes written to the device *)
  says : list Z }.                                 (**r the text printed *)

Definition with_ZF0_CMD (s : zm) x := mkZm x (ZF1_CMD s) (ZF2_CMD s) (ZF3_CMD s) (Rxframeind s) (Rxcount s) (header_type s) (rx_header s) (tx_header s) (Rxpos s) (Txpos s) (Txfcs32 s) (TxCRC s) (RxCRC s) (Attn s) (Line_left s) (line s) (sent s) (says s).
Definition with_ZF1_CMD (s : zm) x := mkZm (ZF0_CMD s) x (ZF2_CMD s) (ZF3_CMD s) (Rxframeind s) (Rxcount s) (header_type s) (rx_header s) (tx_header s) (Rxpos s) (Txpos s) (Txfcs32 s) (TxCRC s) (RxCRC s) (Attn s) (Line_left s) (line s) (sent s) (says s).
Definition with_ZF2_CMD (s : zm) x := mkZm (ZF0_CMD s) (ZF1_CMD s) x (ZF3_CMD s) (Rxframeind s) (Rxcount s) (header_type s) (rx_header s) (tx_header s) (Rxpos s) (Txpos s) (Txfcs32 s) (TxCRC s) (RxCRC s) (Attn s) (Line_left s) (line s) (sent s) (says s).
Definition with_ZF3_CMD (s : zm) x := mkZm (ZF0_CMD s) (ZF1_CMD s) (ZF2_CMD s) x (Rxframeind s) (Rxcount s) (header_type s) (rx_header s) (tx_header s) (Rxpos s) (Txpos s) (Txfcs32 s) (TxCRC s) (RxCRC s) (Attn s) (Line_left s) (line s) (sent s) (says s).
Definition with_Rxframeind (s : zm) x := mkZm (ZF0_CMD s) (ZF1_CMD s) (ZF2_CMD s) (ZF3_CMD s) x (Rxcount s) (header_type s) (rx_header s) (tx_header s) (Rxpos s) (Txpos s) (Txfcs32 s) (TxCRC s) (RxCRC s) (Attn s) (Line_left s) (line s) (sent s) (says s).
Definition with_Rxcount (s : zm) x := mkZm (ZF0_CMD s) (ZF1_CMD s) (ZF2_CMD s) (ZF3_CMD s) (Rxframeind s) x (header_type s) (rx_header s) (tx_header s) (Rxpos s) (Txpos s) (Txfcs32 s) (TxCRC s) (RxCRC s) (Attn s) (Line_left s) (line s) (sent s) (says s).
Definition with_header_type (s : zm) x := mkZm (ZF0_CMD s) (ZF1_CMD s) (ZF2_CMD s) (ZF3_CMD s) (Rxframeind s) (Rxcount s) x (rx_header s) (tx_header s) (Rxpos s) (Txpos s) (Txfcs32 s) (TxCRC s) (RxCRC s) (Attn s) (Line_left s) (line s) (sent s) (says s).
Definition with_rx_header (s : zm) x := mkZm (ZF0_CMD s) (ZF1_CMD s) (ZF2_CMD s) (ZF3_CMD s) (Rxframeind s) (Rxcount s) (header_type s) x (tx_header s) (Rxpos s) (Txpos s) (Txfcs32 s) (TxCRC s) (RxCRC s) (Attn s) (Line_left s) (line s) (sent s) (says s).
Definition with_tx_header (s : zm) x := mkZm (ZF0_CMD s) (ZF1_CMD s) (ZF2_CMD s) (ZF3_CMD s) (Rxframeind s) (Rxcount s) (header_type s) (rx_header s) x (Rxpos s) (Txpos s) (Txfcs32 s) (TxCRC s) (RxCRC s) (Attn s) (Line_left s) (line s) (sent s) (says s).
Definition with_Rxpos (s : zm) x := mkZm (ZF0_CMD s) (ZF1_CMD s) (ZF2_CMD s) (ZF3_CMD s) (Rxframeind s) (Rxcount s) (header_type s) (rx_header s) (tx_header s) x (Txpos s) (Txfcs32 s) (TxCRC s) (RxCRC s) (Attn s) (Line_left s) (line s) (sent s) (says s).
Definition with_Txpos (s : zm) x := mkZm (ZF0_CMD s) (ZF1_CMD s) (ZF2_CMD s) (ZF3_CMD s) (Rxframeind s) (Rxcount s) (header_type s) (rx_header s) (tx_header s) (Rxpos s) x (Txfcs32 s) (TxCRC s) (RxCRC s) (Attn s) (Line_left s) (line s) (sent s) (says s).
Definition with_Txfcs32 (s : zm) x := mkZm (ZF0_CMD s) (ZF1_CMD s) (ZF2_CMD s) (ZF3_CMD s) (Rxframeind s) (Rxcount s) (header_type s) (rx_header s) (tx_header s) (Rxpos s) (Txpos s) x (TxCRC s) (RxCRC s) (Attn s) (Line_left s) (line s) (sent s) (says s).
Definition with_TxCRC (s : zm) x := mkZm (ZF0_CMD s) (ZF1_CMD s) (ZF2_CMD s) (ZF3_CMD s) (Rxframeind s) (Rxcount s) (header_type s) (rx_header s) (tx_header s) (Rxpos s) (Txpos s) (Txfcs32 s) x (RxCRC s) (Attn s) (Line_left s) (line s) (sent s) (says s).
Definition with_RxCRC (s : zm) x := mkZm (ZF0_CMD s) (ZF1_CMD s) (ZF2_CMD s) (ZF3_CMD s) (Rxframeind s) (Rxcount s) (header_type s) (rx_header s) (tx_header s) (Rxpos s) (Txpos s) (Txfcs32 s) (TxCRC s) x (Attn s) (Line_left s) (line s) (sent s) (says s).
Definition with_Attn (s : zm) x := mkZm (ZF0_CMD s) (ZF1_CMD s) (ZF2_CMD s) (ZF3_CMD s) (Rxframeind s) (Rxcount s) (header_type s) (rx_header s) (tx_header s) (Rxpos s) (Txpos s) (Txfcs32 s) (TxCRC s) (RxCRC s) x (Line_left s) (line s) (sent s) (says s).
Definition with_Line_left (s : zm) x := mkZm (ZF0_CMD s) (ZF1_CMD s) (ZF2_CMD s) (ZF3_CMD s) (Rxframeind s) (Rxcount s) (header_type s) (rx_header s) (tx_header s) (Rxpos s) (Txpos s) (Txfcs32 s) (TxCRC s) (RxCRC s) (Attn s) x (line s) (sent s) (says s).
Definition with_line (s : zm) x := mkZm (ZF0_CMD s) (ZF1_CMD s) (ZF2_CMD s) (ZF3_CMD s) (Rxframeind s) (Rxcount s) (header_type s) (rx_header s) (tx_header s) (Rxpos s) (Txpos s) (Txfcs32 s) (TxCRC s) (RxCRC s) (Attn s) (Line_left s) x (sent s) (says s).
Definition with_sent (s : zm) x := mkZm (ZF0_CMD s) (ZF1_CMD s) (ZF2_CMD s) (ZF3_CMD s) (Rxframeind s) (Rxcount s) (header_type s) (rx_header s) (tx_header s) (Rxpos s) (Txpos s) (Txfcs32 s) (TxCRC s) (RxCRC s) (Attn s) (Line_left s) (line s) x (says s).
Definition with_says (s : zm) x := mkZm (ZF0_CMD s) (ZF1_CMD s) (ZF2_CMD s) (ZF3_CMD s) (Rxframeind s) (Rxcount s) (header_type s) (rx_header s) (tx_header s) (Rxpos s) (Txpos s) (Txfcs32 s) (TxCRC s) (RxCRC s) (Attn s) (Line_left s) (line s) (sent s) x.

Abbreviation M := (ST zm).

Definition set_tx (i x : Z) : M unit := s ← get; h ← lift (upd (tx_header s) i (u8 x)); put (with_tx_header s h).
Definition set_rx (i x : Z) : M unit := s ← get; h ← lift (upd (rx_header s) i (u8 x)); put (with_rx_header s h).

Definition rt_kprintf (t : list Z) : M unit := modify (fun s => with_says s (says s ++ t)).

(** ** zdevice.c *)

Definition get_device_baud : M Z := mret BITRATE.

Definition device_write (c : Z) : M unit := modify (fun s => with_sent s (sent s ++ [c])).

(** One byte at the address of a 16 bit argument, which is its low byte. *)
Definition zsend_byte (ch : Z) : M unit := device_write (u8 ch).
Definition zsend_line (c : Z) : M unit := device_write (Z.land c 255).

(** [str] is a local that only the second part assigns; were bytes left over from
    an earlier call, it would be read uninitialised. *)
Definition zread_line (timeout : Z) : M Z :=
  s ← get;
  if 0 <? Line_left s then lift (Err NullDeref)
  else
    match line s with
    | [] => lift (Err OutOfFuel)
    | c :: l => _ ← put (with_Line_left (with_line s l) (1 - 1)); mret (Z.land c 255)
    end.

(** The pointer moves on before the character is looked at. *)
Fixpoint zsend_break (cmd : list Z) : M unit :=
  match cmd with
  | [] => lift (Err OutOfBounds)
  | c :: cmd =>
      if c =? 0 then mret tt
      else
        match cmd with
        | [] => lift (Err OutOfBounds)
        | d :: _ =>
            _ ← (if (d =? 0xde) || (d =? 0xdd) then mret tt else zsend_line d);
            zsend_break cmd
        end
  end.

Definition can_cmd : list Z := replicate 10 24 ++ [0].

Definition zsend_can : M unit :=
  _ ← zsend_break can_cmd;
  _ ← rt_kprintf [13];
  modify (fun s => with_Line_left s 0).

(** ** zcore.c: sending *)

Definition zinit_parameter : M unit :=
  modify (fun s => mkZm (Z.lor CANFC32 (Z.lor CANFDX CANOVIO)) 0 0 0 0 0 0 (replicate 4 0) (replicate 4 0) 0 0 0
    (TxCRC s) 0 (Attn s) (Line_left s) (line s) (sent s) (says s)).

(** A character with the escapes of the protocol. *)
Definition zsend_zdle_char (ch : Z) : M unit :=
  let res := Z.land ch 255 in
  if res =? 255 then zsend_byte res
  else if (res =? ZDLE) || (res =? 17) || (res =? 19) || (res =? 145) || (res =? 147) then
    _ ← zsend_byte ZDLE; zsend_byte (Z.lxor res 64)
  else zsend_byte res.

Definition hex_digits : list Z := str "0123456789abcdef".

Definition zsend_ascii (c : Z) : M unit :=
  a ← lift (idx hex_digits (Z.shiftr (Z.land c 0xF0) 4));
  _ ← zsend_line a;
  b ← lift (idx hex_digits (Z.land c 0xF));
  zsend_line b.

(** The assignments to the check: [rt_uint32_t] (16 and 32 bit checks) and
    [rt_uint16_t]. *)
Definition add16 (c crc : Z) : Z := u32 (updcrc16 c crc).
Definition add16s (c crc : Z) : Z := u16 (updcrc16 c crc).
Definition add32 (c crc : Z) : Z := u32 (updcrc32 c crc).

(** [n] bytes of [p], sent by [send] and added to the check. *)
Fixpoint send_bytes (send : Z -> M unit) (add : Z -> Z -> Z) (n : nat) (p : list Z) (crc : Z) : M Z :=
  match n with
  | O => mret crc
  | S n =>
      match p with
      | [] => lift (Err OutOfBounds)
      | b :: p => _ ← send b; send_bytes send add n p (add (Z.land 255 b) crc)
      end
  end.

(** [for (i=0;i<4;i++) { zsend_zdle_char(crc); crc >>= 8; }] *)
Fixpoint send_fcs (n : nat) (crc : Z) : M unit :=
  match n with
  | O => mret tt
  | S n => _ ← zsend_zdle_char crc; send_fcs n (Z.shiftr crc 8)
  end.

Definition send_crc16 (crc : Z) : M unit :=
  let crc := add16 0 (add16 0 crc) in
  _ ← zsend_zdle_char (Z.shiftr crc 8); zsend_zdle_char crc.

(** [crc = ~crc] and its four bytes. *)
Definition send_crc32 (crc : Z) : M unit := send_fcs 4 (u32 (Z.lnot crc)).

Definition bin_header32 (format type : Z) (hdr : list Z) : M unit :=
  _ ← zsend_byte format;
  _ ← zsend_zdle_char type;
  crc ← send_bytes zsend_zdle_char add32 4 hdr (add32 type 0xffffffff);
  send_crc32 crc.

Definition zsend_bin_header (type : Z) (hdr : list Z) : M unit :=
  _ ← zsend_byte ZPAD;
  _ ← zsend_byte ZDLE;
  _ ← modify (fun s => with_TxCRC s (Txfcs32 s));
  s ← get;
  if TxCRC s =? 0 then
    _ ← zsend_byte ZBIN;
    _ ← zsend_zdle_char type;
    crc ← send_bytes zsend_zdle_char add16 4 hdr (add16 type 0);
    send_crc16 crc
  else if TxCRC s =? 1 then bin_header32 ZBIN32 type hdr
  else if TxCRC s =? 2 then bin_header32 ZBINR32 type hdr
  else mret tt.

Definition zsend_hex_header (type : Z) (hdr : list Z) : M unit :=
  _ ← zsend_line ZPAD; _ ← zsend_line ZPAD; _ ← zsend_line ZDLE;
  _ ← zsend_line ZHEX;
  _ ← zsend_ascii type;
  crc ← send_bytes zsend_ascii add16s 4 hdr (add16s type 0);
  let crc := u16 (updcrc16 0 (updcrc16 0 crc)) in
  _ ← zsend_ascii (Z.shiftr crc 8);
  _ ← zsend_ascii crc;
  _ ← zsend_line 13; _ ← zsend_line 138;
  _ ← (if negb (type =? ZFIN) && negb (type =? ZACK) then zsend_line 17 else mret tt);
  modify (fun s => with_TxCRC s 0).

(** A byte of a run-length encoded frame. *)
Definition rle_byte (c crc : Z) : M Z := _ ← zsend_zdle_char c; mret (add32 c crc).

(** [for (i = 0; --len >= 0; ++buf)] with [len] turns to go: [tmp] has been seen
    [i + 1] times. *)
Fixpoint rle_loop (len : nat) (buf : list Z) (i tmp crc : Z) : M Z :=
  match len with
  | O => mret crc
  | S len =>
      match buf with
      | [] => lift (Err OutOfBounds)
      | b :: buf =>
          let c := Z.land b 255 in
          if (c =? tmp) && (i <? 126) && (0 <? Z.of_nat len) then rle_loop len buf (i + 1) tmp crc
          else if i =? 0 then
            crc ← rle_byte tmp crc;
            crc ← (if tmp =? ZRESC then rle_byte 64 crc else mret crc);
            rle_loop len buf 0 c crc
          else if i =? 1 then
            if negb (tmp =? ZRESC) then
              _ ← zsend_zdle_char tmp; _ ← zsend_zdle_char tmp;
              rle_loop len buf 0 c (add32 tmp (add32 tmp crc))
            else rle_loop len buf i tmp crc
          else
            crc ← rle_byte ZRESC crc;
            crc ← (if (tmp =? 32) && (i <? 34) then rle_byte (i + 30) crc
                   else crc ← rle_byte (i + 65) crc; rle_byte tmp crc);
            rle_loop len buf 0 c crc
      end
  end.

Definition end_data16 (frameend crc : Z) : M unit :=
  _ ← zsend_byte ZDLE; _ ← zsend_byte frameend; send_crc16 (add16 frameend crc).
Definition end_data32 (frameend crc : Z) : M unit :=
  _ ← zsend_byte ZDLE; _ ← zsend_byte frameend; send_crc32 (add32 frameend crc).

Definition zsend_bin_data (buf : list Z) (len frameend : Z) : M unit :=
  s ← get;
  _ ← (if TxCRC s =? 0 then
         crc ← send_bytes zsend_zdle_char add16 (Z.to_nat len) buf 0; end_data16 frameend crc
       else if TxCRC s =? 1 then
         crc ← send_bytes zsend_zdle_char add32 (Z.to_nat len) buf 0xffffffff; end_data32 frameend crc
       else if TxCRC s =? 2 then
         match buf with
         | [] => lift (Err OutOfBounds)
         | b :: buf => crc ← rle_loop (Z.to_nat len) buf 0 (Z.land b 255) 0xffffffff; end_data32 frameend crc
         end
       else mret tt);
  if frameend =? ZCRCW then zsend_byte XON else mret tt.

Definition zput_pos (pos : Z) : M unit :=
  _ ← set_tx ZP0 pos; _ ← set_tx ZP1 (Z.shiftr pos 8);
  _ ← set_tx ZP2 (Z.shiftr pos 16); set_tx ZP3 (Z.shiftr pos 24).

(** ** zcore.c: receiving *)

Definition flow (c : Z) : bool := (c =? 19) || (c =? 147) || (c =? 17) || (c =? 145).

(** [if (res == CAN && (res = zread_line(100)) < 0) return res;] *)
Definition after_can (res : Z) (k : Z -> M Z) : M Z :=
  if res =? CAN then res ← zread_line 100; if res <? 0 then mret res else k res
  else k res.

(** Label [again2]: the byte after the escape; five [CAN]s in a row are the quick
    abort. *)
Fixpoint zread_again2 (fuel : nat) : M Z :=
  match fuel with
  | O => lift (Err OutOfFuel)
  | S fuel =>
      res ← zread_line 100;
      if res <? 0 then mret res
      else
        after_can res (fun res => after_can res (fun res => after_can res (fun res =>
          if res =? CAN then mret GOTCAN
          else if (res =? ZCRCE) || (res =? ZCRCG) || (res =? ZCRCQ) || (res =? ZCRCW) then mret (Z.lor res GOTOR)
          else if res =? ZRUB0 then mret 127
          else if res =? ZRUB1 then mret 255
          else if flow res then zread_again2 fuel
          else if Z.land res 96 =? 64 then mret (Z.lxor res 64)
          else mret (- RT_ERROR))))
  end.

Fixpoint zread_again (fuel : nat) : M Z :=
  match fuel with
  | O => lift (Err OutOfFuel)
  | S fuel =>
      res ← zread_line 100;
      if negb (Z.land res 96 =? 0) then mret res
      else if res =? ZDLE then s ← get; zread_again2 (S (length (line s)))
      else if flow res then zread_again fuel
      else mret res
  end.

Definition zread_byte : M Z := s ← get; zread_again (S (length (line s))).

Fixpoint zxor_loop (fuel : nat) : M Z :=
  match fuel with
  | O => lift (Err OutOfFuel)
  | S fuel =>
      res ← zread_line 100;
      if res <? 0 then mret res
      else
        let res := Z.land res 127 in
        if (res =? XON) || (res =? XOFF) then zxor_loop fuel else mret res
  end.

Definition zxor_read : M Z := s ← get; zxor_loop (S (length (line s))).

(** The value of a digit; negative where it is none. *)
Definition hex_value (res : Z) : option Z :=
  let n := res - 48 in
  let n := if 9 <? n then n - 39 else n in
  if negb (Z.land n (Z.lnot 15) =? 0) then None else Some n.

Definition zget_hex : M Z :=
  res ← zxor_read;
  if res <? 0 then mret res
  else
    match hex_value res with
    | None => mret (- RT_ERROR)
    | Some n =>
        res ← zxor_read;
        if res <? 0 then mret res
        else match hex_value res with None => mret (- RT_ERROR) | Some r => mret (r + Z.shiftl n 4) end
    end.

Definition got_crc (res : Z) : bool :=
  (res =? GOTCRCE) || (res =? GOTCRCG) || (res =? GOTCRCQ) || (res =? GOTCRCW).

Definition is_byte (res : Z) : bool := Z.land res (Z.lnot 255) =? 0.

Definition count_byte : M unit := modify (fun s => with_Rxcount s (u16 (Rxcount s + 1))).

(** What a frame returns that ends without a frame end. *)
Definition broken (res : Z) : Z := if res =? GOTCAN then ZCAN else res.

(** The loop of [zrec_data16] and [zrec_data32]: [i] bytes are in the buffer; the
    check has [size] bytes, [bad] says that it is wrong and [text] is printed then;
    [c] is the frame end once it has come. *)
Section frame.
Context (add : Z -> Z -> Z) (size : Z) (bad : Z -> bool) (text : list Z) (last : Z).

Fixpoint rec_loop (fuel : nat) (buf : list Z) (i crc : Z) (c : option Z) (crc_cnt : Z) : M (Z * list Z) :=
  match fuel with
  | O => lift (Err OutOfFuel)
  | S fuel =>
      if negb (i <=? last) then mret (- RT_ERROR, buf)
      else
        res ← zread_byte;
        if negb (is_byte res) then
          if got_crc res then rec_loop fuel buf i (add (Z.land res 255) crc) (Some res) crc_cnt
          else mret (broken res, buf)
        else
          match c with
          | Some e =>
              let crc := add res crc in
              if crc_cnt + 1 <? size then rec_loop fuel buf i crc c (crc_cnt + 1)
              else if bad crc then _ ← rt_kprintf text; mret (- RT_ERROR, buf)
              else mret (e, buf)
          | None =>
              buf ← lift (upd buf i (u8 res));
              _ ← count_byte;
              rec_loop fuel buf (i + 1) (add res crc) None crc_cnt
          end
  end.
End frame.

(** [ZDEBUG] is defined, as 0, so [#ifdef ZDEBUG] holds. *)
Definition crc16_error : list Z := str "error code: CRC16 error " ++ [13; 10].
Definition crc32_error : list Z := str "error code: CRC32 error " ++ [13; 10].

Definition zrec_data16 (buf : list Z) (len : Z) : M (Z * list Z) :=
  _ ← modify (fun s => with_Rxcount s 0);
  s ← get;
  rec_loop add16s 2 (fun crc => negb (Z.land crc 0xffff =? 0)) crc16_error len (S (length (line s))) buf 0 0 None 0.

(** [p] is not initialised here: [p + len] is at [junk_p + len] in the buffer. *)
Definition zrec_data32 (junk_p : Z) (buf : list Z) (len : Z) : M (Z * list Z) :=
  _ ← modify (fun s => with_Rxcount s 0);
  s ← get;
  rec_loop add32 4 (fun crc => negb (Z.land crc 0xDEBB20E3 =? 0)) crc32_error (junk_p + len) (S (length (line s))) buf 0
    0xffffffff None 0.

(** [while ( --res >= 0) { *buf++ = res; Rxcount++; }] *)
Fixpoint store_run (n : nat) (buf : list Z) (i : Z) : M (list Z * Z) :=
  match n with
  | O => mret (buf, i)
  | S n => buf ← lift (upd buf i (u8 (Z.of_nat n))); _ ← count_byte; store_run n buf (i + 1)
  end.

(** A byte of a run-length encoded frame in state [c]; [None] is [goto end]. *)
Definition spaces (buf : list Z) (i len c res : Z) : M (option (list Z * Z * Z)) :=
  if len <? i + c then mret None
  else '(buf, i) ← store_run (Z.to_nat res) buf i; mret (Some (buf, i, 0)).

Definition rle_step (buf : list Z) (i len c res : Z) : M (option (list Z * Z * Z)) :=
  if c =? 0 then
    if res =? ZRESC then mret (Some (buf, i, -1))
    else buf ← lift (upd buf i (u8 res)); _ ← count_byte; mret (Some (buf, i + 1, c))
  else if c =? -1 then
    if (32 <=? res) && (res <? 64) then spaces buf i len (res - 29) 32
    else if res =? 64 then buf ← lift (upd buf i ZRESC); _ ← count_byte; mret (Some (buf, i + 1, 0))
    else mret (Some (buf, i, res))
  else
    let c := s16 (c - 64) in
    if c <? 1 then mret None else spaces buf i len c res.

(** [c] is both the state of the decoder, which nothing initialises, and the frame
    end. *)
Fixpoint rle_rec_loop (fuel : nat) (buf : list Z) (i len c crc crc_cnt : Z) (flag : bool) : M (Z * list Z) :=
  match fuel with
  | O => lift (Err OutOfFuel)
  | S fuel =>
      if negb (i <=? len) then mret (- RT_ERROR, buf)
      else
        res ← zread_byte;
        if negb (is_byte res) then
          if got_crc res then rle_rec_loop fuel buf i len res (add32 (Z.land res 255) crc) crc_cnt true
          else mret (broken res, buf)
        else
          let crc := add32 res crc in
          if flag then
            if crc_cnt + 1 <? 4 then rle_rec_loop fuel buf i len c crc (crc_cnt + 1) flag
            else if negb (Z.land crc 0xDEBB20E3 =? 0) then _ ← rt_kprintf crc32_error; mret (- RT_ERROR, buf)
            else mret (c, buf)
          else
            next ← rle_step buf i len c res;
            match next with
            | None => mret (- RT_ERROR, buf)
            | Some (buf, i, c) => rle_rec_loop fuel buf i len c crc crc_cnt flag
            end
  end.

Definition zrec_data32r (junk_c : Z) (buf : list Z) (len : Z) : M (Z * list Z) :=
  _ ← modify (fun s => with_Rxcount s 0);
  s ← get;
  rle_rec_loop (S (length (line s))) buf 0 len junk_c 0xffffffff 0 false.

(** [junk] is what the uninitialised locals hold. *)
Definition zget_data (junk : Z) (buf : list Z) (len : Z) : M (Z * list Z) :=
  s ← get;
  if RxCRC s =? 0 then zrec_data16 buf len
  else if RxCRC s =? 1 then zrec_data32 junk buf len
  else if RxCRC s =? 2 then zrec_data32r junk buf len
  else mret (- RT_ERROR, buf).

(** ** Headers *)

(** [n] bytes by [read], into the header from [i] on where [keep] says so; a
    result that is no byte is returned by the caller at once. *)
Fixpoint read_bytes (read : M Z) (no_byte : Z -> bool) (add : Z -> Z -> Z) (keep : bool) (n : nat) (i crc : Z) :
    M (Z + Z) :=
  match n with
  | O => mret (inr crc)
  | S n =>
      res ← read;
      if no_byte res then mret (inl res)
      else
        _ ← (if keep then set_rx i res else mret tt);
        read_bytes read no_byte add keep n (i + 1) (add res crc)
  end.

(** Type, four bytes and [size] bytes of check, all read by [read]; [fin] is what
    follows a good check, [text] is printed after a bad one. *)
Definition read_header (read : M Z) (no_byte : Z -> bool) (add : Z -> Z -> Z) (size : nat) (init : Z)
    (bad : Z -> bool) (text : list Z) (fin : M Z) : M Z :=
  res ← read;
  if no_byte res then mret res
  else
    _ ← modify (fun s => with_header_type s (u8 res));
    body ← read_bytes read no_byte add true 4 0 (add res init);
    match body with
    | inl res => mret res
    | inr crc =>
        check ← read_bytes read no_byte add false size 0 crc;
        match check with
        | inl res => mret res
        | inr crc => if bad crc then _ ← rt_kprintf text; mret (- RT_ERROR) else fin
        end
    end.

Definition its_type : M Z := s ← get; mret (header_type s).

Definition zget_bin_header : M Z :=
  read_header zread_byte (fun r => negb (is_byte r)) add16s 2 0 (fun crc => negb (Z.land crc 0xFFFF =? 0))
    (str "CRC error" ++ [10]) its_type.

Definition zget_bin_fcs : M Z :=
  read_header zread_byte (fun r => negb (is_byte r)) add32 4 0xFFFFFFFF (fun crc => negb (crc =? 0xDEBB20E3))
    (str "CRC error" ++ [10]) its_type.

Definition zget_hex_header : M Z :=
  read_header zget_hex (fun r => r <? 0) add16s 2 0 (fun crc => negb (Z.land crc 0xFFFF =? 0))
    (str "error code : CRC error" ++ [13; 10])
    (res ← zread_line 100;
     if res <? 0 then mret res
     else res ← zread_line 100; if res <? 0 then mret res else its_type).

(** [zget_header] is a machine of three phases with jumps between them: [Hunt] looks
    for a padding character, [Pad] for the escape, [Format] dispatches on the format.
    Its locals are [prev_char], [bit], [get_can] (uninitialised) and [step_out],
    which a jump from [Format] leaves set. *)
Inductive phase := Hunt | Pad | Format.
Record locals := mkLocals { prev_char : Z; bit : Z; get_can : Z; step_out : bool }.
Inductive jump := Go (p : phase) (l : locals) | End (c : Z).

(** [prev_char = c; if (step_out) break;] and what follows the first loop. *)
Definition hunted (c : Z) (l : locals) : jump :=
  if step_out l then Go Pad (mkLocals c (bit l) 0 false) else Go Hunt (mkLocals c (bit l) (get_can l) false).

Definition start_again (c : Z) (l : locals) : jump :=
  let bit := u32 (bit l - 1) in
  if bit =? 0 then End GCOUNT else hunted c (mkLocals (prev_char l) bit 0 (step_out l)).

Definition get_can_ (c : Z) (l : locals) : jump :=
  let n := u16 (get_can l + 1) in
  if 5 <? n then End ZCAN else hunted c (mkLocals (prev_char l) (bit l) n (step_out l)).

Definition hunt (c : Z) (l : locals) : jump :=
  if (c =? 17) || (c =? 145) then
    if prev_char l =? CAN then hunted c l
    else if prev_char l =? ZCRCW then start_again c l
    else hunted c l
  else if c =? RCDO then End c
  else if c =? TIMEOUT then
    if prev_char l =? CAN then hunted c l
    else if prev_char l =? ZCRCW then End (- RT_ERROR)
    else End c
  else if c =? ZCRCW then if prev_char l =? CAN then start_again c l else hunted c l
  else if c =? CAN then get_can_ c l
  else if c =? ZPAD then
    if prev_char l =? CAN then hunted c l
    else if prev_char l =? ZCRCW then start_again c l
    else hunted c (mkLocals (prev_char l) (bit l) (get_can l) true)
  else if prev_char l =? CAN then hunted c l
  else start_again c l.

Definition pad (c : Z) (l : locals) : jump :=
  if c =? ZPAD then Go Pad l
  else if (c =? RCDO) || (c =? TIMEOUT) then End c
  else if c =? ZDLE then Go Format (mkLocals (prev_char l) (bit l) (get_can l) true)
  else start_again c l.

Definition set_RxCRC (x : Z) : M unit := modify (fun s => with_RxCRC s x).

Definition format (c : Z) (l : locals) : M jump :=
  if c =? ZBIN32 then _ ← set_RxCRC 1; c ← zget_bin_fcs; mret (End c)
  else if c =? ZBINR32 then _ ← set_RxCRC 2; c ← zget_bin_fcs; mret (End c)
  else if c =? ZBIN then _ ← set_RxCRC 0; c ← zget_bin_header; mret (End c)
  else if c =? ZHEX then _ ← set_RxCRC 0; c ← zget_hex_header; mret (End c)
  else if c =? CAN then mret (get_can_ c l)
  else if (c =? RCDO) || (c =? TIMEOUT) then mret (End c)
  else mret (start_again c l).

Definition turn (p : phase) (l : locals) : M jump :=
  match p with
  | Hunt => c ← zread_line 100; mret (hunt c l)
  | Pad => c ← zxor_read; mret (pad c l)
  | Format =>
      c ← zxor_read;
      _ ← modify (fun s => with_Rxframeind s (u8 c));
      format c l
  end.

Fixpoint zget_loop (fuel : nat) (p : phase) (l : locals) : M Z :=
  match fuel with
  | O => lift (Err OutOfFuel)
  | S fuel => j ← turn p l; match j with Go p l => zget_loop fuel p l | End c => mret c end
  end.

(** [junk] is the uninitialised [get_can]. *)
Definition zget_header (junk : Z) : M Z :=
  baud ← get_device_baud;
  _ ← modify (fun s => with_header_type (with_Rxframeind s 0) 0);
  s ← get;
  zget_loop (S (length (line s))) Hunt (mkLocals 255 baud junk false).

(** The argument is not used. *)
Definition zget_pos (pos : Z) : M unit :=
  s ← get;
  b0 ← lift (idx (rx_header s) ZP0); b1 ← lift (idx (rx_header s) ZP1);
  b2 ← lift (idx (rx_header s) ZP2); b3 ← lift (idx (rx_header s) ZP3);
  let p := Z.land b3 255 in
  let p := u32 (Z.lor (Z.shiftl p 8) (Z.land b2 255)) in
  let p := u32 (Z.lor (Z.shiftl p 8) (Z.land b1 255)) in
  put (with_Rxpos s (u32 (Z.lor (Z.shiftl p 8) (Z.land b0 255)))).
