(* ===== verification/ZCrc.v ===== *)
(** * The checks of the file transfer

    The tables of crc.h against the division they stand for: the 16 bit check is
    the remainder of the message by x^16 + x^12 + x^5 + 1, bit by bit, and the 32
    bit check is the reflected CRC-32.  Then what makes a receiver accept: a message
    followed by its own check leaves a fixed residue. *)

From S2P Require Import Prelude Zmodem.

(** ** Bits *)

Lemma bit_above x w i : 0 <= x < 2 ^ w -> 0 <= w <= i -> Z.testbit x i = false.
Proof. intros Hx Hi. rewrite <- (Z.mod_small x (2 ^ w)) by done. by apply Z.mod_pow2_bits_high. Qed.

(** Equality of two words by their bits; [lia] decides which bits are above the
    width. *)
Ltac zbits i Hi :=
  apply Z.bits_inj'; intros i Hi; unfold wrap;
  repeat (rewrite ?Z.lxor_spec, ?Z.land_spec, ?Z.testbit_mod_pow2, ?Z.shiftr_spec, ?Z.shiftl_spec, ?Z.lnot_spec by lia).

Lemma byte_cases (P : Z -> bool) b : forallb P (seqZ 0 256) = true -> byte b -> P b = true.
Proof. intros H Hb. rewrite forallb_forall in H. apply H, list_elem_of_In, elem_of_seqZ. unfold byte in Hb. lia. Qed.

Lemma land255 x : Z.land x 255 = x mod 256.
Proof. change 255 with (Z.ones 8). by rewrite Z.land_ones by lia. Qed.

Lemma land255_byte b : byte b -> Z.land b 255 = b.
Proof. intros. rewrite land255. by apply Z.mod_small. Qed.

Lemma land255_l b : byte b -> Z.land 255 b = b.
Proof. intros. by rewrite Z.land_comm, land255_byte. Qed.

Lemma byte_low x : byte (Z.land x 255).
Proof. rewrite land255. apply Z.mod_pos_bound. lia. Qed.

Lemma lxor_range w x y : 0 <= w -> 0 <= x < 2 ^ w -> 0 <= y < 2 ^ w -> 0 <= Z.lxor x y < 2 ^ w.
Proof.
  intros Hw Hx Hy. assert (Hn : 0 <= Z.lxor x y) by (apply Z.lxor_nonneg; lia).
  split; [done|]. rewrite (Z.bounded_iff_bits_nonneg w) by done. intros i Hi.
  by rewrite Z.lxor_spec, !(bit_above _ w) by lia.
Qed.

Lemma shiftr_range w k x : 0 <= k <= w -> 0 <= x < 2 ^ w -> 0 <= Z.shiftr x k < 2 ^ (w - k).
Proof.
  intros Hk Hx. rewrite Z.shiftr_div_pow2 by lia. split; [apply Z.div_pos; lia|].
  apply Z.div_lt_upper_bound; [lia|].
  assert (2 ^ w = 2 ^ k * 2 ^ (w - k)) by (rewrite <- Z.pow_add_r by lia; f_equal; lia). lia.
Qed.

(** ** The tables *)

Definition T16 (i : Z) : Z := nth (Z.to_nat i) crctab 0.
Definition T32 (i : Z) : Z := nth (Z.to_nat i) cr3tab 0.

Lemma T16_range i : byte i -> 0 <= T16 i < 2 ^ 16.
Proof.
  intros Hi. pose proof (byte_cases (fun i => (0 <=? T16 i) && (T16 i <? 2 ^ 16)) i ltac:(by vm_compute) Hi) as H.
  cbn beta in H. lia.
Qed.

Lemma T32_range i : byte i -> 0 <= T32 i < 2 ^ 32.
Proof.
  intros Hi. pose proof (byte_cases (fun i => (0 <=? T32 i) && (T32 i <? 2 ^ 32)) i ltac:(by vm_compute) Hi) as H.
  cbn beta in H. lia.
Qed.

Lemma add16s_eq b c : byte b -> 0 <= c < 2 ^ 16 ->
  add16s b c = Z.lxor (Z.lxor (T16 (Z.shiftr c 8)) (Z.shiftl (Z.land c 255) 8)) b.
Proof.
  intros Hb Hc. pose proof (shiftr_range 16 8 c ltac:(lia) Hc) as Hh.
  pose proof (T16_range _ Hh) as HT. unfold add16s, updcrc16. fold (T16 (Z.land (Z.shiftr c 8) 255)).
  rewrite (land255_byte (Z.shiftr c 8)) by done. zbits i Hi. change 255 with (Z.ones 8). rewrite Z.testbit_ones by lia.
  unfold byte in Hb.
  destruct (i <? 16) eqn:E; cbn [andb].
  - destruct (Z.testbit c (i - 8)) eqn:Ec; [|done]. rewrite Z.ltb_lt in E.
    destruct (decide (i < 8)); [by rewrite Z.testbit_neg_r in Ec by lia|].
    by replace ((0 <=? i - 8) && (i - 8 <? 8)) with true by lia.
  - rewrite Z.ltb_ge in E. rewrite (bit_above _ 16), (bit_above b 8) by lia.
    replace ((0 <=? i - 8) && (i - 8 <? 8)) with false by lia. by destruct (Z.testbit c (i - 8)).
Qed.

Lemma add32_eq b c : byte b -> 0 <= c < 2 ^ 32 ->
  add32 b c = Z.lxor (T32 (Z.land (Z.lxor c b) 255)) (Z.shiftr c 8).
Proof.
  intros Hb Hc. pose proof (T32_range _ (byte_low (Z.lxor c b))) as HT.
  pose proof (shiftr_range 32 8 c ltac:(lia) Hc) as Hh.
  unfold add32, updcrc32. fold (T32 (Z.land (Z.lxor c b) 255)).
  replace (Z.land (Z.shiftr c 8) 16777215) with (Z.shiftr c 8)
    by (change 16777215 with (Z.ones 24); by rewrite Z.land_ones, Z.mod_small by lia).
  apply wrap_id, lxor_range; lia.
Qed.

Lemma add16s_range b c : 0 <= add16s b c < 2 ^ 16.
Proof. apply wrap_bounds. lia. Qed.

Lemma add32_range b c : 0 <= add32 b c < 2 ^ 32.
Proof. apply wrap_bounds. lia. Qed.

(** Only the low 16 bits of the accumulator matter, so a sender's 32 bit one and a
    receiver's 16 bit one agree. *)
Lemma updcrc16_low b c : u16 (updcrc16 b c) = add16s b (u16 c).
Proof.
  unfold add16s, updcrc16. zbits i Hi.
  replace (Z.land (Z.shiftr (c mod 2 ^ 16) 8) 255) with (Z.land (Z.shiftr c 8) 255).
  2:{ zbits j Hj. change 255 with (Z.ones 8). rewrite Z.testbit_ones by lia.
      destruct (decide (j < 8)); [by replace (j + 8 <? 16) with true by lia|].
      replace (j <? 8) with false by lia. by rewrite andb_false_r, !andb_false_r. }
  destruct (i <? 16) eqn:E; cbn [andb]; [|done]. by replace (i - 8 <? 16) with true by lia.
Qed.

Lemma u16_u32 x : u16 (u32 x) = u16 x.
Proof. zbits i Hi. destruct (i <? 16) eqn:E; cbn [andb]; [|done]. by replace (i <? 32) with true by lia. Qed.

Lemma add16_low b c : u16 (add16 b c) = add16s b (u16 c).
Proof. unfold add16. by rewrite u16_u32, updcrc16_low. Qed.

(** ** Residues *)

Definition crc16 (bs : list Z) : Z := foldl (fun c b => add16s b c) 0 bs.
Definition crc32 (bs : list Z) : Z := foldl (fun c b => add32 b c) 0xffffffff bs.

(** The check of a frame. *)
Definition check16 (c : Z) : Z := add16s 0 (add16s 0 c).

Lemma check16_def c : check16 c = add16s 0 (add16s 0 c).
Proof. unfold check16. reflexivity. Qed.

Lemma add16s_xor b c : byte b -> 0 <= c < 2 ^ 16 -> add16s b c = Z.lxor (add16s 0 c) b.
Proof. intros Hb Hc. rewrite !add16s_eq by done. by rewrite Z.lxor_0_r. Qed.

Lemma residue16 c : 0 <= c < 2 ^ 16 ->
  add16s (Z.land (check16 c) 255) (add16s (Z.shiftr (check16 c) 8) c) = 0.
Proof.
  intros Hc. unfold check16. set (x := add16s 0 c). pose proof (add16s_range 0 c : 0 <= x < 2 ^ 16) as Hx.
  set (r := add16s 0 x). pose proof (add16s_range 0 x : 0 <= r < 2 ^ 16) as Hr.
  pose proof (shiftr_range 16 8 r ltac:(lia) Hr) as Hh. change (2 ^ (16 - 8)) with 256 in Hh.
  rewrite (add16s_xor (Z.shiftr r 8)) by done. fold x.
  assert (Hxh : 0 <= Z.lxor x (Z.shiftr r 8) < 2 ^ 16) by (apply lxor_range; lia).
  rewrite add16s_eq by (done || apply byte_low).
  replace (Z.shiftr (Z.lxor x (Z.shiftr r 8)) 8) with (Z.shiftr x 8).
  2:{ zbits i Hi. by rewrite (bit_above r 16), xorb_false_r by lia. }
  assert (Er : r = Z.lxor (T16 (Z.shiftr x 8)) (Z.shiftl (Z.land x 255) 8)).
  { unfold r. rewrite add16s_eq by done. by rewrite Z.lxor_0_r. }
  set (t := T16 (Z.shiftr x 8)) in *. set (l := Z.shiftl (Z.land x 255) 8) in *.
  transitivity (Z.lxor (Z.lxor t l) r); [|rewrite Er; apply Z.lxor_nilpotent].
  unfold l. clear Er. zbits i Hi. change 255 with (Z.ones 8). rewrite !Z.testbit_ones by lia.
  destruct (decide (i < 8)).
  - rewrite !(Z.testbit_neg_r _ (i - 8)) by lia. replace ((0 <=? i) && (i <? 8)) with true by lia.
    by destruct (Z.testbit t i), (Z.testbit r i).
  - rewrite Z.shiftr_spec by lia. replace (i - 8 + 8) with i by lia.
    replace ((0 <=? i) && (i <? 8)) with false by lia. destruct (decide (i < 16)).
    + replace ((0 <=? i - 8) && (i - 8 <? 8)) with true by lia.
      by destruct (Z.testbit t i), (Z.testbit r i), (Z.testbit x (i - 8)).
    + rewrite (bit_above r 16) by lia. replace ((0 <=? i - 8) && (i - 8 <? 8)) with false by lia.
      by destruct (Z.testbit t i), (Z.testbit x (i - 8)).
Qed.

(** The four bytes of the complement cancel the register, whatever it holds. *)
Lemma residue32_step k c : 0 <= k < 2 ^ 32 -> 0 <= c < 2 ^ 32 ->
  add32 (Z.land (Z.lnot c) 255) (Z.lxor k c) = Z.lxor (add32 255 k) (Z.shiftr c 8).
Proof.
  intros Hk Hc. rewrite !add32_eq by (done || apply byte_low || apply lxor_range; lia).
  replace (Z.land (Z.lxor (Z.lxor k c) (Z.land (Z.lnot c) 255)) 255) with (Z.land (Z.lxor k 255) 255).
  2:{ zbits i Hi. change 255 with (Z.ones 8). rewrite Z.testbit_ones by lia.
      by destruct (Z.testbit k i), (Z.testbit c i), ((0 <=? i) && (i <? 8)). }
  zbits i Hi. by destruct (Z.testbit (T32 _) i), (Z.testbit k (i + 8)), (Z.testbit c (i + 8)).
Qed.

(** The bytes of the complement, low byte first. *)
Definition fcs (c : Z) : list Z := (fun k => Z.land (Z.shiftr (u32 (Z.lnot c)) k) 255) <$> [0; 8; 16; 24].

Lemma fcs_byte c k : 0 <= k <= 24 -> Z.land (Z.shiftr (u32 (Z.lnot c)) k) 255 = Z.land (Z.lnot (Z.shiftr c k)) 255.
Proof.
  intros Hk. zbits i Hi. change 255 with (Z.ones 8). rewrite Z.testbit_ones by lia.
  destruct (decide (i < 8)); [by replace (i + k <? 32) with true by lia|].
  replace (i <? 8) with false by lia. by rewrite !andb_false_r.
Qed.

Lemma residue32 c : 0 <= c < 2 ^ 32 -> foldl (fun c b => add32 b c) c (fcs c) = 0xDEBB20E3.
Proof.
  intros Hc. unfold fcs. cbn [fmap list_fmap foldl]. rewrite !fcs_byte by lia.
  rewrite (Z.shiftr_0_r c). pose proof (residue32_step 0 c ltac:(lia) Hc) as E0. rewrite Z.lxor_0_l in E0. rewrite E0. clear E0.
  pose proof (fun k Hk => shiftr_range 32 k c Hk Hc) as Hs.
  rewrite residue32_step by (apply add32_range || specialize (Hs 8); lia).
  rewrite Z.shiftr_shiftr by lia. rewrite residue32_step by (apply add32_range || specialize (Hs (8 + 8)); lia).
  rewrite Z.shiftr_shiftr by lia. rewrite residue32_step by (apply add32_range || specialize (Hs (8 + 8 + 8)); lia).
  rewrite Z.shiftr_shiftr by lia. rewrite (Z.shiftr_div_pow2 c), Z.div_small by lia.
  by vm_compute.
Qed.

(** ** The division *)

(** One step of the long division by x^16 + x^12 + x^5 + 1: the next bit of the
    message comes in; where the register reaches x^16, the divisor is taken away. *)
Definition divide16 (s : Z) (bit : bool) : Z :=
  let s := 2 * s + Z.b2z bit in if Z.testbit s 16 then Z.lxor s 0x11021 else s.

Definition bits_of (b : Z) : list bool := Z.testbit b <$> [7; 6; 5; 4; 3; 2; 1; 0].

(** The remainder of the message times x^16. *)
Definition remainder16 (bs : list Z) : Z := foldl divide16 0 (mjoin (bits_of <$> bs) ++ replicate 16 false).

(** One step of the reflected CRC-32. *)
Definition divide32 (c : Z) : Z := if Z.testbit c 0 then Z.lxor (Z.shiftr c 1) 0xEDB88320 else Z.shiftr c 1.

Definition reflected32 (bs : list Z) : Z :=
  Z.lxor (foldl (fun c b => Nat.iter 8 divide32 (Z.lxor c b)) 0xFFFFFFFF bs) 0xFFFFFFFF.

Lemma feed_xor s t a b : 2 * Z.lxor s t + Z.b2z (xorb a b) = Z.lxor (2 * s + Z.b2z a) (2 * t + Z.b2z b).
Proof.
  apply Z.bits_inj'. intros i Hi. rewrite Z.lxor_spec. destruct (decide (i = 0)) as [->|Hne].
  - by rewrite !Z.testbit_0_r.
  - replace i with (Z.succ (i - 1)) by lia. by rewrite !Z.testbit_succ_r, Z.lxor_spec by lia.
Qed.

Lemma divide16_xor s t a b : divide16 (Z.lxor s t) (xorb a b) = Z.lxor (divide16 s a) (divide16 t b).
Proof.
  unfold divide16. rewrite feed_xor, Z.lxor_spec. set (x := 2 * s + _). set (y := 2 * t + _).
  destruct (Z.testbit x 16), (Z.testbit y 16); cbn [xorb]; zbits i Hi;
    by destruct (Z.testbit x i), (Z.testbit y i), (Z.testbit 69665 i).
Qed.

Lemma divide16_fold l s t :
  foldl divide16 (Z.lxor s t) l = Z.lxor (foldl divide16 s (replicate (length l) false)) (foldl divide16 t l).
Proof.
  revert s t. induction l as [|b l IH]; intros s t; [done|]. cbn [length replicate foldl].
  rewrite <- IH. f_equal. by rewrite <- divide16_xor, xorb_false_l.
Qed.

Lemma split_byte c : 0 <= c -> Z.lxor (Z.shiftl (Z.shiftr c 8) 8) (Z.land c 255) = c.
Proof.
  intros Hc. zbits i Hi. change 255 with (Z.ones 8). rewrite Z.testbit_ones by lia.
  destruct (decide (i < 8)).
  - rewrite (Z.testbit_neg_r _ (i - 8)) by lia. replace ((0 <=? i) && (i <? 8)) with true by lia.
    by rewrite andb_true_r.
  - rewrite Z.shiftr_spec by lia. replace (i - 8 + 8) with i by lia.
    replace ((0 <=? i) && (i <? 8)) with false by lia. by rewrite andb_false_r, xorb_false_r.
Qed.

Lemma divide16_byte c b : byte b -> 0 <= c < 2 ^ 16 -> foldl divide16 c (bits_of b) = add16s b c.
Proof.
  intros Hb Hc. rewrite add16s_eq by done. rewrite <- (split_byte c) at 1 by lia.
  rewrite <- (Z.lxor_0_r (Z.land c 255)), divide16_fold, divide16_fold. cbn [length bits_of fmap list_fmap].
  pose proof (shiftr_range 16 8 c ltac:(lia) Hc) as Hh.
  pose proof (byte_cases (fun h => foldl divide16 (Z.shiftl h 8) (replicate 8 false) =? T16 h) _ eq_refl Hh) as H1.
  pose proof (byte_cases (fun l => foldl divide16 l (replicate 8 false) =? Z.shiftl l 8) _ eq_refl (byte_low c)) as H2.
  pose proof (byte_cases (fun b => foldl divide16 0 (bits_of b) =? b) _ eq_refl Hb) as H3.
  cbn beta in *. rewrite Z.eqb_eq in *. rewrite H1, H2. unfold bits_of in H3. cbn [fmap list_fmap] in H3.
  by rewrite H3, Z.lxor_0_r, Z.lxor_assoc.
Qed.

Lemma crc16_range bs : 0 <= crc16 bs < 2 ^ 16.
Proof. destruct bs using rev_ind; [done|]. unfold crc16. rewrite foldl_snoc. apply add16s_range. Qed.

Lemma crc32_range bs : 0 <= crc32 bs < 2 ^ 32.
Proof. destruct bs using rev_ind; [done|]. unfold crc32. rewrite foldl_snoc. apply add32_range. Qed.

Lemma remainder16_eq bs : Forall byte bs -> remainder16 bs = check16 (crc16 bs).
Proof.
  intros Hbs. unfold remainder16. rewrite foldl_app.
  assert (E : foldl divide16 0 (mjoin (bits_of <$> bs)) = crc16 bs).
  { induction bs as [|b bs IH] using rev_ind; [done|].
    apply Forall_app in Hbs as [Hbs Hb]. apply Forall_inv in Hb. specialize (IH Hbs).
    rewrite fmap_app, join_app, foldl_app, IH. unfold crc16. rewrite foldl_snoc.
    cbn [fmap list_fmap]. change (mjoin [bits_of b]) with (bits_of b ++ []). rewrite app_nil_r.
    apply divide16_byte; [done | apply crc16_range]. }
  rewrite E. change (replicate 16 false) with (bits_of 0 ++ bits_of 0). rewrite foldl_app.
  rewrite (divide16_byte (crc16 bs)) by (done || apply crc16_range).
  rewrite divide16_byte by (done || apply add16s_range). unfold check16. reflexivity.
Qed.

Lemma divide32_xor s t : divide32 (Z.lxor s t) = Z.lxor (divide32 s) (divide32 t).
Proof.
  unfold divide32. rewrite Z.lxor_spec, Z.shiftr_lxor.
  destruct (Z.testbit s 0), (Z.testbit t 0); cbn [xorb]; zbits i Hi;
    by destruct (Z.testbit s (i + 1)), (Z.testbit t (i + 1)), (Z.testbit 3988292384 i).
Qed.

Lemma divide32_shift h k : 0 <= k -> divide32 (Z.shiftl h (k + 1)) = Z.shiftl h k.
Proof.
  intros Hk. unfold divide32. rewrite Z.shiftl_spec_low by lia.
  rewrite Z.shiftr_shiftl_l by lia. f_equal. lia.
Qed.

Lemma divide32_byte c b : byte b -> 0 <= c < 2 ^ 32 -> Nat.iter 8 divide32 (Z.lxor c b) = add32 b c.
Proof.
  intros Hb Hc. rewrite add32_eq by done. set (x := Z.lxor c b).
  assert (Hx : 0 <= x < 2 ^ 32) by (apply lxor_range; unfold byte in Hb; lia).
  pose proof (byte_cases (fun l => Nat.iter 8 divide32 l =? T32 l) _ eq_refl (byte_low x)) as H1.
  cbn beta in H1. rewrite Z.eqb_eq in H1. rewrite <- H1.
  assert (Ec : Z.shiftr c 8 = Z.shiftr x 8).
  { unfold x. zbits i Hi. by rewrite (bit_above b 8), xorb_false_r by (unfold byte in Hb; lia). }
  rewrite Ec. rewrite <- (split_byte x) at 1 by lia. cbn [Nat.iter nat_rect].
  rewrite !divide32_xor. rewrite Z.lxor_comm. f_equal.
  rewrite (divide32_shift _ 7), (divide32_shift _ 6), (divide32_shift _ 5), (divide32_shift _ 4),
    (divide32_shift _ 3), (divide32_shift _ 2), (divide32_shift _ 1), (divide32_shift _ 0) by lia.
  apply Z.shiftl_0_r.
Qed.

Lemma reflected32_eq bs : Forall byte bs -> reflected32 bs = u32 (Z.lnot (crc32 bs)).
Proof.
  intros Hbs. unfold reflected32.
  assert (E : foldl (fun c b => Nat.iter 8 divide32 (Z.lxor c b)) 0xFFFFFFFF bs = crc32 bs).
  { induction bs as [|b bs IH] using rev_ind; [done|].
    apply Forall_app in Hbs as [Hbs Hb]. apply Forall_inv in Hb. specialize (IH Hbs).
    unfold crc32 in *. rewrite !foldl_snoc, IH. apply divide32_byte; [done | apply crc32_range]. }
  rewrite E. pose proof (crc32_range bs) as Hc. change 0xFFFFFFFF with (Z.ones 32). zbits i Hi.
  rewrite Z.testbit_ones by lia. destruct (decide (i < 32)).
  - replace ((0 <=? i) && (i <? 32)) with true by lia. replace (i <? 32) with true by lia.
    by destruct (Z.testbit (crc32 bs) i).
  - rewrite (bit_above _ 32) by lia. replace (i <? 32) with false by lia. by rewrite andb_false_r.
Qed.

(** ** Damage

    The registers forget nothing: from different registers, the same bytes lead to
    different registers.  So damage within two adjacent bytes changes the check. *)

Lemma T16_low_inj i j : byte i -> byte j -> Z.land (T16 i) 255 = Z.land (T16 j) 255 -> i = j.
Proof.
  intros Hi Hj. pose proof (byte_cases (fun i => forallb (fun j =>
    negb (Z.land (T16 i) 255 =? Z.land (T16 j) 255) || (i =? j)) (seqZ 0 256)) i ltac:(by vm_compute) Hi) as H.
  cbn beta in H. pose proof (byte_cases _ j H Hj) as H'. cbn beta in H'. lia.
Qed.

Lemma land255_lxor x y : Z.land (Z.lxor x y) 255 = Z.lxor (Z.land x 255) (Z.land y 255).
Proof. zbits i Hi. by destruct (Z.testbit x i), (Z.testbit y i), (Z.testbit 255 i). Qed.

Lemma lxor_cancel x y z : Z.lxor x z = Z.lxor y z -> x = y.
Proof.
  intros H. assert (E : Z.lxor (Z.lxor x z) z = Z.lxor (Z.lxor y z) z) by by rewrite H.
  by rewrite !Z.lxor_assoc, Z.lxor_nilpotent, !Z.lxor_0_r in E.
Qed.

Lemma shiftl8_low x : Z.land (Z.shiftl x 8) 255 = 0.
Proof. rewrite land255, Z.shiftl_mul_pow2 by lia. by apply Z_mod_mult. Qed.

Lemma add16s_inj b c c' : byte b -> 0 <= c < 2 ^ 16 -> 0 <= c' < 2 ^ 16 -> add16s b c = add16s b c' -> c = c'.
Proof.
  intros Hb Hc Hc'. rewrite !add16s_eq by done. intros H%lxor_cancel.
  pose proof (shiftr_range 16 8 c ltac:(lia) Hc) as Hh. pose proof (shiftr_range 16 8 c' ltac:(lia) Hc') as Hh'.
  assert (Eh : Z.shiftr c 8 = Z.shiftr c' 8).
  { apply T16_low_inj; [done..|]. pose proof (f_equal (fun x => Z.land x 255) H) as E. cbn beta in E.
    by rewrite !land255_lxor, !shiftl8_low, !Z.lxor_0_r in E. }
  rewrite Eh, !(Z.lxor_comm (T16 _)) in H. apply lxor_cancel in H.
  rewrite <- (split_byte c), <- (split_byte c') by lia. rewrite Eh. f_equal.
  rewrite !Z.shiftl_mul_pow2 in H by lia. lia.
Qed.

Lemma add16s_fold_inj l c c' : Forall byte l -> 0 <= c < 2 ^ 16 -> 0 <= c' < 2 ^ 16 ->
  foldl (fun c b => add16s b c) c l = foldl (fun c b => add16s b c) c' l -> c = c'.
Proof.
  intros Hl. revert c c'. induction Hl as [|b l Hb _ IH]; intros c c' Hc Hc'; [done|]. cbn [foldl]. intros H.
  apply (add16s_inj b); [done..|]. by apply IH; [apply add16s_range..|].
Qed.

Lemma add16s_pair_inj c x y x' y' : 0 <= c < 2 ^ 16 -> byte x -> byte y -> byte x' -> byte y' ->
  add16s y (add16s x c) = add16s y' (add16s x' c) -> x = x' /\ y = y'.
Proof.
  intros Hc Hx Hy Hx' Hy'. rewrite (add16s_xor x), (add16s_xor x') by done. set (k := add16s 0 c).
  pose proof (add16s_range 0 c : 0 <= k < 2 ^ 16) as Hk.
  assert (Hlow : forall z, byte z -> 0 <= Z.lxor k z < 2 ^ 16) by (intros z Hz; apply lxor_range; unfold byte in Hz; lia).
  assert (Hhigh : forall z, byte z -> Z.shiftr (Z.lxor k z) 8 = Z.shiftr k 8).
  { intros z Hz. zbits i Hi. by rewrite (bit_above z 8), xorb_false_r by (unfold byte in Hz; lia). }
  rewrite !add16s_eq by auto. rewrite !Hhigh, !Z.lxor_assoc by done.
  rewrite !(Z.lxor_comm (T16 _)). intros H%lxor_cancel.
  pose proof (f_equal (fun z => Z.land z 255) H) as E. cbn beta in E.
  rewrite !land255_lxor, !shiftl8_low, !Z.lxor_0_l, !(land255_byte y), !(land255_byte y') in E by done.
  split; [|done]. subst y'. apply lxor_cancel in H. rewrite !Z.shiftl_mul_pow2, !land255_lxor in H by lia.
  rewrite (land255_byte x), (land255_byte x') in H by done. apply (lxor_cancel _ _ (Z.land k 255)). rewrite !(Z.lxor_comm _ (Z.land k 255)). lia.
Qed.
