(* ===== verification/ZFrames.v ===== *)
(** * The frames of the file transfer, read back

    What the senders of [Zmodem] put on the line, as lists of bytes, and that the
    receivers read them back: characters with escapes, data frames and headers. *)

From S2P Require Import Prelude Zmodem ZCrc.

#[local] Opaque add16 add16s add32.

(** ** Characters *)

Definition special (b : Z) : bool := (b =? ZDLE) || (b =? 17) || (b =? 19) || (b =? 145) || (b =? 147).

(** A byte with its escape. *)
Definition enc (b : Z) : list Z := if special b then [ZDLE; Z.lxor b 64] else [b].
Definition encs (bs : list Z) : list Z := bs ≫= enc.

Lemma encs_app a b : encs (a ++ b) = encs a ++ encs b.
Proof. apply bind_app. Qed.

Lemma encs_cons a b : encs (a :: b) = enc a ++ encs b.
Proof. done. Qed.

Lemma enc_length b : (1 <= length (enc b))%nat.
Proof. unfold enc. case_match; cbn; lia. Qed.

Lemma encs_length bs : (length bs <= length (encs bs))%nat.
Proof. induction bs as [|b bs IH]; [done|]. rewrite encs_cons, length_app. pose proof (enc_length b). cbn [length]. lia. Qed.

Definition to_send (s : zm) (bs : list Z) : zm := with_sent s (sent s ++ bs).

Lemma to_send_app s a b : to_send (to_send s a) b = to_send s (a ++ b).
Proof. unfold to_send, with_sent. cbn. by rewrite app_assoc. Qed.

Lemma to_send_TxCRC s x l : to_send (with_TxCRC s x) l = with_TxCRC (to_send s l) x.
Proof. reflexivity. Qed.

Lemma zsend_byte_run c s : byte c -> zsend_byte c s = Ret (tt, to_send s [c]).
Proof. intros. unfold zsend_byte. by rewrite wrap_id. Qed.

Lemma zsend_zdle_run ch s : zsend_zdle_char ch s = Ret (tt, to_send s (enc (Z.land ch 255))).
Proof.
  pose proof (byte_low ch) as Hb. unfold zsend_zdle_char, enc, special. set (res := Z.land ch 255) in *.
  destruct (decide (res = 255)) as [->|Hne]; [done|]. rewrite (proj2 (Z.eqb_neq _ _) Hne).
  destruct ((res =? ZDLE) || (res =? 17) || (res =? 19) || (res =? 145) || (res =? 147)) eqn:E.
  - rewrite (st_bind_run _ _ _ tt (to_send s [ZDLE])) by done.
    rewrite zsend_byte_run; [by rewrite to_send_app|].
    assert (res = 24 \/ res = 17 \/ res = 19 \/ res = 145 \/ res = 147) as Hr by (unfold ZDLE in E; lia).
    by repeat destruct Hr as [->|Hr]; [..|subst res; rewrite Hr].
  - by apply zsend_byte_run.
Qed.

(** Sending bytes through [send], which puts [E b] on the line for a byte [b]. *)
Lemma send_bytes_by send E add n p crc s :
  (forall b s, byte b -> send b s = Ret (tt, to_send s (E b))) -> Forall byte (take n p) -> (n <= length p)%nat ->
  send_bytes send add n p crc s = Ret (foldl (fun c b => add b c) crc (take n p), to_send s (take n p ≫= E)).
Proof.
  intros Hsend. revert p crc s. induction n as [|n IH]; intros p crc s Hp Hn.
  - cbn. unfold to_send. rewrite app_nil_r. by destruct s.
  - destruct p as [|b p]; cbn [length] in Hn; [lia|]. cbn [take] in Hp |- *. inversion Hp; subst. cbn [send_bytes].
    rewrite (st_bind_run _ _ _ _ _ (Hsend b s ltac:(done))). rewrite IH by (done || lia).
    rewrite to_send_app, land255_l by done. done.
Qed.

Lemma send_bytes_run add n p crc s : Forall byte (take n p) -> (n <= length p)%nat ->
  send_bytes zsend_zdle_char add n p crc s =
  Ret (foldl (fun c b => add b c) crc (take n p), to_send s (encs (take n p))).
Proof.
  apply send_bytes_by. intros b s' Hb. by rewrite zsend_zdle_run, land255_byte.
Qed.

Lemma lift_Ret_bind {S A B} (a : A) (k : A -> ST S B) s : (lift (Ret a) ≫= k) s = k a s.
Proof. done. Qed.

(** ** Reading *)

(** The line of a receiver that waits. *)
Definition hears (s : zm) (l : list Z) : Prop := Line_left s = 0 /\ line s = l.

Lemma hears_line s l l' : hears s l -> hears (with_line s l') l'.
Proof. by intros []. Qed.

Lemma hear_run t s c l : hears s (c :: l) -> byte c -> zread_line t s = Ret (c, with_line s l).
Proof.
  intros [H0 Hl] Hc. unfold zread_line. unfold_st. rewrite H0, Hl. cbn. rewrite land255_byte by done.
  unfold with_Line_left, with_line. cbn. by rewrite H0.
Qed.

(** Runs a step on the head of the line. *)
Ltac hear :=
  match goal with
  | H : hears ?s (?c :: ?l) |- context [(zread_line ?t ≫= ?k) ?s] =>
      rewrite (st_bind_run _ k s c (with_line s l) (hear_run t s c l H ltac:(done)));
      apply (hears_line s _ l) in H
  end.

Lemma zread_again_zdle fuel s l : hears s (ZDLE :: l) ->
  zread_again (S fuel) s = zread_again2 (S (length l)) (with_line s l).
Proof. intros H. cbn [zread_again]. by hear. Qed.

(** The byte after an escape that is neither [CAN] nor flow control. *)
Lemma zread_again2_one fuel c s l : hears s (c :: l) -> byte c -> c <> CAN ->
  zread_again2 (S fuel) s =
  (if (c =? ZCRCE) || (c =? ZCRCG) || (c =? ZCRCQ) || (c =? ZCRCW) then mret (Z.lor c GOTOR)
   else if c =? ZRUB0 then mret 127 else if c =? ZRUB1 then mret 255
   else if flow c then zread_again2 fuel
   else if Z.land c 96 =? 64 then mret (Z.lxor c 64) else mret (- RT_ERROR)) (with_line s l).
Proof.
  intros H Hb Hc. cbn [zread_again2]. hear. unfold after_can.
  rewrite (proj2 (Z.eqb_neq _ _) Hc). replace (c <? 0) with false by (unfold byte in Hb; lia). done.
Qed.

Lemma zread_enc b s rest : hears s (enc b ++ rest) -> byte b -> zread_byte s = Ret (b, with_line s rest).
Proof.
  intros H Hb. unfold zread_byte. rewrite st_get_bind. pose proof H as [_ Hl]. rewrite Hl, length_app. clear Hl.
  unfold enc in *. destruct (special b) eqn:E.
  - cbn [app] in H. rewrite (zread_again_zdle _ s (Z.lxor b 64 :: rest)) by done. apply (hears_line s _ (Z.lxor b 64 :: rest)) in H.
    assert (b = 24 \/ b = 17 \/ b = 19 \/ b = 145 \/ b = 147) as Hr by (unfold special, ZDLE in E; lia).
    by repeat destruct Hr as [->|Hr]; [..|subst b]; rewrite (zread_again2_one _ _ _ rest H) by done.
  - cbn [length app Nat.add] in *. cbn [zread_again]. hear.
    destruct (negb (Z.land b 96 =? 0)); [done|]. unfold special in E. unfold flow.
    destruct (b =? ZDLE) eqn:E1; [done|]. cbn [orb] in E.
    destruct ((b =? 19) || (b =? 147) || (b =? 17) || (b =? 145)) eqn:E2; [lia | done].
Qed.

Definition ends (e : Z) : Prop := e = ZCRCE \/ e = ZCRCG \/ e = ZCRCQ \/ e = ZCRCW.

Lemma zread_end e s rest : hears s (ZDLE :: e :: rest) -> ends e -> zread_byte s = Ret (Z.lor e GOTOR, with_line s rest).
Proof.
  intros H He. unfold zread_byte. rewrite st_get_bind. pose proof H as [_ ->].
  cbn [length]. rewrite (zread_again_zdle _ s (e :: rest)) by done. apply (hears_line s _ (e :: rest)) in H.
  by destruct He as [-> | [-> | [-> | ->]]]; rewrite (zread_again2_one _ _ _ rest H) by done.
Qed.

(** ** Data frames *)

Lemma is_byte_byte b : byte b -> is_byte b = true.
Proof. intros Hb. exact (byte_cases is_byte b eq_refl Hb). Qed.

Lemma ends_got e : ends e -> is_byte (Z.lor e GOTOR) = false /\ got_crc (Z.lor e GOTOR) = true /\
  Z.land (Z.lor e GOTOR) 255 = e /\ byte e.
Proof. by intros [-> | [-> | [-> | ->]]]. Qed.

Section rec.
Context (add : Z -> Z -> Z) (size : Z) (bad : Z -> bool) (text : list Z) (last : Z).

(** What a frame gives whose check ends in [crc]. *)
Definition verdict (e crc : Z) : Z := if bad crc then - RT_ERROR else Z.lor e GOTOR.
Definition told (crc : Z) (s : zm) : zm := if bad crc then with_says s (says s ++ text) else s.

Lemma rec_check fuel buf i crc e cnt ck s rest :
  hears s (encs ck ++ rest) -> Forall byte ck -> cnt + Z.of_nat (length ck) = size -> ck <> [] ->
  i <= last -> (length ck < fuel)%nat ->
  rec_loop add size bad text last fuel buf i crc (Some (Z.lor e GOTOR)) cnt s =
  Ret ((verdict e (foldl (fun c b => add b c) crc ck), buf), told (foldl (fun c b => add b c) crc ck) (with_line s rest)).
Proof.
  intros H Hck. revert fuel crc cnt s H. induction Hck as [|b ck Hb _ IH]; intros fuel crc cnt s H Hn Hne Hi Hf; [done|].
  destruct fuel as [|fuel]; [cbn in Hf; lia|]. cbn [rec_loop length foldl] in *.
  replace (i <=? last) with true by lia. cbn [negb].
  rewrite encs_cons, <- app_assoc in H. rewrite (st_bind_run _ _ _ _ _ (zread_enc b s _ H Hb)).
  apply (hears_line s _ (encs ck ++ rest)) in H. rewrite is_byte_byte by done. cbn [negb].
  destruct (decide (ck = [])) as [->|Hck].
  - cbn [length] in Hn. replace (cnt + 1 <? size) with false by lia. unfold verdict, told. cbn [foldl].
    by destruct (bad _).
  - replace (cnt + 1 <? size) with true by (destruct ck; [done | cbn [length] in Hn; lia]).
    rewrite IH by (done || lia). done.
Qed.

Definition received (s : zm) (n : nat) (l : list Z) : zm := with_Rxcount (with_line s l) (u16 (Rxcount s + Z.of_nat n)).

Lemma rec_data fuel pre junk bs crc e ck s rest :
  hears s (encs bs ++ ZDLE :: e :: encs ck ++ rest) -> Forall byte bs -> Forall byte ck -> ends e ->
  Z.of_nat (length ck) = size -> ck <> [] -> Z.of_nat (length pre + length bs) <= last ->
  (length bs <= length junk)%nat -> (length bs + 1 + length ck < fuel)%nat ->
  rec_loop add size bad text last fuel (pre ++ junk) (Z.of_nat (length pre)) crc None 0 s =
  Ret ((verdict e (foldl (fun c b => add b c) crc (bs ++ e :: ck)), pre ++ bs ++ drop (length bs) junk),
       told (foldl (fun c b => add b c) crc (bs ++ e :: ck))
         (with_Rxcount (with_line s rest) (if bs is [] then Rxcount s else u16 (Rxcount s + Z.of_nat (length bs))))).
Proof.
  intros H Hbs Hck He Hn Hne. revert fuel pre junk crc s H.
  induction Hbs as [|b bs Hb _ IH]; intros fuel pre junk crc s H Hi Hj Hf;
    (destruct fuel as [|fuel]; [cbn in Hf; lia|]); cbn [rec_loop length foldl app] in *;
    replace (Z.of_nat (length pre) <=? last) with true by lia; cbn [negb].
  - destruct (ends_got e He) as (H1 & H2 & H3 & _).
    rewrite (st_bind_run _ _ _ _ _ (zread_end e s _ H He)). apply (hears_line s _ (encs ck ++ rest)) in H.
    rewrite H1, H2, H3. cbn [negb].
    rewrite (rec_check _ _ _ _ _ _ ck _ rest) by (done || lia). by destruct s.
  - rewrite encs_cons, <- app_assoc in H. rewrite (st_bind_run _ _ _ _ _ (zread_enc b s _ H Hb)).
    apply (hears_line s _ (encs bs ++ ZDLE :: e :: encs ck ++ rest)) in H. rewrite is_byte_byte by done. cbn [negb].
    destruct junk as [|j junk]; [cbn in Hj; lia|]. cbn [length] in Hj.
    rewrite (upd_middle pre j junk _ (u8 b)) by done. rewrite wrap_id by done.
    rewrite lift_Ret_bind. unfold count_byte. rewrite st_modify_bind.
    replace (pre ++ b :: junk) with ((pre ++ [b]) ++ junk) by by rewrite <- app_assoc.
    replace (Z.of_nat (length pre) + 1) with (Z.of_nat (length (pre ++ [b]))) by (rewrite length_app; cbn; lia).
    rewrite IH; [|done|rewrite length_app; cbn [length]; lia|lia|lia].
    rewrite <- app_assoc. cbn [app drop]. f_equal. f_equal. cbn [foldl]. f_equal.
    destruct bs; cbn [length]; unfold with_Rxcount, with_line; cbn; f_equal.
    rewrite wrap_add_l. f_equal. lia.
Qed.
End rec.

(** The bytes of a check, as they are sent. *)
Definition ck16 (c : Z) : list Z := [Z.shiftr (check16 c) 8; Z.land (check16 c) 255].

Lemma ck16_bytes c : Forall byte (ck16 c).
Proof.
  pose proof (shiftr_range 16 8 (check16 c) ltac:(lia) (add16s_range _ _)) as H.
  repeat constructor; [apply H.. | apply byte_low | apply byte_low].
Qed.

Lemma fcs_bytes c : Forall byte (fcs c).
Proof. unfold fcs. cbn [fmap list_fmap]. repeat constructor; apply byte_low. Qed.

Lemma add16_fold l c : u16 (foldl (fun c b => add16 b c) c l) = foldl (fun c b => add16s b c) (u16 c) l.
Proof. revert c. induction l as [|b l IH]; intros c; [done|]. cbn [foldl]. by rewrite IH, add16_low. Qed.

Lemma low_u16 x : Z.land (u16 x) 255 = Z.land x 255 /\ Z.shiftr (u16 x) 8 = Z.land (Z.shiftr x 8) 255.
Proof.
  split; zbits i Hi; change 255 with (Z.ones 8); rewrite Z.testbit_ones by lia;
    (destruct (decide (i < 8)); [replace ((0 <=? i) && (i <? 8)) with true by lia | replace ((0 <=? i) && (i <? 8)) with false by lia]);
    rewrite ?andb_false_r, ?andb_true_r; try done.
  - by replace (i <? 16) with true by lia.
  - by replace (i + 8 <? 16) with true by lia.
  - by replace (i + 8 <? 16) with false by lia.
Qed.

Lemma send_crc16_run c s : send_crc16 c s = Ret (tt, to_send s (encs (ck16 (u16 c)))).
Proof.
  unfold send_crc16. rewrite (st_bind_run _ _ _ _ _ (zsend_zdle_run _ _)), zsend_zdle_run, to_send_app.
  f_equal. f_equal. f_equal. unfold ck16, check16. rewrite <- !add16_low.
  destruct (low_u16 (add16 0 (add16 0 c))) as [-> ->]. unfold encs. cbn. by rewrite app_nil_r.
Qed.

Lemma send_crc32_run c s : send_crc32 c s = Ret (tt, to_send s (encs (fcs c))).
Proof.
  unfold send_crc32, fcs. cbn [send_fcs fmap list_fmap].
  do 4 rewrite (st_bind_run _ _ _ _ _ (zsend_zdle_run _ _)).
  rewrite !to_send_app, !Z.shiftr_shiftr, Z.shiftr_0_r by lia. unfold encs. cbn [mbind list_bind].
  by rewrite app_nil_r.
Qed.

(** A data frame as sent, with either check. *)
Definition frame16 (bs : list Z) (e : Z) : list Z := encs bs ++ [ZDLE; e] ++ encs (ck16 (crc16 (bs ++ [e]))).
Definition frame32 (bs : list Z) (e : Z) : list Z := encs bs ++ [ZDLE; e] ++ encs (fcs (crc32 (bs ++ [e]))).
Definition trailer (e : Z) : list Z := if e =? ZCRCW then [XON] else [].

Lemma trailer_run e s : (if e =? ZCRCW then zsend_byte XON else mret tt) s = Ret (tt, to_send s (trailer e)).
Proof. unfold trailer. case_match; [done|]. unfold to_send. rewrite app_nil_r. by destruct s. Qed.

Lemma send_data16 s buf len e : TxCRC s = 0 -> 0 <= len <= Z.of_nat (length buf) ->
  Forall byte (take (Z.to_nat len) buf) -> ends e ->
  zsend_bin_data buf len e s = Ret (tt, to_send s (frame16 (take (Z.to_nat len) buf) e ++ trailer e)).
Proof.
  intros Ht Hlen Hb He. destruct (ends_got e He) as (_ & _ & _ & Hbe).
  unfold zsend_bin_data. rewrite st_get_bind, Ht. cbn [Z.eqb].
  rewrite (st_bind_run _ _ _ tt (to_send s (frame16 (take (Z.to_nat len) buf) e))); [by rewrite trailer_run, to_send_app|].
  rewrite (st_bind_run _ _ _ _ _ (send_bytes_run add16 _ _ _ _ Hb ltac:(lia))). unfold end_data16.
  rewrite (st_bind_run _ _ _ _ _ (zsend_byte_run ZDLE _ ltac:(done))).
  rewrite (st_bind_run _ _ _ _ _ (zsend_byte_run e _ Hbe)), send_crc16_run, !to_send_app.
  f_equal. f_equal. f_equal. unfold frame16. cbn [app]. do 5 f_equal.
  rewrite add16_low, add16_fold. unfold crc16. by rewrite foldl_snoc.
Qed.

Lemma send_data32 s buf len e : TxCRC s = 1 -> 0 <= len <= Z.of_nat (length buf) ->
  Forall byte (take (Z.to_nat len) buf) -> ends e ->
  zsend_bin_data buf len e s = Ret (tt, to_send s (frame32 (take (Z.to_nat len) buf) e ++ trailer e)).
Proof.
  intros Ht Hlen Hb He. destruct (ends_got e He) as (_ & _ & _ & Hbe).
  unfold zsend_bin_data. rewrite st_get_bind, Ht.
  rewrite (st_bind_run _ _ _ tt (to_send s (frame32 (take (Z.to_nat len) buf) e))); [by rewrite trailer_run, to_send_app|].
  change (1 =? 0) with false. change (1 =? 1) with true. cbn iota.
  rewrite (st_bind_run _ _ _ _ _ (send_bytes_run add32 _ _ _ _ Hb ltac:(lia))). unfold end_data32.
  rewrite (st_bind_run _ _ _ _ _ (zsend_byte_run ZDLE _ ltac:(done))).
  rewrite (st_bind_run _ _ _ _ _ (zsend_byte_run e _ Hbe)), send_crc32_run, !to_send_app.
  f_equal. f_equal. f_equal. unfold frame32. cbn [app]. do 5 f_equal.
  unfold crc32. by rewrite foldl_snoc.
Qed.

(** What [zget_data] leaves: [n] bytes counted, [l] still on the line. *)
Definition counted (s : zm) (n : nat) (l : list Z) : zm := with_Rxcount (with_line s l) (Z.of_nat n).

Lemma counted_received s (bs : list Z) l :
  Z.of_nat (length bs) < 2 ^ 16 ->
  with_Rxcount (with_line (with_Rxcount s 0) l)
    (match bs with [] => Rxcount (with_Rxcount s 0) | _ => u16 (Rxcount (with_Rxcount s 0) + Z.of_nat (length bs)) end) =
  counted s (length bs) l.
Proof.
  intros H. unfold counted. destruct bs; [done|]. change (Rxcount (with_Rxcount s 0)) with 0.
  by rewrite Z.add_0_l, wrap_id by lia.
Qed.

Lemma residue16_frame bs e : foldl (fun c b => add16s b c) 0 (bs ++ e :: ck16 (crc16 (bs ++ [e]))) = 0.
Proof.
  rewrite (cons_middle e bs), app_assoc, foldl_app. fold (crc16 (bs ++ [e])). apply residue16, crc16_range.
Qed.

Lemma residue32_frame bs e : foldl (fun c b => add32 b c) 0xffffffff (bs ++ e :: fcs (crc32 (bs ++ [e]))) = 0xDEBB20E3.
Proof.
  rewrite (cons_middle e bs), app_assoc, foldl_app. fold (crc32 (bs ++ [e])). apply residue32, crc32_range.
Qed.

Lemma get_data16 junk s bs e buf len rest : RxCRC s = 0 -> hears s (frame16 bs e ++ rest) ->
  Forall byte bs -> ends e -> Z.of_nat (length bs) <= len -> (length bs <= length buf)%nat -> Z.of_nat (length bs) < 2 ^ 16 ->
  zget_data junk buf len s = Ret ((Z.lor e GOTOR, bs ++ drop (length bs) buf), counted s (length bs) rest).
Proof.
  intros Hr [H0 Hl] Hbs He Hlen Hbuf Hn. unfold zget_data. rewrite st_get_bind, Hr. cbn [Z.eqb].
  unfold zrec_data16. rewrite st_modify_bind, st_get_bind.
  unfold frame16 in Hl. rewrite <- !app_assoc in Hl.
  rewrite (rec_data _ _ _ _ _ _ [] buf bs 0 e (ck16 (crc16 (bs ++ [e]))) _ rest); try done.
  - rewrite residue16_frame, <- counted_received by done. done.
  - apply ck16_bytes.
  - change (line (with_Rxcount s 0)) with (line s). rewrite Hl, !length_app. cbn [length app].
    pose proof (encs_length bs). pose proof (encs_length (ck16 (crc16 (bs ++ [e])))). cbn [length ck16] in *. lia.
Qed.

(** With the 32 bit check, the residue of an intact frame is [0xDEBB20E3], of which
    the test keeps every bit. *)
Lemma get_data32 junk s bs e buf len rest : RxCRC s = 1 -> hears s (frame32 bs e ++ rest) ->
  Forall byte bs -> ends e -> Z.of_nat (length bs) <= junk + len -> (length bs <= length buf)%nat -> Z.of_nat (length bs) < 2 ^ 16 ->
  zget_data junk buf len s = Ret ((- RT_ERROR, bs ++ drop (length bs) buf),
    with_says (counted s (length bs) rest) (says s ++ crc32_error)).
Proof.
  intros Hr [H0 Hl] Hbs He Hlen Hbuf Hn. unfold zget_data. rewrite st_get_bind, Hr.
  change (1 =? 0) with false. change (1 =? 1) with true. cbn iota.
  unfold zrec_data32. rewrite st_modify_bind, st_get_bind.
  unfold frame32 in Hl. rewrite <- !app_assoc in Hl.
  rewrite (rec_data _ _ _ _ _ _ [] buf bs 0xffffffff e (fcs (crc32 (bs ++ [e]))) _ rest); try done.
  - rewrite residue32_frame, <- counted_received by done. done.
  - apply fcs_bytes.
  - change (line (with_Rxcount s 0)) with (line s). rewrite Hl, !length_app. cbn [length app].
    pose proof (encs_length bs). pose proof (encs_length (fcs (crc32 (bs ++ [e])))).
    cbn [length fcs fmap list_fmap] in *. lia.
Qed.

(** Where the loop stops before the frame ends, for want of room, the answer is an
    error too. *)
Lemma rec_refused add size bad text last fuel pre junk bs crc e ck s rest :
  hears s (encs bs ++ ZDLE :: e :: encs ck ++ rest) -> Forall byte bs -> Forall byte ck -> ends e ->
  Z.of_nat (length ck) = size -> ck <> [] -> (length bs <= length junk)%nat -> (length bs + 1 + length ck < fuel)%nat ->
  bad (foldl (fun c b => add b c) crc (bs ++ e :: ck)) = true ->
  exists buf' s', rec_loop add size bad text last fuel (pre ++ junk) (Z.of_nat (length pre)) crc None 0 s =
    Ret ((- RT_ERROR, buf'), s').
Proof.
  intros H Hbs Hck He Hn Hne. revert fuel pre junk crc s H.
  induction Hbs as [|b bs Hb _ IH]; intros fuel pre junk crc s H Hj Hf Hbad;
    (destruct fuel as [|fuel]; [cbn in Hf; lia|]); cbn [rec_loop length foldl app] in *;
    destruct (Z.leb_spec (Z.of_nat (length pre)) last); cbn [negb]; [|by eauto| |by eauto].
  - destruct (ends_got e He) as (H1 & H2 & H3 & _).
    rewrite (st_bind_run _ _ _ _ _ (zread_end e s _ H He)). apply (hears_line s _ (encs ck ++ rest)) in H.
    rewrite H1, H2, H3. cbn [negb].
    rewrite (rec_check _ _ _ _ _ _ _ _ _ _ _ ck _ rest) by (done || lia). unfold verdict. rewrite Hbad. eauto.
  - rewrite encs_cons, <- app_assoc in H. rewrite (st_bind_run _ _ _ _ _ (zread_enc b s _ H Hb)).
    apply (hears_line s _ (encs bs ++ ZDLE :: e :: encs ck ++ rest)) in H. rewrite is_byte_byte by done. cbn [negb].
    destruct junk as [|j junk]; [cbn in Hj; lia|]. cbn [length] in Hj.
    rewrite (upd_middle pre j junk _ (u8 b)) by done. rewrite wrap_id by done.
    rewrite lift_Ret_bind. unfold count_byte. rewrite st_modify_bind.
    replace (pre ++ b :: junk) with ((pre ++ [b]) ++ junk) by by rewrite <- app_assoc.
    replace (Z.of_nat (length pre) + 1) with (Z.of_nat (length (pre ++ [b]))) by (rewrite length_app; cbn; lia).
    apply IH; [done|lia|lia|done].
Qed.

(** So an intact frame with the 32 bit check is refused wherever the uninitialised
    pointer [p] of [zrec_data32] lies. *)
Lemma data32_refused junk s bs e buf len rest : RxCRC s = 1 -> hears s (frame32 bs e ++ rest) ->
  Forall byte bs -> ends e -> (length bs <= length buf)%nat ->
  exists buf' s', zget_data junk buf len s = Ret ((- RT_ERROR, buf'), s').
Proof.
  intros Hr [H0 Hl] Hbs He Hbuf. unfold zget_data. rewrite st_get_bind, Hr.
  change (1 =? 0) with false. change (1 =? 1) with true. cbn iota.
  unfold zrec_data32. rewrite st_modify_bind, st_get_bind. unfold frame32 in Hl. rewrite <- !app_assoc in Hl.
  apply (rec_refused _ _ _ _ _ _ [] buf bs 0xffffffff e (fcs (crc32 (bs ++ [e]))) _ rest); try done.
  - apply fcs_bytes.
  - change (line (with_Rxcount s 0)) with (line s). rewrite Hl, !length_app. cbn [length app].
    pose proof (encs_length bs). pose proof (encs_length (fcs (crc32 (bs ++ [e])))).
    cbn [length fcs fmap list_fmap] in *. lia.
  - by rewrite residue32_frame.
Qed.

(** ** Headers *)

(** Reading [bs] through [read], which takes [E b] off the line for a byte [b]. *)
Section header.
Context (read : M Z) (no_byte : Z -> bool) (add : Z -> Z -> Z) (E : Z -> list Z).
Hypothesis read_E : forall b s rest, hears s (E b ++ rest) -> byte b -> read s = Ret (b, with_line s rest).
Hypothesis byte_ok : forall b, byte b -> no_byte b = false.

Lemma set_rx_run pre j junk b s : rx_header s = pre ++ j :: junk -> byte b ->
  set_rx (Z.of_nat (length pre)) b s = Ret (tt, with_rx_header s (pre ++ b :: junk)).
Proof.
  intros Hs Hb. unfold set_rx. rewrite st_get_bind, Hs, (upd_middle pre j junk _ (u8 b)) by done.
  by rewrite wrap_id.
Qed.

Lemma read_keep bs pre junk s crc rest : hears s ((bs ≫= E) ++ rest) -> Forall byte bs ->
  rx_header s = pre ++ junk -> (length bs <= length junk)%nat ->
  read_bytes read no_byte add true (length bs) (Z.of_nat (length pre)) crc s =
  Ret (inr (foldl (fun c b => add b c) crc bs), with_rx_header (with_line s rest) (pre ++ bs ++ drop (length bs) junk)).
Proof.
  intros H Hbs. revert pre junk s crc H.
  induction Hbs as [|b bs Hb _ IH]; intros pre junk s crc H Hs Hj.
  - destruct H as [_ H]. cbn in H. cbn [length read_bytes foldl].
    rewrite drop_0, app_nil_l, <- Hs, <- H. by destruct s.
  - cbn [length] in *. destruct junk as [|j junk]; [cbn in Hj; lia|]. cbn [length] in Hj.
    change ((b :: bs) ≫= E) with (E b ++ (bs ≫= E)) in H. rewrite <- app_assoc in H. cbn [read_bytes].
    rewrite (st_bind_run _ _ _ _ _ (read_E b s _ H Hb)), byte_ok by done. apply (hears_line s _ ((bs ≫= E) ++ rest)) in H.
    rewrite (st_bind_run _ _ _ _ _ (set_rx_run pre j junk b (with_line s ((bs ≫= E) ++ rest)) Hs Hb)).
    replace (Z.of_nat (length pre) + 1) with (Z.of_nat (length (pre ++ [b]))) by (rewrite length_app; cbn; lia).
    rewrite (IH (pre ++ [b]) junk); [|done|exact (app_assoc pre [b] junk)|lia].
    rewrite <- !app_assoc. done.
Qed.

Lemma read_check bs s i crc rest : hears s ((bs ≫= E) ++ rest) -> Forall byte bs ->
  read_bytes read no_byte add false (length bs) i crc s =
  Ret (inr (foldl (fun c b => add b c) crc bs), with_line s rest).
Proof.
  intros H Hbs. revert s i crc H. induction Hbs as [|b bs Hb _ IH]; intros s i crc H.
  - destruct H as [_ H]. cbn in H. cbn [length read_bytes foldl]. rewrite <- H. by destruct s.
  - change ((b :: bs) ≫= E) with (E b ++ (bs ≫= E)) in H. rewrite <- app_assoc in H. cbn [read_bytes length foldl].
    rewrite (st_bind_run _ _ _ _ _ (read_E b s _ H Hb)), byte_ok by done. apply (hears_line s _ ((bs ≫= E) ++ rest)) in H.
    rewrite (st_bind_run _ _ _ tt (with_line s ((bs ≫= E) ++ rest))) by done. by rewrite IH.
Qed.

Definition headed (s : zm) (type : Z) (hdr l : list Z) : zm := with_rx_header (with_header_type (with_line s l) type) hdr.

Lemma read_header_run size init bad text fin type hdr ck s rest :
  hears s (((type :: hdr ++ ck) ≫= E) ++ rest) -> byte type -> Forall byte hdr -> Forall byte ck ->
  length hdr = 4%nat -> length ck = size -> length (rx_header s) = 4%nat ->
  bad (foldl (fun c b => add b c) init (type :: hdr ++ ck)) = false ->
  read_header read no_byte add size init bad text fin s = fin (headed s type hdr rest).
Proof.
  intros H Ht Hh Hc Hlh Hlc Hrx Hbad. unfold read_header.
  change ((type :: hdr ++ ck) ≫= E) with (E type ++ ((hdr ++ ck) ≫= E)) in H.
  rewrite bind_app, <- !app_assoc in H.
  rewrite (st_bind_run _ _ _ _ _ (read_E type s _ H Ht)), byte_ok by done.
  apply (hears_line s _ ((hdr ≫= E) ++ (ck ≫= E) ++ rest)) in H. rewrite st_modify_bind.
  change (u8 type) with (wrap 8 type). rewrite wrap_id by done. set (s1 := with_header_type _ type).
  pose proof (read_keep hdr [] (rx_header s1) s1 (add type init) _ H Hh eq_refl ltac:(cbn; lia)) as H1.
  rewrite Hlh in H1. cbn [length Z.of_nat app] in H1. rewrite (st_bind_run _ _ _ _ _ H1). clear H1.
  rewrite (drop_ge (rx_header s1)), app_nil_r by (cbn; lia).
  set (s2 := with_rx_header _ hdr). assert (H2 : hears s2 ((ck ≫= E) ++ rest)) by (by destruct H).
  pose proof (read_check ck s2 0 (foldl (fun c b => add b c) (add type init) hdr) rest H2 Hc) as H3. rewrite Hlc in H3.
  rewrite (st_bind_run _ _ _ _ _ H3). cbn [foldl] in Hbad. rewrite foldl_app in Hbad. rewrite Hbad. done.
Qed.
End header.

(** Two hexadecimal digits. *)
Definition digit (n : Z) : Z := nth (Z.to_nat n) hex_digits 0.
Definition hex2 (b : Z) : list Z := [digit (Z.shiftr b 4); digit (Z.land b 15)].

Lemma digit_spec n : 0 <= n < 16 ->
  idx hex_digits n = Ret (digit n) /\ 20 < digit n < 128 /\ Z.land (digit n) 127 = digit n /\ hex_value (digit n) = Some n.
Proof.
  intros Hn. assert (Hin : n ∈ seqZ 0 16) by (apply elem_of_seqZ; lia).
  vm_compute in Hin. repeat (apply elem_of_cons in Hin as [->|Hin]; [by vm_compute|]). by apply elem_of_nil in Hin.
Qed.

Lemma nibbles b : byte b -> 0 <= Z.shiftr b 4 < 16 /\ 0 <= Z.land b 15 < 16 /\
  Z.land b 15 + Z.shiftl (Z.shiftr b 4) 4 = b /\ Z.shiftr (Z.land b 0xF0) 4 = Z.shiftr b 4.
Proof.
  intros Hb. pose proof (byte_cases (fun b => (0 <=? Z.shiftr b 4) && (Z.shiftr b 4 <? 16) && (0 <=? Z.land b 15) &&
    (Z.land b 15 <? 16) && (Z.land b 15 + Z.shiftl (Z.shiftr b 4) 4 =? b) &&
    (Z.shiftr (Z.land b 0xF0) 4 =? Z.shiftr b 4)) b eq_refl Hb) as H. cbn beta in H. lia.
Qed.

Lemma zsend_ascii_run c s : zsend_ascii c s = Ret (tt, to_send s (hex2 (Z.land c 255))).
Proof.
  unfold zsend_ascii.
  replace (Z.land c 0xF0) with (Z.land (Z.land c 255) 0xF0) by by rewrite <- Z.land_assoc.
  replace (Z.land c 0xF) with (Z.land (Z.land c 255) 15) by by rewrite <- Z.land_assoc.
  destruct (nibbles _ (byte_low c)) as (Hh & Hl & _ & ->). set (b := Z.land c 255) in *.
  destruct (digit_spec _ Hh) as (-> & Dh & _). destruct (digit_spec _ Hl) as (-> & Dl & _). unfold zsend_line.
  rewrite lift_Ret_bind, (st_bind_run (device_write _) _ _ tt _ eq_refl), lift_Ret_bind.
  rewrite !land255_byte by (unfold byte; lia).
  unfold device_write, hex2. change [digit (Z.shiftr b 4); digit (Z.land b 15)] with ([digit (Z.shiftr b 4)] ++ [digit (Z.land b 15)]).
  by rewrite <- to_send_app.
Qed.

Lemma zxor_run s c l : hears s (c :: l) -> byte c -> Z.land c 127 <> XON -> Z.land c 127 <> XOFF ->
  zxor_read s = Ret (Z.land c 127, with_line s l).
Proof.
  intros H Hb H1 H2. unfold zxor_read. rewrite st_get_bind. cbn [zxor_loop]. hear.
  replace (c <? 0) with false by (unfold byte in Hb; lia).
  by rewrite (proj2 (Z.eqb_neq _ _) H1), (proj2 (Z.eqb_neq _ _) H2).
Qed.

Lemma zget_hex_run b s rest : hears s (hex2 b ++ rest) -> byte b -> zget_hex s = Ret (b, with_line s rest).
Proof.
  intros H Hb. destruct (nibbles _ Hb) as (Hh & Hl & C & _).
  destruct (digit_spec _ Hh) as (_ & A1 & A2 & A3). destruct (digit_spec _ Hl) as (_ & B1 & B2 & B3).
  unfold hex2 in H. cbn [app] in H. unfold zget_hex.
  rewrite (st_bind_run _ _ _ _ _ (zxor_run s _ _ H ltac:(unfold byte; lia) ltac:(unfold XON; lia) ltac:(unfold XOFF; lia))), A2, A3.
  apply (hears_line s _ (digit (Z.land b 15) :: rest)) in H.
  replace (digit (Z.shiftr b 4) <? 0) with false by lia.
  rewrite (st_bind_run _ _ _ _ _ (zxor_run _ _ _ H ltac:(unfold byte; lia) ltac:(unfold XON; lia) ltac:(unfold XOFF; lia))), B2, B3.
  replace (digit (Z.land b 15) <? 0) with false by lia. by rewrite C.
Qed.

(** Headers as they are sent. *)
Definition checked16 (bs : list Z) : list Z := bs ++ ck16 (crc16 bs).
Definition checked32 (bs : list Z) : list Z := bs ++ fcs (crc32 bs).
Definition header16 (type : Z) (hdr : list Z) : list Z := [ZPAD; ZDLE; ZBIN] ++ encs (checked16 (type :: hdr)).
Definition header32 (type : Z) (hdr : list Z) : list Z := [ZPAD; ZDLE; ZBIN32] ++ encs (checked32 (type :: hdr)).
Definition hex_body (type : Z) (hdr : list Z) : list Z :=
  [ZDLE; ZHEX] ++ (checked16 (type :: hdr) ≫= hex2) ++ [13; 138].
Definition hex_header (type : Z) (hdr : list Z) : list Z := [ZPAD; ZPAD] ++ hex_body type hdr.
Definition hex_trailer (type : Z) : list Z := if (type =? ZFIN) || (type =? ZACK) then [] else [XON].

Lemma zsend_line_run c s : byte c -> zsend_line c s = Ret (tt, to_send s [c]).
Proof. intros. unfold zsend_line. by rewrite land255_byte. Qed.

Lemma hex_trailer_run type s :
  (if negb (type =? ZFIN) && negb (type =? ZACK) then zsend_line 17 else mret tt) s =
  Ret (tt, to_send s (hex_trailer type)).
Proof.
  unfold hex_trailer. rewrite <- negb_orb. destruct ((type =? ZFIN) || (type =? ZACK)); cbn [negb].
  - unfold to_send. rewrite app_nil_r. by destruct s.
  - by rewrite zsend_line_run.
Qed.

Lemma send_hex_header type hdr s : byte type -> Forall byte hdr -> length hdr = 4%nat ->
  zsend_hex_header type hdr s = Ret (tt, with_TxCRC (to_send s (hex_header type hdr ++ hex_trailer type)) 0).
Proof.
  intros Ht Hh Hl. unfold zsend_hex_header. pose proof (take_ge hdr 4 ltac:(lia)) as E4.
  do 2 rewrite (st_bind_run _ _ _ _ _ (zsend_line_run ZPAD _ ltac:(done))).
  rewrite (st_bind_run _ _ _ _ _ (zsend_line_run ZDLE _ ltac:(done))), (st_bind_run _ _ _ _ _ (zsend_line_run ZHEX _ ltac:(done))).
  rewrite (st_bind_run _ _ _ _ _ (zsend_ascii_run _ _)).
  assert (Hs : forall b s, byte b -> zsend_ascii b s = Ret (tt, to_send s (hex2 b)))
    by (intros b s' Hb; by rewrite zsend_ascii_run, land255_byte).
  rewrite (st_bind_run _ _ _ _ _ (send_bytes_by _ hex2 add16s 4 hdr _ _ Hs ltac:(by rewrite E4) ltac:(lia))), E4.
  rewrite (land255_byte type) by done.
  set (crc := foldl _ _ hdr). assert (Ec : crc = crc16 (type :: hdr)) by done. clearbody crc.
  rewrite (updcrc16_low 0 (updcrc16 0 crc)), updcrc16_low. rewrite (wrap_id 16 crc) by (rewrite Ec; apply crc16_range).
  rewrite <- check16_def. do 2 rewrite (st_bind_run _ _ _ _ _ (zsend_ascii_run _ _)).
  rewrite (st_bind_run _ _ _ _ _ (zsend_line_run 13 _ ltac:(done))), (st_bind_run _ _ _ _ _ (zsend_line_run 138 _ ltac:(done))).
  rewrite (st_bind_run _ _ _ _ _ (hex_trailer_run type _)).
  rewrite (land255_byte (Z.shiftr (check16 crc) 8)) by (apply (shiftr_range 16 8); [lia | apply add16s_range]).
  unfold hex_header, hex_body, checked16. rewrite <- Ec. unfold ck16. rewrite bind_app. cbn [mbind list_bind].
  rewrite !to_send_app, <- !app_assoc. cbn [app]. reflexivity.
Qed.

Lemma send_header16 type hdr s : Txfcs32 s = 0 -> byte type -> Forall byte hdr -> length hdr = 4%nat ->
  zsend_bin_header type hdr s = Ret (tt, with_TxCRC (to_send s (header16 type hdr)) 0).
Proof.
  intros Hf Ht Hh Hl. pose proof (take_ge hdr 4 ltac:(lia)) as E4. unfold zsend_bin_header.
  rewrite (st_bind_run _ _ _ _ _ (zsend_byte_run ZPAD _ ltac:(done))), (st_bind_run _ _ _ _ _ (zsend_byte_run ZDLE _ ltac:(done))).
  rewrite st_modify_bind, st_get_bind.
  change (Txfcs32 (to_send _ _)) with (Txfcs32 s). rewrite Hf.
  change (TxCRC (with_TxCRC _ 0) =? 0) with true. cbn iota.
  rewrite (st_bind_run _ _ _ _ _ (zsend_byte_run ZBIN _ ltac:(done))), (st_bind_run _ _ _ _ _ (zsend_zdle_run _ _)).
  rewrite (st_bind_run _ _ _ _ _ (send_bytes_run add16 4 hdr _ _ ltac:(by rewrite E4) ltac:(lia))), E4.
  rewrite send_crc16_run, add16_fold, add16_low, (land255_byte type) by done.
  rewrite !to_send_TxCRC, !to_send_app. unfold header16, checked16, crc16.
  rewrite encs_app, encs_cons, <- !app_assoc. cbn [foldl app]. change (u16 0) with 0. reflexivity.
Qed.

Lemma send_header32 type hdr s : Txfcs32 s = 1 -> byte type -> Forall byte hdr -> length hdr = 4%nat ->
  zsend_bin_header type hdr s = Ret (tt, with_TxCRC (to_send s (header32 type hdr)) 1).
Proof.
  intros Hf Ht Hh Hl. pose proof (take_ge hdr 4 ltac:(lia)) as E4. unfold zsend_bin_header.
  rewrite (st_bind_run _ _ _ _ _ (zsend_byte_run ZPAD _ ltac:(done))), (st_bind_run _ _ _ _ _ (zsend_byte_run ZDLE _ ltac:(done))).
  rewrite st_modify_bind, st_get_bind.
  change (Txfcs32 (to_send _ _)) with (Txfcs32 s). rewrite Hf.
  change (TxCRC (with_TxCRC _ 1) =? 0) with false. change (TxCRC (with_TxCRC _ 1) =? 1) with true. cbn iota.
  unfold bin_header32.
  rewrite (st_bind_run _ _ _ _ _ (zsend_byte_run ZBIN32 _ ltac:(done))), (st_bind_run _ _ _ _ _ (zsend_zdle_run _ _)).
  rewrite (st_bind_run _ _ _ _ _ (send_bytes_run add32 4 hdr _ _ ltac:(by rewrite E4) ltac:(lia))), E4.
  rewrite send_crc32_run, (land255_byte type) by done.
  rewrite !to_send_TxCRC, !to_send_app. unfold header32, checked32, crc32.
  rewrite encs_app, encs_cons, <- !app_assoc. cbn [foldl app]. reflexivity.
Qed.

(** ** Finding a header *)

(** Bytes that may come before a header. *)
Definition noise (c : Z) : Prop := byte c /\ c <> CAN /\ c <> ZPAD /\ c <> ZCRCW.

Lemma zget_loop_turn fuel p l s j s' :
  turn p l s = Ret (j, s') ->
  zget_loop (S fuel) p l s = match j with Go p l => zget_loop fuel p l s' | End c => Ret (c, s') end.
Proof. intros H. cbn [zget_loop]. rewrite (st_bind_run _ _ _ _ _ H). by destruct j. Qed.

Lemma hunt_noise c l : noise c -> prev_char l <> CAN -> prev_char l <> ZCRCW -> 1 < bit l < 2 ^ 32 -> step_out l = false ->
  exists b g, hunt c l = Go Hunt (mkLocals c b g false) /\ bit l - 1 <= b < 2 ^ 32.
Proof.
  intros (Hb & H1 & H2 & H3) P1 P2 Hbit Hso. unfold byte in Hb. unfold hunt, start_again, hunted, TIMEOUT, RCDO.
  rewrite (proj2 (Z.eqb_neq _ _) P1), (proj2 (Z.eqb_neq _ _) P2), (proj2 (Z.eqb_neq _ _) H1),
    (proj2 (Z.eqb_neq _ _) H2), (proj2 (Z.eqb_neq _ _) H3).
  replace (c =? -3) with false by lia. replace (c =? -2) with false by lia. rewrite (wrap_id 32 (bit l - 1)) by lia.
  replace (bit l - 1 =? 0) with false by lia. cbn [step_out bit]. rewrite Hso.
  destruct ((c =? 17) || (c =? 145)); eexists _, _; (split; [done | lia]).
Qed.

Lemma hunt_run ns fuel l s rest : Forall noise ns -> hears s (ns ++ ZPAD :: rest) ->
  prev_char l <> CAN -> prev_char l <> ZCRCW -> step_out l = false ->
  Z.of_nat (length ns) + 1 < bit l < 2 ^ 32 ->
  exists b, zget_loop (length ns + S fuel) Hunt l s = zget_loop fuel Pad (mkLocals ZPAD b 0 false) (with_line s rest).
Proof.
  intros Hns. revert l s. induction Hns as [|c ns Hc _ IH]; intros l s H P1 P2 Hso Hbit; cbn [length Nat.add app] in *.
  - rewrite (zget_loop_turn _ _ _ _ (hunt ZPAD l) (with_line s rest)).
    + unfold hunt. rewrite (proj2 (Z.eqb_neq _ _) P1), (proj2 (Z.eqb_neq _ _) P2). by eexists.
    + cbn [turn]. by hear.
  - destruct (hunt_noise c l Hc P1 P2 ltac:(lia) Hso) as (b & g & E & Hb).
    rewrite (zget_loop_turn _ _ _ _ (Go Hunt (mkLocals c b g false)) (with_line s (ns ++ ZPAD :: rest))).
    + destruct (IH (mkLocals c b g false) (with_line s (ns ++ ZPAD :: rest))) as [b' E'];
        [by apply (hears_line s _ (ns ++ ZPAD :: rest)) in H | apply Hc | apply Hc | done | cbn [bit]; lia|].
      exists b'. exact E'.
    + cbn [turn]. destruct Hc. hear. by rewrite E.
Qed.

Lemma pads_run n fuel l s rest : hears s (replicate n ZPAD ++ ZDLE :: rest) ->
  zget_loop (n + S fuel) Pad l s =
  zget_loop fuel Format (mkLocals (prev_char l) (bit l) (get_can l) true) (with_line s rest).
Proof.
  revert s. induction n as [|n IH]; intros s H; cbn [replicate app Nat.add] in *.
  - rewrite (zget_loop_turn _ _ _ _ (Go Format (mkLocals (prev_char l) (bit l) (get_can l) true)) (with_line s rest)); [done|].
    cbn [turn]. by rewrite (st_bind_run _ _ _ _ _ (zxor_run s _ _ H ltac:(done) ltac:(done) ltac:(done))).
  - rewrite (zget_loop_turn _ _ _ _ (Go Pad l) (with_line s (replicate n ZPAD ++ ZDLE :: rest))).
    + rewrite IH by (by apply (hears_line s _ (replicate n ZPAD ++ ZDLE :: rest)) in H). done.
    + cbn [turn]. by rewrite (st_bind_run _ _ _ _ _ (zxor_run s _ _ H ltac:(done) ltac:(done) ltac:(done))).
Qed.

(** The state in which the body of a header of format [f] is read. *)
Definition at_body (s : zm) (f : Z) (body : list Z) : zm :=
  with_Rxframeind (with_line (with_header_type (with_Rxframeind s 0) 0) body) f.

Lemma get_header_run junk s ns n f body c s' :
  hears s (ns ++ replicate (S n) ZPAD ++ ZDLE :: f :: body) -> Forall noise ns -> Z.of_nat (length ns) < BITRATE - 1 ->
  byte f -> Z.land f 127 = f -> f <> XON -> f <> XOFF ->
  (forall l, format f l (at_body s f body) = Ret (End c, s')) ->
  zget_header junk s = Ret (c, s').
Proof.
  intros [H0 H] Hns Hn Hf H7 H1 H2 Hbody. unfold zget_header, get_device_baud.
  rewrite st_ret_bind, st_modify_bind, st_get_bind.
  set (s1 := with_header_type _ 0). change (line s1) with (line s). rewrite H.
  assert (Hs1 : hears s1 (ns ++ ZPAD :: (replicate n ZPAD ++ ZDLE :: f :: body))) by done.
  replace (S (length (ns ++ replicate (S n) ZPAD ++ ZDLE :: f :: body)))
    with (length ns + S (n + S (S (S (length body)))))%nat
    by (rewrite !length_app, length_replicate; cbn [length]; lia).
  destruct (hunt_run ns (n + S (S (S (length body)))) (mkLocals 255 BITRATE junk false) s1 _ Hns Hs1) as [b ->];
    [done..|cbn [bit]; unfold BITRATE in *; lia|].
  rewrite (pads_run n _ _ _ (f :: body)) by done.
  rewrite (zget_loop_turn _ _ _ _ (End c) s'); [done|]. cbn [turn].
  set (s2 := with_line _ (f :: body)). assert (Hs2 : hears s2 (f :: body)) by done.
  rewrite (st_bind_run _ _ _ _ _ (zxor_run s2 _ _ Hs2 Hf ltac:(by rewrite H7) ltac:(by rewrite H7))), H7.
  rewrite st_modify_bind, (wrap_id 8 f) by done. apply Hbody.
Qed.

(** The state after a header. *)
Definition got_header (s : zm) (f crc type : Z) (hdr rest : list Z) : zm :=
  with_RxCRC (with_rx_header (at_body s f rest) hdr) crc.
Definition gotten (s : zm) (f crc type : Z) (hdr rest : list Z) : zm :=
  with_header_type (got_header s f crc type hdr rest) type.

Lemma checked16_bytes bs : Forall byte bs -> Forall byte (checked16 bs).
Proof. intros. by apply Forall_app_2, ck16_bytes. Qed.

Lemma checked16_crc type hdr : Z.land (foldl (fun c b => add16s b c) 0 (type :: hdr ++ ck16 (crc16 (type :: hdr)))) 0xFFFF = 0.
Proof.
  rewrite (app_comm_cons hdr), foldl_app. fold (crc16 (type :: hdr)). unfold ck16. cbn [foldl].
  by rewrite residue16 by apply crc16_range.
Qed.

Lemma checked32_crc type hdr :
  foldl (fun c b => add32 b c) 0xFFFFFFFF (type :: hdr ++ fcs (crc32 (type :: hdr))) = 0xDEBB20E3.
Proof. rewrite (app_comm_cons hdr), foldl_app. apply residue32, crc32_range. Qed.

Lemma hears_state s s' l : Line_left s' = Line_left s -> line s' = line s -> hears s l -> hears s' l.
Proof. unfold hears. by intros -> ->. Qed.

Section get.
Context (junk : Z) (s : zm) (ns : list Z) (type : Z) (hdr rest : list Z).
Hypothesis Hns : Forall noise ns.
Hypothesis Hn : Z.of_nat (length ns) < BITRATE - 1.
Hypothesis Ht : byte type.
Hypothesis Hh : Forall byte hdr.
Hypothesis Hl : length hdr = 4%nat.
Hypothesis Hrx : length (rx_header s) = 4%nat.

(** A header after noise is found and read, in each format. *)
Lemma get_header16 : hears s (ns ++ header16 type hdr ++ rest) ->
  zget_header junk s = Ret (type, gotten s ZBIN 0 type hdr rest).
Proof.
  intros H. apply (get_header_run junk s ns 0 ZBIN (encs (checked16 (type :: hdr)) ++ rest)); try done.
  intros l. unfold format. change (ZBIN =? ZBIN32) with false. change (ZBIN =? ZBINR32) with false.
  change (ZBIN =? ZBIN) with true. cbn iota. unfold set_RxCRC. rewrite st_modify_bind.
  set (s2 := with_RxCRC _ 0). unfold zget_bin_header.
  assert (H2 : hears s2 (encs (checked16 (type :: hdr)) ++ rest)) by (by destruct H).
  rewrite (st_bind_run _ _ _ type (gotten s ZBIN 0 type hdr rest)); [done|].
  by rewrite (read_header_run zread_byte _ add16s enc (fun b s rest H Hb => zread_enc b s rest H Hb)
    (fun b Hb => f_equal negb (is_byte_byte b Hb)) 2 0 _ _ its_type type hdr (ck16 (crc16 (type :: hdr))) s2 rest
    H2 Ht Hh (ck16_bytes _) Hl eq_refl Hrx) by (by rewrite checked16_crc).
Qed.

Lemma get_header32 : hears s (ns ++ header32 type hdr ++ rest) ->
  zget_header junk s = Ret (type, gotten s ZBIN32 1 type hdr rest).
Proof.
  intros H. apply (get_header_run junk s ns 0 ZBIN32 (encs (checked32 (type :: hdr)) ++ rest)); try done.
  intros l. unfold format. change (ZBIN32 =? ZBIN32) with true. cbn iota. unfold set_RxCRC. rewrite st_modify_bind.
  set (s2 := with_RxCRC _ 1). unfold zget_bin_fcs.
  assert (H2 : hears s2 (encs (checked32 (type :: hdr)) ++ rest)) by (by destruct H).
  rewrite (st_bind_run _ _ _ type (gotten s ZBIN32 1 type hdr rest)); [done|].
  by rewrite (read_header_run zread_byte _ add32 enc (fun b s rest H Hb => zread_enc b s rest H Hb)
    (fun b Hb => f_equal negb (is_byte_byte b Hb)) 4 _ _ _ its_type type hdr (fcs (crc32 (type :: hdr))) s2 rest
    H2 Ht Hh (fcs_bytes _) Hl eq_refl Hrx) by (by rewrite checked32_crc).
Qed.

Lemma get_hex_header n : hears s (ns ++ replicate (S n) ZPAD ++ hex_body type hdr ++ rest) ->
  zget_header junk s = Ret (type, gotten s ZHEX 0 type hdr rest).
Proof.
  intros H. unfold hex_body in H. rewrite <- !app_assoc in H.
  apply (get_header_run junk s ns n ZHEX ((checked16 (type :: hdr) ≫= hex2) ++ [13; 138] ++ rest)); try done.
  intros l. unfold format. change (ZHEX =? ZBIN32) with false. change (ZHEX =? ZBINR32) with false.
  change (ZHEX =? ZBIN) with false. change (ZHEX =? ZHEX) with true. cbn iota.
  unfold set_RxCRC. rewrite st_modify_bind.
  set (s2 := with_RxCRC _ 0). unfold zget_hex_header.
  assert (H2 : hears s2 ((checked16 (type :: hdr) ≫= hex2) ++ [13; 138] ++ rest)) by (by destruct H).
  rewrite (st_bind_run _ _ _ type (gotten s ZHEX 0 type hdr rest)); [done|].
  rewrite (read_header_run zget_hex _ add16s hex2 zget_hex_run
    (fun b (Hb : byte b) => proj2 (Z.ltb_ge b 0) (proj1 Hb)) 2 0 _ _ _ type hdr (ck16 (crc16 (type :: hdr))) s2
    ([13; 138] ++ rest) H2 Ht Hh (ck16_bytes _) Hl eq_refl Hrx) by (by rewrite checked16_crc).
  set (s3 := headed _ _ _ _). assert (H3 : hears s3 ([13; 138] ++ rest)) by (by destruct H). cbn [app] in H3.
  hear. change (13 <? 0) with false. cbn iota. by hear.
Qed.
End get.
