(* ===== verification/ZTransfer.v ===== *)
(** * File transfer over the console: the sessions

    RTT/components/utilities/zmodem: rz.c (receiving files), sz.c (sending them)
    and zstart.c (the shell's commands), over the frames of [Zmodem] and the file
    calls of dfs_posix.c, which they see through [FileApi].

    Every turn of the loops that wait for a frame takes at least one byte off the
    line, so the line's length is enough fuel for them; the loop that sends a file's
    blocks has a bound of its own. *)

From S2P Require Import Prelude Dfs DfsPosix Zmodem.

(** ** Files *)

(** The calls of dfs_posix.c that the sessions make, and the heap. *)
Class FileApi (F : Type) := {
  api_open : list Z -> Z -> ST F Z;
  api_close : Z -> ST F Z;
  api_read : Z -> list Z -> Z -> ST F (Z * list Z);
  api_write : Z -> list Z -> Z -> ST F Z;
  api_lseek : Z -> Z -> Z -> ST F Z;
  api_fstat : Z -> stat_buf -> ST F (Z * stat_buf);
  api_unlink : list Z -> ST F Z;
  api_malloc : ST F bool;
  api_free : ST F unit }.

#[export] Instance dfs_files {D V} (driver : nat -> dfs_filesystem_operation D V) (mem : Z) : FileApi (dfs D V) := {|
  api_open := DfsPosix.open driver mem;
  api_close := DfsPosix.close driver;
  api_read := DfsPosix.read driver;
  api_write := DfsPosix.write driver;
  api_lseek := DfsPosix.lseek driver;
  api_fstat := DfsPosix.fstat;
  api_unlink := DfsPosix.unlink driver mem;
  api_malloc := Dfs.rt_malloc mem;
  api_free := Dfs.rt_free |}.

(** ** State *)

Record zfile := mkZfile {
  fname : option (list Z); zfd : Z; zctime : Z; zmode : Z;
  bytes_total : Z; bytes_sent : Z; bytes_received : Z; file_end : Z }.

Definition no_zfile : zfile := mkZfile None 0 0 0 0 0 0 0.

Record session (F : Type) := mkSession {
  zmod : zm;
  files : F;
  zf : zfile;
  rxbuf : list Z;                     (**r the receiver's buffer *)
  TX_BUFFER : list Z;                 (**r the sender's *)
  file_cnt : Z; Rxflags : Z; ZF2_OP : Z; Left_sizes : Z;
  device : option (Z * Z) }.          (**r flags and [rx_indicate] of the console *)
Arguments mkSession {F}.
Arguments zmod {F}. Arguments files {F}. Arguments zf {F}. Arguments rxbuf {F}. Arguments TX_BUFFER {F}.
Arguments file_cnt {F}. Arguments Rxflags {F}. Arguments ZF2_OP {F}. Arguments Left_sizes {F}. Arguments device {F}.

Section transfer.
Context {F : Type} {api : FileApi F}.
Implicit Types s : session F.

Definition with_zmod s x := mkSession x (files s) (zf s) (rxbuf s) (TX_BUFFER s) (file_cnt s) (Rxflags s) (ZF2_OP s) (Left_sizes s) (device s).
Definition with_files s (x : F) := mkSession (zmod s) x (zf s) (rxbuf s) (TX_BUFFER s) (file_cnt s) (Rxflags s) (ZF2_OP s) (Left_sizes s) (device s).
Definition with_zf s x := mkSession (zmod s) (files s) x (rxbuf s) (TX_BUFFER s) (file_cnt s) (Rxflags s) (ZF2_OP s) (Left_sizes s) (device s).
Definition with_rxbuf s x := mkSession (zmod s) (files s) (zf s) x (TX_BUFFER s) (file_cnt s) (Rxflags s) (ZF2_OP s) (Left_sizes s) (device s).
Definition with_TX_BUFFER s x := mkSession (zmod s) (files s) (zf s) (rxbuf s) x (file_cnt s) (Rxflags s) (ZF2_OP s) (Left_sizes s) (device s).
Definition with_file_cnt s x := mkSession (zmod s) (files s) (zf s) (rxbuf s) (TX_BUFFER s) x (Rxflags s) (ZF2_OP s) (Left_sizes s) (device s).
Definition with_Rxflags s x := mkSession (zmod s) (files s) (zf s) (rxbuf s) (TX_BUFFER s) (file_cnt s) x (ZF2_OP s) (Left_sizes s) (device s).
Definition with_ZF2_OP s x := mkSession (zmod s) (files s) (zf s) (rxbuf s) (TX_BUFFER s) (file_cnt s) (Rxflags s) x (Left_sizes s) (device s).
Definition with_Left_sizes s x := mkSession (zmod s) (files s) (zf s) (rxbuf s) (TX_BUFFER s) (file_cnt s) (Rxflags s) (ZF2_OP s) x (device s).
Definition with_device s x := mkSession (zmod s) (files s) (zf s) (rxbuf s) (TX_BUFFER s) (file_cnt s) (Rxflags s) (ZF2_OP s) (Left_sizes s) x.

Definition with_fname z x := mkZfile x (zfd z) (zctime z) (zmode z) (bytes_total z) (bytes_sent z) (bytes_received z) (file_end z).
Definition with_zfd z x := mkZfile (fname z) x (zctime z) (zmode z) (bytes_total z) (bytes_sent z) (bytes_received z) (file_end z).
Definition with_received z x := mkZfile (fname z) (zfd z) (zctime z) (zmode z) (bytes_total z) (bytes_sent z) x (file_end z).
Definition with_info z total ctime mode := mkZfile (fname z) (zfd z) ctime mode total (bytes_sent z) (bytes_received z) (file_end z).
Definition with_end z x := mkZfile (fname z) (zfd z) (zctime z) (zmode z) (bytes_total z) (bytes_sent z) (bytes_received z) x.

Abbreviation S_ := (ST (session F)).

(** A step on the frames' globals, on the files, on the file's record. *)
Definition zm_ {A} (m : ST zm A) : S_ A := fun s =>
  match m (zmod s) with Ret (a, z) => Ret (a, with_zmod s z) | Err f => Err f end.
Definition file_ {A} (m : ST F A) : S_ A := fun s =>
  match m (files s) with Ret (a, f) => Ret (a, with_files s f) | Err f => Err f end.
Definition zf_ (g : zfile -> zfile) : S_ unit := modify (fun s => with_zf s (g (zf s))).

Definition printf (t : list Z) : S_ unit := zm_ (Zmodem.rt_kprintf t).
Definition tx_hex (type : Z) : S_ unit := zm_ (z ← get; zsend_hex_header type (tx_header z)).
Definition tx_bin (type : Z) : S_ unit := zm_ (z ← get; zsend_bin_header type (tx_header z)).

(** Uninitialised locals of the callees. *)
Context (junk : zm -> Z).

Definition get_header : S_ Z := zm_ (z ← get; zget_header (junk z)).
Definition get_data (buf : list Z) (len : Z) : S_ (Z * list Z) := zm_ (z ← get; zget_data (junk z) buf len).
Definition turns : S_ nat := s ← get; mret (S (length (line (zmod s)))).

(** The name of the file, where there is one. *)
Definition name_of : S_ (list Z) :=
  s ← get; match fname (zf s) with Some n => mret n | None => lift (Err NullDeref) end.

(** [for (;;) { q = strstr(p,"/"); if (q == RT_NULL) break; p = q+1; }] *)
Fixpoint base_from (p l : list Z) : list Z :=
  match l with [] => p | c :: l => if c =? 47 then base_from l l else base_from p l end.
Definition base_name (p : list Z) : list Z := base_from p p.

(** The digits of a number below [b]^[fuel], in front of [acc]: [%u] and [%o]. *)
Fixpoint digits_of (b : Z) (fuel : nat) (n : Z) (acc : list Z) : list Z :=
  match fuel with
  | O => acc
  | S fuel => let acc := (48 + n mod b) :: acc in if n / b =? 0 then acc else digits_of b fuel (n / b) acc
  end.
Definition unsigned (n : Z) : list Z := digits_of 10 10 (u32 n) [].
Definition octal (n : Z) : list Z := digits_of 8 11 (u32 n) [].
Definition decimal (n : Z) : list Z := let n := s32 n in if n <? 0 then 45 :: unsigned (- n) else unsigned n.

(** ** rz.c *)

Definition zwrite_file (buf : list Z) (size : Z) : S_ Z := s ← get; file_ (api_write (zfd (zf s)) buf size).

(** The bytes of a good frame: written, and counted whatever the write returned. *)
Definition take_data : S_ unit :=
  s ← get;
  _ ← zwrite_file (rxbuf s) (Rxcount (zmod s));
  zf_ (fun z => with_received z (u32 (bytes_received z + Rxcount (zmod s)))).

Definition put_received : S_ unit := s ← get; zm_ (zput_pos (bytes_received (zf s))).

Definition Attn_break : S_ unit := s ← get; zm_ (zsend_break (Attn (zmod s))).

Definition get_rxbuf : S_ Z :=
  s ← get;
  '(res, buf) ← get_data (rxbuf s) RX_BUFFER_SIZE;
  _ ← modify (fun s => with_rxbuf s buf);
  mret res.

Fixpoint file_data_loop (fuel : nat) : S_ Z :=
  match fuel with
  | O => lift (Err OutOfFuel)
  | S fuel =>
      res ← get_rxbuf;
      if res =? GOTCRCW then
        _ ← take_data; _ ← put_received; _ ← zm_ (zsend_line XON); _ ← tx_hex ZACK; mret 0
      else if res =? GOTCRCQ then
        _ ← take_data; _ ← put_received; _ ← tx_hex ZACK; file_data_loop fuel
      else if res =? GOTCRCG then _ ← take_data; file_data_loop fuel
      else if res =? GOTCRCE then _ ← take_data; mret 0
      else if res =? GOTCAN then _ ← printf (str "error code : ZCAN " ++ [13; 10]); mret res
      else if res =? TIMEOUT then mret res
      else if res =? - RT_ERROR then _ ← Attn_break; mret res
      else mret res
  end.

Definition zrec_file_data : S_ Z := n ← turns; file_data_loop n.

(** Three requests to finish; [n] are left. *)
Fixpoint bibi_loop (n : nat) : S_ unit :=
  match n with
  | O => mret tt
  | S n =>
      _ ← tx_hex ZFIN;
      c ← zm_ (zread_line 100);
      if c =? 79 then _ ← zm_ (zread_line 1); mret tt
      else if c =? RCDO then mret tt
      else bibi_loop n
  end.
Definition zrec_ack_bibi : S_ unit := _ ← zm_ (zput_pos 0); bibi_loop 3.

(** [sscanf] of a number in base [b]: blanks, a sign, digits; [None] where there is
    no digit.  A number beyond 32 bits wraps. *)
Definition blank (c : Z) : bool := (c =? 32) || ((9 <=? c) && (c <=? 13)).
Fixpoint skip_blanks (t : list Z) : list Z :=
  match t with c :: t' => if blank c then skip_blanks t' else t | [] => [] end.
Fixpoint scan_digits (b : Z) (t : list Z) (acc : option Z) : option Z * list Z :=
  match t with
  | c :: t' =>
      if (48 <=? c) && (c <? 48 + b) then scan_digits b t' (Some (default 0 acc * b + (c - 48))) else (acc, t)
  | [] => (acc, [])
  end.
Definition scan_number (b : Z) (t : list Z) : option (Z * list Z) :=
  let t := skip_blanks t in
  let '(neg, t) := match t with c :: t' => if c =? 45 then (true, t') else if c =? 43 then (false, t') else (false, t) | [] => (false, []) end in
  match scan_digits b t None with
  | (Some v, t) => Some (u32 (if neg : bool then - v else v), t)
  | (None, _) => None
  end.

(** [sscanf(p, "%ld%lo%o", &zf->bytes_total, &zf->ctime, &zf->mode)] *)
Definition scan_info (t : list Z) (z : zfile) : zfile :=
  match scan_number 10 t with
  | None => z
  | Some (total, t) =>
      match scan_number 8 t with
      | None => with_info z total (zctime z) (zmode z)
      | Some (ctime, t) =>
          match scan_number 8 t with
          | None => with_info z total ctime (zmode z)
          | Some (mode, _) => with_info z total ctime mode
          end
      end
  end.

(** The name and attributes of the next file, at the start of the buffer.  The
    directory is [zf->fname]; the path that replaces it is allocated. *)
Definition zget_file_info : S_ Z :=
  s ← get;
  name ← lift (cstr (rxbuf s));
  let dir := default [] (fname (zf s)) in
  ok ← file_ api_malloc;
  if negb ok then
    _ ← zm_ zsend_can; _ ← printf ([8; 8; 8] ++ str "full_path: out of memory" ++ [10]); mret (- RT_ERROR)
  else
    let full_path := dir ++ [47] in
    fd ← file_ (api_open full_path O_DIRECTORY);
    _ ← zf_ (fun z => with_zfd z fd);
    if fd <? 0 then
      _ ← zm_ zsend_can;
      n ← name_of;
      _ ← printf ([8; 8; 8] ++ str "can not open file:" ++ drop 1 n ++ [13; 10]);
      _ ← file_ (api_close fd);
      _ ← zf_ (fun z => with_zfd z (-1));
      _ ← file_ api_free;
      mret (- RT_ERROR)
    else
      '(_, finfo) ← file_ (api_fstat fd (mkStat 0 0 0 0 0));
      if negb (Z.land (st_mode finfo) S_IFDIR =? S_IFDIR) then
        _ ← file_ (api_close fd);
        _ ← zf_ (fun z => with_zfd z (-1));
        mret (- RT_ERROR)
      else
        _ ← file_ (api_close fd);
        let full_path := full_path ++ name in
        _ ← zf_ (fun z => with_fname z (Some full_path));
        info ← lift (cstr (drop (length name + 1) (rxbuf s)));
        _ ← zf_ (fun z => with_received (scan_info info z) 0);
        fd ← file_ (api_open full_path (Z.lor O_CREAT O_WRONLY));
        _ ← zf_ (fun z => with_zfd z fd);
        if fd <? 0 then
          _ ← zm_ zsend_can;
          _ ← printf ([8; 8; 8] ++ str "can not create file:" ++ full_path ++ [32; 13; 10]);
          mret (- RT_ERROR)
        else mret 0.

(** The flags that [ZRINIT] announces. *)
Definition put_flags : M unit :=
  _ ← zput_pos 0;
  z ← get;
  _ ← set_tx ZF0 (ZF0_CMD z); _ ← set_tx ZF1 (ZF1_CMD z); set_tx ZF2 (ZF2_CMD z).

(** The options of a file take the place of the receiver's own. *)
Definition keep_options : M unit :=
  z ← get;
  a ← lift (idx (rx_header z) ZF0); b ← lift (idx (rx_header z) ZF1);
  c ← lift (idx (rx_header z) ZF2); d ← lift (idx (rx_header z) ZF3);
  put (with_ZF3_CMD (with_ZF2_CMD (with_ZF1_CMD (with_ZF0_CMD z a) b) c) d).

(** [announce] is the top of the loop, its absence the label [again]. *)
Fixpoint zrec_init_loop (fuel : nat) (announce : bool) (err_cnt : Z) : S_ Z :=
  match fuel with
  | O => lift (Err OutOfFuel)
  | S fuel =>
      _ ← (if announce then _ ← zm_ put_flags; tx_hex ZRINIT else mret tt);
      res ← get_header;
      if res =? ZFILE then
        _ ← zm_ keep_options;
        res ← get_rxbuf;
        if res =? GOTCRCW then
          res ← zget_file_info;
          if negb (res =? 0) then _ ← tx_hex ZSKIP; mret res else mret 0
        else _ ← tx_hex ZNAK; zrec_init_loop fuel false err_cnt
      else if res =? ZSINIT then
        s ← get;
        '(res, buf) ← get_data (Attn (zmod s)) ZATTNLEN;
        _ ← zm_ (modify (fun z => with_Attn z buf));
        _ ← tx_hex (if res =? GOTCRCW then ZACK else ZNAK);
        zrec_init_loop fuel false err_cnt
      else if (res =? ZRQINIT) || (res =? ZEOF) then zrec_init_loop fuel true err_cnt
      else if res =? ZCOMPL then zrec_init_loop fuel false err_cnt
      else if res =? ZFIN then _ ← zrec_ack_bibi; mret res
      else
        let err_cnt := u8 (err_cnt + 1) in
        if 1000 <? err_cnt then mret (- RT_ERROR) else zrec_init_loop fuel true err_cnt
  end.

Definition zrec_init : S_ Z := n ← turns; zrec_init_loop n true 0.

(** [pos] is the top of the loop, its absence the label [again]. *)
Fixpoint zrec_file_loop (fuel : nat) (pos : bool) (err_cnt : Z) : S_ Z :=
  match fuel with
  | O => lift (Err OutOfFuel)
  | S fuel =>
      _ ← (if pos then _ ← put_received; tx_hex ZRPOS else mret tt);
      res ← get_header;
      (* [continue] goes to the loop's condition *)
      let continue res err_cnt :=
        if u16 (err_cnt + 1) <? 100 then zrec_file_loop fuel true (u16 (err_cnt + 1)) else mret res in
      if res =? ZDATA then
        _ ← zm_ (zget_pos 0);
        s ← get;
        if negb (Rxpos (zmod s) =? bytes_received (zf s)) then _ ← Attn_break; continue res err_cnt
        else
          res ← zrec_file_data;
          if res =? - RT_ERROR then _ ← Attn_break; continue res 0
          else if res =? GOTCAN then mret res
          else zrec_file_loop fuel false 0
      else if res =? ZRPOS then _ ← zm_ (zget_pos 0); continue res err_cnt
      else if res =? ZEOF then
        _ ← zm_ (zget_pos 0);
        s ← get;
        if negb (Rxpos (zmod s) =? bytes_received (zf s)) || negb (Rxpos (zmod s) =? bytes_total (zf s))
        then continue res 0
        else zrec_init
      else if res =? ZFIN then _ ← zrec_ack_bibi; mret ZCOMPL
      else if res =? ZCAN then
        _ ← printf (str "error code: sender cancelled " ++ [13; 10]);
        _ ← zf_ (fun z => with_received z 0); mret res
      else if res =? ZSKIP then mret res
      else if res =? - RT_ERROR then _ ← Attn_break; continue res err_cnt
      else continue res err_cnt
  end.

Definition zrec_file : S_ Z := n ← turns; zrec_file_loop n true 0.

Definition zrec_files : S_ Z :=
  _ ← zm_ zinit_parameter;
  ok ← file_ api_malloc;
  if negb ok then _ ← printf (str "rxbuf: out of memory" ++ [13; 10]); mret (- RT_ERROR)
  else
    _ ← printf ([13; 10] ++ str "rz: ready..." ++ [13; 10]);
    res ← zrec_init;
    if negb (res =? 0) then
      _ ← printf ([8; 8; 8] ++ str "receive init failed" ++ [13; 10]);
      _ ← file_ api_free;
      mret (- RT_ERROR)
    else
      res ← zrec_file;
      if res =? ZFIN then _ ← file_ api_free; mret 0
      else if res =? ZCAN then _ ← file_ api_free; mret ZCAN
      else _ ← zm_ zsend_can; _ ← file_ api_free; mret res.

(** What has come by now is thrown away. *)
Definition drain : S_ unit := zm_ (modify (fun z => with_line z [])).

Definition zr_start (junk_buf : list Z) (path : option (list Z)) : S_ unit :=
  ok ← file_ api_malloc;
  if negb ok then printf (str "zf: out of memory" ++ [13; 10])
  else
    _ ← modify (fun s => with_rxbuf s junk_buf);
    _ ← zf_ (fun _ => with_zfd (with_fname no_zfile path) (-1));
    res ← zrec_files;
    name ← name_of;
    s ← get;
    _ ← printf ([8; 8; 8] ++ str "file: " ++ base_name name ++ replicate 27 32 ++ [13; 10]);
    _ ← (if res =? 0 then
           _ ← printf (str "size: " ++ decimal (bytes_received (zf s)) ++ str " bytes" ++ [13; 10]);
           _ ← printf (str "receive completed." ++ [13; 10]);
           _ ← file_ (api_close (zfd (zf s)));
           file_ api_free
         else
           _ ← printf (str "size: 0 bytes" ++ [13; 10]);
           _ ← printf (str "receive failed." ++ [13; 10]);
           if 0 <=? zfd (zf s) then
             _ ← file_ (api_close (zfd (zf s)));
             _ ← file_ (api_unlink name);
             file_ api_free
           else mret tt);
    _ ← file_ api_free;
    drain.

(** ** sz.c *)

(** The first loop waits for a padding character, the second for [ZRINIT]. *)
Fixpoint wait_pad (fuel : nat) : M unit :=
  match fuel with
  | O => lift (Err OutOfFuel)
  | S fuel => res ← zread_line 800; if res =? ZPAD then mret tt else wait_pad fuel
  end.

Fixpoint wait_rinit (fuel : nat) : S_ unit :=
  match fuel with
  | O => lift (Err OutOfFuel)
  | S fuel => res ← get_header; if res =? ZRINIT then mret tt else wait_rinit fuel
  end.

Definition zsend_init : S_ unit :=
  _ ← zm_ zinit_parameter;
  n ← turns; _ ← zm_ (wait_pad n);
  n ← turns; _ ← wait_rinit n;
  s ← get;
  f1 ← lift (idx (rx_header (zmod s)) ZF1);
  _ ← (if negb (Z.land f1 ZRQNVH =? 0) then _ ← zm_ (zput_pos 0x80); tx_hex ZRQINIT else mret tt);
  f0 ← lift (idx (rx_header (zmod s)) ZF0);
  let flags := Z.land f0 255 in
  _ ← modify (fun s => with_Rxflags s flags);
  _ ← (if negb (Z.land flags CANFC32 =? 0) then zm_ (modify (fun z => with_Txfcs32 z 1)) else mret tt);
  if (ZF2_OP s =? ZTRLE) && negb (Z.land flags CANRLE =? 0) then zm_ (modify (fun z => with_Txfcs32 z 2))
  else modify (fun s => with_ZF2_OP s 0).

(** [for (;;) { *q++ = *p++; if ( *p == 0) break; }]: the name is copied up to its
    terminator, which is not looked for before the first character. *)
Fixpoint copy_name (p : list Z) (q : Z) (buf : list Z) : res (Z * list Z) :=
  match p with
  | [] => Err OutOfBounds
  | c :: p =>
      buf ← upd buf q c;
      match p with
      | [] => Err OutOfBounds
      | d :: _ => if d =? 0 then Ret (q + 1, buf) else copy_name p (q + 1) buf
      end
  end.

Definition put_byte (i x : Z) : S_ unit :=
  s ← get; buf ← lift (upd (TX_BUFFER s) i (u8 x)); put (with_TX_BUFFER s buf).

(** Name and attributes of the file, as the first data frame carries them; the
    result is where the attributes begin. *)
Definition fill_info (finfo : stat_buf) : S_ Z :=
  name ← name_of;
  s ← get;
  '(q, buf) ← lift (copy_name (base_name name ++ [0]) 0 (TX_BUFFER s));
  let p := q + 1 in
  buf ← lift (upd buf q 0);
  buf ← lift (upd_range buf p (replicate (length buf - Z.to_nat p) 0));
  let left := u32 (Left_sizes s + st_size finfo) in
  let text := unsigned (st_size finfo) ++ [32] ++ octal (st_mtime finfo) ++ [32] ++ octal (st_mode finfo) ++
    str " 3 " ++ decimal (file_cnt s) ++ [32] ++ decimal left in
  buf ← lift (upd_range buf p (text ++ [0]));
  _ ← modify (fun s => with_TX_BUFFER (with_Left_sizes s (u32 (left - st_size finfo))) buf);
  _ ← put_byte 127 (Z.shiftr (u32 (st_size finfo + 127)) 7);
  _ ← put_byte 126 (Z.shiftr (u32 (st_size finfo + 127)) 15);
  mret p.

Definition zfill_buffer : S_ Z :=
  s ← get;
  '(n, buf) ← file_ (api_read (zfd (zf s)) (TX_BUFFER s) RX_BUFFER_SIZE);
  _ ← modify (fun s => with_TX_BUFFER s buf);
  mret (u16 n).

(** A frame of the data, until one is not full; [cnt] is signed. *)
Fixpoint data_frames (fuel : nat) : S_ unit :=
  match fuel with
  | O => lift (Err OutOfFuel)
  | S fuel =>
      n ← zfill_buffer;
      let cnt := s16 n in
      let cmd := if cnt <? RX_BUFFER_SIZE then ZCRCE else ZCRCG in
      s ← get;
      _ ← zm_ (zsend_bin_data (TX_BUFFER s) cnt cmd);
      _ ← zm_ (modify (fun z => with_Txpos z (u32 (Txpos z + cnt))));
      s ← get;
      _ ← zf_ (fun z => with_received z (Txpos (zmod s)));
      if cnt =? RX_BUFFER_SIZE then data_frames fuel else mret tt
  end.

Fixpoint sync_loop (fuel : nat) : S_ Z :=
  match fuel with
  | O => lift (Err OutOfFuel)
  | S fuel =>
      res ← get_header;
      if (res =? ZCAN) || (res =? ZABORT) || (res =? ZFIN) || (res =? TIMEOUT) then mret (- RT_ERROR)
      else if res =? ZRPOS then
        _ ← zm_ (zget_pos 0); _ ← zm_ (modify (fun z => with_Txpos z (Rxpos z))); mret res
      else if (res =? ZACK) || (res =? ZRINIT) || (res =? ZSKIP) then mret res
      else _ ← tx_bin ZNAK; sync_loop fuel
  end.

Definition zget_sync : S_ Z := n ← turns; sync_loop n.

Definition put_txpos : S_ unit := zm_ (z ← get; zput_pos (Txpos z)).

(** The three labels of [zsend_file_data]: [start_send], the loop that asks for the
    acknowledgement, and [get_syn1] in it. *)
Inductive stage := StartSend | SendEof | GetSync.

Fixpoint file_data_stages (blocks : nat) (fuel : nat) (st : stage) : S_ Z :=
  match fuel with
  | O => lift (Err OutOfFuel)
  | S fuel =>
      _ ← match st with
          | StartSend => _ ← put_txpos; _ ← tx_bin ZDATA; data_frames blocks
          | _ => mret tt
          end;
      _ ← match st with GetSync => mret tt | _ => _ ← put_txpos; tx_bin ZEOF end;
      res ← zget_sync;
      if res =? ZACK then file_data_stages blocks fuel GetSync
      else if res =? ZNAK then file_data_stages blocks fuel SendEof
      else if res =? ZRPOS then
        s ← get;
        _ ← file_ (api_lseek (zfd (zf s)) (Txpos (zmod s)) 0);
        file_data_stages blocks fuel StartSend
      else if res =? ZRINIT then mret 0
      else mret res
  end.

Definition zsend_file_data (blocks : nat) : S_ Z := n ← turns; file_data_stages blocks n StartSend.

(** [while ((res = zread_line(50)) > 0)] up to a padding character; the result says
    whether one came. *)
Fixpoint skip_to_pad (fuel : nat) : M bool :=
  match fuel with
  | O => lift (Err OutOfFuel)
  | S fuel =>
      res ← zread_line 50;
      if 0 <? res then if res =? ZPAD then mret true else skip_to_pad fuel else mret false
  end.

(** The label [loop]: [inl] leaves the switch, [inr] the function. *)
Fixpoint answer_loop (blocks : nat) (fuel : nat) : S_ (Z + Z) :=
  match fuel with
  | O => lift (Err OutOfFuel)
  | S fuel =>
      res ← get_header;
      if res =? ZRINIT then
        n ← turns;
        pad ← zm_ (skip_to_pad n);
        if pad : bool then answer_loop blocks fuel else mret (inl 0)
      else if res =? ZCRC then answer_loop blocks fuel
      else if res =? ZRPOS then
        _ ← zm_ (zget_pos 0);
        _ ← zm_ (modify (fun z => with_Txpos z (Rxpos z)));
        r ← zsend_file_data blocks; mret (inr r)
      else mret (inl res)
  end.

Definition put_options : S_ unit :=
  s ← get;
  let z := zmod s in
  zm_ (_ ← set_tx ZF0 (ZF0_CMD z); _ ← set_tx ZF1 (ZF1_CMD z);
       _ ← set_tx ZF2 (Z.lor (ZF3_CMD z) (ZF2_OP s)); set_tx ZF3 (ZF3_CMD z)).

(** [for (cnt=0;cnt<5;cnt++)] with [n] turns to go. *)
Fixpoint send_file_loop (blocks : nat) (n : nat) (len : Z) (res : Z) : S_ Z :=
  match n with
  | O => mret res
  | S n =>
      _ ← put_options;
      _ ← tx_bin ZFILE;
      s ← get;
      _ ← zm_ (zsend_bin_data (TX_BUFFER s) (s16 len) ZCRCW);
      k ← turns;
      answer ← answer_loop blocks k;
      match answer with inr r => mret r | inl res => send_file_loop blocks n len res end
  end.

Definition zsend_file (blocks : nat) (len : Z) : S_ Z := send_file_loop blocks 5 (u16 len) (- RT_ERROR).

Fixpoint say_bibi_loop (fuel : nat) : S_ unit :=
  match fuel with
  | O => lift (Err OutOfFuel)
  | S fuel =>
      _ ← zm_ (zput_pos 0);
      _ ← tx_hex ZFIN;
      res ← get_header;
      if res =? ZFIN then _ ← zm_ (zsend_line 79); zm_ (zsend_line 79)
      else if (res =? ZCAN) || (res =? TIMEOUT) then mret tt
      else say_bibi_loop fuel
  end.
Definition zsay_bibi : S_ unit := n ← turns; say_bibi_loop n.

Definition zsend_files (blocks : nat) : S_ Z :=
  s ← get;
  match fname (zf s) with
  | None => _ ← printf ([13; 10] ++ str "error: no file to be send." ++ [13; 10]); mret (- RT_ERROR)
  | Some name =>
      fd ← file_ (api_open name O_RDONLY);
      _ ← zf_ (fun z => with_zfd z fd);
      if fd <? 0 then _ ← printf ([13; 10] ++ str "can not open file:" ++ drop 1 name ++ [13; 10]); mret (- RT_ERROR)
      else
        _ ← zf_ (fun z => with_end z 0);
        _ ← modify (fun s => with_file_cnt s (u8 (file_cnt s + 1)));
        '(_, finfo) ← file_ (api_fstat fd (mkStat 0 0 0 0 0));
        p ← fill_info finfo;
        _ ← zsend_init;
        s ← get;
        attrs ← lift (cstr (drop (Z.to_nat p) (TX_BUFFER s)));
        res ← zsend_file blocks (p + Z.of_nat (length attrs) + 1);
        _ ← zsay_bibi;
        _ ← file_ (api_close fd);
        mret res
  end.

Definition zs_start (blocks : nat) (path : option (list Z)) : S_ unit :=
  ok ← file_ api_malloc;
  if negb ok then printf (str "zf: out of memory" ++ [13; 10])
  else
    _ ← printf ([13; 10] ++ str "sz: ready..." ++ [13; 10]);
    _ ← zf_ (fun _ => with_zfd (with_fname no_zfile path) (-1));
    res ← zsend_files blocks;
    name ← name_of;
    s ← get;
    _ ← (if res =? 0 then
           printf ([13; 10] ++ str "file: " ++ base_name name ++ str " " ++ [13; 10] ++ str "size: " ++
             decimal (bytes_received (zf s)) ++ str " bytes" ++ [13; 10] ++ str "send completed." ++ [13; 10])
         else printf ([13; 10] ++ str "file: " ++ base_name name ++ str " " ++ [13; 10] ++ str "size: 0 bytes" ++ [13; 10] ++
             str "send failed." ++ [13; 10]));
    file_ api_free.

(** ** zstart.c *)

Definition RT_DEVICE_FLAG_STREAM : Z := 0x40.

(** Around a transfer the console is no stream and calls [indicate] on reception,
    afterwards the shell's function again. *)
Definition around (indicate : Z) (transfer : S_ unit) : S_ unit :=
  s ← get;
  match device s with
  | None => lift (Err NullDeref)
  | Some (flag, rx_indicate) =>
      _ ← put (with_device s (Some (Z.ldiff flag RT_DEVICE_FLAG_STREAM, indicate)));
      _ ← transfer;
      s ← get;
      match device s with
      | None => lift (Err NullDeref)
      | Some (flag, _) =>
          _ ← put (with_device s (Some (Z.lor flag RT_DEVICE_FLAG_STREAM, rx_indicate)));
          printf (str "finsh>>")
      end
  end.

(** [zmodem_rx_ind] at address [rx_ind]. *)
Definition finsh_rz (junk_buf : list Z) (path : option (list Z)) : S_ unit := around 0 (zr_start junk_buf path).
Definition finsh_sz (blocks : nat) (rx_ind : Z) (path : option (list Z)) : S_ unit := around rx_ind (zs_start blocks path).

(** The commands; a device that is not found is reported and used all the same. *)
Definition command (found : option (Z * Z)) (device_name : list Z) (thread : S_ unit) : S_ unit :=
  _ ← (match found with None => printf (device_name ++ str " not find" ++ [13; 10]) | Some _ => mret tt end);
  _ ← modify (fun s => with_device s found);
  thread.
Definition rz (found : option (Z * Z)) (device_name junk_buf : list Z) (para : option (list Z)) : S_ unit :=
  command found device_name (finsh_rz junk_buf para).
Definition sz (blocks : nat) (rx_ind : Z) (found : option (Z * Z)) (device_name : list Z) (para : option (list Z)) : S_ unit :=
  command found device_name (finsh_sz blocks rx_ind para).
End transfer.
