(* ===== verification/ZSession.v ===== *)
(** * File transfer over the console: what the sessions do

    The sender and the receiver of [ZTransfer] against the same description of what
    goes over the line.  The file calls enter as two interfaces, [Source] for the
    sender and [Sink] for the receiver. *)

From S2P Require Import Prelude Dfs Zmodem ZCrc ZFrames ZTransfer.

#[local] Opaque add16 add16s add32.

(** ** Positions *)

Definition pos4 (p : Z) : list Z := [u8 p; u8 (Z.shiftr p 8); u8 (Z.shiftr p 16); u8 (Z.shiftr p 24)].

Lemma u8_byte x : byte (u8 x).
Proof. apply wrap_bounds. lia. Qed.

Lemma pos4_bytes p : Forall byte (pos4 p).
Proof. repeat constructor; apply u8_byte. Qed.

Lemma set_tx_run z pre j junk i x : tx_header z = pre ++ j :: junk -> i = Z.of_nat (length pre) ->
  set_tx i x z = Ret (tt, with_tx_header z (pre ++ u8 x :: junk)).
Proof. intros Hz ->. unfold set_tx. by rewrite st_get_bind, Hz, (upd_middle pre j junk _ (u8 x)). Qed.

Lemma zput_pos_run p z : length (tx_header z) = 4%nat -> zput_pos p z = Ret (tt, with_tx_header z (pos4 p)).
Proof.
  intros H. destruct (tx_header z) as [|a [|b [|c [|d []]]]] eqn:E; try done. unfold zput_pos.
  rewrite (st_bind_run _ _ _ _ _ (set_tx_run z [] a [b; c; d] ZP0 p E eq_refl)).
  rewrite (st_bind_run _ _ _ _ _ (set_tx_run (with_tx_header z [u8 p; b; c; d]) [u8 p] b [c; d] ZP1 _ eq_refl eq_refl)).
  rewrite (st_bind_run _ _ _ _ _ (set_tx_run (with_tx_header z [u8 p; u8 (Z.shiftr p 8); c; d])
    [u8 p; u8 (Z.shiftr p 8)] c [d] ZP2 _ eq_refl eq_refl)).
  by rewrite (set_tx_run (with_tx_header z [u8 p; u8 (Z.shiftr p 8); u8 (Z.shiftr p 16); d])
    [u8 p; u8 (Z.shiftr p 8); u8 (Z.shiftr p 16)] d [] ZP3 _ eq_refl eq_refl).
Qed.

Lemma lor_byte p b : byte b -> Z.lor (Z.shiftl p 8) b = 256 * p + b.
Proof.
  intros Hb. rewrite <- Z.add_nocarry_lor; [rewrite Z.shiftl_mul_pow2 by lia; lia|].
  zbits i Hi. rewrite Z.bits_0. destruct (decide (i < 8)).
  - by rewrite (Z.testbit_neg_r _ (i - 8)) by lia.
  - by rewrite (bit_above b 8), andb_false_r by (unfold byte in Hb; lia).
Qed.

Lemma zget_pos_run z p x : rx_header z = pos4 p -> 0 <= p < 2 ^ 32 -> zget_pos x z = Ret (tt, with_Rxpos z p).
Proof.
  intros H Hp. unfold zget_pos. rewrite st_get_bind, H. unfold pos4, ZP0, ZP1, ZP2, ZP3.
  rewrite (st_bind_run (lift (idx _ 0)) _ z (u8 p) z) by done.
  rewrite (st_bind_run (lift (idx _ 1)) _ z (u8 (Z.shiftr p 8)) z) by done.
  rewrite (st_bind_run (lift (idx _ 2)) _ z (u8 (Z.shiftr p 16)) z) by done.
  rewrite (st_bind_run (lift (idx _ 3)) _ z (u8 (Z.shiftr p 24)) z) by done.
  rewrite !land255_byte by apply u8_byte. rewrite !lor_byte by apply u8_byte.
  unfold put. do 3 f_equal. rewrite !Z.shiftr_div_pow2 by lia. wrap_lia.
Qed.

(** ** Numbers *)

Lemma digits_of_app b fuel n acc : digits_of b fuel n acc = digits_of b fuel n [] ++ acc.
Proof.
  revert n acc. induction fuel as [|fuel IH]; intros n acc; [done|]. cbn [digits_of].
  destruct (n / b =? 0); [done|]. rewrite (IH _ (_ :: acc)), (IH _ [_]). by rewrite <- app_assoc.
Qed.

Definition is_digit (b c : Z) : Prop := 48 <= c < 48 + b.

Lemma digits_of_digits b fuel n : 0 < b -> Forall (is_digit b) (digits_of b fuel n []).
Proof.
  intros Hb. revert n. induction fuel as [|fuel IH]; intros n; [done|]. cbn [digits_of].
  pose proof (Z.mod_pos_bound n b Hb). assert (is_digit b (48 + n mod b)) by (unfold is_digit; lia).
  destruct (n / b =? 0); [by apply Forall_singleton|]. rewrite digits_of_app. apply Forall_app.
  split; [done | by apply Forall_singleton].
Qed.

Lemma scan_digits_app b ds t acc : Forall (is_digit b) ds ->
  scan_digits b (ds ++ t) acc = scan_digits b t (foldl (fun a c => Some (default 0 a * b + (c - 48))) acc ds).
Proof.
  intros H. revert acc. induction H as [|c ds Hc _ IH]; intros acc; [done|]. cbn [scan_digits app foldl].
  unfold is_digit in Hc. replace ((48 <=? c) && (c <? 48 + b)) with true by lia. by rewrite IH.
Qed.

(** Printed digits have the value that was printed. *)
Lemma digits_of_value b fuel n a : 1 < b -> 0 <= n < b ^ Z.of_nat fuel -> (0 < fuel)%nat ->
  exists k, foldl (fun a c => Some (default 0 a * b + (c - 48))) a (digits_of b fuel n []) =
    Some (default 0 a * b ^ k + n) /\ 0 <= k.
Proof.
  intros Hb. revert n a. induction fuel as [|fuel IH]; intros n a Hn Hf; [lia|]. cbn [digits_of].
  pose proof (Z.div_mod n b ltac:(lia)) as Hd. destruct (Z.eqb_spec (n / b) 0) as [E|E].
  - rewrite E in Hd. exists 1. cbn [foldl]. rewrite Z.pow_1_r. split; [f_equal; lia | lia].
  - rewrite digits_of_app, foldl_app. destruct fuel as [|fuel].
    { cbn in Hn. rewrite Z.div_small in E by lia. lia. }
    destruct (IH (n / b) a) as (k & -> & Hk); [|lia|].
    + rewrite (Nat2Z.inj_succ (S fuel)), Z.pow_succ_r in Hn by lia. split; [apply Z.div_pos; lia|].
      apply Z.div_lt_upper_bound; lia.
    + exists (k + 1). cbn [foldl default]. rewrite Z.pow_add_r, Z.pow_1_r by lia. unfold id. split; [f_equal; lia | lia].
Qed.

Lemma digits_of_cons b fuel n : (0 < fuel)%nat -> 0 < b ->
  exists c ds, digits_of b fuel n [] = c :: ds /\ is_digit b c.
Proof.
  intros Hf Hb. pose proof (digits_of_digits b fuel n Hb) as H.
  destruct (digits_of b fuel n []) as [|c ds] eqn:E; [|inversion H; subst; eauto].
  destruct fuel; [lia|]. cbn in E. destruct (n / b =? 0); [done|]. rewrite digits_of_app in E. by destruct (digits_of b fuel (n / b) []).
Qed.

Lemma scan_number_digits b fuel n t : 1 < b <= 10 -> (0 < fuel)%nat -> 0 <= n < b ^ Z.of_nat fuel -> n < 2 ^ 32 ->
  (forall c t', t = c :: t' -> ~ is_digit b c) ->
  scan_number b (digits_of b fuel n [] ++ t) = Some (n, t).
Proof.
  intros Hb Hf Hn H32 Ht. destruct (digits_of_cons b fuel n Hf ltac:(lia)) as (c & ds & E & Hc).
  assert (Hstart : scan_number b (digits_of b fuel n [] ++ t) =
    match scan_digits b (digits_of b fuel n [] ++ t) None with (Some v, t) => Some (u32 v, t) | (None, _) => None end).
  { unfold scan_number. rewrite E. cbn [app skip_blanks]. unfold is_digit, blank in *.
    replace ((c =? 32) || ((9 <=? c) && (c <=? 13))) with false by lia.
    replace (c =? 45) with false by lia. replace (c =? 43) with false by lia. done. }
  rewrite Hstart, scan_digits_app by (apply digits_of_digits; lia).
  destruct (digits_of_value b fuel n None ltac:(lia) Hn Hf) as (k & -> & _). cbn [default].
  destruct t as [|d t]; cbn [scan_digits].
  - by rewrite wrap_id by lia.
  - pose proof (Ht d t eq_refl) as Hd. unfold is_digit in Hd.
    replace ((48 <=? d) && (d <? 48 + b)) with false by lia. by rewrite wrap_id by lia.
Qed.

Lemma scan_number_blank b t : scan_number b (32 :: t) = scan_number b t.
Proof. done. Qed.

(** ** Runs *)

(** [m] completes from [s], in a state and with a result that satisfy [Q]. *)
Definition runs {S A} (m : ST S A) (s : S) (Q : A -> S -> Prop) : Prop := exists a s', m s = Ret (a, s') /\ Q a s'.

Lemma runs_eq {S A} (m : ST S A) s a s' (Q : A -> S -> Prop) : m s = Ret (a, s') -> Q a s' -> runs m s Q.
Proof. intros H HQ. by exists a, s'. Qed.

Lemma runs_bind {S A B} (m : ST S A) (k : A -> ST S B) s Q R :
  runs m s Q -> (forall a s', Q a s' -> runs (k a) s' R) -> runs (m ≫= k) s R.
Proof.
  intros (a & s' & Hm & HQ) Hk. destruct (Hk a s' HQ) as (b & s2 & Hb & HR).
  exists b, s2. by rewrite (st_bind_run _ _ _ _ _ Hm).
Qed.

Lemma runs_step {S A B} (m : ST S A) (k : A -> ST S B) s a s' R : m s = Ret (a, s') -> runs (k a) s' R -> runs (m ≫= k) s R.
Proof. intros Hm Hk. apply (runs_bind _ _ _ (fun a' s2 => a' = a /\ s2 = s')); [by exists a, s' | by intros ? ? [-> ->]]. Qed.

Lemma runs_mono {S A} (m : ST S A) s (Q R : A -> S -> Prop) : runs m s Q -> (forall a s', Q a s' -> R a s') -> runs m s R.
Proof. intros (a & s' & Hm & HQ) H. exists a, s'. auto. Qed.

(** ** Both ends *)

(** The line of an end: what it has still to hear, what it has said. *)
Record talk (z : zm) (l w : list Z) : Prop := {
  talk_hears : hears z l;
  talk_sent : sent z = w;
  talk_rx : length (rx_header z) = 4%nat;
  talk_tx : length (tx_header z) = 4%nat;
  talk_crc : Txfcs32 z = 0 }.

Lemma talk_hex z l w type h : talk z l w -> tx_header z = h -> Forall byte h -> byte type ->
  exists z', (z ← get; zsend_hex_header type (tx_header z)) z = Ret (tt, z') /\
    z' = with_TxCRC (to_send z (hex_header type h ++ hex_trailer type)) 0 /\
    talk z' l (w ++ hex_header type h ++ hex_trailer type).
Proof.
  intros [[H1 H2] H3 H4 H5 H6] Hh Hb Ht. eexists. rewrite st_get_bind, Hh. rewrite Hh in H5.
  split; [by apply send_hex_header|]. split; [done|]. split; try done; [cbn; by rewrite H3 | cbn; by rewrite Hh].
Qed.

Lemma talk_bin z l w type h : talk z l w -> tx_header z = h -> Forall byte h -> byte type ->
  exists z', (z ← get; zsend_bin_header type (tx_header z)) z = Ret (tt, z') /\
    z' = with_TxCRC (to_send z (header16 type h)) 0 /\ talk z' l (w ++ header16 type h).
Proof.
  intros [[H1 H2] H3 H4 H5 H6] Hh Hb Ht. eexists. rewrite st_get_bind, Hh. rewrite Hh in H5.
  split; [by apply send_header16|]. split; [done|]. split; try done; [cbn; by rewrite H3 | cbn; by rewrite Hh].
Qed.

Lemma talk_pos z l w p : talk z l w -> zput_pos p z = Ret (tt, with_tx_header z (pos4 p)) /\ talk (with_tx_header z (pos4 p)) l w.
Proof. intros [H1 H3 H4 H5 H6]. split; [by apply zput_pos_run|]. by split. Qed.

(** What a header does to the end that reads it. *)
Record heard (z z' : zm) (type : Z) (h : list Z) (crc : Z) : Prop := {
  heard_rx : rx_header z' = h;
  heard_tx : tx_header z' = tx_header z;
  heard_crc : RxCRC z' = crc;
  heard_pos : Txpos z' = Txpos z;
  heard_cfg : ZF0_CMD z' = ZF0_CMD z /\ ZF1_CMD z' = ZF1_CMD z /\ ZF2_CMD z' = ZF2_CMD z /\ ZF3_CMD z' = ZF3_CMD z;
  heard_attn : Attn z' = Attn z;
  heard_TxCRC : TxCRC z' = TxCRC z }.

Section hear.
Context (junk : zm -> Z) (z : zm) (ns : list Z) (type : Z) (h rest w : list Z).
Hypothesis Hns : Forall noise ns.
Hypothesis Hn : Z.of_nat (length ns) < BITRATE - 1.
Hypothesis Ht : byte type.
Hypothesis Hh : Forall byte h.
Hypothesis Hl : length h = 4%nat.

Lemma hear_bin : talk z (ns ++ header16 type h ++ rest) w ->
  exists z', (z ← get; zget_header (junk z)) z = Ret (type, z') /\ talk z' rest w /\ heard z z' type h 0.
Proof.
  intros [H1 H3 H4 H5 H6]. eexists. rewrite st_get_bind.
  split; [by apply (get_header16 _ z ns type h rest)|]. split; split; try done. by destruct H1.
Qed.

Lemma hear_hex n : talk z (ns ++ replicate (S n) ZPAD ++ hex_body type h ++ rest) w ->
  exists z', (z ← get; zget_header (junk z)) z = Ret (type, z') /\ talk z' rest w /\ heard z z' type h 0.
Proof.
  intros [H1 H3 H4 H5 H6]. eexists. rewrite st_get_bind.
  split; [by apply (get_hex_header _ z ns type h rest Hns Hn Ht Hh Hl H4 n)|]. split; split; try done. by destruct H1.
Qed.
End hear.

(** A step on the frames' globals, as a step of the session. *)
Section session.
Context {F : Type} {api : FileApi F}.
Implicit Types s : session F.

Lemma zm_run {A} (m : ST zm A) s a z : m (zmod s) = Ret (a, z) -> zm_ m s = Ret (a, with_zmod s z).
Proof. intros H. unfold zm_. by rewrite H. Qed.

Lemma file_run {A} (m : ST F A) s a f : m (files s) = Ret (a, f) -> file_ m s = Ret (a, with_files s f).
Proof. intros H. unfold file_. by rewrite H. Qed.
End session.

(** ** What goes over the line *)

(** The data of a file: [n] full frames and one that is not full. *)
Fixpoint chunks (n : nat) (b : list Z) : list Z :=
  match n with
  | O => frame16 b ZCRCE
  | S n => frame16 (take 1024 b) ZCRCG ++ chunks n (drop 1024 b)
  end.
Definition data (b : list Z) : list Z := chunks (length b / 1024) b.

(** Name and attributes. *)
Definition attributes (size mtime mode cnt left : Z) : list Z :=
  unsigned size ++ [32] ++ octal mtime ++ [32] ++ octal mode ++ str " 3 " ++ decimal cnt ++ [32] ++ decimal left.
Definition info (name attrs : list Z) : list Z := name ++ [0] ++ attrs ++ [0].

(** A whole transfer of one file, as the sender speaks. *)
Definition transfer (opts name attrs b : list Z) : list Z :=
  header16 ZFILE opts ++ frame16 (info name attrs) ZCRCW ++ [XON] ++
  header16 ZDATA (pos4 0) ++ data b ++ header16 ZEOF (pos4 (Z.of_nat (length b))) ++
  hex_header ZFIN (pos4 0) ++ [79; 79].

(** As the receiver speaks. *)
Definition answers (flags flags' : list Z) : list Z :=
  hex_header ZRINIT flags ++ [XON] ++ hex_header ZRPOS (pos4 0) ++ [XON] ++
  hex_header ZRINIT flags' ++ [XON] ++ hex_header ZFIN (pos4 0).

(** Attributes fit, and are text. *)
Lemma digits_of_length base fuel n : (length (digits_of base fuel n []) <= fuel)%nat.
Proof.
  revert n. induction fuel as [|fuel IH]; intros n; [done|]. cbn [digits_of].
  destruct (n / base =? 0); [cbn; lia|]. rewrite digits_of_app, length_app. specialize (IH (n / base)). cbn [length]. lia.
Qed.

Lemma attributes_length size mtime mode cnt left : (length (attributes size mtime mode cnt left) <= 60)%nat.
Proof.
  unfold attributes, octal, decimal, unsigned. rewrite !length_app. change (length (str " 3 ")) with 3%nat. cbn [length].
  pose proof (fun base fuel n => digits_of_length base fuel n) as H.
  pose proof (H 10 10%nat (u32 size)). pose proof (H 8 11%nat (u32 mtime)). pose proof (H 8 11%nat (u32 mode)).
  assert (Hd : forall x : Z, (length (if (x <? 0)%Z then 45%Z :: digits_of 10 10 (u32 (- x)%Z) [] else digits_of 10 10 (u32 x) []) <= 11)%nat).
  { intros x. destruct (x <? 0); cbn [length]; [pose proof (H 10 10%nat (u32 (- x))) | pose proof (H 10 10%nat (u32 x))]; lia. }
  pose proof (Hd (s32 cnt)). pose proof (Hd (s32 left)). lia.
Qed.

Lemma digits_byte base fuel n : 0 < base <= 10 -> Forall byte (digits_of base fuel n []).
Proof.
  intros Hbase. eapply Forall_impl; [apply digits_of_digits; lia|]. intros c Hc. unfold is_digit in Hc. unfold byte. lia.
Qed.

Lemma attributes_bytes size mtime mode cnt left : Forall byte (attributes size mtime mode cnt left).
Proof.
  unfold attributes, octal, decimal, unsigned.
  assert (H1 : Forall byte [32]) by (by apply Forall_singleton).
  assert (H3 : Forall byte (str " 3 ")) by (by repeat constructor).
  assert (Hd : forall x, Forall byte (if x <? 0 then 45%Z :: digits_of 10 10 (u32 (- x)) [] else digits_of 10 10 (u32 x) [])).
  { intros x. destruct (x <? 0); [constructor; [done|]|]; by apply digits_byte. }
  repeat first [apply Forall_app; split | done | by apply digits_byte].
Qed.

Lemma info_bytes name attrs : Forall byte name -> Forall byte attrs -> Forall byte (info name attrs).
Proof.
  intros H1 H2. assert (H0 : Forall byte [0]) by (by apply Forall_singleton). unfold info.
  repeat first [apply Forall_app; split | done].
Qed.

Lemma cstr_attrs attrs more : Forall (fun c => c <> 0) attrs -> cstr (attrs ++ 0 :: more) = Ret attrs.
Proof. apply cstr_app. Qed.

Lemma attributes_nonzero size mtime mode cnt left : Forall (fun c => c <> 0) (attributes size mtime mode cnt left).
Proof.
  unfold attributes, octal, decimal, unsigned.
  assert (Hx : forall base fuel n, 0 < base -> Forall (fun c => c <> 0) (digits_of base fuel n [])).
  { intros base fuel n Hbase. eapply Forall_impl; [by apply digits_of_digits|]. intros c Hc. unfold is_digit in Hc. lia. }
  assert (H1 : Forall (fun c => c <> 0) [32]) by (by apply Forall_singleton).
  assert (H3 : Forall (fun c => c <> 0) (str " 3 ")) by (by repeat constructor).
  assert (Hd : forall x, Forall (fun c => c <> 0) (if x <? 0 then 45%Z :: digits_of 10 10 (u32 (- x)) [] else digits_of 10 10 (u32 x) [])).
  { intros x. destruct (x <? 0); [constructor; [done|]|]; by apply Hx. }
  repeat first [apply Forall_app; split | done | by apply Hx].
Qed.

(** Copies into a buffer. *)
Lemma copy_name_run name q more buf : Forall (fun c => c <> 0) name -> name <> [] ->
  length buf = q -> (length name <= length more)%nat ->
  copy_name (name ++ [0]) (Z.of_nat q) (buf ++ more) =
  Ret (Z.of_nat (q + length name), buf ++ name ++ drop (length name) more).
Proof.
  intros Hname. revert q buf more. induction Hname as [|c name Hc Hname IH]; intros q buf more Hne Hq Hj; [done|].
  destruct more as [|j more]; [cbn in Hj; lia|]. cbn [length] in *. cbn [copy_name app].
  rewrite (upd_middle buf j more (Z.of_nat q) c) by (by rewrite Hq). cbn [mbind res_bind].
  destruct name as [|d name].
  - cbn [app length drop Z.eqb]. do 2 f_equal. lia.
  - cbn [app] in *. inversion Hname; subst. rewrite (proj2 (Z.eqb_neq d 0)) by done.
    replace (Z.of_nat (length buf) + 1) with (Z.of_nat (length (buf ++ [c]))) by (rewrite length_app; cbn; lia).
    replace (buf ++ c :: more) with ((buf ++ [c]) ++ more) by by rewrite <- app_assoc.
    rewrite IH by (done || (cbn [length] in *; lia)).
    rewrite length_app. cbn [length drop]. rewrite <- app_assoc. do 2 f_equal. lia.
Qed.

Lemma upd_range_run {A} (pre more src : list A) i : i = Z.of_nat (length pre) -> (length src <= length more)%nat ->
  upd_range (pre ++ more) i src = Ret (pre ++ src ++ drop (length src) more).
Proof.
  intros -> Hl. unfold upd_range. rewrite decide_True by (rewrite length_app; lia).
  rewrite Nat2Z.id, take_app_length, drop_app_ge by lia. do 4 f_equal. lia.
Qed.

(** ** The sender *)

(** A file of the bytes [b] under [path]: [src None] while it is closed,
    [src (Some (fd, pos))] while [fd] reads it at [pos]. *)
Class Source {F : Type} {api : FileApi F} (path b : list Z) := {
  src : option (Z * nat) -> F -> Prop;
  src_malloc : forall f, src None f -> exists f', api_malloc f = Ret (true, f') /\ src None f';
  src_free : forall f, src None f -> exists f', api_free f = Ret (tt, f') /\ src None f';
  src_open : forall f, src None f ->
    exists fd f', api_open path O_RDONLY f = Ret (fd, f') /\ 0 <= fd /\ src (Some (fd, 0%nat)) f';
  src_fstat : forall fd pos st f, src (Some (fd, pos)) f ->
    exists r st' f', api_fstat fd st f = Ret ((r, st'), f') /\ st_size st' = Z.of_nat (length b) /\ src (Some (fd, pos)) f';
  src_read : forall fd pos buf n f, src (Some (fd, pos)) f -> (n <= length buf)%nat -> Z.of_nat n < 2 ^ 32 ->
    let t := take n (drop pos b) in
    exists f', api_read fd buf (Z.of_nat n) f = Ret ((Z.of_nat (length t), t ++ drop (length t) buf), f') /\
      src (Some (fd, (pos + length t)%nat)) f';
  src_close : forall fd pos f, src (Some (fd, pos)) f -> exists r f', api_close fd f = Ret (r, f') /\ src None f' }.
Arguments src {F api} path b {Source}.

Section sender.
Context {F : Type} {api : FileApi F} (path b : list Z) {source : Source path b}.
Context (junk : zm -> Z).
Implicit Types s : session F.
Hypothesis Hb : Forall byte b.
Hypothesis Hsize : Z.of_nat (length b) < 2 ^ 31.

(** The sender in the middle of things: the line, the file, the name. *)
Record sending (s : session F) (l w : list Z) (st : option (Z * nat)) (fd : Z) : Prop := {
  sg_talk : talk (zmod s) l w;
  sg_src : src path b st (files s);
  sg_fd : zfd (zf s) = fd;
  sg_name : fname (zf s) = Some path;
  sg_buf : length (TX_BUFFER s) = 1024%nat }.

Lemma sending_zm s l w st fd z l' w' : sending s l w st fd -> talk z l' w' -> sending (with_zmod s z) l' w' st fd.
Proof. intros [H1 H2 H3 H4 H5] Hz. by split. Qed.

Lemma talk_said z l w x : talk z l w -> talk (to_send z x) l (w ++ x).
Proof. intros [H1 H2 H3 H4 H5]. split; try done. cbn. by rewrite H2. Qed.

Lemma talk_Txpos z l w p : talk z l w -> talk (with_Txpos z p) l w.
Proof. intros [H1 H2 H3 H4 H5]. by split. Qed.

(** One frame of data. *)
Lemma fill_run s l w fd pos : sending s l w (Some (fd, pos)) fd -> (pos <= length b)%nat ->
  let t := take 1024 (drop pos b) in
  exists s', zfill_buffer s = Ret (Z.of_nat (length t), s') /\
    sending s' l w (Some (fd, (pos + length t)%nat)) fd /\
    zmod s' = zmod s /\ zf s' = zf s /\ take (length t) (TX_BUFFER s') = t.
Proof.
  intros [H1 H2 H3 H4 H5] Hpos t. unfold zfill_buffer. rewrite st_get_bind, H3.
  destruct (src_read fd pos (TX_BUFFER s) 1024 (files s) H2 ltac:(lia) ltac:(lia)) as (f' & Hr & Hf').
  fold t in Hr, Hf'. change (Z.of_nat 1024) with RX_BUFFER_SIZE in Hr.
  rewrite (st_bind_run _ _ _ _ _ (file_run _ s _ _ Hr)), st_modify_bind.
  assert (Ht : (length t <= 1024)%nat) by (unfold t; rewrite length_take; lia).
  eexists. split; [unfold mret, st_ret; do 3 f_equal; apply wrap_id; lia|].
  split; [split; try done|].
  - cbn. rewrite length_app, length_drop. lia.
  - split; [done|]. split; [done|]. cbn. by rewrite take_app_length.
Qed.

Lemma data_frames_run n : forall fuel s l w fd pos, (n < fuel)%nat ->
  sending s l w (Some (fd, pos)) fd -> (pos <= length b)%nat -> ((length b - pos) / 1024 = n)%nat ->
  TxCRC (zmod s) = 0 -> Txpos (zmod s) = Z.of_nat pos ->
  exists s', data_frames fuel s = Ret (tt, s') /\
    sending s' l (w ++ chunks n (drop pos b)) (Some (fd, length b)) fd /\
    TxCRC (zmod s') = 0 /\ Txpos (zmod s') = Z.of_nat (length b) /\ bytes_received (zf s') = Z.of_nat (length b).
Proof.
  induction n as [|n IH]; intros fuel s l w fd pos Hf Hs Hpos Hn Hcrc Hp; (destruct fuel as [|fuel]; [lia|]);
    cbn [data_frames].
  all: destruct (fill_run s l w fd pos Hs Hpos) as (s1 & E1 & Hs1 & Ez & Ef & Et);
    set (t := take 1024 (drop pos b)) in *; rewrite (st_bind_run _ _ _ _ _ E1).
  all: assert (Hlen : length t = Nat.min 1024 (length b - pos)) by (unfold t; rewrite length_take, length_drop; lia).
  all: rewrite (swrap_id 16 (Z.of_nat (length t))) by (cbn; lia).
  all: assert (Hp1 : Txpos (zmod s1) = Z.of_nat pos) by by rewrite Ez.
  all: assert (Hc1 : TxCRC (zmod s1) = 0) by by rewrite Ez.
  all: rewrite st_get_bind.
  all: assert (Hbt : Forall byte (take (Z.to_nat (Z.of_nat (length t))) (TX_BUFFER s1)))
    by (rewrite Nat2Z.id, Et; unfold t; by apply Forall_take, Forall_drop).
  all: assert (Hlb : 0 <= Z.of_nat (length t) <= Z.of_nat (length (TX_BUFFER s1)))
    by (rewrite (sg_buf _ _ _ _ _ Hs1); lia).
  - assert (Hsmall : (length b - pos < 1024)%nat) by (apply Nat.div_small_iff in Hn; lia).
    replace (Z.of_nat (length t) <? RX_BUFFER_SIZE) with true by (unfold RX_BUFFER_SIZE; lia).
    assert (E2 := send_data16 (zmod s1) (TX_BUFFER s1) (Z.of_nat (length t)) ZCRCE Hc1 Hlb Hbt ltac:(by left)).
    rewrite (st_bind_run _ _ _ _ _ (zm_run _ s1 _ _ E2)).
    rewrite (st_bind_run _ _ _ _ _ (zm_run (modify _) _ tt _ eq_refl)), st_get_bind.
    rewrite (st_bind_run (zf_ _) _ _ tt _ eq_refl).
    replace (Z.of_nat (length t) =? RX_BUFFER_SIZE) with false by (unfold RX_BUFFER_SIZE; lia).
    rewrite Nat2Z.id, Et in *.
    assert (El : drop pos b = t) by (unfold t; rewrite take_ge; [done | rewrite length_drop; lia]).
    replace (pos + length t)%nat with (length b) in Hs1 by lia.
    assert (Hend : u32 (Txpos (zmod s1) + Z.of_nat (length t)) = Z.of_nat (length b)) by (rewrite Hp1, wrap_id; lia).
    eexists. split; [reflexivity|]. split; [|by split].
    destruct Hs1 as [G0 G1 G2 G3 G4]. split; try done. cbn [chunks zmod with_zf with_zmod]. rewrite El.
    apply talk_Txpos. change (trailer ZCRCE) with (@nil Z). rewrite app_nil_r. by apply talk_said.
  - assert (Hbig : (1024 <= length b - pos)%nat).
    { destruct (decide (length b - pos < 1024)%nat); [|lia]. rewrite Nat.div_small in Hn by lia. done. }
    replace (Z.of_nat (length t) <? RX_BUFFER_SIZE) with false by (unfold RX_BUFFER_SIZE; lia).
    assert (E2 := send_data16 (zmod s1) (TX_BUFFER s1) (Z.of_nat (length t)) ZCRCG Hc1 Hlb Hbt ltac:(by right; left)).
    rewrite (st_bind_run _ _ _ _ _ (zm_run _ s1 _ _ E2)).
    rewrite (st_bind_run _ _ _ _ _ (zm_run (modify _) _ tt _ eq_refl)), st_get_bind.
    rewrite (st_bind_run (zf_ _) _ _ tt _ eq_refl).
    replace (Z.of_nat (length t) =? RX_BUFFER_SIZE) with true by (unfold RX_BUFFER_SIZE; lia).
    rewrite Nat2Z.id, Et in *. set (s2 := with_zf _ _).
    destruct (IH fuel s2 l (w ++ frame16 t ZCRCG) fd (pos + length t)%nat) as (s' & E & Hs' & Hrest).
    + lia.
    + destruct Hs1 as [G0 G1 G2 G3 G4]. split; try done.
      cbn [zmod s2 with_zf with_zmod]. apply talk_Txpos.
      change (trailer ZCRCG) with (@nil Z). rewrite app_nil_r. by apply talk_said.
    + lia.
    + replace (length b - pos)%nat with (1 * 1024 + (length b - (pos + length t)))%nat in Hn by lia.
      rewrite Nat.div_add_l in Hn by lia. lia.
    + exact Hc1.
    + cbn [Txpos zmod s2 with_zf with_zmod with_Txpos]. change (Txpos (to_send (zmod s1) _)) with (Txpos (zmod s1)).
      rewrite Hp1, wrap_id by lia. lia.
    + exists s'. split; [done|]. split; [|done]. cbn [chunks].
      replace (drop 1024 (drop pos b)) with (drop (pos + length t) b) by (rewrite drop_drop; f_equal; lia).
      by rewrite app_assoc.
Qed.
(** What the steps on the line leave alone. *)
Definition opts_of (z : zm) : list Z := [ZF3_CMD z; ZF2_CMD z; ZF1_CMD z; ZF0_CMD z].
Record kept (s s' : session F) : Prop := {
  kept_zf : zf s' = zf s;
  kept_buf : TX_BUFFER s' = TX_BUFFER s;
  kept_cnt : file_cnt s' = file_cnt s /\ Left_sizes s' = Left_sizes s /\ ZF2_OP s' = ZF2_OP s;
  kept_pos : Txpos (zmod s') = Txpos (zmod s);
  kept_opts : opts_of (zmod s') = opts_of (zmod s) }.

(** The steps on the line. *)
Lemma sg_hex s l w st fd type h : sending s l w st fd -> tx_header (zmod s) = h -> Forall byte h -> byte type ->
  exists s', tx_hex type s = Ret (tt, s') /\ sending s' l (w ++ hex_header type h ++ hex_trailer type) st fd /\ kept s s'.
Proof.
  intros Hs Hh Hbh Ht. destruct (talk_hex (zmod s) l w type h (sg_talk _ _ _ _ _ Hs) Hh Hbh Ht) as (z' & E & Ez & Hz).
  exists (with_zmod s z'). split; [by apply zm_run|]. split; [by apply (sending_zm _ _ _ _ _ _ _ _ Hs)|].
  rewrite Ez. by split.
Qed.

Lemma sg_bin s l w st fd type h : sending s l w st fd -> tx_header (zmod s) = h -> Forall byte h -> byte type ->
  exists s', tx_bin type s = Ret (tt, s') /\ sending s' l (w ++ header16 type h) st fd /\ kept s s' /\ TxCRC (zmod s') = 0.
Proof.
  intros Hs Hh Hbh Ht. destruct (talk_bin (zmod s) l w type h (sg_talk _ _ _ _ _ Hs) Hh Hbh Ht) as (z' & E & Ez & Hz).
  exists (with_zmod s z'). split; [by apply zm_run|]. split; [by apply (sending_zm _ _ _ _ _ _ _ _ Hs)|].
  rewrite Ez. by split.
Qed.

Lemma sg_pos s l w st fd p : sending s l w st fd ->
  exists s', zm_ (zput_pos p) s = Ret (tt, s') /\ sending s' l w st fd /\ kept s s' /\ tx_header (zmod s') = pos4 p.
Proof.
  intros Hs. destruct (talk_pos (zmod s) l w p (sg_talk _ _ _ _ _ Hs)) as [E Hz]. eexists.
  split; [by apply zm_run|]. split; [by apply (sending_zm _ _ _ _ _ _ _ _ Hs)|]. by split.
Qed.

Lemma sg_txpos s l w st fd : sending s l w st fd ->
  exists s', put_txpos s = Ret (tt, s') /\ sending s' l w st fd /\ kept s s' /\ tx_header (zmod s') = pos4 (Txpos (zmod s)).
Proof.
  intros Hs. destruct (sg_pos s l w st fd (Txpos (zmod s)) Hs) as (s' & E & H). exists s'. split; [|done].
  unfold put_txpos, zm_ in *. by rewrite st_get_bind.
Qed.

Lemma sg_hear n s ns type h rest w st fd :
  sending s (ns ++ replicate (S n) ZPAD ++ hex_body type h ++ rest) w st fd ->
  Forall noise ns -> Z.of_nat (length ns) < BITRATE - 1 -> byte type -> Forall byte h -> length h = 4%nat ->
  exists s', get_header junk s = Ret (type, s') /\ sending s' rest w st fd /\ kept s s' /\ rx_header (zmod s') = h.
Proof.
  intros Hs Hns Hn Ht Hbh Hl.
  destruct (hear_hex junk (zmod s) ns type h rest w Hns Hn Ht Hbh Hl n (sg_talk _ _ _ _ _ Hs)) as (z' & E & Hz & Hh).
  exists (with_zmod s z'). split; [by apply zm_run|]. split; [by apply (sending_zm _ _ _ _ _ _ _ _ Hs)|].
  destruct Hh as [Hrx Htx Hcrc Hpos (H0 & H1 & H2 & H3) _ _]. split; [|done]. split; try done.
  unfold opts_of. cbn [zmod with_zmod]. by rewrite H0, H1, H2, H3.
Qed.

Lemma turns_bind {A} (k : nat -> ST (session F) A) s : (turns ≫= k) s = k (S (length (line (zmod s)))) s.
Proof. done. Qed.

Lemma noise_XON : Forall noise [XON].
Proof. apply Forall_singleton. unfold noise. split; [done | repeat split; done]. Qed.

(** The acknowledgement of a sent file. *)
Lemma sync_run s h rest w st fd : sending s ([XON] ++ hex_header ZRINIT h ++ rest) w st fd ->
  Forall byte h -> length h = 4%nat ->
  exists s', zget_sync junk s = Ret (ZRINIT, s') /\ sending s' rest w st fd /\ kept s s'.
Proof.
  intros Hs Hbh Hl. unfold zget_sync. rewrite turns_bind. cbn [sync_loop].
  destruct (sg_hear 1 s [XON] ZRINIT h rest w st fd Hs noise_XON ltac:(done) ltac:(done) Hbh Hl) as (s1 & E1 & Hs1 & Hk & _).
  rewrite (st_bind_run _ _ _ _ _ E1). by exists s1.
Qed.

(** The file's data, up to the receiver's next invitation. *)
Lemma file_data_run blocks s h rest w fd : (length b / 1024 < blocks)%nat ->
  sending s ([XON] ++ hex_header ZRINIT h ++ rest) w (Some (fd, 0%nat)) fd ->
  Forall byte h -> length h = 4%nat -> Txpos (zmod s) = 0 ->
  exists s', zsend_file_data junk blocks s = Ret (0, s') /\
    sending s' rest (w ++ header16 ZDATA (pos4 0) ++ data b ++ header16 ZEOF (pos4 (Z.of_nat (length b)))) (Some (fd, length b)) fd /\
    bytes_received (zf s') = Z.of_nat (length b).
Proof.
  intros Hblocks Hs Hbh Hl Hp. unfold zsend_file_data. rewrite turns_bind. cbn [file_data_stages].
  destruct (sg_txpos s _ _ _ _ Hs) as (s1 & E1 & Hs1 & K1 & T1). rewrite Hp in T1.
  destruct (sg_bin _ _ _ _ _ ZDATA (pos4 0) Hs1 T1 (pos4_bytes _) ltac:(done)) as (s2 & E2 & Hs2 & K2 & C2).
  destruct (data_frames_run _ blocks s2 _ _ fd 0 Hblocks Hs2 ltac:(lia)) as (s3 & E3 & Hs3 & _ & Hp3 & Hr3);
    [by rewrite Nat.sub_0_r | done | by rewrite (kept_pos _ _ K2), (kept_pos _ _ K1)|].
  destruct (sg_txpos s3 _ _ _ _ Hs3) as (s4 & E4 & Hs4 & K4 & T4). rewrite Hp3 in T4.
  destruct (sg_bin _ _ _ _ _ ZEOF _ Hs4 T4 (pos4_bytes _) ltac:(done)) as (s5 & E5 & Hs5 & K5 & _).
  destruct (sync_run s5 h rest _ _ _ Hs5 Hbh Hl) as (s6 & E6 & Hs6 & K6).
  rewrite (st_bind_run _ _ s tt s3) by by rewrite (st_bind_run _ _ _ _ _ E1), (st_bind_run _ _ _ _ _ E2).
  rewrite (st_bind_run _ _ s3 tt s5) by by rewrite (st_bind_run _ _ _ _ _ E4).
  rewrite (st_bind_run _ _ _ _ _ E6). exists s6. split; [done|]. split.
  - unfold data. by rewrite <- !app_assoc in Hs6.
  - by rewrite (kept_zf _ _ K6), (kept_zf _ _ K5), (kept_zf _ _ K4).
Qed.
(** *** The beginning *)

(** Before the parameters are set. *)
Record opened (s : session F) (l w : list Z) (st : option (Z * nat)) (fd : Z) : Prop := {
  op_hears : hears (zmod s) l;
  op_sent : sent (zmod s) = w;
  op_src : src path b st (files s);
  op_fd : zfd (zf s) = fd;
  op_name : fname (zf s) = Some path;
  op_buf : length (TX_BUFFER s) = 1024%nat }.

Lemma wait_pad_run pre fuel z rest : hears z (pre ++ ZPAD :: rest) -> Forall (fun c => byte c /\ c <> ZPAD) pre ->
  (length pre < fuel)%nat -> wait_pad fuel z = Ret (tt, with_line z rest).
Proof.
  intros H Hpre. revert fuel z H. induction Hpre as [|c pre [Hc Hne] _ IH]; intros fuel z H Hf;
    (destruct fuel as [|fuel]; [cbn in Hf; lia|]); cbn [wait_pad app length] in *.
  - by rewrite (st_bind_run _ _ _ _ _ (hear_run 800 z ZPAD rest H ltac:(done))).
  - rewrite (st_bind_run _ _ _ _ _ (hear_run 800 z c _ H Hc)), (proj2 (Z.eqb_neq _ _) Hne).
    rewrite IH; [done|by apply (hears_line z (c :: pre ++ ZPAD :: rest))|lia].
Qed.

(** A receiver's flags, of which neither variable headers nor the 32 bit check
    concern this sender. *)
Definition plain_flags (f : list Z) : Prop :=
  exists a0 a1 a2 a3, f = [a0; a1; a2; a3] /\ Forall byte f /\ Z.land a2 ZRQNVH = 0 /\ Z.land a3 CANFC32 = 0.

Definition own_flags : list Z := [0; 0; 0; 0x2b].

Lemma send_init_run s pre f rest w st fd :
  opened s (pre ++ hex_header ZRINIT f ++ rest) w st fd -> Forall (fun c => byte c /\ c <> ZPAD) pre ->
  plain_flags f -> ZF2_OP s <> ZTRLE ->
  exists s', zsend_init junk s = Ret (tt, s') /\ sending s' rest w st fd /\
    TX_BUFFER s' = TX_BUFFER s /\ Txpos (zmod s') = 0 /\ opts_of (zmod s') = own_flags /\ ZF2_OP s' = 0.
Proof.
  intros [H1 H2 H3 H4 H5 H6] Hpre (a0 & a1 & a2 & a3 & -> & Hbf & Ha2 & Ha3) Hop. unfold zsend_init, zinit_parameter.
  rewrite (st_bind_run (zm_ (modify _)) _ s tt _ eq_refl), turns_bind.
  set (s1 := with_zmod s _). assert (Hl1 : hears (zmod s1) (pre ++ ZPAD :: (replicate 1 ZPAD ++ hex_body ZRINIT [a0; a1; a2; a3] ++ rest)))
    by (by destruct H1).
  assert (Hf : (length pre < S (length (line (zmod s1))))%nat)
    by (rewrite (proj2 Hl1), length_app; lia).
  rewrite (st_bind_run _ _ s1 tt _ (zm_run _ s1 _ _ (wait_pad_run pre _ _ _ Hl1 Hpre Hf))).
  set (s2 := with_zmod s1 _). assert (Hs2 : sending s2 ([] ++ replicate 1 ZPAD ++ hex_body ZRINIT [a0; a1; a2; a3] ++ rest) w st fd).
  { split; try done. split; try done. by destruct H1. }
  rewrite turns_bind. cbn [wait_rinit].
  destruct (sg_hear 0 s2 [] ZRINIT _ rest w st fd Hs2 ltac:(constructor) ltac:(done) ltac:(done) Hbf eq_refl)
    as (s3 & E3 & Hs3 & K3 & Hrx).
  rewrite (st_bind_run _ _ s2 tt s3) by by rewrite (st_bind_run _ _ _ _ _ E3).
  rewrite st_get_bind, Hrx. rewrite (st_bind_run (lift (idx _ ZF1)) _ s3 a2 s3) by done.
  rewrite Ha2. cbn [Z.eqb negb]. rewrite (st_bind_run (mret tt) _ s3 tt s3) by done.
  rewrite (st_bind_run (lift (idx _ ZF0)) _ s3 a3 s3) by done.
  rewrite land255_byte by (by inversion Hbf as [|? ? _ Hb1]; inversion Hb1 as [|? ? _ Hb2]; inversion Hb2 as [|? ? _ Hb3]; inversion Hb3).
  rewrite st_modify_bind, Ha3. cbn [Z.eqb negb]. set (s4 := with_Rxflags s3 a3).
  rewrite (st_bind_run (mret tt) _ s4 tt s4) by done.
  destruct (kept_cnt _ _ K3) as (_ & _ & K). replace (ZF2_OP s3 =? ZTRLE) with false by (symmetry; apply Z.eqb_neq; by rewrite K).
  cbn [andb]. eexists. split; [reflexivity|]. destruct Hs3. split; [by split|].
  split; [exact (kept_buf _ _ K3)|]. split; [exact (kept_pos _ _ K3)|]. split; [exact (kept_opts _ _ K3) | done].
Qed.
(** *** The first frame *)

Definition attrs_of (s : session F) (finfo : stat_buf) : list Z :=
  attributes (st_size finfo) (st_mtime finfo) (st_mode finfo) (file_cnt s) (u32 (Left_sizes s + st_size finfo)).

Lemma put_byte_run i x s : 0 <= i < Z.of_nat (length (TX_BUFFER s)) ->
  put_byte i x s = Ret (tt, with_TX_BUFFER s (<[Z.to_nat i := u8 x]> (TX_BUFFER s))).
Proof. intros Hi. unfold put_byte. by rewrite st_get_bind, upd_ok. Qed.

Lemma fill_info_run s l w st fd finfo name : opened s l w st fd -> base_name path = name ->
  Forall (fun c => c <> 0) name -> name <> [] -> (length (info name (attrs_of s finfo)) <= 126)%nat ->
  exists s', fill_info finfo s = Ret (Z.of_nat (length name + 1), s') /\ opened s' l w st fd /\
    take (length (info name (attrs_of s finfo))) (TX_BUFFER s') = info name (attrs_of s finfo) /\
    ZF2_OP s' = ZF2_OP s.
Proof.
  intros [H1 H2 H3 H4 H5 H6] Hbase Hz Hne Hlen. unfold fill_info, name_of.
  rewrite (st_bind_run _ _ s path s) by by rewrite st_get_bind, H5.
  rewrite Hbase, st_get_bind. set (text := attrs_of s finfo) in *. unfold info in Hlen. rewrite !length_app in Hlen. cbn [length] in Hlen.
  pose proof (copy_name_run name 0 (TX_BUFFER s) [] Hz Hne eq_refl ltac:(lia)) as E. cbn [Nat.add app] in E.
  change (Z.of_nat 0) with 0 in E. rewrite E, lift_Ret_bind. clear E.
  destruct (drop (length name) (TX_BUFFER s)) as [|j1 rest1] eqn:E1.
  { assert (Hd := f_equal length E1). rewrite length_drop in Hd. cbn in Hd. lia. }
  assert (Hr1 : length rest1 = (1024 - length name - 1)%nat).
  { assert (Hd := f_equal length E1). rewrite length_drop in Hd. cbn in Hd. lia. }
  rewrite (upd_middle name j1 rest1 _ 0), lift_Ret_bind by done.
  replace (name ++ 0 :: rest1) with ((name ++ [0]) ++ rest1) by by rewrite <- app_assoc.
  replace (Z.of_nat (length name) + 1) with (Z.of_nat (length (name ++ [0]))) by (rewrite length_app; cbn; lia).
  rewrite Nat2Z.id, (upd_range_run (name ++ [0]) rest1), lift_Ret_bind by (done || (rewrite length_replicate, !length_app; cbn; lia)).
  rewrite length_replicate. set (z := replicate _ 0).
  replace (drop (length ((name ++ [0]) ++ rest1) - length (name ++ [0])) rest1) with (@nil Z)
    by (symmetry; apply drop_ge; rewrite !length_app; lia).
  rewrite app_nil_r.
  assert (Hzl : length z = length rest1) by (unfold z; rewrite length_replicate, !length_app; lia).
  change (unsigned (st_size finfo) ++ _) with text.
  rewrite (upd_range_run (name ++ [0]) z), lift_Ret_bind by (try done; rewrite length_app; cbn [length]; lia).
  rewrite st_modify_bind. set (b1 := (name ++ [0]) ++ (text ++ [0]) ++ drop (length (text ++ [0])) z).
  assert (Hb1 : length b1 = 1024%nat) by (unfold b1; rewrite !length_app, length_drop; cbn [length]; lia).
  set (s1 := with_TX_BUFFER _ b1). rewrite (st_bind_run _ _ _ _ _ (put_byte_run 127 _ s1 ltac:(cbn; lia))).
  set (s2 := with_TX_BUFFER s1 _).
  assert (Hl2 : length (TX_BUFFER s2) = 1024%nat) by (cbn; by rewrite length_insert).
  rewrite (st_bind_run _ _ _ _ _ (put_byte_run 126 _ s2 ltac:(lia))).
  eexists. split; [by rewrite length_app|]. split; [split; try done; cbn; by rewrite !length_insert|]. split; [|done].
  cbn [TX_BUFFER with_TX_BUFFER s2 s1]. unfold info. rewrite !length_app. cbn [length].
  rewrite !take_insert_ge by lia. unfold b1. rewrite <- !app_assoc. rewrite !app_assoc.
  rewrite take_app_le by (rewrite !length_app; cbn; lia). apply take_ge. rewrite !length_app. cbn. lia.
Qed.
(** *** The whole transfer *)

Lemma sending_opened s l w st fd : sending s l w st fd -> opened s l w st fd.
Proof. intros [[H1 H2 H3 H4 H5] G1 G2 G3 G4]. by split. Qed.

Lemma options_run s l w st fd : sending s l w st fd -> opts_of (zmod s) = own_flags -> ZF2_OP s = 0 ->
  exists s', put_options s = Ret (tt, s') /\ sending s' l w st fd /\ kept s s' /\ tx_header (zmod s') = own_flags.
Proof.
  intros Hs Ho H2. unfold opts_of, own_flags in Ho. injection Ho as O3 O2 O1 O0.
  pose proof (talk_tx _ _ _ (sg_talk _ _ _ _ _ Hs)) as Ht.
  destruct (tx_header (zmod s)) as [|a0 [|a1 [|a2 [|a3 []]]]] eqn:E; try done.
  unfold put_options. rewrite st_get_bind, O0, O1, O3, H2.
  eexists. split.
  - apply zm_run. set (z := zmod s) in *.
    rewrite (st_bind_run _ _ _ _ _ (set_tx_run z [a0; a1; a2] a3 [] ZF0 0x2b E eq_refl)).
    rewrite (st_bind_run _ _ _ _ _ (set_tx_run (with_tx_header z [a0; a1; a2; 0x2b]) [a0; a1] a2 [0x2b] ZF1 0 eq_refl eq_refl)).
    rewrite (st_bind_run _ _ _ _ _ (set_tx_run (with_tx_header z [a0; a1; 0; 0x2b]) [a0] a1 [0; 0x2b] ZF2 0 eq_refl eq_refl)).
    exact (set_tx_run (with_tx_header z [a0; 0; 0; 0x2b]) [] a0 [0; 0; 0x2b] ZF3 0 eq_refl eq_refl).
  - split; [|by split]. apply (sending_zm s l w st fd _ l w Hs).
    destruct (sg_talk _ _ _ _ _ Hs) as [G1 G2 G3 G4 G5]. by split.
Qed.

Lemma own_flags_bytes : Forall byte own_flags.
Proof. by repeat constructor. Qed.

(** The first frame is sent once, for the receiver answers with a position. *)
Lemma send_file_run blocks s h rest w fd inf : (length b / 1024 < blocks)%nat ->
  sending s ([XON] ++ hex_header ZRPOS (pos4 0) ++ [XON] ++ hex_header ZRINIT h ++ rest) w (Some (fd, 0%nat)) fd ->
  Forall byte h -> length h = 4%nat -> Txpos (zmod s) = 0 -> opts_of (zmod s) = own_flags -> ZF2_OP s = 0 ->
  Forall byte inf -> take (length inf) (TX_BUFFER s) = inf -> (length inf <= 126)%nat ->
  exists s', zsend_file junk blocks (Z.of_nat (length inf)) s = Ret (0, s') /\
    sending s' rest (w ++ header16 ZFILE own_flags ++ frame16 inf ZCRCW ++ [XON] ++
      header16 ZDATA (pos4 0) ++ data b ++ header16 ZEOF (pos4 (Z.of_nat (length b)))) (Some (fd, length b)) fd /\
    bytes_received (zf s') = Z.of_nat (length b).
Proof.
  intros Hblocks Hs Hbh Hl Hp Ho H2 Hinf Htake Hlen. unfold zsend_file. rewrite (wrap_id 16) by lia. cbn [send_file_loop].
  destruct (options_run s _ _ _ _ Hs Ho H2) as (s1 & E1 & Hs1 & K1 & T1).
  destruct (sg_bin _ _ _ _ _ ZFILE own_flags Hs1 T1 own_flags_bytes ltac:(done)) as (s2 & E2 & Hs2 & K2 & C2).
  rewrite (st_bind_run _ _ _ _ _ E1), (st_bind_run _ _ _ _ _ E2), st_get_bind, swrap_id by (cbn; lia).
  assert (Ebuf : TX_BUFFER s2 = TX_BUFFER s) by by rewrite (kept_buf _ _ K2), (kept_buf _ _ K1).
  pose proof (sg_buf _ _ _ _ _ Hs) as Hbl.
  assert (E3 := send_data16 (zmod s2) (TX_BUFFER s2) (Z.of_nat (length inf)) ZCRCW C2
    ltac:(rewrite Ebuf; lia) ltac:(by rewrite Nat2Z.id, Ebuf, Htake) ltac:(by repeat right)).
  rewrite Nat2Z.id in E3. rewrite Ebuf in E3 at 2. rewrite Htake in E3. change (trailer ZCRCW) with [XON] in E3.
  rewrite (st_bind_run _ _ _ _ _ (zm_run _ s2 _ _ E3)). set (s3 := with_zmod s2 _).
  assert (Hs3 : sending s3 ([XON] ++ hex_header ZRPOS (pos4 0) ++ [XON] ++ hex_header ZRINIT h ++ rest)
    ((w ++ header16 ZFILE own_flags) ++ frame16 inf ZCRCW ++ [XON]) (Some (fd, 0%nat)) fd)
    by (apply (sending_zm _ _ _ _ _ _ _ _ Hs2), talk_said, (sg_talk _ _ _ _ _ Hs2)).
  rewrite turns_bind. cbn [answer_loop].
  destruct (sg_hear 1 s3 [XON] ZRPOS (pos4 0) _ _ _ _ Hs3 noise_XON ltac:(done) ltac:(done) (pos4_bytes 0) eq_refl)
    as (s4 & E4 & Hs4 & K4 & R4).
  set (s5 := with_zmod s4 (with_Txpos (with_Rxpos (zmod s4) 0) 0)).
  assert (Hs5 : sending s5 ([XON] ++ hex_header ZRINIT h ++ rest) ((w ++ header16 ZFILE own_flags) ++ frame16 inf ZCRCW ++ [XON])
    (Some (fd, 0%nat)) fd)
    by (apply (sending_zm _ _ _ _ _ _ _ _ Hs4); destruct (sg_talk _ _ _ _ _ Hs4) as [G1 G2 G3 G4 G5]; by split).
  destruct (file_data_run blocks s5 h rest _ fd Hblocks Hs5 Hbh Hl eq_refl) as (s6 & E6 & Hs6 & Hr6).
  rewrite (st_bind_run _ _ s3 (inr 0) s6).
  - exists s6. split; [done|]. split; [|done]. by rewrite <- !app_assoc in Hs6.
  - rewrite (st_bind_run _ _ _ _ _ E4). change (ZRPOS =? ZRINIT) with false. change (ZRPOS =? ZCRC) with false.
    change (ZRPOS =? ZRPOS) with true. cbn iota.
    rewrite (st_bind_run _ _ _ _ _ (zm_run _ s4 _ _ (zget_pos_run (zmod s4) 0 0 R4 ltac:(lia)))).
    rewrite (st_bind_run (zm_ (modify _)) _ _ tt s5) by done. by rewrite (st_bind_run _ _ _ _ _ E6).
Qed.

Lemma say_bibi_run s w rest st fd : sending s ([XON] ++ hex_header ZFIN (pos4 0) ++ rest) w st fd ->
  exists s', zsay_bibi junk s = Ret (tt, s') /\ sending s' rest (w ++ hex_header ZFIN (pos4 0) ++ [79; 79]) st fd /\ zf s' = zf s.
Proof.
  intros Hs. unfold zsay_bibi. rewrite turns_bind. cbn [say_bibi_loop].
  destruct (sg_pos s _ _ _ _ 0 Hs) as (s1 & E1 & Hs1 & K1 & T1).
  destruct (sg_hex _ _ _ _ _ ZFIN _ Hs1 T1 (pos4_bytes 0) ltac:(done)) as (s2 & E2 & Hs2 & K2).
  change (hex_trailer ZFIN) with (@nil Z) in Hs2. rewrite app_nil_r in Hs2.
  destruct (sg_hear 1 s2 [XON] ZFIN (pos4 0) rest _ _ _ Hs2 noise_XON ltac:(done) ltac:(done) (pos4_bytes 0) eq_refl)
    as (s3 & E3 & Hs3 & K3 & _).
  rewrite (st_bind_run _ _ _ _ _ E1), (st_bind_run _ _ _ _ _ E2), (st_bind_run _ _ _ _ _ E3).
  change (ZFIN =? ZFIN) with true. cbn iota.
  rewrite (st_bind_run _ _ _ _ _ (zm_run _ s3 _ _ (zsend_line_run 79 _ ltac:(done)))).
  set (s4 := with_zmod s3 _). exists (with_zmod s4 (to_send (zmod s4) [79])). split; [|split].
  - by apply zm_run, zsend_line_run.
  - pose proof (sg_talk _ _ _ _ _ Hs3) as Ht.
    apply (sending_zm s4 rest ((w ++ hex_header ZFIN (pos4 0)) ++ [79]) st fd).
    + apply (sending_zm s3 rest _ st fd _ rest ((w ++ hex_header ZFIN (pos4 0)) ++ [79]) Hs3). by apply talk_said.
    + replace (w ++ hex_header ZFIN (pos4 0) ++ [79; 79]) with (((w ++ hex_header ZFIN (pos4 0)) ++ [79]) ++ [79])
        by by rewrite <- !app_assoc. apply talk_said. by apply talk_said.
  - cbn. by rewrite (kept_zf _ _ K3), (kept_zf _ _ K2), (kept_zf _ _ K1).
Qed.
(** A session that is to send: nothing is open and the other end's answers are on
    their way. *)
Record idle (s : session F) (l w : list Z) : Prop := {
  idle_hears : hears (zmod s) l;
  idle_sent : sent (zmod s) = w;
  idle_src : src path b None (files s);
  idle_buf : length (TX_BUFFER s) = 1024%nat;
  idle_op : ZF2_OP s <> ZTRLE }.

Lemma send_files_run blocks s pre f f' rest w name :
  opened s (pre ++ answers f f' ++ rest) w None (zfd (zf s)) -> ZF2_OP s <> ZTRLE ->
  Forall (fun c => byte c /\ c <> ZPAD) pre -> plain_flags f -> Forall byte f' -> length f' = 4%nat ->
  base_name path = name -> Forall byte name -> Forall (fun c => c <> 0) name -> name <> [] -> (length name <= 64)%nat ->
  (length b / 1024 < blocks)%nat ->
  exists s' mtime mode, zsend_files junk blocks s = Ret (0, s') /\ hears (zmod s') rest /\
    sent (zmod s') = w ++ transfer own_flags name
      (attributes (Z.of_nat (length b)) mtime mode (u8 (file_cnt s + 1)) (u32 (Left_sizes s + Z.of_nat (length b)))) b /\
    src path b None (files s') /\ fname (zf s') = Some path /\ bytes_received (zf s') = Z.of_nat (length b).
Proof.
  intros [H1 H2 H3 H4 H5 H6] Hop Hpre Hf Hf' Hlf' Hbase Hnb Hnz Hne Hnl Hblocks. unfold zsend_files. rewrite st_get_bind, H5.
  destruct (src_open (files s) H3) as (fd & f1 & E1 & Hfd & Hs1).
  rewrite (st_bind_run _ _ _ _ _ (file_run _ s _ _ E1)), (st_bind_run (zf_ _) _ _ tt _ eq_refl).
  replace (fd <? 0) with false by lia. rewrite (st_bind_run (zf_ _) _ _ tt _ eq_refl), st_modify_bind.
  set (s2 := with_file_cnt _ _).
  destruct (src_fstat fd 0%nat (mkStat 0 0 0 0 0) (files s2) Hs1) as (r & st & f3 & E3 & Hsize3 & Hs3).
  rewrite (st_bind_run _ _ _ _ _ (file_run _ s2 _ _ E3)). set (s3 := with_files s2 f3).
  assert (Ho3 : opened s3 (pre ++ answers f f' ++ rest) w (Some (fd, 0%nat)) fd) by (by split).
  set (attrs := attrs_of s3 st). assert (Hattrs : attrs = attributes (Z.of_nat (length b)) (st_mtime st) (st_mode st)
    (u8 (file_cnt s + 1)) (u32 (Left_sizes s + Z.of_nat (length b)))) by (unfold attrs, attrs_of; by rewrite Hsize3).
  assert (Hil : (length (info name attrs) <= 126)%nat).
  { unfold info. rewrite !length_app, Hattrs. cbn [length]. pose proof (attributes_length (Z.of_nat (length b)) (st_mtime st) (st_mode st)
    (u8 (file_cnt s + 1)) (u32 (Left_sizes s + Z.of_nat (length b)))). lia. }
  destruct (fill_info_run s3 _ _ _ _ st name Ho3 Hbase Hnz Hne Hil) as (s4 & E4 & Ho4 & Ht4 & Hop4). fold attrs in Ht4.
  rewrite (st_bind_run _ _ _ _ _ E4). unfold answers in Ho4. rewrite <- !app_assoc in Ho4.
  destruct (send_init_run s4 pre f _ w _ _ Ho4 Hpre Hf ltac:(by rewrite Hop4)) as (s5 & E5 & Hs5 & Hb5 & Hp5 & Ho5 & Hop5).
  rewrite (st_bind_run _ _ _ _ _ E5), st_get_bind, Hb5.
  assert (Ed : cstr (drop (Z.to_nat (Z.of_nat (length name + 1))) (TX_BUFFER s4)) = Ret attrs).
  { rewrite <- (take_drop (length (info name attrs)) (TX_BUFFER s4)), Ht4, Nat2Z.id. unfold info.
    rewrite <- !app_assoc, (app_assoc name [0]), (drop_app_length' (name ++ [0])) by (rewrite length_app; cbn; lia).
    apply cstr_attrs. rewrite Hattrs. apply attributes_nonzero. }
  rewrite Ed, lift_Ret_bind.
  replace (Z.of_nat (length name + 1) + Z.of_nat (length attrs) + 1) with (Z.of_nat (length (info name attrs)))
    by (unfold info; rewrite !length_app; cbn [length]; lia).
  assert (Hib : Forall byte (info name attrs)) by (apply info_bytes; [done|]; rewrite Hattrs; apply attributes_bytes).
  destruct (send_file_run blocks s5 f' _ _ _ (info name attrs) Hblocks Hs5 Hf' Hlf' Hp5 Ho5 Hop5 Hib ltac:(by rewrite Hb5) Hil)
    as (s6 & E6 & Hs6 & Hr6).
  rewrite (st_bind_run _ _ _ _ _ E6).
  destruct (say_bibi_run s6 _ rest _ _ Hs6) as (s7 & E7 & Hs7 & Hz7). rewrite (st_bind_run _ _ _ _ _ E7).
  destruct (src_close fd _ (files s7) (sg_src _ _ _ _ _ Hs7)) as (r8 & f8 & E8 & Hs8).
  rewrite (st_bind_run _ _ _ _ _ (file_run _ s7 _ _ E8)).
  exists (with_files s7 f8), (st_mtime st), (st_mode st). split; [done|].
  split; [exact (talk_hears _ _ _ (sg_talk _ _ _ _ _ Hs7))|].
  split; [|split; [done|split; [exact (sg_name _ _ _ _ _ Hs7) | cbn; by rewrite Hz7]]].
  cbn [zmod with_files]. rewrite (talk_sent _ _ _ (sg_talk _ _ _ _ _ Hs7)). rewrite <- Hattrs. unfold transfer.
  by rewrite <- !app_assoc.
Qed.
(** [zs_start] on an idle session. *)
Lemma sz_run blocks s pre f f' rest w name :
  idle s (pre ++ answers f f' ++ rest) w -> Forall (fun c => byte c /\ c <> ZPAD) pre ->
  plain_flags f -> Forall byte f' -> length f' = 4%nat ->
  base_name path = name -> Forall byte name -> Forall (fun c => c <> 0) name -> name <> [] -> (length name <= 64)%nat ->
  (length b / 1024 < blocks)%nat ->
  exists s' mtime mode, zs_start junk blocks (Some path) s = Ret (tt, s') /\ hears (zmod s') rest /\
    sent (zmod s') = w ++ transfer own_flags name
      (attributes (Z.of_nat (length b)) mtime mode (u8 (file_cnt s + 1)) (u32 (Left_sizes s + Z.of_nat (length b)))) b /\
    src path b None (files s').
Proof.
  intros [H1 H2 H3 H4 H5] Hpre Hf Hf' Hlf' Hbase Hnb Hnz Hne Hnl Hblocks. unfold zs_start.
  destruct (src_malloc (files s) H3) as (f1 & E1 & Hf1).
  rewrite (st_bind_run _ _ _ _ _ (file_run _ s _ _ E1)). cbn [negb].
  rewrite (st_bind_run (printf _) _ _ tt _ eq_refl), (st_bind_run (zf_ _) _ _ tt _ eq_refl). set (s1 := with_zf _ _).
  assert (Ho : opened s1 (pre ++ answers f f' ++ rest) w None (zfd (zf s1))) by (by split).
  destruct (send_files_run blocks s1 pre f f' rest w name Ho H5 Hpre Hf Hf' Hlf' Hbase Hnb Hnz Hne Hnl Hblocks)
    as (s2 & mtime & mode & E2 & Hl2 & Hw2 & Hs2 & Hn2 & Hr2).
  rewrite (st_bind_run _ _ _ _ _ E2). rewrite (st_bind_run name_of _ s2 path s2) by (unfold name_of; by rewrite st_get_bind, Hn2).
  rewrite st_get_bind. change (0 =? 0) with true. cbn iota. rewrite (st_bind_run (printf _) _ s2 tt _ eq_refl).
  set (s3 := with_zmod s2 _). destruct (src_free (files s3) Hs2) as (f4 & E4 & Hf4).
  exists (with_files s3 f4), mtime, mode. split; [by apply file_run|]. split; [by destruct Hl2|]. split; [|done].
  exact Hw2.
Qed.
End sender.
