(* ===== verification/ZReceive.v ===== *)
(** * File transfer over the console: the receiver, and both ends

    The receiver of [ZTransfer] on a transfer as [ZSession] describes it, and the
    theorems on files that go over the line. *)

From S2P Require Import Prelude Dfs Zmodem ZCrc ZFrames ZTransfer ZSession.

#[local] Opaque add16 add16s add32.

(** A place for a new file: [dir/name] does not exist.  The states are those of the
    one descriptor that is used, with what has been written so far. *)
Inductive sink_state := Idle | Dir (fd : Z) | Writing (fd : Z) (content : list Z) | Done (content : list Z).

Class Sink {F : Type} {api : FileApi F} (dir name : list Z) := {
  snk : sink_state -> F -> Prop;
  snk_malloc : forall f, snk Idle f -> exists f', api_malloc f = Ret (true, f') /\ snk Idle f';
  snk_free : forall st f, snk st f -> exists f', api_free f = Ret (tt, f') /\ snk st f';
  snk_open_dir : forall f, snk Idle f ->
    exists fd f', api_open (dir ++ [47]) O_DIRECTORY f = Ret (fd, f') /\ 0 <= fd /\ snk (Dir fd) f';
  snk_fstat : forall fd st f, snk (Dir fd) f ->
    exists r st' f', api_fstat fd st f = Ret ((r, st'), f') /\ Z.land (st_mode st') S_IFDIR = S_IFDIR /\ snk (Dir fd) f';
  snk_close_dir : forall fd f, snk (Dir fd) f -> exists r f', api_close fd f = Ret (r, f') /\ snk Idle f';
  snk_create : forall f, snk Idle f ->
    exists fd f', api_open (dir ++ [47] ++ name) (Z.lor O_CREAT O_WRONLY) f = Ret (fd, f') /\ 0 <= fd /\ snk (Writing fd []) f';
  snk_write : forall fd c buf n f, snk (Writing fd c) f -> (n <= length buf)%nat ->
    exists r f', api_write fd buf (Z.of_nat n) f = Ret (r, f') /\ snk (Writing fd (c ++ take n buf)) f';
  snk_close : forall fd c f, snk (Writing fd c) f -> exists r f', api_close fd f = Ret (r, f') /\ snk (Done c) f' }.
Arguments snk {F api} dir name {Sink}.

Section receiver.
Context {F : Type} {api : FileApi F} (dir name b : list Z) {sink : Sink dir name}.
Context (junk : zm -> Z).
Implicit Types s : session F.
Hypothesis Hb : Forall byte b.
Hypothesis Hsize : Z.of_nat (length b) < 2 ^ 31.

Record receiving (s : session F) (l w : list Z) (st : sink_state) : Prop := {
  rc_talk : talk (zmod s) l w;
  rc_snk : snk dir name st (files s);
  rc_buf : length (rxbuf s) = 1024%nat }.

Lemma receiving_zm s l w st z l' w' : receiving s l w st -> talk z l' w' -> receiving (with_zmod s z) l' w' st.
Proof. intros [H1 H2 H3] Hz. by split. Qed.

Lemma receiving_files s l w st st' f : receiving s l w st -> snk dir name st' f -> receiving (with_files s f) l w st'.
Proof. intros [H1 H2 H3] Hf. by split. Qed.

(** The flags that [ZRINIT] announces, as a header. *)
Definition flags_of (z : zm) : list Z := [0; ZF2_CMD z; ZF1_CMD z; ZF0_CMD z].
Definition good_flags (z : zm) : Prop := Forall byte (flags_of z).

(** *** Steps on the line *)

Lemma rc_hex s l w st type h : receiving s l w st -> tx_header (zmod s) = h -> Forall byte h -> byte type ->
  exists s', tx_hex type s = Ret (tt, s') /\ receiving s' l (w ++ hex_header type h ++ hex_trailer type) st /\
    zf s' = zf s /\ flags_of (zmod s') = flags_of (zmod s).
Proof.
  intros Hs Hh Hbh Ht. destruct (talk_hex (zmod s) l w type h (rc_talk _ _ _ _ Hs) Hh Hbh Ht) as (z' & E & Ez & Hz).
  exists (with_zmod s z'). split; [by apply zm_run|]. split; [by apply (receiving_zm _ _ _ _ _ _ _ Hs)|].
  by rewrite Ez.
Qed.

Lemma rc_pos s l w st p : receiving s l w st ->
  exists s', zm_ (zput_pos p) s = Ret (tt, s') /\ receiving s' l w st /\ zf s' = zf s /\
    flags_of (zmod s') = flags_of (zmod s) /\ tx_header (zmod s') = pos4 p.
Proof.
  intros Hs. destruct (talk_pos (zmod s) l w p (rc_talk _ _ _ _ Hs)) as [E Hz]. eexists.
  split; [by apply zm_run|]. split; [by apply (receiving_zm _ _ _ _ _ _ _ Hs)|]. done.
Qed.

Lemma flags_run s l w st : receiving s l w st -> good_flags (zmod s) ->
  exists s', zm_ put_flags s = Ret (tt, s') /\ receiving s' l w st /\ zf s' = zf s /\
    flags_of (zmod s') = flags_of (zmod s) /\ tx_header (zmod s') = flags_of (zmod s).
Proof.
  intros Hs Hg. destruct (talk_pos (zmod s) l w 0 (rc_talk _ _ _ _ Hs)) as [E Hz].
  set (z := zmod s) in *. unfold good_flags, flags_of in Hg.
  inversion Hg as [|? ? _ Hg1]; inversion Hg1 as [|? ? G2 Hg2]; inversion Hg2 as [|? ? G1 Hg3]; inversion Hg3 as [|? ? G0 _]; subst.
  exists (with_zmod s (with_tx_header z (flags_of z))). split.
  - apply zm_run. unfold put_flags. rewrite (st_bind_run _ _ _ _ _ E), st_get_bind.
    set (z1 := with_tx_header z (pos4 0)).
    rewrite (st_bind_run _ _ _ _ _ (set_tx_run z1 [0; 0; 0] 0 [] ZF0 (ZF0_CMD z1) eq_refl eq_refl)).
    rewrite (st_bind_run _ _ _ _ _ (set_tx_run (with_tx_header z [0; 0; 0; u8 (ZF0_CMD z1)]) [0; 0] 0 [u8 (ZF0_CMD z1)] ZF1 (ZF1_CMD z1) eq_refl eq_refl)).
    etransitivity.
    { exact (set_tx_run (with_tx_header z [0; 0; u8 (ZF1_CMD z1); u8 (ZF0_CMD z1)]) [0] 0 [u8 (ZF1_CMD z1); u8 (ZF0_CMD z1)]
        ZF2 (ZF2_CMD z1) eq_refl eq_refl). }
    unfold z1, flags_of. cbn [app ZF0_CMD ZF1_CMD ZF2_CMD with_tx_header]. by rewrite !wrap_id by done.
  - split; [|done]. apply (receiving_zm _ _ _ _ _ _ _ Hs). destruct Hz. by split.
Qed.

Lemma rc_hear_bin s ns type h rest w st : receiving s (ns ++ header16 type h ++ rest) w st ->
  Forall noise ns -> Z.of_nat (length ns) < BITRATE - 1 -> byte type -> Forall byte h -> length h = 4%nat ->
  exists s', get_header junk s = Ret (type, s') /\ receiving s' rest w st /\ zf s' = zf s /\
    flags_of (zmod s') = flags_of (zmod s) /\ rx_header (zmod s') = h /\ RxCRC (zmod s') = 0.
Proof.
  intros Hs Hns Hn Ht Hbh Hl.
  destruct (hear_bin junk (zmod s) ns type h rest w Hns Hn Ht Hbh Hl (rc_talk _ _ _ _ Hs)) as (z' & E & Hz & Hh).
  exists (with_zmod s z'). split; [by apply zm_run|]. split; [by apply (receiving_zm _ _ _ _ _ _ _ Hs)|].
  destruct Hh as [Hrx Htx Hcrc Hpos (H0 & H1 & H2 & H3) _ _]. split; [done|]. split; [|done].
  unfold flags_of. cbn [zmod with_zmod]. by rewrite H0, H1, H2.
Qed.

Lemma rc_hear_hex s ns type h rest w st : receiving s (ns ++ hex_header type h ++ rest) w st ->
  Forall noise ns -> Z.of_nat (length ns) < BITRATE - 1 -> byte type -> Forall byte h -> length h = 4%nat ->
  exists s', get_header junk s = Ret (type, s') /\ receiving s' rest w st /\ zf s' = zf s.
Proof.
  intros Hs Hns Hn Ht Hbh Hl.
  destruct (hear_hex junk (zmod s) ns type h rest w Hns Hn Ht Hbh Hl 1 (rc_talk _ _ _ _ Hs)) as (z' & E & Hz & _).
  exists (with_zmod s z'). split; [by apply zm_run|]. by split; [apply (receiving_zm _ _ _ _ _ _ _ Hs)|].
Qed.

(** A frame of data, into the buffer. *)
Lemma rxbuf_run s t e rest w st : receiving s (frame16 t e ++ rest) w st -> RxCRC (zmod s) = 0 ->
  Forall byte t -> (length t <= 1024)%nat -> ends e ->
  exists s', get_rxbuf junk s = Ret (Z.lor e GOTOR, s') /\ receiving s' rest w st /\ zf s' = zf s /\
    flags_of (zmod s') = flags_of (zmod s) /\ rxbuf s' = t ++ drop (length t) (rxbuf s) /\
    Rxcount (zmod s') = Z.of_nat (length t) /\ RxCRC (zmod s') = 0 /\ rx_header (zmod s') = rx_header (zmod s).
Proof.
  intros Hs Hcrc Ht Hl He. destruct Hs as [[H1 H2 H3 H4 H5] G1 G2]. unfold get_rxbuf. rewrite st_get_bind.
  assert (E := get_data16 (junk (zmod s)) (zmod s) t e (rxbuf s) RX_BUFFER_SIZE rest Hcrc H1 Ht He
    ltac:(unfold RX_BUFFER_SIZE; lia) ltac:(lia) ltac:(lia)).
  rewrite (st_bind_run (get_data junk (rxbuf s) RX_BUFFER_SIZE) _ s _ _
    (zm_run (z ← get; zget_data (junk z) (rxbuf s) RX_BUFFER_SIZE) s _ _ E)), st_modify_bind.
  eexists. split; [done|]. split; [|done]. split; [|done|].
  - split; try done. by destruct H1.
  - cbn. rewrite length_app, length_drop. lia.
Qed.
(** *** The file's name and attributes *)

Lemma scan_attributes size mtime mode cnt left z : 0 <= size < 2 ^ 31 ->
  scan_info (attributes size mtime mode cnt left) z = with_info z size (u32 mtime) (u32 mode).
Proof.
  intros Hsz. unfold attributes, scan_info, unsigned, octal. rewrite !(wrap_id 32 size) by lia.
  pose proof (wrap_bounds 32 mtime ltac:(lia)) as Hm. pose proof (wrap_bounds 32 mode ltac:(lia)) as Hd.
  rewrite scan_number_digits; [|lia|lia|cbn; lia|lia|intros c t' [= <- <-]; unfold is_digit; lia].
  cbn [app]. rewrite scan_number_blank.
  rewrite scan_number_digits; [|lia|lia|cbn; lia|lia|intros c t' [= <- <-]; unfold is_digit; lia].
  rewrite scan_number_blank.
  rewrite scan_number_digits; [done|lia|lia|cbn; lia|lia|intros c t' [= <- <-]; unfold is_digit; lia].
Qed.

Lemma file_info_run s l w mtime mode cnt left more : receiving s l w Idle ->
  fname (zf s) = Some dir -> Forall (fun c => c <> 0) name ->
  rxbuf s = info name (attributes (Z.of_nat (length b)) mtime mode cnt left) ++ more ->
  exists s' fd, zget_file_info s = Ret (0, s') /\ receiving s' l w (Writing fd []) /\ zfd (zf s') = fd /\
    bytes_received (zf s') = 0 /\ bytes_total (zf s') = Z.of_nat (length b) /\
    fname (zf s') = Some (dir ++ [47] ++ name) /\ zmod s' = zmod s.
Proof.
  intros Hs Hdir Hnz Hbuf. unfold zget_file_info. rewrite st_get_bind.
  set (attrs := attributes _ _ _ _ _) in *. unfold info in Hbuf. rewrite <- !app_assoc in Hbuf.
  assert (Ec : cstr (rxbuf s) = Ret name) by (rewrite Hbuf; by apply cstr_app).
  assert (Ed : cstr (drop (length name + 1) (rxbuf s)) = Ret attrs).
  { rewrite Hbuf, (app_assoc name [0]), (drop_app_length' (name ++ [0])) by (rewrite length_app; cbn; lia).
    apply cstr_app, attributes_nonzero. }
  rewrite Ec, lift_Ret_bind, Hdir. cbn [default id].
  destruct (snk_malloc (files s) (rc_snk _ _ _ _ Hs)) as (f1 & E1 & Hf1).
  rewrite (st_bind_run _ _ _ _ _ (file_run _ s _ _ E1)). cbn [negb]. set (s1 := with_files s f1).
  destruct (snk_open_dir (files s1) Hf1) as (fd & f2 & E2 & Hfd & Hf2).
  rewrite (st_bind_run _ _ _ _ _ (file_run _ s1 _ _ E2)), (st_bind_run (zf_ _) _ _ tt _ eq_refl).
  replace (fd <? 0) with false by lia. set (s2 := with_zf _ _).
  destruct (snk_fstat fd (mkStat 0 0 0 0 0) (files s2) Hf2) as (r3 & st3 & f3 & E3 & Hmode & Hf3).
  rewrite (st_bind_run _ _ _ _ _ (file_run _ s2 _ _ E3)), Hmode, Z.eqb_refl. cbn [negb]. set (s3 := with_files s2 f3).
  destruct (snk_close_dir fd (files s3) Hf3) as (r4 & f4 & E4 & Hf4).
  rewrite (st_bind_run _ _ _ _ _ (file_run _ s3 _ _ E4)), (st_bind_run (zf_ _) _ _ tt _ eq_refl).
  rewrite Ed, lift_Ret_bind. rewrite (st_bind_run (zf_ _) _ _ tt _ eq_refl).
  set (s5 := with_zf _ _). rewrite <- !(app_assoc dir [47] name).
  destruct (snk_create (files s5) Hf4) as (fd6 & f6 & E6 & Hfd6 & Hf6).
  rewrite (st_bind_run _ _ _ _ _ (file_run _ s5 _ _ E6)), (st_bind_run (zf_ _) _ _ tt _ eq_refl).
  replace (fd6 <? 0) with false by lia.
  eexists _, fd6. split; [done|]. split; [destruct Hs as [H1 H2 H3]; by split|]. split; [done|]. split; [done|].
  cbn [zf with_zf with_files s5 bytes_total with_zfd with_received]. unfold attrs. rewrite scan_attributes by lia.
  split; [done|]. by rewrite <- (app_assoc dir [47] name).
Qed.

(** *** Waiting for a file *)

Lemma keep_run s l w st o0 o1 o2 o3 : receiving s l w st -> rx_header (zmod s) = [o0; o1; o2; o3] ->
  exists s', zm_ keep_options s = Ret (tt, s') /\ receiving s' l w st /\ zf s' = zf s /\ rxbuf s' = rxbuf s /\
    flags_of (zmod s') = [0; o1; o2; o3] /\ RxCRC (zmod s') = RxCRC (zmod s) /\ tx_header (zmod s') = tx_header (zmod s).
Proof.
  intros Hs Hrx. eexists. split.
  - apply zm_run. unfold keep_options. set (z := zmod s) in *. rewrite st_get_bind, Hrx.
    rewrite (st_bind_run (lift (idx _ ZF0)) _ z o3 z), (st_bind_run (lift (idx _ ZF1)) _ z o2 z),
      (st_bind_run (lift (idx _ ZF2)) _ z o1 z), (st_bind_run (lift (idx _ ZF3)) _ z o0 z) by done. done.
  - split; [|done]. apply (receiving_zm _ _ _ _ _ _ _ Hs). destruct (rc_talk _ _ _ _ Hs) as [G1 G2 G3 G4 G5]. by split.
Qed.

Lemma init_file_run s ns opts inf_rest w mtime mode cnt left :
  let inf := info name (attributes (Z.of_nat (length b)) mtime mode cnt left) in
  receiving s (ns ++ header16 ZFILE opts ++ frame16 inf ZCRCW ++ inf_rest) w Idle ->
  Forall noise ns -> Z.of_nat (length ns) < BITRATE - 1 -> good_flags (zmod s) ->
  fname (zf s) = Some dir -> Forall byte opts -> length opts = 4%nat ->
  Forall byte name -> Forall (fun c => c <> 0) name -> (length inf <= 1024)%nat ->
  exists s' fd, zrec_init junk s = Ret (0, s') /\
    receiving s' inf_rest (w ++ hex_header ZRINIT (flags_of (zmod s)) ++ [XON]) (Writing fd []) /\ zfd (zf s') = fd /\
    bytes_received (zf s') = 0 /\ bytes_total (zf s') = Z.of_nat (length b) /\ fname (zf s') = Some (dir ++ [47] ++ name) /\
    flags_of (zmod s') = 0 :: tail opts.
Proof.
  intros inf Hs Hns Hn Hg Hdir Hbo Hlo Hnb Hnz Hil. destruct opts as [|o0 [|o1 [|o2 [|o3 []]]]]; try done.
  unfold zrec_init. rewrite turns_bind. cbn [zrec_init_loop].
  destruct (flags_run s _ _ _ Hs Hg) as (s1 & E1 & Hs1 & Z1 & F1 & T1).
  destruct (rc_hex s1 _ _ _ ZRINIT _ Hs1 T1 Hg ltac:(done)) as (s2 & E2 & Hs2 & Z2 & F2).
  rewrite (st_bind_run _ _ s tt s2) by by rewrite (st_bind_run _ _ _ _ _ E1).
  destruct (rc_hear_bin s2 ns ZFILE [o0; o1; o2; o3] _ _ _ Hs2 Hns Hn ltac:(done) Hbo eq_refl)
    as (s3 & E3 & Hs3 & Z3 & F3 & R3 & C3).
  rewrite (st_bind_run _ _ _ _ _ E3). change (ZFILE =? ZFILE) with true. cbn iota.
  destruct (keep_run s3 _ _ _ o0 o1 o2 o3 Hs3 R3) as (s4 & E4 & Hs4 & Z4 & B4 & F4 & C4 & _).
  rewrite (st_bind_run _ _ _ _ _ E4).
  assert (Hib : Forall byte inf) by (apply info_bytes; [done | apply attributes_bytes]).
  destruct (rxbuf_run s4 inf ZCRCW inf_rest _ _ Hs4 ltac:(by rewrite C4) Hib ltac:(lia) ltac:(by repeat right))
    as (s5 & E5 & Hs5 & Z5 & F5 & B5 & _).
  rewrite (st_bind_run _ _ _ _ _ E5). change (Z.lor ZCRCW GOTOR =? GOTCRCW) with true. cbn iota.
  assert (Hname5 : fname (zf s5) = Some dir) by by rewrite Z5, Z4, Z3, Z2, Z1.
  destruct (file_info_run s5 _ _ mtime mode cnt left _ Hs5 Hname5 Hnz B5) as (s6 & fd & E6 & Hs6 & G6).
  rewrite (st_bind_run _ _ _ _ _ E6). change (negb (0 =? 0)) with false. cbn iota.
  exists s6, fd. split; [done|]. split; [done|]. destruct G6 as (G1 & G2 & G3 & G4 & G5). repeat (split; [done|]).
  by rewrite G5, F5, F4.
Qed.
(** *** The data *)

(** One frame's bytes are written and counted. *)
Lemma take_run s l w fd c t more : receiving s l w (Writing fd c) -> zfd (zf s) = fd ->
  rxbuf s = t ++ more -> Rxcount (zmod s) = Z.of_nat (length t) ->
  bytes_received (zf s) = Z.of_nat (length c) -> Z.of_nat (length (c ++ t)) < 2 ^ 32 ->
  exists s', take_data s = Ret (tt, s') /\ receiving s' l w (Writing fd (c ++ t)) /\
    bytes_received (zf s') = Z.of_nat (length (c ++ t)) /\ zfd (zf s') = fd /\
    bytes_total (zf s') = bytes_total (zf s) /\ fname (zf s') = fname (zf s) /\ zmod s' = zmod s.
Proof.
  intros [H1 H2 H3] Hfd Hbuf Hcnt Hrec Hlen. unfold take_data, zwrite_file. rewrite st_get_bind.
  rewrite Hcnt. destruct (snk_write fd c (rxbuf s) (length t) (files s) H2) as (r & f' & E & Hf').
  { rewrite Hbuf, length_app. lia. }
  rewrite Hbuf, take_app_length in Hf'.
  rewrite (st_bind_run _ _ s r (with_files s f')); [|rewrite st_get_bind, Hfd; by apply file_run].
  eexists. split; [done|]. split; [by split|]. split; [|by split].
  cbn [zf with_zf with_files bytes_received with_received]. rewrite Hrec, wrap_id; rewrite length_app in *; lia.
Qed.

Lemma frame16_length t e : (1 <= length (frame16 t e))%nat.
Proof. unfold frame16. rewrite !length_app. cbn [length]. lia. Qed.

Lemma chunks_length n t : (n < length (chunks n t))%nat.
Proof.
  revert t. induction n as [|n IH]; intros t; cbn [chunks]; [exact (frame16_length t ZCRCE)|].
  rewrite length_app. pose proof (frame16_length (take 1024 t) ZCRCG). specialize (IH (drop 1024 t)). lia.
Qed.

Lemma data_loop_run n : forall fuel s c t rest w fd, (n < fuel)%nat ->
  receiving s (chunks n t ++ rest) w (Writing fd c) -> RxCRC (zmod s) = 0 -> zfd (zf s) = fd ->
  c ++ t = b -> (length t / 1024 = n)%nat -> bytes_received (zf s) = Z.of_nat (length c) ->
  exists s', file_data_loop junk fuel s = Ret (0, s') /\ receiving s' rest w (Writing fd b) /\
    bytes_received (zf s') = Z.of_nat (length b) /\ zfd (zf s') = fd /\
    bytes_total (zf s') = bytes_total (zf s) /\ fname (zf s') = fname (zf s) /\ flags_of (zmod s') = flags_of (zmod s).
Proof.
  induction n as [|n IH]; intros fuel s c t rest w fd Hf Hs Hcrc Hfd Hct Hn Hrec;
    (destruct fuel as [|fuel]; [lia|]); cbn [file_data_loop chunks] in *.
  all: assert (Hbt : Forall byte t) by (rewrite <- Hct in Hb; by apply Forall_app in Hb as [_ ?]).
  - assert (Hsmall : (length t < 1024)%nat) by (apply Nat.div_small_iff in Hn; lia).
    destruct (rxbuf_run s t ZCRCE rest _ _ Hs Hcrc Hbt ltac:(lia) ltac:(by left)) as (s1 & E1 & Hs1 & Z1 & F1 & B1 & C1 & _).
    destruct (take_run s1 _ _ fd c t _ Hs1 ltac:(by rewrite Z1) B1 C1 ltac:(by rewrite Z1) ltac:(rewrite Hct; lia))
      as (s2 & E2 & Hs2 & G1 & G2 & G3 & G4 & G5).
    rewrite (st_bind_run _ _ _ _ _ E1). change (Z.lor ZCRCE GOTOR) with GOTCRCE.
    change (GOTCRCE =? GOTCRCW) with false. change (GOTCRCE =? GOTCRCQ) with false.
    change (GOTCRCE =? GOTCRCG) with false. change (GOTCRCE =? GOTCRCE) with true. cbn iota.
    rewrite (st_bind_run _ _ _ _ _ E2). exists s2. rewrite Hct in *. split; [done|]. split; [done|]. split; [done|].
    split; [done|]. by rewrite G3, G4, G5, F1, Z1.
  - assert (Hbig : (1024 <= length t)%nat).
    { destruct (decide (length t < 1024)%nat); [|lia]. rewrite Nat.div_small in Hn by lia. done. }
    set (t1 := take 1024 t) in *. assert (Hl1 : length t1 = 1024%nat) by (unfold t1; rewrite length_take; lia).
    rewrite <- app_assoc in Hs.
    destruct (rxbuf_run s t1 ZCRCG _ _ _ Hs Hcrc ltac:(by apply Forall_take) ltac:(lia) ltac:(by right; left))
      as (s1 & E1 & Hs1 & Z1 & F1 & B1 & C1 & R1 & _).
    assert (Hct1 : (c ++ t1) ++ drop 1024 t = b) by (rewrite <- app_assoc; unfold t1; by rewrite take_drop).
    destruct (take_run s1 _ _ fd c t1 _ Hs1 ltac:(by rewrite Z1) B1 C1 ltac:(by rewrite Z1)
      ltac:(rewrite <- Hct1, length_app in Hsize; lia)) as (s2 & E2 & Hs2 & G1 & G2 & G3 & G4 & G5).
    rewrite (st_bind_run _ _ _ _ _ E1). change (Z.lor ZCRCG GOTOR) with GOTCRCG.
    change (GOTCRCG =? GOTCRCW) with false. change (GOTCRCG =? GOTCRCQ) with false.
    change (GOTCRCG =? GOTCRCG) with true. cbn iota. rewrite (st_bind_run _ _ _ _ _ E2).
    destruct (IH fuel s2 (c ++ t1) (drop 1024 t) rest w fd) as (s' & E & Hs' & K1 & K2 & K3 & K4 & K5); try done.
    + lia.
    + by rewrite G5.
    + rewrite length_drop. replace (length t)%nat with (1 * 1024 + (length t - 1024))%nat in Hn by lia.
      rewrite Nat.div_add_l in Hn by lia. lia.
    + exists s'. split; [done|]. repeat (split; [done|]). by rewrite K3, K4, K5, G3, G4, G5, F1, Z1.
Qed.

(** *** The end of a session *)

Lemma ack_bibi_run s w st rest : receiving s (79 :: 79 :: rest) w st ->
  exists s', zrec_ack_bibi s = Ret (tt, s') /\ receiving s' rest (w ++ hex_header ZFIN (pos4 0)) st /\ zf s' = zf s.
Proof.
  intros Hs. unfold zrec_ack_bibi.
  destruct (rc_pos s _ _ _ 0 Hs) as (s1 & E1 & Hs1 & Z1 & _ & T1).
  destruct (rc_hex s1 _ _ _ ZFIN _ Hs1 T1 (pos4_bytes 0) ltac:(done)) as (s2 & E2 & Hs2 & Z2 & _).
  change (hex_trailer ZFIN) with (@nil Z) in Hs2. rewrite app_nil_r in Hs2.
  rewrite (st_bind_run _ _ _ _ _ E1). cbn [bibi_loop]. rewrite (st_bind_run _ _ _ _ _ E2).
  pose proof (rc_talk _ _ _ _ Hs2) as [H1 H2 H3 H4 H5].
  rewrite (st_bind_run _ _ _ _ _ (zm_run _ s2 _ _ (hear_run 100 (zmod s2) 79 _ H1 ltac:(done)))).
  change (79 =? 79) with true. cbn iota. set (s3 := with_zmod s2 _).
  assert (H1' : hears (zmod s3) (79 :: rest)) by (by apply (hears_line (zmod s2) (79 :: 79 :: rest))).
  rewrite (st_bind_run _ _ _ _ _ (zm_run _ s3 _ _ (hear_run 1 (zmod s3) 79 _ H1' ltac:(done)))).
  eexists. split; [done|]. split; [|cbn; by rewrite Z2].
  apply (receiving_zm s2 _ _ st _ _ _ Hs2). split; try done. by destruct H1.
Qed.

Lemma init_fin_run s ns rest w st : receiving s (ns ++ hex_header ZFIN (pos4 0) ++ 79 :: 79 :: rest) w st ->
  Forall noise ns -> Z.of_nat (length ns) < BITRATE - 1 -> good_flags (zmod s) ->
  exists s', zrec_init junk s = Ret (ZFIN, s') /\
    receiving s' rest (w ++ hex_header ZRINIT (flags_of (zmod s)) ++ [XON] ++ hex_header ZFIN (pos4 0)) st /\ zf s' = zf s.
Proof.
  intros Hs Hns Hn Hg. unfold zrec_init. rewrite turns_bind. cbn [zrec_init_loop].
  destruct (flags_run s _ _ _ Hs Hg) as (s1 & E1 & Hs1 & Z1 & F1 & T1).
  destruct (rc_hex s1 _ _ _ ZRINIT _ Hs1 T1 Hg ltac:(done)) as (s2 & E2 & Hs2 & Z2 & F2).
  rewrite (st_bind_run _ _ s tt s2) by by rewrite (st_bind_run _ _ _ _ _ E1).
  destruct (rc_hear_hex s2 ns ZFIN (pos4 0) _ _ _ Hs2 Hns Hn ltac:(done) (pos4_bytes 0) eq_refl) as (s3 & E3 & Hs3 & Z3).
  rewrite (st_bind_run _ _ _ _ _ E3). change (ZFIN =? ZFILE) with false. change (ZFIN =? ZSINIT) with false.
  change ((ZFIN =? ZRQINIT) || (ZFIN =? ZEOF)) with false. change (ZFIN =? ZCOMPL) with false.
  change (ZFIN =? ZFIN) with true. cbn iota.
  destruct (ack_bibi_run s3 _ _ _ Hs3) as (s4 & E4 & Hs4 & Z4). rewrite (st_bind_run _ _ _ _ _ E4).
  exists s4. split; [done|]. split; [|by rewrite Z4, Z3, Z2, Z1]. by rewrite <- !app_assoc in Hs4.
Qed.
Lemma rc_get_pos s l w st p : receiving s l w st -> rx_header (zmod s) = pos4 p -> 0 <= p < 2 ^ 32 ->
  exists s', zm_ (zget_pos 0) s = Ret (tt, s') /\ receiving s' l w st /\ zf s' = zf s /\
    flags_of (zmod s') = flags_of (zmod s) /\ Rxpos (zmod s') = p /\ RxCRC (zmod s') = RxCRC (zmod s).
Proof.
  intros Hs Hrx Hp. eexists. split; [by apply zm_run, (zget_pos_run _ p)|]. split; [|done].
  apply (receiving_zm _ _ _ _ _ _ _ Hs). destruct (rc_talk _ _ _ _ Hs). by split.
Qed.

(** The file's data, its end and the end of the session. *)
Lemma rec_file_run s rest w fd :
  receiving s ([XON] ++ header16 ZDATA (pos4 0) ++ data b ++ header16 ZEOF (pos4 (Z.of_nat (length b))) ++
    hex_header ZFIN (pos4 0) ++ 79 :: 79 :: rest) w (Writing fd []) ->
  zfd (zf s) = fd -> bytes_received (zf s) = 0 -> bytes_total (zf s) = Z.of_nat (length b) -> good_flags (zmod s) ->
  exists s', zrec_file junk s = Ret (ZFIN, s') /\
    receiving s' rest (w ++ hex_header ZRPOS (pos4 0) ++ [XON] ++ hex_header ZRINIT (flags_of (zmod s)) ++ [XON] ++
      hex_header ZFIN (pos4 0)) (Writing fd b) /\ zfd (zf s') = fd /\ fname (zf s') = fname (zf s).
Proof.
  intros Hs Hfd Hrec Htot Hg. unfold zrec_file. rewrite turns_bind.
  rewrite (proj2 (talk_hears _ _ _ (rc_talk _ _ _ _ Hs))). cbn [length app zrec_file_loop].
  destruct (rc_pos s _ _ _ (bytes_received (zf s)) Hs) as (s1 & E1 & Hs1 & Z1 & F1 & T1). rewrite Hrec in T1.
  destruct (rc_hex s1 _ _ _ ZRPOS _ Hs1 T1 (pos4_bytes 0) ltac:(done)) as (s2 & E2 & Hs2 & Z2 & F2).
  rewrite (st_bind_run _ _ s tt s2)
    by (rewrite (st_bind_run put_received _ s tt s1); [done | unfold put_received; by rewrite st_get_bind]).
  destruct (rc_hear_bin s2 [XON] ZDATA (pos4 0) _ _ _ Hs2 noise_XON ltac:(done) ltac:(done) (pos4_bytes 0) eq_refl)
    as (s3 & E3 & Hs3 & Z3 & F3 & R3 & C3).
  rewrite (st_bind_run _ _ _ _ _ E3). change (ZDATA =? ZDATA) with true. cbn iota zeta.
  destruct (rc_get_pos s3 _ _ _ 0 Hs3 R3 ltac:(lia)) as (s4 & E4 & Hs4 & Z4 & F4 & P4 & C4).
  rewrite (st_bind_run _ _ _ _ _ E4), st_get_bind, P4.
  assert (Hz4 : zf s4 = zf s) by by rewrite Z4, Z3, Z2, Z1.
  rewrite Hz4, Hrec. change (negb (0 =? 0)) with false. cbn iota.
  assert (Hd : (length b / 1024 < S (length (line (zmod s4))))%nat).
  { rewrite (proj2 (talk_hears _ _ _ (rc_talk _ _ _ _ Hs4))), length_app. unfold data.
    pose proof (chunks_length (length b / 1024) b). lia. }
  destruct (data_loop_run (length b / 1024) (S (length (line (zmod s4)))) s4 [] b _ _ fd Hd Hs4 ltac:(by rewrite C4)
    ltac:(by rewrite Hz4) eq_refl eq_refl ltac:(by rewrite Hz4)) as (s5 & E5 & Hs5 & G1 & G2 & G3 & G4 & G5).
  rewrite (st_bind_run (zrec_file_data junk) _ s4 0 s5) by (unfold zrec_file_data; by rewrite turns_bind).
  change (0 =? - RT_ERROR) with false. change (0 =? GOTCAN) with false. cbn iota.
  cbn [zrec_file_loop]. rewrite (st_bind_run (mret tt) _ s5 tt s5) by done.
  destruct (rc_hear_bin s5 [] ZEOF _ _ _ _ Hs5 ltac:(constructor) ltac:(done) ltac:(done) (pos4_bytes _) eq_refl)
    as (s6 & E6 & Hs6 & Z6 & F6 & R6 & _).
  rewrite (st_bind_run _ _ _ _ _ E6). change (ZEOF =? ZDATA) with false. change (ZEOF =? ZRPOS) with false.
  change (ZEOF =? ZEOF) with true. cbn iota zeta.
  destruct (rc_get_pos s6 _ _ _ _ Hs6 R6 ltac:(lia)) as (s7 & E7 & Hs7 & Z7 & F7 & P7 & _).
  rewrite (st_bind_run _ _ _ _ _ E7), st_get_bind, P7, Z7, Z6, G1, G3, Hz4, Htot, Z.eqb_refl. cbn [negb orb].
  assert (Hf7 : flags_of (zmod s7) = flags_of (zmod s)) by by rewrite F7, F6, G5, F4, F3, F2, F1.
  destruct (init_fin_run s7 [] rest _ _ Hs7 ltac:(constructor) ltac:(done) ltac:(unfold good_flags; by rewrite Hf7))
    as (s8 & E8 & Hs8 & Z8).
  exists s8. split; [done|]. rewrite Hf7, <- !app_assoc in Hs8. split; [done|].
  rewrite Z8, Z7, Z6, G2, G4. split; [done|]. by rewrite Hz4.
Qed.

(** What every session of the receiver begins with. *)
Lemma ready_run s l w : hears (zmod s) l -> sent (zmod s) = w -> snk dir name Idle (files s) -> length (rxbuf s) = 1024%nat ->
  exists s', receiving s' l w Idle /\ flags_of (zmod s') = own_flags /\ zf s' = zf s /\
    forall (A : Type) (x : A) (k : ST (session F) A),
      (_ ← zm_ zinit_parameter; ok ← file_ api_malloc;
       if negb ok then _ ← printf (str "rxbuf: out of memory" ++ [13; 10]); mret x
       else _ ← printf ([13; 10] ++ str "rz: ready..." ++ [13; 10]); k) s = k s'.
Proof.
  intros Hl Hw Hsnk Hbuf. unfold zinit_parameter.
  set (s2 := with_zmod s (mkZm (Z.lor CANFC32 (Z.lor CANFDX CANOVIO)) 0 0 0 0 0 0 (replicate 4 0) (replicate 4 0) 0 0 0
    (TxCRC (zmod s)) 0 (Attn (zmod s)) (Line_left (zmod s)) (line (zmod s)) (sent (zmod s)) (says (zmod s)))).
  destruct (snk_malloc (files s2) Hsnk) as (f3 & E3 & Hf3). set (s3 := with_files s2 f3).
  exists (with_zmod s3 (with_says (zmod s3) (says (zmod s3) ++ [13; 10] ++ str "rz: ready..." ++ [13; 10]))).
  split; [split; try done; by split|]. do 2 (split; [done|]). intros A x k.
  rewrite (st_bind_run (zm_ (modify _)) _ s tt s2 eq_refl), (st_bind_run _ _ _ _ _ (file_run _ s2 _ _ E3)). cbn [negb].
  by rewrite (st_bind_run (printf _) _ s3 tt _ eq_refl).
Qed.

(** All files of a session, where there is one. *)
Lemma rec_files_run s ns w opts mtime mode cnt left rest :
  hears (zmod s) (ns ++ transfer opts name (attributes (Z.of_nat (length b)) mtime mode cnt left) b ++ rest) ->
  Forall noise ns -> Z.of_nat (length ns) < BITRATE - 1 ->
  sent (zmod s) = w -> snk dir name Idle (files s) -> length (rxbuf s) = 1024%nat -> fname (zf s) = Some dir ->
  Forall byte opts -> length opts = 4%nat -> Forall byte name -> Forall (fun c => c <> 0) name ->
  (length name <= 900)%nat ->
  exists s' fd, zrec_files junk s = Ret (0, s') /\
    receiving s' rest (w ++ answers own_flags (0 :: tail opts)) (Writing fd b) /\
    zfd (zf s') = fd /\ fname (zf s') = Some (dir ++ [47] ++ name).
Proof.
  intros Hl Hns Hn Hw Hsnk Hbuf Hdir Hbo Hlo Hnb Hnz Hnl. unfold zrec_files.
  destruct (ready_run s _ w Hl Hw Hsnk Hbuf) as (s4 & Hs4 & Hf4 & Hz4 & ->).
  unfold transfer in Hs4. rewrite <- !app_assoc in Hs4. cbn [app] in Hs4.
  assert (Hil : (length (info name (attributes (Z.of_nat (length b)) mtime mode cnt left)) <= 1024)%nat).
  { unfold info. rewrite !length_app. cbn [length]. pose proof (attributes_length (Z.of_nat (length b)) mtime mode cnt left). lia. }
  assert (Hg4 : good_flags (zmod s4)) by (unfold good_flags; rewrite Hf4; exact own_flags_bytes).
  assert (Hd4 : fname (zf s4) = Some dir) by by rewrite Hz4.
  destruct (init_file_run s4 ns opts _ w mtime mode cnt left Hs4 Hns Hn Hg4 Hd4 Hbo Hlo Hnb Hnz Hil)
    as (s5 & fd & E5 & Hs5 & G1 & G2 & G3 & G4 & G5).
  assert (Hg5 : good_flags (zmod s5)).
  { unfold good_flags. rewrite G5. destruct opts; [done|]. inversion Hbo; subst. by constructor. }
  rewrite (st_bind_run _ _ _ _ _ E5). change (negb (0 =? 0)) with false. cbn iota.
  destruct (rec_file_run s5 rest _ fd Hs5 G1 G2 G3 Hg5) as (s6 & E6 & Hs6 & K1 & K2).
  rewrite (st_bind_run _ _ _ _ _ E6). change (ZFIN =? ZFIN) with true. cbn iota.
  destruct (snk_free (Writing fd b) (files s6) (rc_snk _ _ _ _ Hs6)) as (f7 & E7 & Hf7).
  exists (with_files s6 f7), fd. split; [by rewrite (st_bind_run _ _ _ _ _ (file_run _ s6 _ _ E7))|].
  split; [|split; [done | cbn; by rewrite K2, G4]].
  apply (receiving_files s6 _ _ (Writing fd b)); [|done]. rewrite G5, Hf4, <- !app_assoc in Hs6. exact Hs6.
Qed.

(** [zr_start] on the transfer of one file. *)
Lemma rz_run s ns junk_buf w opts mtime mode cnt left rest :
  hears (zmod s) (ns ++ transfer opts name (attributes (Z.of_nat (length b)) mtime mode cnt left) b ++ rest) ->
  Forall noise ns -> Z.of_nat (length ns) < BITRATE - 1 ->
  sent (zmod s) = w -> snk dir name Idle (files s) -> length junk_buf = 1024%nat ->
  Forall byte opts -> length opts = 4%nat -> Forall byte name -> Forall (fun c => c <> 0) name ->
  (length name <= 900)%nat ->
  exists s', zr_start junk junk_buf (Some dir) s = Ret (tt, s') /\ snk dir name (Done b) (files s') /\
    sent (zmod s') = w ++ answers own_flags (0 :: tail opts).
Proof.
  intros Hl Hns Hn Hw Hsnk Hbuf Hbo Hlo Hnb Hnz Hnl. unfold zr_start.
  destruct (snk_malloc (files s) Hsnk) as (f1 & E1 & Hf1).
  rewrite (st_bind_run _ _ _ _ _ (file_run _ s _ _ E1)). cbn [negb]. rewrite st_modify_bind.
  rewrite (st_bind_run (zf_ _) _ _ tt _ eq_refl). set (s1 := with_zf _ _).
  destruct (rec_files_run s1 ns w opts mtime mode cnt left rest Hl Hns Hn Hw Hf1 Hbuf eq_refl Hbo Hlo Hnb Hnz Hnl)
    as (s7 & fd & E7 & [H7 Hf7 _] & K1 & K2).
  rewrite (st_bind_run _ _ _ _ _ E7).
  rewrite (st_bind_run name_of _ s7 (dir ++ [47] ++ name) s7) by (unfold name_of; by rewrite st_get_bind, K2).
  rewrite st_get_bind, (st_bind_run (printf _) _ s7 tt _ eq_refl). set (s8 := with_zmod s7 _).
  change (0 =? 0) with true. cbn iota.
  set (s9 := with_zmod s8 (with_says (zmod s8) (says (zmod s8) ++ str "size: " ++ decimal (bytes_received (zf s7)) ++ str " bytes" ++ [13; 10]))).
  set (s10 := with_zmod s9 (with_says (zmod s9) (says (zmod s9) ++ str "receive completed." ++ [13; 10]))).
  destruct (snk_close fd b (files s10) Hf7) as (r11 & f11 & E11 & Hf11). set (s11 := with_files s10 f11).
  destruct (snk_free (Done b) (files s11) Hf11) as (f12 & E12 & Hf12). set (s12 := with_files s11 f12).
  destruct (snk_free (Done b) (files s12) Hf12) as (f13 & E13 & Hf13).
  rewrite (st_bind_run _ _ s8 tt s12).
  2:{ rewrite (st_bind_run (printf _) _ s8 tt s9 eq_refl), (st_bind_run (printf _) _ s9 tt s10 eq_refl), K1.
      rewrite (st_bind_run _ _ _ _ _ (file_run _ s10 _ _ E11)). by apply file_run. }
  rewrite (st_bind_run _ _ _ _ _ (file_run _ s12 _ _ E13)). eexists. split; [done|]. split; [done|].
  exact (talk_sent _ _ _ H7).
Qed.
End receiver.
