(* ===== verification/ZExchange.v ===== *)
(** * File transfer over the console: the theorems

    Frames and their checks, a file that goes from one end to the other, and what a
    receiver makes of the frames that it has announced itself.  [Disk] is a device
    with one file, on which both ends run. *)

From S2P Require Import Prelude Dfs Zmodem ZCrc ZFrames ZTransfer ZSession ZReceive.

#[local] Opaque add16 add16s add32.

(** ** Frames *)

(** C34: The tables of crc.h divide: the check that closes a header or a frame is the
    remainder of its bytes by x^16 + x^12 + x^5 + 1, the 32 bit check the reflected
    CRC-32 of its bytes. *)
Theorem zmodem_crc bs : Forall byte bs ->
  check16 (foldl (fun c b => add16s b c) 0 bs) = remainder16 bs /\
  u32 (Z.lnot (foldl (fun c b => add32 b c) 0xffffffff bs)) = reflected32 bs.
Proof. intros H. by rewrite remainder16_eq, reflected32_eq. Qed.

Lemma zmodem_crc_witness :
  Forall byte (str "123456789") /\
  check16 (foldl (fun c b => add16s b c) 0 (str "123456789")) = 0x31C3 /\
  u32 (Z.lnot (foldl (fun c b => add32 b c) 0xffffffff (str "123456789"))) = 0xCBF43926.
Proof.
  assert (H : Forall byte (str "123456789")) by (by repeat constructor).
  destruct (zmodem_crc _ H) as [-> ->]. split; [done | by vm_compute].
Defined.

(** What a receiver has that waits for a header and then for data. *)
Definition get_frame (junk : Z) (buf : list Z) (len : Z) : ST zm (Z * Z * list Z) :=
  type ← zget_header junk;
  '(e, buf) ← zget_data junk buf len;
  mret (type, e, buf).

Definition send_frame (type : Z) (hdr buf : list Z) (len e : Z) : ST zm unit :=
  _ ← zsend_bin_header type hdr; zsend_bin_data buf len e.

(** C18: A binary header and the data after it are read as they were sent, whatever bytes
    they hold and whatever noise is before them. *)
Theorem zmodem_frame_roundtrip s type hdr buf len e :
  Txfcs32 s = 0 -> byte type -> Forall byte hdr -> length hdr = 4%nat ->
  0 <= len <= 1024 -> len <= Z.of_nat (length buf) -> Forall byte (take (Z.to_nat len) buf) -> ends e -> sent s = [] ->
  exists s', send_frame type hdr buf len e s = Ret (tt, s') /\
    forall r junk ns rbuf rest, Forall noise ns -> Z.of_nat (length ns) < BITRATE - 1 ->
      length (rx_header r) = 4%nat -> length rbuf = 1024%nat -> hears r (ns ++ sent s' ++ rest) ->
      exists r', get_frame junk rbuf RX_BUFFER_SIZE r =
          Ret ((type, Z.lor e GOTOR, take (Z.to_nat len) buf ++ drop (Z.to_nat len) rbuf), r') /\
        rx_header r' = hdr /\ Rxcount r' = len /\ hears r' (trailer e ++ rest).
Proof.
  intros Hf Ht Hh Hl Hlen Hlb Hb He Hs. unfold send_frame, get_frame.
  set (bs := take _ _) in *. assert (Hbs : length bs = Z.to_nat len) by (unfold bs; rewrite length_take; lia).
  rewrite (st_bind_run _ _ _ _ _ (send_header16 type hdr s Hf Ht Hh Hl)). set (s1 := with_TxCRC _ 0).
  pose proof (send_data16 s1 buf len e eq_refl ltac:(lia) Hb He) as E. fold bs in E. rewrite E. eexists. split; [done|].
  cbn [sent to_send with_sent s1 with_TxCRC]. intros r junk ns rbuf rest Hns Hn Hrx Hrb.
  rewrite Hs, app_nil_l, <- !app_assoc. intros H.
  assert (E1 := get_header16 junk r ns type hdr _ Hns Hn Ht Hh Hl Hrx H). rewrite (st_bind_run _ _ _ _ _ E1).
  set (r1 := gotten _ _ _ _ _ _). assert (H1 : hears r1 (frame16 bs e ++ trailer e ++ rest)) by (by destruct H).
  assert (E2 := get_data16 junk r1 bs e rbuf RX_BUFFER_SIZE _ eq_refl H1 Hb He
    ltac:(unfold RX_BUFFER_SIZE; lia) ltac:(lia) ltac:(lia)).
  rewrite (st_bind_run _ _ _ _ _ E2). eexists. rewrite <- Hbs. split; [done|]. split; [done|].
  split; [cbn; lia|]. by destruct H.
Qed.

Definition quiet : zm :=
  mkZm 0 0 0 0 0 0 0 (replicate 4 0) (replicate 4 0) 0 0 0 0 0 (replicate 33 0) 0 [] [] [].

Lemma zmodem_frame_roundtrip_witness :
  exists s', send_frame ZDATA [1; 24; 0; 255] [17; 65; 24; 255; 145] 5 ZCRCW quiet = Ret (tt, s') /\
    exists r', get_frame 7 (replicate 1024 0) RX_BUFFER_SIZE (with_line quiet ([13; 10] ++ sent s' ++ [79])) =
      Ret ((ZDATA, GOTCRCW, [17; 65; 24; 255; 145] ++ replicate 1019 0), r') /\
    rx_header r' = [1; 24; 0; 255] /\ Rxcount r' = 5 /\ hears r' [XON; 79].
Proof.
  destruct (zmodem_frame_roundtrip quiet ZDATA [1; 24; 0; 255] [17; 65; 24; 255; 145] 5 ZCRCW) as (s' & E & H);
    [done | done | by repeat constructor | done | done | done | by repeat constructor | by repeat right | done|].
  exists s'. split; [done|].
  destruct (H (with_line quiet ([13; 10] ++ sent s' ++ [79])) 7 [13; 10] (replicate 1024 0) [79]) as (r' & E' & H');
    [by repeat constructor | done | done | by rewrite length_replicate | by split|].
  exists r'. split; [exact E' | exact H'].
Defined.

(** C23: Where one or two neighbouring bytes of a frame have changed, its check fails. *)
Theorem zmodem_damage junk s pre x y x' y' post e buf rest :
  let bs := pre ++ [x; y] ++ post in
  let bs' := pre ++ [x'; y'] ++ post in
  RxCRC s = 0 -> hears s (encs bs' ++ [ZDLE; e] ++ encs (ck16 (crc16 (bs ++ [e]))) ++ rest) ->
  Forall byte bs -> Forall byte bs' -> ends e -> (length bs <= 1024)%nat -> length buf = 1024%nat ->
  (x, y) <> (x', y') ->
  exists buf' s', zget_data junk buf RX_BUFFER_SIZE s = Ret ((- RT_ERROR, buf'), s') /\ hears s' rest.
Proof.
  intros bs bs' Hr [H0 Hl] Hbs Hbs' He Hn Hbuf Hne. unfold zget_data. rewrite st_get_bind, Hr. cbn [Z.eqb].
  unfold zrec_data16. rewrite st_modify_bind, st_get_bind. set (ck := ck16 _) in *.
  assert (Hlen : length bs' = length bs) by (unfold bs, bs'; by rewrite !length_app).
  assert (Hck : Forall byte ck) by apply ck16_bytes.
  eexists _, _. rewrite (rec_data _ _ _ _ _ _ [] buf bs' 0 e ck _ rest); try done.
  - unfold verdict, told. replace (Z.land _ 65535 =? 0) with false; [split; [done | by split]|].
    symmetry. apply Z.eqb_neq. change 65535 with (Z.ones 16). rewrite Z.land_ones, Z.mod_small by (apply crc16_range || lia).
    pose proof (residue16_frame bs e) as R. fold ck in R. intros E0. pose proof (eq_trans E0 (eq_sym R)) as E.
    unfold bs, bs' in E. rewrite <- !app_assoc, !(foldl_app _ pre) in E. cbn [app foldl] in E.
    assert (Hpost : Forall byte (post ++ e :: ck)).
    { unfold bs in Hbs. rewrite !Forall_app in Hbs. apply Forall_app. split; [apply Hbs|].
      constructor; [by destruct (ends_got e He) as (_ & _ & _ & ?) | done]. }
    apply add16s_fold_inj in E; [|done|apply add16s_range..].
    unfold bs, bs' in Hbs, Hbs'. rewrite !Forall_app, !Forall_cons in Hbs, Hbs'.
    apply add16s_pair_inj in E as [-> ->]; [done|apply crc16_range|tauto..].
  - change (Z.of_nat (length (@nil Z) + length bs') <= RX_BUFFER_SIZE). rewrite Hlen. unfold RX_BUFFER_SIZE. cbn [length]. lia.
  - rewrite Hlen. lia.
  - change (line (with_Rxcount s 0)) with (line s). rewrite Hl, !length_app. cbn [length app].
    pose proof (encs_length bs'). pose proof (encs_length ck). change (length ck) with 2%nat in *. lia.
Qed.

Lemma zmodem_damage_witness :
  let l := encs (str "Xero wind") ++ [ZDLE; ZCRCE] ++ encs (ck16 (crc16 (str "zero wind" ++ [ZCRCE]))) in
  exists buf' s', zget_data 0 (replicate 1024 0) RX_BUFFER_SIZE (with_line quiet (l ++ [])) = Ret ((- RT_ERROR, buf'), s') /\
    hears s' [].
Proof.
  intros l. apply (zmodem_damage 0 (with_line quiet (l ++ [])) [] 122 101 88 101 (str "ro wind") ZCRCE (replicate 1024 0) []).
  - done.
  - by split.
  - by repeat constructor.
  - by repeat constructor.
  - by left.
  - cbn. lia.
  - by rewrite length_replicate.
  - done.
Defined.

(** ** A file goes over *)

Record plain_name (name : list Z) : Prop := {
  pn_bytes : Forall byte name;
  pn_text : Forall (fun c => c <> 0) name;
  pn_some : name <> [];
  pn_short : (length name <= 64)%nat }.

Section exchange.
Context {F1 F2 : Type} {api1 : FileApi F1} {api2 : FileApi F2} (path dir name b : list Z).
Context {source : Source (F := F1) path b} {sink : Sink (F := F2) dir name} (junk1 junk2 : zm -> Z).
Hypothesis Hb : Forall byte b.
Hypothesis Hsize : Z.of_nat (length b) < 2 ^ 31.
Hypothesis Hbase : base_name path = name.
Hypothesis Hname : plain_name name.

(** C9: [sz] of a file to [rz]: the sender completes; a receiver that hears what it said,
    after noise such as the sender's prompt, completes, the new file then holds the bytes of the old, and what the receiver
    said is what the sender was told, but for the first flags: those the sender was
    given do not ask for the 32 bit check, those the receiver announces do. *)
Theorem zmodem_transfer (s1 : session F1) blocks pre f f' rest :
  (length b / 1024 < blocks)%nat ->
  idle path b s1 (pre ++ answers f f' ++ rest) [] -> Forall (fun c => byte c /\ c <> ZPAD) pre ->
  plain_flags f -> Forall byte f' -> length f' = 4%nat ->
  exists s1', zs_start junk1 blocks (Some path) s1 = Ret (tt, s1') /\ src path b None (files s1') /\ hears (zmod s1') rest /\
    forall (s2 : session F2) ns junk_buf rest', Forall noise ns -> Z.of_nat (length ns) < BITRATE - 1 ->
      snk dir name ZReceive.Idle (files s2) -> length junk_buf = 1024%nat -> sent (zmod s2) = [] ->
      hears (zmod s2) (ns ++ sent (zmod s1') ++ rest') ->
      exists s2', zr_start junk2 junk_buf (Some dir) s2 = Ret (tt, s2') /\ snk dir name (Done b) (files s2') /\
        sent (zmod s2') = answers own_flags own_flags.
Proof.
  intros Hblocks Hs1 Hpre Hf Hf' Hlf'. destruct Hname as [Hnb Hnz Hne Hnl].
  destruct (sz_run path b junk1 Hb Hsize blocks s1 pre f f' rest [] name Hs1 Hpre Hf Hf' Hlf' Hbase Hnb Hnz Hne Hnl Hblocks)
    as (s1' & mtime & mode & E1 & Hl1 & Hw1 & Hsrc).
  exists s1'. split; [done|]. split; [done|]. split; [done|]. intros s2 ns junk_buf rest' Hns Hn Hsnk Hj Hw2 Hl2. rewrite Hw1 in Hl2.
  destruct (rz_run dir name b junk2 Hb Hsize s2 ns junk_buf [] own_flags mtime mode (u8 (file_cnt s1 + 1))
    (u32 (Left_sizes s1 + Z.of_nat (length b))) rest' Hl2 Hns Hn Hw2 Hsnk Hj
    own_flags_bytes eq_refl Hnb Hnz ltac:(lia)) as (s2' & E2 & Hd & Hw).
  by exists s2'.
Qed.
End exchange.

(** *** A device with one file *)

Module Disk.
Record disk := mkDisk { contents : list Z; is_dir : bool; cursor : nat }.

Definition open (path : list Z) (flags : Z) : ST disk Z :=
  d ← get;
  _ ← put (mkDisk (if Z.land flags O_CREAT =? 0 then contents d else []) (negb (Z.land flags O_DIRECTORY =? 0)) 0);
  mret 0.
Definition read (fd : Z) (buf : list Z) (len : Z) : ST disk (Z * list Z) :=
  d ← get;
  let t := take (Z.to_nat len) (drop (cursor d) (contents d)) in
  _ ← put (mkDisk (contents d) (is_dir d) (cursor d + length t));
  mret (Z.of_nat (length t), t ++ drop (length t) buf).
Definition write (fd : Z) (buf : list Z) (len : Z) : ST disk Z :=
  d ← get; _ ← put (mkDisk (contents d ++ take (Z.to_nat len) buf) (is_dir d) (cursor d)); mret len.
Definition fstat (fd : Z) (st : stat_buf) : ST disk (Z * stat_buf) :=
  d ← get; mret (0, mkStat 0 (if is_dir d then S_IFDIR else S_IFREG) (Z.of_nat (length (contents d))) 0 512).
End Disk.

#[export] Instance disk_files : FileApi Disk.disk := {|
  api_open := Disk.open; api_close _ := mret 0; api_read := Disk.read; api_write := Disk.write;
  api_lseek _ _ _ := mret 0; api_fstat := Disk.fstat; api_unlink _ := mret 0;
  api_malloc := mret true; api_free := mret tt |}.

Definition disk_reads (b : list Z) (st : option (Z * nat)) (d : Disk.disk) : Prop :=
  Disk.contents d = b /\ match st with None => True | Some (_, pos) => Disk.cursor d = pos end.

Definition disk_writes (st : sink_state) (d : Disk.disk) : Prop :=
  match st with
  | Idle => True
  | Dir _ => Disk.is_dir d = true
  | Writing _ c | Done c => Disk.contents d = c
  end.

#[export] Instance disk_source path b : Source path b.
Proof.
  refine {| src := disk_reads b |}; [eauto..| | | |]; intros *.
  - intros [H _]. by eexists 0, _.
  - intros [H1 H2]. eexists 0, _, f. split; [done|]. split; [cbn; by rewrite H1 | done].
  - intros [H1 H2] _ _. cbn in H2. exists (Disk.mkDisk (Disk.contents f) (Disk.is_dir f) (pos + length (take n (drop pos b)))).
    split; [|split; [exact H1 | reflexivity]]. cbn. unfold Disk.read. unfold_st. by rewrite Nat2Z.id, H1, H2.
  - intros [H1 H2]. by exists 0, f.
Defined.

#[export] Instance disk_sink dir name : Sink dir name.
Proof.
  refine {| snk := disk_writes |}; [eauto..| | | | | |]; intros *; cbn [disk_writes]; intros H.
  - by eexists 0, _.
  - eexists 0, _, f. split; [done|]. split; [cbn; by rewrite H | done].
  - by exists 0, f.
  - by eexists 0, _.
  - intros _. eexists _, _. split; [done|]. cbn. by rewrite H, Nat2Z.id.
  - by exists 0, f.
Defined.

Definition session_on (d : Disk.disk) (l : list Z) : session Disk.disk :=
  mkSession (with_line quiet l) d no_zfile [] (replicate 1024 0) 0 0 0 0 (Some (0x43, 7)).

Lemma zmodem_transfer_witness :
  let b := str "a file, " ++ [24; 17; 0; 255] in
  let line1 := [13; 10] ++ answers [0; 0; 0; 3] own_flags in
  exists s1', zs_start (fun _ => 0) 1 (Some (str "/dir/name")) (session_on (Disk.mkDisk b false 0) line1) = Ret (tt, s1') /\
    exists s2', zr_start (fun _ => 0) (replicate 1024 9) (Some (str "/in")) (session_on (Disk.mkDisk [] false 0)
        (([13; 10] ++ str "sz: ready..." ++ [13; 10]) ++ sent (zmod s1'))) =
      Ret (tt, s2') /\ Disk.contents (files s2') = b.
Proof.
  intros b line1.
  destruct (zmodem_transfer (str "/dir/name") (str "/in") (str "name") b (fun _ => 0) (fun _ => 0)) with
    (s1 := session_on (Disk.mkDisk b false 0) line1) (blocks := 1%nat) (pre := [13; 10]) (f := [0; 0; 0; 3])
    (f' := own_flags) (rest := @nil Z) as (s1' & E1 & _ & _ & H).
  - by repeat constructor.
  - done.
  - done.
  - split; [by repeat constructor | by repeat constructor | done | cbn; lia].
  - cbn. lia.
  - split; [by split; [|unfold line1; rewrite app_nil_r] | done | by split | exact (length_replicate 1024 0) | done].
  - by repeat constructor.
  - by exists 0, 0, 0, 3; repeat split; repeat constructor.
  - by repeat constructor.
  - done.
  - exists s1'. split; [exact E1|].
    set (ns := [13; 10] ++ str "sz: ready..." ++ [13; 10]).
    destruct (H (session_on (Disk.mkDisk [] false 0) (ns ++ sent (zmod s1'))) ns (replicate 1024 9) []) as (s2' & E2 & H2 & _).
    + by repeat constructor.
    + done.
    + done.
    + by rewrite length_replicate.
    + done.
    + by split; [|rewrite app_nil_r].
    + exists s2'. split; [exact E2 | exact H2].
Defined.

(** ** What a receiver announces *)

(** A file offered [n] times with the 32 bit check. *)
Fixpoint offers (n : nat) (opts inf : list Z) : list Z :=
  match n with
  | O => []
  | S n => header32 ZFILE opts ++ frame32 inf ZCRCW ++ [XON] ++ offers n opts inf
  end.
Definition refusals (n : nat) : list Z := mjoin (replicate n (hex_header ZNAK own_flags ++ [XON])).

Section refusal.
Context {F : Type} {api : FileApi F} (dir name : list Z) {sink : Sink dir name} (junk : zm -> Z).
Implicit Types s : session F.

(** A receiver between two offers. *)
Record refusing (s : session F) (l w : list Z) : Prop := {
  rf_receiving : receiving dir name s l w Idle;
  rf_header : tx_header (zmod s) = own_flags }.

Lemma rf_hear s ns type h rest w : refusing s (ns ++ header32 type h ++ rest) w ->
  Forall noise ns -> Z.of_nat (length ns) < BITRATE - 1 -> byte type -> Forall byte h -> length h = 4%nat ->
  exists s', get_header junk s = Ret (type, s') /\ refusing s' rest w /\
    rx_header (zmod s') = h /\ RxCRC (zmod s') = 1.
Proof.
  intros [[[H1 H2 H3 H4 H5] G1 G2] G3] Hns Hn Ht Hh Hl.
  assert (E := get_header32 (junk (zmod s)) (zmod s) ns type h rest Hns Hn Ht Hh Hl H3 H1).
  eexists. split; [apply (zm_run (z ← get; zget_header (junk z)) s _ _ E)|]. split; [|by split].
  split; [split; [split; try done; by destruct H1 | done | done] | done].
Qed.

Lemma rf_data s t e rest w : refusing s (frame32 t e ++ rest) w -> RxCRC (zmod s) = 1 ->
  Forall byte t -> (length t <= 1024)%nat -> ends e -> (forall z, Z.of_nat (length t) <= junk z + RX_BUFFER_SIZE) ->
  exists s', get_rxbuf junk s = Ret (- RT_ERROR, s') /\ refusing s' rest w.
Proof.
  intros [[[H1 H2 H3 H4 H5] G1 G2] G3] Hcrc Ht Hl He Hj. unfold get_rxbuf. rewrite st_get_bind.
  assert (E := get_data32 (junk (zmod s)) (zmod s) t e (rxbuf s) RX_BUFFER_SIZE rest Hcrc H1 Ht He (Hj _) ltac:(lia) ltac:(lia)).
  rewrite (st_bind_run (get_data junk (rxbuf s) RX_BUFFER_SIZE) _ s _ _
    (zm_run (z ← get; zget_data (junk z) (rxbuf s) RX_BUFFER_SIZE) s _ _ E)), st_modify_bind.
  eexists. split; [done|]. split; [|done]. split; [|done|].
  - split; try done. by destruct H1.
  - cbn. rewrite length_app, length_drop. lia.
Qed.

Lemma rf_hex s l w type : refusing s l w -> byte type ->
  exists s', tx_hex type s = Ret (tt, s') /\ refusing s' l (w ++ hex_header type own_flags ++ hex_trailer type).
Proof.
  intros [Hs Hh] Ht.
  destruct (talk_hex (zmod s) l w type own_flags (rc_talk _ _ _ _ _ _ Hs) Hh own_flags_bytes Ht) as (z' & E & Ez & Hz).
  exists (with_zmod s z'). split; [by apply zm_run|].
  split; [by apply (receiving_zm _ _ _ _ _ _ _ _ _ Hs)|]. by rewrite Ez.
Qed.

Section file.
Context (opts inf : list Z).
Hypothesis Hopts : Forall byte opts.
Hypothesis Hopts4 : length opts = 4%nat.
Hypothesis Hinf : Forall byte inf.
Hypothesis Hinfl : (length inf <= 1024)%nat.
Hypothesis Hjunk : forall z, Z.of_nat (length inf) <= junk z + RX_BUFFER_SIZE.

Lemma refuse_run s fuel ns rest w err_cnt : Forall noise ns -> Z.of_nat (length ns) < BITRATE - 1 ->
  refusing s (ns ++ header32 ZFILE opts ++ frame32 inf ZCRCW ++ rest) w ->
  exists s', zrec_init_loop junk (S fuel) false err_cnt s = zrec_init_loop junk fuel false err_cnt s' /\
    refusing s' rest (w ++ hex_header ZNAK own_flags ++ [XON]).
Proof.
  intros Hns Hn Hs. cbn [zrec_init_loop]. rewrite st_ret_bind.
  destruct (rf_hear s ns ZFILE opts _ w Hs Hns Hn ltac:(done) Hopts Hopts4) as (s1 & E1 & [Hs1 T1] & R1 & C1).
  rewrite (st_bind_run _ _ _ _ _ E1). change (ZFILE =? ZFILE) with true. cbn iota.
  assert (Ho : exists o0 o1 o2 o3, opts = [o0; o1; o2; o3]) by (destruct opts as [|o0 [|o1 [|o2 [|o3 []]]]]; eauto; done).
  destruct Ho as (o0 & o1 & o2 & o3 & Eo). rewrite Eo in R1.
  destruct (keep_run dir name s1 _ _ _ o0 o1 o2 o3 Hs1 R1) as (s2 & E2 & Hs2 & _ & _ & _ & C2 & T2).
  rewrite (st_bind_run _ _ _ _ _ E2).
  destruct (rf_data s2 inf ZCRCW rest w ltac:(split; [done | by rewrite T2]) ltac:(by rewrite C2) Hinf Hinfl
    ltac:(by repeat right) Hjunk) as (s3 & E3 & Hs3).
  rewrite (st_bind_run _ _ _ _ _ E3). change (- RT_ERROR =? GOTCRCW) with false. cbn iota.
  destruct (rf_hex s3 rest w ZNAK Hs3 ltac:(done)) as (s4 & E4 & Hs4).
  exists s4. split; [by rewrite (st_bind_run _ _ _ _ _ E4) | exact Hs4].
Qed.

Lemma refuse_all n : forall s fuel ns rest w err_cnt, Forall noise ns -> Z.of_nat (length ns) < BITRATE - 1 ->
  refusing s (ns ++ offers n opts inf ++ hex_header ZFIN (pos4 0) ++ 79 :: 79 :: rest) w -> (n < fuel)%nat ->
  exists s', zrec_init_loop junk fuel false err_cnt s = Ret (ZFIN, s') /\
    receiving dir name s' rest (w ++ refusals n ++ hex_header ZFIN (pos4 0)) Idle.
Proof.
  induction n as [|n IH]; intros s fuel ns rest w err_cnt Hns Hn Hs Hf; (destruct fuel as [|fuel]; [lia|]).
  - cbn [offers app] in Hs. cbn [zrec_init_loop]. rewrite st_ret_bind.
    destruct (rc_hear_hex dir name junk s ns ZFIN (pos4 0) _ _ _ (rf_receiving _ _ _ Hs) Hns Hn ltac:(done) (pos4_bytes 0) eq_refl)
      as (s3 & E3 & Hs3 & _).
    rewrite (st_bind_run _ _ _ _ _ E3). change (ZFIN =? ZFILE) with false. change (ZFIN =? ZSINIT) with false.
    change ((ZFIN =? ZRQINIT) || (ZFIN =? ZEOF)) with false. change (ZFIN =? ZCOMPL) with false.
    change (ZFIN =? ZFIN) with true. cbn iota.
    destruct (ack_bibi_run dir name s3 _ _ _ Hs3) as (s4 & E4 & Hs4 & _). rewrite (st_bind_run _ _ _ _ _ E4).
    by exists s4.
  - cbn [offers] in Hs. rewrite <- !app_assoc in Hs.
    destruct (refuse_run s fuel ns _ w err_cnt Hns Hn Hs) as (s1 & -> & Hs1).
    destruct (IH s1 fuel [XON] rest _ err_cnt noise_XON ltac:(done) Hs1 ltac:(lia)) as (s2 & -> & Hs2).
    exists s2. split; [done|]. unfold refusals. cbn [replicate]. rewrite <- !app_assoc in *. exact Hs2.
Qed.
End file.

Lemma offers_length n opts inf : (n <= length (offers n opts inf))%nat.
Proof. induction n as [|n IH]; [done|]. cbn [offers]. rewrite !length_app. cbn [length]. lia. Qed.

(** C25: A receiver announces that it can check with 32 bits (against the comment at
    zcore.c:63, that CANFC32 is not chosen), and refuses every file that is offered
    so, intact as it is: each offer is answered with [ZNAK], and when the sender
    gives up the session has failed with no file made.
    The hypothesis on [junk] is about a second defect: zrec_data32 compares with
    [p + len] and never assigns [p] (zcore.c:340).  [junk z] is where the unset
    pointer lies, from the start of the buffer, and the session is followed for the
    pointers that leave room to read each offered block to its end, as the assigned
    pointer of zrec_data16 would.  For any other pointer the block is refused as
    well ([data32_refused]), but only in part taken off the line. *)
Theorem zmodem_refuses_crc32 s n opts inf rest :
  Forall byte opts -> length opts = 4%nat -> Forall byte inf -> (length inf <= 1024)%nat ->
  (forall z, Z.of_nat (length inf) <= junk z + RX_BUFFER_SIZE) ->
  hears (zmod s) (offers n opts inf ++ hex_header ZFIN (pos4 0) ++ 79 :: 79 :: rest) ->
  sent (zmod s) = [] -> snk dir name Idle (files s) -> length (rxbuf s) = 1024%nat ->
  exists s', zrec_files junk s = Ret (- RT_ERROR, s') /\ snk dir name Idle (files s') /\
    sent (zmod s') = hex_header ZRINIT own_flags ++ [XON] ++ refusals n ++ hex_header ZFIN (pos4 0).
Proof.
  intros Hbo Hlo Hbi Hli Hj Hl Hw Hsnk Hbuf. unfold zrec_files.
  destruct (ready_run dir name s _ [] Hl Hw Hsnk Hbuf) as (s4 & Hs4 & Hf4 & _ & ->).
  assert (Hg : good_flags (zmod s4)) by (unfold good_flags; rewrite Hf4; exact own_flags_bytes).
  assert (Hlen := proj2 (talk_hears _ _ _ (rc_talk _ _ _ _ _ _ Hs4))).
  destruct (flags_run dir name s4 _ _ _ Hs4 Hg) as (s5 & E5 & Hs5 & _ & _ & T5). rewrite Hf4 in T5.
  destruct (rf_hex s5 _ _ ZRINIT (Build_refusing _ _ _ Hs5 T5) ltac:(done)) as (s6 & E6 & Hs6).
  destruct (refuse_all opts inf Hbo Hlo Hbi Hli Hj n s6 (S (length (line (zmod s4)))) [] rest _ 0 ltac:(constructor) ltac:(done) Hs6)
    as (s7 & E7 & Hs7); [rewrite Hlen, length_app; pose proof (offers_length n opts inf); lia|].
  rewrite (st_bind_run (zrec_init junk) _ s4 ZFIN s7).
  2:{ unfold zrec_init. rewrite turns_bind. rewrite <- E7. cbn [zrec_init_loop].
      rewrite (st_bind_run _ _ s4 tt s6) by by rewrite (st_bind_run _ _ _ _ _ E5). by rewrite st_ret_bind. }
  change (negb (ZFIN =? 0)) with true. cbn iota. rewrite (st_bind_run (printf _) _ s7 tt _ eq_refl).
  set (s8 := with_zmod s7 _). destruct (snk_free Idle (files s8) (rc_snk _ _ _ _ _ _ Hs7)) as (f9 & E9 & Hf9).
  rewrite (st_bind_run _ _ _ _ _ (file_run _ s8 _ _ E9)). exists (with_files s8 f9). split; [done|]. split; [done|].
  cbn [zmod with_files with_zmod s8]. pose proof (talk_sent _ _ _ (rc_talk _ _ _ _ _ _ Hs7)) as Hw7. rewrite <- !app_assoc in Hw7.
  exact Hw7.
Qed.
End refusal.

Lemma zmodem_refuses_crc32_witness :
  let l := offers 2 [0; 0; 0; 0x20] (str "name" ++ [0] ++ str "12 0 0" ++ [0]) ++ hex_header ZFIN (pos4 0) ++ [79; 79] in
  exists s', zrec_files (fun _ => 0) (with_rxbuf (session_on (Disk.mkDisk (str "old") true 0) l) (replicate 1024 9)) =
      Ret (- RT_ERROR, s') /\
    sent (zmod s') = hex_header ZRINIT own_flags ++ [XON] ++ refusals 2 ++ hex_header ZFIN (pos4 0).
Proof.
  intros l. destruct (zmodem_refuses_crc32 (str "/in") (str "name") (fun _ => 0)
    (with_rxbuf (session_on (Disk.mkDisk (str "old") true 0) l) (replicate 1024 9)) 2 [0; 0; 0; 0x20]
    (str "name" ++ [0] ++ str "12 0 0" ++ [0]) []) as (s' & E & _ & H).
  - by repeat constructor.
  - done.
  - by repeat constructor.
  - cbn. lia.
  - done.
  - by split.
  - done.
  - done.
  - exact (length_replicate 1024 9).
  - exists s'. split; [exact E | exact H].
Defined.

(** Two terminals: what [rz] says to the [sz] of another, which offers the file five
    times. *)
Definition refused : list Z := hex_header ZRINIT own_flags ++ [XON] ++ refusals 5 ++ hex_header ZFIN (pos4 0).

Example terminals_refuse :
  exists s1 s2,
    zs_start (fun _ => 0) 1 (Some (str "/x")) (session_on (Disk.mkDisk (str "new") false 0) refused) = Ret (tt, s1) /\
    zr_start (fun _ => 0) (replicate 1024 9) (Some (str "/in")) (session_on (Disk.mkDisk (str "old") false 0) (sent (zmod s1))) =
      Ret (tt, s2) /\
    sent (zmod s2) = refused /\ Disk.contents (files s2) = str "old".
Proof. eexists _, _. split; [vm_compute; reflexivity|]. split; [vm_compute; reflexivity|]. by vm_compute. Qed.
