(* ===== verification/Threads.v ===== *)
(** * Threads

    Programs of several threads over shared memory, their execution under a
    schedule, and a small program logic for them.  A program makes calls (loads,
    stores, kernel calls) one at a time; between any two of them the scheduler may
    run another thread.  The logic proves a program against an invariant of the
    shared state and of what each thread knows (a ghost value per thread), so that
    a thread's own steps are the only thing to check; [run_invariant] says that
    what is proved so holds in every state of every schedule. *)

From S2P Require Import Prelude.

(** ** Programs *)

(** A program that makes calls of [K] and returns an [A].  [PIter body x k] is a
    loop with state [x]: [body] says whether to go round again ([inl]) or to leave
    with a value for [k] ([inr]). *)
Inductive prog (K : Type -> Type) (A : Type) : Type :=
  | PRet (a : A)
  | PCall (X : Type) (c : K X) (k : X -> prog K A)
  | PIter (I B : Type) (body : I -> prog K (I + B)) (x : I) (k : B -> prog K A).
Arguments PRet {K A} a.
Arguments PCall {K A X} c k.
Arguments PIter {K A I B} body x k.

Fixpoint pbind {K A B} (p : prog K A) (f : A -> prog K B) : prog K B :=
  match p with
  | PRet a => f a
  | PCall c k => PCall c (fun x => pbind (k x) f)
  | PIter body x k => PIter body x (fun b => pbind (k b) f)
  end.

#[global] Instance prog_ret K : MRet (prog K) := fun A a => PRet a.
#[global] Instance prog_bind K : MBind (prog K) := fun A B f p => pbind p f.

(** A call as a program, and a loop as a program. *)
Definition call {K X} (c : K X) : prog K X := PCall c PRet.
Definition loop {K I B} (body : I -> prog K (I + B)) (x : I) : prog K B := PIter body x PRet.

(** ** Execution

    [perform i b c s] is the effect of call [c] by thread [i] on the shared state:
    the answer and the new state, or no answer when the thread has to wait (the
    call is then made again when the thread is next scheduled; the state may
    record that it waits).  [b] is what only the clock decides: whether a wait
    that may time out does so now. *)

Section machine.
Context {K : Type -> Type} {S A : Type}.
Context (perform : forall X, nat -> bool -> K X -> S -> option X * S).

(** What the next step of a program does. *)
Definition step (i : nat) (b : bool) (p : prog K A) (s : S) : prog K A * S :=
  match p with
  | PRet a => (p, s)
  | @PCall _ _ X c k =>
      match perform X i b c s with
      | (Some x, s') => (k x, s')
      | (None, s') => (p, s')
      end
  | PIter body x k =>
      (pbind (body x) (fun r => match r with inl x' => PIter body x' k | inr v => k v end), s)
  end.

(** One turn of the scheduler: thread [i] makes its next step. *)
Definition turn (t : nat * bool) (c : list (prog K A) * S) : list (prog K A) * S :=
  match c.1 !! t.1 with
  | Some p => let '(p', s') := step t.1 t.2 p c.2 in (<[t.1 := p']> c.1, s')
  | None => c
  end.

Fixpoint run (sched : list (nat * bool)) (c : list (prog K A) * S) : list (prog K A) * S :=
  match sched with [] => c | t :: sched => run sched (turn t c) end.

Definition finished (p : prog K A) : bool := match p with PRet _ => true | _ => false end.
Definition result (p : prog K A) : option A := match p with PRet a => Some a | _ => None end.
End machine.

(** ** The logic *)

Section logic.
Context {K : Type -> Type} {S L : Type}.
Context (perform : forall X, nat -> bool -> K X -> S -> option X * S).
Context (Inv : S -> list L -> Prop).

(** [wp n i p l Q]: in any company, thread [i] knowing [l] can make [n] steps of
    [p] such that each keeps the invariant, and [Q] holds of its value and of what
    it knows when it returns. *)
Fixpoint wp {A} (n : nat) (i : nat) (p : prog K A) (l : L) (Q : A -> L -> Prop) : Prop :=
  match n with
  | O => True
  | Datatypes.S n =>
      match p with
      | PRet a => Q a l
      | @PCall _ _ X c k =>
          forall b s ls, Inv s ls -> ls !! i = Some l ->
          match perform X i b c s with
          | (Some x, s') => exists l', Inv s' (<[i := l']> ls) /\ wp n i (k x) l' Q
          | (None, s') => exists l', Inv s' (<[i := l']> ls) /\ wp n i p l' Q
          end
      | PIter body x k =>
          wp n i (pbind (body x) (fun r =>
                    match r with inl x' => PIter body x' k | inr v => k v end)) l Q
      end
  end.

(** Any number of steps. *)
Definition triple {A} (i : nat) (p : prog K A) (l : L) (Q : A -> L -> Prop) : Prop :=
  forall n, wp n i p l Q.

Lemma wp_mono {A} n : forall i (p : prog K A) l (Q Q' : A -> L -> Prop),
  (forall a l, Q a l -> Q' a l) -> wp n i p l Q -> wp n i p l Q'.
Proof.
  induction n as [|n IH]; intros i p l Q Q' HQ; [done|].
  destruct p as [a|X c k|I B body x k]; cbn.
  - apply HQ.
  - intros H b s ls Hi Hl. specialize (H b s ls Hi Hl).
    destruct (perform X i b c s) as [[v|] s']; destruct H as (l' & ? & ?); eauto.
  - eauto.
Qed.

Lemma wp_less {A} n : forall m i (p : prog K A) l Q, (m <= n)%nat -> wp n i p l Q -> wp m i p l Q.
Proof.
  induction n as [|n IH]; intros [|m] i p l Q Hm; try done; [lia|].
  destruct p as [a|X c k|I B body x k]; cbn; [done| |].
  - intros H b s ls Hi Hl. specialize (H b s ls Hi Hl).
    destruct (perform X i b c s) as [[v|] s']; destruct H as (l' & ? & ?);
      exists l'; (split; [done|]); apply IH; [lia|done|lia|done].
  - apply IH. lia.
Qed.

(** Sequences: continuations may be exchanged for others with the same [wp],
    and nested sequences flattened. *)
Lemma wp_pbind_cong n : forall A B i (p : prog K A) (f g : A -> prog K B) l Q,
  (forall m a l, (m <= n)%nat -> wp m i (f a) l Q -> wp m i (g a) l Q) ->
  wp n i (pbind p f) l Q -> wp n i (pbind p g) l Q.
Proof.
  induction n as [n IH] using lt_wf_ind; intros A B i p f g l Q Hfg. destruct n as [|n]; [done|].
  destruct p as [a|X c k|I C body x k].
  - apply Hfg. lia.
  - cbn. intros H b s ls Hi Hl. specialize (H b s ls Hi Hl).
    destruct (perform X i b c s) as [[v|] s']; destruct H as (l' & ? & H); exists l'; (split; [done|]).
    + eapply (IH n); [lia| |exact H]. intros; eapply Hfg; [lia|done].
    + apply (IH n ltac:(lia) _ _ i (PCall c k) f g); [|exact H]. intros; eapply Hfg; [lia|done].
  - cbn. apply (IH n); [lia|]. intros m [x'|v] l' Hm.
    + apply (IH m ltac:(lia) _ _ i (PIter body x' k) f g). intros; eapply Hfg; [lia|done].
    + apply (IH m ltac:(lia) _ _ i (k v) f g). intros; eapply Hfg; [lia|done].
Qed.

Lemma wp_pbind_assoc n : forall A B C i (p : prog K A) (f : A -> prog K B) (g : B -> prog K C) l Q,
  wp n i (pbind (pbind p f) g) l Q -> wp n i (pbind p (fun a => pbind (f a) g)) l Q.
Proof.
  induction n as [n IH] using lt_wf_ind; intros A B C i p f g l Q. destruct n as [|n]; [done|].
  destruct p as [a|X c k|I D body x k]; [done|..].
  - cbn. intros H b s ls Hi Hl. specialize (H b s ls Hi Hl).
    destruct (perform X i b c s) as [[v|] s']; destruct H as (l' & ? & H); exists l'; (split; [done|]).
    + apply (IH n); [lia|done].
    + apply (IH n ltac:(lia) _ _ _ i (PCall c k) f g). done.
  - cbn. apply wp_pbind_cong. intros m [x'|v] l' Hm.
    + apply (IH m ltac:(lia) _ _ _ i (PIter body x' k) f g).
    + apply (IH m ltac:(lia) _ _ _ i (k v) f g).
Qed.

Lemma wp_bind n : forall A B i (p : prog K A) (f : A -> prog K B) l Q,
  wp n i p l (fun a l' => forall m, (m <= n)%nat -> wp m i (f a) l' Q) -> wp n i (pbind p f) l Q.
Proof.
  induction n as [n IH] using lt_wf_ind; intros A B i p f l Q. destruct n as [|n]; [done|].
  destruct p as [a|X c k|I C body x k].
  - intros H. apply H. lia.
  - cbn. intros H b s ls Hi Hl. specialize (H b s ls Hi Hl).
    destruct (perform X i b c s) as [[v|] s']; destruct H as (l' & ? & H); exists l'; (split; [done|]).
    + apply (IH n); [lia|]. revert H. apply wp_mono. intros a l0 H m Hm. apply H. lia.
    + apply (IH n ltac:(lia) _ _ i (PCall c k) f). revert H. apply wp_mono.
      intros a l0 H m Hm. apply H. lia.
  - cbn. intros H.
    eapply wp_pbind_cong with
      (f := fun r => pbind (match r with inl x' => PIter body x' k | inr v => k v end) f).
    { by intros m [x'|v] l' Hm. }
    apply wp_pbind_assoc, (IH n); [lia|]. revert H. apply wp_mono.
    intros a l0 H m Hm. apply H. lia.
Qed.

(** ** The rules *)

Lemma triple_mono {A} i (p : prog K A) l (Q Q' : A -> L -> Prop) :
  triple i p l Q -> (forall a l', Q a l' -> Q' a l') -> triple i p l Q'.
Proof. intros H HQ n. eapply wp_mono; [exact HQ | apply H]. Qed.

Lemma triple_ret {A} i (a : A) l (Q : A -> L -> Prop) : Q a l -> triple i (PRet a) l Q.
Proof. by intros H [|n]. Qed.

Lemma triple_bind {A B} i (p : prog K A) (f : A -> prog K B) l (Q : B -> L -> Prop) :
  triple i p l (fun a l' => triple i (f a) l' Q) -> triple i (p ≫= f) l Q.
Proof.
  intros H n. apply wp_bind. eapply wp_mono; [|apply H]. cbn. intros a l' Ha m _. apply Ha.
Qed.

(** A call: in [W] are the things the thread may know while it waits. *)
Lemma triple_call {X} (W : L -> Prop) i (c : K X) l (Q : X -> L -> Prop) :
  W l ->
  (forall l, W l -> forall b s ls, Inv s ls -> ls !! i = Some l ->
    match perform X i b c s with
    | (Some x, s') => exists l', Inv s' (<[i := l']> ls) /\ Q x l'
    | (None, s') => exists l', Inv s' (<[i := l']> ls) /\ W l'
    end) ->
  triple i (call c) l Q.
Proof.
  intros HW H n. revert l HW. induction n as [|n IH]; intros l HW; [done|]. cbn.
  intros b s ls Hi Hl. specialize (H l HW b s ls Hi Hl).
  destruct (perform X i b c s) as [[v|] s']; destruct H as (l' & ? & ?); exists l'; (split; [done|]).
  - by apply triple_ret.
  - by apply IH.
Qed.

(** A loop with invariant [J]. *)
Lemma triple_loop {I B} (J : I -> L -> Prop) i (body : I -> prog K (I + B)) x l (Q : B -> L -> Prop) :
  (forall x l, J x l ->
    triple i (body x) l (fun r l' => match r with inl x' => J x' l' | inr v => Q v l' end)) ->
  J x l -> triple i (loop body x) l Q.
Proof.
  intros Hb HJ n. revert x l HJ. induction n as [n IH] using lt_wf_ind; intros x l HJ.
  destruct n as [|n]; [done|]. cbn. apply wp_bind. eapply wp_mono; [|by apply Hb].
  intros [x'|v] l' H m Hm; cbn.
  - apply (IH m); [lia|done].
  - by apply triple_ret.
Qed.

(** ** What a proof says of a run *)

Lemma step_wp {A} n i b (p : prog K A) s ls l Q :
  Inv s ls -> ls !! i = Some l -> wp (Datatypes.S n) i p l Q ->
  exists l', Inv (step perform i b p s).2 (<[i := l']> ls) /\
             wp n i (step perform i b p s).1 l' Q.
Proof.
  intros Hi Hl. destruct p as [a|X c k|I B body x k].
  - intros H. exists l. rewrite list_insert_id by done. split; [done|]. by destruct n.
  - cbn. intros H. specialize (H b s ls Hi Hl).
    by destruct (perform X i b c s) as [[v|] s'].
  - intros H. exists l. rewrite list_insert_id by done. done.
Qed.

Lemma run_wp {A} (Q : A -> L -> Prop) sched : forall ps s ls,
  Inv s ls -> length ls = length ps ->
  (forall i p l, ps !! i = Some p -> ls !! i = Some l -> wp (length sched) i p l Q) ->
  exists ls', Inv (run perform sched (ps, s)).2 ls' /\ length ls' = length ps.
Proof.
  induction sched as [|[i b] sched IH]; intros ps s ls Hi Hlen Hwp; [by exists ls|].
  cbn [run length] in *. unfold turn. cbn [fst snd].
  destruct (ps !! i) as [p|] eqn:Hp.
  2:{ apply (IH _ _ ls); [done..|]. intros j q l Hq Hl. eapply wp_less, Hwp; eauto with lia. }
  destruct (lookup_lt_is_Some_2 ls i) as [l Hl]; [rewrite Hlen; by eapply lookup_lt_Some|].
  destruct (step_wp _ i b p s ls l Q Hi Hl (Hwp i p l Hp Hl)) as (l' & Hi' & Hw').
  destruct (step perform i b p s) as [p' s'] eqn:Hs. cbn [fst snd] in *.
  destruct (IH (<[i:=p']> ps) s' (<[i:=l']> ls)) as (ls' & ? & Hlen'); [done| | |].
  - by rewrite !length_insert.
  - intros j q l0. destruct (decide (j = i)) as [->|Hne].
    + rewrite !list_lookup_insert_eq by (rewrite ?Hlen; by eapply lookup_lt_Some).
      by intros [= <-] [= <-].
    + rewrite !list_lookup_insert_ne by done. intros Hq Hl0. eapply wp_less, Hwp; eauto with lia.
  - exists ls'. by rewrite length_insert in Hlen'.
Qed.

(** Programs proved from what their threads know keep the invariant in every
    state that any schedule reaches. *)
Lemma run_invariant {A} (Q : A -> L -> Prop) sched ps s ls :
  Inv s ls -> length ls = length ps ->
  (forall i p l, ps !! i = Some p -> ls !! i = Some l -> triple i p l Q) ->
  exists ls', Inv (run perform sched (ps, s)).2 ls' /\ length ls' = length ps.
Proof. intros ? ? H. eapply run_wp; [done..|]. intros i p l ? ?. by eapply H. Qed.
End logic.
