(* ===== verification/Pthread.v ===== *)
(** * POSIX thread objects

    src/RTT/components/pthreads: mutexes, condition variables, reader/writer locks,
    barriers and spin locks, as programs of [Threads].  The kernel below them is not
    in the repository: its mutexes and semaphores are the class [Kernel], and
    [Rtt] is an instance with the documented effect.

    An object is the address of its first member; every member has a slot of its
    own ([rw_mutex] is one slot after the start of the lock, and so on).  A slot
    holds a word, and the kernel object of a mutex or condition variable is found at
    the slot of that member.  Every access to a member is a call of its own, so
    that threads may be interleaved between any two accesses. *)

From S2P Require Import Prelude Threads.

(** ** Constants *)

Definition NULL : Z := 0.
Definition RT_EOK : Z := 0.
Definition RT_ERROR : Z := 1.
Definition RT_ETIMEOUT : Z := 2.
Definition RT_WAITING_FOREVER : Z := -1.
Definition EPERM : Z := 1.
Definition EBUSY : Z := 16.
Definition EINVAL : Z := 22.
Definition EDEADLK : Z := 45.
Definition ENOSYS : Z := 89.
Definition ETIMEDOUT : Z := 145.
Definition PTHREAD_PROCESS_PRIVATE : Z := 0.
Definition PTHREAD_PROCESS_SHARED : Z := 1.
Definition PTHREAD_MUTEX_NORMAL : Z := 0.
Definition PTHREAD_MUTEX_RECURSIVE : Z := 1.
Definition PTHREAD_MUTEX_ERRORCHECK : Z := 2.
Definition MUTEXATTR_SHARED_MASK : Z := 16.
Definition MUTEXATTR_TYPE_MASK : Z := 15.
Definition pthread_default_mutexattr : Z := PTHREAD_PROCESS_PRIVATE.

(** ** The kernel *)

(** What the code uses of the kernel.  A take has an answer, or none while the
    thread waits; it is made again whenever the thread is scheduled.  [mtx_owner]
    is the member [owner]; the zero objects are what [memset] or a static
    initialiser leaves. *)
Class Kernel := {
  mtx : Type;
  mtx_zero : mtx;
  mtx_owner : mtx -> option nat;
  mtx_init : Z -> mtx -> Z * mtx;
  mtx_take : nat -> Z -> mtx -> option Z * mtx;
  mtx_release : nat -> mtx -> Z * mtx;
  sem : Type;
  sem_zero : sem;
  sem_init : Z -> Z -> sem -> Z * sem;
  sem_take : nat -> Z -> bool -> sem -> option Z * sem;
  sem_release : sem -> Z * sem
}.

(** What a thread does inside a reader/writer lock. *)
Inductive kind := Reader | Writer.

#[global] Instance kind_eq_dec : EqDecision kind.
Proof. solve_decision. Defined.

(** The calls: members of objects, the kernel, and [Mark], which has no effect on
    the program but says in the state what the thread is in the middle of. *)
Inductive kcall : Type -> Type :=
  | Load (a : Z) : kcall Z
  | Store (a v : Z) : kcall unit
  | Self : kcall Z
  | Owner (m : Z) : kcall Z
  | MutexInit (m name : Z) : kcall Z
  | MutexTake (m time : Z) : kcall Z
  | MutexRelease (m : Z) : kcall Z
  | MutexZero (m : Z) : kcall unit
  | SemInit (s name value : Z) : kcall Z
  | SemTake (s time : Z) : kcall Z
  | SemRelease (s : Z) : kcall Z
  | SemZero (s : Z) : kcall unit
  | EnterCritical : kcall unit
  | ExitCritical : kcall unit
  | Mark (k : option kind) : kcall unit.

(** ** The shared state and the effect of a call *)

Section machine.
Context `{Kernel}.

Record machine := mkMachine {
  words : Z -> Z;                  (**r the members that are numbers *)
  mutexes : Z -> mtx;
  sems : Z -> sem;
  crit : option (nat * nat);       (**r who locked the scheduler, how deep *)
  inside : nat -> option kind      (**r what the threads marked *)
}.

Definition set_word (a v : Z) (s : machine) : machine :=
  mkMachine (<[a := v]> (words s)) (mutexes s) (sems s) (crit s) (inside s).
Definition set_mutex (a : Z) (m : mtx) (s : machine) : machine :=
  mkMachine (words s) (<[a := m]> (mutexes s)) (sems s) (crit s) (inside s).
Definition set_sem (a : Z) (m : sem) (s : machine) : machine :=
  mkMachine (words s) (mutexes s) (<[a := m]> (sems s)) (crit s) (inside s).
Definition set_crit (c : option (nat * nat)) (s : machine) : machine :=
  mkMachine (words s) (mutexes s) (sems s) c (inside s).
Definition set_inside (i : nat) (k : option kind) (s : machine) : machine :=
  mkMachine (words s) (mutexes s) (sems s) (crit s) (<[i := k]> (inside s)).

(** The address of thread [i]'s control block. *)
Definition thread_id (i : nat) : Z := Z.of_nat i + 1.

Definition effect {X} (i : nat) (b : bool) (c : kcall X) (s : machine) : option X * machine :=
  match c with
  | Load a => (Some (words s a), s)
  | Store a v => (Some tt, set_word a v s)
  | Self => (Some (thread_id i), s)
  | Owner m => (Some (from_option thread_id NULL (mtx_owner (mutexes s m))), s)
  | MutexInit m name =>
      let '(e, x) := mtx_init name (mutexes s m) in (Some e, set_mutex m x s)
  | MutexTake m time =>
      let '(e, x) := mtx_take i time (mutexes s m) in (e, set_mutex m x s)
  | MutexRelease m =>
      let '(e, x) := mtx_release i (mutexes s m) in (Some e, set_mutex m x s)
  | MutexZero m => (Some tt, set_mutex m mtx_zero s)
  | SemInit a name v =>
      let '(e, x) := sem_init name v (sems s a) in (Some e, set_sem a x s)
  | SemTake a time =>
      let '(e, x) := sem_take i time b (sems s a) in (e, set_sem a x s)
  | SemRelease a =>
      let '(e, x) := sem_release (sems s a) in (Some e, set_sem a x s)
  | SemZero a => (Some tt, set_sem a sem_zero s)
  | EnterCritical =>
      (Some tt, set_crit (Some (i, S (from_option snd 0%nat (crit s)))) s)
  | ExitCritical =>
      (Some tt, set_crit (match crit s with
                          | Some (j, S (S d)) => Some (j, S d)
                          | _ => None
                          end) s)
  | Mark k => (Some tt, set_inside i k s)
  end.

(** While a thread has the scheduler locked, no other thread runs. *)
Definition perform (X : Type) (i : nat) (b : bool) (c : kcall X) (s : machine) :
    option X * machine :=
  match crit s with
  | Some (j, _) => if decide (j = i) then effect i b c s else (None, s)
  | None => effect i b c s
  end.
End machine.

(** ** Access to members *)

Definition load (a : Z) : prog kcall Z := call (Load a).
Definition store (a v : Z) : prog kcall unit := call (Store a v).

(** [x++] and [x--] on an int: a load and a store. *)
Definition add_to (a d : Z) : prog kcall unit := v ← load a; store a (s32 (v + d)).

Definition rt_sem_trytake (s : Z) : prog kcall Z := call (SemTake s 0).

(** The counters that number the names of kernel objects, two static variables. *)
Definition pthread_mutex_number : Z := -1.
Definition cond_num : Z := -2.
Definition next_name (a : Z) : prog kcall Z := v ← load a; _ ← store a (u16 (v + 1)); mret v.

(** ** pthread_mutex.c *)

Definition pthread_mutexattr_init (attr : Z) : prog kcall Z :=
  if attr =? NULL then mret EINVAL else
  _ ← store attr pthread_default_mutexattr; mret 0.

Definition pthread_mutexattr_destroy (attr : Z) : prog kcall Z :=
  if attr =? NULL then mret EINVAL else _ ← store attr (-1); mret 0.

Definition pthread_mutexattr_gettype (attr type : Z) : prog kcall Z :=
  if (attr =? NULL) || (type =? NULL) then mret EINVAL else
  a ← load attr;
  let atype := Z.land a MUTEXATTR_TYPE_MASK in
  if (PTHREAD_MUTEX_NORMAL <=? atype) && (atype <=? PTHREAD_MUTEX_ERRORCHECK)
  then _ ← store type atype; mret 0
  else mret EINVAL.

Definition pthread_mutexattr_settype (attr type : Z) : prog kcall Z :=
  if negb (attr =? NULL) && (PTHREAD_MUTEX_NORMAL <=? type) && (type <=? PTHREAD_MUTEX_ERRORCHECK)
  then a ← load attr; _ ← store attr (Z.lor (Z.ldiff a MUTEXATTR_TYPE_MASK) type); mret 0
  else mret EINVAL.

Definition pthread_mutexattr_setpshared (attr pshared : Z) : prog kcall Z :=
  if attr =? NULL then mret EINVAL else
  if pshared =? PTHREAD_PROCESS_PRIVATE then
    a ← load attr; _ ← store attr (Z.ldiff a MUTEXATTR_SHARED_MASK); mret 0
  else if pshared =? PTHREAD_PROCESS_SHARED then
    a ← load attr; _ ← store attr (Z.lor a MUTEXATTR_SHARED_MASK); mret 0
  else mret EINVAL.

Definition pthread_mutexattr_getpshared (attr pshared : Z) : prog kcall Z :=
  if (attr =? NULL) || (pshared =? NULL) then mret EINVAL else
  a ← load attr;
  _ ← store pshared (if Z.land a MUTEXATTR_SHARED_MASK =? 0 then PTHREAD_PROCESS_PRIVATE
                     else PTHREAD_PROCESS_SHARED);
  mret 0.

(** A mutex: [attr] and the kernel mutex. *)
Definition pthread_mutex_init (mutex attr : Z) : prog kcall Z :=
  if mutex =? NULL then mret EINVAL else
  name ← next_name pthread_mutex_number;
  _ ← (if attr =? NULL then store mutex pthread_default_mutexattr
       else a ← load attr; store mutex a);
  result ← call (MutexInit mutex name);
  mret (if result =? RT_EOK then 0 else EINVAL).

Definition pthread_mutex_destroy (mutex : Z) : prog kcall Z :=
  if mutex =? NULL then mret EINVAL else
  attr ← load mutex;
  if attr =? -1 then mret EINVAL else
  owner ← call (Owner mutex);
  if negb (owner =? NULL) then mret EBUSY else
  _ ← store mutex 0; _ ← call (MutexZero mutex);
  _ ← store mutex (-1);
  mret 0.

(** The test at the start of every operation on an object that a static
    initialiser may have left with the attribute -1. *)
Definition init_if_static (object : Z) (init : prog kcall Z) : prog kcall unit :=
  attr ← load object;
  if attr =? -1 then _ ← init; mret tt else mret tt.

Definition pthread_mutex_lock (mutex : Z) : prog kcall Z :=
  if mutex =? NULL then mret EINVAL else
  _ ← init_if_static mutex (pthread_mutex_init mutex NULL);
  attr ← load mutex;
  let mtype := Z.land attr MUTEXATTR_TYPE_MASK in
  _ ← call EnterCritical;
  owner ← call (Owner mutex);
  self ← call Self;
  if (owner =? self) && negb (mtype =? PTHREAD_MUTEX_RECURSIVE) then
    _ ← call ExitCritical; mret EDEADLK
  else
    _ ← call ExitCritical;
    result ← call (MutexTake mutex RT_WAITING_FOREVER);
    mret (if result =? RT_EOK then 0 else EINVAL).

Definition pthread_mutex_unlock (mutex : Z) : prog kcall Z :=
  if mutex =? NULL then mret EINVAL else
  _ ← init_if_static mutex (pthread_mutex_init mutex NULL);
  let release :=
    result ← call (MutexRelease mutex);
    mret (if result =? RT_EOK then 0 else EINVAL) in
  owner ← call (Owner mutex);
  self ← call Self;
  if negb (owner =? self) then
    attr ← load mutex;
    if Z.land attr MUTEXATTR_TYPE_MASK =? PTHREAD_MUTEX_ERRORCHECK then mret EPERM else
    owner ← call (Owner mutex);
    if owner =? NULL then mret 0 else release
  else release.

Definition pthread_mutex_trylock (mutex : Z) : prog kcall Z :=
  if mutex =? NULL then mret EINVAL else
  _ ← init_if_static mutex (pthread_mutex_init mutex NULL);
  result ← call (MutexTake mutex 0);
  mret (if result =? RT_EOK then 0 else EBUSY).

(** ** pthread_cond.c *)

Definition pthread_condattr_init (attr : Z) : prog kcall Z :=
  if attr =? NULL then mret EINVAL else _ ← store attr PTHREAD_PROCESS_PRIVATE; mret 0.

Definition pthread_condattr_setpshared (attr pshared : Z) : prog kcall Z :=
  if negb (pshared =? PTHREAD_PROCESS_PRIVATE) && negb (pshared =? PTHREAD_PROCESS_SHARED)
  then mret EINVAL
  else if negb (pshared =? PTHREAD_PROCESS_PRIVATE) then mret ENOSYS
  else mret 0.

(** A condition variable: [attr] and the kernel semaphore.  With [attr] null the
    attribute is read from address 0 all the same. *)
Definition pthread_cond_init (cond attr : Z) : prog kcall Z :=
  if cond =? NULL then mret EINVAL else
  bad ← (if attr =? NULL then mret false
         else a ← load attr; mret (negb (a =? PTHREAD_PROCESS_PRIVATE)));
  if (bad : bool) then mret EINVAL else
  name ← next_name cond_num;
  a ← load attr;
  _ ← store cond a;
  result ← call (SemInit cond name 0);
  mret (if negb (result =? RT_EOK) then EINVAL else 0).

Definition pthread_cond_destroy (cond : Z) : prog kcall Z :=
  if cond =? NULL then mret EINVAL else
  attr ← load cond;
  if attr =? -1 then mret 0 else
  result ← rt_sem_trytake cond;
  if negb (result =? RT_EOK) then mret EBUSY else
  _ ← store cond 0; _ ← call (SemZero cond);
  _ ← store cond (-1);
  mret 0.

(** Tokens are given out until one is left over. *)
Definition broadcast_round (cond : Z) (_ : unit) : prog kcall (unit + Z) :=
  result ← rt_sem_trytake cond;
  if result =? - RT_ETIMEOUT then _ ← call (SemRelease cond); mret (inl tt)
  else if result =? RT_EOK then _ ← call (SemRelease cond); mret (inr 0)
  else mret (inr EINVAL).

Definition pthread_cond_broadcast (cond : Z) : prog kcall Z :=
  _ ← init_if_static cond (pthread_cond_init cond NULL);
  _ ← call EnterCritical;
  result ← loop (broadcast_round cond) tt;
  _ ← call ExitCritical;
  mret result.

Definition pthread_cond_signal (cond : Z) : prog kcall Z :=
  _ ← init_if_static cond (pthread_cond_init cond NULL);
  _ ← call (SemRelease cond);
  mret 0.

Definition _pthread_cond_timedwait (cond mutex timeout : Z) : prog kcall Z :=
  if (cond =? NULL) || (mutex =? NULL) then mret (- RT_ERROR) else
  _ ← init_if_static cond (pthread_cond_init cond NULL);
  owner ← call (Owner mutex);
  self ← call Self;
  if negb (owner =? self) then mret (- RT_ERROR) else
  unlocked ← pthread_mutex_unlock mutex;
  if negb (unlocked =? 0) then mret (- RT_ERROR) else
  result ← call (SemTake cond timeout);
  _ ← pthread_mutex_lock mutex;
  mret result.

Definition pthread_cond_wait (cond mutex : Z) : prog kcall Z :=
  result ← _pthread_cond_timedwait cond mutex RT_WAITING_FOREVER;
  mret (if result =? RT_EOK then 0 else EINVAL).

(** [timeout] is what [clock_time_to_tick] makes of the point in time. *)
Definition pthread_cond_timedwait (cond mutex timeout : Z) : prog kcall Z :=
  result ← _pthread_cond_timedwait cond mutex timeout;
  mret (if result =? RT_EOK then 0
        else if result =? - RT_ETIMEOUT then ETIMEDOUT else EINVAL).

(** ** pthread_rwlock.c *)

Definition rw_mutex (rwlock : Z) : Z := rwlock + 1.
Definition rw_condreaders (rwlock : Z) : Z := rwlock + 2.
Definition rw_condwriters (rwlock : Z) : Z := rwlock + 3.
Definition rw_nwaitreaders (rwlock : Z) : Z := rwlock + 4.
Definition rw_nwaitwriters (rwlock : Z) : Z := rwlock + 5.
Definition rw_refcount (rwlock : Z) : Z := rwlock + 6.

Definition pthread_rwlock_init (rwlock attr : Z) : prog kcall Z :=
  if rwlock =? NULL then mret EINVAL else
  _ ← store rwlock PTHREAD_PROCESS_PRIVATE;
  _ ← pthread_mutex_init (rw_mutex rwlock) NULL;
  _ ← pthread_cond_init (rw_condreaders rwlock) NULL;
  _ ← pthread_cond_init (rw_condwriters rwlock) NULL;
  _ ← store (rw_nwaitwriters rwlock) 0;
  _ ← store (rw_nwaitreaders rwlock) 0;
  _ ← store (rw_refcount rwlock) 0;
  mret 0.

(** [a || b] where [b] is only looked at when [a] is false. *)
Definition por (a b : prog kcall bool) : prog kcall bool :=
  x ← a; if (x : bool) then mret true else b.

Definition load_is (test : Z -> bool) (a : Z) : prog kcall bool := v ← load a; mret (test v).

Definition rwlock_try_destroy (rwlock : Z) : prog kcall Z :=
  result ← rt_sem_trytake (rw_condreaders rwlock);
  if result =? RT_EOK then
    result ← rt_sem_trytake (rw_condwriters rwlock);
    if result =? RT_EOK then
      _ ← call (SemRelease (rw_condreaders rwlock));
      _ ← call (SemRelease (rw_condwriters rwlock));
      _ ← pthread_cond_destroy (rw_condreaders rwlock);
      _ ← pthread_cond_destroy (rw_condwriters rwlock);
      mret result
    else _ ← call (SemRelease (rw_condreaders rwlock)); mret EBUSY
  else mret EBUSY.

Definition pthread_rwlock_destroy (rwlock : Z) : prog kcall Z :=
  if rwlock =? NULL then mret EINVAL else
  attr ← load rwlock;
  if attr =? -1 then mret 0 else
  result ← pthread_mutex_lock (rw_mutex rwlock);
  if negb (result =? 0) then mret result else
  busy ← por (load_is (fun v => negb (v =? 0)) (rw_refcount rwlock))
        (por (load_is (fun v => negb (v =? 0)) (rw_nwaitreaders rwlock))
             (load_is (fun v => negb (v =? 0)) (rw_nwaitwriters rwlock)));
  if (busy : bool) then mret EBUSY else
  result ← rwlock_try_destroy rwlock;
  _ ← pthread_mutex_unlock (rw_mutex rwlock);
  _ ← (if result =? 0 then pthread_mutex_destroy (rw_mutex rwlock) else mret 0);
  mret result.

(** What every operation on a lock does first. *)
Definition rwlock_enter (rwlock : Z) (k : prog kcall Z) : prog kcall Z :=
  if rwlock =? NULL then mret EINVAL else
  _ ← init_if_static rwlock (pthread_rwlock_init rwlock NULL);
  result ← pthread_mutex_lock (rw_mutex rwlock);
  if negb (result =? 0) then mret result else k.

(** One turn of a waiting loop: while [busy], count the waiter in [waiters] and
    wait. *)
Definition rwlock_wait (busy : prog kcall bool) (waiters : Z) (wait : prog kcall Z)
    (result : Z) : prog kcall (Z + Z) :=
  held ← busy;
  if (held : bool) then
    _ ← add_to waiters 1;
    result ← wait;
    _ ← add_to waiters (-1);
    mret (if negb (result =? 0) then inr result else inl result)
  else mret (inr result).

(** A writer has it, or writers wait. *)
Definition readers_wait (rwlock : Z) : prog kcall bool :=
  por (load_is (fun v => v <? 0) (rw_refcount rwlock))
      (load_is (fun v => 0 <? v) (rw_nwaitwriters rwlock)).

Definition writers_wait (rwlock : Z) : prog kcall bool :=
  load_is (fun v => negb (v =? 0)) (rw_refcount rwlock).

Definition rdlock_with (rwlock : Z) (wait : prog kcall Z) : prog kcall Z :=
  rwlock_enter rwlock (
    result ← loop (rwlock_wait (readers_wait rwlock) (rw_nwaitreaders rwlock) wait) 0;
    _ ← (if result =? 0 then add_to (rw_refcount rwlock) 1 else mret tt);
    _ ← pthread_mutex_unlock (rw_mutex rwlock);
    mret result).

Definition pthread_rwlock_rdlock (rwlock : Z) : prog kcall Z :=
  rdlock_with rwlock (pthread_cond_wait (rw_condreaders rwlock) (rw_mutex rwlock)).

Definition pthread_rwlock_timedrdlock (rwlock timeout : Z) : prog kcall Z :=
  rdlock_with rwlock (pthread_cond_timedwait (rw_condreaders rwlock) (rw_mutex rwlock) timeout).

Definition pthread_rwlock_tryrdlock (rwlock : Z) : prog kcall Z :=
  rwlock_enter rwlock (
    busy ← readers_wait rwlock;
    result ← (if (busy : bool) then mret EBUSY
              else _ ← add_to (rw_refcount rwlock) 1; mret 0);
    _ ← pthread_mutex_unlock (rw_mutex rwlock);
    mret result).

Definition wrlock_with (rwlock : Z) (wait : prog kcall Z) : prog kcall Z :=
  rwlock_enter rwlock (
    result ← loop (rwlock_wait (writers_wait rwlock) (rw_nwaitwriters rwlock) wait) 0;
    _ ← (if result =? 0 then store (rw_refcount rwlock) (-1) else mret tt);
    _ ← pthread_mutex_unlock (rw_mutex rwlock);
    mret result).

Definition pthread_rwlock_wrlock (rwlock : Z) : prog kcall Z :=
  wrlock_with rwlock (pthread_cond_wait (rw_condwriters rwlock) (rw_mutex rwlock)).

Definition pthread_rwlock_timedwrlock (rwlock timeout : Z) : prog kcall Z :=
  wrlock_with rwlock (pthread_cond_timedwait (rw_condwriters rwlock) (rw_mutex rwlock) timeout).

Definition pthread_rwlock_trywrlock (rwlock : Z) : prog kcall Z :=
  rwlock_enter rwlock (
    busy ← writers_wait rwlock;
    result ← (if (busy : bool) then mret EBUSY
              else _ ← store (rw_refcount rwlock) (-1); mret 0);
    _ ← pthread_mutex_unlock (rw_mutex rwlock);
    mret result).

(** Take the caller off the count. *)
Definition rwlock_drop (rwlock : Z) : prog kcall unit :=
  v ← load (rw_refcount rwlock);
  if 0 <? v then add_to (rw_refcount rwlock) (-1)
  else v ← load (rw_refcount rwlock);
       if v =? -1 then store (rw_refcount rwlock) 0 else mret tt.

(** Wake a writer, or all readers when no writer waits. *)
Definition rwlock_wake (rwlock : Z) : prog kcall Z :=
  writers ← load (rw_nwaitwriters rwlock);
  if 0 <? writers then
    v ← load (rw_refcount rwlock);
    if v =? 0 then pthread_cond_signal (rw_condwriters rwlock) else mret 0
  else
    readers ← load (rw_nwaitreaders rwlock);
    if 0 <? readers then pthread_cond_broadcast (rw_condreaders rwlock) else mret 0.

Definition pthread_rwlock_unlock (rwlock : Z) : prog kcall Z :=
  rwlock_enter rwlock (
    _ ← rwlock_drop rwlock;
    result ← rwlock_wake rwlock;
    _ ← pthread_mutex_unlock (rw_mutex rwlock);
    mret result).

(** ** pthread_barrier.c *)

Definition barrier_cond (barrier : Z) : Z := barrier + 1.
Definition barrier_mutex (barrier : Z) : Z := barrier + 2.

Definition pthread_barrierattr_setpshared (attr pshared : Z) : prog kcall Z :=
  if attr =? NULL then mret EINVAL else mret EINVAL.

Definition pthread_barrier_destroy (barrier : Z) : prog kcall Z :=
  if barrier =? NULL then mret EINVAL else pthread_cond_destroy (barrier_cond barrier).

Definition pthread_barrier_init (barrier attr count : Z) : prog kcall Z :=
  if barrier =? NULL then mret EINVAL else
  bad ← (if attr =? NULL then mret false
         else a ← load attr; mret (negb (a =? PTHREAD_PROCESS_PRIVATE)));
  if (bad : bool) then mret EINVAL else
  _ ← store barrier (s32 count);
  _ ← pthread_cond_init (barrier_cond barrier) NULL;
  _ ← pthread_mutex_init (barrier_mutex barrier) NULL;
  mret 0.

Definition pthread_barrier_wait (barrier : Z) : prog kcall Z :=
  if barrier =? NULL then mret EINVAL else
  result ← pthread_mutex_lock (barrier_mutex barrier);
  if negb (result =? 0) then mret EINVAL else
  count ← load barrier;
  result ← (if count =? 0 then mret EINVAL
            else
              _ ← add_to barrier (-1);
              count ← load barrier;
              _ ← (if count =? 0 then pthread_cond_broadcast (barrier_cond barrier)
                   else pthread_cond_wait (barrier_cond barrier) (barrier_mutex barrier));
              mret result);
  _ ← pthread_mutex_unlock (barrier_mutex barrier);
  mret result.

(** ** pthread_spin.c *)

Definition pthread_spin_init (lock pshared : Z) : prog kcall Z :=
  if lock =? NULL then mret EINVAL else _ ← store lock 0; mret 0.

Definition pthread_spin_lock (lock : Z) : prog kcall Z :=
  if lock =? NULL then mret EINVAL else
  loop (fun _ : unit =>
    v ← load lock;
    if v =? 0 then _ ← store lock 1; mret (inl tt) else mret (inr 0)) tt.

Definition pthread_spin_trylock (lock : Z) : prog kcall Z :=
  if lock =? NULL then mret EINVAL else
  v ← load lock;
  if v =? 0 then _ ← store lock 1; mret 0 else mret EBUSY.

Definition pthread_spin_unlock (lock : Z) : prog kcall Z :=
  if lock =? NULL then mret EINVAL else
  v ← load lock;
  if v =? 0 then mret EPERM else _ ← store lock 0; mret 0.

(** ** What the kernel promises

    Of a kernel mutex: at most one owner; a take without a time limit is answered
    only when the thread has become the owner; who has to wait is known to the
    mutex ([mtx_waits]) and may be made owner by the one who releases it.  Nothing
    is assumed of semaphores here. *)
Class MutexLaws `{Kernel} := {
  mtx_ok : mtx -> Prop;
  mtx_waits : nat -> mtx -> bool;
  mtx_hold : mtx -> Z;
  mtx_init_law name m :
    let '(e, m') := mtx_init name m in
    e = RT_EOK /\ mtx_ok m' /\ mtx_owner m' = None /\ forall i, mtx_waits i m' = false;
  mtx_take_law i m :
    mtx_ok m -> mtx_owner m <> Some i \/ mtx_waits i m = true ->
    let '(r, m') := mtx_take i RT_WAITING_FOREVER m in
    mtx_ok m' /\
    (r = Some RT_EOK /\ mtx_owner m' = Some i /\ mtx_hold m' = 1 /\ mtx_waits i m' = false \/
     r = None /\ mtx_waits i m' = true) /\
    (forall j, j <> i -> mtx_owner m' = Some j <-> mtx_owner m = Some j) /\
    (forall j, j <> i -> mtx_waits j m' = mtx_waits j m) /\
    (forall j, j <> i -> mtx_owner m = Some j -> mtx_hold m' = mtx_hold m);
  mtx_release_law i m :
    mtx_ok m -> mtx_owner m = Some i -> mtx_hold m = 1 -> mtx_waits i m = false ->
    let '(e, m') := mtx_release i m in
    mtx_ok m' /\
    e = RT_EOK /\ mtx_owner m' <> Some i /\
    (forall j, mtx_owner m' = Some j -> mtx_waits j m = true) /\
    (forall j, mtx_waits j m' = mtx_waits j m)
}.

(** ** A kernel with these objects

    A mutex is handed to the first thread that waits; a semaphore has a value of
    16 bits, and a release with threads waiting lets the first of them go. *)
Module Rtt.
Record mutex := mkMutex {
  owner : option nat; hold : Z; queue : list nat; granted : option nat }.

Definition zero : mutex := mkMutex None 0 [] None.

Definition take (i : nat) (time : Z) (m : mutex) : option Z * mutex :=
  if decide (granted m = Some i) then
    (Some RT_EOK, mkMutex (owner m) (hold m) (queue m) None)
  else match owner m with
       | None => (Some RT_EOK, mkMutex (Some i) 1 (queue m) (granted m))
       | Some j =>
           if decide (i ∈ queue m) then (None, m)
           else if decide (j = i) then (Some RT_EOK, mkMutex (owner m) (hold m + 1) (queue m) (granted m))
           else if time =? 0 then (Some (- RT_ETIMEOUT), m)
           else (None, mkMutex (owner m) (hold m) (queue m ++ [i]) (granted m))
       end.

Definition release (i : nat) (m : mutex) : Z * mutex :=
  if decide (owner m = Some i) then
    if 1 <? hold m then (RT_EOK, mkMutex (owner m) (hold m - 1) (queue m) (granted m))
    else match queue m with
         | j :: q => (RT_EOK, mkMutex (Some j) 1 q (Some j))
         | [] => (RT_EOK, mkMutex None 0 [] (granted m))
         end
  else (- RT_ERROR, m).

Record semaphore := mkSem { value : Z; squeue : list nat; go : list nat }.

Definition stake (i : nat) (time : Z) (b : bool) (s : semaphore) : option Z * semaphore :=
  if decide (i ∈ go s) then
    (Some RT_EOK, mkSem (value s) (squeue s) (filter (.≠ i) (go s)))
  else if decide (i ∈ squeue s) then
    if b && (0 <? time) then
      (Some (- RT_ETIMEOUT), mkSem (value s) (filter (.≠ i) (squeue s)) (go s))
    else (None, s)
  else if 0 <? value s then (Some RT_EOK, mkSem (value s - 1) (squeue s) (go s))
  else if time =? 0 then (Some (- RT_ETIMEOUT), s)
  else (None, mkSem (value s) (squeue s ++ [i]) (go s)).

Definition srelease (s : semaphore) : Z * semaphore :=
  match squeue s with
  | i :: q => (RT_EOK, mkSem (value s) q (go s ++ [i]))
  | [] => (RT_EOK, mkSem (u16 (value s + 1)) [] (go s))
  end.

#[export] Instance kernel : Kernel := {|
  mtx := mutex; mtx_zero := zero; mtx_owner := owner;
  mtx_init := fun _ _ => (RT_EOK, zero);
  mtx_take := take; mtx_release := release;
  sem := semaphore; sem_zero := mkSem 0 [] [];
  sem_init := fun _ v _ => (RT_EOK, mkSem v [] []);
  sem_take := stake; sem_release := srelease
|}.

Definition waits (i : nat) (m : mutex) : bool :=
  bool_decide (granted m = Some i \/ i ∈ queue m).

Definition wf (m : mutex) : Prop :=
  (forall k, granted m = Some k -> owner m = Some k /\ hold m = 1) /\
  (owner m = None -> queue m = []) /\
  NoDup (queue m) /\
  (forall i, owner m = Some i -> i ∉ queue m).

Lemma take_law i m :
  wf m -> owner m <> Some i \/ waits i m = true ->
  let '(r, m') := take i RT_WAITING_FOREVER m in
  wf m' /\
  (r = Some RT_EOK /\ owner m' = Some i /\ hold m' = 1 /\ waits i m' = false \/
   r = None /\ waits i m' = true) /\
  (forall j, j <> i -> owner m' = Some j <-> owner m = Some j) /\
  (forall j, j <> i -> waits j m' = waits j m) /\
  (forall j, j <> i -> owner m = Some j -> hold m' = hold m).
Proof.
  destruct m as [o h q g]. intros (Hg & Hn & Hnd & Hq) Hi. unfold take, waits in *. cbn in *.
  destruct (decide (g = Some i)) as [->|Hgi]; cbn.
  - destruct (Hg i eq_refl) as [-> ->]. specialize (Hq i eq_refl).
    split; [repeat split; try done; intros k [= <-]; done|]. split; [left|].
    { repeat split; try done. apply bool_decide_eq_false. by intros [?|?]. }
    repeat split; try done. intros j Hj. apply bool_decide_ext.
    split; [by intros [?|?]; [|right] | intros [[= ->]|?]; [done|by right]].
  - destruct o as [k|]; cbn.
    2:{ rewrite (Hn eq_refl) in *.
        assert (g = None) as -> by (destruct g as [k|]; [by destruct (Hg k eq_refl)|done]).
        split; [split; [done|]; split; [done|]; split; [done|]; intros ? _; by apply not_elem_of_nil|].
        split; [left; repeat split; apply bool_decide_eq_false; intros [?|?%elem_of_nil]; done|].
        split; [intros j Hj; split; congruence|]. done. }
    destruct (decide (i ∈ q)) as [Hin|Hin]; cbn.
    { split; [done|]. split; [right; split; [done|]; apply bool_decide_eq_true; auto|]. done. }
    destruct (decide (k = i)) as [Hki|Hki]; cbn.
    { subst k. destruct Hi as [Hi|[?|?]%bool_decide_eq_true]; done. }
    split; [split; [done|]; split; [done|]; split|split; [right; split; [done|]|split; [done|split; [|done]]]].
    + apply NoDup_app. split; [done|]. split; [|apply NoDup_singleton].
      intros x Hx ->%list_elem_of_singleton. done.
    + intros j [= ->] [?|?%list_elem_of_singleton]%elem_of_app; [by eapply Hq|done].
    + apply bool_decide_eq_true. right. apply elem_of_app. right. by apply list_elem_of_singleton.
    + intros j Hj. apply bool_decide_ext. rewrite elem_of_app, list_elem_of_singleton. tauto.
Qed.

Lemma release_law i m :
  wf m -> owner m = Some i -> hold m = 1 -> waits i m = false ->
  let '(e, m') := release i m in
  wf m' /\ e = RT_EOK /\ owner m' <> Some i /\
  (forall j, owner m' = Some j -> waits j m = true) /\
  (forall j, waits j m' = waits j m).
Proof.
  destruct m as [o h q g]. unfold release, waits. cbn. intros (Hg & Hn & Hnd & Hq) -> -> Hi.
  apply bool_decide_eq_false in Hi. rewrite decide_True by done. cbn.
  assert (g = None) as ->.
  { destruct g as [k|]; [|done]. destruct (Hg k eq_refl) as [[= <-] _]. naive_solver. }
  destruct q as [|j q]; cbn.
  - split; [split; [done|]; split; [done|]; split; [apply NoDup_nil_2|done]|]. done.
  - apply NoDup_cons in Hnd as [Hj Hnd]. rewrite elem_of_cons in Hi.
    split; [split; [by intros k [= <-]|]; split; [done|]; split; [done|by intros k [= <-]]|].
    split; [done|]. split; [intros [= <-]; apply Hi; auto|]. split.
    + intros k [= <-]. apply bool_decide_eq_true. right. apply elem_of_cons. auto.
    + intros k. apply bool_decide_ext. rewrite elem_of_cons.
      split; [intros [[= ->]|?]; auto | intros [?|[->|?]]; auto; done].
Qed.

#[export] Instance laws : MutexLaws.
Proof.
  refine (Build_MutexLaws kernel wf waits hold _ take_law release_law).
  intros n m. cbn. clear n m. split; [done|]. split; [split; [done|]; split; [done|]; split; [apply NoDup_nil_2|done]|].
  split; [done|]. intros i. apply bool_decide_eq_false. intros [?|?%elem_of_nil]; done.
Defined.
End Rtt.
