(* ===== verification/PthreadLock.v ===== *)
(** * The reader/writer lock

    Whatever a kernel's semaphores do, and whatever the schedule, the lock of
    pthread_rwlock.c keeps its promise: a writer is alone. *)

From S2P Require Import Prelude Threads Pthread.

(** ** What a thread asks for *)

Inductive request :=
  | RdLock | TryRdLock | TimedRdLock (timeout : Z)
  | WrLock | TryWrLock | TimedWrLock (timeout : Z).

Definition mode (r : request) : kind :=
  match r with
  | RdLock | TryRdLock | TimedRdLock _ => Reader
  | WrLock | TryWrLock | TimedWrLock _ => Writer
  end.

Definition acquire (rwlock : Z) (r : request) : prog kcall Z :=
  match r with
  | RdLock => pthread_rwlock_rdlock rwlock
  | TryRdLock => pthread_rwlock_tryrdlock rwlock
  | TimedRdLock t => pthread_rwlock_timedrdlock rwlock t
  | WrLock => pthread_rwlock_wrlock rwlock
  | TryWrLock => pthread_rwlock_trywrlock rwlock
  | TimedWrLock t => pthread_rwlock_timedwrlock rwlock t
  end.

(** A thread makes its requests one after the other; when one is granted it is
    inside until it says it leaves, and then unlocks. *)
Fixpoint client (rwlock : Z) (rs : list request) : prog kcall Z :=
  match rs with
  | [] => mret 0
  | r :: rs =>
      e ← acquire rwlock r;
      if e =? 0 then
        _ ← call (Mark (Some (mode r)));
        _ ← call (Mark None);
        _ ← pthread_rwlock_unlock rwlock;
        client rwlock rs
      else client rwlock rs
  end.

(** ** Ghost state *)

(** Where a thread stands with the lock's mutex; the owner knows [rw_refcount]. *)
Inductive stance := Idle | Waiting | Own (rc : Z).

(** What it has been granted and not given back, and what it marked. *)
Record local := mkLocal { lk : stance; held : option kind; ins : option kind }.

Definition count (k : kind) (ls : list local) : Z :=
  Z.of_nat (length (filter (fun l => held l = Some k) ls)).

Definition one (b : bool) : Z := if b then 1 else 0.

Lemma count_insert k ls i l l' : ls !! i = Some l ->
  count k (<[i := l']> ls) =
  count k ls - one (bool_decide (held l = Some k)) + one (bool_decide (held l' = Some k)).
Proof.
  intros Hl. pose proof (lookup_lt_Some _ _ _ Hl) as Hi.
  rewrite <- (take_drop_middle ls i l Hl) at 2. rewrite insert_take_drop by done.
  unfold count. rewrite !filter_app, !filter_cons, !length_app.
  unfold one. repeat case_decide; repeat case_bool_decide; try done; cbn [length]; lia.
Qed.

Lemma count_same k ls i l l' : ls !! i = Some l -> held l' = held l ->
  count k (<[i := l']> ls) = count k ls.
Proof. intros Hl Hh. rewrite (count_insert k ls i l l' Hl), Hh. lia. Qed.

Lemma count_le k ls : 0 <= count k ls <= Z.of_nat (length ls).
Proof. unfold count. pose proof (length_filter (fun l => held l = Some k) ls). lia. Qed.

Lemma count_pos k ls i l : ls !! i = Some l -> held l = Some k -> 1 <= count k ls.
Proof.
  intros Hl Hk. pose proof (count_insert k ls i l (mkLocal Idle None None) Hl) as E.
  rewrite bool_decide_true in E by done.
  change (bool_decide (held (mkLocal Idle None None) = Some k)) with false in E. cbn [one] in E.
  pose proof (count_le k (<[i:=mkLocal Idle None None]> ls)). lia.
Qed.

(** What the count of the lock means. *)
Definition counts (rc : Z) (ls : list local) : Prop :=
  rc = -1 /\ count Writer ls = 1 /\ count Reader ls = 0 \/
  rc = count Reader ls /\ count Writer ls = 0.

Section exclusion.
Context `{MutexLaws}.
Context (p : Z) (Hp : 0 < p).

Notation the_mutex s := (mutexes s (rw_mutex p)).
Notation refcount s := (words s (rw_refcount p)).

(** ** The invariant *)

Definition knows (s : machine) (i : nat) (l : local) : Prop :=
  inside s i = ins l /\
  (forall k, ins l = Some k -> held l = Some k) /\
  match lk l with
  | Idle => mtx_owner (the_mutex s) <> Some i /\ mtx_waits i (the_mutex s) = false
  | Waiting => mtx_waits i (the_mutex s) = true
  | Own rc => mtx_owner (the_mutex s) = Some i /\ mtx_hold (the_mutex s) = 1 /\
              mtx_waits i (the_mutex s) = false /\ refcount s = rc
  end.

Record Inv (s : machine) (ls : list local) : Prop := {
  inv_attr : words s p = PTHREAD_PROCESS_PRIVATE;
  inv_mattr : words s (rw_mutex p) = PTHREAD_PROCESS_PRIVATE;
  inv_ok : mtx_ok (the_mutex s);
  inv_knows i l : ls !! i = Some l -> knows s i l;
  inv_counts : counts (refcount s) ls;
  inv_len : Z.of_nat (length ls) < 2 ^ 31
}.

(** Two states that agree on what the invariant is about. *)
Definition agree (s s' : machine) : Prop :=
  words s' p = words s p /\ words s' (rw_mutex p) = words s (rw_mutex p) /\
  refcount s' = refcount s /\ the_mutex s' = the_mutex s /\ inside s' = inside s.

Lemma agree_inv s s' ls : agree s s' -> Inv s ls -> Inv s' ls.
Proof.
  intros (Ha & Hm & Hr & Hx & Hi) [? ? ? Hk ? ?]. constructor; [congruence|congruence| | | |done].
  - by rewrite Hx.
  - intros i l Hl. specialize (Hk i l Hl). unfold knows in *. by rewrite Hi, Hx, Hr.
  - by rewrite Hr.
Qed.

Lemma agree_refl s : agree s s.
Proof. done. Qed.

Notation triple := (triple perform Inv).

(** A call has only its effect to be checked: when the scheduler is locked by
    another thread nothing happens. *)
Lemma triple_effect {X} (W : local -> Prop) i (c : kcall X) l (Q : X -> local -> Prop) :
  W l ->
  (forall l, W l -> forall b s ls, Inv s ls -> ls !! i = Some l ->
    match effect i b c s with
    | (Some x, s') => exists l', Inv s' (<[i := l']> ls) /\ Q x l'
    | (None, s') => exists l', Inv s' (<[i := l']> ls) /\ W l'
    end) ->
  triple i (call c) l Q.
Proof.
  intros HW Hc. eapply triple_call with (W := W); [done|]. intros l0 HW0 b s ls Hi Hl.
  unfold perform. destruct (crit s) as [[j d]|]; [|by apply (Hc l0)].
  case_decide; [by apply (Hc l0)|]. exists l0. by rewrite (list_insert_id ls i l0 Hl).
Qed.

(** Calls that leave alone what the invariant is about. *)
Definition quiet {X} (c : kcall X) : bool :=
  match c with
  | Load _ | Self | Owner _ | SemInit _ _ _ | SemTake _ _ | SemRelease _ | SemZero _
  | EnterCritical | ExitCritical => true
  | Store a _ => bool_decide (a ∉ [p; rw_mutex p; rw_refcount p])
  | _ => false
  end.

Lemma quiet_agree {X} i b (c : kcall X) s : quiet c -> agree s (effect i b c s).2.
Proof.
  destruct c; cbn; try done; intros Hq; try (repeat case_match; done).
  apply bool_decide_unpack in Hq. rewrite !not_elem_of_cons in Hq. destruct Hq as (? & ? & ? & _).
  unfold agree. cbn. by rewrite !fn_lookup_insert_ne by congruence.
Qed.

Lemma triple_quiet {X} i (c : kcall X) l (Q : X -> local -> Prop) :
  quiet c -> (forall x, Q x l) -> triple i (call c) l Q.
Proof.
  intros Hq HQ. apply (triple_effect (eq l)); [done|]. intros l0 <- b s ls Hi Hl.
  pose proof (quiet_agree i b c s Hq) as Ha.
  destruct (effect i b c s) as [[x|] s']; exists l; rewrite list_insert_id by done;
    (split; [by eapply agree_inv|done]).
Qed.

(** Calls whose answer is known. *)
Lemma triple_known {X} i (c : kcall X) l (P : X -> Prop) (Q : X -> local -> Prop) :
  (forall b s ls, Inv s ls -> ls !! i = Some l -> exists x, effect i b c s = (Some x, s) /\ P x) ->
  (forall x, P x -> Q x l) -> triple i (call c) l Q.
Proof.
  intros Hc HQ. apply (triple_effect (eq l)); [done|]. intros l0 <- b s ls Hi Hl.
  destruct (Hc b s ls Hi Hl) as (x & -> & Hx). exists l. rewrite list_insert_id by done. auto.
Qed.

(** ** The rules for the lock's own members and for its mutex *)

(** What a thread that owns the mutex may conclude from the count. *)
Definition count_fact (rc : Z) (h : option kind) : Prop :=
  match h with
  | None => -1 <= rc < 2 ^ 31 - 1
  | Some Reader => 0 < rc < 2 ^ 31
  | Some Writer => rc = -1
  end.

Lemma counts_fact rc ls i l :
  counts rc ls -> Z.of_nat (length ls) < 2 ^ 31 -> ls !! i = Some l -> count_fact rc (held l).
Proof.
  intros Hc Hlen Hl. unfold counts in Hc.
  pose proof (count_le Reader ls). pose proof (count_le Writer ls).
  destruct (held l) as [[]|] eqn:Hh; cbn.
  - pose proof (count_pos Reader ls i l Hl Hh). lia.
  - pose proof (count_pos Writer ls i l Hl Hh). lia.
  - pose proof (count_insert Reader ls i l (mkLocal Idle (Some Reader) None) Hl) as E.
    pose proof (count_le Reader (<[i:=mkLocal Idle (Some Reader) None]> ls)) as Hle.
    rewrite length_insert, E, Hh in Hle. rewrite bool_decide_false in Hle by done.
    change (bool_decide (held (mkLocal Idle (Some Reader) None) = Some Reader)) with true in Hle.
    cbn [one] in Hle. lia.
Qed.

Lemma triple_attr i l (Q : Z -> local -> Prop) : Q 0 l -> triple i (load p) l Q.
Proof.
  intros HQ. eapply triple_known with (P := eq 0); [|by intros x <-].
  intros b s ls Hi Hl. exists 0. split; [|done]. cbn. by rewrite (inv_attr s ls Hi).
Qed.

Lemma triple_mattr i l (Q : Z -> local -> Prop) : Q 0 l -> triple i (load (rw_mutex p)) l Q.
Proof.
  intros HQ. eapply triple_known with (P := eq 0); [|by intros x <-].
  intros b s ls Hi Hl. exists 0. split; [|done]. cbn. by rewrite (inv_mattr s ls Hi).
Qed.

Lemma triple_self i l (Q : Z -> local -> Prop) : Q (thread_id i) l -> triple i (call Self) l Q.
Proof.
  intros HQ. eapply triple_known with (P := eq (thread_id i)); [|by intros x <-].
  intros b s ls Hi Hl. by exists (thread_id i).
Qed.

Lemma triple_load_count i rc h k (Q : Z -> local -> Prop) :
  (count_fact rc h -> Q rc (mkLocal (Own rc) h k)) ->
  triple i (load (rw_refcount p)) (mkLocal (Own rc) h k) Q.
Proof.
  intros HQ. eapply triple_known with (P := fun x => x = rc /\ count_fact rc h); [|intros x [-> Hf]; auto].
  intros b s ls Hi Hl. exists rc. cbn.
  destruct (inv_knows s ls Hi i _ Hl) as (_ & _ & _ & _ & _ & Hrc). rewrite Hrc. split; [done|].
  split; [done|]. pose proof (counts_fact _ _ _ _ (inv_counts s ls Hi) (inv_len s ls Hi) Hl) as Hf.
  by rewrite Hrc in Hf.
Qed.

(** The owner of the mutex is the thread itself exactly when it knows so. *)
Lemma triple_owner_mine i rc h k (Q : Z -> local -> Prop) :
  Q (thread_id i) (mkLocal (Own rc) h k) ->
  triple i (call (Owner (rw_mutex p))) (mkLocal (Own rc) h k) Q.
Proof.
  intros HQ. eapply triple_known with (P := eq (thread_id i)); [|by intros x <-].
  intros b s ls Hi Hl. exists (thread_id i). cbn.
  destruct (inv_knows s ls Hi i _ Hl) as (_ & _ & -> & _). done.
Qed.

Lemma triple_owner_other i h k (Q : Z -> local -> Prop) :
  (forall x, x <> thread_id i -> Q x (mkLocal Idle h k)) ->
  triple i (call (Owner (rw_mutex p))) (mkLocal Idle h k) Q.
Proof.
  intros HQ. eapply triple_known with (P := fun x => x <> thread_id i); [|done].
  intros b s ls Hi Hl. eexists. split; [done|].
  destruct (inv_knows s ls Hi i _ Hl) as (_ & _ & Ho & _).
  destruct (mtx_owner (the_mutex s)) as [j|]; cbn; unfold thread_id, NULL; [|lia].
  intros E. apply Ho. f_equal. lia.
Qed.

(** Changing what one thread is granted, by the store that changes the count. *)
Lemma triple_store_count i rc rc' h h' (Q : unit -> local -> Prop) :
  (forall ls l, ls !! i = Some l -> held l = h -> counts rc ls ->
     counts rc' (<[i := mkLocal (Own rc') h' None]> ls)) ->
  Q tt (mkLocal (Own rc') h' None) ->
  triple i (store (rw_refcount p) rc') (mkLocal (Own rc) h None) Q.
Proof.
  intros Hcnt HQ. apply (triple_effect (eq (mkLocal (Own rc) h None))); [done|].
  intros l0 <- b s ls [Ha Hm Hok Hk Hc Hlen] Hl. exists (mkLocal (Own rc') h' None).
  split; [|done]. pose proof (Hk i _ Hl) as (Hin & _ & Ho & Hh & Hw & Hrc).
  cbn [words mutexes inside effect set_word]. unfold effect, set_word.
  constructor; cbn [words mutexes inside]; unfold rw_mutex, rw_refcount in *.
  - rewrite fn_lookup_insert_ne by lia. done.
  - rewrite fn_lookup_insert_ne by lia. done.
  - done.
  - intros j l. destruct (decide (i = j)) as [<-|Hne].
    + rewrite list_lookup_insert_eq by (by eapply lookup_lt_Some). intros [= <-].
      unfold knows. cbn. unfold rw_mutex, rw_refcount. by rewrite fn_lookup_insert.
    + rewrite list_lookup_insert_ne by done. intros Hj. specialize (Hk j l Hj).
      unfold knows in *. destruct Hk as (? & ? & Hk). split; [done|]. split; [done|].
      destruct (lk l) as [| |rc0]; [done..|]. destruct Hk as [Hj' _]. unfold rw_mutex in *. congruence.
  - rewrite fn_lookup_insert. eapply Hcnt; [done..|]. by rewrite <- Hrc.
  - by rewrite length_insert.
Qed.

Lemma inv_set_mutex s ls i l l' m :
  Inv s ls -> ls !! i = Some l -> held l' = held l -> mtx_ok m ->
  knows (set_mutex (rw_mutex p) m s) i l' ->
  (forall j lj, j <> i -> ls !! j = Some lj -> knows (set_mutex (rw_mutex p) m s) j lj) ->
  Inv (set_mutex (rw_mutex p) m s) (<[i := l']> ls).
Proof.
  intros [Ha Hm Hok Hk Hc Hlen] Hl Hh Hmok Hi Hj. constructor; [done..| | | |].
  - cbn. by rewrite fn_lookup_insert.
  - intros j lj. destruct (decide (i = j)) as [<-|Hne].
    + rewrite list_lookup_insert_eq by (by eapply lookup_lt_Some). by intros [= <-].
    + rewrite list_lookup_insert_ne by done. auto.
  - unfold counts. cbn. by rewrite !(count_same _ ls i l l' Hl Hh).
  - by rewrite length_insert.
Qed.

Lemma triple_take i h k (Q : Z -> local -> Prop) :
  (forall rc, Q 0 (mkLocal (Own rc) h k)) ->
  triple i (call (MutexTake (rw_mutex p) RT_WAITING_FOREVER)) (mkLocal Idle h k) Q.
Proof.
  intros HQ.
  apply (triple_effect (fun l => l = mkLocal Idle h k \/ l = mkLocal Waiting h k)); [auto|].
  intros l HW b s ls Hi Hl. cbn [effect].
  pose proof (inv_knows s ls Hi i l Hl) as Hk.
  assert (Hpre : mtx_owner (the_mutex s) <> Some i \/ mtx_waits i (the_mutex s) = true)
    by (destruct HW as [-> | ->]; destruct Hk as (_ & _ & Hk); [left; apply Hk | by right]).
  assert (Hh : held l = h /\ ins l = k) by (by destruct HW as [-> | ->]).
  pose proof (mtx_take_law i (the_mutex s) (inv_ok s ls Hi) Hpre) as Hlaw.
  destruct (mtx_take i RT_WAITING_FOREVER (the_mutex s)) as [r m'].
  destruct Hlaw as (Hok & Hr & Hown & Hwt & Hhold).
  assert (Hothers : forall j lj, j <> i -> ls !! j = Some lj -> knows (set_mutex (rw_mutex p) m' s) j lj).
  { intros j lj Hne Hj. pose proof (inv_knows s ls Hi j lj Hj) as (? & ? & Hj').
    unfold knows. cbn. rewrite fn_lookup_insert, (Hwt j Hne). split; [done|]. split; [done|].
    destruct (lk lj); [rewrite Hown by done; done|done|].
    rewrite Hown by done. destruct Hj' as (Ho & Hd & ? & ?). by rewrite (Hhold j Hne Ho). }
  destruct Hk as (Hin & Hik & _).
  destruct Hr as [(-> & Ho & Hd & Hw)|(-> & Hw)].
  - exists (mkLocal (Own (refcount s)) h k). split; [|apply HQ].
    apply (inv_set_mutex s ls i l); [done|done|by destruct Hh|done| |done].
    destruct Hh as [Eh Ek]. unfold knows. cbn. rewrite fn_lookup_insert, <- Ek, <- Eh. done.
  - exists (mkLocal Waiting h k). split; [|auto].
    apply (inv_set_mutex s ls i l); [done|done|by destruct Hh|done| |done].
    destruct Hh as [Eh Ek]. unfold knows. cbn. rewrite fn_lookup_insert, <- Ek, <- Eh. done.
Qed.

Lemma triple_release i rc h k (Q : Z -> local -> Prop) :
  Q 0 (mkLocal Idle h k) ->
  triple i (call (MutexRelease (rw_mutex p))) (mkLocal (Own rc) h k) Q.
Proof.
  intros HQ. apply (triple_effect (eq (mkLocal (Own rc) h k))); [done|].
  intros l <- b s ls Hi Hl. cbn [effect].
  pose proof (inv_knows s ls Hi i _ Hl) as (Hin & Hik & Ho & Hd & Hw & Hrc).
  pose proof (mtx_release_law i (the_mutex s) (inv_ok s ls Hi) Ho Hd Hw) as Hlaw.
  destruct (mtx_release i (the_mutex s)) as [e m'].
  destruct Hlaw as (Hok & -> & Hno & Hnew & Hwt).
  exists (mkLocal Idle h k). split; [|done].
  apply (inv_set_mutex s ls i (mkLocal (Own rc) h k)); [done|done|done|done| |].
  - unfold knows. cbn. rewrite fn_lookup_insert, Hwt. done.
  - intros j lj Hne Hj. pose proof (inv_knows s ls Hi j lj Hj) as (? & ? & Hj').
    unfold knows. cbn. rewrite fn_lookup_insert, Hwt. split; [done|]. split; [done|].
    destruct (lk lj) as [| |rc']; [|done|].
    + split; [|apply Hj']. intros Hj2%Hnew. destruct Hj' as [_ Hj']. congruence.
    + destruct Hj' as [Hj' _]. congruence.
Qed.

Lemma triple_mark i h k k' (Q : unit -> local -> Prop) :
  (forall x, k' = Some x -> h = Some x) -> Q tt (mkLocal Idle h k') ->
  triple i (call (Mark k')) (mkLocal Idle h k) Q.
Proof.
  intros Hk' HQ. apply (triple_effect (eq (mkLocal Idle h k))); [done|].
  intros l <- b s ls [Ha Hm Hok Hk Hc Hlen] Hl. cbn [effect].
  exists (mkLocal Idle h k'). split; [|done]. constructor; [done|done|done| | |].
  - intros j lj. destruct (decide (i = j)) as [<-|Hne].
    + rewrite list_lookup_insert_eq by (by eapply lookup_lt_Some). intros [= <-].
      unfold knows. cbn. rewrite fn_lookup_insert. split; [done|]. split; [done|]. apply (Hk i _ Hl).
    + rewrite list_lookup_insert_ne by done. intros Hj. unfold knows. cbn.
      rewrite fn_lookup_insert_ne by done. apply (Hk j lj Hj).
  - unfold counts. cbn. by rewrite !(count_same _ ls i (mkLocal Idle h k) (mkLocal Idle h k') Hl eq_refl).
  - by rewrite length_insert.
Qed.

(** ** The mutex and the condition variables *)

Lemma triple_no_init i a (init : prog kcall Z) l (Q : unit -> local -> Prop) :
  (forall Q' : Z -> local -> Prop, Q' 0 l -> triple i (load a) l Q') ->
  Q tt l -> triple i (init_if_static a init) l Q.
Proof. intros Ha HQ. apply triple_bind, Ha. by apply triple_ret. Qed.

Lemma rw_mutex_nonnull : (rw_mutex p =? NULL) = false.
Proof. apply Z.eqb_neq. unfold rw_mutex, NULL. lia. Qed.

Lemma mutex_lock_spec i h k (Q : Z -> local -> Prop) :
  (forall rc, Q 0 (mkLocal (Own rc) h k)) ->
  triple i (pthread_mutex_lock (rw_mutex p)) (mkLocal Idle h k) Q.
Proof.
  intros HQ. unfold pthread_mutex_lock. rewrite rw_mutex_nonnull.
  apply triple_bind, triple_no_init; [apply triple_mattr|].
  apply triple_bind, triple_mattr, triple_bind, triple_quiet; [done|]. intros _.
  apply triple_bind, triple_owner_other. intros x Hx.
  apply triple_bind, triple_self. rewrite (proj2 (Z.eqb_neq _ _) Hx). cbn [andb].
  apply triple_bind, triple_quiet; [done|]. intros _.
  apply triple_bind, triple_take. intros rc. apply triple_ret, HQ.
Qed.

Lemma mutex_unlock_spec i rc h k (Q : Z -> local -> Prop) :
  Q 0 (mkLocal Idle h k) ->
  triple i (pthread_mutex_unlock (rw_mutex p)) (mkLocal (Own rc) h k) Q.
Proof.
  intros HQ. unfold pthread_mutex_unlock. rewrite rw_mutex_nonnull.
  apply triple_bind, triple_no_init; [apply triple_mattr|].
  apply triple_bind, triple_owner_mine, triple_bind, triple_self. rewrite Z.eqb_refl. cbn [negb].
  apply triple_bind, triple_release. by apply triple_ret.
Qed.

(** Members of condition variables, counts of waiters, counters of names. *)
Definition plain (a : Z) : Prop := a ∉ [p; rw_mutex p; rw_refcount p].

Lemma triple_store_plain i a v l (Q : unit -> local -> Prop) :
  plain a -> Q tt l -> triple i (store a v) l Q.
Proof. intros Ha HQ. apply triple_quiet; [by apply bool_decide_pack|]. by intros []. Qed.

Lemma triple_add_plain i a d l (Q : unit -> local -> Prop) :
  plain a -> Q tt l -> triple i (add_to a d) l Q.
Proof.
  intros Ha HQ. apply triple_bind, triple_quiet; [done|]. intros v. by apply triple_store_plain.
Qed.

Lemma cond_init_spec i c l (Q : Z -> local -> Prop) :
  plain c -> (forall e, Q e l) -> triple i (pthread_cond_init c NULL) l Q.
Proof.
  intros Hc HQ. unfold pthread_cond_init. destruct (c =? NULL); [by apply triple_ret|].
  apply triple_bind, triple_ret, triple_bind, triple_bind, triple_quiet; [done|]. intros n.
  apply triple_bind, triple_store_plain.
  { unfold plain, rw_mutex, rw_refcount, cond_num. rewrite !not_elem_of_cons, elem_of_nil. lia. }
  apply triple_ret, triple_bind, triple_quiet; [done|]. intros a.
  apply triple_bind, triple_store_plain; [done|].
  apply triple_bind, triple_quiet; [done|]. intros r. by apply triple_ret.
Qed.

Lemma cond_check_spec i c l (Q : unit -> local -> Prop) :
  plain c -> Q tt l -> triple i (init_if_static c (pthread_cond_init c NULL)) l Q.
Proof.
  intros Hc HQ. apply triple_bind, triple_quiet; [done|]. intros a. destruct (a =? -1).
  - apply triple_bind, cond_init_spec; [done|]. intros _. by apply triple_ret.
  - by apply triple_ret.
Qed.

Lemma cond_signal_spec i c l (Q : Z -> local -> Prop) :
  plain c -> (forall e, Q e l) -> triple i (pthread_cond_signal c) l Q.
Proof.
  intros Hc HQ. apply triple_bind, cond_check_spec; [done|].
  apply triple_bind, triple_quiet; [done|]. intros r. by apply triple_ret.
Qed.

Lemma cond_broadcast_spec i c l (Q : Z -> local -> Prop) :
  plain c -> (forall e, Q e l) -> triple i (pthread_cond_broadcast c) l Q.
Proof.
  intros Hc HQ. apply triple_bind, cond_check_spec; [done|].
  apply triple_bind, triple_quiet; [done|]. intros _.
  apply triple_bind, (triple_loop _ _ (fun _ l' => l' = l)); [|done].
  intros [] l' ->. apply triple_bind, triple_quiet; [done|]. intros r.
  destruct (r =? - RT_ETIMEOUT); [|destruct (r =? RT_EOK)].
  - apply triple_bind, triple_quiet; [done|]. intros _. by apply triple_ret.
  - apply triple_bind, triple_quiet; [done|]. intros _. apply triple_ret.
    apply triple_bind, triple_quiet; [done|]. intros _. by apply triple_ret.
  - apply triple_ret. apply triple_bind, triple_quiet; [done|]. intros _. by apply triple_ret.
Qed.

(** A wait gives the mutex away and has it again when it returns. *)
Lemma timedwait_spec i c t rc h k (Q : Z -> local -> Prop) :
  plain c -> (forall r rc', Q r (mkLocal (Own rc') h k)) ->
  triple i (_pthread_cond_timedwait c (rw_mutex p) t) (mkLocal (Own rc) h k) Q.
Proof.
  intros Hc HQ. unfold _pthread_cond_timedwait. rewrite rw_mutex_nonnull.
  destruct (c =? NULL); cbn [orb]; [by apply triple_ret|].
  apply triple_bind, cond_check_spec; [done|].
  apply triple_bind, triple_owner_mine, triple_bind, triple_self. rewrite Z.eqb_refl. cbn [negb].
  apply triple_bind, mutex_unlock_spec. cbn [Z.eqb negb].
  apply triple_bind, triple_quiet; [done|]. intros r.
  apply triple_bind, mutex_lock_spec. intros rc'. by apply triple_ret.
Qed.

(** A program that waits for the lock to become free, whichever of the two it is. *)
Definition waits_properly (wait : prog kcall Z) : Prop :=
  forall i rc h k (Q : Z -> local -> Prop),
  (forall r rc', Q r (mkLocal (Own rc') h k)) -> triple i wait (mkLocal (Own rc) h k) Q.

Lemma cond_wait_spec c : plain c -> waits_properly (pthread_cond_wait c (rw_mutex p)).
Proof.
  intros Hc i rc h k Q HQ. apply triple_bind, timedwait_spec; [done|]. intros r rc'.
  by apply triple_ret.
Qed.

Lemma cond_timedwait_spec c t : plain c -> waits_properly (pthread_cond_timedwait c (rw_mutex p) t).
Proof.
  intros Hc i rc h k Q HQ. apply triple_bind, timedwait_spec; [done|]. intros r rc'.
  by apply triple_ret.
Qed.

(** ** The lock *)

Lemma enter_spec i k h m (Q : Z -> local -> Prop) :
  (forall rc, triple i k (mkLocal (Own rc) h m) Q) ->
  triple i (rwlock_enter p k) (mkLocal Idle h m) Q.
Proof.
  intros HQ. unfold rwlock_enter. rewrite (proj2 (Z.eqb_neq p NULL)) by (unfold NULL; lia).
  apply triple_bind, triple_no_init; [apply triple_attr|].
  apply triple_bind, mutex_lock_spec. intros rc. apply HQ.
Qed.

(** A test of the count that, when it says no, tells [P] of the count. *)
Definition tests (busy : prog kcall bool) (P : Z -> Prop) : Prop :=
  forall i rc k (Q : bool -> local -> Prop),
  (forall b, (b = false -> P rc /\ count_fact rc None) -> Q b (mkLocal (Own rc) None k)) ->
  triple i busy (mkLocal (Own rc) None k) Q.

Lemma plain_member n : (n = 2 \/ n = 3 \/ n = 4 \/ n = 5) -> plain (p + n).
Proof. intros. unfold plain, rw_mutex, rw_refcount. rewrite !not_elem_of_cons, elem_of_nil. lia. Qed.

Lemma readers_wait_tests : tests (readers_wait p) (fun rc => 0 <= rc).
Proof.
  intros i rc k Q HQ. apply triple_bind, triple_bind, triple_load_count. intros Hf.
  apply triple_ret. destruct (Z.ltb_spec rc 0); [by apply triple_ret, HQ|].
  apply triple_bind, triple_quiet; [done|]. intros v. apply triple_ret, HQ. done.
Qed.

Lemma writers_wait_tests : tests (writers_wait p) (fun rc => rc = 0).
Proof.
  intros i rc k Q HQ. apply triple_bind, triple_load_count. intros Hf.
  apply triple_ret, HQ. by intros E%negb_false_iff%Z.eqb_eq.
Qed.

Lemma wait_loop_spec i busy P waiters wait rc (Q : Z -> local -> Prop) :
  tests busy P -> plain waiters -> waits_properly wait ->
  (forall v rc, (v = 0 -> P rc /\ count_fact rc None) -> Q v (mkLocal (Own rc) None None)) ->
  triple i (loop (rwlock_wait busy waiters wait) 0) (mkLocal (Own rc) None None) Q.
Proof.
  intros Ht Hw Hwait HQ.
  apply (triple_loop _ _ (fun v l => v = 0 /\ exists rc, l = mkLocal (Own rc) None None)); [|by eauto].
  intros v l [-> [rc' ->]]. apply triple_bind, Ht. intros [] Hb.
  - apply triple_bind, triple_add_plain; [done|]. apply triple_bind, Hwait. intros r rc2.
    apply triple_bind, triple_add_plain; [done|]. apply triple_ret.
    destruct (Z.eqb_spec r 0) as [->|Hr]; cbn; [by eauto|]. by apply HQ.
  - apply triple_ret, HQ. auto.
Qed.

Lemma grant_reader rc ls i l :
  0 <= rc -> ls !! i = Some l -> held l = None -> counts rc ls ->
  counts (rc + 1) (<[i := mkLocal (Own (rc + 1)) (Some Reader) None]> ls).
Proof.
  intros Hrc Hl Hh Hc. unfold counts in *. rewrite !(count_insert _ ls i l _ Hl), Hh.
  rewrite !(bool_decide_false (None = _)) by done. cbn [held].
  rewrite (bool_decide_true (Some Reader = Some Reader)), (bool_decide_false (Some Reader = Some Writer)) by done.
  cbn [one]. lia.
Qed.

Lemma grant_writer ls i l :
  ls !! i = Some l -> held l = None -> counts 0 ls ->
  counts (-1) (<[i := mkLocal (Own (-1)) (Some Writer) None]> ls).
Proof.
  intros Hl Hh Hc. unfold counts in *. rewrite !(count_insert _ ls i l _ Hl), Hh.
  rewrite !(bool_decide_false (None = _)) by done. cbn [held].
  rewrite (bool_decide_false (Some Writer = Some Reader)), (bool_decide_true (Some Writer = Some Writer)) by done.
  cbn [one]. lia.
Qed.

Lemma take_back rc rc' ls i l k :
  ls !! i = Some l -> held l = Some k -> counts rc ls ->
  rc' = (match k with Reader => rc - 1 | Writer => 0 end) ->
  counts rc' (<[i := mkLocal (Own rc') None None]> ls).
Proof.
  intros Hl Hh Hc ->. pose proof (count_pos k ls i l Hl Hh). unfold counts in *.
  rewrite !(count_insert _ ls i l _ Hl), Hh. cbn [held]. rewrite !(bool_decide_false (None = _)) by done.
  pose proof (count_le Reader ls). pose proof (count_le Writer ls).
  destruct k.
  - rewrite (bool_decide_true (Some Reader = Some Reader)), (bool_decide_false (Some Reader = Some Writer)) by done.
    cbn [one]. lia.
  - rewrite (bool_decide_false (Some Writer = Some Reader)), (bool_decide_true (Some Writer = Some Writer)) by done.
    cbn [one]. lia.
Qed.

Lemma count_up_spec i rc (Q : unit -> local -> Prop) :
  0 <= rc -> Q tt (mkLocal (Own (rc + 1)) (Some Reader) None) ->
  triple i (add_to (rw_refcount p) 1) (mkLocal (Own rc) None None) Q.
Proof.
  intros Hrc HQ. apply triple_bind, triple_load_count. intros Hf. cbn in Hf.
  rewrite swrap_id by (cbn; lia). apply (triple_store_count i _ _ _ (Some Reader)); [|done].
  intros ls l ? ? ?. by eapply grant_reader.
Qed.

(** What an attempt to get the lock leaves. *)
Definition attempt (k : kind) (e : Z) (l : local) : Prop :=
  l = mkLocal Idle (if e =? 0 then Some k else None) None.

Lemma rdlock_spec i wait :
  waits_properly wait ->
  triple i (rdlock_with p wait) (mkLocal Idle None None) (attempt Reader).
Proof.
  intros Hw. apply enter_spec. intros rc.
  apply triple_bind, (wait_loop_spec _ _ (fun rc => 0 <= rc));
    [apply readers_wait_tests | apply plain_member; lia | done |].
  intros v rc' Hv. destruct (Z.eqb_spec v 0) as [->|Hne].
  - apply triple_bind, count_up_spec; [by apply Hv|].
    apply triple_bind, mutex_unlock_spec. by apply triple_ret.
  - apply triple_bind, triple_ret, triple_bind, mutex_unlock_spec, triple_ret.
    unfold attempt. by rewrite (proj2 (Z.eqb_neq _ _) Hne).
Qed.

Lemma wrlock_spec i wait :
  waits_properly wait ->
  triple i (wrlock_with p wait) (mkLocal Idle None None) (attempt Writer).
Proof.
  intros Hw. apply enter_spec. intros rc.
  apply triple_bind, (wait_loop_spec _ _ (fun rc => rc = 0));
    [apply writers_wait_tests | apply plain_member; lia | done |].
  intros v rc' Hv. destruct (Z.eqb_spec v 0) as [->|Hne].
  - destruct (Hv eq_refl) as [-> _]. apply triple_bind, (triple_store_count i _ _ _ (Some Writer)); [by intros; eapply grant_writer|].
    apply triple_bind, mutex_unlock_spec. by apply triple_ret.
  - apply triple_bind, triple_ret, triple_bind, mutex_unlock_spec, triple_ret.
    unfold attempt. by rewrite (proj2 (Z.eqb_neq _ _) Hne).
Qed.

Lemma tryrdlock_spec i :
  triple i (pthread_rwlock_tryrdlock p) (mkLocal Idle None None) (attempt Reader).
Proof.
  apply enter_spec. intros rc. apply triple_bind, readers_wait_tests. intros [] Hb.
  - apply triple_bind, triple_ret, triple_bind, mutex_unlock_spec. by apply triple_ret.
  - apply triple_bind, triple_bind, count_up_spec; [by apply Hb|].
    apply triple_ret, triple_bind, mutex_unlock_spec. by apply triple_ret.
Qed.

Lemma trywrlock_spec i :
  triple i (pthread_rwlock_trywrlock p) (mkLocal Idle None None) (attempt Writer).
Proof.
  apply enter_spec. intros rc. apply triple_bind, writers_wait_tests. intros [] Hb.
  - apply triple_bind, triple_ret, triple_bind, mutex_unlock_spec. by apply triple_ret.
  - destruct (Hb eq_refl) as [-> _].
    apply triple_bind, triple_bind, (triple_store_count i _ _ _ (Some Writer)); [by intros; eapply grant_writer|].
    apply triple_ret, triple_bind, mutex_unlock_spec. by apply triple_ret.
Qed.

Lemma acquire_spec i r : triple i (acquire p r) (mkLocal Idle None None) (attempt (mode r)).
Proof.
  destruct r; cbn [acquire mode].
  - apply rdlock_spec, cond_wait_spec, plain_member. lia.
  - apply tryrdlock_spec.
  - apply rdlock_spec, cond_timedwait_spec, plain_member. lia.
  - apply wrlock_spec, cond_wait_spec, plain_member. lia.
  - apply trywrlock_spec.
  - apply wrlock_spec, cond_timedwait_spec, plain_member. lia.
Qed.

Lemma drop_spec i rc k (Q : unit -> local -> Prop) :
  (forall rc, Q tt (mkLocal (Own rc) None None)) ->
  triple i (rwlock_drop p) (mkLocal (Own rc) (Some k) None) Q.
Proof.
  intros HQ. apply triple_bind, triple_load_count. intros Hf. destruct k; cbn in Hf.
  - rewrite (proj2 (Z.ltb_lt _ _)) by lia.
    apply triple_bind, triple_load_count. intros _. rewrite swrap_id by (cbn; lia).
    apply (triple_store_count i _ _ _ None); [|done]. intros ls l ? ? ?. by eapply (take_back rc).
  - subst rc. cbn [Z.ltb Z.compare]. apply triple_bind, triple_load_count. intros _. cbn [Z.eqb].
    apply (triple_store_count i _ _ _ None); [|done]. intros ls l ? ? ?. by eapply (take_back (-1)).
Qed.

Lemma wake_spec i rc (Q : Z -> local -> Prop) :
  (forall e, Q e (mkLocal (Own rc) None None)) ->
  triple i (rwlock_wake p) (mkLocal (Own rc) None None) Q.
Proof.
  intros HQ. apply triple_bind, triple_quiet; [done|]. intros w. destruct (0 <? w).
  - apply triple_bind, triple_load_count. intros _. destruct (rc =? 0); [|by apply triple_ret].
    apply cond_signal_spec; [|done]. apply plain_member. lia.
  - apply triple_bind, triple_quiet; [done|]. intros r. destruct (0 <? r); [|by apply triple_ret].
    apply cond_broadcast_spec; [|done]. apply plain_member. lia.
Qed.

Lemma unlock_spec i k :
  triple i (pthread_rwlock_unlock p) (mkLocal Idle (Some k) None)
    (fun _ l => l = mkLocal Idle None None).
Proof.
  apply enter_spec. intros rc. apply triple_bind, drop_spec. intros rc'.
  apply triple_bind, wake_spec. intros e. apply triple_bind, mutex_unlock_spec. by apply triple_ret.
Qed.

Lemma client_spec i rs : triple i (client p rs) (mkLocal Idle None None) (fun _ _ => True).
Proof.
  induction rs as [|r rs IH]; [by apply triple_ret|]. cbn [client].
  apply triple_bind. eapply triple_mono; [apply acquire_spec|]. intros e l ->.
  destruct (e =? 0); [|apply IH].
  apply triple_bind, triple_mark; [by intros x [= ->]|].
  apply triple_bind, triple_mark; [done|].
  apply triple_bind. eapply triple_mono; [apply unlock_spec|]. intros _ l ->. apply IH.
Qed.

(** In a state with the invariant a writer is alone. *)
Lemma inv_exclusive s ls i j k :
  Inv s ls -> (i < length ls)%nat -> (j < length ls)%nat -> i <> j ->
  inside s i = Some Writer -> inside s j <> Some k.
Proof.
  intros Hi Hli Hlj Hne Hw Hk.
  destruct (lookup_lt_is_Some_2 ls i Hli) as [li Hl], (lookup_lt_is_Some_2 ls j Hlj) as [lj Hl'].
  pose proof (inv_knows s ls Hi i li Hl) as (Ei & Hhi & _).
  pose proof (inv_knows s ls Hi j lj Hl') as (Ej & Hhj & _).
  specialize (Hhi Writer ltac:(congruence)). specialize (Hhj k ltac:(congruence)).
  pose proof (inv_counts s ls Hi) as Hc.
  pose proof (count_pos Writer ls i li Hl Hhi).
  pose proof (count_insert Writer ls i li (mkLocal Idle None None) Hl) as E.
  rewrite bool_decide_true in E by done.
  change (bool_decide (held (mkLocal Idle None None) = Some Writer)) with false in E. cbn [one] in E.
  assert (Hj' : <[i:=mkLocal Idle None None]> ls !! j = Some lj) by by rewrite list_lookup_insert_ne.
  unfold counts in Hc. destruct k.
  - pose proof (count_pos Reader ls j lj Hl' Hhj). lia.
  - pose proof (count_pos Writer _ j lj Hj' Hhj). lia.
Qed.
End exclusion.

(** ** From initialisation on *)

(** The state that [pthread_rwlock_init], run by one thread to its end, leaves. *)
Definition init_run `{Kernel} (p : Z) (s : machine) : list (prog kcall Z) * machine :=
  run perform (replicate 18 (0%nat, false)) ([pthread_rwlock_init p NULL], s).
Definition initialised `{Kernel} (p : Z) (s : machine) : machine := (init_run p s).2.

(** A program that runs alone, call by call: what holds of the end, for any
    answer that the call may have. *)
Section alone.
Context `{MutexLaws}.
Context (P : list (prog kcall Z) * machine -> Prop).
Notation alone n q s := (P (run perform (replicate n (0%nat, false)) ([q], s))).

Lemma alone_call n X (c : kcall X) (k : X -> prog kcall Z) s x s' :
  crit s = None -> effect 0 false c s = (Some x, s') -> alone n (k x) s' -> alone (S n) (PCall c k) s.
Proof.
  intros Hc He. cbn [replicate run]. unfold turn, perform. cbn [fst snd step lookup list_lookup].
  by rewrite Hc, He.
Qed.

Lemma alone_load n a k s : crit s = None -> (forall v, alone n (k v) s) -> alone (S n) (PCall (Load a) k) s.
Proof. intros Hc HP. by eapply alone_call. Qed.

Lemma alone_store n a v k s :
  crit s = None -> alone n (k tt) (set_word a v s) -> alone (S n) (PCall (Store a v) k) s.
Proof. intros Hc HP. by eapply alone_call. Qed.

Lemma alone_mutex_init n a name k s : crit s = None ->
  (forall m, mtx_ok m -> mtx_owner m = None -> (forall i, mtx_waits i m = false) ->
     alone n (k RT_EOK) (set_mutex a m s)) ->
  alone (S n) (PCall (MutexInit a name) k) s.
Proof.
  intros Hc HP. pose proof (mtx_init_law name (mutexes s a)) as Hlaw.
  destruct (mtx_init name (mutexes s a)) as [e m] eqn:E. destruct Hlaw as (-> & Hok & Ho & Hw).
  eapply alone_call; [done|cbn; by rewrite E|auto].
Qed.

Lemma alone_sem_init n a name v k s : crit s = None ->
  (forall e x, alone n (k e) (set_sem a x s)) -> alone (S n) (PCall (SemInit a name v) k) s.
Proof.
  intros Hc HP. destruct (sem_init name v (sems s a)) as [e x] eqn:E.
  eapply alone_call; [done|cbn; by rewrite E|auto].
Qed.
End alone.

Lemma words_other `{Kernel} a b v s : a <> b -> words (set_word b v s) a = words s a.
Proof. intros Hne. cbn. by rewrite fn_lookup_insert_ne. Qed.

Lemma words_same `{Kernel} a v s : words (set_word a v s) a = v.
Proof. cbn. apply fn_lookup_insert. Qed.

Lemma mutexes_set_mutex `{Kernel} a m s : mutexes (set_mutex a m s) a = m.
Proof. cbn. apply fn_lookup_insert. Qed.

(** Makes the calls of a program that runs alone, and reads a member out of a
    sequence of updates. *)
Ltac alone :=
  repeat (first [apply alone_load; [done|intros ?] | apply alone_store; [done|]
                | apply alone_mutex_init; [done|intros ?m ?Hm ?Ho ?Hw]
                | apply alone_sem_init; [done|intros ?e ?x]]; cbn [pbind]).

Ltac member :=
  repeat first [rewrite words_same | progress change (words (set_mutex ?a ?m ?s)) with (words s)
               | progress change (words (set_sem ?a ?m ?s)) with (words s)
               | rewrite words_other by (unfold pthread_mutex_number, cond_num; lia)].

Lemma init_runs `{MutexLaws} p s :
  0 < p -> crit s = None ->
  exists s', init_run p s = ([PRet 0], s') /\
  words s' p = 0 /\ words s' (rw_mutex p) = 0 /\ words s' (rw_refcount p) = 0 /\
  crit s' = None /\ inside s' = inside s /\
  mtx_ok (mutexes s' (rw_mutex p)) /\ mtx_owner (mutexes s' (rw_mutex p)) = None /\
  forall i, mtx_waits i (mutexes s' (rw_mutex p)) = false.
Proof.
  intros Hp Hc. assert (Hn : forall n, 0 <= n -> (p + n =? NULL) = false)
    by (intros; apply Z.eqb_neq; unfold NULL; lia).
  pose proof (Hn 0 ltac:(lia)) as Hn0. rewrite Z.add_0_r in Hn0.
  unfold init_run, pthread_rwlock_init, pthread_mutex_init, pthread_cond_init.
  unfold rw_mutex, rw_condreaders, rw_condwriters, rw_nwaitreaders, rw_nwaitwriters, rw_refcount.
  rewrite Hn0, !Hn by lia. change (NULL =? NULL) with true.
  unfold next_name, load, store, call, mbind, mret, prog_bind, prog_ret. cbn [pbind].
  match goal with |- exists s', ?r = _ /\ _ =>
    pattern r; match goal with |- ?P r => set (PP := P) end end.
  alone. cbn [replicate run]. unfold PP. eexists. split; [done|].
  do 3 (split; [member; done|]). split; [done|]. split; [done|].
  repeat first [progress change (mutexes (set_word ?a ?v ?s)) with (mutexes s)
               | progress change (mutexes (set_sem ?a ?v ?s)) with (mutexes s)].
  by rewrite !mutexes_set_mutex.
Qed.

Lemma client_start `{MutexLaws} p (scripts : list (list request)) s sched :
  Inv p s (replicate (length scripts) (mkLocal Idle None None)) -> 0 < p ->
  exists ls, Inv p (run perform sched (client p <$> scripts, s)).2 ls /\
             length ls = length scripts.
Proof.
  intros HI Hp.
  destruct (run_invariant perform (Inv p) (fun _ _ => True) sched (client p <$> scripts) s
              (replicate (length scripts) (mkLocal Idle None None))) as (ls & ? & Hlen).
  - done.
  - by rewrite length_fmap, length_replicate.
  - intros t q l Hq Hl. apply list_lookup_fmap_Some in Hq as (rs & -> & _).
    apply lookup_replicate in Hl as [-> _]. by apply client_spec.
  - exists ls. by rewrite length_fmap in Hlen.
Qed.

Lemma initialised_inv `{MutexLaws} p n s :
  0 < p -> Z.of_nat n < 2 ^ 31 -> crit s = None -> (forall t, inside s t = None) ->
  Inv p (initialised p s) (replicate n (mkLocal Idle None None)).
Proof.
  intros Hp Hlen Hc Hin.
  destruct (init_runs p s Hp Hc) as (s1 & E & Ha & Hm & Hr & Hc1 & Hin1 & Hok & Ho & Hwt).
  unfold initialised. rewrite E. cbn [snd]. constructor; [done..| | |].
  - intros t l Ht. apply lookup_replicate in Ht as [-> _]. unfold knows. cbn.
    rewrite Hin1, Hin, Ho. done.
  - right. rewrite Hr. unfold counts, count. clear. induction n; done.
  - by rewrite length_replicate.
Qed.

(** C5: mutual exclusion.  After [pthread_rwlock_init], any number of threads
    (fewer than 2^31) may ask for the lock in any of the six ways, any number of
    times, unlocking what they were granted; whatever the schedule, whatever times
    out, and however the semaphores of the kernel behave, whenever a thread is
    inside as a writer no other thread is inside. *)
Theorem rwlock_exclusion `{MutexLaws} p (scripts : list (list request)) s0 sched i j k :
  0 < p -> Z.of_nat (length scripts) < 2 ^ 31 ->
  crit s0 = None -> (forall t, inside s0 t = None) ->
  (i < length scripts)%nat -> (j < length scripts)%nat -> i <> j ->
  inside (run perform sched (client p <$> scripts, initialised p s0)).2 i = Some Writer ->
  inside (run perform sched (client p <$> scripts, initialised p s0)).2 j <> Some k.
Proof.
  intros Hp Hlen Hc Hin Hi Hj Hne.
  pose proof (initialised_inv p (length scripts) s0 Hp Hlen Hc Hin) as HI.
  destruct (client_start p scripts _ sched HI Hp) as (ls & HI' & Hl).
  apply (inv_exclusive p _ ls i j k HI'); [by rewrite Hl..|done].
Qed.


(** ** On the kernel of [Rtt] *)

Definition blank : @machine Rtt.kernel :=
  @mkMachine Rtt.kernel (fun _ => 0) (fun _ => Rtt.zero) (fun _ => Rtt.mkSem 0 [] []) None (fun _ => None).

(** A schedule by runs: thread, number of turns. *)
Definition turns (l : list (nat * nat)) : list (nat * bool) :=
  l ≫= fun '(i, n) => replicate n (i, false).

Definition run_on (ps : list (prog kcall Z)) (s : @machine Rtt.kernel) (l : list (nat * nat)) :=
  run perform (turns l) (ps, s).

Definition results (c : list (prog kcall Z) * @machine Rtt.kernel) : list (option Z) := result <$> c.1.

(** Three threads: a writer inside while a reader waits and a third is refused. *)
Lemma rwlock_exclusion_witness :
  let s := (run perform (turns [(0, 16); (1, 40); (2, 60)]%nat)
              (client 16 <$> [[WrLock; RdLock]; [RdLock]; [TryWrLock; TimedRdLock 5]],
               @initialised Rtt.kernel 16 blank)).2 in
  inside s 0%nat = Some Writer /\ inside s 1%nat <> Some Reader.
Proof.
  assert (E : inside (run perform (turns [(0, 16); (1, 40); (2, 60)]%nat)
              (client 16 <$> [[WrLock; RdLock]; [RdLock]; [TryWrLock; TimedRdLock 5]],
               @initialised Rtt.kernel 16 blank)).2 0%nat = Some Writer) by (vm_compute; reflexivity).
  split; [exact E|].
  exact (@rwlock_exclusion Rtt.kernel Rtt.laws 16 [[WrLock; RdLock]; [RdLock]; [TryWrLock; TimedRdLock 5]] blank _
           0%nat 1%nat Reader ltac:(lia) ltac:(cbn; lia) eq_refl (fun _ => eq_refl)
           ltac:(cbn; lia) ltac:(cbn; lia) ltac:(lia) E).
Defined.

(** What the exclusion needs of [pthread_rwlock_init]: on a lock that only has the
    static initialiser (attributes -1), two first users initialise it twice, and
    two writers are inside. *)
Example static_initialiser_race :
  let s := set_word 16 (-1) (set_word 17 (-1) (set_word 18 (-1) (set_word 19 (-1) blank))) in
  let c := run_on (client 16 <$> [[WrLock]; [WrLock]]) s [(0, 1); (1, 34); (0, 33)]%nat in
  inside c.2 0%nat = Some Writer /\ inside c.2 1%nat = Some Writer.
Proof. vm_compute. split; reflexivity. Qed.

(** A lock that nobody uses cannot be destroyed: the semaphores it tries to take
    have the value 0. *)
Example destroy_idle_busy :
  results (run_on [pthread_rwlock_destroy 16] (initialised 16 blank) [(0, 60)]%nat) = [Some EBUSY].
Proof. vm_compute. reflexivity. Qed.

(** Destroying a lock that a reader holds fails with the mutex still taken: the
    reader never gets out of its unlock. *)
Example destroy_keeps_mutex :
  let c := run_on [client 16 [RdLock]; pthread_rwlock_destroy 16] (initialised 16 blank)
             [(0, 19); (1, 60); (0, 60)]%nat in
  results c = [None; Some EBUSY] /\ Rtt.owner (mutexes c.2 (rw_mutex 16)) = Some 1%nat.
Proof. vm_compute. split; reflexivity. Qed.

(** A spin lock that is taken lets everybody in: the loop runs while the lock is
    free. *)
Lemma spin_lock_taken `{Kernel} lock s :
  lock <> NULL -> crit s = None -> words s lock <> 0 ->
  run perform (replicate 2 (0%nat, false)) ([pthread_spin_lock lock], s) = ([PRet 0], s).
Proof.
  intros Hl Hc Hw. unfold pthread_spin_lock. rewrite (proj2 (Z.eqb_neq _ _) Hl).
  unfold loop. cbn [replicate run]. unfold turn, perform. cbn. rewrite Hc. cbn.
  by rewrite (proj2 (Z.eqb_neq _ _) Hw).
Qed.

(** A configuration from which no thread makes a step: all have returned but one,
    and that one waits for a semaphore that nobody will release. *)
Lemma stuck_for_ever (a t : Z) (k : Z -> prog kcall Z) x r1 r2 sched :
  forall s : @machine Rtt.kernel,
  crit s = None -> sems s a = x -> Rtt.stake 1 t false x = (None, x) -> Rtt.stake 1 t true x = (None, x) ->
  (run perform sched ([PRet r1; PCall (SemTake a t) k; PRet r2], s)).1 =
  [PRet r1; PCall (SemTake a t) k; PRet r2].
Proof.
  induction sched as [|[i b] sched IH]; intros s Hc Hx Hf Ht; [done|].
  destruct i as [|[|[|i]]]; cbn [run]; unfold turn; cbn -[run].
  - by apply IH.
  - unfold perform. rewrite Hc. cbn -[run Rtt.stake]. rewrite Hx.
    assert (E : Rtt.stake 1 t b x = (None, x)) by (by destruct b).
    rewrite E. apply IH; [done| |done|done]. cbn. by rewrite fn_lookup_insert.
  - by apply IH.
  - by apply IH.
Qed.

(** three threads at a barrier for three.  Two of them are between giving
    the mutex away and waiting for the semaphore when the third one broadcasts: the
    broadcast leaves one token, one of the two passes, and the other one waits for
    ever, whatever happens afterwards. *)
Theorem barrier_hangs :
  let ready := (run_on [pthread_barrier_init 16 NULL 3] blank [(0, 30)]%nat).2 in
  let c := run_on (replicate 3 (pthread_barrier_wait 16)) ready
             [(0, 18); (1, 18); (2, 60); (0, 60); (1, 60)]%nat in
  forall sched, results (run perform sched c) = [Some 0; None; Some 0].
Proof.
  intros ready c sched. unfold results.
  set (x := Rtt.mkSem 0 [1%nat] []).
  assert (E : exists k, c.1 = [PRet 0; PCall (SemTake 17 (-1)) k; PRet 0]).
  { vm_compute. eexists. reflexivity. }
  destruct E as [k E].
  assert (Hc : crit c.2 = None) by (vm_compute; reflexivity).
  assert (Hx : sems c.2 17 = x) by (vm_compute; reflexivity).
  destruct c as [ps s]. cbn [fst snd] in *. subst ps.
  by rewrite (stuck_for_ever 17 (-1) k x 0 0 sched s Hc Hx eq_refl eq_refl).
Qed.
