(* ===== verification/CTime.v ===== *)
(** * The calendar of the C library

    src/RTT/components/libc/minilibc/time.c: seconds since 1970 to a broken-down
    time and back, against a calendar that counts days month by month and year by
    year.  [time_t] has 32 bits without sign, so the last second is in February
    2106 and the rule for 2100 matters. *)

From S2P Require Import Prelude.

(** ** The code *)

(** Days before each month -- nonleap! *)
Definition __spm : list Z := [0; 31; 59; 90; 120; 151; 181; 212; 243; 273; 304; 334; 365].
Definition days : list Z := str "Sun Mon Tue Wed Thu Fri Sat " ++ [0].
Definition months : list Z := str "Jan Feb Mar Apr May Jun Jul Aug Sep Oct Nov Dec " ++ [0].

Definition SPD : Z := 24 * 60 * 60.

(** The members of [struct tm] that the functions use. *)
Record tm := mkTm {
  tm_sec : Z; tm_min : Z; tm_hour : Z; tm_mday : Z;
  tm_mon : Z; tm_year : Z; tm_wday : Z; tm_yday : Z
}.

Definition __isleap (year : Z) : bool :=
  (Z.rem year 4 =? 0) && (negb (Z.rem year 100 =? 0) || (Z.rem year 400 =? 0)).

(** [for (i = 1970;; ++i)]: takes off whole years. *)
Fixpoint year_loop (fuel : nat) (i work : Z) : res (Z * Z) :=
  match fuel with
  | O => Err OutOfFuel
  | S fuel =>
      let k := if __isleap i then 366 else 365 in
      if k <=? work then year_loop fuel (u32 (i + 1)) (work - k) else Ret (i, work)
  end.

(** [for (i = 11; i && (__spm[i] > work); --i)] *)
Fixpoint month_loop (i : nat) (work : Z) : res Z :=
  match i with
  | O => Ret 0
  | S i' =>
      v ← idx __spm (Z.of_nat i);
      if work <? v then month_loop i' work else Ret (Z.of_nat i)
  end.

(** The month and the day of the month from the day of the year. *)
Definition month_and_day (isleap : bool) (work : Z) : res (Z * Z) :=
  let '(mday, work) :=
    if isleap && (58 <? work) then (if work =? 59 then 2 else 1, u32 (work - 1)) else (1, work) in
  m ← month_loop 11 work;
  v ← idx __spm m;
  mret (m, s32 (mday + (work - v))).

Definition gmtime_r (timep : Z) : res tm :=
  let work := Z.rem timep SPD in
  let sec := Z.rem work 60 in
  let work := Z.quot work 60 in
  let min := Z.rem work 60 in
  let hour := Z.quot work 60 in
  let work := Z.quot timep SPD in
  let wday := Z.rem (u32 (4 + work)) 7 in
  '(i, work) ← year_loop 137 1970 work;
  '(mon, mday) ← month_and_day (__isleap i) work;
  mret (mkTm sec min hour mday mon (s32 (i - 1900)) wday work).

(** The day of the month against the days of the months before it:
    [while (t->tm_mday > __spm[1 + t->tm_mon])]. *)
Fixpoint mday_loop (fuel : nat) (mday mon year : Z) : res (Z * Z * Z) :=
  match fuel with
  | O => Err OutOfFuel
  | S fuel =>
      v ← idx __spm (s32 (1 + mon));
      if v <? mday then
        let mday := if (mon =? 1) && __isleap (s32 (year + 1900)) then s32 (mday - 1) else mday in
        v ← idx __spm mon;
        let mday := s32 (mday - v) in
        let mon := s32 (mon + 1) in
        if 11 <? mon then mday_loop fuel mday 0 (s32 (year + 1)) else mday_loop fuel mday mon year
      else Ret (mday, mon, year)
  end.

(** [if (low > limit) { high += low / base; low %= base; }], the carry that the
    function makes four times. *)
Definition carry (limit base low high : Z) : Z * Z :=
  if limit <? low then (Z.rem low base, s32 (high + Z.quot low base)) else (low, high).

(** The adjustment from 2101 on. *)
Definition centuries (years day : Z) : Z :=
  if 131 <=? years then
    let years := Z.quot (years - 131) 100 in
    let day := u32 (day - (Z.shiftr years 2 * 3 + 1)) in
    let years := Z.land years 3 in
    let years := if years =? 3 then years - 1 else years in
    u32 (day - years)
  else day.

(** What [timegm] leaves in the structure, and its value; [(time_t) -1] before
    1970.  The number of years is taken before the fields are brought into range. *)
Definition timegm (fuel : nat) (t : tm) : res (tm * Z) :=
  let years := u32 (tm_year t - 70) in
  let '(sec, min) := carry 60 60 (tm_sec t) (tm_min t) in
  let '(min, hour) := carry 60 60 min (tm_hour t) in
  let '(hour, mday) := carry 24 24 hour (tm_mday t) in
  let '(mon, year) := carry 12 12 (tm_mon t) (tm_year t) in
  '(mday, mon, year) ← mday_loop fuel mday mon year;
  if year <? 70 then Ret (mkTm sec min hour mday mon year (tm_wday t) (tm_yday t), u32 (-1)) else
  let day := u32 (years * 365 + Z.quot (u32 (years + 1)) 4) in
  let day := centuries years day in
  v ← idx __spm mon;
  let leap := if __isleap (s32 (year + 1900)) && (1 <? mon) then 1 else 0 in
  let yday := s32 (v + mday - 1 + leap) in
  let day := u32 (day + yday) in
  let wday := Z.rem (u32 (day + 4)) 7 in
  mret (mkTm sec min hour mday mon year wday yday,
        u32 (((day * 24 + hour) * 60 + min) * 60 + sec)).

(** [gettimeofday] does not touch its second argument, so the time zone is always
    the 0 it was initialised with. *)
Definition timezone : Z := s32 (0 * 60).
Definition localtime_r (t : Z) : res tm := gmtime_r (u32 (t + timezone)).
Definition mktime (fuel : nat) (t : tm) : res (tm * Z) :=
  '(t, x) ← timegm fuel t; mret (t, u32 (x + timezone)).

(** [rtc]: what the clock device answers, none when there is no such device.  The
    value of the call, and what it stores at [tp]. *)
Definition gettimeofday (rtc : option Z) : Z * option (Z * Z) :=
  match rtc with
  | Some time => (s32 time, Some (s32 time, 0))
  | None => (0, None)
  end.

Definition num2str (buf : list Z) (c i : Z) : res (list Z) :=
  buf ← upd buf c (u8 (Z.quot i 10 + 48));
  upd buf (c + 1) (u8 (Z.rem i 10 + 48)).

(** A word of a string: [*(int* ) buf = *(int* ) (l + i)]. *)
Definition word_at (l : list Z) (i : Z) : res (list Z) :=
  if decide (0 <= i /\ i + 4 <= Z.of_nat (length l)) then Ret (take 4 (drop (Z.to_nat i) l))
  else Err OutOfBounds.

Definition asctime_r (t : tm) (buf : list Z) : res (list Z) :=
  w ← word_at days (s32 (Z.shiftl (tm_wday t) 2));
  buf ← upd_range buf 0 w;
  w ← word_at months (s32 (Z.shiftl (tm_mon t) 2));
  buf ← upd_range buf 4 w;
  buf ← num2str buf 8 (tm_mday t);
  c ← idx buf 8;
  buf ← (if c =? 48 then upd buf 8 32 else Ret buf);
  buf ← upd buf 10 32;
  buf ← num2str buf 11 (tm_hour t);
  buf ← upd buf 13 58;
  buf ← num2str buf 14 (tm_min t);
  buf ← upd buf 16 58;
  buf ← num2str buf 17 (tm_sec t);
  buf ← upd buf 19 32;
  buf ← num2str buf 20 (Z.quot (s32 (tm_year t + 1900)) 100);
  buf ← num2str buf 22 (Z.rem (s32 (tm_year t + 1900)) 100);
  upd buf 24 10.

(** The static buffers start as zeroes. *)
Definition asctime (buf : list Z) (t : tm) : res (list Z) := asctime_r t buf.
Definition ctime (buf : list Z) (timep : Z) : res (list Z) := t ← localtime_r timep; asctime buf t.

(** ** The calendar *)

Definition leap (y : Z) : Prop := (y mod 4 = 0 /\ y mod 100 <> 0) \/ y mod 400 = 0.
#[global] Instance leap_dec y : Decision (leap y).
Proof. unfold leap. apply _. Defined.

Definition year_days (y : Z) : Z := if decide (leap y) then 366 else 365.

(** Months are counted from 0. *)
Definition month_days (y m : Z) : Z :=
  if decide (m = 1) then (if decide (leap y) then 29 else 28)
  else if decide (m ∈ [3; 5; 8; 10]) then 30 else 31.

Definition sum (l : list Z) : Z := foldr Z.add 0 l.

(** Days from 1 January 1970 to 1 January of [y], and from there to the first of
    month [m]. *)
Definition days_to_year (y : Z) : Z := sum (year_days <$> seqZ 1970 (y - 1970)).
Definition days_to_month (y m : Z) : Z := sum (month_days y <$> seqZ 0 m).

Definition year_of (t : tm) : Z := tm_year t + 1900.

(** A date and time of day that exists, from 1970 on. *)
Definition valid (t : tm) : Prop :=
  0 <= tm_sec t < 60 /\ 0 <= tm_min t < 60 /\ 0 <= tm_hour t < 24 /\
  1970 <= year_of t /\ 0 <= tm_mon t < 12 /\ 1 <= tm_mday t <= month_days (year_of t) (tm_mon t).

Definition yday_of (t : tm) : Z := days_to_month (year_of t) (tm_mon t) + tm_mday t - 1.
Definition days_of (t : tm) : Z := days_to_year (year_of t) + yday_of t.
Definition seconds_of (t : tm) : Z :=
  ((days_of t * 24 + tm_hour t) * 60 + tm_min t) * 60 + tm_sec t.

(** The day of the week (1 January 1970 was a Thursday) and of the year. *)
Definition complete (t : tm) : Prop := tm_wday t = (days_of t + 4) mod 7 /\ tm_yday t = yday_of t.

(** ** The calendar counted *)

Lemma isleap_leap y : 0 <= y -> __isleap y = bool_decide (leap y).
Proof.
  intros Hy. unfold __isleap, leap. rewrite !Z.rem_mod_nonneg by lia.
  symmetry. destruct (Z.eqb_spec (y mod 4) 0), (Z.eqb_spec (y mod 100) 0), (Z.eqb_spec (y mod 400) 0);
    cbn; case_bool_decide; try done; exfalso; Z.div_mod_to_equations; lia.
Qed.

Lemma sum_app l1 l2 : sum (l1 ++ l2) = sum l1 + sum l2.
Proof. unfold sum. induction l1 as [|x l IH]; cbn; lia. Qed.

Lemma days_to_year_next y : 1970 <= y -> days_to_year (y + 1) = days_to_year y + year_days y.
Proof.
  intros Hy. unfold days_to_year. replace (y + 1 - 1970) with (y - 1970 + 1) by lia.
  rewrite seqZ_app, fmap_app, sum_app by lia.
  replace (1970 + (y - 1970)) with y by lia. rewrite (seqZ_cons y 1), (seqZ_nil (Z.succ y)) by lia.
  unfold sum at 2. cbn [fmap list_fmap foldr]. lia.
Qed.

Lemma year_days_pos y : 365 <= year_days y <= 366.
Proof. unfold year_days. case_decide; lia. Qed.

Lemma days_to_year_mono y n : 1970 <= y -> days_to_year y + 365 * Z.of_nat n <= days_to_year (y + Z.of_nat n).
Proof.
  intros Hy. induction n as [|n IH]; [replace (y + Z.of_nat 0) with y by lia; lia|].
  replace (y + Z.of_nat (S n)) with (y + Z.of_nat n + 1) by lia.
  rewrite days_to_year_next by lia. pose proof (year_days_pos (y + Z.of_nat n)). lia.
Qed.

Lemma days_to_year_lt y y' : 1970 <= y -> y < y' -> days_to_year y + year_days y <= days_to_year y'.
Proof.
  intros Hy Hlt. rewrite <- days_to_year_next by done.
  pose proof (days_to_year_mono (y + 1) (Z.to_nat (y' - y - 1)) ltac:(lia)) as Hm.
  replace (y + 1 + Z.of_nat (Z.to_nat (y' - y - 1))) with y' in Hm by lia. lia.
Qed.

(** What a month and a day of the year depend on is whether the year is leap. *)
Definition sample (b : bool) : Z := if b then 2000 else 2001.

Lemma month_days_sample y m : month_days y m = month_days (sample (bool_decide (leap y))) m.
Proof.
  unfold month_days. case_decide; [|done]. destruct (decide (leap y)) as [Hl|Hl].
  - by rewrite bool_decide_true.
  - by rewrite bool_decide_false.
Qed.

Lemma days_to_month_sample y m : days_to_month y m = days_to_month (sample (bool_decide (leap y))) m.
Proof.
  unfold days_to_month. f_equal. apply list_fmap_ext. intros i x _. apply month_days_sample.
Qed.

Lemma year_days_sample y : year_days y = 365 + Z.b2z (bool_decide (leap y)).
Proof. unfold year_days. case_decide; [rewrite bool_decide_true|rewrite bool_decide_false]; done. Qed.

Lemma for_all_Z (P : Z -> bool) lo n x : forallb P (seqZ lo n) = true -> lo <= x < lo + n -> P x = true.
Proof. intros H Hx. rewrite forallb_forall in H. apply H, list_elem_of_In, elem_of_seqZ. lia. Qed.

(** ** The loops of [gmtime_r] *)

Lemma year_loop_spec fuel : forall y work,
  1970 <= y -> y + Z.of_nat fuel < 3000 -> 0 <= work ->
  work + days_to_year y < days_to_year (y + Z.of_nat fuel) ->
  exists y' work', year_loop fuel y work = Ret (y', work') /\ y <= y' < y + Z.of_nat fuel /\
  days_to_year y' + work' = days_to_year y + work /\ 0 <= work' < year_days y'.
Proof.
  induction fuel as [|fuel IH]; intros y work Hy Hf Hw Hlt; [replace (y + Z.of_nat 0) with y in Hlt by lia; lia|].
  cbn [year_loop]. rewrite isleap_leap by lia.
  assert (Hk : (if bool_decide (leap y) then 366 else 365) = year_days y).
  { rewrite year_days_sample. by destruct (bool_decide (leap y)). }
  rewrite Hk. destruct (Z.leb_spec (year_days y) work) as [Hle|Hgt].
  - rewrite wrap_id by lia. pose proof (year_days_pos y).
    replace (y + Z.of_nat (S fuel)) with (y + 1 + Z.of_nat fuel) in * by lia.
    destruct (IH (y + 1) (work - year_days y)) as (y' & w' & E & ? & ? & ?); try lia.
    + rewrite days_to_year_next by lia. lia.
    + exists y', w'. rewrite days_to_year_next in * by lia. repeat split; try done; lia.
  - exists y, work. repeat split; try done; lia.
Qed.

Lemma month_and_day_spec b work :
  0 <= work < 365 + Z.b2z b ->
  exists m d, month_and_day b work = Ret (m, d) /\ 0 <= m < 12 /\
  1 <= d <= month_days (sample b) m /\ days_to_month (sample b) m + d - 1 = work.
Proof.
  intros Hw.
  assert (Hc : forallb (fun b => forallb (fun w =>
      match month_and_day b w with
      | Ret (m, d) => (0 <=? m) && (m <? 12) && (1 <=? d) && (d <=? month_days (sample b) m) &&
                      (days_to_month (sample b) m + d - 1 =? w)
      | Err _ => false
      end) (seqZ 0 (365 + Z.b2z b))) [true; false] = true) by (vm_compute; reflexivity).
  rewrite forallb_forall in Hc. specialize (Hc b ltac:(destruct b; cbn; auto)).
  pose proof (for_all_Z _ _ _ work Hc ltac:(lia)) as H. cbv beta in H.
  destruct (month_and_day b work) as [[m d]|]; [|done].
  rewrite !andb_true_iff, !Z.leb_le, Z.ltb_lt, Z.eqb_eq in H.
  exists m, d. repeat split; lia.
Qed.

Lemma days_1970 : days_to_year 1970 = 0.
Proof. reflexivity. Qed.

Lemma days_2107 : days_to_year 2107 = 50038.
Proof. vm_compute. reflexivity. Qed.

(** ** The loops of [timegm] *)

Lemma month_days_le y m : month_days y m <= 31.
Proof. unfold month_days. repeat case_decide; lia. Qed.

Lemma spm_lookup m : 0 <= m < 12 ->
  exists v v', idx __spm m = Ret v /\ idx __spm (1 + m) = Ret v' /\ 31 <= v' /\
  forall b, v + (if b && (1 <? m) then 1 else 0) = days_to_month (sample b) m.
Proof.
  intros Hm.
  assert (Hc : forallb (fun m => match idx __spm m, idx __spm (1 + m) with
      | Ret v, Ret v' => (31 <=? v') && (v + 0 =? days_to_month (sample false) m) &&
                         (v + (if 1 <? m then 1 else 0) =? days_to_month (sample true) m)
      | _, _ => false end) (seqZ 0 12) = true) by (vm_compute; reflexivity).
  pose proof (for_all_Z _ _ _ m Hc ltac:(lia)) as H. cbv beta in H.
  destruct (idx __spm m) as [v|]; [|done]. destruct (idx __spm (1 + m)) as [v'|]; [|done].
  rewrite !andb_true_iff, Z.leb_le, !Z.eqb_eq in H. exists v, v'. repeat split; try done; [lia|].
  intros []; cbn [andb]; lia.
Qed.

(** The closed formula for the days of whole years. *)
Lemma years_formula y : 1970 <= y < 2107 ->
  centuries (y - 1970) (u32 ((y - 1970) * 365 + Z.quot (u32 (y - 1970 + 1)) 4)) = days_to_year y.
Proof.
  intros Hy.
  assert (Hc : forallb (fun y =>
      centuries (y - 1970) (u32 ((y - 1970) * 365 + Z.quot (u32 (y - 1970 + 1)) 4)) =? days_to_year y)
      (seqZ 1970 137) = true) by (vm_compute; reflexivity).
  pose proof (for_all_Z _ _ _ y Hc ltac:(lia)) as H. by apply Z.eqb_eq in H.
Qed.

Lemma carry_none limit base low high : low <= limit -> carry limit base low high = (low, high).
Proof. intros. unfold carry. destruct (Z.ltb_spec limit low); [lia|done]. Qed.

Lemma days_to_month_bounds b m : 0 <= m < 12 -> 0 <= days_to_month (sample b) m <= 335.
Proof.
  intros Hm.
  assert (Hc : forallb (fun b => forallb (fun m => (0 <=? days_to_month (sample b) m) &&
     (days_to_month (sample b) m <=? 335)) (seqZ 0 12)) [true; false] = true) by (vm_compute; reflexivity).
  rewrite forallb_forall in Hc. specialize (Hc b ltac:(destruct b; cbn; auto)).
  pose proof (for_all_Z _ _ _ m Hc ltac:(lia)) as H. cbv beta in H.
  rewrite andb_true_iff, !Z.leb_le in H. lia.
Qed.

Lemma valid_bounds t : valid t -> seconds_of t < 2 ^ 32 -> year_of t < 2107 /\ 0 <= yday_of t <= 365.
Proof.
  intros (Hs & Hm & Hh & Hy & Hmon & Hd) Hlt.
  pose proof (days_to_month_bounds (bool_decide (leap (year_of t))) (tm_mon t) Hmon) as Hb.
  rewrite <- days_to_month_sample in Hb. pose proof (month_days_le (year_of t) (tm_mon t)).
  unfold seconds_of, days_of, yday_of in *. split; [|lia].
  destruct (Z.lt_ge_cases (year_of t) 2107) as [|Hge]; [done|].
  pose proof (days_to_year_mono 2107 (Z.to_nat (year_of t - 2107)) ltac:(lia)) as Hmo.
  replace (2107 + Z.of_nat (Z.to_nat (year_of t - 2107))) with (year_of t) in Hmo by lia.
  rewrite days_2107 in Hmo. lia.
Qed.

(** ** The theorems *)

Lemma gmtime_calendar_aux timep : 0 <= timep < 2 ^ 32 ->
  exists t, gmtime_r timep = Ret t /\ valid t /\ complete t /\ seconds_of t = timep.
Proof.
  intros Ht. unfold gmtime_r, SPD.
  change (24 * 60 * 60) with 86400.
  rewrite (Z.rem_mod_nonneg timep), (Z.quot_div_nonneg timep) by lia.
  assert (Hwork : 0 <= timep mod 86400 < 86400) by (apply Z.mod_pos_bound; lia).
  rewrite (Z.rem_mod_nonneg (timep mod 86400)), (Z.quot_div_nonneg (timep mod 86400)) by lia.
  assert (Hmin : 0 <= timep mod 86400 / 60) by (apply Z.div_pos; lia).
  rewrite (Z.rem_mod_nonneg (timep mod 86400 / 60)), (Z.quot_div_nonneg (timep mod 86400 / 60)) by lia.
  set (d := timep / 86400).
  assert (Hd : 0 <= d < 49711) by (unfold d; Z.div_mod_to_equations; lia).
  destruct (year_loop_spec 137 1970 d) as (y & w & -> & Hy & Hsum & Hw);
    [lia|lia|lia|change (1970 + Z.of_nat 137) with 2107; rewrite days_1970, days_2107; lia|].
  cbn [mbind res_bind]. rewrite isleap_leap by lia. rewrite year_days_sample in Hw.
  destruct (month_and_day_spec (bool_decide (leap y)) w Hw) as (m & dd & -> & Hm & Hdd & Hyd).
  cbn [mbind res_bind mret res_ret].
  rewrite <- month_days_sample in Hdd. rewrite <- days_to_month_sample in Hyd.
  rewrite days_1970 in Hsum.
  rewrite !Z.rem_mod_nonneg by (try apply wrap_bounds; lia).
  rewrite (swrap_id 32 (y - 1900)) by (cbn in *; lia). rewrite (wrap_id 32 (4 + d)) by lia.
  eexists. split; [done|].
  assert (Ey : year_of (mkTm (timep mod 86400 mod 60) (timep mod 86400 / 60 mod 60)
     (timep mod 86400 / 60 / 60) dd m (y - 1900) ((4 + d) mod 7) w) = y) by (unfold year_of; cbn; lia).
  unfold valid, complete, seconds_of, days_of, yday_of. rewrite Ey.
  cbn [tm_sec tm_min tm_hour tm_mday tm_mon tm_wday tm_yday].
  assert (E : days_to_year y + (days_to_month y m + dd - 1) = d) by lia. rewrite E.
  split; [|split; [split; [f_equal; lia|lia]|]].
  - repeat split; try lia; Z.div_mod_to_equations; lia.
  - unfold d. Z.div_mod_to_equations; lia.
Qed.

(** [timegm] counts back: a date that exists, before the 32 bits run out,
    is turned into its seconds after the start of 1970 (leap years, and the year 2100
    that is none, included), with the day of the week and of the year filled in. *)
Lemma timegm_calendar fuel t : valid t -> seconds_of t < 2 ^ 32 -> (0 < fuel)%nat ->
  timegm fuel t =
  Ret (mkTm (tm_sec t) (tm_min t) (tm_hour t) (tm_mday t) (tm_mon t) (tm_year t)
         ((days_of t + 4) mod 7) (yday_of t), seconds_of t).
Proof.
  intros Hv Hlt Hf. pose proof (valid_bounds t Hv Hlt) as [Hy2 Hyd].
  destruct Hv as (Hs & Hm & Hh & Hy & Hmon & Hd). unfold timegm.
  rewrite (carry_none 60), (carry_none 60), (carry_none 24), (carry_none 12) by lia.
  destruct fuel as [|fuel]; [lia|]. cbn [mday_loop].
  destruct (spm_lookup (tm_mon t) Hmon) as (v & v' & Ev & Ev' & Hv' & Hspm).
  pose proof (month_days_le (year_of t) (tm_mon t)).
  rewrite (swrap_id 32 (1 + tm_mon t)), Ev' by (cbn; lia). cbn [mbind res_bind].
  destruct (Z.ltb_spec v' (tm_mday t)) as [|_]; [lia|]. cbn [mbind res_bind].
  unfold year_of in *. destruct (Z.ltb_spec (tm_year t) 70) as [|_]; [lia|].
  rewrite Ev. cbn [mbind res_bind mret res_ret].
  rewrite (swrap_id 32 (tm_year t + 1900)) by (cbn; lia). rewrite isleap_leap by lia.
  rewrite (wrap_id 32 (tm_year t - 70)) by lia.
  replace (tm_year t - 70) with (tm_year t + 1900 - 1970) by lia. rewrite years_formula by lia.
  pose proof (Hspm (bool_decide (leap (tm_year t + 1900)))) as Hspm'.
  rewrite <- days_to_month_sample in Hspm'.
  replace (v + tm_mday t - 1 + _) with (yday_of t) by (unfold yday_of, year_of; rewrite <- Hspm'; lia).
  rewrite (swrap_id 32 (yday_of t)) by (cbn; lia).
  assert (Hdays : 0 <= days_to_year (tm_year t + 1900)).
  { pose proof (days_to_year_mono 1970 (Z.to_nat (tm_year t - 70)) ltac:(lia)) as Hmo.
    rewrite days_1970 in Hmo.
    replace (1970 + Z.of_nat (Z.to_nat (tm_year t - 70))) with (tm_year t + 1900) in Hmo by lia. lia. }
  unfold seconds_of, days_of, year_of in *.
  rewrite (wrap_id 32 (_ + yday_of t)), (wrap_id 32 (_ + 4)) by lia.
  rewrite Z.rem_mod_nonneg by lia. by rewrite wrap_id by lia.
Qed.

(** A month ends before the next one starts, and the last one with the year. *)
Lemma month_order b m m' : 0 <= m < m' -> m' < 12 ->
  days_to_month (sample b) m + month_days (sample b) m <= days_to_month (sample b) m' /\
  days_to_month (sample b) m' + month_days (sample b) m' <= 365 + Z.b2z b.
Proof.
  intros Hm Hm'.
  assert (Hc : forallb (fun b => forallb (fun m => forallb (fun m' =>
      (m' <=? m) || ((days_to_month (sample b) m + month_days (sample b) m <=? days_to_month (sample b) m') &&
      (days_to_month (sample b) m' + month_days (sample b) m' <=? 365 + Z.b2z b)))
      (seqZ 0 12)) (seqZ 0 12)) [true; false] = true) by (vm_compute; reflexivity).
  rewrite forallb_forall in Hc. specialize (Hc b ltac:(destruct b; cbn; auto)).
  pose proof (for_all_Z _ _ _ m Hc ltac:(lia)) as H. cbv beta in H.
  pose proof (for_all_Z _ _ _ m' H ltac:(lia)) as H'. cbv beta in H'.
  rewrite orb_true_iff, andb_true_iff, !Z.leb_le in H'. lia.
Qed.

Lemma month_unique y m d m' d' :
  0 <= m < 12 -> 0 <= m' < 12 -> 1 <= d <= month_days y m -> 1 <= d' <= month_days y m' ->
  days_to_month y m + d = days_to_month y m' + d' -> m = m' /\ d = d'.
Proof.
  rewrite !(month_days_sample y), !(days_to_month_sample y). intros Hm Hm' Hd Hd' E.
  destruct (Z.lt_trichotomy m m') as [Hlt|[->|Hlt]]; [|lia|].
  - pose proof (month_order (bool_decide (leap y)) m m' ltac:(lia) ltac:(lia)). lia.
  - pose proof (month_order (bool_decide (leap y)) m' m ltac:(lia) ltac:(lia)). lia.
Qed.

Lemma yday_lt t : valid t -> 0 <= yday_of t < year_days (year_of t).
Proof.
  intros (_ & _ & _ & _ & Hm & Hd). unfold yday_of. rewrite year_days_sample.
  rewrite days_to_month_sample. rewrite month_days_sample in Hd.
  pose proof (days_to_month_bounds (bool_decide (leap (year_of t))) (tm_mon t) Hm).
  destruct (decide (tm_mon t = 0)) as [E|].
  - rewrite E in *. pose proof (month_order (bool_decide (leap (year_of t))) 0 1 ltac:(lia) ltac:(lia)).
    pose proof (days_to_month_bounds (bool_decide (leap (year_of t))) 1 ltac:(lia)).
    destruct (bool_decide (leap (year_of t))); cbn [Z.b2z] in *; lia.
  - pose proof (month_order (bool_decide (leap (year_of t))) 0 (tm_mon t) ltac:(lia) ltac:(lia)). lia.
Qed.

(** A valid date is determined by its day. *)
Lemma days_of_inj t t' : valid t -> valid t' -> days_of t = days_of t' ->
  year_of t = year_of t' /\ tm_mon t = tm_mon t' /\ tm_mday t = tm_mday t'.
Proof.
  intros Hv Hv' E. pose proof (yday_lt t Hv) as Hy. pose proof (yday_lt t' Hv') as Hy'.
  destruct Hv as (_ & _ & _ & H1970 & Hm & Hd), Hv' as (_ & _ & _ & H1970' & Hm' & Hd').
  unfold days_of in E.
  assert (Eyr : year_of t = year_of t').
  { destruct (Z.lt_trichotomy (year_of t) (year_of t')) as [Hlt|[?|Hlt]]; [|done|].
    - pose proof (days_to_year_lt _ _ H1970 Hlt). lia.
    - pose proof (days_to_year_lt _ _ H1970' Hlt). lia. }
  split; [done|]. unfold yday_of in *. rewrite <- Eyr in *.
  apply (month_unique (year_of t)); [done..|lia].
Qed.

(** C19: the two functions are inverse to each other: [timegm] of what [gmtime_r]
    makes of a time is that time, with nothing changed in the structure; and
    [gmtime_r] of what [timegm] makes of a valid date is that date, the day of the
    week and of the year filled in. *)
Theorem time_roundtrip :
  (forall timep fuel, 0 <= timep < 2 ^ 32 -> (0 < fuel)%nat ->
     (gmtime_r timep ≫= timegm fuel) = (t ← gmtime_r timep; mret (t, timep))) /\
  (forall t fuel, valid t -> seconds_of t < 2 ^ 32 -> (0 < fuel)%nat ->
     exists t', timegm fuel t = Ret (t', seconds_of t) /\ gmtime_r (seconds_of t) = Ret t').
Proof.
  split.
  - intros timep fuel Ht Hf. destruct (gmtime_calendar_aux timep Ht) as (t & -> & Hv & [Hw Hy] & Hsec).
    cbn [mbind res_bind mret res_ret]. rewrite (timegm_calendar fuel t Hv ltac:(lia) Hf).
    rewrite <- Hw, <- Hy, Hsec. by destruct t.
  - intros t fuel Hv Hlt Hf. eexists. split; [by apply timegm_calendar|].
    pose proof (valid_bounds t Hv Hlt) as [_ Hyd].
    assert (Hnn : 0 <= seconds_of t).
    { destruct Hv as (Hs & Hm & Hh & Hy & _). unfold seconds_of, days_of.
      pose proof (days_to_year_mono 1970 (Z.to_nat (year_of t - 1970)) ltac:(lia)) as Hmo.
      rewrite days_1970 in Hmo.
      replace (1970 + Z.of_nat (Z.to_nat (year_of t - 1970))) with (year_of t) in Hmo by lia. lia. }
    destruct (gmtime_calendar_aux (seconds_of t) ltac:(lia)) as (t' & -> & Hv' & [Hw Hy] & Hsec).
    assert (Ed : days_of t' = days_of t /\ tm_hour t' = tm_hour t /\ tm_min t' = tm_min t /\ tm_sec t' = tm_sec t).
    { destruct Hv as (? & ? & ? & _), Hv' as (? & ? & ? & _). unfold seconds_of in Hsec. lia. }
    destruct Ed as (Ed & Eh & Em & Es).
    destruct (days_of_inj t' t Hv' Hv Ed) as (Ey & Emon & Emd).
    f_equal. rewrite <- Ed, <- Hw. unfold yday_of in *. rewrite <- Ey, <- Emon, <- Emd, <- Hy.
    unfold year_of in Ey. destruct t', t; cbn in *. f_equal; lia.
Qed.

(** C26: [gmtime_r] is the calendar: for every value of the 32 bit [time_t] it
    gives a date and a time of day that exist, lie that many seconds after the
    start of 1970, and have the right day of the week and of the year; none of its
    loops runs away and no table is read outside its bounds. *)
Theorem gmtime_calendar timep : 0 <= timep < 2 ^ 32 ->
  exists t, gmtime_r timep = Ret t /\ valid t /\ complete t /\ seconds_of t = timep.
Proof. apply gmtime_calendar_aux. Qed.

(** ** Text *)

Definition two (n : Z) : list Z := [48 + n / 10; 48 + n mod 10].

(** "Wed Jun 30 21:49:08 1993\n" *)
Definition time_text (t : tm) : list Z :=
  take 4 (drop (Z.to_nat (4 * tm_wday t)) days) ++
  take 4 (drop (Z.to_nat (4 * tm_mon t)) months) ++
  (if tm_mday t <? 10 then [32; 48 + tm_mday t] else two (tm_mday t)) ++ [32] ++
  two (tm_hour t) ++ [58] ++ two (tm_min t) ++ [58] ++ two (tm_sec t) ++ [32] ++
  two (year_of t / 100) ++ two (year_of t mod 100) ++ [10].

Lemma num2str_two buf c i :
  0 <= c -> c + 2 <= Z.of_nat (length buf) -> 0 <= i < 100 ->
  num2str buf c i = upd_range buf c (two i).
Proof.
  intros Hc Hl Hi. unfold num2str, two.
  rewrite Z.quot_div_nonneg, Z.rem_mod_nonneg by lia.
  rewrite !wrap_id by (cbn; Z.div_mod_to_equations; lia).
  rewrite (Z.add_comm (i / 10)), (Z.add_comm (i mod 10)).
  rewrite upd_ok by lia. cbn [mbind res_bind]. rewrite upd_ok by (rewrite length_insert; lia).
  unfold upd_range. rewrite decide_True by (cbn; lia). f_equal.
  rewrite <- (take_drop (Z.to_nat c) buf) at 1.
  assert (Hd : (2 <= length (drop (Z.to_nat c) buf))%nat) by (rewrite length_drop; lia).
  assert (Ht : length (take (Z.to_nat c) buf) = Z.to_nat c) by (rewrite length_take; lia).
  rewrite <- drop_drop. cbn [length].
  destruct (drop (Z.to_nat c) buf) as [|x [|y l]]; [cbn in Hd; lia..|].
  rewrite insert_app_r_alt by (rewrite Ht; lia). rewrite Ht, Nat.sub_diag. cbn [insert list_insert].
  rewrite insert_app_r_alt by (rewrite Ht; lia). rewrite Ht.
  replace (Z.to_nat (c + 1) - Z.to_nat c)%nat with 1%nat by lia. done.
Qed.

Lemma word_at_four l i n : 0 <= i -> length l = n -> i + 4 <= Z.of_nat n ->
  exists a b c d, word_at l i = Ret [a; b; c; d] /\ take 4 (drop (Z.to_nat i) l) = [a; b; c; d].
Proof.
  intros Hi Hl Hn. unfold word_at. rewrite decide_True by lia.
  assert (Ht : length (take 4 (drop (Z.to_nat i) l)) = 4%nat) by (rewrite length_take, length_drop; lia).
  destruct (take 4 (drop (Z.to_nat i) l)) as [|a [|b [|c [|d [|]]]]]; try done. eauto 6.
Qed.

Lemma upd_range_in (l : list Z) i src : 0 <= i /\ i + Z.of_nat (length src) <= Z.of_nat (length l) ->
  upd_range l i src = Ret (take (Z.to_nat i) l ++ src ++ drop (Z.to_nat i + length src) l).
Proof. intros Hr. unfold upd_range. by rewrite decide_True. Qed.

(** Writes into a buffer whose bytes are listed. *)
Ltac at_buf :=
  repeat (first [rewrite upd_range_in by (cbn [length]; lia)
      | rewrite num2str_two by (cbn [length]; lia); unfold two at 1
      | rewrite upd_ok by (cbn [length]; lia)];
    repeat match goal with |- context [Z.to_nat ?n] =>
      let v := eval vm_compute in (Z.to_nat n) in change (Z.to_nat n) with v end;
    cbn [mbind res_bind length take drop app insert list_insert Nat.add]).

Lemma asctime_r_text t buf :
  valid t -> 0 <= tm_wday t < 7 -> year_of t < 10000 -> length buf = 25%nat ->
  asctime_r t buf = Ret (time_text t).
Proof.
  intros (Hs & Hm & Hh & Hy & Hmon & Hd) Hw Hy2 Hb. unfold asctime_r, time_text, year_of in *.
  pose proof (month_days_le (tm_year t + 1900) (tm_mon t)).
  rewrite !Z.shiftl_mul_pow2 by lia. rewrite !(swrap_id 32) by (cbn; lia).
  rewrite (Z.mul_comm (tm_wday t)), (Z.mul_comm (tm_mon t)). change (2 ^ 2) with 4.
  destruct (word_at_four days (4 * tm_wday t) 29) as (d1 & d2 & d3 & d4 & -> & ->); [lia|done|lia|].
  destruct (word_at_four months (4 * tm_mon t) 49) as (m1 & m2 & m3 & m4 & -> & ->); [lia|done|lia|].
  rewrite Z.quot_div_nonneg, Z.rem_mod_nonneg by lia.
  do 25 (destruct buf as [|? buf]; [done|]). destruct buf; [|done]. clear Hb.
  assert (0 <= (tm_year t + 1900) / 100 < 100) by (Z.div_mod_to_equations; lia).
  assert (0 <= (tm_year t + 1900) mod 100 < 100) by (Z.div_mod_to_equations; lia).
  cbn [mbind res_bind]. at_buf. rewrite (proj2 (idx_Ret _ 8 (48 + tm_mday t / 10))) by done.
  cbn [mbind res_bind].
  destruct (Z.ltb_spec (tm_mday t) 10).
  - rewrite (Z.div_small (tm_mday t) 10), (Z.mod_small (tm_mday t) 10) by lia.
    change (48 + 0 =? 48) with true. cbn [mbind res_bind].
    at_buf. done.
  - destruct (Z.eqb_spec (48 + tm_mday t / 10) 48); [Z.div_mod_to_equations; lia|].
    cbn [mbind res_bind]. at_buf. done.
Qed.

(** No byte of the text is a zero. *)
Lemma time_text_nonzero t : valid t -> 0 <= tm_wday t < 7 -> Forall (fun c => c <> 0) (time_text t).
Proof.
  intros (Hs & Hm & Hh & Hy & Hmon & Hd) Hw.
  assert (Hnames : forall l n k, forallb (fun k => forallb (fun c => negb (c =? 0))
      (take 4 (drop (Z.to_nat (4 * k)) l))) (seqZ 0 n) = true -> 0 <= k < n ->
      Forall (fun c => c <> 0) (take 4 (drop (Z.to_nat (4 * k)) l))).
  { intros l n k Hc Hk. pose proof (for_all_Z _ _ _ k Hc ltac:(lia)) as H. cbv beta in H.
    rewrite forallb_forall in H. apply Forall_forall. intros c Hin%list_elem_of_In%H.
    by apply negb_true_iff, Z.eqb_neq in Hin. }
  assert (Htwo : forall n, 0 <= n -> Forall (fun c => c <> 0) (two n)).
  { intros n Hn. repeat constructor; Z.div_mod_to_equations; lia. }
  assert (Hsmall : forall c, 0 < c -> Forall (fun c => c <> 0) [c]) by (repeat constructor; lia).
  unfold time_text, year_of in *. rewrite !Forall_app. repeat split.
  - by apply (Hnames days 7).
  - by apply (Hnames months 12).
  - destruct (tm_mday t <? 10); [repeat constructor; lia|apply Htwo; lia].
  - by apply Hsmall.
  - apply Htwo; lia.
  - by apply Hsmall.
  - apply Htwo; lia.
  - by apply Hsmall.
  - apply Htwo; lia.
  - by apply Hsmall.
  - apply Htwo. Z.div_mod_to_equations; lia.
  - apply Htwo. Z.div_mod_to_equations; lia.
  - by apply Hsmall.
Qed.

(** [ctime] writes the text of the time into the 25 bytes of [asctime]'s
    static buffer and fills it completely: there is no room for a terminator, and
    whoever reads the result as a string reads past its end. *)
Theorem ctime_text timep buf : 0 <= timep < 2 ^ 32 -> length buf = 25%nat ->
  exists t, gmtime_r timep = Ret t /\ seconds_of t = timep /\
            ctime buf timep = Ret (time_text t) /\ cstr (time_text t) = Err OutOfBounds.
Proof.
  intros Ht Hb. destruct (gmtime_calendar_aux timep Ht) as (t & E & Hv & [Hw _] & Hsec).
  exists t. split; [done|]. split; [done|].
  pose proof (valid_bounds t Hv ltac:(lia)) as [Hy _].
  assert (Hw' : 0 <= tm_wday t < 7) by (rewrite Hw; apply Z.mod_pos_bound; lia).
  split.
  - unfold ctime, localtime_r. change (timezone) with 0. rewrite Z.add_0_r, wrap_id, E by lia.
    cbn [mbind res_bind]. apply asctime_r_text; [done|done|lia|done].
  - apply full_cstr. by apply time_text_nonzero.
Qed.

Lemma ctime_text_witness : exists t, gmtime_r 951782400 = Ret t /\ seconds_of t = 951782400 /\
  ctime (replicate 25 0) 951782400 = Ret (time_text t) /\ cstr (time_text t) = Err OutOfBounds.
Proof. apply ctime_text; [lia | reflexivity]. Defined.

Lemma gmtime_calendar_witness :
  exists t, gmtime_r 4294967295 = Ret t /\ valid t /\ complete t /\ seconds_of t = 4294967295.
Proof. apply gmtime_calendar. lia. Defined.

(** 29 February 2000, noon. *)
Definition leap_day : tm := mkTm 0 0 12 29 1 100 0 0.

Lemma leap_day_valid : valid leap_day.
Proof. unfold valid, year_of; cbn. repeat split; try lia; vm_compute; discriminate. Qed.

Lemma time_roundtrip_witness :
  (gmtime_r 4107542400 ≫= timegm 1) = (t ← gmtime_r 4107542400; mret (t, 4107542400)) /\
  exists t', timegm 1 leap_day = Ret (t', seconds_of leap_day) /\ gmtime_r (seconds_of leap_day) = Ret t'.
Proof.
  split.
  - apply (proj1 time_roundtrip); lia.
  - apply (proj2 time_roundtrip); [exact leap_day_valid | vm_compute; reflexivity | lia].
Defined.

(** ** Dates out of range

    What [timegm] says it can bring into range it does not. *)

(** 32 January is taken for 32 February: [__spm[mon]] is subtracted, the days of
    the months before, and not the days of the month. *)
Example timegm_day_32 :
  (snd <$> timegm 3 (mkTm 0 0 0 32 0 70 0 0)) = Ret (62 * SPD).
Proof. vm_compute. reflexivity. Qed.

(** Month 13 of 1970 is February 1971 in the structure, but the seconds are those of
    February 1970: the years were counted before. *)
Example timegm_month_13 :
  timegm 1 (mkTm 0 0 0 1 13 70 0 0) = Ret (mkTm 0 0 0 1 1 71 0 31, 31 * SPD).
Proof. vm_compute. reflexivity. Qed.

(** Month 12 is let through and read past the end of [__spm]. *)
Example timegm_month_12 t : tm_mon t = 12 -> timegm 1 t = Err OutOfBounds.
Proof.
  intros Hm. unfold timegm. rewrite Hm.
  destruct (carry 60 60 (tm_sec t) (tm_min t)) as [s m]. destruct (carry 60 60 m (tm_hour t)) as [m' h].
  destruct (carry 24 24 h (tm_mday t)) as [h' d]. reflexivity.
Qed.
