(* ===== verification/CRand.v ===== *)
(** * The random numbers of the C library

    src/RTT/components/libc/minilibc/rand.c: the generator of Park and Miller by
    Schrage's method, which multiplies modulo 2^31 - 1 without leaving 32 bits. *)

From Stdlib Require Import Znumtheory Zpow_facts.
From S2P Require Import Prelude.

(** ** The code *)

Definition M : Z := 2 ^ 31 - 1.
Definition A : Z := 48271.
Definition Q : Z := 44488.
Definition R : Z := 3399.

(** [A*(X%Q) - R * (int32_t) (X/Q)] *)
Definition schrage (X : Z) : Z := s32 (s32 (A * Z.rem X Q) - s32 (R * Z.quot X Q)).

(** The value and the new seed. *)
Definition rand_r (seed : Z) : Z * Z :=
  let X := schrage (s32 seed) in
  let X := if X <? 0 then s32 (u32 (X + M)) else X in
  (X, u32 X).

(** The file's static [seed]. *)
Definition rand : ST Z Z := fun seed => Ret (rand_r seed).
Definition srand (i : Z) : ST Z unit := put i.
Definition seed0 : Z := 1.

(** ** Bounds *)

Lemma s32_id x : - 2 ^ 31 <= x < 2 ^ 31 -> s32 x = x.
Proof. intros. by apply swrap_id. Qed.

Lemma quot_rem_bounds X : - 2 ^ 31 <= X < 2 ^ 31 ->
  -44487 <= Z.rem X Q <= 44487 /\ -48272 <= Z.quot X Q <= 48271 /\
  (0 <= X -> 0 <= Z.rem X Q /\ 0 <= Z.quot X Q) /\ (X <= 0 -> Z.rem X Q <= 0 /\ Z.quot X Q <= 0).
Proof.
  intros HX. unfold Q. pose proof (Z.quot_rem' X 44488) as E.
  assert (Hb : (0 <= X -> 0 <= Z.rem X 44488 < 44488) /\ (X <= 0 -> -44488 < Z.rem X 44488 <= 0))
    by (split; intros; [apply Z.rem_bound_pos; lia|];
        pose proof (Z.rem_bound_pos (- X) 44488 ltac:(lia) ltac:(lia)) as Hr;
        rewrite Z.rem_opp_l in Hr by lia; lia).
  revert E Hb. generalize (Z.rem X 44488), (Z.quot X 44488). intros r q E [Hp Hn].
  destruct (Z.le_ge_cases 0 X) as [H0|H0]; [specialize (Hp H0)|specialize (Hn H0)]; lia.
Qed.

Lemma rand_bounds_aux seed : 0 <= seed < 2 ^ 32 ->
  let X := s32 seed in
  - 2 ^ 31 <= A * Z.rem X Q < 2 ^ 31 /\ - 2 ^ 31 <= R * Z.quot X Q < 2 ^ 31 /\
  schrage X = A * Z.rem X Q - R * Z.quot X Q /\
  0 <= fst (rand_r seed) < M /\ snd (rand_r seed) = fst (rand_r seed).
Proof.
  intros Hs X. assert (HX : - 2 ^ 31 <= X < 2 ^ 31).
  { unfold X, swrap. pose proof (Z.mod_pos_bound (seed + 2 ^ (32 - 1)) (2 ^ 32) eq_refl).
    change (2 ^ (32 - 1)) with (2 ^ 31) in *. lia. }
  pose proof (quot_rem_bounds X HX) as (Hr & Hq & Hpos & Hneg).
  unfold rand_r. fold X. unfold schrage, A, R, M in *.
  rewrite (s32_id (48271 * _)), (s32_id (3399 * _)) by lia.
  assert (Hd : - (2 ^ 31 - 1) < 48271 * Z.rem X Q - 3399 * Z.quot X Q < 2 ^ 31 - 1)
    by (destruct (Z.le_ge_cases 0 X) as [H0|H0]; [pose proof (Hpos H0)|pose proof (Hneg H0)]; lia).
  rewrite s32_id by lia. repeat (split; [lia|]).
  destruct (Z.ltb_spec (48271 * Z.rem X Q - 3399 * Z.quot X Q) 0); cbn [fst snd].
  - rewrite (wrap_id 32 (_ + _)) by lia. rewrite s32_id, wrap_id by lia. lia.
  - rewrite wrap_id by lia. lia.
Qed.

(** ** What is computed *)

(** Schrage: M = A * Q + R, so A * X = A * (X % Q) - R * (X / Q) modulo M. *)
Lemma rand_schrage seed : 0 <= seed < M -> fst (rand_r seed) = (A * seed) mod M.
Proof.
  intros Hs. assert (Hm : 0 <= seed < 2 ^ 32) by (unfold M in Hs; lia).
  pose proof (rand_bounds_aux seed Hm) as (_ & _ & Esch & Hb & _). cbn zeta in *.
  rewrite s32_id in Esch by (unfold M in Hs; lia).
  assert (EX : exists k, fst (rand_r seed) = A * seed + k * M).
  { unfold rand_r in *. rewrite s32_id in * by (unfold M in Hs; lia). rewrite Esch in *.
    pose proof (Z.quot_rem' seed Q) as E. cbn [fst] in *.
    pose proof (quot_rem_bounds seed) as Hqr. unfold A, R, Q, M in *.
    destruct (Z.ltb_spec (48271 * Z.rem seed 44488 - 3399 * Z.quot seed 44488) 0).
    - exists (1 - Z.quot seed 44488). rewrite wrap_id, s32_id by lia. lia.
    - exists (- Z.quot seed 44488). lia. }
  destruct EX as [k EX]. rewrite <- (Z.mod_small _ _ Hb), EX. rewrite Z.mod_add; [done|]. unfold M. lia.
Qed.

Definition next (seed : Z) : Z := snd (rand_r seed).

Lemma next_mul seed : 0 <= seed < M -> next seed = (A * seed) mod M /\ 0 <= next seed < M.
Proof.
  intros Hs. assert (Hm : 0 <= seed < 2 ^ 32) by (unfold M in Hs; lia).
  pose proof (rand_bounds_aux seed Hm) as (_ & _ & _ & Hb & E).
  unfold next. rewrite E. split; [by apply rand_schrage|done].
Qed.

Lemma iter_next k seed : 0 <= seed < M ->
  Nat.iter k next seed = (A ^ Z.of_nat k * seed) mod M.
Proof.
  intros Hs. induction k as [|k IH].
  - change (Nat.iter 0 next seed) with seed. change (Z.of_nat 0) with 0. rewrite Z.pow_0_r, Z.mul_1_l. symmetry. by apply Z.mod_small.
  - change (Nat.iter (S k) next seed) with (next (Nat.iter k next seed)). rewrite IH. rewrite (proj1 (next_mul _ (Z.mod_pos_bound _ M eq_refl))).
    rewrite Zmult_mod_idemp_r, Nat2Z.inj_succ, Z.pow_succ_r by lia. f_equal. lia.
Qed.

(** ** Primes by trial division *)

Definition trial (p b : Z) : bool := forallb (fun n => negb (p mod n =? 0)) (seqZ 2 (b - 2)).

Lemma trial_prime p b : 1 < p -> 2 <= b -> p < b * b -> trial p b = true ->
  b <= p -> prime p.
Proof.
  intros Hp Hb Hbb Ht Hbp. apply prime_alt. split; [done|]. intros n Hn [m Hm].
  unfold trial in Ht. rewrite forallb_forall in Ht.
  assert (Hno : forall d, 2 <= d < b -> (d | p) -> False).
  { intros d Hd Hdiv. specialize (Ht d).
    rewrite negb_true_iff, Z.eqb_neq in Ht. apply Ht; [|by apply Z.mod_divide; [lia|]].
    apply list_elem_of_In, elem_of_seqZ. lia. }
  destruct (Z.lt_ge_cases n b) as [Hlt|Hge].
  - apply (Hno n); [lia|]. exists m. lia.
  - apply (Hno m); [|exists n; lia]. split; [nia|]. nia.
Qed.

(** ** The period *)

Definition factors : list Z := [2; 3; 7; 11; 31; 151; 331].

Lemma M1_factors : M - 1 = 2 * (3 * (3 * (7 * (11 * (31 * (151 * 331)))))).
Proof. reflexivity. Qed.

Lemma factors_prime q : q ∈ factors -> prime q.
Proof.
  intros Hq. unfold factors in Hq. rewrite !elem_of_cons, elem_of_nil in Hq.
  destruct Hq as [->|[->|[->|[->|[->|[->|[->|[]]]]]]]];
    [exact prime_2|exact prime_3|apply (trial_prime _ 3)|apply (trial_prime _ 4)|apply (trial_prime _ 6)
    |apply (trial_prime _ 13)|apply (trial_prime _ 19)]; try lia; reflexivity.
Qed.

(** [A] is a primitive root: its power to M - 1 is 1, to no (M - 1) / q. *)
Lemma A_full : A ^ (M - 1) mod M = 1.
Proof. rewrite <- Zpow_mod_correct by (unfold M; lia). vm_compute. reflexivity. Qed.

Lemma A_primitive q : q ∈ factors -> A ^ ((M - 1) / q) mod M <> 1.
Proof.
  intros Hq. rewrite <- Zpow_mod_correct by (unfold M; lia).
  unfold factors in Hq. rewrite !elem_of_cons, elem_of_nil in Hq.
  destruct Hq as [->|[->|[->|[->|[->|[->|[->|[]]]]]]]]; vm_compute; discriminate.
Qed.

(** A divisor of M - 1 other than 1 has one of the prime factors. *)
Lemma factor_of e : 0 < e -> (e | M - 1) -> e <> 1 -> exists q, q ∈ factors /\ (q | e).
Proof.
  intros He Hdiv Hne.
  assert (Hdec : forall q, Decision (q | e)) by (intros q; apply Zdivide_dec).
  destruct (decide (Exists (fun q => (q | e)) factors)) as [Hex|Hno].
  { apply Exists_exists in Hex as (q & ? & ?). eauto. }
  exfalso. apply Hne.
  assert (Hrel : forall q, q ∈ factors -> rel_prime e q).
  { intros q Hq. apply rel_prime_sym, prime_rel_prime; [by apply factors_prime|].
    intros Hd. apply Hno, Exists_exists. eauto. }
  rewrite M1_factors in Hdiv.
  repeat (apply Gauss in Hdiv; [|apply Hrel; unfold factors; set_solver]).
  destruct (Hrel 331) as [_ _ Hg]; [unfold factors; set_solver|].
  apply Z.divide_1_r_nonneg; [lia|]. by apply Hg.
Qed.

Lemma pow_mul_mod k : 0 <= k -> forall j, 0 <= j -> A ^ j mod M = 1 -> A ^ (j * k) mod M = 1.
Proof.
  intros Hk j Hj Hone. rewrite Z.pow_mul_r, Zpower_mod, Hone by (unfold M; lia).
  by rewrite Z.pow_1_l.
Qed.

Lemma A_order k : 0 <= k -> A ^ k mod M = 1 <-> (M - 1 | k).
Proof.
  intros Hk. split.
  2:{ intros [m ->]. rewrite Z.mul_comm. apply pow_mul_mod; [|unfold M; lia|exact A_full]. unfold M in Hk. nia. }
  intros Hone. destruct (Z.eq_dec k 0) as [->|Hk0]; [by exists 0|]. set (d := Z.gcd k (M - 1)).
  assert (Hd : 0 < d).
  { pose proof (Z.gcd_nonneg k (M - 1)). assert (d <> 0); [|unfold d in *; lia].
    intros E. apply Z.gcd_eq_0_r in E. unfold M in E. lia. }
  assert (Hpow : A ^ d mod M = 1).
  { destruct (Z.gcd_bezout k (M - 1) d eq_refl) as (u & v & Huv).
    (* u * k + v * (M - 1) = d, with a large multiple of k * (M - 1) to make both signs known *)
    set (t := Z.abs u + Z.abs v).
    assert (E : (u + t * (M - 1)) * k = d + (t * k - v) * (M - 1)) by (rewrite <- Huv; ring).
    assert (Hu : 0 <= u + t * (M - 1)) by (unfold t, M; lia).
    assert (Hv : 0 <= t * k - v) by (unfold t; nia).
    pose proof (pow_mul_mod _ Hu k Hk Hone) as E1. rewrite Z.mul_comm, E, Z.pow_add_r in E1 by (unfold M; nia).
    assert (Hm0 : M <> 0) by discriminate. assert (HM1 : 0 <= M - 1) by discriminate.
    pose proof (pow_mul_mod (t * k - v) Hv (M - 1) HM1 A_full) as E2.
    rewrite (Z.mul_comm (t * k - v)), Z.mul_mod, E2, Z.mul_1_r, Z.mod_mod in E1 by exact Hm0.
    exact E1. }
  destruct (Z.gcd_divide_l k (M - 1)) as [m1 Hm1]. destruct (Z.gcd_divide_r k (M - 1)) as [e He].
  fold d in Hm1, He. assert (Hepos : 0 < e) by (unfold M in He; nia).
  destruct (Z.eq_dec e 1) as [->|Hne]; [exists m1; lia|]. exfalso.
  destruct (factor_of e Hepos) as (q & Hq & [e' He']); [exists d; lia|done|].
  apply (A_primitive q Hq). pose proof (prime_ge_2 q (factors_prime q Hq)).
  replace ((M - 1) / q) with (d * e').
  - apply pow_mul_mod; [nia|lia|done].
  - rewrite He, He'. replace (e' * q * d) with (d * e' * q) by ring. by rewrite Z.div_mul by lia.
Qed.

(** A number is prime when some residue has all of its predecessors as period: its
    powers are then all the other residues, so that each of these has an inverse. *)
Section lucas.
Context (m a : Z) (Hm : 1 < m).
Context (Hfull : a ^ (m - 1) mod m = 1) (Hleast : forall k, 0 < k < m - 1 -> a ^ k mod m <> 1).

Lemma power_inj i j : 0 <= i -> i < j < m - 1 -> a ^ i mod m <> a ^ j mod m.
Proof using All.
  intros Hi Hj E. apply (Hleast (j - i)); [lia|].
  assert (E1 : (a ^ i * a ^ (m - 1 - i)) mod m = 1) by (rewrite <- Z.pow_add_r by lia; rewrite <- Hfull; do 2 f_equal; lia).
  assert (E2 : (a ^ j * a ^ (m - 1 - i)) mod m = 1) by (rewrite Z.mul_mod, <- E, <- Z.mul_mod by lia; done).
  rewrite <- Z.pow_add_r in E2 by lia. replace (j + (m - 1 - i)) with (j - i + (m - 1)) in E2 by lia.
  rewrite Z.pow_add_r, Z.mul_mod, Hfull, Z.mul_1_r, Z.mod_mod in E2 by lia. done.
Qed.

Lemma power_nonzero i : 0 <= i <= m - 1 -> 1 <= a ^ i mod m < m.
Proof using All.
  intros Hi. pose proof (Z.mod_pos_bound (a ^ i) m ltac:(lia)) as Hb.
  destruct (Z.eq_dec (a ^ i mod m) 0) as [E|]; [|lia].
  assert (E1 : (a ^ i * a ^ (m - 1 - i)) mod m = 1) by (rewrite <- Z.pow_add_r by lia; rewrite <- Hfull; do 2 f_equal; lia).
  rewrite Z.mul_mod, E, Z.mul_0_l, Z.mod_0_l in E1 by lia. done.
Qed.

Lemma powers_all x : 1 <= x < m -> exists k, 0 <= k < m - 1 /\ a ^ k mod m = x.
Proof using All.
  intros Hx. set (powers := (fun k => a ^ k mod m) <$> seqZ 0 (m - 1)).
  assert (Hnd : NoDup powers).
  { apply NoDup_fmap_2_strong; [|apply NoDup_seqZ]. intros i j Hi%elem_of_seqZ Hj%elem_of_seqZ E.
    destruct (Z.lt_trichotomy i j) as [Hlt|[?|Hlt]]; [|done|].
    - by apply power_inj in E; [|lia..].
    - symmetry in E. by apply power_inj in E; [|lia..]. }
  assert (Hsub : powers ⊆+ seqZ 1 (m - 1)).
  { apply NoDup_submseteq; [done|]. intros y Hy. apply list_elem_of_fmap in Hy as (k & -> & Hk).
    apply elem_of_seqZ in Hk. apply elem_of_seqZ. pose proof (power_nonzero k). lia. }
  apply submseteq_length_Permutation in Hsub;
    [|unfold powers; rewrite length_fmap, !length_seqZ; lia].
  assert (Hin : x ∈ powers) by (rewrite Hsub; apply elem_of_seqZ; lia).
  apply list_elem_of_fmap in Hin as (k & -> & Hk). apply elem_of_seqZ in Hk. exists k. split; [lia|done].
Qed.

Lemma lucas : prime m.
Proof using All.
  constructor; [done|]. intros x Hx. destruct (powers_all x Hx) as (k & Hk & E).
  apply bezout_rel_prime.
  assert (E1 : (a ^ k * a ^ (m - 1 - k)) mod m = 1) by (rewrite <- Z.pow_add_r by lia; rewrite <- Hfull; do 2 f_equal; lia).
  rewrite Z.mul_mod, E, Z.mul_mod_idemp_r in E1 by lia.
  pose proof (Z.div_mod (x * a ^ (m - 1 - k)) m ltac:(lia)) as E2.
  apply (Bezout_intro _ _ _ (a ^ (m - 1 - k)) (- (x * a ^ (m - 1 - k) / m))). lia.
Qed.
End lucas.

Lemma M_prime : prime M.
Proof.
  apply (lucas M A); [reflexivity|exact A_full|]. intros k Hk E. apply A_order in E; [|lia].
  apply Z.divide_pos_le in E; lia.
Qed.

(** C38: no step of the computation leaves the 32 bits of an int, whatever the
    seed (the products and their difference are what the code computes), and the
    value is at least 0 and less than 2^31 - 1. *)
Theorem rand_bounds seed : 0 <= seed < 2 ^ 32 ->
  let X := s32 seed in
  - 2 ^ 31 <= A * Z.rem X Q < 2 ^ 31 /\ - 2 ^ 31 <= R * Z.quot X Q < 2 ^ 31 /\
  schrage X = A * Z.rem X Q - R * Z.quot X Q /\
  0 <= fst (rand_r seed) < M /\ snd (rand_r seed) = fst (rand_r seed).
Proof. apply rand_bounds_aux. Qed.

(** C27: the period is full.  From every seed between 1 and 2^31 - 2 the numbers
    come back to the seed after exactly 2^31 - 2 steps, and at no time before: every
    one of these numbers appears once in a period. *)
Theorem rand_period seed k : 0 < seed < M -> Nat.iter k next seed = seed <-> (M - 1 | Z.of_nat k).
Proof.
  intros Hs. rewrite iter_next by lia. rewrite <- A_order by lia. split.
  - intros E. assert (Hdiv : (M | seed * (A ^ Z.of_nat k - 1))).
    { apply Z.mod_divide; [unfold M; lia|].
      replace (seed * (A ^ Z.of_nat k - 1)) with (A ^ Z.of_nat k * seed - seed) by ring.
      rewrite Zminus_mod, E, (Z.mod_small seed) by lia. by rewrite Z.sub_diag. }
    apply prime_mult in Hdiv as [Hdiv|[m Hm]]; [|..|exact M_prime].
    + apply Z.divide_pos_le in Hdiv; lia.
    + replace (A ^ Z.of_nat k) with (1 + m * M) by lia. rewrite Z.mod_add by (unfold M; lia).
      apply Z.mod_small. unfold M. lia.
  - intros E. rewrite Z.mul_mod, E, Z.mul_1_l, Z.mod_mod by (unfold M; lia). apply Z.mod_small. lia.
Qed.

Lemma rand_bounds_witness : 0 <= fst (rand_r 4294967295) < M.
Proof. apply (rand_bounds 4294967295). lia. Defined.

Lemma rand_period_witness : Nat.iter 3 next 1 <> 1.
Proof.
  intros E. apply (rand_period 1 3) in E; [|unfold M; lia].
  apply Z.divide_pos_le in E; unfold M in *; lia.
Defined.

(** The seed 0, which [srand] accepts, is the end of the sequence; so is 2^31 - 1. *)
Example rand_zero : rand_r 0 = (0, 0) /\ rand_r M = (0, 0).
Proof. vm_compute. split; reflexivity. Qed.
