(* ===== verification/CSort.v ===== *)
(** * Sorting in the C library

    src/RTT/components/libc/minilibc/qsort.c: quicksort with Sedgewick's partition
    into three.  The array is a list of elements, an element standing for its [size]
    bytes; [exch] swaps two of them byte by byte ([exch_bytes]), which is the
    exchange of elements ([exch_elements]). *)

From S2P Require Import Prelude.

Section code.
Context {A : Type} (compar : A -> A -> Z).

(** ** The code *)

Definition exch (a : list A) (i j : Z) : res (list A) :=
  x ← idx a i; y ← idx a j; a ← upd a i y; upd a j x.

(** [compar(base+i*size, base+j*size)] *)
Definition cmp (a : list A) (i j : Z) : res Z := x ← idx a i; y ← idx a j; mret (compar x y).

(** [while (++i != r && compar(base+i*size,v)<0) ;] where [v] points to element
    [r]. *)
Fixpoint scan_up (fuel : nat) (a : list A) (r i : Z) : res Z :=
  match fuel with
  | O => Err OutOfFuel
  | S fuel =>
      let i := i + 1 in
      if i =? r then Ret i else
      c ← cmp a i r;
      if c <? 0 then scan_up fuel a r i else Ret i
  end.

(** [while (compar(v,base+(--j)*size)<0) if (j == l) break;] *)
Fixpoint scan_down (fuel : nat) (a : list A) (l r j : Z) : res Z :=
  match fuel with
  | O => Err OutOfFuel
  | S fuel =>
      let j := j - 1 in
      c ← cmp a r j;
      if c <? 0 then if j =? l then Ret j else scan_down fuel a l r j else Ret j
  end.

(** The loop that partitions; what it leaves in the array, [i], [p] and [q]. *)
Fixpoint part_loop (fuel : nat) (a : list A) (l r i j p q : Z) : res (list A * Z * Z * Z) :=
  match fuel with
  | O => Err OutOfFuel
  | S fuel =>
      i ← scan_up (Z.to_nat (r - i)) a r i;
      j ← scan_down (Z.to_nat (j - l)) a l r j;
      if j <=? i then Ret (a, i, p, q) else
      a ← exch a i j;
      c ← cmp a i r;
      '(a, p) ← (if c =? 0 then a ← exch a (p + 1) i; mret (a, p + 1) else mret (a, p));
      c ← cmp a r j;
      '(a, q) ← (if c =? 0 then a ← exch a j (q - 1); mret (a, q - 1) else mret (a, q));
      part_loop fuel a l r i j p q
  end.

(** [n] turns of [exch(base,size,x,y); x++, y--], which both loops that bring the
    equal elements to the middle consist of. *)
Fixpoint swap_run (n : nat) (a : list A) (x y : Z) : res (list A) :=
  match n with O => Ret a | S n => a ← exch a x y; swap_run n a (x + 1) (y - 1) end.

Fixpoint quicksort (fuel : nat) (a : list A) (l r : Z) : res (list A) :=
  match fuel with
  | O => Err OutOfFuel
  | S fuel =>
      if r <=? l then Ret a else
      '(a, i, p, q) ← part_loop (S (Z.to_nat (r - l + 1))) a l r (l - 1) r (l - 1) r;
      a ← exch a i r;
      let j := i - 1 in
      let i := i + 1 in
      let left := Z.to_nat (p - l) in
      let right := Z.to_nat (r - 1 - q) in
      a ← swap_run left a l j;
      a ← swap_run right a i (r - 1);
      a ← quicksort fuel a l (j - Z.of_nat left);
      quicksort fuel a (i + Z.of_nat right) r
  end.

(** [((size_t)-1)>>1], from which on an array or an element is left alone. *)
Definition limit : Z := 2 ^ 31 - 1.

Definition qsort (a : list A) (size : Z) : res (list A) :=
  let nmemb := Z.of_nat (length a) in
  if (limit <=? nmemb) || (limit <=? size) then Ret a
  else if 1 <? nmemb then quicksort (S (length a)) a 0 (nmemb - 1) else Ret a.
End code.

(** [exch] as written: the bytes of the two elements are swapped one by one. *)
Fixpoint exch_loop (size : nat) (m : list Z) (x y : Z) : res (list Z) :=
  match size with
  | O => Ret m
  | S size =>
      z ← idx m x; w ← idx m y; m ← upd m x w; m ← upd m y z;
      exch_loop size m (x + 1) (y + 1)
  end.

Definition exch_bytes (size : nat) (m : list Z) (a b : Z) : res (list Z) :=
  exch_loop size m (a * Z.of_nat size) (b * Z.of_nat size).

(** ** Elements by position *)

Section lemmas.
Context {A : Type} `{Inhabited A}.
Implicit Types (a b : list A) (P : A -> Prop).

Notation "a .[ k ]" := (a !!! Z.to_nat k) (at level 1, format "a .[ k ]").

Lemma idx_at a k : 0 <= k < Z.of_nat (length a) -> idx a k = Ret a.[k].
Proof.
  intros Hk. apply idx_Ret. split; [lia|]. apply list_lookup_lookup_total_lt. lia.
Qed.

(** [b] is [a] with the elements of the positions from [l] to [r] in some order. *)
Record within (l r : Z) a b : Prop := {
  within_perm : a ≡ₚ b;
  within_out k : 0 <= k -> ~ (l <= k <= r) -> b.[k] = a.[k];
  within_in P : (forall k, l <= k <= r -> P a.[k]) -> forall k, l <= k <= r -> P b.[k]
}.

Lemma within_length l r a b : within l r a b -> length b = length a.
Proof. intros [Hp _ _]. symmetry. by apply Permutation_length. Qed.

Lemma within_refl l r a : within l r a a.
Proof. constructor; auto. Qed.

Lemma within_trans l r a b c : within l r a b -> within l r b c -> within l r a c.
Proof.
  intros [P1 O1 I1] [P2 O2 I2]. constructor.
  - by etransitivity.
  - intros k Hk Hkr. by rewrite O2, O1.
  - intros P HP. apply I2, I1, HP.
Qed.

Lemma within_weaken l r l' r' a b : 0 <= l <= l' -> r' <= r -> within l' r' a b -> within l r a b.
Proof.
  intros Hl Hr [Hp Ho Hi]. constructor; [done| |].
  - intros k Hk Hkr. apply Ho; lia.
  - intros P HP k Hk. destruct (decide (l' <= k <= r')) as [Hin|Hout].
    + apply Hi; [|done]. intros k' Hk'. apply HP. lia.
    + rewrite Ho by lia. by apply HP.
Qed.

(** The exchange of two positions. *)
Lemma exch_spec a i j : 0 <= i < Z.of_nat (length a) -> 0 <= j < Z.of_nat (length a) ->
  exists b, exch a i j = Ret b /\
  (forall k, 0 <= k -> b.[k] = if decide (k = j) then a.[i] else if decide (k = i) then a.[j] else a.[k]) /\
  (forall l r, 0 <= l -> l <= i <= r -> l <= j <= r -> within l r a b).
Proof.
  intros Hi Hj. unfold exch. rewrite !idx_at by done. cbn [mbind res_bind].
  rewrite upd_ok by done. cbn [mbind res_bind]. rewrite upd_ok by (by rewrite length_insert).
  set (b := <[Z.to_nat j:=a.[i]]> (<[Z.to_nat i:=a.[j]]> a)). exists b. split; [done|].
  assert (Hb : forall k, 0 <= k -> b.[k] = if decide (k = j) then a.[i] else if decide (k = i) then a.[j] else a.[k]).
  { intros k Hk. unfold b. case_decide as Ekj.
    - subst k. by rewrite list_lookup_total_insert_eq by (rewrite length_insert; lia).
    - rewrite list_lookup_total_insert_ne by lia. case_decide as Eki.
      + subst k. by rewrite list_lookup_total_insert_eq by lia.
      + by rewrite list_lookup_total_insert_ne by lia. }
  split; [done|]. intros l r Hl Hil Hjl. constructor.
  - unfold b. symmetry. apply Permutation_insert_swap; apply list_lookup_lookup_total_lt; lia.
  - intros k Hk Hkr. rewrite Hb by done. repeat case_decide; subst; try done; lia.
  - intros P HP k Hk. rewrite Hb by lia. repeat case_decide; subst; auto.
Qed.

Lemma swap_run_last n : forall a x y,
  swap_run (S n) a x y = (b ← swap_run n a x y; exch b (x + Z.of_nat n) (y - Z.of_nat n)).
Proof.
  induction n as [|n IH]; intros a x y.
  - cbn [swap_run mbind res_bind]. rewrite Z.add_0_r, Z.sub_0_r. by destruct (exch a x y).
  - change (swap_run (S (S n)) a x y) with (b ← exch a x y; swap_run (S n) b (x + 1) (y - 1)).
    change (swap_run (S n) a x y) with (b ← exch a x y; swap_run n b (x + 1) (y - 1)).
    destruct (exch a x y) as [b|]; [|done]. cbn [mbind res_bind]. rewrite IH.
    replace (x + 1 + Z.of_nat n) with (x + Z.of_nat (S n)) by lia.
    by replace (y - 1 - Z.of_nat n) with (y - Z.of_nat (S n)) by lia.
Qed.

(** What [n] exchanges leave: a position is exchanged with its mirror image when
    exactly one of the two is among the first [n]. *)
Lemma swap_run_spec n a x y : 0 <= x -> y < Z.of_nat (length a) -> Z.of_nat n <= Z.max 0 (y - x + 1) ->
  exists b, swap_run n a x y = Ret b /\
  (forall k, x <= k <= y ->
     (k - x < Z.of_nat n -> y - k < Z.of_nat n -> b.[k] = a.[k]) /\
     (k - x < Z.of_nat n -> ~ y - k < Z.of_nat n -> b.[k] = a.[x + y - k]) /\
     (~ k - x < Z.of_nat n -> y - k < Z.of_nat n -> b.[k] = a.[x + y - k]) /\
     (~ k - x < Z.of_nat n -> ~ y - k < Z.of_nat n -> b.[k] = a.[k])) /\
  within x y a b.
Proof.
  intros Hx Hy. induction n as [|n IH]; intros Hn.
  - exists a. split; [done|]. split; [|apply within_refl]. intros k Hk. repeat split; intros; try done; lia.
  - destruct IH as (b & E & Hb & Hw); [lia|]. rewrite swap_run_last, E. cbn [mbind res_bind].
    pose proof (within_length _ _ _ _ Hw) as Hlen.
    destruct (exch_spec b (x + Z.of_nat n) (y - Z.of_nat n)) as (c & -> & Hc & Hwc); [lia..|].
    exists c. split; [done|]. split; [|eapply within_trans; [exact Hw|apply Hwc; lia]].
    intros k Hk. rewrite Hc by lia.
    destruct (Hb k Hk) as (H1 & H2 & H3 & H4).
    destruct (Hb (x + Z.of_nat n) ltac:(lia)) as (X1 & X2 & X3 & X4).
    destruct (Hb (y - Z.of_nat n) ltac:(lia)) as (Y1 & Y2 & Y3 & Y4).
    case_decide as Eky; [|case_decide as Ekx].
    + subst k. replace (x + y - (y - Z.of_nat n)) with (x + Z.of_nat n) in * by lia.
      replace (x + y - (x + Z.of_nat n)) with (y - Z.of_nat n) in * by lia.
      destruct (decide (y - (x + Z.of_nat n) < Z.of_nat n)).
      * repeat split; intros; try lia; rewrite X3 by lia; f_equal; lia.
      * repeat split; intros; try lia; rewrite X4 by lia; f_equal; lia.
    + subst k. replace (x + y - (y - Z.of_nat n)) with (x + Z.of_nat n) in * by lia.
      replace (x + y - (x + Z.of_nat n)) with (y - Z.of_nat n) in * by lia.
      destruct (decide (y - Z.of_nat n - x < Z.of_nat n)).
      * repeat split; intros; try lia; rewrite Y2 by lia; f_equal; lia.
      * repeat split; intros; try lia; rewrite Y4 by lia; f_equal; lia.
    + repeat split; intros; [apply H1|apply H2|apply H3|apply H4]; lia.
Qed.

(** ** The partition *)

Context (compar : A -> A -> Z).

Lemma cmp_at a i j : 0 <= i < Z.of_nat (length a) -> 0 <= j < Z.of_nat (length a) ->
  cmp compar a i j = Ret (compar a.[i] a.[j]).
Proof. intros Hi Hj. unfold cmp. by rewrite !idx_at. Qed.

Lemma scan_up_spec fuel a r : forall i, -1 <= i < r -> r < Z.of_nat (length a) -> (Z.to_nat (r - i) <= fuel)%nat ->
  exists i', scan_up compar fuel a r i = Ret i' /\ i < i' <= r /\
  (forall k, i < k < i' -> compar a.[k] a.[r] < 0) /\ (i' = r \/ ~ compar a.[i'] a.[r] < 0).
Proof.
  induction fuel as [|fuel IH]; intros i Hi Hr Hf; [lia|]. cbn [scan_up].
  destruct (Z.eqb_spec (i + 1) r) as [E|E].
  { exists (i + 1). repeat split; [lia|lia|intros k Hk; lia|auto]. }
  rewrite cmp_at by lia. cbn [mbind res_bind].
  destruct (Z.ltb_spec (compar a.[i + 1] a.[r]) 0) as [Hlt|Hge].
  - destruct (IH (i + 1)) as (i' & -> & Hi' & Hk & Hend); [lia..|].
    exists i'. repeat split; [lia|lia| |done]. intros k Hk'.
    destruct (decide (k = i + 1)) as [->|]; [done|]. apply Hk. lia.
  - exists (i + 1). repeat split; [lia|lia|intros k Hk; lia|right; lia].
Qed.

Lemma scan_down_spec fuel a l r : forall j, 0 <= l < j -> j <= r -> r < Z.of_nat (length a) ->
  (Z.to_nat (j - l) <= fuel)%nat ->
  exists j', scan_down compar fuel a l r j = Ret j' /\ l <= j' < j /\
  (forall k, j' < k < j -> compar a.[r] a.[k] < 0) /\ (j' = l \/ ~ compar a.[r] a.[j'] < 0).
Proof.
  induction fuel as [|fuel IH]; intros j Hl Hj Hr Hf; [lia|]. cbn [scan_down].
  rewrite cmp_at by lia. cbn [mbind res_bind].
  destruct (Z.ltb_spec (compar a.[r] a.[j - 1]) 0) as [Hlt|Hge].
  - destruct (Z.eqb_spec (j - 1) l) as [E|E].
    { exists (j - 1). repeat split; [lia|lia|intros k Hk; lia|auto]. }
    destruct (IH (j - 1)) as (j' & -> & Hj' & Hk & Hend); [lia..|].
    exists j'. repeat split; [lia|lia| |done]. intros k Hk'.
    destruct (decide (k = j - 1)) as [->|]; [done|]. apply Hk. lia.
  - exists (j - 1). repeat split; [lia|lia|intros k Hk; lia|right; lia].
Qed.

(** What C asks of a comparison: it orders the elements, some of which may be
    equal to each other. *)
Class Ordering : Prop := {
  compar_opp x y : compar x y < 0 <-> 0 < compar y x;
  compar_trans x y z : compar x y <= 0 -> compar y z <= 0 -> compar x z <= 0
}.

Context `{!Ordering}.

Lemma compar_eq_sym x y : compar x y = 0 -> compar y x = 0.
Proof. intros E. pose proof (compar_opp x y). pose proof (compar_opp y x). lia. Qed.

Lemma compar_le_ge x y : ~ compar x y < 0 -> compar y x <= 0.
Proof. intros E. pose proof (compar_opp x y). lia. Qed.

(** Where the partition stands: elements equal to the pivot at both ends, smaller
    ones up to [i], greater ones from [j]. *)
Record partial (a : list A) (l r i j p q : Z) : Prop := {
  part_order : 0 <= l < r /\ l - 1 <= p <= i /\ l < j /\ i < j <= q /\ q <= r < Z.of_nat (length a);
  part_eql k : l <= k <= p -> compar a.[k] a.[r] = 0;
  part_lt k : p < k <= i -> compar a.[k] a.[r] < 0;
  part_gt k : j <= k < q -> compar a.[r] a.[k] < 0;
  part_eqr k : q <= k < r -> compar a.[k] a.[r] = 0
}.

(** What the loop leaves. *)
Record parted (a : list A) (l r i p q : Z) : Prop := {
  ptd_order : 0 <= l < r /\ l - 1 <= p < i /\ i <= q <= r /\ r < Z.of_nat (length a);
  ptd_eql k : l <= k <= p -> compar a.[k] a.[r] = 0;
  ptd_lt k : p < k < i -> compar a.[k] a.[r] < 0;
  ptd_mid : i < r -> compar a.[r] a.[i] <= 0;
  ptd_gt k : i < k < q -> compar a.[r] a.[k] < 0;
  ptd_eqr k : q <= k < r -> compar a.[k] a.[r] = 0
}.

(** An exchange that brings an element equal to the pivot to its end. *)
Lemma park_left a l r i j p q : partial a l r (i - 1) j p q -> i < j -> compar a.[i] a.[r] <= 0 ->
  exists b p', (if compar a.[i] a.[r] =? 0 then a ← exch a (p + 1) i; mret (a, p + 1) else mret (a, p)) = Ret (b, p') /\
  partial b l r i j p' q /\ within l (r - 1) a b /\ forall k, i < k -> b.[k] = a.[k].
Proof.
  intros [Ho Hel Hlt Hgt Her] Hij Hle. destruct (Z.eqb_spec (compar a.[i] a.[r]) 0) as [E|E].
  - destruct (exch_spec a (p + 1) i) as (b & -> & Hb & Hw); [lia..|]. cbn [mbind res_bind mret res_ret].
    assert (Hr : b.[r] = a.[r]) by (rewrite Hb by lia; rewrite !decide_False by lia; done).
    exists b, (p + 1). split; [done|]. specialize (Hw l (r - 1)).
    split; [|split; [apply Hw; lia|intros k Hk; rewrite Hb by lia; by rewrite !decide_False by lia]].
    pose proof (within_length _ _ _ _ (Hw ltac:(lia) ltac:(lia) ltac:(lia))) as Hlen.
    constructor; [lia|..]; intros k Hk; rewrite Hr, Hb by lia.
    + case_decide; [by replace (p + 1) with i by lia|]. case_decide; [done|apply Hel; lia].
    + case_decide; [apply Hlt; lia|]. case_decide; [lia|apply Hlt; lia].
    + rewrite !decide_False by lia. apply Hgt. lia.
    + rewrite !decide_False by lia. apply Her. lia.
  - exists a, p. split; [done|]. split; [|split; [apply within_refl|done]]. constructor; [lia|done| |done|done].
    intros k Hk. destruct (decide (k = i)) as [->|]; [lia|]. apply Hlt. lia.
Qed.

Lemma park_right a l r i j p q : partial a l r i (j + 1) p q -> i < j -> l < j -> ~ compar a.[j] a.[r] < 0 ->
  exists b q', (if compar a.[r] a.[j] =? 0 then a ← exch a j (q - 1); mret (a, q - 1) else mret (a, q)) = Ret (b, q') /\
  partial b l r i j p q' /\ within l (r - 1) a b.
Proof.
  intros [Ho Hel Hlt Hgt Her] Hij Hlj Hge%compar_le_ge. destruct (Z.eqb_spec (compar a.[r] a.[j]) 0) as [E|E].
  - destruct (exch_spec a j (q - 1)) as (b & -> & Hb & Hw); [lia..|]. cbn [mbind res_bind mret res_ret].
    assert (Hr : b.[r] = a.[r]) by (rewrite Hb by lia; rewrite !decide_False by lia; done).
    exists b, (q - 1). split; [done|]. specialize (Hw l (r - 1)). split; [|apply Hw; lia].
    pose proof (within_length _ _ _ _ (Hw ltac:(lia) ltac:(lia) ltac:(lia))) as Hlen.
    constructor; [lia|..]; intros k Hk; rewrite Hr, Hb by lia.
    + rewrite !decide_False by lia. apply Hel. lia.
    + rewrite !decide_False by lia. apply Hlt. lia.
    + case_decide; [lia|]. case_decide; [apply Hgt; lia|apply Hgt; lia].
    + case_decide; [by apply compar_eq_sym|]. case_decide; [|apply Her; lia].
      replace (q - 1) with j by lia. by apply compar_eq_sym.
  - exists a, q. split; [done|]. split; [|apply within_refl]. constructor; [lia|done|done| |done].
    intros k Hk. destruct (decide (k = j)) as [->|]; [lia|]. apply Hgt. lia.
Qed.

Lemma part_loop_spec fuel : forall a l r i j p q,
  partial a l r i j p q -> (Z.to_nat (j - i) < fuel)%nat ->
  exists b i' p' q', part_loop compar fuel a l r i j p q = Ret (b, i', p', q') /\
  parted b l r i' p' q' /\ within l (r - 1) a b.
Proof.
  induction fuel as [|fuel IH]; intros a l r i j p q Hp Hf; [lia|]. cbn [part_loop].
  pose proof Hp as [Ho Hel Hlt Hgt Her].
  destruct (scan_up_spec (Z.to_nat (r - i)) a r i) as (i1 & -> & Hi1 & Hup & Hiend); [lia..|].
  destruct (scan_down_spec (Z.to_nat (j - l)) a l r j) as (j1 & -> & Hj1 & Hdn & Hjend); [lia..|].
  cbn [mbind res_bind].
  assert (Hiq : i1 <= q).
  { destruct (Z.le_gt_cases i1 q) as [|Hq]; [done|]. pose proof (Hup q ltac:(lia)) as Hx.
    rewrite Her in Hx by lia. lia. }
  destruct (Z.leb_spec j1 i1) as [Hji|Hij].
  - exists a, i1, p, q. split; [done|]. split; [|apply within_refl]. constructor; [lia|done| | | |done].
    + intros k Hk. destruct (decide (k <= i)); [apply Hlt|apply Hup]; lia.
    + intros Hir. destruct Hiend as [|Hge]; [lia|]. by apply compar_le_ge.
    + intros k Hk. destruct (decide (j <= k)); [apply Hgt|apply Hdn]; lia.
  - destruct (exch_spec a i1 j1) as (a1 & -> & Ha1 & Hw1); [lia..|]. cbn [mbind res_bind].
    specialize (Hw1 l (r - 1) ltac:(lia) ltac:(lia) ltac:(lia)).
    pose proof (within_length _ _ _ _ Hw1) as Hlen1.
    assert (Hr1 : a1.[r] = a.[r]) by (rewrite Ha1 by lia; rewrite !decide_False by lia; done).
    assert (Hp1 : partial a1 l r (i1 - 1) (j1 + 1) p q).
    { constructor; [lia|..]; intros k Hk; rewrite Hr1, Ha1 by lia; rewrite !decide_False by lia.
      - by apply Hel.
      - destruct (decide (k <= i)); [apply Hlt|apply Hup]; lia.
      - destruct (decide (j <= k)); [apply Hgt|apply Hdn]; lia.
      - by apply Her. }
    rewrite cmp_at by lia. cbn [mbind res_bind].
    destruct (park_left a1 l r i1 (j1 + 1) p q) as (a2 & p2 & -> & Hp2 & Hw2 & Hj2); [done|lia| |].
    { rewrite Hr1, Ha1, decide_False, decide_True by lia. destruct Hjend as [|Hge]; [lia|]. by apply compar_le_ge. }
    cbn [mbind res_bind]. pose proof (within_length _ _ _ _ Hw2) as Hlen2. pose proof Hp2 as [Ho2 _ _ _ _].
    rewrite cmp_at by lia. cbn [mbind res_bind].
    destruct (park_right a2 l r i1 j1 p2 q) as (a3 & q3 & -> & Hp3 & Hw3); [done|lia|lia| |].
    { rewrite !Hj2 by lia. rewrite Hr1, Ha1, decide_True by lia. destruct Hiend as [|Hge]; [lia|done]. }
    cbn [mbind res_bind].
    destruct (IH a3 l r i1 j1 p2 q3) as (b & i' & p' & q' & -> & Hb & Hwb); [done|lia|].
    exists b, i', p', q'. split; [done|]. split; [done|].
    eapply within_trans; [exact Hw1|]. eapply within_trans; [exact Hw2|]. eapply within_trans; [exact Hw3|done].
Qed.

(** ** Around the pivot *)

(** Up to [j] nothing is greater than [v], from [i] nothing is smaller, and what is
    between them is equal to it. *)
Record split_at (a : list A) (l r i j : Z) (v : A) : Prop := {
  split_order : l - 1 <= j < i /\ i <= r + 1;
  split_le k : l <= k <= j -> compar a.[k] v <= 0;
  split_eq k : j < k < i -> compar a.[k] v = 0;
  split_ge k : i <= k <= r -> compar v a.[k] <= 0
}.

(** The pivot put in its place. *)
Lemma pivot_placed a l r i p q : parted a l r i p q ->
  exists b, exch a i r = Ret b /\ within l r a b /\ b.[i] = a.[r] /\
  (forall k, l <= k < i -> compar b.[k] a.[r] <= 0) /\
  (forall k, l <= k <= p -> compar b.[k] a.[r] = 0) /\
  (forall k, i < k <= r -> compar a.[r] b.[k] <= 0) /\
  (forall k, i < k -> q <= k < r -> compar b.[k] a.[r] = 0).
Proof.
  intros [Ho Hel Hlt Hmid Hgt Her].
  destruct (exch_spec a i r) as (b & -> & Hb & Hw); [lia..|]. exists b. split; [done|].
  split; [apply Hw; lia|].
  repeat split.
  - rewrite Hb by lia. case_decide; [by subst|]. by rewrite decide_True.
  - intros k Hk. rewrite Hb by lia. rewrite !decide_False by lia.
    destruct (decide (k <= p)); [rewrite Hel by lia; lia|]. pose proof (Hlt k ltac:(lia)). lia.
  - intros k Hk. rewrite Hb by lia. rewrite !decide_False by lia. apply Hel. lia.
  - intros k Hk. rewrite Hb by lia. case_decide as E; [apply Hmid; lia|]. rewrite decide_False by lia.
    destruct (decide (k < q)); [pose proof (Hgt k ltac:(lia)); lia|].
    rewrite (compar_eq_sym _ _ (Her k ltac:(lia))). lia.
  - intros k Hik Hk. rewrite Hb by lia. rewrite !decide_False by lia. apply Her. lia.
Qed.

(** The equal elements brought next to it. *)
Lemma equals_gathered a l r i p q v :
  0 <= l -> l - 1 <= p < i -> i <= q <= r -> r < Z.of_nat (length a) ->
  compar a.[i] v = 0 ->
  (forall k, l <= k < i -> compar a.[k] v <= 0) -> (forall k, l <= k <= p -> compar a.[k] v = 0) ->
  (forall k, i < k <= r -> compar v a.[k] <= 0) ->
  (forall k, i < k -> q <= k < r -> compar a.[k] v = 0) ->
  let left := Z.to_nat (p - l) in
  let right := Z.to_nat (r - 1 - q) in
  exists b, (a ← swap_run left a l (i - 1); swap_run right a (i + 1) (r - 1)) = Ret b /\
  within l r a b /\ split_at b l r (i + 1 + Z.of_nat right) (i - 1 - Z.of_nat left) v.
Proof.
  intros Hl Hp Hq Hr Hi Hle Hel Hge Her left right.
  destruct (swap_run_spec left a l (i - 1)) as (a1 & -> & Ha1 & Hw1); [lia..|]. cbn [mbind res_bind].
  pose proof (within_length _ _ _ _ Hw1) as Hlen.
  destruct (swap_run_spec right a1 (i + 1) (r - 1)) as (b & -> & Hb & Hw2); [lia..|].
  exists b. split; [done|]. split.
  { eapply within_trans; eapply within_weaken; try eassumption; lia. }
  assert (Hlow : forall k, l <= k <= i -> b.[k] = a1.[k]) by (intros k Hk; apply Hw2; lia).
  assert (Hhigh : forall k, i <= k <= r -> a1.[k] = a.[k]) by (intros k Hk; apply Hw1; lia).
  constructor; [lia|..].
  - intros k Hk. rewrite Hlow by lia. apply (within_in _ _ _ _ Hw1 (fun x => compar x v <= 0)); [|lia].
    intros k' Hk'. apply Hle. lia.
  - intros k Hk. destruct (Z.lt_trichotomy k i) as [Hki|[->|Hki]].
    + rewrite Hlow by lia. destruct (Ha1 k ltac:(lia)) as (H1 & H2 & H3 & H4).
      destruct (decide (k - l < Z.of_nat left)); [rewrite H1 by lia; apply Hel; lia|].
      rewrite H3 by lia. apply Hel. lia.
    + rewrite Hlow, Hhigh by lia. done.
    + destruct (Hb k ltac:(lia)) as (H1 & H2 & H3 & H4).
      destruct (decide (r - 1 - k < Z.of_nat right)).
      * rewrite H1, Hhigh by lia. apply Her; lia.
      * rewrite H2, Hhigh by lia. apply Her; lia.
  - intros k Hk. destruct (decide (k = r)) as [->|Hkr].
    + rewrite (within_out _ _ _ _ Hw2) by lia. rewrite Hhigh by lia. apply Hge. lia.
    + apply (within_in _ _ _ _ Hw2 (fun x => compar v x <= 0)); [|lia].
      intros k' Hk'. rewrite Hhigh by lia. apply Hge. lia.
Qed.

(** ** Sorted *)

Definition sorted_from_to (l r : Z) (a : list A) : Prop :=
  forall x y, l <= x <= y -> y <= r -> compar a.[x] a.[y] <= 0.

Lemma sorted_around a l r i j v : split_at a l r i j v ->
  sorted_from_to l j a -> sorted_from_to i r a -> sorted_from_to l r a.
Proof.
  intros [Ho Hle Heq Hge] Hs1 Hs2 x y Hx Hy.
  assert (Hleft : forall k, l <= k < i -> compar a.[k] v <= 0).
  { intros k Hk. destruct (decide (k <= j)); [by apply Hle; lia|]. rewrite Heq; lia. }
  assert (Hright : forall k, j < k <= r -> compar v a.[k] <= 0).
  { intros k Hk. destruct (decide (i <= k)); [by apply Hge; lia|]. rewrite compar_eq_sym; [lia|]. apply Heq. lia. }
  destruct (decide (y <= j)); [apply Hs1; lia|]. destruct (decide (i <= x)); [apply Hs2; lia|].
  eapply compar_trans; [apply Hleft|apply Hright]; lia.
Qed.

(** Sorting the two sides does not disturb the split. *)
Lemma split_within a b c l r i j v : 0 <= l -> split_at a l r i j v ->
  within l j a b -> within i r b c -> split_at c l r i j v.
Proof.
  intros Hl [Ho Hle Heq Hge] Hw1 Hw2. constructor; [done|..].
  - intros k Hk. rewrite (within_out _ _ _ _ Hw2) by lia.
    by apply (within_in _ _ _ _ Hw1 (fun x => compar x v <= 0)).
  - intros k Hk. rewrite (within_out _ _ _ _ Hw2), (within_out _ _ _ _ Hw1) by lia. auto.
  - intros k Hk. apply (within_in _ _ _ _ Hw2 (fun x => compar v x <= 0)); [|done].
    intros k' Hk'. rewrite (within_out _ _ _ _ Hw1) by lia. auto.
Qed.

Lemma sorted_within l r a b l' r' : 0 <= l -> within l' r' a b -> r < l' \/ r' < l ->
  sorted_from_to l r a -> sorted_from_to l r b.
Proof. intros Hl Hw Hd Hs x y Hx Hy. rewrite !(within_out _ _ _ _ Hw) by lia. by apply Hs. Qed.

Lemma quicksort_spec fuel : forall a l r, 0 <= l -> r < Z.of_nat (length a) -> (Z.to_nat (r - l) < fuel)%nat ->
  exists b, quicksort compar fuel a l r = Ret b /\ within l r a b /\ sorted_from_to l r b.
Proof.
  induction fuel as [|fuel IH]; intros a l r Hl Hr Hf; [lia|]. cbn [quicksort].
  destruct (Z.leb_spec r l) as [Hrl|Hrl].
  { exists a. split; [done|]. split; [apply within_refl|]. intros x y Hx Hy.
    replace y with x by lia. pose proof (compar_opp a.[x] a.[x]). lia. }
  destruct (part_loop_spec (S (Z.to_nat (r - l + 1))) a l r (l - 1) r (l - 1) r)
    as (a1 & i & p & q & -> & Hpt & Hw1); [constructor; intros; lia|lia|].
  cbn [mbind res_bind]. pose proof Hpt as [Ho _ _ _ _ _].
  destruct (pivot_placed a1 l r i p q Hpt) as (a2 & -> & Hw2 & Hi & Hle & Hel & Hge & Her).
  cbn [mbind res_bind]. pose proof (within_length _ _ _ _ Hw2) as Hlen2.
  destruct (equals_gathered a2 l r i p q a1.[r]) as (a3 & E3 & Hw3 & Hsp); [lia..| |done|done|done|done|].
  { rewrite Hi. pose proof (compar_opp a1.[r] a1.[r]). lia. }
  destruct (swap_run (Z.to_nat (p - l)) a2 l (i - 1)) as [a2'|]; [|done]. cbn [mbind res_bind] in *. rewrite E3.
  cbn [mbind res_bind]. pose proof (within_length _ _ _ _ Hw3) as Hlen3.
  pose proof (split_order _ _ _ _ _ _ Hsp) as Hso.
  destruct (IH a3 l (i - 1 - Z.of_nat (Z.to_nat (p - l)))) as (a4 & -> & Hw4 & Hs4); [lia..|].
  cbn [mbind res_bind]. pose proof (within_length _ _ _ _ Hw4) as Hlen4.
  destruct (IH a4 (i + 1 + Z.of_nat (Z.to_nat (r - 1 - q))) r) as (b & -> & Hw5 & Hs5); [lia..|].
  exists b. split; [done|]. split.
  - eapply within_trans; [eapply within_weaken; [..|exact Hw1]; lia|].
    eapply within_trans; [exact Hw2|]. eapply within_trans; [exact Hw3|].
    eapply within_trans; eapply within_weaken; [| |exact Hw4| | |exact Hw5]; lia.
  - eapply sorted_around; [by eapply split_within| |done].
    eapply sorted_within; [done|exact Hw5|lia|done].
Qed.
End lemmas.

(** ** [qsort] *)

(** In order: whatever stands further on is not smaller. *)
Definition in_order {A} (compar : A -> A -> Z) (a : list A) : Prop :=
  forall i j x y, (i <= j)%nat -> a !! i = Some x -> a !! j = Some y -> compar x y <= 0.

(** C16: for a comparison that orders the elements (some may be equal) and an
    array and elements of less than 2^31 - 1, [qsort] returns, stays inside the
    array, and leaves the same elements in order. *)
Theorem qsort_sorts {A} (compar : A -> A -> Z) (a : list A) size :
  Ordering compar -> Z.of_nat (length a) < limit -> size < limit ->
  exists b, qsort compar a size = Ret b /\ a ≡ₚ b /\ in_order compar b.
Proof.
  intros Hc Ha Hs. unfold qsort.
  rewrite (proj2 (Z.leb_gt _ _) Ha), (proj2 (Z.leb_gt _ _) Hs). cbn [orb].
  assert (Hrefl : forall x, compar x x <= 0).
  { intros x. pose proof (compar_opp compar x x). lia. }
  destruct (Z.ltb_spec 1 (Z.of_nat (length a))) as [Hn|Hn].
  - destruct a as [|x0 a0] eqn:Ea; [done|]. rewrite <- Ea in *.
    destruct (@quicksort_spec A (populate x0) compar Hc (S (length a)) a 0 (Z.of_nat (length a) - 1))
      as (b & E & Hw & Hso); [lia..|].
    exists b. split; [done|]. split; [apply Hw|].
    pose proof (within_length _ _ _ _ Hw) as Hlen.
    intros i j x y Hij Hx Hy. pose proof (lookup_lt_Some _ _ _ Hy).
    specialize (Hso (Z.of_nat i) (Z.of_nat j) ltac:(lia) ltac:(lia)).
    rewrite !Nat2Z.id in Hso.
    by rewrite (list_lookup_total_correct _ _ _ Hx), (list_lookup_total_correct _ _ _ Hy) in Hso.
  - exists a. split; [done|]. split; [done|]. intros i j x y Hij Hx Hy.
    pose proof (lookup_lt_Some _ _ _ Hy). replace j with i in * by lia.
    rewrite Hx in Hy. injection Hy as ->. apply Hrefl.
Qed.

Lemma qsort_sorts_witness : exists b, qsort (fun x y => x - y) [2; 2; 3; 2; 1; 2; 2; 0; 2] 4 = Ret b /\
  [2; 2; 3; 2; 1; 2; 2; 0; 2] ≡ₚ b /\ in_order (fun x y => x - y) b.
Proof.
  apply qsort_sorts; [constructor; intros; lia | vm_compute; reflexivity | vm_compute; reflexivity].
Defined.

(** ** Elements and their bytes *)

(** Bytes [x] to [x + n - 1] exchanged with [y] to [y + n - 1], for two runs that
    do not meet. *)
Lemma exch_loop_spec u v : forall pre mid post, length u = length v ->
  exch_loop (length u) (pre ++ u ++ mid ++ v ++ post) (Z.of_nat (length pre))
    (Z.of_nat (length pre + length u + length mid)) = Ret (pre ++ v ++ mid ++ u ++ post).
Proof.
  revert v. induction u as [|c u IH]; intros [|d v] pre mid post Hl; try done. cbn [length exch_loop].
  set (m := pre ++ (c :: u) ++ mid ++ (d :: v) ++ post).
  assert (E1 : m = pre ++ c :: (u ++ mid ++ d :: v ++ post)) by (unfold m; cbn; by rewrite <- ?app_assoc).
  assert (E2 : m = (pre ++ c :: u ++ mid) ++ d :: (v ++ post)).
  { unfold m. cbn. rewrite <- !app_assoc. cbn. by rewrite <- !app_assoc. }
  assert (E3 : <[length pre := d]> m = (pre ++ d :: u ++ mid) ++ d :: (v ++ post)).
  { rewrite E1, insert_app_r_alt, Nat.sub_diag by lia. cbn [insert list_insert]. rewrite <- !app_assoc. cbn. by rewrite <- !app_assoc. }
  clearbody m.
  assert (Hi : idx m (Z.of_nat (length pre)) = Ret c) by (rewrite E1; by apply idx_middle).
  assert (Hj : idx m (Z.of_nat (length pre + S (length u) + length mid)) = Ret d).
  { rewrite E2. apply idx_middle. rewrite length_app. cbn. rewrite length_app. lia. }
  assert (Hup : upd m (Z.of_nat (length pre)) d = Ret (<[length pre := d]> m)).
  { rewrite upd_ok, Nat2Z.id; [done|]. rewrite E1, length_app. cbn. lia. }
  rewrite Hi, Hj. cbn [mbind res_bind]. rewrite Hup. cbn [mbind res_bind]. rewrite E3.
  rewrite upd_middle by (rewrite length_app; cbn; rewrite length_app; lia). cbn [mbind res_bind].
  specialize (IH v (pre ++ [d]) (mid ++ [c]) post ltac:(cbn in Hl; lia)).
  rewrite !length_app in IH. cbn [length] in IH.
  replace (Z.of_nat (length pre) + 1) with (Z.of_nat (length pre + 1)) by lia.
  replace (Z.of_nat (length pre + S (length u) + length mid) + 1)
    with (Z.of_nat (length pre + 1 + length u + (length mid + 1))) by lia.
  rewrite <- !app_assoc in *. cbn [app] in *. rewrite <- !app_assoc in *. exact IH.
Qed.

(** The bytes of an array of elements of [size] bytes: exchanging two elements byte
    by byte is exchanging them. *)
Lemma exch_elements size (es : list (list Z)) i j b :
  (i < j)%nat -> Forall (fun e => length e = size) es -> exch es (Z.of_nat i) (Z.of_nat j) = Ret b ->
  exch_bytes size (concat es) (Z.of_nat i) (Z.of_nat j) = Ret (concat b).
Proof.
  intros Hij Hall E.
  unfold exch in E. apply bind_Ret in E as (x & Hx & E). apply bind_Ret in E as (y & Hy & E).
  apply idx_Ret in Hx as [_ Hx]. apply idx_Ret in Hy as [_ Hy]. rewrite Nat2Z.id in *.
  pose proof (lookup_lt_Some _ _ _ Hy) as Hj.
  rewrite upd_ok in E by lia. cbn [mbind res_bind] in E. rewrite upd_ok in E by (rewrite length_insert; lia).
  injection E as <-. rewrite !Nat2Z.id.
  pose proof (take_drop_middle es i x Hx) as Ei.
  assert (Hy' : drop (S i) es !! (j - S i)%nat = Some y) by (rewrite lookup_drop; rewrite <- Hy; f_equal; lia).
  pose proof (take_drop_middle _ _ _ Hy') as Ej.
  set (pre := take i es) in *. set (mid := take (j - S i) (drop (S i) es)) in *.
  set (post := drop (S (j - S i)) (drop (S i) es)) in *.
  assert (Hpre : length pre = i) by (unfold pre; rewrite length_take; lia).
  assert (Hmid : length mid = (j - S i)%nat) by (unfold mid; rewrite length_take, length_drop; lia).
  rewrite <- Ei, <- Ej in Hall |- *.
  rewrite Forall_app, Forall_cons, Forall_app, Forall_cons in Hall. destruct Hall as (Hp & Hxs & Hm & Hys & _).
  rewrite insert_app_r_alt, Hpre, Nat.sub_diag by lia. cbn [insert list_insert].
  replace (pre ++ y :: mid ++ y :: post) with ((pre ++ y :: mid) ++ y :: post) by by rewrite <- app_assoc.
  assert (Hlen : length (pre ++ y :: mid) = j) by (rewrite length_app; cbn; lia).
  rewrite insert_app_r_alt, Hlen, Nat.sub_diag by lia. cbn [insert list_insert]. rewrite <- app_assoc. cbn [app].
  rewrite !concat_app, !concat_cons, !concat_app, !concat_cons.
  assert (Hcl : forall l : list (list Z), Forall (fun e => length e = size) l -> length (concat l) = (length l * size)%nat).
  { induction 1 as [|e l He _ IH]; [done|]. cbn. rewrite length_app, He, IH. lia. }
  unfold exch_bytes. rewrite <- Hxs at 1.
  replace (Z.of_nat i * Z.of_nat size) with (Z.of_nat (length (concat pre))) by (rewrite (Hcl pre Hp), Hpre; lia).
  replace (Z.of_nat j * Z.of_nat size) with (Z.of_nat (length (concat pre) + length x + length (concat mid)))
    by (rewrite (Hcl pre Hp), (Hcl mid Hm), Hpre, Hmid, Hxs; nia).
  apply exch_loop_spec. by rewrite Hxs, Hys.
Qed.
