(* ===== verification/DevFs.v ===== *)
(** * The file system of devices

    src/RTT/components/dfs/filesystems/devfs/devfs.c: the kernel's devices as files
    of one directory, a second instance of [Dfs.dfs_filesystem_operation].  The
    kernel's list of devices and the calls of its device interface are the class
    [Devices], over the medium [D]. *)

From S2P Require Import Prelude DfsPath Dfs RomFs.

Definition RT_NAME_MAX : nat := 20.
Definition RT_Device_Class_Char : Z := 0.
Definition RT_Device_Class_Block : Z := 1.
Definition S_IFCHR : Z := 0x2000.
Definition S_IFBLK : Z := 0x6000.

(** The kernel: the devices in the order of the object list, by handle; the 20
    bytes of a name, cut at its terminator when it has one; the device calls; the
    heap. *)
Class Devices (D : Type) := {
  dev_list : D -> list Z;
  dev_name : Z -> D -> list Z;
  dev_type : Z -> D -> Z;
  dev_find : list Z -> D -> option Z;
  dev_read : Z -> Z -> list Z -> Z -> D -> Z * list Z * D;
  dev_write : Z -> Z -> list Z -> Z -> D -> Z * D;
  dev_control : Z -> Z -> Z -> D -> Z * D;
  dev_close : Z -> D -> Z * D;
  dev_malloc : Z -> D -> bool * D;
  dev_free : D -> D
}.

(** [file->data]: a device, or the [device_dirent] of an open directory. *)
Inductive devnode :=
  | Dev (h : Z)
  | Root (devices : list Z) (read_index device_count : Z).

Section devfs.
Context {D : Type} `{Devices D}.
Abbreviation fs := (dfs_filesystem devnode).
Abbreviation fd := (dfs_fd devnode).

Definition set_data (file : fd) (x : option devnode) : fd :=
  mkFd (fd_path file) (fd_type file) (fd_ref file) (fd_fs file) (fd_flags file) (fd_size file) (fd_pos file) x.

(** The device a descriptor refers to; a directory's [device_dirent] used as one is
    memory that is not a device. *)
Definition dev_id (file : fd) : res Z :=
  match fd_data file with
  | None => Err AssertFail
  | Some (Dev h) => Ret h
  | Some (Root _ _ _) => Err OutOfBounds
  end.

Definition dfs_device_fs_mount (f : fs) (rwflag : Z) (data : option devnode) (d : D) : res (Z * fs * D) :=
  mret (0, f, d).

Definition dfs_device_fs_ioctl (f : fs) (file : fd) (cmd args : Z) (d : D) : res (Z * fd * D) :=
  h ← dev_id file;
  let '(result, d) := dev_control h cmd args d in
  mret (if result =? 0 then 0 else - EIO, file, d).

Definition dfs_device_fs_read (f : fs) (file : fd) (buf : list Z) (count : Z) (d : D) :
    res (Z * fd * list Z * D) :=
  h ← dev_id file;
  let '(result, buf, d) := dev_read h (fd_pos file) buf count d in
  let result := s32 result in
  mret (result, with_pos file (s32 (fd_pos file + result)), buf, d).

Definition dfs_device_fs_write (f : fs) (file : fd) (buf : list Z) (count : Z) (d : D) : res (Z * fd * D) :=
  h ← dev_id file;
  let '(result, d) := dev_write h (fd_pos file) buf count d in
  let result := s32 result in
  mret (result, with_pos file (s32 (fd_pos file + result)), d).

Definition dfs_device_fs_close (f : fs) (file : fd) (d : D) : res (Z * fd * D) :=
  if fd_type file =? FT_DIRECTORY then
    match fd_data file with
    | None => Err AssertFail
    | Some (Root _ _ _) => mret (0, file, dev_free d)
    | Some (Dev _) => Err UseAfterFree                (* the device itself is freed *)
    end
  else
    h ← dev_id file;
    let '(result, d) := dev_close h d in
    if result =? 0 then mret (0, set_data file None, d) else mret (- EIO, file, d).

(** The root directory is a snapshot of the list of devices; when there is no
    memory for it, its pointer is null. *)
Definition open_root (d : D) : option devnode * D :=
  let count := Z.of_nat (length (dev_list d)) in
  let '(ok, d') := dev_malloc (8 + count * 4) d in
  (if ok then Some (Root (dev_list d) 0 (u16 count)) else None, d').

Definition dfs_device_fs_open (f : fs) (file : fd) (d : D) : res (Z * fd * D) :=
  if negb (Z.land (fd_flags file) O_CREAT =? 0) then mret (- EINVAL, file, d)
  else
    path ← deref (fd_path file);
    if bool_decide (path = [SLASH]) && negb (Z.land (fd_flags file) O_DIRECTORY =? 0) then
      let '(data, d) := open_root d in mret (0, set_data file data, d)
    else
      match dev_find (tail path) d with
      | None => mret (- ENODEV, file, d)
      | Some h => mret (0, set_data file (Some (Dev h)), d)
      end.

Definition dfs_device_fs_stat (f : fs) (path : option (list Z)) (st : stat_buf) (d : D) :
    res (Z * stat_buf * D) :=
  path ← deref path;
  if bool_decide (path = [SLASH]) then
    let mode := Z.lor S_IFREG S_RW in
    let mode := Z.ldiff mode S_IFREG in
    mret (0, mkStat 0 (Z.lor mode (Z.lor S_IFDIR S_X)) 0 0 512, d)
  else
    match dev_find (tail path) d with
    | Some h =>
        let kind := if dev_type h d =? RT_Device_Class_Char then S_IFCHR
                    else if dev_type h d =? RT_Device_Class_Block then S_IFBLK
                    else S_IFREG in
        mret (0, mkStat 0 (Z.lor S_RW kind) 0 0 512, d)
    | None => mret (- ENOENT, st, d)
    end.

(** [rt_strncpy(d->d_name, object->name, RT_NAME_MAX)]: a name of 20 characters is
    copied without a terminator, and what the buffer held goes on behind it. *)
Definition copy_name (name old : list Z) : list Z :=
  if (length name <? RT_NAME_MAX)%nat then name else take RT_NAME_MAX name ++ drop RT_NAME_MAX old.

(** The loop of [dfs_device_fs_getdents]: entries [index] to [count] of the
    buffer, from [read_index + index] of the devices. *)
Fixpoint dents_loop (n : nat) (devices : list Z) (read_index device_count : Z) (dirp : list dirent)
    (index : Z) (d : D) : res (Z * list dirent) :=
  match n with
  | O => mret (index, dirp)
  | S n =>
      if index + read_index <? device_count then
        h ← idx devices (read_index + index);
        old ← idx dirp index;
        dirp ← upd dirp index (mkDirent 1 (Z.of_nat RT_NAME_MAX) DIRENT_SIZE
                                 (copy_name (dev_name h d) (d_name old)));
        dents_loop n devices read_index device_count dirp (index + 1) d
      else mret (index, dirp)
  end.

Definition dfs_device_fs_getdents (f : fs) (file : fd) (dirp : list dirent) (count : Z) (d : D) :
    res (Z * fd * list dirent * D) :=
  match fd_data file with
  | None => Err AssertFail
  | Some (Dev _) => Err OutOfBounds
  | Some (Root devices read_index device_count) =>
      let count := count / DIRENT_SIZE in
      if count =? 0 then mret (- EINVAL, file, dirp, d)
      else
        '(index, dirp) ← dents_loop (Z.to_nat count) devices read_index device_count dirp 0 d;
        mret (index * DIRENT_SIZE,
              set_data file (Some (Root devices (u16 (read_index + index)) device_count)), dirp, d)
  end.

(** The table; [devfs_init] registers it. *)
Definition devfs : dfs_filesystem_operation D devnode := {|
  op_name := str "devfs";
  op_mount := Some dfs_device_fs_mount;
  op_unmount := None;
  op_mkfs := None;
  op_statfs := None;
  op_open := Some dfs_device_fs_open;
  op_close := Some dfs_device_fs_close;
  op_ioctl := Some dfs_device_fs_ioctl;
  op_read := Some dfs_device_fs_read;
  op_write := Some dfs_device_fs_write;
  op_flush := None;
  op_lseek := None;
  op_getdents := Some dfs_device_fs_getdents;
  op_unlink := None;
  op_stat := Some dfs_device_fs_stat;
  op_rename := None
|}.
End devfs.

(** ** Listing the directory *)

Section listing.
Context {D : Type} `{Devices D}.
Abbreviation fd := (dfs_fd devnode).

(** What a directory entry of a device has to say, the length of the name left
    out. *)
Definition entry_of (d : D) (h : Z) (e : dirent) : Prop :=
  d_type e = 1 /\ d_reclen e = DIRENT_SIZE /\ d_name e = dev_name h d.

(** The entry as the code writes it; its [d_namlen] is the size of the field,
    whatever the name. *)
Definition entry (d : D) (h : Z) : dirent := mkDirent 1 20 DIRENT_SIZE (dev_name h d).

(** Reading the whole directory, a buffer at a time, until nothing comes. *)
Fixpoint listing (fuel : nat) (f : dfs_filesystem devnode) (file : fd) (buf : list dirent) (d : D) :
    res (list dirent * fd) :=
  match fuel with
  | O => Err OutOfFuel
  | S fuel =>
      '(r, file, buf, d) ← dfs_device_fs_getdents f file buf (Z.of_nat (length buf) * DIRENT_SIZE) d;
      if r <=? 0 then Ret ([], file)
      else
        '(rest, file) ← listing fuel f file buf d;
        Ret (take (Z.to_nat (r / DIRENT_SIZE)) buf ++ rest, file)
  end.

Lemma copy_short name old : (length name < RT_NAME_MAX)%nat -> copy_name name old = name.
Proof. intros Hn. unfold copy_name. by rewrite (proj2 (Nat.ltb_lt _ _) Hn). Qed.

Lemma dents_loop_spec (d : D) (devices : list Z) (ri : nat) n : forall front rest,
  (forall h, h ∈ devices -> (length (dev_name h d) < RT_NAME_MAX)%nat) ->
  (n <= length rest)%nat ->
  dents_loop n devices (Z.of_nat ri) (Z.of_nat (length devices)) (front ++ rest) (Z.of_nat (length front)) d =
  let new := take n (drop (ri + length front) devices) in
  Ret (Z.of_nat (length front + length new), front ++ (entry d <$> new) ++ drop (length new) rest).
Proof.
  induction n as [|n IH]; intros front rest Hnames Hn; cbn [dents_loop].
  { rewrite take_0. cbn. by rewrite Nat.add_0_r. }
  destruct (Z.ltb_spec (Z.of_nat (length front) + Z.of_nat ri) (Z.of_nat (length devices))) as [Hlt|Hge].
  - destruct (lookup_lt_is_Some_2 devices (ri + length front)%nat) as [h Hh]; [lia|].
    rewrite (proj2 (idx_Ret devices _ h)) by (split; [lia|rewrite <- Hh; f_equal; lia]).
    cbn [mbind res_bind]. destruct rest as [|old rest]; [cbn in Hn; lia|].
    rewrite idx_middle by done. cbn [mbind res_bind]. rewrite upd_middle by done. cbn [mbind res_bind].
    rewrite copy_short by (by apply Hnames, list_elem_of_lookup; eauto).
    change (mkDirent 1 (Z.of_nat RT_NAME_MAX) DIRENT_SIZE (dev_name h d)) with (entry d h).
    replace (front ++ entry d h :: rest) with ((front ++ [entry d h]) ++ rest) by by rewrite <- app_assoc.
    replace (Z.of_nat (length front) + 1) with (Z.of_nat (length (front ++ [entry d h])))
      by (rewrite length_app; cbn; lia).
    rewrite IH by (done || (cbn in Hn; lia)). cbn zeta.
    rewrite (drop_S devices h (ri + length front)) by done. cbn [take].
    rewrite length_app. cbn [length]. replace (ri + (length front + 1))%nat with (S (ri + length front)) by lia.
    rewrite fmap_cons, <- !app_assoc. cbn [app drop]. do 2 f_equal. lia.
  - rewrite drop_ge by lia. rewrite take_nil. cbn. by rewrite Nat.add_0_r.
Qed.

Lemma getdents_spec f (file : fd) (d : D) devices ri buf :
  fd_data file = Some (Root devices (Z.of_nat ri) (Z.of_nat (length devices))) ->
  Z.of_nat (length devices) < 2 ^ 16 -> (0 < length buf)%nat -> (ri <= length devices)%nat ->
  (forall h, h ∈ devices -> (length (dev_name h d) < RT_NAME_MAX)%nat) ->
  let new := take (length buf) (drop ri devices) in
  dfs_device_fs_getdents f file buf (Z.of_nat (length buf) * DIRENT_SIZE) d =
  Ret (Z.of_nat (length new) * DIRENT_SIZE,
       set_data file (Some (Root devices (Z.of_nat (ri + length new)) (Z.of_nat (length devices)))),
       (entry d <$> new) ++ drop (length new) buf, d).
Proof.
  intros Hf Hlen Hbuf Hri Hnames new. unfold dfs_device_fs_getdents. rewrite Hf.
  rewrite Z.div_mul by (unfold DIRENT_SIZE; lia). destruct (Z.eqb_spec (Z.of_nat (length buf)) 0); [lia|].
  rewrite Nat2Z.id. pose proof (dents_loop_spec d devices ri (length buf) [] buf Hnames ltac:(lia)) as E.
  cbn [app length] in E. change (Z.of_nat 0) with 0 in E. rewrite Nat.add_0_r in E. rewrite E.
  cbn [mbind res_bind mret res_ret Nat.add]. fold new.
  assert (Hnew : (length new <= length devices - ri)%nat) by (unfold new; rewrite length_take, length_drop; lia).
  rewrite wrap_id by lia. by rewrite <- Nat2Z.inj_add.
Qed.

Lemma listing_spec f (d : D) devices fuel : forall (file : fd) buf ri,
  fd_data file = Some (Root devices (Z.of_nat ri) (Z.of_nat (length devices))) ->
  Z.of_nat (length devices) < 2 ^ 16 -> (0 < length buf)%nat -> (ri <= length devices)%nat ->
  (forall h, h ∈ devices -> (length (dev_name h d) < RT_NAME_MAX)%nat) ->
  (length devices - ri < fuel)%nat ->
  exists file', listing fuel f file buf d = Ret (entry d <$> drop ri devices, file') /\
  fd_data file' = Some (Root devices (Z.of_nat (length devices)) (Z.of_nat (length devices))).
Proof.
  induction fuel as [|fuel IH]; intros file buf ri Hf Hlen Hbuf Hri Hnames Hfuel; [lia|]. cbn [listing].
  rewrite (getdents_spec f file d devices ri buf) by done. cbn [mbind res_bind].
  set (new := take (length buf) (drop ri devices)).
  assert (Hnew : length new = (length buf `min` (length devices - ri))%nat)
    by (unfold new; by rewrite length_take, length_drop).
  destruct (Z.leb_spec (Z.of_nat (length new) * DIRENT_SIZE) 0) as [Hz|Hpos]; unfold DIRENT_SIZE in *.
  - assert (ri = length devices) as -> by lia. rewrite drop_all.
    eexists. split; [done|]. cbn. by replace (length devices + length new)%nat with (length devices) by lia.
  - destruct (IH (set_data file (Some (Root devices (Z.of_nat (ri + length new)) (Z.of_nat (length devices)))))
                 ((entry d <$> new) ++ drop (length new) buf) (ri + length new)%nat) as (file' & -> & Hf');
      [done|done|rewrite length_app, length_fmap, length_drop; lia|lia|done|lia|].
    cbn [mbind res_bind]. exists file'. split; [|done]. rewrite Z.div_mul, Nat2Z.id by lia.
    rewrite take_app_le by (rewrite length_fmap; lia).
    rewrite take_ge by (by rewrite length_fmap). rewrite <- fmap_app. do 3 f_equal.
    unfold new at 1. rewrite <- drop_drop.
    assert (Hdrop : drop (length new) (drop ri devices) = drop (length buf) (drop ri devices)).
    { destruct (decide (length buf <= length devices - ri)%nat).
      - f_equal. lia.
      - rewrite !drop_ge; rewrite ?length_drop; [done|lia|lia]. }
    rewrite Hdrop. apply take_drop.
Qed.

(** C37: the directory of devices, opened and read through a buffer of any size,
    gives an entry for every device of the kernel, once, in the kernel's order, with
    the device's name, the type of a regular file and the size of an entry, and then
    reports its end (fewer than 2^16 devices, names of fewer than 20 characters, and
    the memory for the snapshot).  The remaining field, [d_namlen], is not what
    dfs_def.h:272 says, the length of the name: it is always 20 ([devfs_namlen]). *)
Theorem devfs_lists_devices f (file : fd) (d : D) buf :
  fd_path file = Some [SLASH] -> Z.land (fd_flags file) O_CREAT = 0 ->
  Z.land (fd_flags file) O_DIRECTORY <> 0 -> (0 < length buf)%nat ->
  Z.of_nat (length (dev_list d)) < 2 ^ 16 ->
  fst (dev_malloc (8 + Z.of_nat (length (dev_list d)) * 4) d) = true ->
  let d' := snd (dev_malloc (8 + Z.of_nat (length (dev_list d)) * 4) d) in
  (forall h, h ∈ dev_list d -> (length (dev_name h d') < RT_NAME_MAX)%nat) ->
  exists file' file'', dfs_device_fs_open f file d = Ret (0, file', d') /\
  (exists es, listing (S (length (dev_list d))) f file' buf d' = Ret (es, file'') /\
     Forall2 (entry_of d') (dev_list d) es) /\
  dfs_device_fs_getdents f file'' buf (Z.of_nat (length buf) * DIRENT_SIZE) d' = Ret (0, file'', buf, d').
Proof.
  intros Hp Hc Hd Hbuf Hlen Hm d' Hnames. subst d'. unfold dfs_device_fs_open. rewrite Hc, Hp. cbn [Z.eqb negb].
  cbn [deref mbind res_bind mret res_ret].
  rewrite bool_decide_true by done. rewrite (proj2 (Z.eqb_neq _ _) Hd). cbn [negb andb].
  unfold open_root. destruct (dev_malloc (8 + Z.of_nat (length (dev_list d)) * 4) d) as [ok d']. cbn in Hm, Hnames |- *. subst ok.
  rewrite wrap_id by lia. eexists _.
  edestruct (listing_spec f d' (dev_list d) (S (length (dev_list d)))
              (set_data file (Some (Root (dev_list d) 0 (Z.of_nat (length (dev_list d)))))) buf 0)
    as (file'' & E & Hf''); [done|lia|done|lia|exact Hnames|lia|].
  exists file''. split; [done|]. split; [eexists; split; [exact E|]|].
  { apply Forall2_fmap_r, Forall_Forall2_diag, Forall_true. by intros h. }
  rewrite (getdents_spec f file'' d' (dev_list d) (length (dev_list d)) buf);
    [|done|lia|done|lia|by intros h Hh; apply Hnames].
  rewrite drop_all, take_nil. cbn [length Nat.add fmap list_fmap app]. rewrite drop_0, Nat.add_0_r.
  destruct file''. cbn in *. by rewrite <- Hf''.
Qed.

(** The length that an entry claims. *)
Lemma devfs_namlen f (file : fd) (d : D) devices h buf r file' e buf' d' :
  fd_data file = Some (Root (h :: devices) 0 (Z.of_nat (S (length devices)))) ->
  dfs_device_fs_getdents f file buf DIRENT_SIZE d = Ret (r, file', e :: buf', d') -> d_namlen e = 20.
Proof.
  intros Hf. unfold dfs_device_fs_getdents. rewrite Hf. change (DIRENT_SIZE / DIRENT_SIZE) with 1.
  change (Z.to_nat 1) with 1%nat. cbn [Z.eqb dents_loop]. rewrite (proj2 (Z.ltb_lt _ _)) by lia.
  change (idx (h :: devices) (0 + 0)) with (Ret h). cbn [mbind res_bind].
  destruct (idx buf 0) as [old|]; [|done]. cbn [mbind res_bind]. destruct (upd _ _ _) as [b|] eqn:E; [|done].
  cbn [mbind res_bind]. intros [= _ _ -> _]. destruct buf as [|o b]; [done|]. cbn in E. by injection E as <- _.
Qed.
End listing.

(** ** What goes wrong *)

Section errors.
Context {D : Type} `{Devices D}.

(** Without memory for the snapshot [open] reports success all the same; the null
    pointer stops the first use of the descriptor, and its close. *)
Lemma open_without_memory f file (d : D) :
  fd_path file = Some [SLASH] -> Z.land (fd_flags file) O_CREAT = 0 ->
  Z.land (fd_flags file) O_DIRECTORY <> 0 ->
  fst (dev_malloc (8 + Z.of_nat (length (dev_list d)) * 4) d) = false ->
  exists file' d', dfs_device_fs_open f file d = Ret (0, file', d') /\
  (forall buf n, dfs_device_fs_getdents f file' buf n d' = Err AssertFail) /\
  dfs_device_fs_close f file' d' = Err AssertFail.
Proof.
  intros Hp Hc Hd Hm. unfold dfs_device_fs_open. rewrite Hc, Hp. cbn [Z.eqb negb].
  cbn [deref mbind res_bind mret res_ret].
  rewrite bool_decide_true by done. rewrite (proj2 (Z.eqb_neq _ _) Hd). cbn [negb andb].
  unfold open_root. destruct (dev_malloc (8 + Z.of_nat (length (dev_list d)) * 4) d) as [ok d']. cbn in Hm. subst ok.
  eexists _, d'. split; [done|]. split; [done|]. unfold dfs_device_fs_close. cbn. by destruct (fd_type file =? _).
Qed.

(** A device opened as a directory is taken for one: [dfs_file_open] marks the
    descriptor, [getdents] reads the device as a list of devices, and [close] frees
    the device object. *)
Lemma open_device_as_directory f file (d : D) path h :
  fd_path file = Some path -> path <> [SLASH] -> Z.land (fd_flags file) O_CREAT = 0 ->
  dev_find (tail path) d = Some h ->
  exists file', dfs_device_fs_open f file d = Ret (0, file', d) /\
  (forall buf n, dfs_device_fs_getdents f file' buf n d = Err OutOfBounds) /\
  dfs_device_fs_close f (with_type file' FT_DIRECTORY) d = Err UseAfterFree.
Proof.
  intros Hp Hne Hc Hfind. unfold dfs_device_fs_open. rewrite Hc, Hp. cbn [Z.eqb negb].
  cbn [deref mbind res_bind mret res_ret]. rewrite bool_decide_false by done. cbn [andb]. rewrite Hfind.
  eexists. split; [done|]. done.
Qed.
End errors.

(** ** A kernel with devices *)

(** Devices numbered from 0, none of which does anything; memory for [8 + 4 n]
    bytes at most. *)
#[export] Instance named_devices (mem : Z) : Devices (list (list Z)) := {|
  dev_list := fun d => seqZ 0 (Z.of_nat (length d));
  dev_name := fun h d => nth (Z.to_nat h) d [];
  dev_type := fun _ _ => RT_Device_Class_Char;
  dev_find := fun n d => (fun p => Z.of_nat p.1) <$> list_find (fun m => m = n) d;
  dev_read := fun _ _ buf _ d => (0, buf, d);
  dev_write := fun _ _ _ _ d => (0, d);
  dev_control := fun _ _ _ d => (0, d);
  dev_close := fun _ d => (0, d);
  dev_malloc := fun n d => (n <=? mem, d);
  dev_free := fun d => d
|}.

Definition terminal : list (list Z) := [str "uart1"; str "uart2"; str "sd0"; str "rtc"; str "e0"].

(** The five devices through a buffer of two entries. *)
Lemma devfs_lists_devices_witness :
  let file := mkFd (Some [SLASH]) FT_REGULAR 1 (Some O) O_DIRECTORY 0 0 None in
  let buf := [mkDirent 0 0 0 []; mkDirent 0 0 0 []] in
  exists file' file'', @dfs_device_fs_open _ (named_devices 64) no_fs file terminal = Ret (0, file', terminal) /\
  (exists es, @listing _ (named_devices 64) 6 no_fs file' buf terminal = Ret (es, file'') /\
     Forall2 (@entry_of _ (named_devices 64) terminal) [0; 1; 2; 3; 4] es) /\
  @dfs_device_fs_getdents _ (named_devices 64) no_fs file'' buf (Z.of_nat (length buf) * DIRENT_SIZE) terminal =
    Ret (0, file'', buf, terminal).
Proof.
  refine (@devfs_lists_devices _ (named_devices 64) no_fs
    (mkFd (Some [SLASH]) FT_REGULAR 1 (Some O) O_DIRECTORY 0 0 None) terminal
    [mkDirent 0 0 0 []; mkDirent 0 0 0 []] eq_refl eq_refl _ _ _ eq_refl _).
  - discriminate.
  - cbn. lia.
  - vm_compute. reflexivity.
  - apply Forall_forall. vm_compute. repeat constructor.
Defined.
