(* ===== verification/CString.v ===== *)
(** * Strings of the C library

    src/RTT/components/libc/minilibc/string.c and the [atoi] of stdlib.c, on one
    memory: a list of bytes, in which a pointer is an index.  Source, destination
    and the objects that [sscanf] writes may overlap, as in C.  [char] is unsigned,
    as everywhere on ARM.  [rt_strlen] and [rt_strncpy] are the kernel's, which is not
    in the repository: the class [KernelString].

    A loop over a string has the length of the memory as fuel: a pointer that only
    grows leaves the memory before the fuel is used up ([CText]). *)

From S2P Require Import Prelude.

Definition CHAR_0 : Z := 48.
Definition CHAR_A : Z := 65.
Definition PERCENT : Z := 37.

(** The kernel's string functions; [strlen] is [rt_strlen] under its C name. *)
Class KernelString := {
  rt_strlen : list Z -> Z -> res Z;
  rt_strncpy : list Z -> Z -> Z -> Z -> res (list Z)
}.

(** [while (test( *s )) s++;] *)
Fixpoint skip_loop (fuel : nat) (test : Z -> bool) (m : list Z) (s : Z) : res Z :=
  match fuel with
  | O => Err OutOfFuel
  | S fuel => c ← idx m s; if test c then skip_loop fuel test m (s + 1) else Ret s
  end.
Definition skip (test : Z -> bool) (m : list Z) (s : Z) : res Z := skip_loop (S (length m)) test m s.
Definition nonzero (c : Z) : bool := negb (c =? 0).

Section strings.
Context `{KernelString}.

(** ** Copying *)

Definition strcpy (m : list Z) (dest src : Z) : res (Z * list Z) :=
  n ← rt_strlen m src; m ← rt_strncpy m dest src (u32 (n + 1)); mret (dest, m).

Definition strncpy (m : list Z) (dest src siz : Z) : res (Z * list Z) :=
  m ← rt_strncpy m dest src siz; mret (dest, m).

(** The loop that copies at most [n] bytes: the memory, [d], [s] and [n] after it. *)
Fixpoint strlcpy_loop (fuel : nat) (m : list Z) (d s n : Z) : res (list Z * Z * Z * Z) :=
  match fuel with
  | O => Err OutOfFuel
  | S fuel =>
      c ← idx m s; m ← upd m d c;
      if c =? 0 then Ret (m, d + 1, s + 1, n)
      else if n - 1 =? 0 then Ret (m, d + 1, s + 1, n - 1)
      else strlcpy_loop fuel m (d + 1) (s + 1) (n - 1)
  end.

Definition strlcpy (m : list Z) (dst src siz : Z) : res (Z * list Z) :=
  let n := if siz =? 0 then 0 else siz - 1 in
  '(m, d, s, n) ← (if n =? 0 then mret (m, dst, src, n)
                   else strlcpy_loop (S (length m)) m dst src n);
  '(m, s) ← (if n =? 0 then
               m ← (if siz =? 0 then mret m else upd m d 0);
               s ← skip nonzero m s; mret (m, s + 1)
             else mret (m, s));
  mret (u32 (s - src - 1), m).

(** [while (( *dest++ = *src++) != 0) ;] *)
Fixpoint copy_loop (fuel : nat) (m : list Z) (dest src : Z) : res (list Z) :=
  match fuel with
  | O => Err OutOfFuel
  | S fuel =>
      c ← idx m src; m ← upd m dest c;
      if c =? 0 then Ret m else copy_loop fuel m (dest + 1) (src + 1)
  end.

Definition strcat (m : list Z) (dest src : Z) : res (Z * list Z) :=
  d ← skip nonzero m dest;
  m ← copy_loop (S (length m)) m d src;
  mret (dest, m).

Fixpoint strncat_loop (fuel : nat) (m : list Z) (dest src count : Z) : res (list Z) :=
  match fuel with
  | O => Err OutOfFuel
  | S fuel =>
      c ← idx m src; m ← upd m dest c;
      if c =? 0 then Ret m
      else if count - 1 =? 0 then upd m (dest + 1) 0
      else strncat_loop fuel m (dest + 1) (src + 1) (count - 1)
  end.

Definition strncat (m : list Z) (dest src count : Z) : res (Z * list Z) :=
  if count =? 0 then mret (dest, m) else
  d ← skip nonzero m dest;
  m ← strncat_loop (S (length m)) m d src count;
  mret (dest, m).

(** ** Comparing *)

Fixpoint strcmp_loop (fuel : nat) (m : list Z) (s1 s2 : Z) : res Z :=
  match fuel with
  | O => Err OutOfFuel
  | S fuel =>
      a ← idx m s1; b ← idx m s2;
      if nonzero a && (a =? b) then strcmp_loop fuel m (s1 + 1) (s2 + 1) else Ret (a - b)
  end.
Definition strcmp (m : list Z) (s1 s2 : Z) : res Z := strcmp_loop (S (length m)) m s1 s2.

(** The result lives in a [signed char]. *)
Fixpoint strncmp_loop (fuel : nat) (m : list Z) (cs ct count __res : Z) : res Z :=
  match fuel with
  | O => Err OutOfFuel
  | S fuel =>
      if count =? 0 then Ret __res else
      a ← idx m cs; b ← idx m ct;
      let __res := s8 (a - b) in
      if negb (__res =? 0) || (a =? 0) then Ret __res
      else strncmp_loop fuel m (cs + 1) (ct + 1) (count - 1) __res
  end.
Definition strncmp (m : list Z) (cs ct count : Z) : res Z :=
  strncmp_loop (S (length m)) m cs ct count 0.

(** [x = c - 'A'; if (x < 26u) x += 32;] *)
Definition fold_case (c : Z) : Z :=
  let x := u32 (c - CHAR_A) in if x <? 26 then x + 32 else x.

Fixpoint strncasecmp_loop (fuel : nat) (m : list Z) (s1 s2 e : Z) : res Z :=
  match fuel with
  | O => Err OutOfFuel
  | S fuel =>
      if e <=? s1 then Ret 0 else
      b ← idx m s2; a ← idx m s1;
      let x2 := fold_case b in
      let x1 := fold_case a in
      if negb (x1 =? x2) || (x1 =? u32 (- CHAR_A)) then Ret (s32 (x1 - x2))
      else strncasecmp_loop fuel m (s1 + 1) (s2 + 1) e
  end.
Definition strncasecmp (m : list Z) (s1 s2 len : Z) : res Z :=
  strncasecmp_loop (S (length m)) m s1 s2 (s1 + len).

(** ** Searching *)

Fixpoint strrchr_loop (fuel : nat) (m : list Z) (t ch : Z) (l : option Z) : res (option Z) :=
  match fuel with
  | O => Err OutOfFuel
  | S fuel =>
      x ← idx m t;
      let l := if x =? ch then Some t else l in
      if x =? 0 then Ret l else strrchr_loop fuel m (t + 1) ch l
  end.
Definition strrchr (m : list Z) (t c : Z) : res (option Z) :=
  strrchr_loop (S (length m)) m t (u8 c) None.

Definition strchr (m : list Z) (s1 i : Z) : res (option Z) :=
  let c := u8 i in
  s ← skip (fun x => nonzero x && negb (x =? c)) m s1;
  x ← idx m s;
  mret (if x =? c then Some s else None).

(** The inner loop of [strspn] and [strcspn]: is [c] among the [n] bytes at [set]? *)
Fixpoint in_set (n : nat) (m : list Z) (c set : Z) : res bool :=
  match n with
  | O => Ret false
  | S n => x ← idx m set; if c =? x then Ret true else in_set n m c (set + 1)
  end.

(** The outer loop; [want] is what membership must be for the span to go on. *)
Fixpoint span_loop (fuel : nat) (want : bool) (m : list Z) (s set al : Z) (a : bool) (l : Z) : res Z :=
  match fuel with
  | O => Err OutOfFuel
  | S fuel =>
      if a then
        c ← idx m s;
        if c =? 0 then Ret l else
        found ← in_set (Z.to_nat al) m c set;
        let a := Bool.eqb found want in
        span_loop fuel want m (s + 1) set al a (if a then l + 1 else l)
      else Ret l
  end.

Definition strspn (m : list Z) (s accept : Z) : res Z :=
  al ← rt_strlen m accept; span_loop (S (S (length m))) true m s accept al true 0.
Definition strcspn (m : list Z) (s reject : Z) : res Z :=
  al ← rt_strlen m reject; span_loop (S (S (length m))) false m s reject al true 0.

(** The token, [*ptrptr] and the memory. *)
Definition strtok_r (m : list Z) (s : option Z) (delim : Z) (ptr : option Z) :
    res (option Z * option Z * list Z) :=
  s ← (match (match s with None => ptr | _ => s end) with Some s => Ret s | None => Err NullDeref end);
  n ← strspn m s delim;
  let s := s + n in
  c ← idx m s;
  if c =? 0 then mret (None, Some s, m) else
  let tmp := s in
  n ← strcspn m s delim;
  let s := s + n in
  c ← idx m s;
  if c =? 0 then mret (Some tmp, Some s, m) else
  m ← upd m s 0;
  mret (Some tmp, Some (s + 1), m).

(** The state is the memory and the static [strtok_pos]. *)
Definition strtok (s : option Z) (delim : Z) : ST (list Z * option Z) (option Z) := fun '(m, strtok_pos) =>
  '(tmp, strtok_pos, m) ← strtok_r m s delim strtok_pos;
  mret (tmp, (m, strtok_pos)).
End strings.

(** ** Classes of characters *)

Definition _U : Z := 0x01.
Definition _L : Z := 0x02.
Definition _D : Z := 0x04.
Definition _C : Z := 0x08.
Definition _P : Z := 0x10.
Definition _S : Z := 0x20.
Definition _X : Z := 0x40.
Definition _SP : Z := 0x80.

Definition _ctype : list Z :=
  [_C; _C; _C; _C; _C; _C; _C; _C;
   _C; Z.lor _C _S; Z.lor _C _S; Z.lor _C _S; Z.lor _C _S; Z.lor _C _S; _C; _C;
   _C; _C; _C; _C; _C; _C; _C; _C;
   _C; _C; _C; _C; _C; _C; _C; _C;
   Z.lor _S _SP; _P; _P; _P; _P; _P; _P; _P;
   _P; _P; _P; _P; _P; _P; _P; _P;
   _D; _D; _D; _D; _D; _D; _D; _D;
   _D; _D; _P; _P; _P; _P; _P; _P;
   _P; Z.lor _U _X; Z.lor _U _X; Z.lor _U _X; Z.lor _U _X; Z.lor _U _X; Z.lor _U _X; _U;
   _U; _U; _U; _U; _U; _U; _U; _U;
   _U; _U; _U; _U; _U; _U; _U; _U;
   _U; _U; _U; _P; _P; _P; _P; _P;
   _P; Z.lor _L _X; Z.lor _L _X; Z.lor _L _X; Z.lor _L _X; Z.lor _L _X; Z.lor _L _X; _L;
   _L; _L; _L; _L; _L; _L; _L; _L;
   _L; _L; _L; _L; _L; _L; _L; _L;
   _L; _L; _L; _P; _P; _P; _P; _C;
   0; 0; 0; 0; 0; 0; 0; 0; 0; 0; 0; 0; 0; 0; 0; 0;
   0; 0; 0; 0; 0; 0; 0; 0; 0; 0; 0; 0; 0; 0; 0; 0;
   Z.lor _S _SP; _P; _P; _P; _P; _P; _P; _P; _P; _P; _P; _P; _P; _P; _P; _P;
   _P; _P; _P; _P; _P; _P; _P; _P; _P; _P; _P; _P; _P; _P; _P; _P;
   _U; _U; _U; _U; _U; _U; _U; _U; _U; _U; _U; _U; _U; _U; _U; _U;
   _U; _U; _U; _U; _U; _U; _U; _P; _U; _U; _U; _U; _U; _U; _U; _L;
   _L; _L; _L; _L; _L; _L; _L; _L; _L; _L; _L; _L; _L; _L; _L; _L;
   _L; _L; _L; _L; _L; _L; _L; _P; _L; _L; _L; _L; _L; _L; _L; _L].

Definition __ismask (x : Z) : Z := nth (Z.to_nat (u8 x)) _ctype 0.
Definition has_mask (c mask : Z) : bool := negb (Z.land (__ismask c) mask =? 0).

(** The local macro, by subtraction; the others look the character up. *)
Definition isdigit (c : Z) : bool := u32 (c - CHAR_0) <? 10.
Definition isalnum (c : Z) : bool := has_mask c (Z.lor (Z.lor _U _L) _D).
Definition isalpha (c : Z) : bool := has_mask c (Z.lor _U _L).
Definition iscntrl (c : Z) : bool := has_mask c _C.
Definition isgraph (c : Z) : bool := has_mask c (Z.lor (Z.lor (Z.lor _P _U) _L) _D).
Definition islower (c : Z) : bool := has_mask c _L.
Definition isprint (c : Z) : bool := has_mask c (Z.lor (Z.lor (Z.lor (Z.lor _P _U) _L) _D) _SP).
Definition ispunct (c : Z) : bool := has_mask c _P.
Definition isspace (c : Z) : bool := has_mask c _S.
Definition isupper (c : Z) : bool := has_mask c _U.
Definition isxdigit (c : Z) : bool := has_mask c (Z.lor _D _X).
Definition isascii (c : Z) : bool := u8 c <=? 0x7f.
Definition toascii (c : Z) : Z := Z.land (u8 c) 0x7f.

Definition __tolower (c : Z) : Z := if isupper c then u8 (c - (65 - 97)) else c.
Definition __toupper (c : Z) : Z := if islower c then u8 (c - (97 - 65)) else c.
Definition tolower (c : Z) : Z := __tolower (u8 c).
Definition toupper (c : Z) : Z := __toupper (u8 c).

(** [divide]: quotient and remainder by 10, or by 16 for every other base. *)
Definition divide (n base : Z) : Z * Z :=
  if base =? 10 then (s32 (u32 n / 10), s32 (u32 n mod 10)) else (s32 (u32 n / 16), s32 (u32 n mod 16)).

(** ** Numbers *)

Definition letter_x : Z := 88.

(** The value of a character that [isxdigit] accepts, in [w] bits. *)
Definition digit_value (w c : Z) : Z :=
  wrap w (if isdigit c then c - CHAR_0 else toupper c - CHAR_A + 10).

(** The loop over the digits, in an unsigned number of [w] bits: the number and the
    address behind it. *)
Fixpoint number_loop (fuel : nat) (w : Z) (m : list Z) (cp base result : Z) : res (Z * Z) :=
  match fuel with
  | O => Err OutOfFuel
  | S fuel =>
      c ← idx m cp;
      if isxdigit c && (digit_value w c <? base)
      then number_loop fuel w m (cp + 1) base (wrap w (result * base + digit_value w c))
      else Ret (result, cp)
  end.

(** [(toupper( *cp) == 'X') && isxdigit(cp[1])] *)
Definition hex_prefix (m : list Z) (cp : Z) : res bool :=
  c ← idx m cp;
  if toupper c =? letter_x then d ← idx m (cp + 1); mret (isxdigit d) else mret false.

(** The result and [*endp]. *)
Definition simple_strtoul (m : list Z) (cp base : Z) : res (Z * Z) :=
  '(cp, base) ←
    (if base =? 0 then
       c ← idx m cp;
       if c =? CHAR_0 then
         hex ← hex_prefix m (cp + 1);
         mret (if (hex : bool) then (cp + 2, 16) else (cp + 1, 8))
       else mret (cp, 10)
     else if base =? 16 then
       c ← idx m cp;
       if c =? CHAR_0 then
         x ← idx m (cp + 1);
         mret (if toupper x =? letter_x then (cp + 2, base) else (cp, base))
       else mret (cp, base)
     else mret (cp, base));
  number_loop (S (length m)) 32 m cp base 0.

Definition simple_strtol (m : list Z) (cp base : Z) : res (Z * Z) :=
  c ← idx m cp;
  if c =? 45 then
    '(v, e) ← simple_strtoul m (cp + 1) base; mret (s32 (- v), e)
  else '(v, e) ← simple_strtoul m cp base; mret (s32 v, e).

(** A leading zero is skipped whatever the base, and 0x makes it 16. *)
Definition simple_strtoull (m : list Z) (cp base : Z) : res (Z * Z) :=
  c ← idx m cp;
  '(cp, base) ←
    (if c =? CHAR_0 then
       hex ← hex_prefix m (cp + 1);
       let '(cp, base) := if (hex : bool) then (cp + 2, 16) else (cp + 1, base) in
       mret (cp, if base =? 0 then 8 else base)
     else mret (cp, base));
  let base := if base =? 0 then 10 else base in
  number_loop (S (length m)) 64 m cp base 0.

Definition simple_strtoll (m : list Z) (cp base : Z) : res (Z * Z) :=
  c ← idx m cp;
  if c =? 45 then
    '(v, e) ← simple_strtoull m (cp + 1) base; mret (swrap 64 (- v), e)
  else '(v, e) ← simple_strtoull m cp base; mret (swrap 64 v, e).

(** [while (isdigit( **s)) i = i*10 + *(( *s)++) - '0';] *)
Fixpoint dec_loop (fuel : nat) (m : list Z) (s v : Z) : res (Z * Z) :=
  match fuel with
  | O => Err OutOfFuel
  | S fuel =>
      c ← idx m s;
      if isdigit c then dec_loop fuel m (s + 1) (s32 (v * 10 + c - CHAR_0)) else Ret (v, s)
  end.
Definition skip_atoi (m : list Z) (s : Z) : res (Z * Z) := dec_loop (S (length m)) m s 0.

(** stdlib.c *)
Definition atoi (m : list Z) (s : Z) : res Z :=
  s ← skip (fun c => (c =? 32) || (u32 (c - 9) <? 5)) m s;
  c ← idx m s;
  let sign := if c =? 45 then -1 else 1 in
  let s := if (c =? 45) || (c =? 43) then s + 1 else s in
  '(v, _) ← dec_loop (S (length m)) m s 0;
  mret (if sign =? -1 then s32 (- v) else v).

(** ** [vsscanf] *)

(** Little-endian objects of [n] bytes in memory. *)
Fixpoint le_bytes (n : nat) (v : Z) : list Z :=
  match n with O => [] | S n => v mod 256 :: le_bytes n (v / 256) end.
Definition store (m : list Z) (p : Z) (n : nat) (v : Z) : res (list Z) := upd_range m p (le_bytes n v).

(** The locals of the main loop.  [args] are the pointers not yet taken by
    [va_arg]. *)
Record scan := mkScan {
  sm : list Z;            (**r the memory *)
  sstr : Z;               (**r [str] *)
  sfmt : Z;               (**r [fmt] *)
  sargs : list Z;
  snum : Z;               (**r [num] *)
  swidth : Z              (**r [field_width] *)
}.
Definition va_arg (args : list Z) : res (Z * list Z) :=
  match args with p :: args => Ret (p, args) | [] => Err OutOfBounds end.

(** [do *s++ = *str++; while (field_width-- > 0 && *str);] *)
Fixpoint char_loop (fuel : nat) (m : list Z) (s str width : Z) : res (list Z * Z * Z) :=
  match fuel with
  | O => Err OutOfFuel
  | S fuel =>
      c ← idx m str; m ← upd m s c;
      if 0 <? width then
        c ← idx m (str + 1);
        if nonzero c then char_loop fuel m (s + 1) (str + 1) (width - 1) else Ret (m, str + 1, width - 1)
      else Ret (m, str + 1, width - 1)
  end.

(** [while ( *str && !isspace( *str) && field_width--) *s++ = *str++;] *)
Fixpoint word_loop (fuel : nat) (m : list Z) (s str width : Z) : res (list Z * Z * Z * Z) :=
  match fuel with
  | O => Err OutOfFuel
  | S fuel =>
      c ← idx m str;
      if nonzero c && negb (isspace c) then
        if width =? 0 then Ret (m, s, str, width - 1)
        else m ← upd m s c; word_loop fuel m (s + 1) (str + 1) (width - 1)
      else Ret (m, s, str, width)
  end.

Definition INT_MAX : Z := 2 ^ 31 - 1.

Definition scan_char (x : scan) : res scan :=
  '(p, args) ← va_arg (sargs x);
  let width := if swidth x =? -1 then 1 else swidth x in
  '(m, str, width) ← char_loop (S (length (sm x))) (sm x) p (sstr x) width;
  mret (mkScan m str (sfmt x) args (snum x + 1) width).

Definition scan_word (x : scan) : res scan :=
  '(p, args) ← va_arg (sargs x);
  let width := if swidth x =? -1 then INT_MAX else swidth x in
  str ← skip isspace (sm x) (sstr x);
  '(m, s, str, width) ← word_loop (S (length (sm x))) (sm x) p str width;
  m ← upd m s 0;
  mret (mkScan m str (sfmt x) args (snum x + 1) width).

(** The bytes of the object an integer conversion writes: [short], [long],
    [long long], or [int]. *)
Definition int_size (qualifier : Z) : nat :=
  if qualifier =? 104 then 2 else if qualifier =? 76 then 8 else 4.

(** [simple_strtol] or one of its relatives, by qualifier and sign.  The number is
    stored modulo the size of the object. *)
Definition convert (m : list Z) (str base qualifier : Z) (is_sign : bool) : res (Z * Z) :=
  if qualifier =? 76 then
    if is_sign then simple_strtoll m str base else simple_strtoull m str base
  else if is_sign && negb (qualifier =? 90) then simple_strtol m str base
  else simple_strtoul m str base.

(** The second half of a turn: an integer; none when the loop is left. *)
Definition scan_int (x : scan) (base qualifier : Z) (is_sign : bool) : res (scan * bool) :=
  str ← skip isspace (sm x) (sstr x);
  c ← idx (sm x) str;
  if (c =? 0) || negb (isdigit c) then
    mret (mkScan (sm x) str (sfmt x) (sargs x) (snum x) (swidth x), false)
  else
    '(p, args) ← va_arg (sargs x);
    '(v, next) ← convert (sm x) str base qualifier is_sign;
    m ← store (sm x) p (int_size qualifier) v;
    mret (mkScan m next (sfmt x) args (snum x + 1) (swidth x), true).

(** [switch ( *fmt++)]; [sfmt x] is already behind the letter [f].  The flag says
    whether the loop goes on. *)
Definition scan_conversion (buf : Z) (x : scan) (f qualifier : Z) : res (scan * bool) :=
  let go (r : res scan) : res (scan * bool) := x ← r; mret (x, true) in
  if f =? 99 then go (scan_char x)
  else if f =? 115 then go (scan_word x)
  else if f =? 110 then
    '(p, args) ← va_arg (sargs x);
    m ← store (sm x) p 4 (sstr x - buf);
    mret (mkScan m (sstr x) (sfmt x) args (snum x) (swidth x), true)
  else if f =? 111 then scan_int x 8 qualifier false
  else if (f =? 120) || (f =? 88) then scan_int x 16 qualifier false
  else if (f =? 100) || (f =? 105) then scan_int x 10 qualifier true
  else if f =? 117 then scan_int x 10 qualifier false
  else if f =? PERCENT then
    c ← idx (sm x) (sstr x);
    mret (mkScan (sm x) (sstr x + 1) (sfmt x) (sargs x) (snum x) (swidth x), c =? PERCENT)
  else mret (x, false).

(** Behind a [%]: suppression, width, qualifier, conversion. *)
Definition scan_directive (buf : Z) (x : scan) : res (scan * bool) :=
  let m := sm x in
  f ← idx m (sfmt x);
  if f =? 42 then
    fmt ← skip (fun c => negb (isspace c) && nonzero c) m (sfmt x);
    str ← skip (fun c => negb (isspace c) && nonzero c) m (sstr x);
    mret (mkScan m str fmt (sargs x) (snum x) (swidth x), true)
  else
    '(width, fmt) ← (if isdigit f then skip_atoi m (sfmt x) else mret (swidth x, sfmt x));
    f ← idx m fmt;
    let qualified := (f =? 104) || (f =? 108) || (f =? 76) || (f =? 90) in
    let qualifier := if qualified then f else -1 in
    let fmt := if qualified then fmt + 1 else fmt in
    f ← idx m fmt;
    let x := mkScan m (sstr x) fmt (sargs x) (snum x) width in
    if f =? 0 then mret (x, false) else
    c ← idx m (sstr x);
    if c =? 0 then mret (x, false) else
    scan_conversion buf (mkScan m (sstr x) (fmt + 1) (sargs x) (snum x) width) f qualifier.

(** One turn of the loop, whose condition is true. *)
Definition scan_turn (buf : Z) (x : scan) : res (scan * bool) :=
  let m := sm x in
  f ← idx m (sfmt x);
  '(fmt, str) ← (if isspace f then fmt ← skip isspace m (sfmt x); str ← skip isspace m (sstr x); mret (fmt, str)
                 else mret (sfmt x, sstr x));
  f ← idx m fmt;
  if negb (f =? PERCENT) && nonzero f then
    c ← idx m str;
    mret (mkScan m (str + 1) (fmt + 1) (sargs x) (snum x) (swidth x), f =? c)
  else if f =? 0 then mret (mkScan m str fmt (sargs x) (snum x) (swidth x), false)
  else scan_directive buf (mkScan m str (fmt + 1) (sargs x) (snum x) (swidth x)).

Fixpoint scan_loop (fuel : nat) (buf : Z) (x : scan) : res (Z * list Z) :=
  match fuel with
  | O => Err OutOfFuel
  | S fuel =>
      f ← idx (sm x) (sfmt x);
      if f =? 0 then Ret (snum x, sm x) else
      c ← idx (sm x) (sstr x);
      if c =? 0 then Ret (snum x, sm x) else
      '(x, go) ← scan_turn buf x;
      if (go : bool) then scan_loop fuel buf x else Ret (snum x, sm x)
  end.

(** Every turn moves [fmt] on. *)
Definition vsscanf (m : list Z) (buf fmt : Z) (args : list Z) : res (Z * list Z) :=
  scan_loop (S (length m)) buf (mkScan m buf fmt args 0 (-1)).

Definition sscanf (m : list Z) (buf fmt : Z) (args : list Z) : res (Z * list Z) := vsscanf m buf fmt args.
