(* ===== verification/CText.v ===== *)
(** * What the string functions compute

    Theorems of [CString].  [mem_at m p s] says that the bytes [s] are in memory [m]
    at [p], and [cstring m p s] that they are a C string; what a function does to
    memory is an [upd_range].  The kernel's part is the class [KernelStringLaws], of
    which [Kstr] is an instance. *)

From S2P Require Import Prelude CString.

(** ** Bytes in memory *)

Definition mem_at (m : list Z) (p : Z) (s : list Z) : Prop :=
  0 <= p /\ forall i c, s !! i = Some c -> m !! (Z.to_nat p + i)%nat = Some c.
Definition cstring (m : list Z) (p : Z) (s : list Z) : Prop :=
  mem_at m p (s ++ [0]) /\ Forall (fun c => c <> 0) s.

(** The areas [p, p+n) and [q, q+k) have no byte in common. *)
Definition apart (p n q k : Z) : Prop := p + n <= q \/ q + k <= p.

Section memory.
Implicit Types (m s t : list Z) (p q : Z).

Lemma mem_at_nil m p : 0 <= p -> mem_at m p [].
Proof. by split. Qed.

Lemma mem_at_cons m p c s : mem_at m p (c :: s) <-> idx m p = Ret c /\ mem_at m (p + 1) s.
Proof.
  unfold mem_at. rewrite idx_Ret. split.
  - intros [Hp H]. repeat split; [done| |lia|].
    + rewrite <- (H 0%nat c eq_refl). f_equal. lia.
    + intros i x Hi. rewrite <- (H (S i) x Hi). f_equal. lia.
  - intros [[Hp Hc] [_ H]]. split; [done|]. intros [|i] x Hi; cbn in Hi.
    + simplify_eq. rewrite <- Hc. f_equal. lia.
    + rewrite <- (H i x Hi). f_equal. lia.
Qed.

Lemma mem_at_app m p s t :
  mem_at m p (s ++ t) <-> mem_at m p s /\ mem_at m (p + Z.of_nat (length s)) t.
Proof.
  revert p. induction s as [|c s IH]; intros p; cbn [app length].
  - rewrite Z.add_0_r. split; [|tauto]. intros H. split; [|done]. split; [apply H|done].
  - rewrite !mem_at_cons, IH. replace (p + 1 + Z.of_nat (length s)) with (p + Z.of_nat (S (length s))) by lia.
    tauto.
Qed.

Lemma mem_at_idx m p c s : mem_at m p (c :: s) -> idx m p = Ret c.
Proof. by intros [H _]%mem_at_cons. Qed.

Lemma mem_at_next m p c s : mem_at m p (c :: s) -> mem_at m (p + 1) s.
Proof. by intros [_ H]%mem_at_cons. Qed.

Lemma mem_at_pos m p s : mem_at m p s -> 0 <= p.
Proof. by intros [? _]. Qed.

Lemma mem_at_length m p s : mem_at m p s -> s <> [] -> p + Z.of_nat (length s) <= Z.of_nat (length m).
Proof.
  intros [Hp H] Hs. destruct (lookup_lt_is_Some_2 s (length s - 1)) as [c Hc].
  { destruct s; [done|cbn; lia]. }
  apply H, lookup_lt_Some in Hc. destruct s; [done|cbn in *; lia].
Qed.

Lemma mem_at_take m p s n : mem_at m p s -> mem_at m p (take n s).
Proof. rewrite <- (take_drop n s) at 1. rewrite mem_at_app. tauto. Qed.

Lemma mem_at_unique m p s t : mem_at m p s -> mem_at m p t -> length s = length t -> s = t.
Proof.
  intros [_ Hs] [_ Ht] Hl. apply list_eq_same_length with (length t); [done..|].
  intros i x y Hi Hx Hy. apply Hs in Hx. apply Ht in Hy. congruence.
Qed.

Lemma upd_range_Ret m p s m' : upd_range m p s = Ret m' <->
  0 <= p /\ p + Z.of_nat (length s) <= Z.of_nat (length m) /\
  m' = take (Z.to_nat p) m ++ s ++ drop (Z.to_nat p + length s) m.
Proof. unfold upd_range. case_decide; naive_solver. Qed.

Lemma upd_range_step m p c s : 0 <= p < Z.of_nat (length m) ->
  upd_range m p (c :: s) = upd_range (<[Z.to_nat p := c]> m) (p + 1) s.
Proof.
  intros Hp. unfold upd_range. rewrite length_insert. cbn [length]. do 2 case_decide; try lia; [|done].
  f_equal. replace (Z.to_nat (p + 1)) with (S (Z.to_nat p)) by lia.
  erewrite take_S_r by (apply list_lookup_insert_eq; lia).
  rewrite take_insert_ge, drop_insert_lt, <- app_assoc by lia.
  by replace (Z.to_nat p + S (length s))%nat with (S (Z.to_nat p) + length s)%nat by lia.
Qed.

Lemma upd_range_cons m p c s m' :
  upd_range m p (c :: s) = Ret m' <-> exists m1, upd m p c = Ret m1 /\ upd_range m1 (p + 1) s = Ret m'.
Proof.
  split.
  - intros Hm. assert (Hm' := Hm). apply upd_range_Ret in Hm' as (Hp & Hl & _). cbn [length] in Hl.
    exists (<[Z.to_nat p := c]> m). split; [apply upd_ok; lia|]. rewrite <- upd_range_step by lia. done.
  - intros (m1 & [Hp ->]%upd_Ret & Hm). by rewrite upd_range_step.
Qed.

(** What a write does to bytes elsewhere, and where it writes. *)
Lemma mem_at_upd_range m p s m' q t : upd_range m p s = Ret m' ->
  apart p (Z.of_nat (length s)) q (Z.of_nat (length t)) -> mem_at m q t -> mem_at m' q t.
Proof.
  rewrite upd_range_Ret. intros (Hp & Hl & ->) Hd [Hq H]. split; [done|].
  intros i c Hi. assert (Hlt := lookup_lt_Some _ _ _ Hi). apply H in Hi. destruct Hd.
  - rewrite lookup_app_r, length_take, lookup_app_r, lookup_drop by (rewrite ?length_take; lia).
    rewrite <- Hi. f_equal. lia.
  - rewrite lookup_app_l, lookup_take_lt by (rewrite ?length_take; lia). done.
Qed.

Lemma mem_at_upd m p x m' q t : upd m p x = Ret m' ->
  apart p 1 q (Z.of_nat (length t)) -> mem_at m q t -> mem_at m' q t.
Proof.
  intros [Hp ->]%upd_Ret Hd [Hq H]. split; [done|]. intros i c Hi.
  assert (Hlt := lookup_lt_Some _ _ _ Hi). rewrite list_lookup_insert_ne by (destruct Hd; lia). auto.
Qed.

Lemma upd_range_at m p s m' : upd_range m p s = Ret m' -> mem_at m' p s.
Proof.
  intros (Hp & Hl & ->)%upd_range_Ret. split; [done|]. intros i c Hi.
  rewrite lookup_app_r, length_take by (rewrite length_take; lia).
  rewrite lookup_app_l by (apply lookup_lt_Some in Hi; lia). rewrite <- Hi. f_equal. lia.
Qed.

Lemma upd_range_nil m p m' : upd_range m p [] = Ret m' -> m' = m.
Proof. intros (_ & _ & ->)%upd_range_Ret. cbn. by rewrite Nat.add_0_r, take_drop. Qed.

Lemma upd_range_app m p s t m' : upd_range m p (s ++ t) = Ret m' ->
  exists m1, upd_range m p s = Ret m1 /\ upd_range m1 (p + Z.of_nat (length s)) t = Ret m'.
Proof.
  revert m p. induction s as [|c s IH]; intros m p Hm; cbn [app length] in *.
  - exists m. rewrite Z.add_0_r. split; [|done]. apply upd_range_Ret in Hm as (? & ? & _).
    apply upd_range_Ret. cbn. rewrite Nat.add_0_r, take_drop. repeat split; lia.
  - apply upd_range_cons in Hm as (m1 & Hu & (m2 & H1 & H2)%IH). exists m2. split.
    + apply upd_range_cons. eauto.
    + rewrite <- H2. f_equal. lia.
Qed.

Lemma upd_range_one m p x : upd_range m p [x] = upd m p x.
Proof.
  unfold upd_range, upd. cbn [length]. do 2 case_decide; try lia; [|done]. f_equal. symmetry.
  rewrite insert_take_drop by lia. do 3 f_equal. lia.
Qed.
Lemma upd_range_ok m p s : 0 <= p -> p + Z.of_nat (length s) <= Z.of_nat (length m) ->
  exists m', upd_range m p s = Ret m'.
Proof. intros. eexists. by apply upd_range_Ret. Qed.

Lemma cstring_cons m p c s : cstring m p (c :: s) <-> idx m p = Ret c /\ c <> 0 /\ cstring m (p + 1) s.
Proof. unfold cstring. cbn [app]. rewrite mem_at_cons, Forall_cons. tauto. Qed.

Lemma cstring_nil m p : cstring m p [] <-> idx m p = Ret 0.
Proof.
  unfold cstring. cbn [app]. rewrite mem_at_cons. split; [tauto|]. intros H. split; [|done].
  split; [done|]. apply mem_at_nil. apply idx_Ret in H. lia.
Qed.

Lemma cstring_length m p s : cstring m p s -> p + Z.of_nat (length s) < Z.of_nat (length m).
Proof.
  intros [H _]. apply mem_at_length in H; [|by destruct s]. rewrite length_app in H. cbn in H. lia.
Qed.

Lemma cstring_mem m p s : cstring m p s -> mem_at m p s.
Proof. by intros [[H _]%mem_at_app _]. Qed.

Lemma cstring_pos m p s : cstring m p s -> 0 <= p.
Proof. intros [H _]. by eapply mem_at_pos. Qed.

Lemma cstring_skip m p s t : cstring m p (s ++ t) -> cstring m (p + Z.of_nat (length s)) t.
Proof.
  unfold cstring. rewrite <- app_assoc, mem_at_app, Forall_app. tauto.
Qed.
End memory.

#[export] Hint Resolve mem_at_pos cstring_pos : core.

(** ** Scanning *)

Section skipping.
Implicit Types (m s : list Z).

Lemma skip_loop_spec fuel (test : Z -> bool) m s c p : mem_at m p (s ++ [c]) -> Forall test s -> test c = false ->
  (length s < fuel)%nat -> skip_loop fuel test m p = Ret (p + Z.of_nat (length s)).
Proof.
  intros Hm Hs Hc. revert p fuel Hm. induction Hs as [|x s Hx _ IH]; intros p fuel Hm Hf;
    (destruct fuel as [|fuel]; [lia|]); cbn in Hf |- *.
  - rewrite (mem_at_idx _ _ _ _ Hm). cbn. rewrite Hc. f_equal. lia.
  - rewrite (mem_at_idx _ _ _ _ Hm). cbn. rewrite (Is_true_eq_true _ Hx).
    rewrite IH; [f_equal; lia| |lia]. by eapply mem_at_next.
Qed.

Lemma skip_spec (test : Z -> bool) m s c p : mem_at m p (s ++ [c]) -> Forall test s -> test c = false ->
  skip test m p = Ret (p + Z.of_nat (length s)).
Proof.
  intros Hm Hs Hc. eapply skip_loop_spec; [done..|].
  apply mem_at_length in Hm as Hl; [|by destruct s]. rewrite length_app in Hl. cbn in Hl.
  apply mem_at_pos in Hm. lia.
Qed.

(** To the terminator. *)
Lemma skip_string m p s : cstring m p s -> skip nonzero m p = Ret (p + Z.of_nat (length s)).
Proof.
  intros [Hm Hs]. eapply skip_spec; [done| |done]. eapply Forall_impl; [done|].
  intros c Hc. unfold nonzero. by apply Is_true_eq_left, negb_true_iff, Z.eqb_neq.
Qed.
End skipping.

(** ** The kernel's part *)

Definition text_size (s : list Z) : Z := Z.of_nat (length s).

(** The documented effect: the length, and a copy of [n] bytes padded with zeros. *)
Class KernelStringLaws `{KernelString} : Prop := {
  rt_strlen_spec m p s : cstring m p s -> rt_strlen m p = Ret (text_size s);
  rt_strncpy_spec m d p s n m' : cstring m p s -> 0 <= n ->
    apart d n p (text_size s + 1) ->
    upd_range m d (take (Z.to_nat n) (s ++ replicate (Z.to_nat n) 0)) = Ret m' ->
    rt_strncpy m d p n = Ret m'
}.

Module Kstr.

Definition strlen (m : list Z) (p : Z) : res Z := e ← skip nonzero m p; mret (e - p).
Definition strncpy (m : list Z) (d p n : Z) : res (list Z) :=
  s ← cstr (drop (Z.to_nat p) m);
  upd_range m d (take (Z.to_nat n) (s ++ replicate (Z.to_nat n) 0)).

#[export] Instance kernel : KernelString := {| rt_strlen := strlen; rt_strncpy := strncpy |}.

Lemma cstr_cstring m p s : cstring m p s -> cstr (drop (Z.to_nat p) m) = Ret s.
Proof.
  intros [Hm Hs]. assert (Hp := mem_at_pos _ _ _ Hm).
  assert (Hl := mem_at_length _ _ _ Hm ltac:(by destruct s)). rewrite length_app in Hl. cbn in Hl.
  replace (drop (Z.to_nat p) m) with (s ++ 0 :: drop (Z.to_nat p + length s + 1) m); [by apply cstr_app|].
  replace (s ++ 0 :: _) with ((s ++ [0]) ++ drop (length (s ++ [0])) (drop (Z.to_nat p) m)).
  - rewrite <- (take_drop (length (s ++ [0])) (drop (Z.to_nat p) m)) at 2. f_equal.
    apply mem_at_unique with m p; [done| |].
    + split; [done|]. intros i c Hi. apply lookup_take_Some in Hi as [Hi _]. by rewrite lookup_drop in Hi.
    + rewrite length_take, length_drop, length_app. cbn. lia.
  - rewrite <- app_assoc, drop_drop, length_app. cbn. do 3 f_equal. lia.
Qed.

#[export] Instance laws : KernelStringLaws.
Proof.
  split.
  - intros m p s Hs. change (strlen m p = Ret (text_size s)). unfold strlen.
    rewrite (skip_string _ _ _ Hs). cbn. f_equal. unfold text_size. lia.
  - intros m d p s n m' Hs _ _ Hm. change (strncpy m d p n = Ret m'). unfold strncpy. by rewrite (cstr_cstring _ _ _ Hs).
Qed.
End Kstr.

(** ** Copying *)

(** A copy that goes upwards may also overlap its source from below. *)
Definition behind (d s n : Z) : Prop := d <= s \/ s + n <= d.

Lemma cstring_upd m d x m1 p c s : upd m d x = Ret m1 -> behind d p (text_size s + 2) ->
  cstring m p (c :: s) -> cstring m1 (p + 1) s.
Proof.
  intros Hu Hb (_ & _ & [Hm Hs])%cstring_cons. split; [|done]. eapply mem_at_upd; [done| |done].
  unfold apart, behind, text_size in *. rewrite length_app. cbn [length]. lia.
Qed.

(** Equality of results, component by component. *)
Ltac ret_lia :=
  unfold mret, res_ret;
  repeat match goal with
  | |- Ret _ = Ret _ => f_equal
  | |- (_, _) = (_, _) => f_equal
  | |- ?x = ?x => reflexivity
  | |- @eq Z _ _ => unfold text_size in *; cbn [length] in *; lia
  end.

Ltac sizes := unfold apart, behind, text_size in *; rewrite ?length_app in *; cbn [length] in *; lia.

Section copying.
Context `{KernelStringLaws}.
Implicit Types (m s : list Z).

Lemma copy_loop_spec fuel s : forall m d p m', cstring m p s -> behind d p (text_size s + 1) ->
  (length s < fuel)%nat -> upd_range m d (s ++ [0]) = Ret m' -> copy_loop fuel m d p = Ret m'.
Proof.
  revert s. induction fuel as [|fuel IH]; [lia|]. intros [|c s] m d p m' Hs Hb Hf Hm; cbn.
  - apply cstring_nil in Hs. rewrite Hs. cbn. apply upd_range_cons in Hm as (m1 & Hu & Hm).
    rewrite Hu. cbn. by apply upd_range_nil in Hm as ->.
  - assert (Hs' := Hs). apply cstring_cons in Hs' as (Hi & Hc & _). rewrite Hi. cbn.
    apply upd_range_cons in Hm as (m1 & Hu & Hm). rewrite Hu. cbn.
    apply Z.eqb_neq in Hc. rewrite Hc. apply IH with s; [|sizes|cbn in Hf; lia|done].
    eapply cstring_upd; [done| |done]. sizes.
Qed.


(** [strncat]'s loop writes as much as fits and a terminator. *)
Lemma strncat_loop_spec fuel s : forall m d p n m', cstring m p s -> behind d p (text_size s + 1) ->
  0 < n -> (length s < fuel)%nat ->
  upd_range m d (take (Z.to_nat n) s ++ [0]) = Ret m' -> strncat_loop fuel m d p n = Ret m'.
Proof.
  revert s. induction fuel as [|fuel IH]; [lia|]. intros [|c s] m d p n m' Hs Hb Hn Hf Hm; cbn.
  - apply cstring_nil in Hs. rewrite Hs. cbn. rewrite take_nil in Hm.
    apply upd_range_cons in Hm as (m1 & Hu & Hm). rewrite Hu. cbn. by apply upd_range_nil in Hm as ->.
  - assert (Hs' := Hs). apply cstring_cons in Hs' as (Hi & Hc & _). rewrite Hi. cbn.
    replace (Z.to_nat n) with (S (Z.to_nat (n - 1))) in Hm by lia. cbn [take app] in Hm.
    apply upd_range_cons in Hm as (m1 & Hu & Hm). rewrite Hu. cbn. apply Z.eqb_neq in Hc. rewrite Hc.
    destruct (Z.eqb_spec (n - 1) 0) as [E|E].
    + rewrite E in Hm. by rewrite <- upd_range_one.
    + apply IH with s; [|sizes|lia|cbn in Hf; lia|done]. eapply cstring_upd; [done| |done]. sizes.
Qed.

(** [strlcpy]'s loop, when the string fits and when it does not. *)
Lemma strlcpy_fits fuel s : forall m d p n m', cstring m p s -> behind d p (text_size s + 1) ->
  text_size s < n -> (length s < fuel)%nat -> upd_range m d (s ++ [0]) = Ret m' ->
  strlcpy_loop fuel m d p n = Ret (m', d + text_size s + 1, p + text_size s + 1, n - text_size s).
Proof.
  revert s. induction fuel as [|fuel IH]; [lia|]. intros [|c s] m d p n m' Hs Hb Hn Hf Hm; cbn.
  - apply cstring_nil in Hs. rewrite Hs. cbn. apply upd_range_cons in Hm as (m1 & Hu & Hm).
    rewrite Hu. cbn. apply upd_range_nil in Hm as ->. ret_lia.
  - assert (Hs' := Hs). apply cstring_cons in Hs' as (Hi & Hc & _). rewrite Hi. cbn.
    apply upd_range_cons in Hm as (m1 & Hu & Hm). rewrite Hu. cbn. apply Z.eqb_neq in Hc. rewrite Hc.
    rewrite (proj2 (Z.eqb_neq (n - 1) 0)) by sizes.
    rewrite IH with s m1 (d + 1) (p + 1) (n - 1) m';
      [| |sizes|sizes|cbn in Hf; lia|done]; [|eapply cstring_upd; [done| |done]; sizes].
    ret_lia.
Qed.

Lemma strlcpy_cut fuel s : forall m d p n m', cstring m p s -> behind d p (text_size s + 1) ->
  0 < n <= text_size s -> (length s < fuel)%nat -> upd_range m d (take (Z.to_nat n) s) = Ret m' ->
  strlcpy_loop fuel m d p n = Ret (m', d + n, p + n, 0).
Proof.
  revert s. induction fuel as [|fuel IH]; [lia|]. intros [|c s] m d p n m' Hs Hb Hn Hf Hm; [sizes|]. cbn.
  assert (Hs' := Hs). apply cstring_cons in Hs' as (Hi & Hc & _). rewrite Hi. cbn.
  replace (Z.to_nat n) with (S (Z.to_nat (n - 1))) in Hm by lia. cbn [take] in Hm.
  apply upd_range_cons in Hm as (m1 & Hu & Hm). rewrite Hu. cbn. apply Z.eqb_neq in Hc. rewrite Hc.
  destruct (Z.eqb_spec (n - 1) 0) as [E|E].
  - rewrite E in Hm. apply upd_range_nil in Hm as ->. ret_lia.
  - rewrite IH with s m1 (d + 1) (p + 1) (n - 1) m';
      [| |sizes|sizes|cbn in Hf; lia|done]; [|eapply cstring_upd; [done| |done]; sizes].
    ret_lia.
Qed.

(** Memory has less than 2^32 bytes. *)
Definition addressable (m : list Z) : Prop := Z.of_nat (length m) < 2 ^ 32.

Lemma upd_range_length_eq m p t m' : upd_range m p t = Ret m' -> length m' = length m.
Proof.
  intros (? & ? & ->)%upd_range_Ret. rewrite !length_app, length_take, length_drop. lia.
Qed.

Lemma cstring_apart m d t m' p s : upd_range m d t = Ret m' -> apart d (text_size t) p (text_size s + 1) ->
  cstring m p s -> cstring m' p s.
Proof. intros Hm Hd [Hs Hn]. split; [|done]. eapply mem_at_upd_range; [done| |done]. sizes. Qed.

(** A buffer that holds the string and a terminator is enough for [strcpy]. *)
Lemma strcpy_spec m d p s m' : addressable m -> cstring m p s -> apart d (text_size s + 1) p (text_size s + 1) ->
  upd_range m d (s ++ [0]) = Ret m' -> strcpy m d p = Ret (d, m').
Proof.
  intros Ha Hs Hd Hm. unfold strcpy. rewrite (rt_strlen_spec _ _ _ Hs). cbn -[replicate].
  assert (Hl := cstring_length _ _ _ Hs). assert (Hp := cstring_pos _ _ _ Hs). unfold addressable in Ha.
  rewrite wrap_id by sizes. erewrite rt_strncpy_spec; [done|done|sizes|done|].
  replace (Z.to_nat (text_size s + 1)) with (length s + 1)%nat by sizes.
  by rewrite take_app_add, (Nat.add_1_r (length s)).
Qed.

(** [strlcpy] writes the first [siz - 1] characters and a terminator, at most
    [siz] bytes in all, and returns the length of the source. *)
Lemma strlcpy_spec m d p s siz m' : addressable m -> cstring m p s -> 0 < siz < 2 ^ 32 ->
  apart d (Z.min siz (text_size s + 1)) p (text_size s + 1) ->
  upd_range m d (take (Z.to_nat (siz - 1)) s ++ [0]) = Ret m' ->
  strlcpy m d p siz = Ret (text_size s, m').
Proof.
  intros Ha Hs Hsiz Hd Hm. assert (Hl := cstring_length _ _ _ Hs). assert (Hp := cstring_pos _ _ _ Hs).
  unfold addressable in Ha. unfold strlcpy. rewrite (proj2 (Z.eqb_neq siz 0)) by lia.
  assert (Hlen : length (take (Z.to_nat (siz - 1)) s) = Nat.min (Z.to_nat (siz - 1)) (length s)) by apply length_take.
  destruct (Z.eqb_spec (siz - 1) 0) as [E|E].
  { rewrite E in Hm |- *. change (upd_range m d [0] = Ret m') in Hm. rewrite upd_range_one in Hm.
    cbn -[skip]. rewrite Hm. cbn -[skip].
    rewrite (skip_string m' p s) by (eapply (cstring_apart m d [0]); [by rewrite upd_range_one|sizes|done]). cbn.
    rewrite wrap_id by sizes. ret_lia. }
  destruct (Z_lt_le_dec (text_size s) (siz - 1)) as [C|C].
  - rewrite take_ge in Hm by sizes.
    erewrite strlcpy_fits; [|done|sizes|done|sizes|done]. cbn.
    rewrite (proj2 (Z.eqb_neq _ 0)) by lia. cbn. rewrite wrap_id by sizes. ret_lia.
  - destruct (upd_range_ok m d (take (Z.to_nat (siz - 1)) s)) as [m1 H1];
      [apply upd_range_Ret in Hm; lia|apply upd_range_Ret in Hm; sizes|].
    erewrite strlcpy_cut; [|done|sizes|lia|sizes|done]. cbn -[skip].
    assert (upd m1 (d + (siz - 1)) 0 = Ret m') as ->.
    { apply upd_range_app in Hm as (m2 & H2 & Hm). rewrite H1 in H2. injection H2 as <-.
      rewrite <- upd_range_one, <- Hm. f_equal. sizes. }
    assert (Hs' : cstring m' p s) by (eapply cstring_apart; [done|sizes|done]).
    rewrite <- (take_drop (Z.to_nat (siz - 1)) s) in Hs'. apply cstring_skip, skip_string in Hs'.
    replace (p + Z.of_nat (length (take _ s))) with (p + (siz - 1)) in Hs' by sizes.
    cbn -[skip]. rewrite Hs'. cbn. rewrite length_drop, wrap_id by sizes. ret_lia.
Qed.

Lemma strcat_spec m d p t s m' : cstring m d t -> cstring m p s ->
  apart d (text_size t + text_size s + 1) p (text_size s + 1) ->
  upd_range m (d + text_size t) (s ++ [0]) = Ret m' -> strcat m d p = Ret (d, m').
Proof.
  intros Ht Hs Hd Hm. unfold strcat. rewrite (skip_string _ _ _ Ht). cbn -[copy_loop].
  assert (Hl := cstring_length _ _ _ Hs). assert (Hp := cstring_pos _ _ _ Hs).
  erewrite copy_loop_spec; [done|done|sizes|sizes|done].
Qed.

Lemma strncat_spec m d p t s n m' : cstring m d t -> cstring m p s -> 0 < n ->
  apart d (text_size t + text_size s + 1) p (text_size s + 1) ->
  upd_range m (d + text_size t) (take (Z.to_nat n) s ++ [0]) = Ret m' -> strncat m d p n = Ret (d, m').
Proof.
  intros Ht Hs Hn Hd Hm. unfold strncat. rewrite (proj2 (Z.eqb_neq n 0)) by lia.
  rewrite (skip_string _ _ _ Ht). cbn -[strncat_loop].
  assert (Hl := cstring_length _ _ _ Hs). assert (Hp := cstring_pos _ _ _ Hs).
  erewrite strncat_loop_spec; [done|done|sizes|done|sizes|done].
Qed.
End copying.

(** ** Comparing *)

(** The difference of the first characters that differ; the terminator counts. *)
Fixpoint first_diff (s t : list Z) : Z :=
  match s, t with
  | [], [] => 0
  | [], b :: _ => - b
  | a :: _, [] => a
  | a :: s, b :: t => if a =? b then first_diff s t else a - b
  end.

Definition lower (c : Z) : Z := if (65 <=? c) && (c <=? 90) then c + 32 else c.

Lemma first_diff_eq s t : Forall (fun c => c <> 0) s -> Forall (fun c => c <> 0) t ->
  first_diff s t = 0 <-> s = t.
Proof.
  intros Hs. revert t. induction Hs as [|a s Ha _ IH]; intros [|b t] Ht; cbn; try apply Forall_cons in Ht as [Hb Ht].
  - done.
  - split; [lia|done].
  - split; [lia|done].
  - destruct (Z.eqb_spec a b) as [->|E]; [rewrite (IH _ Ht); naive_solver|]. split; [lia|naive_solver].
Qed.

Lemma first_diff_opp s t : first_diff t s = - first_diff s t.
Proof.
  revert t. induction s as [|a s IH]; intros [|b t]; cbn; try lia.
  rewrite Z.eqb_sym, IH. destruct (Z.eqb_spec a b); lia.
Qed.

Lemma first_diff_bound s t lo hi : lo <= 0 <= hi -> Forall (fun c => lo <= c <= hi) s ->
  Forall (fun c => lo <= c <= hi) t -> lo - hi <= first_diff s t <= hi - lo.
Proof.
  intros H0 Hs. revert t. induction Hs as [|a s Ha _ IH]; intros [|b t] Ht; cbn; try apply Forall_cons in Ht as [Hb Ht];
    try lia. destruct (Z.eqb_spec a b); [auto|lia].
Qed.

Section comparing.
Implicit Types (m s t : list Z).

Lemma strcmp_loop_spec fuel m s : forall t p q, cstring m p s -> cstring m q t -> (length s < fuel)%nat ->
  strcmp_loop fuel m p q = Ret (first_diff s t).
Proof.
  revert s. induction fuel as [|fuel IH]; [lia|]. intros s t p q Hs Ht Hf. cbn in Hf.
  destruct s as [|a s]; [apply cstring_nil in Hs as Ha|apply cstring_cons in Hs as (Ha & Ha0 & Hs)];
  destruct t as [|b t]; try apply cstring_nil in Ht as Hb; try (apply cstring_cons in Ht as (Hb & Hb0 & Ht));
    cbn [strcmp_loop]; rewrite Ha, Hb; cbn [mbind res_bind first_diff]; unfold nonzero.
  - done.
  - done.
  - apply Z.eqb_neq in Ha0. rewrite Ha0, andb_false_r. ret_lia.
  - apply Z.eqb_neq in Ha0. rewrite Ha0. cbn [negb andb]. case_match; [|done].
    apply IH; [done|done|cbn in Hf; lia].
Qed.

Lemma strcmp_spec m s t p q : cstring m p s -> cstring m q t -> strcmp m p q = Ret (first_diff s t).
Proof.
  intros Hs Ht. eapply strcmp_loop_spec; [done..|]. apply cstring_length in Hs as Hl. apply cstring_pos in Hs. lia.
Qed.

Lemma s8_diff a b : byte a -> byte b -> s8 (a - b) = 0 <-> a = b.
Proof. intros. wrap_lia. Qed.

Lemma strncmp_loop_spec fuel m s : forall t p q n, cstring m p s -> cstring m q t -> Forall byte s -> Forall byte t ->
  0 <= n -> (length s < fuel)%nat ->
  strncmp_loop fuel m p q n 0 = Ret (s8 (first_diff (take (Z.to_nat n) s) (take (Z.to_nat n) t))).
Proof.
  revert s. induction fuel as [|fuel IH]; [lia|]. intros s t p q n Hs Ht Bs Bt Hn Hf. cbn in Hf.
  cbn [strncmp_loop]. destruct (Z.eqb_spec n 0) as [->|Hn0]; [done|].
  replace (Z.to_nat n) with (S (Z.to_nat (n - 1))) by lia.
  destruct s as [|a s]; [apply cstring_nil in Hs as Ha|apply cstring_cons in Hs as (Ha & Ha0 & Hs)];
  destruct t as [|b t]; try apply cstring_nil in Ht as Hb; try (apply cstring_cons in Ht as (Hb & Hb0 & Ht));
    rewrite Ha, Hb; cbn [mbind res_bind take first_diff].
  - done.
  - by rewrite orb_true_r.
  - apply Forall_cons in Bs as [Ba Bs]. rewrite (proj2 (Z.eqb_neq (s8 (a - 0)) 0)); [cbn; ret_lia|].
    + f_equal. lia.
    + rewrite s8_diff; [done..|unfold byte; lia].
  - apply Forall_cons in Bs as [Ba Bs]. apply Forall_cons in Bt as [Bb Bt].
    destruct (Z.eqb_spec a b) as [->|E].
    + rewrite Z.sub_diag, (proj2 (Z.eqb_neq b 0) Hb0). change (s8 0) with 0. cbn [negb orb].
      apply IH; [done..|lia|cbn in Hf; lia].
    + by rewrite (proj2 (Z.eqb_neq (s8 (a - b)) 0)) by (by rewrite s8_diff).
Qed.

(** The result has the eight low bits of the difference: zero exactly when the
    strings agree, but with the wrong sign when the difference is over 127. *)
Lemma strncmp_spec m s t p q n : cstring m p s -> cstring m q t -> Forall byte s -> Forall byte t -> 0 <= n ->
  strncmp m p q n = Ret (s8 (first_diff (take (Z.to_nat n) s) (take (Z.to_nat n) t))).
Proof.
  intros Hs Ht Bs Bt Hn. eapply strncmp_loop_spec; [done..|].
  apply cstring_length in Hs as Hl. apply cstring_pos in Hs. lia.
Qed.

Lemma strncmp_ascii m s t p q n : cstring m p s -> cstring m q t ->
  Forall (fun c => 0 <= c <= 127) s -> Forall (fun c => 0 <= c <= 127) t -> 0 <= n ->
  strncmp m p q n = Ret (first_diff (take (Z.to_nat n) s) (take (Z.to_nat n) t)).
Proof.
  intros Hs Ht Bs Bt Hn.
  rewrite (strncmp_spec m s t) by first [done | eapply Forall_impl; [done|]; unfold byte; cbn; lia].
  rewrite swrap_id; [done|lia|].
  assert (H := first_diff_bound (take (Z.to_nat n) s) (take (Z.to_nat n) t) 0 127). cbn.
  specialize (H ltac:(lia) ltac:(by apply Forall_take) ltac:(by apply Forall_take)). lia.
Qed.

Lemma fold_case_spec c : byte c -> fold_case c = u32 (lower c - 65).
Proof.
  intros Hc. unfold fold_case, lower, CHAR_A.
  destruct (Z.leb_spec 65 c), (Z.leb_spec c 90); cbn [andb]; case_match eqn:E;
    rewrite ?Z.ltb_lt, ?Z.ltb_ge in E; wrap_lia.
Qed.

Lemma lower_byte c : byte c -> 0 <= lower c < 256.
Proof. unfold byte, lower. case_match; lia. Qed.

Lemma lower_0 c : byte c -> lower c = 0 <-> c = 0.
Proof. unfold byte, lower. case_match; lia. Qed.

Lemma fold_case_diff a b : byte a -> byte b ->
  (fold_case a = fold_case b <-> lower a = lower b) /\
  (fold_case a = u32 (- CHAR_A) <-> a = 0) /\ s32 (fold_case a - fold_case b) = lower a - lower b.
Proof.
  intros Ha Hb. rewrite !fold_case_spec, <- (lower_0 a) by done.
  assert (Hla := lower_byte a Ha). assert (Hlb := lower_byte b Hb). unfold CHAR_A.
  generalize dependent (lower a). generalize dependent (lower b). intros y Hy x Hx. split_and!; wrap_lia.
Qed.

Lemma strncasecmp_loop_spec fuel m s : forall t p q n, cstring m p s -> cstring m q t ->
  Forall byte s -> Forall byte t -> 0 <= n -> (length s < fuel)%nat ->
  strncasecmp_loop fuel m p q (p + n) =
    Ret (first_diff (lower <$> take (Z.to_nat n) s) (lower <$> take (Z.to_nat n) t)).
Proof.
  revert s. induction fuel as [|fuel IH]; [lia|]. intros s t p q n Hs Ht Bs Bt Hn Hf. cbn in Hf.
  cbn [strncasecmp_loop]. destruct (Z.leb_spec (p + n) p) as [L|L]; [by replace n with 0 by lia|].
  replace (Z.to_nat n) with (S (Z.to_nat (n - 1))) by lia.
  assert (B0 : byte 0) by (unfold byte; lia).
  destruct s as [|a s]; [apply cstring_nil in Hs as Ha|apply cstring_cons in Hs as (Ha & Ha0 & Hs); apply Forall_cons in Bs as [Ba Bs]];
  destruct t as [|b t]; try apply cstring_nil in Ht as Hb;
    try (apply cstring_cons in Ht as (Hb & Hb0 & Ht); apply Forall_cons in Bt as [Bb Bt]);
    rewrite Ha, Hb; cbn [mbind res_bind take first_diff fmap list_fmap].
  - done.
  - destruct (fold_case_diff 0 b) as (_ & H0 & H1); [done..|]. rewrite (proj2 H0), Z.eqb_refl, orb_true_r by done.
    by rewrite <- (proj2 H0), H1.
  - destruct (fold_case_diff a 0) as (H0 & _ & H1); [done..|].
    rewrite (proj2 (Z.eqb_neq (fold_case a) _)); [cbn [negb orb]; rewrite H1; ret_lia; cbn; lia|].
    rewrite H0. change (lower 0) with 0. by rewrite lower_0.
  - destruct (fold_case_diff a b) as (H0 & H1 & H2); [done..|]. rewrite (proj2 (Z.eqb_neq (fold_case a) (u32 _))) by by rewrite H1.
    rewrite orb_false_r. destruct (Z.eqb_spec (lower a) (lower b)) as [E|E].
    + rewrite (proj2 H0 E), Z.eqb_refl. cbn [negb]. replace (p + n) with (p + 1 + (n - 1)) by lia.
      apply IH; [done..|lia|cbn in Hf; lia].
    + rewrite (proj2 (Z.eqb_neq (fold_case a) _)) by by rewrite H0. cbn [negb]. by rewrite H2.
Qed.

Lemma strncasecmp_spec m s t p q n : cstring m p s -> cstring m q t -> Forall byte s -> Forall byte t -> 0 <= n ->
  strncasecmp m p q n = Ret (first_diff (lower <$> take (Z.to_nat n) s) (lower <$> take (Z.to_nat n) t)).
Proof.
  intros Hs Ht Bs Bt Hn. eapply strncasecmp_loop_spec; [done..|].
  apply cstring_length in Hs as Hl. apply cstring_pos in Hs. lia.
Qed.
End comparing.

(** ** Searching *)

Section searching.
Context `{KernelStringLaws}.
Implicit Types (m s t : list Z).

Lemma fuel_enough m p s : cstring m p s -> (length s < S (length m))%nat.
Proof. intros Hs. apply cstring_length in Hs as Hl. apply cstring_pos in Hs. lia. Qed.

(** [strchr] finds the first occurrence, the terminator when asked for 0. *)
Lemma strchr_spec m p a c b : cstring m p (a ++ c :: b) -> byte c -> c ∉ a ->
  strchr m p c = Ret (Some (p + text_size a)).
Proof.
  intros Hs Hc Ha. unfold strchr. rewrite (wrap_id 8 c) by done.
  assert (Hs' := Hs). destruct Hs' as [Hm Hn]. apply Forall_app in Hn as [Hn _].
  rewrite <- app_assoc, mem_at_app in Hm. destruct Hm as [_ Hm]. cbn [app] in Hm.
  rewrite (skip_spec _ m a c p); [|destruct Hs as [Hs _]; replace ((a ++ c :: b) ++ [0]) with ((a ++ [c]) ++ (b ++ [0])) in Hs
    by (by rewrite <- !app_assoc); by apply mem_at_app in Hs as [? _]| |].
  - cbn. rewrite (mem_at_idx _ _ _ _ Hm). cbn. by rewrite Z.eqb_refl.
  - apply Forall_forall. intros x Hx. apply Is_true_eq_left, andb_true_iff. unfold nonzero.
    rewrite !negb_true_iff, !Z.eqb_neq. rewrite Forall_forall in Hn. split; [by apply Hn|by intros ->].
  - by rewrite Z.eqb_refl, andb_false_r.
Qed.

Lemma strchr_absent m p s c : cstring m p s -> byte c -> c <> 0 -> c ∉ s -> strchr m p c = Ret None.
Proof.
  intros [Hm Hn] Hc Hc0 Hs. unfold strchr. rewrite (wrap_id 8 c) by done.
  rewrite (skip_spec _ m s 0 p); [|done| |done].
  - apply mem_at_app in Hm as [_ Hm]. cbn [mbind res_bind]. rewrite (mem_at_idx _ _ _ _ Hm). cbn [mbind res_bind].
    by rewrite (proj2 (Z.eqb_neq 0 c)).
  - apply Forall_forall. intros x Hx. apply Is_true_eq_left, andb_true_iff. unfold nonzero.
    rewrite !negb_true_iff, !Z.eqb_neq. rewrite Forall_forall in Hn. split; [by apply Hn|by intros ->].
Qed.

Fixpoint last_index (c p : Z) (s : list Z) (l : option Z) : option Z :=
  match s with [] => l | x :: s => last_index c (p + 1) s (if x =? c then Some p else l) end.

Lemma strrchr_loop_spec fuel m s : forall p c l, cstring m p s -> (length s < fuel)%nat ->
  strrchr_loop fuel m p c l = Ret (last_index c p (s ++ [0]) l).
Proof.
  revert s. induction fuel as [|fuel IH]; [lia|]. intros [|x s] p c l Hs Hf.
  - apply cstring_nil in Hs. cbn. rewrite Hs. cbn. done.
  - apply cstring_cons in Hs as (Hx & Hx0 & Hs). cbn [strrchr_loop]. rewrite Hx. cbn [mbind res_bind].
    rewrite (proj2 (Z.eqb_neq _ _) Hx0). cbn [app last_index]. apply IH; [done|cbn in Hf; lia].
Qed.

Lemma last_index_app c p s t l : last_index c p (s ++ t) l = last_index c (p + text_size s) t (last_index c p s l).
Proof.
  revert p l. induction s as [|x s IH]; intros p l; [unfold text_size; cbn; by rewrite Z.add_0_r|].
  cbn [app last_index]. rewrite IH. f_equal. unfold text_size. cbn. lia.
Qed.

Lemma last_index_absent c p s l : c ∉ s -> last_index c p s l = l.
Proof.
  revert p l. induction s as [|x s IH]; intros p l Hc; [done|]. rewrite not_elem_of_cons in Hc. destruct Hc as [Hx Hc].
  cbn. rewrite IH by done. by rewrite (proj2 (Z.eqb_neq x c)).
Qed.

(** [strrchr] finds the last one. *)
Lemma strrchr_spec m p a c b : cstring m p (a ++ c :: b) -> byte c -> c <> 0 -> c ∉ b ->
  strrchr m p c = Ret (Some (p + text_size a)).
Proof.
  intros Hs Hc Hc0 Hb. unfold strrchr. rewrite (wrap_id 8 c) by done.
  erewrite strrchr_loop_spec; [|done|by eapply fuel_enough].
  rewrite <- app_assoc, last_index_app. cbn [app last_index]. rewrite Z.eqb_refl.
  rewrite last_index_absent; [done|]. rewrite elem_of_app. intros [?|?%list_elem_of_singleton]; done.
Qed.

(** *** Spans *)

Fixpoint prefix_while (P : Z -> bool) (s : list Z) : list Z :=
  match s with [] => [] | c :: s => if P c then c :: prefix_while P s else [] end.

Lemma prefix_while_ext (P Q : Z -> bool) s : (forall c, P c = Q c) -> prefix_while P s = prefix_while Q s.
Proof. intros HPQ. induction s as [|c s IH]; [done|]. cbn. by rewrite HPQ, IH. Qed.

Definition member (set : list Z) (c : Z) : bool := bool_decide (c ∈ set).

Lemma in_set_spec m c set : forall p, mem_at m p set -> in_set (length set) m c p = Ret (member set c).
Proof.
  induction set as [|x set IH]; intros p Hm; cbn.
  - f_equal.
  - rewrite (mem_at_idx _ _ _ _ Hm). cbn. rewrite IH by (by eapply mem_at_next). unfold member.
    destruct (Z.eqb_spec c x) as [->|E]; f_equal; [rewrite bool_decide_true by constructor; done|].
    apply bool_decide_ext. rewrite elem_of_cons. tauto.
Qed.

Lemma span_loop_spec fuel want m d set s : forall p l, cstring m d set -> cstring m p s -> (S (length s) < fuel)%nat ->
  span_loop fuel want m p d (text_size set) true l =
    Ret (l + text_size (prefix_while (fun c => Bool.eqb (member set c) want) s)).
Proof.
  revert s. induction fuel as [|fuel IH]; [lia|]. intros [|c s] p l Hd Hs Hf.
  - apply cstring_nil in Hs. cbn. rewrite Hs. cbn. ret_lia.
  - apply cstring_cons in Hs as (Hc & Hc0 & Hs). cbn [span_loop]. rewrite Hc. cbn [mbind res_bind].
    rewrite (proj2 (Z.eqb_neq _ _) Hc0). unfold text_size. rewrite Nat2Z.id, in_set_spec by by apply cstring_mem.
    cbn [mbind res_bind prefix_while]. destruct (Bool.eqb (member set c) want) eqn:E.
    + fold (text_size set). rewrite (IH s); [ret_lia|done|done|cbn in Hf; lia].
    + destruct fuel; [cbn in Hf; lia|]. cbn. ret_lia.
Qed.

Lemma strspn_spec m p d s set : cstring m p s -> cstring m d set ->
  strspn m p d = Ret (text_size (prefix_while (member set) s)).
Proof.
  intros Hs Hd. unfold strspn. rewrite (rt_strlen_spec _ _ _ Hd). cbn [mbind res_bind].
  rewrite (span_loop_spec _ _ m d set s) by (try done; assert (Hf := fuel_enough _ _ _ Hs); lia).
  rewrite Z.add_0_l. do 2 f_equal. apply prefix_while_ext. intros c. by destruct (member set c).
Qed.

Lemma strcspn_spec m p d s set : cstring m p s -> cstring m d set ->
  strcspn m p d = Ret (text_size (prefix_while (fun c => negb (member set c)) s)).
Proof.
  intros Hs Hd. unfold strcspn. rewrite (rt_strlen_spec _ _ _ Hd). cbn [mbind res_bind].
  rewrite (span_loop_spec _ _ m d set s) by (try done; assert (Hf := fuel_enough _ _ _ Hs); lia).
  by rewrite Z.add_0_l.
Qed.
End searching.

(** ** Tokens *)

(** The maximal runs of characters that are not separators: a character joins the
    run that follows it unless a separator does. *)
Fixpoint tokens (sep : Z -> bool) (s : list Z) : list (list Z) :=
  match s with
  | [] => []
  | c :: s' =>
      if sep c then tokens sep s' else
      match s' with
      | [] => [[c]]
      | c' :: _ => if sep c' then [c] :: tokens sep s'
                   else match tokens sep s' with t :: ts => (c :: t) :: ts | [] => [[c]] end
      end
  end.

(** A client that takes all tokens of a string: their addresses. *)
Fixpoint split_all `{KernelString} (fuel : nat) (s : option Z) (delim : Z) : ST (list Z * option Z) (list Z) :=
  match fuel with
  | O => lift (Err OutOfFuel)
  | S fuel =>
      p ← strtok s delim;
      match p with
      | None => mret []
      | Some p => ps ← split_all fuel None delim; mret (p :: ps)
      end
  end.

Section tokenising.
Context `{KernelStringLaws}.
Implicit Types (m s t : list Z) (sep : Z -> bool).

Lemma tokens_skip sep a s : Forall sep a -> tokens sep (a ++ s) = tokens sep s.
Proof. induction 1 as [|c a Hc _ IH]; [done|]. cbn. by rewrite (Is_true_eq_true _ Hc). Qed.

Lemma tokens_first sep t r : Forall (fun c => negb (sep c)) t -> t <> [] ->
  match r with [] => True | c :: _ => sep c end -> tokens sep (t ++ r) = t :: tokens sep r.
Proof.
  intros Ht Hne Hr. induction Ht as [|c t Hc Ht IH]; [done|]. apply Is_true_eq_true, negb_true_iff in Hc.
  destruct t as [|c' t].
  - cbn. rewrite Hc. destruct r as [|c' r]; [done|]. by rewrite (Is_true_eq_true _ Hr).
  - specialize (IH ltac:(done)). apply Forall_inv, Is_true_eq_true, negb_true_iff in Ht.
    change (tokens sep ((c :: c' :: t) ++ r)) with
      (if sep c then tokens sep ((c' :: t) ++ r) else
       if sep c' then [c] :: tokens sep ((c' :: t) ++ r)
       else match tokens sep ((c' :: t) ++ r) with u :: us => (c :: u) :: us | [] => [[c]] end).
    by rewrite Hc, Ht, IH.
Qed.

(** A text is separators, a token and a rest that begins with a separator. *)
Lemma token_split sep s : exists a t r, s = a ++ t ++ r /\ Forall sep a /\ Forall (fun c => negb (sep c)) t /\
  match r with [] => True | c :: _ => sep c end /\ (t = [] -> r = []).
Proof.
  induction s as [|c s (a & t & r & -> & Ha & Ht & Hr & Hne)].
  { exists [], [], []. by repeat split. }
  destruct (sep c) eqn:E.
  - exists (c :: a), t, r. repeat split; [|done..]. constructor; [by rewrite E|done].
  - destruct a as [|c' a].
    + exists [], (c :: t), r. repeat split; [done| |done|done]. constructor; [by rewrite E|done].
    + exists [], [c], ((c' :: a) ++ t ++ r). repeat split; [done| | |done].
      * constructor; [by rewrite E|done].
      * by apply Forall_inv in Ha.
Qed.

Lemma prefix_while_split (P : Z -> bool) a s : Forall P a -> match s with [] => True | c :: _ => negb (P c) end ->
  prefix_while P (a ++ s) = a.
Proof.
  intros Ha Hs. induction Ha as [|c a Hc _ IH]; cbn.
  - destruct s as [|c s]; [done|]. cbn. apply Is_true_eq_true, negb_true_iff in Hs. by rewrite Hs.
  - by rewrite (Is_true_eq_true _ Hc), IH.
Qed.

(** [m'] is [m] with changes between [p] and [p + n] only. *)
Definition changes (p n : Z) (m m' : list Z) : Prop :=
  length m' = length m /\ forall q t, apart p n q (text_size t) -> mem_at m q t -> mem_at m' q t.

Lemma changes_refl p n m : changes p n m m.
Proof. by split. Qed.

Lemma changes_trans p n p' n' m m1 m2 : changes p n m m1 -> changes p' n' m1 m2 -> p <= p' -> p' + n' <= p + n ->
  changes p n m m2.
Proof.
  intros [L1 H1] [L2 H2] Hp Hn. split; [congruence|]. intros q t Hd Hm. apply H2; [sizes|]. by apply H1.
Qed.

Lemma changes_cstring p n m m' q t : changes p n m m' -> apart p n q (text_size t + 1) -> cstring m q t -> cstring m' q t.
Proof. intros [_ Hc] Hd [Hm Ht]. split; [|done]. apply Hc; [sizes|done]. Qed.

Lemma upd_changes p n m i x m' : upd m i x = Ret m' -> p <= i < p + n -> changes p n m m'.
Proof.
  intros Hu Hi. split; [by eapply upd_length|]. intros q t Hd Hm. eapply mem_at_upd; [done| |done]. sizes.
Qed.

Variables (d : Z) (set : list Z).
Abbreviation sep := (member set).

(** One call, where there is nothing left, where the token is the last one, and
    where it is cut off. *)
Lemma strtok_r_none m p a ptr : cstring m d set -> cstring m p a -> Forall sep a ->
  strtok_r m (Some p) d ptr = Ret (None, Some (p + text_size a), m).
Proof.
  intros Hd Hp Ha. unfold strtok_r. cbn [mbind res_bind].
  rewrite (strspn_spec _ _ _ _ _ Hp Hd), <- (app_nil_r a), prefix_while_split by (rewrite ?app_nil_r; done).
  cbn [mbind res_bind]. rewrite <- (app_nil_r a) in Hp. apply cstring_skip, cstring_nil in Hp.
  unfold text_size. rewrite app_nil_r. by rewrite Hp.
Qed.

Lemma strtok_r_token m p a t r ptr : cstring m d set -> cstring m p (a ++ t ++ r) -> Forall sep a ->
  Forall (fun c => negb (sep c)) t -> t <> [] -> match r with [] => True | c :: _ => sep c end ->
  strtok_r m (Some p) d ptr =
    let e := p + text_size a + text_size t in
    match r with
    | [] => Ret (Some (p + text_size a), Some e, m)
    | _ => m' ← upd m e 0; Ret (Some (p + text_size a), Some (e + 1), m')
    end.
Proof.
  intros Hd Hp Ha Ht Hne Hr. unfold strtok_r. cbn [mbind res_bind].
  assert (Hq := cstring_skip _ _ _ _ Hp). fold (text_size a) in Hq.
  assert (He := cstring_skip _ _ _ _ Hq). fold (text_size t) in He.
  rewrite (strspn_spec _ _ _ _ _ Hp Hd), prefix_while_split; [|done|destruct t; [done|by apply Forall_inv in Ht]].
  cbn [mbind res_bind]. rewrite (strcspn_spec _ _ _ _ _ Hq Hd), prefix_while_split;
    [|done|destruct r; [done|]; by rewrite negb_involutive].
  destruct t as [|c t]; [done|]. apply cstring_cons in Hq as (Hc & Hc0 & _).
  rewrite Hc. cbn [mbind res_bind]. rewrite (proj2 (Z.eqb_neq _ _) Hc0). cbn [mbind res_bind].
  destruct r as [|c' r].
  - apply cstring_nil in He. by rewrite He.
  - apply cstring_cons in He as (Hc' & Hc0' & _). rewrite Hc'. cbn [mbind res_bind].
    by rewrite (proj2 (Z.eqb_neq _ _) Hc0').
Qed.

Lemma cstring_cut m p t c r m1 : cstring m p (t ++ c :: r) -> upd m (p + text_size t) 0 = Ret m1 ->
  cstring m1 p t /\ cstring m1 (p + text_size t + 1) r.
Proof.
  intros [Hm Hn] Hu. rewrite <- app_assoc, mem_at_app in Hm. destruct Hm as [Ht Hr].
  apply Forall_app in Hn as [Hnt Hnr]. apply Forall_cons in Hnr as [_ Hnr]. cbn [app] in Hr.
  split; (split; [|done]).
  - apply mem_at_app. split; [eapply mem_at_upd; [done| |done]; sizes|].
    apply upd_range_at with m. by rewrite upd_range_one.
  - eapply mem_at_upd; [done| |by eapply mem_at_next]. sizes.
Qed.

Lemma strtok_none m p ptr ptr' first : first = Some p \/ first = None /\ ptr = Some p ->
  strtok_r m first d ptr = strtok_r m (Some p) d ptr'.
Proof. by intros [->|[-> ->]]. Qed.

Lemma split_all_more fuel m first ptr q pos m1 : strtok_r m first d ptr = Ret (Some q, pos, m1) ->
  split_all (S fuel) first d (m, ptr) =
    match split_all fuel None d (m1, pos) with Ret (ps, x) => Ret (q :: ps, x) | Err f => Err f end.
Proof. intros E. cbn [split_all]. unfold strtok, mbind at 1, st_bind. by rewrite E. Qed.

Lemma split_all_end fuel m first ptr pos m1 : strtok_r m first d ptr = Ret (None, pos, m1) ->
  split_all (S fuel) first d (m, ptr) = Ret ([], (m1, pos)).
Proof. intros E. cbn [split_all]. unfold strtok, mbind at 1, st_bind. by rewrite E. Qed.

Lemma split_all_spec fuel : forall s m p ptr first, first = Some p \/ first = None /\ ptr = Some p ->
  cstring m d set -> cstring m p s -> apart p (text_size s + 1) d (text_size set + 1) -> (length s < fuel)%nat ->
  exists ps m' pos, split_all fuel first d (m, ptr) = Ret (ps, (m', pos)) /\
    Forall2 (cstring m') ps (tokens sep s) /\ changes p (text_size s) m m'.
Proof.
  induction fuel as [|fuel IH]; [lia|]. intros s m p ptr first Hf Hd Hp Hap Hlen.
  destruct (token_split sep s) as (a & t & r & -> & Ha & Ht & Hr & Hne).
  destruct t as [|c t].
  { rewrite (Hne eq_refl) in *. rewrite app_nil_l, app_nil_r in *. assert (E := strtok_r_none _ _ _ ptr Hd Hp Ha).
    exists [], m, (Some (p + text_size a)). rewrite <- (strtok_none m p ptr ptr first Hf) in E.
    split; [by apply split_all_end|]. rewrite <- (app_nil_r a), tokens_skip by done.
    split; [constructor|apply changes_refl]. }
  assert (E := strtok_r_token _ _ _ _ _ ptr Hd Hp Ha Ht ltac:(done) Hr).
  rewrite <- (strtok_none m p ptr ptr first Hf) in E. rewrite (tokens_skip _ _ _ Ha), tokens_first by done.
  assert (Hq := cstring_skip _ _ _ _ Hp). fold (text_size a) in Hq. assert (Hpos : (0 < length (c :: t))%nat) by (cbn; lia).
  revert Ht Hlen Hap Hp Hq E Hpos. generalize (c :: t). clear c t Hne. intros t Ht Hlen Hap Hp Hq E Hpos. cbn beta zeta in E. rewrite !length_app in Hlen.
  destruct r as [|c r].
  - rewrite app_nil_r in Hq. rewrite (split_all_more _ _ _ _ _ _ _ E). cbn in Hpos, Hlen.
    destruct fuel as [|fuel]; [lia|]. set (e := p + text_size a + text_size t) in *.
    assert (He : cstring m e []) by (apply (cstring_skip m _ t []); by rewrite app_nil_r).
    rewrite (split_all_end fuel m None (Some e) (Some (e + text_size [])) m)
      by (apply (strtok_r_none m e [] None Hd He); done).
    eexists _, _, _. split; [done|]. split; [|apply changes_refl]. by constructor.
  - assert (exists m1, upd m (p + text_size a + text_size t) 0 = Ret m1) as [m1 Hu].
    { eexists. apply upd_ok. apply cstring_length in Hp as Hl. apply cstring_pos in Hp. sizes. }
    rewrite Hu in E. cbn [mbind res_bind] in E. rewrite (split_all_more _ _ _ _ _ _ _ E). destruct (cstring_cut _ _ _ _ _ _ Hq Hu) as [Hq1 Hr1].
    assert (Hd1 : cstring m1 d set).
    { eapply (changes_cstring (p + text_size a + text_size t) 1); [by eapply upd_changes; [done|lia]| |done]. sizes. }
    destruct (IH r m1 (p + text_size a + text_size t + 1) (Some (p + text_size a + text_size t + 1)) None)
      as (ps & m' & pos & -> & Hps & Hch); [by right|done|done|sizes|cbn in *; lia|].
    exists ((p + text_size a) :: ps), m', pos. split; [done|]. cbn [tokens]. rewrite (Is_true_eq_true _ Hr).
    split; [|eapply changes_trans; [eapply upd_changes; [done|]|done| |]; sizes].
    constructor; [|done]. eapply changes_cstring; [done| |done]. sizes.
Qed.
End tokenising.


Import Kstr.

Definition sample : list Z := str "a,bc;;d" ++ [0] ++ str ",;" ++ [0].


(** ** Where the functions are not those of the standard *)

(** One character is asked for, and two are stored. *)
Example scan_char_two : sscanf (str "ab" ++ [0] ++ str "%c" ++ [0; 9; 9]) 0 3 [6] =
  Ret (1, str "ab" ++ [0] ++ str "%c" ++ [0] ++ str "ab").
Proof. by vm_compute. Qed.

(** A negative number is not read, nor a hexadecimal one that starts with a letter. *)
Example scan_negative : fst <$> sscanf (str "-5" ++ [0] ++ str "%d" ++ [0; 9; 9; 9; 9]) 0 3 [6] = Ret 0.
Proof. by vm_compute. Qed.
Example scan_hex_letter : fst <$> sscanf (str "f1" ++ [0] ++ str "%x" ++ [0; 9; 9; 9; 9]) 0 3 [6] = Ret 0.
Proof. by vm_compute. Qed.

(** What a word leaves of its width counts for the next conversion, which has none. *)
Example scan_width_kept :
  drop 17 <$> (snd <$> sscanf (str "ab cdefg" ++ [0] ++ str "%5s%s" ++ [0; 0; 0] ++ replicate 12 9) 0 9 [17; 20]) =
  Ret (str "ab" ++ [0] ++ str "cde" ++ [0; 9; 9; 9; 9; 9]).
Proof. by vm_compute. Qed.

(** The difference of two characters is kept in a [signed char]. *)
Example strncmp_sign : strncmp [200; 0; 1; 0] 0 2 1 = Ret (-57).
Proof. by vm_compute. Qed.

(** The base asked for gives way to a prefix. *)
Example strtoull_base : simple_strtoull (str "0x10" ++ [0]) 0 10 = Ret (16, 4).
Proof. by vm_compute. Qed.

(** ** Decimal numbers *)

Definition decimal (v : Z) (s : list Z) : Z := foldl (fun a c => a * 10 + (c - 48)) v s.
Definition numeral (s : list Z) : Prop := Forall (fun c => 48 <= c < 58) s.

Lemma decimal_grows s : numeral s -> forall v, 0 <= v -> v <= decimal v s.
Proof. unfold decimal. induction 1 as [|c s Hc _ IH]; intros v Hv; cbn [foldl]; [lia|]. etrans; [|apply IH]; lia. Qed.

Lemma isdigit_numeral c : byte c -> isdigit c = bool_decide (48 <= c < 58).
Proof.
  unfold byte, isdigit, CHAR_0. intros Hc. destruct (Z_lt_ge_dec c 48).
  - assert (u32 (c - 48) = c - 48 + 2 ^ 32) as ->.
    { unfold wrap. symmetry. apply (Z.mod_unique _ _ (-1)); lia. }
    rewrite bool_decide_false by lia. apply Z.ltb_ge. lia.
  - rewrite wrap_id by lia. case_bool_decide; [apply Z.ltb_lt|apply Z.ltb_ge]; lia.
Qed.

Lemma dec_loop_spec fuel m s c : byte c -> ~ 48 <= c < 58 -> numeral s -> forall p v,
  mem_at m p (s ++ [c]) -> 0 <= v -> decimal v s < 2 ^ 31 -> (length s < fuel)%nat ->
  dec_loop fuel m p v = Ret (decimal v s, p + text_size s).
Proof.
  intros Hb Hc Hs. revert fuel. induction Hs as [|x s Hx Hs IH]; intros fuel p v Hm Hv Hd Hf;
    (destruct fuel as [|fuel]; [lia|]); cbn [dec_loop length app] in *; rewrite (mem_at_idx _ _ _ _ Hm); cbn [mbind res_bind].
  - rewrite isdigit_numeral, bool_decide_false by done. unfold text_size. cbn. f_equal. f_equal. lia.
  - rewrite isdigit_numeral, bool_decide_true by (unfold byte; lia).
    assert (Hg := decimal_grows s Hs (v * 10 + (x - 48)) ltac:(lia)). unfold decimal in *. cbn [foldl] in *.
    replace (v * 10 + x - CHAR_0) with (v * 10 + (x - 48)) by (unfold CHAR_0; lia).
    rewrite swrap_id by (cbn; lia). rewrite IH; [|by eapply mem_at_next|lia|done|lia].
    unfold text_size. cbn [length]. f_equal. f_equal. lia.
Qed.

Definition blank (c : Z) : bool := (c =? 32) || (u32 (c - 9) <? 5).

(** [atoi]: white space, a sign or none, and digits up to another character, for a
    number that fits an [int]. *)
Lemma atoi_spec m p ws (sg : list Z) ds c : mem_at m p (ws ++ sg ++ ds ++ [c]) -> Forall blank ws ->
  sg = [] \/ sg = [43] \/ sg = [45] -> numeral ds -> ds <> [] -> byte c -> ~ 48 <= c < 58 -> decimal 0 ds < 2 ^ 31 ->
  atoi m p = Ret (if decide (sg = [45]) then - decimal 0 ds else decimal 0 ds).
Proof.
  intros Hm Hws Hsg Hds Hne Hb Hc Hd. destruct ds as [|d ds]; [done|]. assert (Hd48 := Forall_inv Hds). cbn in Hd48.
  assert (Hg := decimal_grows _ Hds 0 ltac:(lia)). unfold atoi. fold blank.
  assert (exists x y, sg ++ (d :: ds) ++ [c] = x :: y /\ blank x = false) as (x & y & Hxy & Hx).
  { destruct Hsg as [-> | [-> | ->]]; eexists _, _; (split; [reflexivity|]); [|done..].
    unfold blank. rewrite wrap_id by lia. apply orb_false_iff. split; [apply Z.eqb_neq|apply Z.ltb_ge]; lia. }
  rewrite (skip_spec blank m ws x p); [|rewrite Hxy, cons_middle, app_assoc in Hm; by apply mem_at_app in Hm as [? _]|done..].
  cbn [mbind res_bind]. apply mem_at_app in Hm as [_ Hm]. assert (Hi := Hm). rewrite Hxy in Hi. rewrite (mem_at_idx _ _ _ _ Hi).
  cbn [mbind res_bind]. apply mem_at_length in Hm as Hlen; [|by destruct sg]. rewrite !length_app in Hlen. cbn [length] in Hlen.
  apply mem_at_app in Hm as [_ Hm]. assert (Hp := mem_at_pos _ _ _ Hm).
  assert (Hrun := dec_loop_spec (S (length m)) m (d :: ds) c Hb Hc Hds _ 0 Hm ltac:(lia) Hd ltac:(cbn [length]; lia)).
  destruct Hsg as [-> | [-> | ->]]; cbn [app length] in *; injection Hxy as <- <-.
  - rewrite (proj2 (Z.eqb_neq d 45)), (proj2 (Z.eqb_neq d 43)) by lia. cbn [orb]. rewrite Z.add_0_r in Hrun. by rewrite Hrun.
  - cbn [Z.eqb Pos.eqb orb]. change (Z.of_nat 1) with 1 in Hrun. by rewrite Hrun.
  - cbn [Z.eqb Pos.eqb orb]. change (Z.of_nat 1) with 1 in Hrun. rewrite Hrun. cbn [mbind res_bind Z.eqb Pos.eqb].
    rewrite swrap_id; [done|lia|]. change (32 - 1) with 31. lia.
Qed.

Example atoi_minus : atoi (str "  -42x") 0 = Ret (-42).
Proof.
  apply (atoi_spec (str "  -42x") 0 [32; 32] [45] (str "42") 120); [|repeat constructor|by right; right| |done|done|lia|reflexivity].
  - repeat (apply mem_at_cons; split; [done|]). by apply mem_at_nil.
  - unfold numeral. cbn. repeat (apply Forall_cons_2; [lia|]). apply Forall_nil_2.
Qed.
